(* ===== verification/_CoqProject ===== *)
-Q . S2P
Prelude.v
PyVal.v
PyStr.v
Json.v
JsonRound.v
JsonExample.v
PyText.v
PyTime.v
IpAddr.v
NetworkRules.v
RuleSpec.v
RuleTexts.v
NormalizeProps.v
RulesCorrect.v
RuleClaims.v
NetworkLocation.v
PolicyDecision.v
Feodo.v
NetworkActivity.v
NetworkViews.v
ControlPlane.v
NetworkClaims.v
NetworkPatterns.v
Assessment.v
SecureDns.v
SecureDnsService.v
SecureDnsClaims.v
PolicyStore.v
Firewall.v
FirewallClaims.v
Transactions.v
TransactionProps.v
RuleCommands.v
TransactionClaims.v
PolicyService.v
PolicyServiceClaims.v
Notifications.v
ShellSummary.v
Aggregation.v
Commands.v
ClamAv.v
UpdateCenter.v
UpdateProviders.v
UpdateClaims.v
UpdateTransaction.v
UpdateWorkers.v
UpdateServiceClaims.v
Sql.v
TelemetryValues.v
RedactionProps.v
Findings.v
KeyedTables.v
TelemetryStore.v
TelemetryRetention.v
StoreInvariant.v
Base64.v
TelemetryQuery.v
TelemetrySpool.v
TelemetryClaims.v
Files.v
ScanAccess.v
ScanAccessProps.v
ScanReceipts.v
ScanOutput.v
ScanRuns.v
ScanManager.v
ScanRunClaims.v
ScanReceiptClaims.v
ScanSettleClaims.v
Quarantine.v
QuarantineClaims.v
QuarantineContent.v
QuarantineExamples.v
ArrivalQueue.v
ArrivalScanner.v
ArrivalWalks.v
ArrivalClaims.v
AppProjection.v
AppWorkflows.v
AppClaims.v
