(* ===== verification/Prelude.v ===== *)
(** * GREYWARD Security Context: verification development (root file)

    A model of the Python services of GREYWARD that decide about network
    connections, edit the rules for them under authentication, keep name
    resolution private, and show the result, with the theorems that make them
    correct. The code is under
    src/security-center/security-context/greyward_security_context/; a
    definition carries the name of the function, method or constant it models
    unless that name is taken, and its doc comment quotes the Python.

    ** The program and the files that model it

    The control plane answers each new connection of the host firewall from a
    validated policy file, a threat feed and the resolvers in use, and records
    what it decided. A privileged service edits that policy: a caller prepares a
    review, authenticates, and the review is applied to the file and, for
    incoming access, to firewalld. A second one looks for updates and applies
    them; a third scans files for malware and moves what it finds into
    quarantine. All of them write to one bounded telemetry store, from which the
    session shows summaries.

    - PyVal, PyStr, PyText, PyTime, Json, JsonRound, JsonExample, IpAddr, Base64:
      what the code uses of Python. Values, dictionaries and floats (SpecFloat),
      strings, str and repr, moments and ISO text, json.dumps and json.loads
      with their round trip, the ipaddress and base64 modules. Commands: helpers
      for effects over a host that runs commands.
    - NetworkRules ([network_rules.py]): normalize, lifecycle, matches, migrate.
      RuleSpec is the abstract rule; RuleTexts, NormalizeProps, RulesCorrect
      prove the refinement, RuleClaims states it.
    - PolicyStore: class PolicyStore of the same file. The disk holds the policy
      and its recovery copy; a write is three replacements, each of which may
      fail, and each is a sequence of system calls on a file system that keeps
      apart what was written from what was synced. A crash may stop after any
      call and tear what was not synced. The directory is never synced: a write
      that has returned may be lost, which is a finding.
    - Firewall, FirewallClaims ([network_firewall.py]): native rules, capture,
      replacement with roll back, catalog and observation. firewalld is the class
      Firewalld of operations, FirewalldOk states its documented behaviour:
      timed rules end by firewalld's own clock, which never runs back.
    - Transactions, TransactionProps, RuleCommands, TransactionClaims
      ([network_rule_transactions.py]): RuleManager.
    - PolicyService, PolicyServiceClaims ([network_policy_service.py]): the D-Bus
      methods over the manager. The bus, the accounts and PolicyKit are the class
      SystemBus; what the service does while a worker waits for the prompt is the
      argument [meanwhile].
    - PolicyDecision, Feodo, NetworkLocation, NetworkPatterns, Assessment
      ([control_plane.py], [feodo.py], [network_location.py],
      [network_patterns.py], [intelligence.py]): the decision for a connection
      and the evidence about it.
    - NetworkActivity, NetworkViews, ControlPlane, NetworkClaims
      ([control_plane.py]): NetworkState, the store of blocked connections and
      the gRPC handlers, as a step relation over requests.
    - SecureDns, SecureDnsService, SecureDnsClaims ([secure_dns_reconciler.py],
      [secure_dns_split.py]): the reconciliation of name resolution.
      systemd-resolved, NetworkManager and the clock are the class Resolved.
    - Notifications ([scan_notices.py], [notification_router.py]):
      what the desktop shows. The notification server is the class Notifier.
    - ShellSummary, Aggregation ([shell_summary.py], [aggregation.py]): the
      projections for the panel.
    - ClamAv ([clamav.py]): the state of the virus scanner and its cache.
    - UpdateCenter, UpdateProviders, UpdateClaims ([update_center.py],
      [dms_compatibility.py]): the snapshot of updates from its providers and its
      history. UpdateTransaction, UpdateWorkers, UpdateServiceClaims
      ([update_center_bus.py]): the operation of the update service, its workers
      and signals, as a step relation. Commands, daemons and files are a class.
    - Sql, KeyedTables: the tables and the statements the telemetry store uses.
      TelemetryValues, RedactionProps, Findings, TelemetryStore,
      TelemetryRetention, StoreInvariant, TelemetryQuery, TelemetrySpool,
      TelemetryClaims ([telemetry.py], [findings.py]): redaction,
      recording, retention, the inventory of devices, queries with cursors and
      the spool of the unprivileged services. SQLite is the class Sqlite.
    - Files: the file system as a map from paths to nodes. ScanAccess,
      ScanAccessProps ([file_security.py]): which paths and files the scanner,
      which is root, opens for a caller. ScanReceipts ([scan_cache.py]): the
      fingerprint of a tree and the receipts of scans.
    - ScanOutput, ScanRuns, ScanManager, ScanRunClaims, ScanReceiptClaims,
      ScanSettleClaims ([file_security.py]): the lines of the scanner, the worker
      of a scan and the requests of the manager, which share the store and the
      table of tokens.
    - Quarantine, QuarantineClaims, QuarantineContent, QuarantineExamples
      ([file_security.py], [clamav_service.py]): quarantine, restoration and
      removal in two halves around what the session of the user does.
    - ArrivalQueue, ArrivalScanner, ArrivalWalks, ArrivalClaims
      ([arrival_scanner.py]): the queue of files that arrive in the directories
      of the user and on USB storage, the walks that find them and the worker
      that hands them to the scanner. Callbacks, turns and restarts are a step
      relation.
    - AppProjection, AppWorkflows, AppClaims ([application_security.py],
      [application_workflows.py]): what the session shows of the root broker, and
      the reviews, launches and denials it holds, over sequences of calls. The bus
      is a record of what it answers.

    ** How code is modelled

    A pure function that may raise returns [res]; a method that changes its
    object is an action [act S A], a function from the state to an outcome and
    the state, so that an exception keeps the changes made before it. [catch]
    and [finally] are the statements try/except and try/finally, [each] is a loop.
    An interface is a type class over the state of the remote part; a theorem
    that needs its documented behaviour has it as a class of laws, and its
    witness runs on a concrete instance. Values that come from JSON are [val],
    checked where the code checks them: a wrong type raises the exception Python
    raises. What an action leaves alone is a relation between the state before
    and after; [respects] and the tactic [effects] carry it through a program.

    ** What the theorems show

    - Changes are authenticated: whatever a caller sends, the policy, the
      firewall and the undo records change only if he was an administrator freshly
      authenticated within that request; every request is answered and frees its
      slot.
    - Reviews: preparing changes nothing; a cancelled, expired or outdated review
      is refused; a review is used once; a failed application restores the
      firewall, of its timed rules those whose deadline is ahead; tables are bounded; commands stay within their provider.
    - Rules: normalisation yields well-formed rules and is idempotent on them,
      [matches] decides the declarative coverage, ports are covered exactly,
      migration keeps every rule.
    - The file: reads serve validated policies, a write is all or nothing and
      refuses a second writer; whatever system call a crash follows, the policy
      that is read afterwards is the old one or the new one, never a torn one.
    - firewalld: replacement, its frame, and capture and restore as inverses.
    - Decisions: connections to DNS ports stay managed, threats are denied, the
      first rule decides; the feed is validated and an update never loses good
      indicators; the incremental windows equal their definition; the country
      vote is a maximum.
    - The record: bounded and ordered in every reachable state, no connection is
      shown twice, the summary counts every event, the incremental answer is
      complete.
    - Name resolution: a secure provider is reported only on evidence of the same
      request; a read-only runtime only reads; the waits end.
    - Presentation: an acknowledged alert stays quiet, the daily reminders of
      updates excepted; the sections of a stale summary are fixed texts and
      numbers that do not depend on the data; virus definitions are called
      current only on evidence, measured or told by a service whose answer passes
      every check.
    - Updates: looking for updates only reads; no interleaving of requests that
      look or cancel changes the host; the workers end; SUCCESS is verified.
    - Telemetry: secrets in the values of an event do not reach the store (keys
      are not looked at, which is a finding); the pages a client follows neither
      lose nor repeat an event as long as none is cut by the limit on its size;
      retention ends, removes exactly the expired events when the size is within
      its bound, and keeps what is held; replay changes nothing; the inventory
      and the spool.
    - Scans: access follows POSIX.1e, accepted paths and pinned files are the
      caller's own; a completed scan met no failure, limit or change (that the
      scanner names every file is not asked for, which is a finding), a clean
      receipt is vouched for, a valid one means nothing changed, and no scan is
      left running.
    - Quarantine: between the calls of the service its users may do anything in
      their own directories, links in the directory that was handed over for a
      transfer included; no call changes a file of a user outside the directory
      of a transfer, as long as the fixed paths of the service are no links, an
      identifier to restore has no slash and no user acts during the call itself. What is removed is in quarantine, and
      what is restored is what was there.
    - Arrivals: the queue is bounded, drops no pending file without a reason and
      completes none without a valid receipt; only settled files of the user
      below an allowed root are handed to the scanner; a walk finds every file.
    - Application security: a protection is shown only on proof and for as long as
      the proof lasts; a change is sent only for the actor, the review and the
      connection it was reviewed on, and a launch is started once; pages do not
      repeat.

    ** Bounds and fuel

    [loads] parses with fuel equal to the length of the text, which each step
    shortens; the round trip is proved with that fuel. [observed], the wait for
    systemd-resolved, has 162 turns: one per 50 ms for 8 s, one at the deadline
    and one to spare; [wait_terminates] shows that they suffice and that more
    change nothing. The eviction of [prune] has one turn per row and one more,
    each of which removes a row ([prune_keeps_evidence]); the collection of files
    2 + 8192 turns, its bound on visits ([pinned_files]); the walk of a tree
    2 + 4096, its bound on entries ([tree_fuel]). [walk] follows at most 4200
    components and then fails, as the kernel does in a loop of links.
    [drain], a walk of arrivals to its end, needs twice the entries of the disk
    and one turn ([walk_finds_files]); a slice of it has its budget of 1024.
    [mkdir_parents] has one turn per component. [hide_paths] has the length of
    its text. All other recursion is structural.

    ** Limits of the model

    Text is Latin-1: a [str] is a list of code points up to U+00FF, and the one
    character beyond it that the code prints, the dash of the authentication
    prompt, is a parameter. The shortest decimal text of a float, SHA-256, IDNA
    and [json.dumps] with default separators are parameters. A dictionary prints
    in the order of its keys, which is also the order in which the copy of a
    value takes its first 64 entries. Limits of the interpreter (integer texts of
    more than 4300 digits, recursion depth, memory) are not modelled. A handler
    runs without interruption except where a lock is released for a prompt, and
    reads the clock once; the threads of the update service are trees of atomic
    actions. Writing a projection or a state file succeeds; the outcomes of the
    writes of the policy file are arguments. Moments of files and units are
    compared in microseconds.

    SQL: rows that tie in ORDER BY keep the order of the table; the size of the
    database file, integer columns and datetime are the class Sqlite; the spool is
    ASCII. Files: all nodes are on one device, a directory has size 0, names in a
    directory come in the order of the map, two leading slashes are one. What the
    machine answers while a scan runs is the record [run], with what is seen at
    each line. A request of the remediation is not interleaved with the user's
    changes, except between its two halves; each change of the file system in it
    may fail. A turn of the arrival worker sees one disk and one moment, callbacks
    run while it waits for the status of the scanner, and its database answers. A
    request of the reviewed changes reads the clock when it starts and when the
    broker has answered; the descriptors of a launch are an outcome.

    ** Not modelled

    Incident intelligence, the collectors of the session service, Safe
    Open, devices, sensors, backup and recovery: they are listed with the reason
    in the manifest; mostly they pass output of commands and of D-Bus services
    on. Rust, JavaScript, packaging and image scripts are outside the
    language of the development or assemble files. *)
From stdpp Require Export prelude list strings gmap.
From Stdlib Require Export ZArith Lia.
From Stdlib Require Export Sorted.
From Stdlib Require Export SpecFloat.

From Stdlib Require Export Ascii.


#[global] Open Scope Z_scope.
#[global] Open Scope list_scope.

(** ** Exceptions and the result monad *)

(** The Python exception classes the modelled code raises or catches.
    [PolicyError] is a subclass of [ValueError] in the source; [FileNotFoundError],
    [FileExistsError] and [PermissionError] are subclasses of [OSError], raised as
    such where a handler tells them apart; [TelemetryError] is a
    [RuntimeError]; [ApplicationReadError] is an [Exception]; [OverflowError]
    is an [ArithmeticError] and is a subclass of neither. [ProviderError] stands
    for any exception raised by a remote provider (D-Bus, a subprocess). *)
Inductive exn :=
| PolicyError (m : string)
| ValueError (m : string)
| TypeError
| KeyError (k : string)
| AttributeError
| IndexError
| OverflowError
| OSError (m : string)
| FileNotFoundError (m : string)
| FileExistsError (m : string)
| PermissionError (m : string)
| RuntimeError (m : string)
| TelemetryError (m : string)
| ApplicationReadError (m : string)
| ProviderError (m : string).

#[export] Instance exn_eq_dec : EqDecision exn.
Proof. solve_decision. Defined.

(** [str(error)], as stored in [PolicyStore.error] and shown by [failure]. *)
Definition exn_text (e : exn) : string :=
  match e with
  | PolicyError m | ValueError m | OSError m | FileNotFoundError m | FileExistsError m | PermissionError m
  | RuntimeError m | TelemetryError m | ApplicationReadError m | ProviderError m => m
  | KeyError k => "'" +:+ k +:+ "'"
  | TypeError => "unsupported operand type"
  | AttributeError => "object has no attribute"
  | IndexError => "list index out of range"
  | OverflowError => "int too large to convert to float"
  end.

(** [type(error).__name__]. *)
Definition exn_name (e : exn) : string :=
  match e with
  | PolicyError _ => "PolicyError" | ValueError _ => "ValueError" | TypeError => "TypeError" | KeyError _ => "KeyError"
  | AttributeError => "AttributeError" | IndexError => "IndexError" | OverflowError => "OverflowError" | OSError _ => "OSError"
  | FileNotFoundError _ => "FileNotFoundError" | FileExistsError _ => "FileExistsError" | PermissionError _ => "PermissionError"
  | RuntimeError _ => "RuntimeError" | TelemetryError _ => "TelemetryError" | ApplicationReadError _ => "ApplicationReadError"
  | ProviderError m => m
  end.

(** [except ValueError] (which catches [PolicyError] too). *)
Definition is_value_error (e : exn) : bool :=
  match e with PolicyError _ | ValueError _ => true | _ => false end.

(** [except PolicyError]. *)
Definition is_policy_error (e : exn) : bool :=
  match e with PolicyError _ => true | _ => false end.

(** [except OSError]. *)
Definition is_os_error (e : exn) : bool :=
  match e with OSError _ | FileNotFoundError _ | FileExistsError _ | PermissionError _ => true | _ => false end.

Inductive res (A : Type) :=
| Ok (a : A)
| Err (e : exn).
Arguments Ok {A} a.
Arguments Err {A} e.

#[export] Instance res_eq_dec {A} `{EqDecision A} : EqDecision (res A).
Proof. solve_decision. Defined.

#[export] Instance res_ret : MRet res := fun _ a => Ok a.
#[export] Instance res_bind : MBind res := fun _ _ f m =>
  match m with Ok a => f a | Err e => Err e end.
#[export] Instance res_fmap : FMap res := fun _ _ f m =>
  match m with Ok a => Ok (f a) | Err e => Err e end.

Definition is_Ok {A} (m : res A) : Prop := exists a, m = Ok a.

(** [if not b: raise e]. *)
Definition require (b : bool) (e : exn) : res unit := if b then Ok tt else Err e.

(** [try: m  except <p>: h]. *)
Definition try_with {A} (m : res A) (p : exn -> bool) (h : exn -> res A) : res A :=
  match m with
  | Ok a => Ok a
  | Err e => if p e then h e else Err e
  end.

(** A [for] loop whose body can raise. *)
Fixpoint mapM_res {A B} (f : A -> res B) (l : list A) : res (list B) :=
  match l with
  | [] => Ok []
  | x :: l => y ← f x; ys ← mapM_res f l; Ok (y :: ys)
  end.

Fixpoint foldM {A S} (f : S -> A -> res S) (s : S) (l : list A) : res S :=
  match l with
  | [] => Ok s
  | x :: l => s' ← f s x; foldM f s' l
  end.

(** ** Stateful code

    A method that reads and writes a state of type [S] and may raise. An
    exception keeps the state changes made before it, as in the source. *)
Definition act (S A : Type) : Type := S -> res A * S.

#[export] Instance act_ret {S} : MRet (act S) := fun _ a s => (Ok a, s).
#[export] Instance act_bind {S} : MBind (act S) := fun _ _ f m s =>
  match m s with (Ok a, s') => f a s' | (Err e, s') => (Err e, s') end.

Declare Scope act_scope.
Delimit Scope act_scope with act.

Section act.
Context {S : Type}.

(** [raise e]; a pure computation that may raise. *)
Definition raise {A} (e : exn) : act S A := fun s => (Err e, s).
Definition lift {A} (m : res A) : act S A := fun s => (m, s).
Definition gets {A} (f : S -> A) : act S A := fun s => (Ok (f s), s).
Definition modify (f : S -> S) : act S unit := fun s => (Ok tt, f s).

(** [try: m  except <p> as e: h]. *)
Definition catch {A} (m : act S A) (p : exn -> bool) (h : exn -> act S A) : act S A := fun s =>
  match m s with
  | (Ok a, s') => (Ok a, s')
  | (Err e, s') => if p e then h e s' else (Err e, s')
  end.

(** [try: m  finally: f]: an exception of [f] replaces the outcome of [m]. *)
Definition finally {A} (m : act S A) (f : act S unit) : act S A := fun s =>
  let '(r, s') := m s in
  match f s' with (Ok _, s'') => (r, s'') | (Err e, s'') => (Err e, s'') end.

Definition when (b : bool) (m : act S unit) : act S unit := if b then m else mret tt.

(** [for x in l: f(x)]. *)
Fixpoint each {A} (f : A -> act S unit) (l : list A) : act S unit :=
  match l with
  | [] => mret tt
  | x :: l => _ ← f x; each f l
  end.

(** The outcome and the final state of a run. *)
Definition outcome {A} (m : act S A) (s : S) : res A := (m s).1.
Definition after {A} (m : act S A) (s : S) : S := (m s).2.
End act.
#[global] Arguments act_ret : simpl never.

Notation "m 'except' p '=>' h" := (catch m p h) (at level 90, p at level 85, h at level 85) : act_scope.
Notation "m 'always' f" := (finally m f) (at level 90, f at level 85) : act_scope.

(** ** Lemmas on the result monad *)

Lemma bind_Ok {A B} (m : res A) (f : A -> res B) b :
  (m ≫= f) = Ok b <-> exists a, m = Ok a /\ f a = Ok b.
Proof.
  split; [destruct m; intros H; [eauto | discriminate]|].
  intros (a & -> & H). exact H.
Qed.

Lemma bind_Err {A B} (m : res A) (f : A -> res B) e :
  (m ≫= f) = Err e <-> m = Err e \/ exists a, m = Ok a /\ f a = Err e.
Proof.
  split.
  - destruct m as [a|e']; intros H; [right; eauto | left; by injection H as ->].
  - intros [-> | (a & -> & H)]; [reflexivity | exact H].
Qed.

Lemma require_Ok b e u : require b e = Ok u <-> b = true.
Proof. destruct b; split; try done; by destruct u. Qed.

Lemma require_Err b e e' : require b e = Err e' <-> b = false /\ e' = e.
Proof. destruct b; simpl; [by split; [|intros []] | split; [by intros [= ->] | by intros [_ ->]]]. Qed.

Lemma try_with_Ok {A} (m : res A) p h a :
  try_with m p h = Ok a <->
  m = Ok a \/ exists e, m = Err e /\ p e = true /\ h e = Ok a.
Proof.
  destruct m as [a'|e]; simpl.
  - split; [intros [= ->]; by left | intros [[= ->] | (e & H & _)]; done].
  - destruct (p e) eqn:E; split.
    + eauto.
    + intros [? | (e' & [= <-] & _ & ?)]; done.
    + done.
    + intros [? | (e' & [= <-] & ? & ?)]; congruence.
Qed.

Lemma mapM_res_Ok {A B} (f : A -> res B) l k :
  mapM_res f l = Ok k <-> Forall2 (fun x y => f x = Ok y) l k.
Proof.
  revert k; induction l as [|x l IH]; intros k; simpl.
  - split; [by intros [= <-] | by inversion 1].
  - rewrite bind_Ok. split.
    + intros (y & Hy & H). apply bind_Ok in H as (ys & Hys & [= <-]).
      constructor; [done | by apply IH].
    + inversion 1 as [|? y ? ys Hy Hys]; subst. exists y. split; [done|].
      rewrite (proj2 (IH ys) Hys). done.
Qed.

Lemma foldM_app {A S} (f : S -> A -> res S) s l k :
  foldM f s (l ++ k) = foldM f s l ≫= fun s' => foldM f s' k.
Proof.
  revert s; induction l as [|x l IH]; intros s; simpl; [done|].
  destruct (f s x) as [s'|e]; simpl; [apply IH | done].
Qed.

(** Rule induction for [foldM]: an invariant every successful step keeps. *)
Lemma foldM_inv {A S} (P : S -> Prop) (f : S -> A -> res S) l s s' :
  (forall s x s', In x l -> P s -> f s x = Ok s' -> P s') ->
  P s -> foldM f s l = Ok s' -> P s'.
Proof.
  revert s; induction l as [|x l IH]; intros s Hf Hs; simpl.
  - by intros [= <-].
  - rewrite bind_Ok. intros (s1 & H1 & H2).
    eapply (IH s1); [| eapply Hf; [by left | exact Hs | exact H1] | exact H2].
    intros s2 y s3 Hy. apply Hf. by right.
Qed.

(** ** Lemmas on stateful code *)

Section act_lemmas.
Context {S : Type}.

Lemma act_bind_Ok {A B} (m : act S A) (f : A -> act S B) s b s' :
  (m ≫= f) s = (Ok b, s') <-> exists a s1, m s = (Ok a, s1) /\ f a s1 = (Ok b, s').
Proof.
  unfold mbind, act_bind. destruct (m s) as [[a|e] s1]; split; try done.
  - eauto.
  - by intros (a' & s1' & [= <- <-] & Hf).
  - by intros (? & ? & ? & _).
Qed.

Lemma act_bind_Err {A B} (m : act S A) (f : A -> act S B) s e s' :
  (m ≫= f) s = (Err e, s') <->
  m s = (Err e, s') \/ exists a s1, m s = (Ok a, s1) /\ f a s1 = (Err e, s').
Proof.
  unfold mbind, act_bind. destruct (m s) as [[a|e'] s1]; split.
  - eauto.
  - intros [Hx|(? & ? & Hx & ?)]; [done|]. by simplify_eq.
  - intros [= -> ->]. by left.
  - intros [Hx|(? & ? & Hx & _)]; [|done]. by simplify_eq.
Qed.

(** The Hoare rule of a loop: an invariant of every iteration, normal or not. *)
Lemma each_inv {A} (P : S -> Prop) (f : A -> act S unit) l s :
  (forall x s, In x l -> P s -> P (after (f x) s)) -> P s -> P (after (each f l) s).
Proof.
  unfold after. revert s; induction l as [|x l IH]; intros s Hf Hs; [done|].
  cbn [each]. unfold mbind, act_bind. pose proof (Hf x s (in_eq _ _) Hs) as Hx.
  destruct (f x s) as [[[]|e] s1]; [|done]. apply IH; [|done].
  intros y s2 Hy. apply Hf. by right.
Qed.
End act_lemmas.

(** Lemmas that close the goals left by an inversion of the code's guards. *)
Create HintDb code discriminated.
Create Rewrite HintDb code.

(** ** Effects

    [m] relates its final state to its initial one by [R], whether it returns or
    raises. *)
Section respects.
Context {S : Type} (R : S -> S -> Prop) `{!PreOrder R}.

Definition respects {A} (m : act S A) : Prop := forall s, R s (after m s).

Lemma respects_ret {A} (a : A) : respects (mret a).
Proof. intros s. reflexivity. Qed.

Lemma respects_lift {A} (r : res A) : respects (lift r).
Proof. intros s. reflexivity. Qed.

Lemma respects_raise {A} e : respects (raise (A := A) e).
Proof. intros s. reflexivity. Qed.

Lemma respects_gets {A} (f : S -> A) : respects (gets f).
Proof. intros s. reflexivity. Qed.

Lemma respects_modify (f : S -> S) : (forall s, R s (f s)) -> respects (modify f).
Proof. intros Hf s. apply Hf. Qed.

Lemma respects_bind {A B} (m : act S A) (f : A -> act S B) :
  respects m -> (forall a, respects (f a)) -> respects (m ≫= f).
Proof.
  intros Hm Hf s. specialize (Hm s). unfold after, mbind, act_bind in *.
  destruct (m s) as [[a|e] s1]; [|done]. etransitivity; [exact Hm|]. apply Hf.
Qed.

Lemma respects_catch {A} (m : act S A) p h :
  respects m -> (forall e, respects (h e)) -> respects (catch m p h).
Proof.
  intros Hm Hh s. specialize (Hm s). unfold after, catch in *.
  destruct (m s) as [[a|e] s1]; [done|]. destruct (p e); [|done]. etransitivity; [exact Hm|]. apply Hh.
Qed.

Lemma respects_finally {A} (m : act S A) f : respects m -> respects f -> respects (finally m f).
Proof.
  intros Hm Hf s. specialize (Hm s). unfold after, finally in *.
  destruct (m s) as [r s1]. specialize (Hf s1). unfold after in Hf.
  destruct (f s1) as [[u|e] s2]; cbn in *; by etransitivity.
Qed.

Lemma respects_each {A} (f : A -> act S unit) l : (forall x, respects (f x)) -> respects (each f l).
Proof.
  intros Hf. induction l as [|x l IH]; [apply respects_ret|]. cbn [each].
  apply respects_bind; [apply Hf|by intros _].
Qed.
End respects.
#[export] Hint Resolve respects_ret respects_lift respects_raise respects_gets respects_bind
  respects_catch respects_finally respects_each : code.

(** ** Automation *)

(** Descends through the structure of stateful code. *)
Ltac effects :=
  repeat first
    [ match goal with |- PreOrder _ => typeclasses eauto end
    | apply respects_ret | apply respects_lift | apply respects_raise | apply respects_gets
    | apply respects_bind; [typeclasses eauto | |intros ?] | apply respects_catch; [typeclasses eauto | |intros ?]
    | apply respects_finally; [typeclasses eauto | |] | assumption
    | match goal with
      | |- respects _ (match ?x with _ => _ end) => destruct x
      | |- respects _ (let '_ := ?x in _) => destruct x
      end ].

(** Inverts every hypothesis saying that a monadic computation succeeded. *)
Ltac inv_ok :=
  repeat match goal with
  | H : (_ ≫= _) = Ok _ |- _ =>
      let a := fresh "a" in let Ha := fresh "Ha" in
      apply bind_Ok in H as (a & Ha & H)
  | H : mret _ = Ok _ |- _ => injection H as H
  | H : Ok _ = Ok _ |- _ => injection H as H
  | H : Err _ = Ok _ |- _ => discriminate H
  | H : require _ _ = Ok _ |- _ => apply require_Ok in H
  end.

(** Splits boolean connectives in the context. *)
Ltac split_bool :=
  repeat match goal with
  | H : _ && _ = true |- _ => apply andb_true_iff in H as [? ?]
  | H : _ || _ = false |- _ => apply orb_false_iff in H as [? ?]
  | H : negb _ = true |- _ => apply negb_true_iff in H
  | H : negb _ = false |- _ => apply negb_false_iff in H
  end.

(** Turns boolean comparisons on [Z] in the context into propositions. *)
Ltac zify_bool :=
  repeat match goal with
  | H : (_ <=? _) = true |- _ => apply Z.leb_le in H
  | H : (_ <=? _) = false |- _ => apply Z.leb_gt in H
  | H : (_ <? _) = true |- _ => apply Z.ltb_lt in H
  | H : (_ <? _) = false |- _ => apply Z.ltb_ge in H
  | H : (_ =? _) = true |- _ => apply Z.eqb_eq in H
  | H : (_ =? _) = false |- _ => apply Z.eqb_neq in H
  end.

#[export] Hint Resolve in_eq in_cons in_or_app : code.
#[export] Hint Rewrite @length_map @length_app @length_rev @rev_involutive @app_nil_r : code.

(** ** Generic list lemmas *)

Lemma Sorted_mono {A} (R R' : A -> A -> Prop) l :
  (forall x y, R x y -> R' x y) -> Sorted R l -> Sorted R' l.
Proof.
  intros HR. induction 1 as [|x l _ IH Hhd]; constructor; [done|].
  destruct Hhd; constructor. by apply HR.
Qed.

Lemma existsb_In {A} (f : A -> bool) l :
  existsb f l = true <-> exists x, In x l /\ f x = true.
Proof. apply existsb_exists. Qed.

Lemma existsb_not_In {A} (f : A -> bool) l :
  existsb f l = false <-> forall x, In x l -> f x = false.
Proof.
  induction l as [|x l IH]; simpl; [done|].
  rewrite orb_false_iff, IH. split.
  - intros [Hx Hl] y [-> | Hy]; auto.
  - intros H. split; auto.
Qed.

(** [l[-n:]]. *)
Definition last_n {A} (n : nat) (l : list A) : list A := drop (length l - n) l.

Lemma last_n_length {A} n (l : list A) : (length (last_n n l) <= n)%nat.
Proof. unfold last_n. rewrite length_drop. lia. Qed.

Lemma last_n_all {A} n (l : list A) : (length l <= n)%nat -> last_n n l = l.
Proof. intros H. unfold last_n. by replace (length l - n)%nat with 0%nat by lia. Qed.

Lemma last_n_suffix {A} n (l : list A) : exists k, l = k ++ last_n n l.
Proof. exists (take (length l - n) l). symmetry. apply take_drop. Qed.

(** ** Generic string lemmas *)

Lemma string_compare_refl s : String.compare s s = Eq.
Proof. induction s as [|c s IH]; simpl; [done|]. unfold Ascii.compare. by rewrite N.compare_refl. Qed.

Lemma string_compare_antisym s t : String.compare s t = CompOpp (String.compare t s).
Proof. apply String.compare_antisym. Qed.

Lemma string_app_nil_r s : s +:+ "" = s.
Proof. induction s as [|c s IH]; [done|]. exact (f_equal (String c) IH). Qed.

Lemma string_app_assoc s t u : (s +:+ t) +:+ u = s +:+ (t +:+ u).
Proof. induction s as [|c s IH]; [done|]. exact (f_equal (String c) IH). Qed.

Lemma string_eqb_sym s t : (s =? t)%string = (t =? s)%string.
Proof. apply String.eqb_sym. Qed.

Lemma string_compare_Eq s t : String.compare s t = Eq <-> s = t.
Proof. split; [apply String.compare_eq_iff|]. intros ->. apply string_compare_refl. Qed.

Lemma string_compare_cons c s d t :
  String.compare (String c s) (String d t) = match Ascii.compare c d with Eq => String.compare s t | o => o end.
Proof. done. Qed.

Lemma ascii_compare_spec c d : Ascii.compare c d = N.compare (N_of_ascii c) (N_of_ascii d).
Proof. done. Qed.

Lemma string_compare_le_trans s t u :
  String.compare s t <> Gt -> String.compare t u <> Gt -> String.compare s u <> Gt.
Proof.
  revert t u; induction s as [|c s IH]; intros [|d t] [|e u]; try done.
  rewrite !string_compare_cons, !ascii_compare_spec.
  destruct (N.compare_spec (N_of_ascii c) (N_of_ascii d)) as [E1|E1|E1], (N.compare_spec (N_of_ascii d) (N_of_ascii e)) as [E2|E2|E2],
    (N.compare_spec (N_of_ascii c) (N_of_ascii e)) as [E3|E3|E3]; try done; try lia; apply IH.
Qed.

(** ** Sorting *)

Section sort.
Context {A : Type} (leb : A -> A -> bool).

Fixpoint insert_by (x : A) (l : list A) : list A :=
  match l with
  | [] => [x]
  | y :: l' => if leb x y then x :: l else y :: insert_by x l'
  end.

(** [sorted(l)]: stable. *)
Fixpoint sort_by (l : list A) : list A :=
  match l with
  | [] => []
  | x :: l => insert_by x (sort_by l)
  end.

Lemma insert_by_In x y l : In y (insert_by x l) <-> y = x \/ In y l.
Proof.
  induction l as [|z l IH]; simpl; [naive_solver|].
  destruct (leb x z); simpl; [naive_solver|]. rewrite IH. naive_solver.
Qed.

Lemma sort_by_In y l : In y (sort_by l) <-> In y l.
Proof. induction l as [|x l IH]; simpl; [done|]. rewrite insert_by_In, IH. naive_solver. Qed.

Lemma insert_by_length x l : length (insert_by x l) = S (length l).
Proof. induction l as [|z l IH]; simpl; [done|]. destruct (leb x z); simpl; auto. Qed.

Lemma sort_by_length l : length (sort_by l) = length l.
Proof. induction l as [|x l IH]; simpl; [done|]. by rewrite insert_by_length, IH. Qed.

Lemma insert_by_Permutation x l : insert_by x l ≡ₚ x :: l.
Proof.
  induction l as [|z l IH]; simpl; [done|]. destruct (leb x z); [done|].
  rewrite IH. apply Permutation_swap.
Qed.

Lemma sort_by_Permutation l : sort_by l ≡ₚ l.
Proof. induction l as [|x l IH]; simpl; [done|]. by rewrite insert_by_Permutation, IH. Qed.

Context (leb_total : forall x y, leb x y = false -> leb y x = true).

Lemma insert_by_Sorted x l :
  Sorted (fun x y => leb x y = true) l -> Sorted (fun x y => leb x y = true) (insert_by x l).
Proof.
  induction 1 as [|y l Hl IH Hhd]; simpl; [by repeat constructor|].
  destruct (leb x y) eqn:E; [by repeat constructor|].
  constructor; [done|]. apply leb_total in E.
  destruct Hhd as [|z l Hz]; simpl; [by constructor|].
  destruct (leb x z); by constructor.
Qed.

Lemma sort_by_Sorted l : Sorted (fun x y => leb x y = true) (sort_by l).
Proof. induction l as [|x l IH]; simpl; [constructor | by apply insert_by_Sorted]. Qed.

Lemma sort_by_id l : Sorted (fun x y => leb x y = true) l -> sort_by l = l.
Proof.
  induction 1 as [|y l Hl IH Hhd]; simpl; [done|]. rewrite IH.
  destruct Hhd as [|z l Hz]; simpl; [done|]. by rewrite Hz.
Qed.
End sort.
