(* ===== verification/PyVal.v ===== *)
(** * Python values

    JSON-shaped Python data as the policy code handles it: dictionaries with
    string keys, lists, strings, integers, floats, booleans and [None].

    - A [dict] is an association list kept sorted by key, so two dictionaries
      with the same items are the same term; insertion order is not observable
      in the modelled code where these dictionaries are used (it reads by key,
      compares with [==] and serialises with [sort_keys=True]).
    - A [float] is an IEEE binary64 datum of [SpecFloat].
    - A [str] is a sequence of code points U+0000 to U+00FF (see [PyStr]). *)
From S2P Require Import Prelude.

Inductive val :=
| VNone
| VBool (b : bool)
| VInt (z : Z)
| VFloat (f : spec_float)
| VStr (s : string)
| VList (l : list val)
| VDict (d : list (string * val)).

Abbreviation dict := (list (string * val)).

(** The nested induction principle for [val]. *)
Section val_ind.
Variable P : val -> Prop.
Hypothesis HNone : P VNone.
Hypothesis HBool : forall b, P (VBool b).
Hypothesis HInt : forall z, P (VInt z).
Hypothesis HFloat : forall f, P (VFloat f).
Hypothesis HStr : forall s, P (VStr s).
Hypothesis HList : forall l, Forall P l -> P (VList l).
Hypothesis HDict : forall d, Forall (fun kv => P kv.2) d -> P (VDict d).

Fixpoint val_ind' (v : val) : P v :=
  match v with
  | VNone => HNone
  | VBool b => HBool b
  | VInt z => HInt z
  | VFloat f => HFloat f
  | VStr s => HStr s
  | VList l => HList l
      ((fix go (l : list val) : Forall P l :=
          match l with
          | [] => Forall_nil_2 _
          | v :: l => Forall_cons_2 _ _ _ (val_ind' v) (go l)
          end) l)
  | VDict d => HDict d
      ((fix go (d : dict) : Forall (fun kv => P kv.2) d :=
          match d with
          | [] => Forall_nil_2 _
          | kv :: d => Forall_cons_2 _ _ _ (val_ind' kv.2) (go d)
          end) d)
  end.
End val_ind.

(** ** Dictionaries *)

Section dict_ops.
Context {A : Type}.
Implicit Types (d : list (string * A)) (k : string) (v : A).

(** [d.get(k)] with [None] for a missing key. *)
Fixpoint dget k d : option A :=
  match d with
  | [] => None
  | (k', v) :: d => if (k =? k')%string then Some v else dget k d
  end.

(** [d[k] = v]. *)
Fixpoint dset k v d : list (string * A) :=
  match d with
  | [] => [(k, v)]
  | (k', v') :: d' =>
      match String.compare k k' with
      | Lt => (k, v) :: d
      | Eq => (k, v) :: d'
      | Gt => (k', v') :: dset k v d'
      end
  end.

(** [d.pop(k, None)]. *)
Fixpoint ddel k d : list (string * A) :=
  match d with
  | [] => []
  | (k', v) :: d => if (k =? k')%string then d else (k', v) :: ddel k d
  end.

(** A dict literal: later items override earlier ones. *)
Definition dlit (items : list (string * A)) : list (string * A) :=
  fold_left (fun d kv => dset kv.1 kv.2 d) items [].

(** [d.update(e)]. *)
Definition dupdate d (e : list (string * A)) : list (string * A) :=
  fold_left (fun d kv => dset kv.1 kv.2 d) e d.

(** Keys strictly increasing. *)
Fixpoint sorted_keys d : bool :=
  match d with
  | (k, _) :: (((k', _) :: _) as d') => (k <? k')%string && sorted_keys d'
  | _ => true
  end.

Lemma dget_dset_eq k v d : dget k (dset k v d) = Some v.
Proof.
  induction d as [|[k' v'] d IH]; simpl; [by rewrite String.eqb_refl|].
  destruct (String.compare k k') eqn:E; simpl; rewrite ?String.eqb_refl; try done.
  destruct (String.eqb_spec k k') as [->|]; [|done].
  by rewrite string_compare_refl in E.
Qed.

Lemma dget_dset_ne k k' v d : k <> k' -> dget k (dset k' v d) = dget k d.
Proof.
  intros Hne. induction d as [|[k2 v2] d IH]; simpl.
  - by rewrite (proj2 (String.eqb_neq k k') Hne).
  - destruct (String.compare k' k2) eqn:E; simpl;
      rewrite ?(proj2 (String.eqb_neq k k') Hne); try done.
    + apply String.compare_eq_iff in E as ->.
      by rewrite (proj2 (String.eqb_neq k k2) Hne).
    + by rewrite IH.
Qed.

Lemma dget_dset k k' v d :
  dget k (dset k' v d) = if decide (k = k') then Some v else dget k d.
Proof. case_decide as H; [by subst; apply dget_dset_eq | by apply dget_dset_ne]. Qed.

Lemma dget_ddel_ne k k' d : k <> k' -> dget k (ddel k' d) = dget k d.
Proof.
  intros Hne. induction d as [|[k2 v2] d IH]; simpl; [done|].
  destruct (String.eqb_spec k' k2) as [->|]; simpl.
  - by rewrite (proj2 (String.eqb_neq k k2) Hne).
  - by rewrite IH.
Qed.

Lemma dget_In k v d : dget k d = Some v -> In (k, v) d.
Proof.
  induction d as [|[k' v'] d IH]; simpl; [done|].
  destruct (String.eqb_spec k k') as [->|]; [intros [= ->]; by left | by right; apply IH].
Qed.
End dict_ops.

(** ** Numbers *)

(** The numeric tower restricted to what JSON and [time.time()] produce: the
    exact value of a finite number is [m * 2^e]. *)
Inductive num :=
| NFin (m e : Z)
| NInf (neg : bool)
| NNan.

Definition num_of_float (f : spec_float) : num :=
  match f with
  | S754_zero _ => NFin 0 0
  | S754_infinity s => NInf s
  | S754_nan => NNan
  | S754_finite s m e => NFin (if s then Z.neg m else Z.pos m) e
  end.

(** [bool] is a subclass of [int]. *)
Definition num_of (v : val) : option num :=
  match v with
  | VBool b => Some (NFin (if b then 1 else 0) 0)
  | VInt z => Some (NFin z 0)
  | VFloat f => Some (num_of_float f)
  | _ => None
  end.

(** Exact comparison, [None] when a NaN is involved. *)
Definition num_compare (x y : num) : option comparison :=
  match x, y with
  | NNan, _ | _, NNan => None
  | NInf a, NInf b => Some (match a, b with
                            | true, false => Lt | false, true => Gt | _, _ => Eq
                            end)
  | NInf a, NFin _ _ => Some (if a then Lt else Gt)
  | NFin _ _, NInf b => Some (if b then Gt else Lt)
  | NFin m e, NFin m' e' =>
      let e0 := Z.min e e' in
      Some (Z.shiftl m (e - e0) ?= Z.shiftl m' (e' - e0))
  end.

Definition num_eqb x y : bool :=
  match num_compare x y with Some Eq => true | _ => false end.

(** [a >= b] on Python values: a [TypeError] unless both are numbers or both
    strings; comparisons with NaN are false. *)
Definition py_ge (a b : val) : res bool :=
  match num_of a, num_of b with
  | Some x, Some y =>
      Ok (match num_compare x y with Some Lt | None => false | _ => true end)
  | _, _ =>
      match a, b with
      | VStr s, VStr t => Ok (negb (s <? t)%string)
      | _, _ => Err TypeError
      end
  end.

Definition prec64 : Z := 53.
Definition emax64 : Z := 1024.

(** [float(z)] for an integer: round to nearest even; [OverflowError] when the
    result is not finite. *)
Definition float_of_int (z : Z) : res spec_float :=
  match binary_normalize prec64 emax64 z 0 false with
  | S754_infinity _ => Err OverflowError
  | f => Ok f
  end.

(** [v + n] for a small non-negative integer [n]. *)
Definition py_add_int (v : val) (n : Z) : res val :=
  match v with
  | VBool b => Ok (VInt ((if b then 1 else 0) + n))
  | VInt z => Ok (VInt (z + n))
  | VFloat f =>
      Ok (VFloat (SFadd prec64 emax64 f (binary_normalize prec64 emax64 n 0 false)))
  | _ => Err TypeError
  end.

(** [math.isfinite(v)]. *)
Definition math_isfinite (v : val) : res bool :=
  match v with
  | VBool _ => Ok true
  | VInt z => _ ← float_of_int z; Ok true
  | VFloat f => Ok (match f with S754_zero _ | S754_finite _ _ _ => true | _ => false end)
  | _ => Err TypeError
  end.

(** ** Truth value and equality *)

Definition truthy (v : val) : bool :=
  match v with
  | VNone => false
  | VBool b => b
  | VInt z => negb (z =? 0)
  | VFloat f => match f with S754_zero _ => false | _ => true end
  | VStr s => negb (s =? "")%string
  | VList l => match l with [] => false | _ => true end
  | VDict d => match d with [] => false | _ => true end
  end.

(** [a == b]. Dictionaries are sorted, so they are compared item by item. *)
Fixpoint py_eq (a b : val) {struct a} : bool :=
  match a, b with
  | VNone, VNone => true
  | VStr s, VStr t => (s =? t)%string
  | VList l, VList m =>
      (fix go (l m : list val) :=
         match l, m with
         | [], [] => true
         | x :: l, y :: m => py_eq x y && go l m
         | _, _ => false
         end) l m
  | VDict d, VDict e =>
      (fix go (d e : dict) :=
         match d, e with
         | [], [] => true
         | (k, x) :: d, (k', y) :: e => (k =? k')%string && py_eq x y && go d e
         | _, _ => false
         end) d e
  | _, _ =>
      match num_of a, num_of b with
      | Some x, Some y => num_eqb x y
      | _, _ => false
      end
  end.

(** ** Accessors *)

(** [d.get(k, default)]. *)
Definition getd (k : string) (default : val) (d : dict) : val :=
  match dget k d with Some v => v | None => default end.

(** [d.get(k)]. *)
Definition get (k : string) (d : dict) : val := getd k VNone d.

Lemma get_dset_ne k k' v (d : dict) : k <> k' -> get k (dset k' v d) = get k d.
Proof. intros Hk. unfold get, getd. by rewrite dget_dset_ne. Qed.

Lemma get_dset_eq k v (d : dict) : get k (dset k v d) = v.
Proof. unfold get, getd. by rewrite dget_dset_eq. Qed.

(** [d[k]]. *)
Definition item (k : string) (d : dict) : res val :=
  match dget k d with Some v => Ok v | None => Err (KeyError k) end.

(** [a or b]. *)
Definition py_or (a b : val) : val := if truthy a then a else b.

Definition is_none (v : val) : bool := match v with VNone => true | _ => false end.
Definition is_true (v : val) : bool := match v with VBool true => true | _ => false end.
Definition is_bool (v : val) : bool := match v with VBool _ => true | _ => false end.
Definition is_dict (v : val) : bool := match v with VDict _ => true | _ => false end.

(** [isinstance(v, int) and not isinstance(v, bool)]. *)
Definition as_int (v : val) : option Z := match v with VInt z => Some z | _ => None end.

(** [v == s] for a string literal. *)
Definition is_str (s : string) (v : val) : bool :=
  match v with VStr t => (t =? s)%string | _ => false end.

(** [v in (s1, ..., sn)] for string literals. *)
Definition in_strs (l : list string) (v : val) : bool :=
  match v with VStr t => existsb (String.eqb t) l | _ => false end.

(** A value a [set] accepts. *)
Definition hashable (v : val) : bool :=
  match v with VList _ | VDict _ => false | _ => true end.

(** [v in {...}] on a set of texts: an unhashable value raises. *)
Definition in_set (l : list string) (v : val) : res bool :=
  if hashable v then Ok (in_strs l v) else Err TypeError.

(** A value that must be a [dict] to answer [.get]. *)
Definition as_dict (v : val) : res dict :=
  match v with VDict d => Ok d | _ => Err AttributeError end.

(** A value that must be iterable as a list by a [for] loop. *)
Definition as_list (v : val) : res (list val) :=
  match v with VList l => Ok l | _ => Err TypeError end.

(** Reads a literal key of an updated dictionary. *)
Ltac dlookup :=
  unfold get, getd, item, dupdate; cbn [fold_left fst snd];
  repeat first [rewrite dget_dset_eq | rewrite dget_dset_ne by done].

(** ** Equality *)

Lemma is_str_eq s v : is_str s v = true <-> v = VStr s.
Proof. destruct v; simpl; rewrite ?String.eqb_eq; split; congruence. Qed.

Lemma py_eq_text v s : py_eq v (VStr s) = true -> v = VStr s.
Proof. destruct v; cbn; try done. by intros ->%String.eqb_eq. Qed.


(** No NaN anywhere in the value. *)
Fixpoint no_nan (v : val) : bool :=
  match v with
  | VFloat S754_nan => false
  | VList l => forallb no_nan l
  | VDict d => forallb (fun kv => no_nan kv.2) d
  | _ => true
  end.

Lemma num_eqb_refl x : x <> NNan -> num_eqb x x = true.
Proof.
  unfold num_eqb, num_compare. destruct x as [m e|[]|]; try done.
  intros _. by rewrite Z.compare_refl.
Qed.

(** A JSON value equals itself unless it holds a NaN. *)
Lemma py_eq_refl v : no_nan v = true -> py_eq v v = true.
Proof.
  induction v as [|b|z|f|s|l IH|d IH] using val_ind'; intros Hn; cbn [py_eq].
  - done.
  - by destruct b.
  - cbn [num_of]. by apply num_eqb_refl.
  - cbn [num_of]. apply num_eqb_refl. by destruct f.
  - apply String.eqb_refl.
  - cbn [no_nan] in Hn. induction IH as [|x l Hx Hl IHl]; [done|].
    cbn [forallb] in Hn. apply andb_true_iff in Hn as [H1 H2]. by rewrite Hx, IHl.
  - cbn [no_nan] in Hn. induction IH as [|[k x] d Hx Hl IHd]; [done|].
    cbn [forallb] in Hn. apply andb_true_iff in Hn as [H1 H2].
    cbn [snd] in Hx, H1. rewrite String.eqb_refl, (Hx H1). by apply IHd.
Qed.

Lemma no_nan_dset k v d :
  no_nan v = true -> no_nan (VDict d) = true -> no_nan (VDict (dset k v d)) = true.
Proof.
  intros Hv. induction d as [|[k' v'] d IH]; cbn; [by rewrite Hv|].
  intros [H1 H2]%andb_true_iff. destruct (String.compare k k'); cbn; rewrite ?Hv, ?H1, ?H2; auto.
Qed.

Lemma no_nan_dupdate items d :
  forallb (fun kv => no_nan kv.2) items = true -> no_nan (VDict d) = true ->
  no_nan (VDict (dupdate d items)) = true.
Proof.
  revert d; induction items as [|[k v] items IH]; intros d; [done|].
  cbn [forallb]. intros [H1 H2]%andb_true_iff Hd. apply (IH (dset k v d)); [done|].
  by apply no_nan_dset.
Qed.
