(* ===== verification/PyStr.v ===== *)
(** * Python strings

    The [str] operations the code uses, on strings of code points U+0000 to
    U+00FF (each [ascii] is one code point). The character classes are the
    exact Unicode ones on that range. Strings with code points above U+00FF
    are outside the model. *)
From S2P Require Import Prelude PyVal.
From Stdlib Require Import DecimalString.
Open Scope Z_scope.

(** ** Characters *)

Definition ord (c : ascii) : Z := Z.of_N (Ascii.N_of_ascii c).

(** [c.isprintable()]: everything but the C0/C1 controls, NBSP and SOFT HYPHEN. *)
Definition isprintable_char (c : ascii) : bool :=
  let n := ord c in
  ((32 <=? n) && (n <=? 126)) || ((161 <=? n) && negb (n =? 173)).

(** [c.isspace()]. *)
Definition isspace_char (c : ascii) : bool :=
  let n := ord c in
  ((9 <=? n) && (n <=? 13)) || ((28 <=? n) && (n <=? 32)) || (n =? 133) || (n =? 160).

(** [c.lower()]. *)
Definition lower_char (c : ascii) : ascii :=
  let n := ord c in
  if ((65 <=? n) && (n <=? 90)) || ((192 <=? n) && (n <=? 222) && negb (n =? 215))
  then Ascii.ascii_of_N (Z.to_N (n + 32)) else c.

Definition isascii_char (c : ascii) : bool := ord c <? 128.

(** An ASCII decimal digit. *)
Definition digit_char (c : ascii) : bool := (48 <=? ord c) && (ord c <=? 57).

(** ** Strings *)

Fixpoint str_forall (p : ascii -> bool) (s : string) : bool :=
  match s with "" => true | String c s => p c && str_forall p s end.

Fixpoint str_exists (p : ascii -> bool) (s : string) : bool :=
  match s with "" => false | String c s => p c || str_exists p s end.

Fixpoint str_filter (p : ascii -> bool) (s : string) : string :=
  match s with "" => "" | String c s => if p c then String c (str_filter p s) else str_filter p s end.

Fixpoint str_map (f : ascii -> ascii) (s : string) : string :=
  match s with "" => "" | String c s => String (f c) (str_map f s) end.

(** [len(s)]. *)
Definition str_len (s : string) : Z := Z.of_nat (String.length s).

(** [s.isprintable()], [s.lower()]. *)
Definition isprintable : string -> bool := str_forall isprintable_char.
Definition str_lower : string -> string := str_map lower_char.
Definition isascii : string -> bool := str_forall isascii_char.

Fixpoint lstrip_by (p : ascii -> bool) (s : string) : string :=
  match s with
  | "" => ""
  | String c s' => if p c then lstrip_by p s' else s
  end.

Fixpoint rstrip_by (p : ascii -> bool) (s : string) : string :=
  match s with
  | "" => ""
  | String c s' =>
      match rstrip_by p s' with
      | "" => if p c then "" else String c ""
      | r => String c r
      end
  end.

(** [s.strip()]. *)
Definition strip (s : string) : string := lstrip_by isspace_char (rstrip_by isspace_char s).

(** [s.rstrip(c)] for one character. *)
Definition rstrip_char (c : ascii) : string -> string := rstrip_by (Ascii.eqb c).

(** [s[:n]]. *)
Fixpoint str_take (n : nat) (s : string) : string :=
  match n, s with
  | S n, String c s => String c (str_take n s)
  | _, _ => ""
  end.

Fixpoint str_drop (n : nat) (s : string) : string :=
  match n, s with
  | S n, String _ s => str_drop n s
  | _, _ => s
  end.

(** [s.startswith(t)], [s.endswith(t)]. *)
Definition startswith (t s : string) : bool := String.prefix t s.

Definition endswith (t s : string) : bool :=
  (String.length t <=? String.length s)%nat
  && String.eqb (str_drop (String.length s - String.length t)%nat s) t.

(** [s.removesuffix(t)]. *)
Definition removesuffix (t s : string) : string :=
  if negb (String.eqb t "") && endswith t s then str_take (String.length s - String.length t)%nat s else s.

(** [s.split(c)] for one character: never empty. *)
Fixpoint split (c : ascii) (s : string) : list string :=
  match s with
  | "" => [""]
  | String a s =>
      if Ascii.eqb a c then "" :: split c s
      else match split c s with
           | [] => [String a ""]
           | w :: ws => String a w :: ws
           end
  end.

(** [sep.join(ws)]. *)
Fixpoint join (sep : string) (ws : list string) : string :=
  match ws with
  | [] => ""
  | [w] => w
  | w :: ws => w +:+ sep +:+ join sep ws
  end.

(** ** Decimal numbers *)

(** [str(z)]. *)
Definition str_of_Z (z : Z) : string := NilZero.string_of_int (Z.to_int z).

(** The value of a string of decimal digits, [int(s)]. *)
Definition digits_val (s : string) : Z :=
  (fix go (acc : Z) (s : string) : Z :=
     match s with
     | "" => acc
     | String c s => go (acc * 10 + (ord c - 48)) s
     end) 0 s.

(** [re.fullmatch(r'\d{1,n}', s)]. *)
Definition match_digits (n : Z) (s : string) : bool :=
  negb (String.eqb s "") && str_forall digit_char s && (str_len s <=? n).

(** ** Lemmas *)

Lemma str_forall_impl p q s :
  (forall c, p c = true -> q c = true) -> str_forall p s = true -> str_forall q s = true.
Proof. intros H. induction s; simpl; [done|]. rewrite !andb_true_iff. naive_solver. Qed.

Lemma rstrip_by_idemp p s : rstrip_by p (rstrip_by p s) = rstrip_by p s.
Proof.
  induction s as [|c s IH]; [done|]. simpl.
  destruct (rstrip_by p s) as [|c' r] eqn:E.
  - destruct (p c) eqn:Ec; simpl; [done | by rewrite Ec].
  - change (rstrip_by p (String c (String c' r))) with
      (match rstrip_by p (String c' r) with
       | "" => if p c then "" else String c "" | r => String c r end).
    by rewrite IH.
Qed.

Lemma lstrip_by_idemp p s : lstrip_by p (lstrip_by p s) = lstrip_by p s.
Proof. induction s as [|c s IH]; simpl; [done|]. destruct (p c) eqn:E; [done|]. simpl. by rewrite E. Qed.

Lemma rstrip_lstrip_comm p s : rstrip_by p (lstrip_by p s) = lstrip_by p (rstrip_by p s).
Proof.
  induction s as [|c s IH]; [done|]. simpl.
  destruct (p c) eqn:Ec.
  - rewrite IH. destruct (rstrip_by p s) as [|c' r] eqn:E; [done|]. simpl. by rewrite Ec.
  - simpl. destruct (rstrip_by p s) as [|c' r]; simpl; by rewrite Ec.
Qed.

Lemma strip_idemp s : strip (strip s) = strip s.
Proof.
  unfold strip. rewrite rstrip_lstrip_comm, rstrip_by_idemp. apply lstrip_by_idemp.
Qed.

Lemma str_forall_rstrip q p s : str_forall q s = true -> str_forall q (rstrip_by p s) = true.
Proof.
  induction s as [|c s IH]; simpl; [done|]. rewrite andb_true_iff. intros [Hc Hs].
  specialize (IH Hs). destruct (rstrip_by p s) as [|c' r].
  - destruct (p c); simpl; [done | by rewrite Hc].
  - change (str_forall q (String c (String c' r))) with (q c && str_forall q (String c' r)).
    by rewrite Hc, IH.
Qed.

Lemma str_forall_lstrip q p s : str_forall q s = true -> str_forall q (lstrip_by p s) = true.
Proof.
  induction s as [|c s IH]; simpl; [done|]. rewrite andb_true_iff. intros [Hc Hs].
  destruct (p c); [auto|]. simpl. by rewrite Hc, Hs.
Qed.

Lemma str_forall_strip q s : str_forall q s = true -> str_forall q (strip s) = true.
Proof. intros H. by apply str_forall_lstrip, str_forall_rstrip. Qed.

Lemma length_rstrip p s : (String.length (rstrip_by p s) <= String.length s)%nat.
Proof.
  induction s as [|c s IH]; simpl; [done|].
  destruct (rstrip_by p s) as [|c' r]; simpl in *; [destruct (p c); simpl|]; lia.
Qed.

Lemma length_lstrip p s : (String.length (lstrip_by p s) <= String.length s)%nat.
Proof. induction s as [|c s IH]; simpl; [done|]. destruct (p c); simpl; lia. Qed.

Lemma str_len_strip s : str_len (strip s) <= str_len s.
Proof.
  unfold str_len, strip. pose proof (length_rstrip isspace_char s).
  pose proof (length_lstrip isspace_char (rstrip_by isspace_char s)). lia.
Qed.

Lemma str_map_idemp f s : (forall c, f (f c) = f c) -> str_map f (str_map f s) = str_map f s.
Proof. intros H. induction s as [|c s IH]; simpl; [done|]. by rewrite H, IH. Qed.

Lemma lower_char_idemp c : lower_char (lower_char c) = lower_char c.
Proof. by destruct c as [[] [] [] [] [] [] [] []]. Qed.

Lemma str_lower_idemp s : str_lower (str_lower s) = str_lower s.
Proof. apply str_map_idemp, lower_char_idemp. Qed.

Lemma split_nonempty c s : split c s <> [].
Proof. destruct s as [|a s]; simpl; [done|]. destruct (Ascii.eqb a c); [done|]. by destruct (split c s). Qed.

Lemma split_no_char c w : str_forall (fun a => negb (Ascii.eqb a c)) w = true -> split c w = [w].
Proof.
  induction w as [|a w IH]; simpl; [done|]. rewrite andb_true_iff, negb_true_iff.
  intros [-> H]. by rewrite (IH H).
Qed.

Lemma split_app c w s :
  str_forall (fun a => negb (Ascii.eqb a c)) w = true ->
  split c (w +:+ String c s) = w :: split c s.
Proof.
  induction w as [|a w IH]; simpl.
  - by rewrite Ascii.eqb_refl.
  - rewrite andb_true_iff, negb_true_iff. intros [Ha H]. rewrite Ha.
    change ((fix append (s1 s2 : string) {struct s1} : string :=
      match s1 with "" => s2 | String c s1' => String c (append s1' s2) end) w (String c s))
      with (w +:+ String c s). by rewrite (IH H).
Qed.

(** Splitting undoes joining, when no word holds the separator. *)
Lemma split_join c ws :
  ws <> [] -> Forall (fun w => str_forall (fun a => negb (Ascii.eqb a c)) w = true) ws ->
  split c (join (String c "") ws) = ws.
Proof.
  intros Hne Hws. induction Hws as [|w ws Hw Hws IH]; [done|].
  destruct ws as [|w' ws].
  - by apply split_no_char.
  - change (join (String c "") (w :: w' :: ws))
      with (w +:+ String c (join (String c "") (w' :: ws))).
    rewrite split_app by done. by rewrite IH.
Qed.
