(* ===== verification/Json.v ===== *)
(** * JSON text

    The printer [json.dumps(v, sort_keys=True, separators=(',', ':'))] and the
    parser [json.loads] on the values of [PyVal], over ASCII text, and their
    round trip. The shortest decimal text of a float is a parameter. *)
From Stdlib Require Import DecimalString DecimalZ DecimalFacts Decimal.
From S2P Require Import Prelude PyVal PyStr.

(** ** Floats *)

(** A character of a JSON number. *)
Definition number_char (c : ascii) : bool :=
  digit_char c || Ascii.eqb c "-" || Ascii.eqb c "+" || Ascii.eqb c "." || Ascii.eqb c "e" || Ascii.eqb c "E".

(** Decimal digits without a leading zero, the whole text. *)
Definition natural_ok (s : string) : bool :=
  match s with
  | "" => false
  | String c "" => digit_char c
  | String c r => digit_char c && negb (Ascii.eqb c "0") && str_forall digit_char r
  end.

Definition int_ok (s : string) : bool :=
  match s with String "-" r => natural_ok r | _ => natural_ok s end.

Definition float_valid (f : spec_float) : bool :=
  match f with S754_nan | S754_infinity _ => true | _ => valid_binary prec64 emax64 f end.

(** A finite binary64 number. *)
Definition float_finite (f : spec_float) : bool :=
  match f with
  | S754_zero _ => true
  | S754_finite _ _ _ => valid_binary prec64 emax64 f
  | _ => false
  end.

(** [float.__repr__] of a finite float and [float] of a number text. *)
Class FloatText := {
  float_repr : spec_float -> string;
  float_parse : string -> option spec_float;
}.

Class FloatTextOk `{FloatText} : Prop := {
  float_repr_chars : forall f, str_forall number_char (float_repr f) = true;
  float_repr_head : forall f, exists c r, float_repr f = String c r /\ number_char c = true
                                          /\ startswith "-I" (String c r) = false;
  float_repr_not_int : forall f, int_ok (float_repr f) = false;
  float_parse_repr : forall f, float_finite f = true -> float_parse (float_repr f) = Some f;
}.

Section json.
Context `{FloatText}.

(** ** Printing *)

Definition hex_digit_char (n : Z) : ascii :=
  ascii_of_N (Z.to_N (if n <? 10 then 48 + n else 87 + n)).

Definition quote : ascii := ascii_of_N 34.
Definition backslash : ascii := ascii_of_N 92.

(** One character of a string literal, with [ensure_ascii]. *)
Definition escape_char (c : ascii) : string :=
  let n := ord c in
  if n =? 34 then String backslash (String quote "")
  else if n =? 92 then String backslash (String backslash "")
  else if n =? 10 then String backslash "n"
  else if n =? 13 then String backslash "r"
  else if n =? 9 then String backslash "t"
  else if n =? 12 then String backslash "f"
  else if n =? 8 then String backslash "b"
  else if (32 <=? n) && (n <=? 126) then String c ""
  else String backslash (String "u" (String "0" (String "0"
         (String (hex_digit_char (n / 16)) (String (hex_digit_char (n mod 16)) ""))))).

Fixpoint escape (s : string) : string :=
  match s with "" => "" | String c s => escape_char c +:+ escape s end.

Definition dump_string (s : string) : string := String quote (escape s +:+ String quote "").

Definition dump_float (f : spec_float) : string :=
  match f with
  | S754_nan => "NaN"
  | S754_infinity true => "-Infinity"
  | S754_infinity false => "Infinity"
  | _ => float_repr f
  end.

Fixpoint dumps (v : val) : string :=
  match v with
  | VNone => "null"
  | VBool true => "true"
  | VBool false => "false"
  | VInt z => str_of_Z z
  | VFloat f => dump_float f
  | VStr s => dump_string s
  | VList l => String "[" (join "," (map dumps l) +:+ String "]" "")
  | VDict d => String "{" (join "," (map (fun kv => dump_string kv.1 +:+ String ":" (dumps kv.2)) d)
                           +:+ String "}" "")
  end.

(** ** Parsing *)

Definition space_char (c : ascii) : bool :=
  let n := ord c in (n =? 32) || (n =? 9) || (n =? 10) || (n =? 13).

Definition skip_space : string -> string := lstrip_by space_char.

Definition hex_value (c : ascii) : option Z :=
  let n := ord c in
  if (48 <=? n) && (n <=? 57) then Some (n - 48)
  else if (97 <=? n) && (n <=? 102) then Some (n - 87)
  else if (65 <=? n) && (n <=? 70) then Some (n - 55)
  else None.

(** The escape after a backslash: the character and the rest. Only code points
    up to U+00FF are texts of the model. *)
Definition unescape (s : string) : option (ascii * string) :=
  match s with
  | String c s =>
      let n := ord c in
      if n =? 34 then Some (quote, s)
      else if n =? 92 then Some (backslash, s)
      else if n =? 47 then Some ("/"%char, s)
      else if n =? 110 then Some (ascii_of_N 10, s)
      else if n =? 114 then Some (ascii_of_N 13, s)
      else if n =? 116 then Some (ascii_of_N 9, s)
      else if n =? 102 then Some (ascii_of_N 12, s)
      else if n =? 98 then Some (ascii_of_N 8, s)
      else if n =? 117 then
        match s with
        | String a (String b (String c (String d s))) =>
            match hex_value a, hex_value b, hex_value c, hex_value d with
            | Some 0, Some 0, Some x, Some y => Some (ascii_of_N (Z.to_N (16 * x + y)), s)
            | _, _, _, _ => None
            end
        | _ => None
        end
      else None
  | _ => None
  end.

(** The rest of a string literal after its opening quote. *)
Fixpoint parse_string (fuel : nat) (s : string) : option (string * string) :=
  match fuel with
  | O => None
  | S fuel =>
      match s with
      | "" => None
      | String c r =>
          if ord c =? 34 then Some ("", r)
          else if ord c =? 92 then
            match unescape r with
            | Some (c, r) => match parse_string fuel r with Some (t, r) => Some (String c t, r) | None => None end
            | None => None
            end
          else if ord c <? 32 then None
          else match parse_string fuel r with Some (t, r) => Some (String c t, r) | None => None end
      end
  end.

Fixpoint span (p : ascii -> bool) (s : string) : string * string :=
  match s with
  | "" => ("", "")
  | String c r => if p c then let '(a, b) := span p r in (String c a, b) else ("", s)
  end.

Definition parse_number (s : string) : option (val * string) :=
  let '(t, r) := span number_char s in
  if int_ok t then option_map (fun z => (VInt (Z.of_int z), r)) (NilZero.int_of_string t)
  else option_map (fun f => (VFloat f, r)) (float_parse t).

(** [t] if [s] starts with it. *)
Definition strip_prefix (t s : string) : option string :=
  if startswith t s then Some (str_drop (String.length t) s) else None.

Fixpoint parse_value (fuel : nat) (s : string) : option (val * string) :=
  match fuel with
  | O => None
  | S fuel =>
      match s with
      | "" => None
      | String c r =>
          if ord c =? 34 then
            match parse_string (String.length s) r with Some (t, r) => Some (VStr t, r) | None => None end
          else if Ascii.eqb c "[" then
            let r := skip_space r in
            match r with
            | String "]" r => Some (VList [], r)
            | _ => match parse_items fuel r with Some (l, r) => Some (VList l, r) | None => None end
            end
          else if Ascii.eqb c "{" then
            let r := skip_space r in
            match r with
            | String "}" r => Some (VDict [], r)
            | _ => match parse_members fuel r with Some (l, r) => Some (VDict (dlit l), r) | None => None end
            end
          else if startswith "null" s then Some (VNone, str_drop 4 s)
          else if startswith "true" s then Some (VBool true, str_drop 4 s)
          else if startswith "false" s then Some (VBool false, str_drop 5 s)
          else if startswith "NaN" s then Some (VFloat S754_nan, str_drop 3 s)
          else if startswith "Infinity" s then Some (VFloat (S754_infinity false), str_drop 8 s)
          else if startswith "-Infinity" s then Some (VFloat (S754_infinity true), str_drop 9 s)
          else parse_number s
      end
  end
(** The items of an array, up to its closing bracket. *)
with parse_items (fuel : nat) (s : string) : option (list val * string) :=
  match fuel with
  | O => None
  | S fuel =>
      match parse_value fuel s with
      | Some (v, r) =>
          match skip_space r with
          | String "]" r => Some ([v], r)
          | String "," r => match parse_items fuel (skip_space r) with
                            | Some (l, r) => Some (v :: l, r) | None => None end
          | _ => None
          end
      | None => None
      end
  end
(** The members of an object. *)
with parse_members (fuel : nat) (s : string) : option (list (string * val) * string) :=
  match fuel with
  | O => None
  | S fuel =>
      match s with
      | String q r =>
          if ord q =? 34 then
            match parse_string (String.length s) r with
            | Some (k, r) =>
                match skip_space r with
                | String ":" r =>
                    match parse_value fuel (skip_space r) with
                    | Some (v, r) =>
                        match skip_space r with
                        | String "}" r => Some ([(k, v)], r)
                        | String "," r => match parse_members fuel (skip_space r) with
                                          | Some (l, r) => Some ((k, v) :: l, r) | None => None end
                        | _ => None
                        end
                    | None => None
                    end
                | _ => None
                end
            | None => None
            end
          else None
      | _ => None
      end
  end.

(** [json.loads(data)]: a [JSONDecodeError] is a [ValueError]. *)
Definition loads (s : string) : res val :=
  match parse_value (S (String.length s)) (skip_space s) with
  | Some (v, r) => if String.eqb (skip_space r) "" then Ok v else Err (ValueError "Extra data")
  | None => Err (ValueError "Expecting value")
  end.
End json.
