(* ===== verification/JsonRound.v ===== *)
(** * JSON round trip

    [loads (dumps v) = v] for every value whose floats are binary64 numbers and
    whose dictionaries are sorted by key, a trailing newline included. *)
From Stdlib Require Import DecimalString DecimalZ DecimalFacts Decimal.
From S2P Require Import Prelude PyVal PyStr Json.

(** ** Prefixes *)

Lemma startswith_app t s : startswith t (t +:+ s) = true.
Proof.
  unfold startswith. induction t as [|c t IH]; [by destruct s|].
  change (String.prefix (String c t) (String c (t +:+ s)) = true). simpl. by destruct (ascii_dec c c).
Qed.

Lemma startswith_head a b t s : a <> b -> startswith (String a t) (String b s) = false.
Proof. intros Hne. unfold startswith. simpl. by destruct (ascii_dec a b). Qed.

Lemma startswith_cons c t s : startswith (String c t) (String c s) = startswith t s.
Proof. unfold startswith. simpl. by destruct (ascii_dec c c). Qed.

Lemma startswith_nil s : startswith "" s = true.
Proof. by destruct s. Qed.

Lemma string_app_cons c s t : String c s +:+ t = String c (s +:+ t).
Proof. done. Qed.

Lemma length_app_s s t : String.length (s +:+ t) = (String.length s + String.length t)%nat.
Proof. induction s as [|c s IH]; [done|]. rewrite string_app_cons. cbn. by rewrite IH. Qed.

(** The text is empty or starts with a separator or white space. *)
Definition delimited (r : string) : Prop :=
  match r with
  | "" => True
  | String c _ => Ascii.eqb c "," || Ascii.eqb c "]" || Ascii.eqb c "}" || space_char c = true
  end.

Lemma delimited_number r :
  delimited r -> match r with "" => True | String c _ => number_char c = false end.
Proof. destruct r as [|c r]; [done|]. cbn. by destruct c as [[] [] [] [] [] [] [] []]. Qed.

Lemma span_app p t r :
  str_forall p t = true -> match r with "" => True | String c _ => p c = false end ->
  span p (t +:+ r) = (t, r).
Proof.
  intros Ht Hr. induction t as [|c t IH].
  - change ("" +:+ r) with r. destruct r as [|c r]; [done|]. cbn [span]. by rewrite Hr.
  - cbn [str_forall] in Ht. apply andb_true_iff in Ht as [Hc Ht]. rewrite string_app_cons. cbn [span].
    by rewrite Hc, IH.
Qed.

(** ** Integers *)

Lemma string_of_uint_digits d : str_forall digit_char (NilEmpty.string_of_uint d) = true.
Proof. induction d; cbn; done. Qed.

Lemma natural_ok_uint d :
  d <> Nil -> (forall d', d = D0 d' -> d' = Nil) -> natural_ok (NilZero.string_of_uint d) = true.
Proof.
  intros Hn H0. destruct d as [|d|d|d|d|d|d|d|d|d|d]; [done|by rewrite (H0 d eq_refl)|..];
    pose proof (string_of_uint_digits d) as Hd; cbn;
    destruct (NilEmpty.string_of_uint d); cbn in *; done.
Qed.

Lemma nzhead_head d d' : nzhead d = D0 d' -> False.
Proof. intros Hd. by apply (nzhead_nonzero d d'). Qed.

Lemma str_of_Z_parts z :
  (exists d, str_of_Z z = NilZero.string_of_uint d /\ natural_ok (NilZero.string_of_uint d) = true)
  \/ (exists d, str_of_Z z = String "-" (NilZero.string_of_uint d)
                /\ natural_ok (NilZero.string_of_uint d) = true).
Proof.
  unfold str_of_Z. pose proof (DecimalZ.to_of (Z.to_int z)) as Hn. rewrite DecimalZ.of_to in Hn.
  destruct (Z.to_int z) as [d|d]; cbn [NilZero.string_of_int]; [left|right]; exists d; (split; [done|]).
  - cbn [norm] in Hn. injection Hn as Hn. unfold unorm in Hn. apply natural_ok_uint.
    + intros ->. done.
    + intros d' ->. destruct (nzhead (D0 d')) eqn:Hz; try congruence; try (by injection Hn).
      by apply nzhead_head in Hz.
  - cbn [norm] in Hn. destruct (nzhead d) eqn:Hz; try discriminate Hn; injection Hn as ->;
      (apply natural_ok_uint; [done|]); intros d' [=]; subst; by apply nzhead_head in Hz.
Qed.

Lemma natural_ok_head s : natural_ok s = true -> exists c r, s = String c r /\ digit_char c = true.
Proof.
  destruct s as [|c r]; [done|]. cbn. intros Hs. exists c, r. split; [done|].
  destruct r; [done|]. by apply andb_true_iff in Hs as [[? _]%andb_true_iff _].
Qed.

Lemma natural_ok_digits s : natural_ok s = true -> str_forall digit_char s = true.
Proof.
  destruct s as [|c r]; [done|]. cbn [natural_ok str_forall]. destruct r as [|c' r].
  - intros ->. done.
  - intros [[-> _]%andb_true_iff ->]%andb_true_iff. done.
Qed.

Lemma digit_not_minus c : digit_char c = true -> Ascii.eqb c "-" = false.
Proof. by destruct c as [[] [] [] [] [] [] [] []]. Qed.

Lemma int_ok_str z : int_ok (str_of_Z z) = true.
Proof.
  destruct (str_of_Z_parts z) as [(d & -> & Hd)|(d & -> & Hd)]; [|done].
  destruct (natural_ok_head _ Hd) as (c & r & Hr & Hc). rewrite Hr in *. clear Hr.
  destruct c as [[] [] [] [] [] [] [] []]; done.
Qed.

Lemma digit_number c : digit_char c = true -> number_char c = true.
Proof. unfold number_char. by intros ->. Qed.

Lemma str_of_Z_chars z : str_forall number_char (str_of_Z z) = true.
Proof.
  destruct (str_of_Z_parts z) as [(d & -> & Hd)|(d & -> & Hd)]; apply natural_ok_digits in Hd;
    [|cbn [str_forall]; apply andb_true_iff; split; [done|]]; eapply str_forall_impl; [|exact Hd| |exact Hd];
    apply digit_number.
Qed.

Lemma int_of_str_of_Z z : option_map Z.of_int (NilZero.int_of_string (str_of_Z z)) = Some z.
Proof.
  unfold str_of_Z. rewrite NilZero.isi.
  - cbn. by rewrite DecimalZ.of_to.
  - intros Hz. pose proof (DecimalZ.to_of (Z.to_int z)) as Hn. rewrite DecimalZ.of_to in Hn.
    rewrite Hz in Hn. done.
  - intros Hz. pose proof (DecimalZ.to_of (Z.to_int z)) as Hn. rewrite DecimalZ.of_to in Hn.
    rewrite Hz in Hn. done.
Qed.

Lemma str_of_Z_head z : exists c r, str_of_Z z = String c r /\ number_char c = true
  /\ startswith "-I" (String c r) = false.
Proof.
  destruct (str_of_Z_parts z) as [(d & -> & Hd)|(d & -> & Hd)];
    destruct (natural_ok_head _ Hd) as (c & r & Hr & Hc); rewrite Hr.
  - exists c, r. split; [done|]. split; [by apply digit_number|].
    apply startswith_head. intros <-. done.
  - exists "-"%char, (String c r). split; [done|]. split; [done|]. 
    change "-I" with (String "-" "I"). rewrite startswith_cons. apply startswith_head. by intros <-.
Qed.

(** ** Sorted dictionaries *)

Lemma string_compare_trans s t u :
  String.compare s t = Lt -> String.compare t u = Lt -> String.compare s u = Lt.
Proof.
  revert t u; induction s as [|a s IH]; intros [|b t] [|c u]; simpl; try done.
  unfold Ascii.compare. destruct (N.compare_spec (N_of_ascii a) (N_of_ascii b)) as [Hab|Hab|Hab];
    destruct (N.compare_spec (N_of_ascii b) (N_of_ascii c)) as [Hbc|Hbc|Hbc]; intros; try done.
  - rewrite Hab, Hbc, N.compare_refl. by eapply IH.
  - rewrite Hab. by rewrite (proj2 (N.compare_lt_iff _ _)).
  - rewrite <- Hbc. by rewrite (proj2 (N.compare_lt_iff _ _)).
  - by rewrite (proj2 (N.compare_lt_iff _ _)) by (etransitivity; eassumption).
Qed.

Lemma ltb_compare k k' : (k <? k')%string = true <-> String.compare k k' = Lt.
Proof. unfold String.ltb. destruct (String.compare k k'); split; done. Qed.

Lemma sorted_keys_head {A} k (v : A) d k' (v' : A) l :
  sorted_keys ((k, v) :: d ++ (k', v') :: l) = true -> String.compare k k' = Lt.
Proof.
  revert k v; induction d as [|[k1 v1] d IH]; intros k v Hs; cbn [app sorted_keys] in Hs;
    apply andb_true_iff in Hs as [Hk Hs]; apply ltb_compare in Hk; [done|].
  eapply string_compare_trans; [done|]. by apply (IH k1 v1).
Qed.

Lemma dset_last {A} d k (v : A) l :
  sorted_keys (d ++ (k, v) :: l) = true -> dset k v d = d ++ [(k, v)].
Proof.
  induction d as [|[k' v'] d IH]; [done|]. intros Hs. cbn [dset app].
  pose proof (sorted_keys_head _ _ _ _ _ _ Hs) as Hk.
  rewrite string_compare_antisym, Hk. cbn [CompOpp]. f_equal. apply IH.
  destruct d as [|[? ?] d]; cbn [app sorted_keys] in Hs |- *; apply andb_true_iff in Hs as [_ Hs]; done.
Qed.

Lemma dlit_sorted {A} (d : list (string * A)) : sorted_keys d = true -> dlit d = d.
Proof.
  intros Hd. unfold dlit. change d with ([] ++ d) in Hd at 1.
  enough (forall l k, sorted_keys (k ++ l) = true ->
    fold_left (fun d kv => dset kv.1 kv.2 d) l k = k ++ l) as Hx by by apply (Hx d []).
  clear. intros l. induction l as [|[k v] l IH]; intros d Hs; cbn [fold_left fst snd].
  - by rewrite app_nil_r.
  - rewrite (dset_last d k v l) by done. rewrite IH by by rewrite <- app_assoc.
    by rewrite <- app_assoc.
Qed.

(** The values the printer reproduces. *)
Fixpoint json_ok (v : val) : bool :=
  match v with
  | VFloat f => float_valid f
  | VList l => forallb json_ok l
  | VDict d => sorted_keys d && forallb (fun kv => json_ok kv.2) d
  | _ => true
  end.

Section round.
Context `{FloatTextOk}.

Lemma parse_number_int z r : delimited r -> parse_number (str_of_Z z +:+ r) = Some (VInt z, r).
Proof.
  intros Hr. unfold parse_number. rewrite span_app by (apply str_of_Z_chars || by apply delimited_number).
  rewrite int_ok_str. pose proof (int_of_str_of_Z z) as Hz.
  destruct (NilZero.int_of_string (str_of_Z z)); [|done]. cbn in *. congruence.
Qed.

Lemma parse_number_float f r :
  float_finite f = true -> delimited r ->
  parse_number (float_repr f +:+ r) = Some (VFloat f, r).
Proof.
  intros Hf Hr. unfold parse_number. rewrite span_app by (apply float_repr_chars || by apply delimited_number).
  rewrite float_repr_not_int, float_parse_repr by done. done.
Qed.

(** ** Strings *)

Lemma parse_escape_char c fuel r :
  parse_string (S fuel) (escape_char c +:+ r) =
  match parse_string fuel r with Some (t, r) => Some (String c t, r) | None => None end.
Proof. destruct c as [[] [] [] [] [] [] [] []]; reflexivity. Qed.

Lemma parse_string_escape s fuel r :
  (String.length s < fuel)%nat -> parse_string fuel (escape s +:+ String quote r) = Some (s, r).
Proof.
  revert fuel; induction s as [|c s IH]; intros fuel Hf; (destruct fuel as [|fuel]; [cbn in Hf; lia|]).
  - reflexivity.
  - cbn [escape]. rewrite string_app_assoc, parse_escape_char, IH by (cbn in Hf; lia). done.
Qed.

Lemma escape_char_length c : (1 <= String.length (escape_char c))%nat.
Proof. destruct c as [[] [] [] [] [] [] [] []]; vm_compute; lia. Qed.

Lemma escape_length s : (String.length s <= String.length (escape s))%nat.
Proof.
  induction s as [|c s IH]; [done|]. cbn [escape String.length]. rewrite length_app_s.
  pose proof (escape_char_length c). lia.
Qed.

Lemma dump_string_app s r : dump_string s +:+ r = String quote (escape s +:+ String quote r).
Proof. unfold dump_string. rewrite string_app_cons, string_app_assoc. done. Qed.

Lemma parse_dump_string s r :
  parse_string (String.length (dump_string s +:+ r)) (escape s +:+ String quote r) = Some (s, r).
Proof.
  apply parse_string_escape. rewrite dump_string_app. cbn. rewrite length_app_s.
  pose proof (escape_length s). lia.
Qed.

(** ** Values *)

Lemma dumps_head v : exists c r, dumps v = String c r /\ space_char c = false
  /\ Ascii.eqb c "]" = false /\ Ascii.eqb c "}" = false.
Proof.
  assert (forall c, number_char c = true -> space_char c = false /\ Ascii.eqb c "]" = false
    /\ Ascii.eqb c "}" = false) as Hn by (by intros [[] [] [] [] [] [] [] []]).
  assert (forall s, (exists c r, s = String c r /\ number_char c = true /\ startswith "-I" (String c r) = false)
    -> exists c r, s = String c r /\ space_char c = false /\ Ascii.eqb c "]" = false /\ Ascii.eqb c "}" = false)
    as Hs by (intros s (c & r & -> & Hc & _); exists c, r; split; [done|by apply Hn]).
  destruct v as [|[]|z|f|s|l|d]; try (do 2 eexists; split; [reflexivity|done]).
  - apply Hs, str_of_Z_head.
  - destruct f as [s|[]| |s m e]; try (do 2 eexists; split; [reflexivity|done]); apply Hs, float_repr_head.
Qed.

Lemma skip_space_head c r : space_char c = false -> skip_space (String c r) = String c r.
Proof. unfold skip_space. simpl. by intros ->. Qed.

Lemma parse_number_text s r fuel v :
  (exists c t, s = String c t /\ number_char c = true /\ startswith "-I" (String c t) = false) ->
  delimited r -> parse_number (s +:+ r) = Some (v, r) -> parse_value (S fuel) (s +:+ r) = Some (v, r).
Proof.
  intros (c & t & -> & Hc & Hi) Hr <-. rewrite string_app_cons. cbn [parse_value].
  assert ((ord c =? 34) = false /\ Ascii.eqb c "[" = false /\ Ascii.eqb c "{" = false /\ c <> "n"%char
    /\ c <> "t"%char /\ c <> "f"%char /\ c <> "N"%char /\ c <> "I"%char) as (-> & -> & -> & ? & ? & ? & ? & ?).
  { by destruct c as [[] [] [] [] [] [] [] []]. }
  rewrite !(startswith_head _ c) by congruence.
  assert (startswith "-Infinity" (String c (t +:+ r)) = false) as ->; [|done].
  destruct (decide (c = "-"%char)) as [->|Hne]; [|by apply startswith_head].
  change "-Infinity" with (String "-" (String "I" "nfinity")). change "-I" with (String "-" "I") in Hi.
  rewrite startswith_cons in Hi |- *. destruct t as [|c' t].
  - change ("" +:+ r) with r. destruct r as [|c' r]; [done|]. apply startswith_head. intros <-.
    by vm_compute in Hr.
  - rewrite string_app_cons. destruct (decide (c' = "I"%char)) as [->|]; [|by apply startswith_head].
    change "I" with (String "I" "") in Hi at 1. rewrite startswith_cons in Hi. by destruct t.
Qed.

Definition parses (v : val) : Prop :=
  forall fuel r, (String.length (dumps v) < fuel)%nat -> delimited r ->
  parse_value fuel (dumps v +:+ r) = Some (v, r).

Lemma skip_space_dumps v r : skip_space (dumps v +:+ r) = dumps v +:+ r.
Proof. destruct (dumps_head v) as (c & t & -> & Hc & _). by apply skip_space_head. Qed.

Lemma skip_space_string k r : skip_space (dump_string k +:+ r) = dump_string k +:+ r.
Proof. rewrite dump_string_app. by apply skip_space_head. Qed.

Lemma join_cons2 sep w w' ws : join sep (w :: w' :: ws) = w +:+ sep +:+ join sep (w' :: ws).
Proof. done. Qed.

Lemma parse_items_join l r fuel :
  l <> [] -> Forall parses l -> (String.length (join "," (map dumps l)) + 1 < fuel)%nat ->
  parse_items fuel (join "," (map dumps l) +:+ String "]" r) = Some (l, r).
Proof.
  intros Hne Hl. revert fuel Hne. induction Hl as [|v l Hv Hl IH]; intros fuel Hne Hf; [done|].
  destruct fuel as [|fuel]; [lia|]. destruct l as [|v' l].
  - cbn [map join] in *. cbn [parse_items]. rewrite Hv by (done || lia). reflexivity.
  - cbn [map] in Hf |- *. rewrite join_cons2, !length_app_s in Hf. rewrite join_cons2, !string_app_assoc.
    cbn [parse_items]. rewrite Hv; [|lia|done].
    change ("," +:+ join "," (dumps v' :: map dumps l) +:+ String "]" r) with
      (String "," (join "," (map dumps (v' :: l)) +:+ String "]" r)).
    rewrite skip_space_head by done. cbv iota.
    assert (skip_space (join "," (map dumps (v' :: l)) +:+ String "]" r)
            = join "," (map dumps (v' :: l)) +:+ String "]" r) as ->.
    { cbn [map]. destruct l as [|v2 l]; [apply skip_space_dumps|].
      rewrite map_cons, join_cons2, !string_app_assoc. apply skip_space_dumps. }
    rewrite IH; [done|done|]. cbn [map String.length] in *. lia.
Qed.

Definition dump_member (kv : string * val) : string := dump_string kv.1 +:+ String ":" (dumps kv.2).

Lemma member_app kv r :
  dump_member kv +:+ r = dump_string kv.1 +:+ String ":" (dumps kv.2 +:+ r).
Proof. unfold dump_member. by rewrite string_app_assoc, string_app_cons. Qed.

Lemma parse_members_join d r fuel :
  d <> [] -> Forall (fun kv => parses kv.2) d ->
  (String.length (join "," (map dump_member d)) + 1 < fuel)%nat ->
  parse_members fuel (join "," (map dump_member d) +:+ String "}" r) = Some (d, r).
Proof.
  intros Hne Hd. revert fuel Hne. induction Hd as [|[k v] d Hv Hd IH]; intros fuel Hne Hf; [done|].
  destruct fuel as [|fuel]; [lia|].
  assert (forall r', (String.length (dump_member (k, v)) < S fuel)%nat -> delimited r' ->
    parse_members (S fuel) (dump_member (k, v) +:+ r') =
    match skip_space r' with
    | String "}" r => Some ([(k, v)], r)
    | String "," r => match parse_members fuel (skip_space r) with
                      | Some (l, r) => Some ((k, v) :: l, r) | None => None end
    | _ => None
    end) as Hstep.
  { intros r' Hlen Hr'. rewrite member_app. cbn [fst snd]. rewrite dump_string_app. cbn [parse_members].
    change (ord quote =? 34) with true. cbv iota. rewrite <- dump_string_app, parse_dump_string.
    rewrite skip_space_head by done. cbv iota. rewrite skip_space_dumps.
    unfold dump_member in Hlen. rewrite length_app_s in Hlen. cbn [fst snd String.length] in *.
    rewrite Hv by (done || lia). done. }
  destruct d as [|kv' d].
  - cbn [map join] in *. rewrite Hstep by (done || lia). done.
  - cbn [map] in Hf |- *. rewrite join_cons2, !length_app_s in Hf. rewrite join_cons2, 2!string_app_assoc.
    rewrite Hstep; [|lia|done].
    change ("," +:+ join "," (dump_member kv' :: map dump_member d) +:+ String "}" r) with
      (String "," (join "," (map dump_member (kv' :: d)) +:+ String "}" r)).
    rewrite skip_space_head by done. cbv iota.
    assert (skip_space (join "," (map dump_member (kv' :: d)) +:+ String "}" r)
            = join "," (map dump_member (kv' :: d)) +:+ String "}" r) as ->.
    { destruct d as [|kv2 d]; cbn [map]; [cbn [join]|rewrite join_cons2, string_app_assoc];
        rewrite member_app; apply skip_space_string. }
    rewrite IH; [done|done|]. cbn [map String.length] in *. lia.
Qed.

(** The constants of the grammar. *)
Ltac keyword :=
  cbn [dumps dump_float]; rewrite ?string_app_cons; cbn [parse_value];
  repeat match goal with |- context [?b =? 34] => change (b =? 34) with false end;
  repeat match goal with |- context [Ascii.eqb ?a ?b] => change (Ascii.eqb a b) with false end;
  repeat first [rewrite startswith_cons | rewrite startswith_head by done]; rewrite startswith_nil; reflexivity.

Lemma dumps_parses v : json_ok v = true -> parses v.
Proof.
  induction v as [|[]|z|f|s|l IH|d IH] using val_ind'; intros Hok fuel r Hf Hr;
    (destruct fuel as [|fuel]; [lia|]).
  - keyword.
  - keyword.
  - keyword.
  - apply parse_number_text; [apply str_of_Z_head|done|by apply parse_number_int].
  - cbn [json_ok] in Hok. destruct f as [sg|[]| |sg m e]; try keyword;
      (apply parse_number_text; [apply float_repr_head|done|by apply parse_number_float]).
  - cbn [dumps]. pose proof (parse_dump_string s r) as Hp. rewrite dump_string_app in Hp |- *.
    cbn [parse_value]. change (ord quote =? 34) with true. cbv iota. by rewrite Hp.
  - cbn [dumps json_ok] in *. rewrite string_app_cons, string_app_assoc.
    change (String "]" "" +:+ r) with (String "]" r). cbn [parse_value].
    change (ord "[" =? 34) with false. change (Ascii.eqb "[" "[") with true. cbv iota.
    destruct l as [|v l]; [reflexivity|].
    assert (Forall parses (v :: l)) as Hl.
    { apply Forall_forall. intros x Hx. rewrite Forall_forall in IH. apply IH; [done|].
      rewrite forallb_forall in Hok. by apply Hok, list_elem_of_In. }
    cbn [String.length] in Hf. rewrite length_app_s in Hf. cbn [String.length] in Hf.
    pose proof (parse_items_join (v :: l) r fuel ltac:(done) Hl ltac:(lia)) as Hp.
    assert (exists c t, join "," (map dumps (v :: l)) +:+ String "]" r = String c t
      /\ space_char c = false /\ Ascii.eqb c "]" = false) as (c & t & Ht & Hc & Hb).
    { destruct (dumps_head v) as (c & t & Hv & Hc & Hb & _).
      destruct l as [|v' l]; [cbn [map join]|rewrite !map_cons, join_cons2]; rewrite Hv; by do 2 eexists. }
    rewrite Ht in Hp |- *. rewrite skip_space_head by done.
    destruct c as [[] [] [] [] [] [] [] []]; try done; by rewrite Hp.
  - cbn [dumps json_ok] in *. apply andb_true_iff in Hok as [Hs Hok].
    rewrite string_app_cons, string_app_assoc.
    change (String "}" "" +:+ r) with (String "}" r). cbn [parse_value].
    change (ord "{" =? 34) with false. change (Ascii.eqb "{" "[") with false.
    change (Ascii.eqb "{" "{") with true. cbv iota.
    change (map _ d) with (map dump_member d) in Hf |- *.
    destruct d as [|kv d]; [reflexivity|].
    assert (Forall (fun kv => parses kv.2) (kv :: d)) as Hl.
    { apply Forall_forall. intros x Hx. rewrite Forall_forall in IH. apply IH; [done|].
      rewrite forallb_forall in Hok. by apply Hok, list_elem_of_In. }
    cbn [String.length] in Hf. rewrite length_app_s in Hf. cbn [String.length] in Hf.
    pose proof (parse_members_join (kv :: d) r fuel ltac:(done) Hl ltac:(lia)) as Hp.
    assert (exists t, join "," (map dump_member (kv :: d)) +:+ String "}" r = String quote t) as (t & Ht).
    { destruct d as [|kv' d]; [cbn [map join]|cbn [map]; rewrite join_cons2, string_app_assoc];
        rewrite member_app, dump_string_app; by eexists. }
    rewrite Ht in Hp |- *. rewrite skip_space_head by done.
    change (match String quote t with String "}" r0 => Some (VDict [], r0) | _ =>
      match parse_members fuel (String quote t) with Some (l, r0) => Some (VDict (dlit l), r0) | None => None end end
      = Some (VDict (kv :: d), r)).
    cbv iota. rewrite Hp. by rewrite dlit_sorted.
Qed.

Lemma dumps_ascii_head v : exists c t, dumps v = String c t.
Proof. destruct (dumps_head v) as (c & t & -> & _). eauto. Qed.

(** Reading what was written, with the newline the writers add. *)
Lemma loads_dumps v : json_ok v = true -> loads (dumps v +:+ String (ascii_of_N 10) "") = Ok v.
Proof.
  intros Hv. unfold loads. rewrite skip_space_dumps, dumps_parses; [done|done| |done].
  rewrite length_app_s. cbn. lia.
Qed.
End round.
