(* ===== verification/JsonExample.v ===== *)
(** * A text for floats

    An instance of the interface [FloatText] by exact texts (mantissa and binary
    exponent), which shows that the laws the JSON round trip relies on can
    hold. *)
From Stdlib Require Import DecimalString.
From S2P Require Import Prelude PyVal PyStr Json JsonRound.

Definition z_of_text (s : string) : option Z := option_map Z.of_int (NilZero.int_of_string s).

Definition exact_repr (f : spec_float) : string :=
  match f with
  | S754_finite s m e => str_of_Z (if s then Z.neg m else Z.pos m) +:+ String "e" (str_of_Z e)
  | S754_zero true => "-0.0"
  | _ => "0.0"
  end.

Definition not_e (c : ascii) : bool := negb (Ascii.eqb c "e").

Definition exact_parse (s : string) : option spec_float :=
  if String.eqb s "0.0" then Some (S754_zero false)
  else if String.eqb s "-0.0" then Some (S754_zero true)
  else
    let '(a, r) := span not_e s in
    match r with
    | String _ b =>
        match z_of_text a, z_of_text b with
        | Some (Z.pos m), Some e => Some (S754_finite false m e)
        | Some (Z.neg m), Some e => Some (S754_finite true m e)
        | _, _ => None
        end
    | "" => None
    end.

#[export] Instance exact_text : FloatText := {| float_repr := exact_repr; float_parse := exact_parse |}.

Lemma str_forall_app_s p s t : str_forall p (s +:+ t) = str_forall p s && str_forall p t.
Proof. induction s as [|c s IH]; [done|]. rewrite string_app_cons. cbn [str_forall]. by rewrite IH, andb_assoc. Qed.

Lemma str_of_Z_no_e z : str_forall not_e (str_of_Z z) = true.
Proof.
  assert (forall c, digit_char c = true -> not_e c = true) as Hd by (by intros [[] [] [] [] [] [] [] []]).
  destruct (str_of_Z_parts z) as [(d & -> & Hn)|(d & -> & Hn)]; apply natural_ok_digits in Hn;
    [|cbn [str_forall]; apply andb_true_iff; split; [done|]]; by eapply str_forall_impl.
Qed.

Lemma int_ok_digits s : int_ok s = true -> str_forall not_e s = true.
Proof.
  assert (forall c, digit_char c = true -> not_e c = true) as Hd by (by intros [[] [] [] [] [] [] [] []]).
  intros Hi. assert (natural_ok s = true \/ exists r, s = String "-" r /\ natural_ok r = true) as [Hn|(r & -> & Hn)].
  { destruct s as [|c r]; [by left|]. destruct c as [[] [] [] [] [] [] [] []]; try (by left). right. by exists r. }
  - by eapply str_forall_impl, natural_ok_digits.
  - cbn [str_forall]. apply andb_true_iff; split; [done|]. by eapply str_forall_impl, natural_ok_digits.
Qed.

#[export] Instance exact_text_ok : FloatTextOk.
Proof.
  split.
  - intros f. destruct f as [[]|[]| |s m e]; try by vm_compute. cbn [float_repr exact_text exact_repr].
    rewrite str_forall_app_s. apply andb_true_iff. split; [apply str_of_Z_chars|].
    cbn [str_forall]. apply andb_true_iff. split; [done|apply str_of_Z_chars].
  - intros f. destruct f as [[]|[]| |s m e]; try (do 2 eexists; split; [reflexivity|by vm_compute]).
    cbn [float_repr exact_text exact_repr].
    destruct (str_of_Z_head (if s then Z.neg m else Z.pos m)) as (c & r & Hr & Hc & Hi). rewrite Hr.
    exists c, (r +:+ String "e" (str_of_Z e)). split; [done|]. split; [done|].
    destruct (decide (c = "-"%char)) as [->|Hne]; [|apply startswith_head; congruence].
    change "-I" with (String "-" "I") in Hi |- *. rewrite startswith_cons in Hi |- *.
    destruct r as [|c r]; [by vm_compute|]. rewrite string_app_cons.
    apply startswith_head. intros <-. change "I" with (String "I" "") in Hi. rewrite startswith_cons in Hi.
    by rewrite startswith_nil in Hi.
  - intros f. destruct f as [[]|[]| |s m e]; try by vm_compute. cbn [float_repr exact_text exact_repr].
    destruct (int_ok _) eqn:Hi; [|done]. apply int_ok_digits in Hi.
    rewrite str_forall_app_s in Hi. apply andb_true_iff in Hi as [_ Hi]. done.
  - intros f Hf. destruct f as [[]|?| |s m e]; try done. cbn [float_repr float_parse exact_text exact_repr].
    unfold exact_parse.
    assert (forall t, str_forall not_e t = true ->
      (str_of_Z (if s then Z.neg m else Z.pos m) +:+ String "e" (str_of_Z e) =? t)%string = false) as Hne.
    { intros t Ht. apply String.eqb_neq. intros <-. rewrite str_forall_app_s in Ht.
      by apply andb_true_iff in Ht as [_ Ht]. }
    rewrite !Hne by done. rewrite span_app by (apply str_of_Z_no_e || done).
    unfold z_of_text. rewrite !int_of_str_of_Z. by destruct s.
Qed.
