(* ===== verification/PyText.v ===== *)
(** * Text of values

    [str(v)] and [repr(v)] of the values of [PyVal], [s.upper()], the bounded
    printable text [_clean] that most modules define, [s.partition], and
    dictionaries in insertion order as association lists. A
    dictionary prints in the order of its keys. *)
From S2P Require Import Prelude PyVal PyStr Json.

(** [s.upper()] on Latin-1 text; the two characters whose upper case is outside
    Latin-1 (MICRO SIGN, Y WITH DIAERESIS) are kept. *)
Definition upper_char (c : ascii) : string :=
  let n := ord c in
  if ((97 <=? n) && (n <=? 122)) || ((224 <=? n) && (n <=? 254) && negb (n =? 247))
  then String (ascii_of_N (Z.to_N (n - 32))) ""
  else if n =? 223 then "SS" else String c "".

Fixpoint str_upper (s : string) : string :=
  match s with "" => "" | String c s => upper_char c +:+ str_upper s end.

(** [s.partition(c)]: the part before the first [c], whether there is one, and
    the part after it. *)
Fixpoint partition_at (c : ascii) (s : string) : string * bool * string :=
  match s with
  | "" => ("", false, "")
  | String a r =>
      if Ascii.eqb a c then ("", true, r)
      else let '(x, b, y) := partition_at c r in (String a x, b, y)
  end.

(** The class [\w]; digits and fractions of Latin-1 are alphanumeric. *)
Definition word_char (c : ascii) : bool :=
  let n := ord c in
  digit_char c || ((65 <=? n) && (n <=? 90)) || ((97 <=? n) && (n <=? 122)) || (n =? 95)
  || existsb (Z.eqb n) [170; 178; 179; 181; 185; 186; 188; 189; 190]
  || ((192 <=? n) && (n <=? 255) && negb ((n =? 215) || (n =? 247))).

(** [s in (t1, ..., tn)]. *)
Definition member (s : string) (l : list string) : bool := existsb (String.eqb s) l.

(** [s[-n:]]. *)
Definition str_last (n : nat) (s : string) : string := str_drop (String.length s - n) s.

(** [s.splitlines()]: a line ends at a control character that breaks lines,
    and CR LF is one break. *)
Definition line_break (c : ascii) : bool :=
  let n := ord c in ((10 <=? n) && (n <=? 13)) || ((28 <=? n) && (n <=? 30)) || (n =? 133).

Fixpoint splitlines (s : string) : list string :=
  match s with
  | "" => []
  | String c r =>
      if line_break c then
        match r with
        | String d r' => if (ord c =? 13) && (ord d =? 10) then "" :: splitlines r' else "" :: splitlines r
        | "" => [""]
        end
      else match splitlines r with l :: ls => String c l :: ls | [] => [String c ""] end
  end.

(** [c in s]. *)
Definition has_char (c : ascii) (s : string) : bool := str_exists (Ascii.eqb c) s.

(** [t in s]. *)
Fixpoint str_contains (t s : string) : bool :=
  startswith t s || match s with "" => false | String _ r => str_contains t r end.

(** [d[k] = v] on a dictionary in insertion order. *)
Fixpoint put {A} (k : string) (v : A) (l : list (string * A)) : list (string * A) :=
  match l with
  | [] => [(k, v)]
  | (k', v') :: l => if String.eqb k' k then (k, v) :: l else (k', v') :: put k v l
  end.

Lemma dget_put {A} k k' (v : A) l : dget k (put k' v l) = if String.eqb k k' then Some v else dget k l.
Proof.
  induction l as [|[k2 v2] l IH]; cbn; [done|].
  destruct (String.eqb_spec k2 k') as [->|Hne]; cbn; [by destruct (k =? k')%string|].
  rewrite IH. destruct (String.eqb_spec k k2) as [->|]; [|done].
  by rewrite (proj2 (String.eqb_neq _ _) Hne).
Qed.

(** [len(s.encode())]. *)
Definition utf8_len (s : string) : Z := str_len s + str_len (str_filter (fun c => 128 <=? ord c) s).

(** [html.escape(s)]. *)
Definition html_char (c : ascii) : string :=
  let n := ord c in
  if n =? 38 then "&amp;" else if n =? 60 then "&lt;" else if n =? 62 then "&gt;" else if n =? 34 then "&quot;"
  else if n =? 39 then "&#x27;" else String c "".

Fixpoint html_escape (s : string) : string :=
  match s with "" => "" | String c s => html_char c +:+ html_escape s end.

(** [_clean(s, maximum)] on text. *)
Definition clean (s : string) (maximum : nat) : string := str_take maximum (str_filter isprintable_char s).

(** [s or None]. *)
Definition text_or_none (s : string) : val := if String.eqb s "" then VNone else VStr s.

Section text.
Context `{FloatText}.

Definition float_str (f : spec_float) : string :=
  match f with
  | S754_nan => "nan"
  | S754_infinity true => "-inf"
  | S754_infinity false => "inf"
  | _ => float_repr f
  end.

Definition single_quote : ascii := ascii_of_N 39.

Definition repr_char (q c : ascii) : string :=
  let n := ord c in
  if Ascii.eqb c q || Ascii.eqb c backslash then String backslash (String c "")
  else if n =? 9 then String backslash "t" else if n =? 10 then String backslash "n"
  else if n =? 13 then String backslash "r"
  else if isprintable_char c then String c ""
  else String backslash (String "x" (String (hex_digit_char (Z.shiftr n 4)) (String (hex_digit_char (Z.land n 15)) ""))).

Fixpoint repr_chars (q : ascii) (s : string) : string :=
  match s with "" => "" | String c s => repr_char q c +:+ repr_chars q s end.

Definition repr_str (s : string) : string :=
  let q := if has_char single_quote s && negb (has_char quote s) then quote else single_quote in
  String q (repr_chars q s +:+ String q "").

Fixpoint py_repr (v : val) : string :=
  match v with
  | VNone => "None"
  | VBool true => "True"
  | VBool false => "False"
  | VInt z => str_of_Z z
  | VFloat f => float_str f
  | VStr s => repr_str s
  | VList l => String "[" (join ", " (map py_repr l) +:+ String "]" "")
  | VDict d => String "{" (join ", " (map (fun kv => repr_str kv.1 +:+ ": " +:+ py_repr kv.2) d) +:+ String "}" "")
  end.

Definition py_str (v : val) : string := match v with VStr s => s | _ => py_repr v end.

(** [str(value or "")]. *)
Definition text_of (v : val) : string := if truthy v then py_str v else "".

(** [_clean(value, maximum)]. *)
Definition clean_val (v : val) (maximum : nat) : string := clean (text_of v) maximum.

(** [_clean(value, maximum) or None]. *)
Definition clean_or_none (v : val) (maximum : nat) : val := text_or_none (clean_val v maximum).
End text.

(** ** Lemmas *)

Lemma str_take_length n s : (String.length (str_take n s) <= n)%nat.
Proof. revert s; induction n as [|n IH]; intros [|c s]; cbn; [lia..|]. specialize (IH s). lia. Qed.

Lemma str_take_forall p n s : str_forall p s = true -> str_forall p (str_take n s) = true.
Proof.
  revert s; induction n as [|n IH]; intros [|c s]; cbn; try done.
  rewrite !andb_true_iff. intros [? ?]. split; [done|]. by apply IH.
Qed.

Lemma str_filter_forall p s : str_forall p (str_filter p s) = true.
Proof. induction s as [|c s IH]; cbn; [done|]. destruct (p c) eqn:E; cbn; [by rewrite E|done]. Qed.

Lemma put_length {A} k (v : A) l : (length (put k v l) <= S (length l))%nat.
Proof. induction l as [|[k' v'] l IH]; cbn; [lia|]. destruct (String.eqb k' k); cbn; lia. Qed.

Lemma put_In {A} k (v : A) l e : In e (put k v l) -> e = (k, v) \/ In e l.
Proof.
  induction l as [|[k' v'] l IH]; cbn; [naive_solver|]. destruct (String.eqb k' k); cbn; [naive_solver|].
  intros [->|Hin]; [by right; left|]. destruct (IH Hin); [by left|by right; right].
Qed.

(** [d.update(e)] for distinct keys. *)
Lemma dget_dupdate {A} k (d e : list (string * A)) :
  NoDup (map fst e) -> dget k (dupdate d e) = match dget k e with Some v => Some v | None => dget k d end.
Proof.
  unfold dupdate. revert d; induction e as [|[k' v] e IH]; intros d; cbn; [done|].
  intros [Hk He]%NoDup_cons. rewrite IH by done. rewrite dget_dset.
  destruct (String.eqb_spec k k') as [->|Hne].
  - rewrite decide_True by done. destruct (dget k' e) eqn:E; [|done].
    exfalso. apply Hk, list_elem_of_In. exact (in_map fst _ _ (dget_In _ _ _ E)).
  - by rewrite decide_False.
Qed.

Lemma html_escape_safe s : str_forall (fun c => negb ((ord c =? 60) || (ord c =? 62) || (ord c =? 34) || (ord c =? 39))) (html_escape s) = true.
Proof.
  induction s as [|c s IH]; [done|]. cbn [html_escape].
  assert (forall t u p, str_forall p (t +:+ u) = str_forall p t && str_forall p u) as Happ.
  { intros t u p. induction t as [|a t IHt]; [done|]. cbn [str_forall]. rewrite <- andb_assoc, <- IHt. done. }
  rewrite Happ, IH, andb_true_r. unfold html_char.
  destruct (ord c =? 38); [reflexivity|]. destruct (ord c =? 60) eqn:E1; [reflexivity|].
  destruct (ord c =? 62) eqn:E4; [reflexivity|]. destruct (ord c =? 34) eqn:E2; [reflexivity|].
  destruct (ord c =? 39) eqn:E3; [reflexivity|]. cbn [str_forall]. by rewrite E1, E2, E3, E4.
Qed.

(** What [_clean] returns is printable and bounded. *)
Lemma clean_bounded s n : (String.length (clean s n) <= n)%nat /\ isprintable (clean s n) = true.
Proof. split; [apply str_take_length|]. apply str_take_forall, str_filter_forall. Qed.

Example repr_examples `{FloatText} :
  py_str (VList [VStr "it's"; VInt 3; VNone; VStr "a"]) = String "[" (repr_str "it's" +:+ ", 3, None, 'a']")
  /\ str_upper "Ready-7" = "READY-7" /\ partition_at ":" "a:b:c" = ("a", true, "b:c").
Proof. by split_and!. Qed.

Example splitlines_examples :
  let nl := String (ascii_of_N 10) "" in
  let cr := String (ascii_of_N 13) "" in
  splitlines ("a" +:+ nl +:+ "b") = ["a"; "b"] /\ splitlines ("a" +:+ cr +:+ nl +:+ nl +:+ "b" +:+ nl) = ["a"; ""; "b"]
  /\ splitlines "" = [] /\ splitlines (nl +:+ cr +:+ "x") = [""; ""; "x"].
Proof. vm_compute. by split_and!. Qed.

Lemma str_take_all n s : (String.length s <= n)%nat -> str_take n s = s.
Proof.
  revert n; induction s as [|c s IH]; intros [|n]; cbn; try done; [lia|]. intros Hn. rewrite IH; [done|lia].
Qed.

Lemma str_filter_all p s : str_forall p s = true -> str_filter p s = s.
Proof.
  induction s as [|c s IH]; [done|]. cbn. intros [-> Hs]%andb_true_iff. by rewrite IH.
Qed.

Lemma clean_idemp s n : clean (clean s n) n = clean s n.
Proof.
  destruct (clean_bounded s n) as [Hl Hp]. unfold clean at 1. rewrite str_filter_all by done. by apply str_take_all.
Qed.
