(* ===== verification/PyTime.v ===== *)
(** * Moments in time

    A moment is an integer number of microseconds since the epoch, in UTC. Its
    ISO text is computed from the proleptic Gregorian calendar as [datetime]
    does; the parser [datetime.fromisoformat], which accepts many forms and
    reads a text without an offset as local time, is an interface. *)
From S2P Require Import Prelude PyStr.

Definition microsecond : Z := 1.
Definition second : Z := 1000000.
Definition minute : Z := 60 * second.

(** Year, month and day of a number of days since 1970-01-01. *)
Definition civil_from_days (days : Z) : Z * Z * Z :=
  let z := days + 719468 in
  let era := z / 146097 in
  let doe := z mod 146097 in
  let yoe := (doe - doe / 1460 + doe / 36524 - doe / 146096) / 365 in
  let doy := doe - (365 * yoe + yoe / 4 - yoe / 100) in
  let mp := (5 * doy + 2) / 153 in
  let d := doy - (153 * mp + 2) / 5 + 1 in
  let m := if mp <? 10 then mp + 3 else mp - 9 in
  (yoe + era * 400 + (if m <=? 2 then 1 else 0), m, d).

(** [str(n)] padded with zeros to at least [width] characters. *)
Definition padded (width : nat) (n : Z) : string :=
  let s := str_of_Z n in String.concat "" (repeat "0"%string (width - String.length s)) +:+ s.

Definition two (n : Z) : string := padded 2 n.

(** [value.isoformat().replace("+00:00", "Z")] of an aware UTC datetime. *)
Definition utc_text (t : Z) : string :=
  let '(y, m, d) := civil_from_days (t / (86400 * second)) in
  let s := (t / second) mod 86400 in
  let us := t mod second in
  padded 4 y +:+ "-" +:+ two m +:+ "-" +:+ two d +:+ "T" +:+ two (s / 3600) +:+ ":" +:+ two (s / 60 mod 60)
  +:+ ":" +:+ two (s mod 60) +:+ (if us =? 0 then "" else "." +:+ padded 6 us) +:+ "Z".

(** [iso(value)], [stamp(value)]: without microseconds. *)
Definition iso (t : Z) : string := utc_text (t / second * second).

(** [value.isoformat()] of an aware UTC datetime. *)
Definition isoformat (t : Z) : string := removesuffix "Z" (utc_text t) +:+ "+00:00".

(** [event_time(value)]: the moment a text denotes, [None] when it is refused. *)
Class TimeText := { event_time : string -> option Z }.

(** [datetime.fromisoformat(text.replace("Z", "+00:00"))]: the moment and
    whether the text has an offset; without one the moment is that of the same
    text in UTC. *)
Class IsoText := { iso_parse : string -> option (Z * bool) }.

(** [datetime.min] in UTC. *)
Definition TIME_MIN : Z := -62135596800 * second.

Example utc_texts :
  map utc_text [0; 1790000000123456; 951782400 * second; 4102444799 * second] =
  ["1970-01-01T00:00:00Z"; "2026-09-21T14:13:20.123456Z"; "2000-02-29T00:00:00Z"; "2099-12-31T23:59:59Z"]%string.
Proof. vm_compute. reflexivity. Qed.

(** The inverse on the canonical form, which is one of the forms
    [fromisoformat] accepts. *)
Definition days_from_civil (y m d : Z) : Z :=
  let y := if m <=? 2 then y - 1 else y in
  let era := y / 400 in
  let yoe := y mod 400 in
  let doy := (153 * (if 2 <? m then m - 3 else m + 9) + 2) / 5 + d - 1 in
  era * 146097 + (yoe * 365 + yoe / 4 - yoe / 100 + doy) - 719468.

Definition part (i n : nat) (s : string) : string := str_take n (str_drop i s).

Definition canonical_time (s : string) : option Z :=
  let number (i n : nat) := digits_val (part i n s) in
  let t := (days_from_civil (number 0%nat 4%nat) (number 5%nat 2%nat) (number 8%nat 2%nat) * 86400
            + number 11%nat 2%nat * 3600 + number 14%nat 2%nat * 60 + number 17%nat 2%nat) * second in
  if String.eqb (utc_text t) s then Some t else None.

(** The two ways the code writes an offset of zero. *)
Definition zulu (s : string) : string := if endswith "+00:00" s then removesuffix "+00:00" s +:+ "Z" else s.

#[export] Instance canonical_iso : IsoText := { iso_parse s := (fun t => (t, true)) <$> canonical_time (zulu s) }.

Example canonical_times :
  map canonical_time ["1970-01-01T00:00:00Z"; "2026-09-21T14:13:20Z"; "2000-02-29T00:00:00Z"; "soon"]%string
  = [Some 0; Some (1790000000 * second); Some (951782400 * second); None].
Proof. vm_compute. reflexivity. Qed.

Example iso_round_trips :
  map (fun t => iso_parse (isoformat t)) [0; 1790000000 * second; 951782400 * second]
  = map (fun t => Some (t, true)) [0; 1790000000 * second; 951782400 * second].
Proof. vm_compute. reflexivity. Qed.
