(* ===== verification/IpAddr.v ===== *)
(** * The [ipaddress] module of the standard library

    [ip_address], [ip_network(..., strict=False)], their [str], equality and
    membership, as the policy code uses them. Addresses are non-negative
    integers; an IPv6 address may carry a scope id. An IPv4-mapped IPv6 address
    prints in mixed notation. *)
From S2P Require Import Prelude PyVal PyStr.
Open Scope Z_scope.

Inductive ip_addr :=
| IPv4 (n : Z)
| IPv6 (n : Z) (scope : option string).

#[export] Instance ip_addr_eq_dec : EqDecision ip_addr.
Proof. solve_decision. Defined.

Record ip_net := IpNet { net_addr : ip_addr; net_plen : Z }.

Definition ip_version (a : ip_addr) : Z := match a with IPv4 _ => 4 | IPv6 _ _ => 6 end.
Definition ip_int (a : ip_addr) : Z := match a with IPv4 n => n | IPv6 n _ => n end.
Definition max_plen (a : ip_addr) : Z := match a with IPv4 _ => 32 | IPv6 _ _ => 128 end.

(** ** Parsing *)

Fixpoint all_some {A} (l : list (option A)) : option (list A) :=
  match l with
  | [] => Some []
  | x :: l => y ← x; ys ← all_some l; Some (y :: ys)
  end.

Definition parse_octet (s : string) : option Z :=
  if negb (match_digits 3 s) then None
  else if negb (String.eqb s "0") && startswith "0" s then None
  else let n := digits_val s in if n <=? 255 then Some n else None.

Definition ipv4_of_string (s : string) : option Z :=
  match all_some (map parse_octet (split "."%char s)) with
  | Some [a; b; c; d] => Some (((a * 256 + b) * 256 + c) * 256 + d)
  | _ => None
  end.

Definition hex_digit_val (c : ascii) : option Z :=
  let n := ord c in
  if (48 <=? n) && (n <=? 57) then Some (n - 48)
  else if (97 <=? n) && (n <=? 102) then Some (n - 87)
  else if (65 <=? n) && (n <=? 70) then Some (n - 55)
  else None.

Definition parse_hextet (s : string) : option Z :=
  if String.eqb s "" || (4 <? str_len s) then None
  else (fix go (acc : Z) (s : string) : option Z :=
          match s with
          | "" => Some acc
          | String c s => d ← hex_digit_val c; go (acc * 16 + d) s
          end) 0 s.

Definition hex_char (n : Z) : ascii :=
  Ascii.ascii_of_N (Z.to_N (if n <? 10 then 48 + n else 87 + n)).

(** ['%x' % n] for [0 <= n < 2^16]. *)
Definition hex16 (n : Z) : string :=
  let d k := hex_char (Z.land (Z.shiftr n (4 * k)) 15) in
  if n <? 16 then String (d 0) ""
  else if n <? 256 then String (d 1) (String (d 0) "")
  else if n <? 4096 then String (d 2) (String (d 1) (String (d 0) ""))
  else String (d 3) (String (d 2) (String (d 1) (String (d 0) ""))).

(** The part of an IPv4-suffixed IPv6 address is replaced by two hextets. *)
Definition expand_v4_suffix (parts : list string) : option (list string) :=
  match last parts with
  | Some p =>
      if str_exists (Ascii.eqb "."%char) p
      then v ← ipv4_of_string p;
           Some (take (length parts - 1) parts
                 ++ [hex16 (Z.land (Z.shiftr v 16) 65535); hex16 (Z.land v 65535)])
      else Some parts
  | None => None
  end.

(** Positions [i], [1 <= i < len(parts) - 1], with an empty part. *)
Definition inner_empty (parts : list string) : list nat :=
  List.filter (fun i => String.eqb (nth i parts "") "") (seq 1 (length parts - 2)).

(** The eight hextets of the colon-separated [parts]. *)
Definition ipv6_hextets (parts : list string) : option (list Z) :=
  let n := length parts in
  let first_empty := String.eqb (nth 0 parts "") "" in
  let last_empty := String.eqb (nth (n - 1) parts "") "" in
  if (9 <? n)%nat then None else
  match inner_empty parts with
  | _ :: _ :: _ => None
  | [skip] =>
      let hi := if first_empty then (skip - 1)%nat else skip in
      let lo := if last_empty then (n - skip - 2)%nat else (n - skip - 1)%nat in
      if first_empty && negb (hi =? 0)%nat then None
      else if last_empty && negb (lo =? 0)%nat then None
      else if (8 <? hi + lo + 1)%nat then None
      else a ← all_some (map parse_hextet (take hi parts));
           b ← all_some (map parse_hextet (drop (n - lo) parts));
           Some (a ++ repeat 0 (8 - (hi + lo)) ++ b)
  | [] =>
      if negb (n =? 8)%nat || first_empty || last_empty then None
      else all_some (map parse_hextet parts)
  end.

Definition hextets_val (hs : list Z) : Z := fold_left (fun acc h => acc * 65536 + h) hs 0.

Definition ipv6_int_of_string (s : string) : option Z :=
  let parts := split ":"%char s in
  if (length parts <? 3)%nat then None
  else parts' ← expand_v4_suffix parts; hs ← ipv6_hextets parts'; Some (hextets_val hs).

(** [_split_scope_id]: [s.partition('%')]. *)
Definition split_scope (s : string) : option (string * option string) :=
  match split "%"%char s with
  | [a] => Some (a, None)
  | [a; sc] => if String.eqb sc "" then None else Some (a, Some sc)
  | _ => None
  end.

Definition ipv6_of_string (s : string) : option ip_addr :=
  if str_exists (Ascii.eqb "/"%char) s then None
  else '(a, sc) ← split_scope s; n ← ipv6_int_of_string a; Some (IPv6 n sc).

(** [ipaddress.ip_address(s)] on a string. *)
Definition ip_address (s : string) : option ip_addr :=
  match ipv4_of_string s with
  | Some n => Some (IPv4 n)
  | None => ipv6_of_string s
  end.

(** [ipaddress.ip_address(v)] on any value: integers are accepted as addresses,
    and the text of any other object is never an address. *)
Definition ip_address_val (v : val) : res ip_addr :=
  let fail := Err (ValueError "does not appear to be an IPv4 or IPv6 address") in
  let of_int n :=
    if (0 <=? n) && (n <? 2 ^ 32) then Ok (IPv4 n)
    else if (0 <=? n) && (n <? 2 ^ 128) then Ok (IPv6 n None) else fail in
  match v with
  | VStr s => match ip_address s with Some a => Ok a | None => fail end
  | VInt n => of_int n
  | VBool b => of_int (if b then 1 else 0)
  | _ => fail
  end.

(** ** Networks *)

Definition all_ones (max : Z) : Z := 2 ^ max - 1.

(** [_ip_int_from_prefix]. *)
Definition netmask (max p : Z) : Z := Z.lxor (all_ones max) (Z.shiftr (all_ones max) p).

(** [_prefix_from_prefix_string]. *)
Definition prefix_of_digits (max : Z) (s : string) : option Z :=
  if negb (String.eqb s "") && str_forall digit_char s
  then let p := digits_val s in if p <=? max then Some p else None
  else None.

(** [_prefix_from_ip_string]: a netmask, or else a hostmask. *)
Definition prefix_of_mask (s : string) : option Z :=
  n ← ipv4_of_string s;
  let look m := List.find (fun p => netmask 32 p =? m) (map Z.of_nat (seq 0 33)) in
  match look n with
  | Some p => Some p
  | None => look (Z.lxor n (all_ones 32))
  end.

Definition ipv4_network (addr : string) (mask : option string) : option ip_net :=
  n ← ipv4_of_string addr;
  p ← match mask with
      | None => Some 32
      | Some m => match prefix_of_digits 32 m with Some p => Some p | None => prefix_of_mask m end
      end;
  Some (IpNet (IPv4 (Z.land n (netmask 32 p))) p).

Definition ipv6_network (addr : string) (mask : option string) : option ip_net :=
  a ← ipv6_of_string addr;
  p ← match mask with None => Some 128 | Some m => prefix_of_digits 128 m end;
  let n := ip_int a in
  Some (IpNet (if Z.land n (netmask 128 p) =? n then a
               else IPv6 (Z.land n (netmask 128 p)) None) p).

(** [ipaddress.ip_network(s, strict=False)]. *)
Definition ip_network (s : string) : option ip_net :=
  let go addr mask :=
    match ipv4_network addr mask with Some n => Some n | None => ipv6_network addr mask end in
  match split "/"%char s with
  | [addr] => go addr None
  | [addr; mask] => go addr (Some mask)
  | _ => None
  end.

(** [a in net]. *)
Definition in_network (a : ip_addr) (net : ip_net) : bool :=
  (ip_version a =? ip_version (net_addr net))
  && (Z.land (ip_int a) (netmask (max_plen (net_addr net)) (net_plen net)) =? ip_int (net_addr net)).

(** ** Printing *)

Definition ipv4_str (n : Z) : string :=
  join "." (map (fun k => str_of_Z (Z.land (Z.shiftr n (8 * k)) 255)) [3; 2; 1; 0]).

Definition hextets_of (n : Z) : list Z :=
  map (fun k => Z.land (Z.shiftr n (16 * k)) 65535) [7; 6; 5; 4; 3; 2; 1; 0].

(** Start and length of the first longest run of ["0"] parts, by the scan of
    [_compress_hextets]: best start/length, current start/length. *)
Definition scan_zeros (hextets : list string) : nat * nat :=
  let '(bs, bl, _, _, _) :=
    fold_left (fun '(bs, bl, cs, cl, i) h =>
      if String.eqb h "0"
      then let cs := if (cl =? 0)%nat then i else cs in
           let cl := S cl in
           if (bl <? cl)%nat then (cs, cl, cs, cl, S i) else (bs, bl, cs, cl, S i)
      else (bs, bl, 0%nat, 0%nat, S i)) hextets (0%nat, 0%nat, 0%nat, 0%nat, 0%nat)
  in (bs, bl).

Definition compress_hextets (hextets : list string) : list string :=
  let '(start, len) := scan_zeros hextets in
  if (1 <? len)%nat
  then let stop := (start + len)%nat in
       (if (start =? 0)%nat then [""] else []) ++ take start hextets ++ [""]
       ++ drop stop hextets ++ (if (stop =? length hextets)%nat then [""] else [])
  else hextets.

Definition ipv6_int_str (n : Z) : string :=
  if Z.shiftr n 32 =? 65535
  then "::ffff:" +:+ ipv4_str (Z.land n 4294967295)
  else join ":" (compress_hextets (map hex16 (hextets_of n))).

(** [str(address)]. *)
Definition ip_str (a : ip_addr) : string :=
  match a with
  | IPv4 n => ipv4_str n
  | IPv6 n None => ipv6_int_str n
  | IPv6 n (Some sc) => ipv6_int_str n +:+ "%" +:+ sc
  end.

(** [str(network)]. *)
Definition net_str (net : ip_net) : string :=
  ip_str (net_addr net) +:+ "/" +:+ str_of_Z (net_plen net).

Example ip_examples :
  (option_map ip_str (ip_address "2001:DB8:0:0:1::1"), option_map ip_str (ip_address "::"),
   option_map ip_str (ip_address "::ffff:102:304"), option_map net_str (ip_network "10.1.2.3/255.0.0.0"),
   option_map net_str (ip_network "2001:db8::1/32"), ip_address "1.2.3.04", ip_address "1::2::3")
  = (Some "2001:db8::1:0:0:1", Some "::", Some "::ffff:1.2.3.4", Some "10.0.0.0/8",
     Some "2001:db8::/32", None, None).
Proof. vm_compute. reflexivity. Qed.

(** ** Printing and parsing are inverse *)

Definition scope_wf (sc : string) : bool :=
  negb (String.eqb sc "") && str_forall (fun c => negb (Ascii.eqb c "%"%char)) sc
  && str_forall (fun c => negb (Ascii.eqb c "/"%char)) sc.

Definition ip_wf (a : ip_addr) : Prop :=
  match a with
  | IPv4 n => 0 <= n < 2 ^ 32
  | IPv6 n sc => 0 <= n < 2 ^ 128 /\ match sc with None => True | Some sc => scope_wf sc = true end
  end.

(** A property of every integer of a range, checked by evaluation. *)
Fixpoint all_from (n : nat) (z : Z) (p : Z -> bool) : bool :=
  match n with O => true | S n => p z && all_from n (z + 1) p end.

Lemma all_from_spec n z0 p z :
  all_from n z0 p = true -> z0 <= z < z0 + Z.of_nat n -> p z = true.
Proof.
  revert z0; induction n as [|n IH]; intros z0; simpl; [lia|].
  rewrite andb_true_iff. intros [Hz Hn] Hr.
  destruct (decide (z = z0)) as [->|]; [done|]. apply (IH (z0 + 1)); [done|lia].
Qed.

Definition all_below (n : Z) (p : Z -> bool) : bool := all_from (Z.to_nat n) 0 p.

Lemma all_below_spec n p z : all_below n p = true -> 0 <= z < n -> p z = true.
Proof. intros H Hz. eapply (all_from_spec _ 0); [exact H | lia]. Qed.

Definition octet_ok (z : Z) : bool :=
  bool_decide (parse_octet (str_of_Z z) = Some z)
  && str_forall digit_char (str_of_Z z).

Lemma octet_ok_all z : 0 <= z < 256 -> octet_ok z = true.
Proof. apply (all_below_spec 256). by vm_compute. Qed.

Lemma parse_octet_str z : 0 <= z < 256 -> parse_octet (str_of_Z z) = Some z.
Proof. intros H. apply octet_ok_all, andb_true_iff in H as [H _]. by apply bool_decide_eq_true in H. Qed.

Lemma octet_digits z : 0 <= z < 256 -> str_forall digit_char (str_of_Z z) = true.
Proof. intros H. by apply octet_ok_all, andb_true_iff in H as [_ H]. Qed.

Definition hex_char_ok (c : ascii) : bool :=
  match hex_digit_val c with Some _ => true | None => false end.

Definition hextet_ok (z : Z) : bool :=
  bool_decide (parse_hextet (hex16 z) = Some z)
  && str_forall hex_char_ok (hex16 z) && Bool.eqb (String.eqb (hex16 z) "0") (z =? 0)
  && negb (String.eqb (hex16 z) "").

Lemma hextet_ok_all z : 0 <= z < 65536 -> hextet_ok z = true.
Proof.
  apply all_below_spec. by vm_compute.
Qed.

Ltac bits_to_div :=
  rewrite ?Z.shiftr_div_pow2 by lia;
  change 255 with (Z.ones 8); change 65535 with (Z.ones 16); change 4294967295 with (Z.ones 32);
  rewrite ?Z.land_ones by lia.

Lemma land_bound n k : 0 <= k -> 0 <= Z.land n (Z.ones k) < 2 ^ k.
Proof. intros H. rewrite Z.land_ones by done. apply Z.mod_pos_bound. lia. Qed.

Lemma digit_not c d : negb (digit_char d) = true -> digit_char c = true -> negb (Ascii.eqb c d) = true.
Proof. intros Hd Hc. destruct (Ascii.eqb_spec c d) as [->|]; [|done]. by rewrite Hc in Hd. Qed.

Lemma octet_range n k : 0 <= Z.land (Z.shiftr n k) 255 < 256.
Proof. apply (land_bound _ 8). lia. Qed.

Lemma octet_no_char d n k :
  negb (digit_char d) = true ->
  str_forall (fun c => negb (Ascii.eqb c d)) (str_of_Z (Z.land (Z.shiftr n k) 255)) = true.
Proof.
  intros Hd. eapply str_forall_impl; [intros c; apply (digit_not _ _ Hd)|].
  apply octet_digits, octet_range.
Qed.

Lemma ipv4_octets n :
  0 <= n < 2 ^ 32 ->
  let o k := Z.land (Z.shiftr n k) 255 in
  ((o 24 * 256 + o 16) * 256 + o 8) * 256 + o 0 = n.
Proof.
  intros H o. subst o. simpl. bits_to_div.
  Z.to_euclidean_division_equations. lia.
Qed.

Lemma ipv4_str_parse n : 0 <= n < 2 ^ 32 -> ipv4_of_string (ipv4_str n) = Some n.
Proof.
  intros H. unfold ipv4_of_string, ipv4_str.
  rewrite (split_join "."%char).
  - simpl map. rewrite !parse_octet_str by apply octet_range. simpl.
    f_equal. by apply ipv4_octets.
  - done.
  - repeat constructor; by apply octet_no_char.
Qed.

(** *** IPv6 *)

Lemma hex16_spec h :
  0 <= h < 65536 ->
  (h = 0 /\ hex16 h = "0") \/
  (String.eqb (hex16 h) "0" = false /\ String.eqb (hex16 h) "" = false
   /\ parse_hextet (hex16 h) = Some h).
Proof.
  intros H. destruct (decide (h = 0)) as [->|Hne]; [by left|right].
  pose proof (hextet_ok_all h H) as Hok. unfold hextet_ok in Hok. split_bool.
  repeat match goal with
  | H : bool_decide _ = true |- _ => apply bool_decide_eq_true in H
  | H : Bool.eqb _ _ = true |- _ => apply eqb_prop in H
  end.
  repeat split; [|done|done].
  destruct (String.eqb (hex16 h) "0") eqn:E; [|done].
  match goal with H : true = _ |- _ => symmetry in H; apply Z.eqb_eq in H end. done.
Qed.

Lemma hex16_no_char d h :
  hex_char_ok d = false -> 0 <= h < 65536 ->
  str_forall (fun c => negb (Ascii.eqb c d)) (hex16 h) = true.
Proof.
  intros Hd H. pose proof (hextet_ok_all h H) as Hok. unfold hextet_ok in Hok. split_bool.
  eapply str_forall_impl; [|eassumption]. intros c Hc.
  destruct (Ascii.eqb_spec c d) as [->|]; [congruence | done].
Qed.

(** The scan and the position search only look at which parts are ["0"], or empty. *)
Definition scan_bits (bits : list bool) : nat * nat :=
  let '(bs, bl, _, _, _) :=
    fold_left (fun '(bs, bl, cs, cl, i) (b : bool) =>
      if b
      then let cs := if (cl =? 0)%nat then i else cs in
           let cl := S cl in
           if (bl <? cl)%nat then (cs, cl, cs, cl, S i) else (bs, bl, cs, cl, S i)
      else (bs, bl, 0%nat, 0%nat, S i)) bits (0%nat, 0%nat, 0%nat, 0%nat, 0%nat)
  in (bs, bl).

Lemma scan_zeros_bits l : scan_zeros l = scan_bits (map (fun h => String.eqb h "0") l).
Proof.
  unfold scan_zeros, scan_bits. generalize (0%nat, 0%nat, 0%nat, 0%nat, 0%nat).
  induction l as [|h l IH]; intros [[[[bs bl] cs] cl] i]; simpl; [done|].
  destruct (String.eqb h "0"); [destruct (bl <? S cl)%nat|]; apply IH.
Qed.

Definition empties (parts : list string) : list bool := map (fun p => String.eqb p "") parts.

Lemma inner_empty_bits parts :
  inner_empty parts = List.filter (fun i => nth i (empties parts) true) (seq 1 (length parts - 2)).
Proof.
  unfold inner_empty, empties. apply filter_ext. intros i.
  by rewrite <- (map_nth (fun p => String.eqb p "")).
Qed.

Lemma first_empty_bits i parts :
  String.eqb (nth i parts "") "" = nth i (empties parts) true.
Proof. unfold empties. by rewrite <- (map_nth (fun p => String.eqb p "")). Qed.

Lemma compress_parse h0 h1 h2 h3 h4 h5 h6 h7 :
  let hs := [h0; h1; h2; h3; h4; h5; h6; h7] in
  Forall (fun h => 0 <= h < 65536) hs ->
  ipv6_hextets (compress_hextets (map hex16 hs)) = Some hs
  /\ (3 <= length (compress_hextets (map hex16 hs)))%nat.
Proof.
  intros hs H. subst hs.
  repeat match goal with H : Forall _ (_ :: _) |- _ => apply Forall_cons in H as [? ?] end.
  unfold compress_hextets. rewrite scan_zeros_bits. cbn [map].
  repeat match goal with
  | H : 0 <= ?h < 65536 |- _ =>
      destruct (hex16_spec h H) as [[-> ->] | (? & ? & ?)]; clear H
  end.
  all: repeat match goal with
       | H : String.eqb (hex16 ?h) "0" = false |- _ => rewrite H; clear H
       | H : parse_hextet (hex16 ?h) = _ |- _ => generalize dependent (hex16 h); intros
       end.
  all: match goal with |- context [scan_bits ?l] =>
         let r := eval vm_compute in (scan_bits l) in
         change (scan_bits l) with r end.
  all: cbn [take drop app length Nat.add Nat.eqb Nat.ltb Nat.leb].
  all: split; [|by repeat constructor].
  all: unfold ipv6_hextets; rewrite inner_empty_bits, !first_empty_bits; unfold empties.
  all: cbn [map].
  all: repeat match goal with
       | H : String.eqb ?w "" = false |- _ => rewrite H; clear H
       end.
  all: match goal with |- context [List.filter ?f ?l] =>
         let r := eval vm_compute in (List.filter f l) in
         change (List.filter f l) with r end.
  all: cbn.
  all: repeat match goal with
       | H : parse_hextet ?w = Some _ |- _ => rewrite H; clear H
       end.
  all: reflexivity.
Qed.

Lemma compress_Forall (P : string -> Prop) l :
  P "" -> Forall P l -> Forall P (compress_hextets l).
Proof.
  intros H0 Hl. unfold compress_hextets. destruct (scan_zeros l) as [start len].
  destruct (1 <? len)%nat; [|done].
  repeat apply Forall_app_2; repeat case_match; repeat constructor; auto using Forall_take, Forall_drop.
Qed.

Lemma hextets_of_range n : Forall (fun h => 0 <= h < 65536) (hextets_of n).
Proof. unfold hextets_of. cbn [map]. repeat constructor; apply (land_bound _ 16); lia. Qed.

Lemma hextets_of_val n : 0 <= n < 2 ^ 128 -> hextets_val (hextets_of n) = n.
Proof.
  intros H. unfold hextets_val, hextets_of. cbn [map fold_left]. bits_to_div.
  Z.to_euclidean_division_equations. lia.
Qed.

Lemma str_exists_app p s t : str_exists p (s +:+ t) = str_exists p s || str_exists p t.
Proof. induction s as [|c s IH]; [done|]. simpl. rewrite <- orb_assoc. by rewrite <- IH. Qed.

Lemma str_forall_app p s t : str_forall p (s +:+ t) = str_forall p s && str_forall p t.
Proof. induction s as [|c s IH]; [done|]. simpl. rewrite <- andb_assoc. by rewrite <- IH. Qed.

Lemma str_forall_exists p s : str_forall (fun c => negb (p c)) s = negb (str_exists p s).
Proof. induction s as [|c s IH]; [done|]. simpl. by rewrite IH, negb_orb. Qed.

Lemma str_forall_join p sep ws :
  str_forall p sep = true -> Forall (fun w => str_forall p w = true) ws ->
  str_forall p (join sep ws) = true.
Proof.
  intros Hs H. induction H as [|w ws Hw Hws IH]; [done|].
  destruct ws as [|w' ws]; [done|].
  change (join sep (w :: w' :: ws)) with (w +:+ (sep +:+ join sep (w' :: ws))).
  by rewrite !str_forall_app, Hw, Hs, IH.
Qed.

Lemma split_words p c s :
  Forall (fun w => str_forall p w = true) (split c s) ->
  str_forall (fun a => p a || Ascii.eqb a c) s = true.
Proof.
  induction s as [|a s IH]; [done|]. simpl. destruct (Ascii.eqb a c) eqn:E.
  - intros H. apply Forall_cons in H as [_ H]. by rewrite orb_true_r, IH.
  - destruct (split c s) as [|w ws] eqn:Es; [by destruct (split_nonempty c s)|].
    intros H. apply Forall_cons in H as [Hw H]. simpl in Hw. apply andb_true_iff in Hw as [-> Hw].
    simpl. apply IH. by constructor.
Qed.

Lemma all_some_Forall {A B} (f : A -> option B) l ys :
  all_some (map f l) = Some ys -> Forall (fun x => exists y, f x = Some y) l.
Proof.
  revert ys; induction l as [|x l IH]; intros ys; simpl; [constructor|].
  destruct (f x) as [y|] eqn:E; simpl; [|done].
  destruct (all_some (map f l)) as [ys'|]; simpl; [|done].
  intros _. constructor; [by exists y | by eapply IH].
Qed.

Lemma parse_octet_digits s n : parse_octet s = Some n -> str_forall digit_char s = true.
Proof.
  unfold parse_octet, match_digits. destruct (negb _) eqn:E; [done|]. intros _.
  split_bool. repeat match goal with H : (_ && _) = true |- _ => apply andb_true_iff in H as [? ?] end.
  done.
Qed.

Lemma ipv4_chars s n :
  ipv4_of_string s = Some n -> str_forall (fun c => digit_char c || Ascii.eqb c ".") s = true.
Proof.
  unfold ipv4_of_string. destruct (all_some _) as [ys|] eqn:E; [|done]. intros _.
  apply split_words. eapply Forall_impl; [exact (all_some_Forall _ _ _ E)|].
  intros w [y Hy]. by eapply parse_octet_digits.
Qed.

Lemma ipv4_no_colon s : str_exists (fun c => Ascii.eqb c ":") s = true -> ipv4_of_string s = None.
Proof.
  intros H. destruct (ipv4_of_string s) as [n|] eqn:E; [|done].
  apply ipv4_chars in E.
  apply (str_forall_impl _ (fun c => negb (Ascii.eqb c ":"))) in E.
  - rewrite (str_forall_exists (fun c => Ascii.eqb c ":")), H in E. done.
  - intros c Hc. destruct (Ascii.eqb_spec c ":") as [->|]; [done|done].
Qed.

(** The text of an IPv6 integer: no scope or mask separator, and it reads back. *)
Lemma hex_forall d n :
  hex_char_ok d = false ->
  Forall (fun w => str_forall (fun c => negb (Ascii.eqb c d)) w = true)
    (compress_hextets (map hex16 (hextets_of n))).
Proof.
  intros Hd. apply compress_Forall; [done|]. apply Forall_map.
  eapply Forall_impl; [apply hextets_of_range|]. intros h. by apply hex16_no_char.
Qed.

Lemma compress_hextets_of n :
  ipv6_hextets (compress_hextets (map hex16 (hextets_of n))) = Some (hextets_of n)
  /\ (3 <= length (compress_hextets (map hex16 (hextets_of n))))%nat.
Proof. apply compress_parse, hextets_of_range. Qed.

Lemma expand_no_dot parts :
  parts <> [] -> Forall (fun w => str_forall (fun c => negb (Ascii.eqb c ".")) w = true) parts ->
  expand_v4_suffix parts = Some parts.
Proof.
  intros Hne H. unfold expand_v4_suffix.
  destruct (last parts) as [p|] eqn:E; [|by apply last_None in E].
  apply last_Some in E as [l ->]. apply Forall_app in H as [_ H].
  apply Forall_cons in H as [H _].
  replace (str_exists (Ascii.eqb ".") p) with false; [done|].
  symmetry. apply negb_true_iff. rewrite <- str_forall_exists.
  eapply str_forall_impl; [|exact H]. intros c. by rewrite Ascii.eqb_sym.
Qed.

Lemma mapped_parts hi lo :
  0 <= hi < 65536 -> 0 <= lo < 65536 ->
  ipv6_hextets [""; ""; "ffff"; hex16 hi; hex16 lo] = Some [0; 0; 0; 0; 0; 65535; hi; lo].
Proof.
  intros Hhi Hlo. unfold ipv6_hextets. rewrite inner_empty_bits, !first_empty_bits.
  unfold empties. cbn [map].
  destruct (hex16_spec hi Hhi) as [[-> ->] | (? & -> & ?)];
  destruct (hex16_spec lo Hlo) as [[-> ->] | (? & -> & ?)]; cbn;
  repeat match goal with H : parse_hextet _ = _ |- _ => rewrite H; clear H end; done.
Qed.

Lemma ipv4_str_no_char d n :
  digit_char d = false -> Ascii.eqb "." d = false ->
  str_forall (fun c => negb (Ascii.eqb c d)) (ipv4_str n) = true.
Proof.
  intros Hd Hdot. apply str_forall_join.
  - cbn [str_forall]. by rewrite Hdot.
  - cbn [map]. repeat constructor; apply octet_no_char; by rewrite Hd.
Qed.

Lemma ipv6_mapped_parse v :
  0 <= v < 2 ^ 32 -> ipv6_int_of_string ("::ffff:" +:+ ipv4_str v) = Some (65535 * 2 ^ 32 + v).
Proof.
  intros Hv. unfold ipv6_int_of_string.
  assert (split ":" ("::ffff:" +:+ ipv4_str v) = [""; ""; "ffff"; ipv4_str v]) as ->.
  { change ("::ffff:" +:+ ipv4_str v)
      with ("" +:+ String ":" ("" +:+ String ":" ("ffff" +:+ String ":" (ipv4_str v)))).
    rewrite !split_app, split_no_char by (done || by apply ipv4_str_no_char). done. }
  unfold expand_v4_suffix. cbn [last length Nat.ltb Nat.leb].
  assert (str_exists (Ascii.eqb ".") (ipv4_str v) = true) as ->.
  { unfold ipv4_str. cbn [map]. cbn [join].
    rewrite !str_exists_app. cbn. by rewrite !orb_true_r. }
  rewrite ipv4_str_parse by done. cbn [mbind option_bind take Nat.sub app].
  rewrite mapped_parts by (apply (land_bound _ 16); lia).
  simpl. f_equal. unfold hextets_val. cbn [fold_left]. bits_to_div.
  Z.to_euclidean_division_equations. lia.
Qed.

Lemma ipv6_int_parse n : 0 <= n < 2 ^ 128 -> ipv6_int_of_string (ipv6_int_str n) = Some n.
Proof.
  intros Hn. unfold ipv6_int_str. destruct (Z.shiftr n 32 =? 65535) eqn:E.
  - apply Z.eqb_eq in E. rewrite ipv6_mapped_parse by (apply (land_bound _ 32); lia).
    f_equal. revert E. bits_to_div. intros E. Z.to_euclidean_division_equations. lia.
  - unfold ipv6_int_of_string. destruct (compress_hextets_of n) as [Hp Hl].
    rewrite (split_join ":").
    + replace (length _ <? 3)%nat with false by (symmetry; apply Nat.ltb_ge; lia).
      rewrite expand_no_dot.
      * cbn [mbind option_bind]. rewrite Hp. cbn [mbind option_bind]. f_equal.
        by apply hextets_of_val.
      * intros Hnil. by rewrite Hnil in Hl; simpl in Hl; lia.
      * by apply hex_forall.
    + intros Hnil. rewrite Hnil in Hl. simpl in Hl. lia.
    + by apply hex_forall.
Qed.

Lemma ipv6_int_str_no_char d n :
  hex_char_ok d = false -> Ascii.eqb "." d = false -> Ascii.eqb ":" d = false ->
  str_forall (fun c => negb (Ascii.eqb c d)) (ipv6_int_str n) = true.
Proof.
  intros Hd Hdot Hcol. unfold ipv6_int_str. destruct (_ =? _).
  - rewrite str_forall_app, ipv4_str_no_char; [|unfold hex_char_ok in Hd|done].
    + rewrite andb_true_r. cbn [str_forall]. rewrite Hcol.
      destruct (Ascii.eqb_spec "f" d) as [<-|]; done.
    + unfold digit_char. destruct (hex_digit_val d) eqn:E; [done|].
      unfold hex_digit_val in E. by destruct ((48 <=? ord d) && _).
  - apply str_forall_join; [cbn [str_forall]; by rewrite Hcol | by apply hex_forall].
Qed.

Lemma ipv6_int_str_colon n : str_exists (fun c => Ascii.eqb c ":") (ipv6_int_str n) = true.
Proof.
  unfold ipv6_int_str. destruct (_ =? _); [done|].
  destruct (compress_hextets_of n) as [_ Hl].
  destruct (compress_hextets _) as [|w [|w' ws]]; [simpl in Hl; lia..|].
  change (join ":" (w :: w' :: ws)) with (w +:+ (":" +:+ join ":" (w' :: ws))).
  rewrite !str_exists_app. simpl. by rewrite orb_true_r.
Qed.

Lemma ip_str_no_slash a :
  ip_wf a -> str_forall (fun c => negb (Ascii.eqb c "/")) (ip_str a) = true.
Proof.
  destruct a as [n|n [sc|]]; cbn [ip_wf ip_str]; intros H.
  - by apply ipv4_str_no_char.
  - destruct H as [_ H]. unfold scope_wf in H. split_bool.
    rewrite !str_forall_app, ipv6_int_str_no_char by done. done.
  - by apply ipv6_int_str_no_char.
Qed.

Lemma no_slash_exists s :
  str_forall (fun c => negb (Ascii.eqb c "/")) s = true -> str_exists (Ascii.eqb "/") s = false.
Proof.
  intros H. apply negb_true_iff. rewrite <- str_forall_exists.
  eapply str_forall_impl; [|exact H]. intros c. by rewrite Ascii.eqb_sym.
Qed.

(** [ip_address(str(a)) == a]. *)
Lemma ip_address_str a : ip_wf a -> ip_address (ip_str a) = Some a.
Proof.
  intros H. unfold ip_address. destruct a as [n|n sc]; cbn [ip_str].
  - by rewrite ipv4_str_parse.
  - pose proof (no_slash_exists _ (ip_str_no_slash _ H)) as Hs.
    destruct H as [Hn Hsc]. rewrite ipv4_no_colon.
    2: { destruct sc; rewrite ?str_exists_app, ipv6_int_str_colon; done. }
    unfold ipv6_of_string. cbn [ip_str] in Hs. rewrite Hs. clear Hs.
    assert (str_forall (fun c => negb (Ascii.eqb c "%")) (ipv6_int_str n) = true) as Hp
      by by apply ipv6_int_str_no_char.
    unfold split_scope. destruct sc as [sc|].
    + change (ipv6_int_str n +:+ "%" +:+ sc) with (ipv6_int_str n +:+ String "%" sc).
      unfold scope_wf in Hsc. split_bool.
      rewrite split_app, split_no_char by done.
      destruct (String.eqb sc ""); [done|]. cbn. by rewrite ipv6_int_parse.
    + rewrite split_no_char by done. cbn. by rewrite ipv6_int_parse.
Qed.

(** *** Parsed addresses are well formed *)

Lemma split_no_sep c s :
  Forall (fun w => str_forall (fun a => negb (Ascii.eqb a c)) w = true) (split c s).
Proof.
  induction s as [|a s IH]; [by constructor|]. simpl.
  destruct (Ascii.eqb a c) eqn:E; [by constructor|].
  destruct (split c s) as [|w ws]; [by constructor; simpl; rewrite ?E|].
  apply Forall_cons in IH as [Hw Hws]. constructor; [|done]. simpl. by rewrite E.
Qed.

Lemma split_forall p c s :
  str_forall p s = true -> Forall (fun w => str_forall p w = true) (split c s).
Proof.
  induction s as [|a s IH]; [by constructor|]. simpl. rewrite andb_true_iff. intros [Ha Hs].
  specialize (IH Hs). destruct (Ascii.eqb a c); [by constructor|].
  destruct (split c s) as [|w ws]; [constructor; simpl; by rewrite ?Ha|].
  apply Forall_cons in IH as [Hw Hws]. constructor; [|done]. simpl. by rewrite Ha.
Qed.

Lemma all_some_results {A B} (P : B -> Prop) (f : A -> option B) l ys :
  (forall x y, f x = Some y -> P y) -> all_some (map f l) = Some ys ->
  Forall P ys /\ length ys = length l.
Proof.
  intros Hf. revert ys; induction l as [|x l IH]; intros ys; simpl.
  - intros [= <-]. by split.
  - destruct (f x) as [y|] eqn:E; simpl; [|done].
    destruct (all_some (map f l)) as [ys'|]; simpl; [|done].
    intros [= <-]. destruct (IH ys' eq_refl) as [? ?]. split; [constructor; eauto | simpl; lia].
Qed.

Lemma digits_val_nonneg s : str_forall digit_char s = true -> 0 <= digits_val s.
Proof.
  unfold digits_val. assert (H : 0 <= 0) by lia. revert H. generalize 0 at 2 4.
  induction s as [|c s IH]; intros acc Hacc; simpl; [done|].
  rewrite andb_true_iff. intros [Hc Hs]. apply IH; [|done].
  unfold digit_char in Hc. split_bool. zify_bool. lia.
Qed.

Lemma parse_octet_range s n : parse_octet s = Some n -> 0 <= n < 256.
Proof.
  intros H. pose proof (digits_val_nonneg s (parse_octet_digits _ _ H)) as Hd. revert H.
  unfold parse_octet. destruct (negb _); [done|]. destruct (_ && _); [done|].
  destruct (_ <=? _) eqn:E; [|done]. zify_bool. intros [= <-]. lia.
Qed.

Lemma ipv4_of_string_range s n : ipv4_of_string s = Some n -> 0 <= n < 2 ^ 32.
Proof.
  unfold ipv4_of_string. destruct (all_some _) as [ys|] eqn:E; [|done].
  destruct (all_some_results (fun n => 0 <= n < 256) _ _ _ parse_octet_range E) as [H _].
  destruct ys as [|a [|b [|c [|d [|]]]]]; try done. intros [= <-].
  repeat match goal with H : Forall _ (_ :: _) |- _ => apply Forall_cons in H as [? ?] end. lia.
Qed.

Lemma hex_digit_range c d : hex_digit_val c = Some d -> 0 <= d < 16.
Proof.
  unfold hex_digit_val. repeat case_match; intros [= <-]; split_bool;
    repeat match goal with H : (_ && _) = true |- _ => apply andb_true_iff in H as [? ?] end;
    zify_bool; lia.
Qed.

Lemma parse_hextet_range s n : parse_hextet s = Some n -> 0 <= n < 65536.
Proof.
  unfold parse_hextet. destruct (String.eqb s "") eqn:E; [done|]. simpl.
  destruct (4 <? str_len s) eqn:El; [done|]. zify_bool. unfold str_len in El.
  assert (forall s acc, (fix go (acc : Z) (s : string) : option Z :=
            match s with
            | "" => Some acc
            | String c s => d ← hex_digit_val c; go (acc * 16 + d) s
            end) acc s = Some n -> 0 <= acc ->
          0 <= n < (acc + 1) * 16 ^ Z.of_nat (String.length s)) as Hgo.
  { clear. induction s as [|c s IH]; intros acc H Hacc.
    - injection H as ->. simpl. lia.
    - destruct (hex_digit_val c) as [d|] eqn:Ed; [|done]. cbn [mbind option_bind] in H.
      apply hex_digit_range in Ed. apply IH in H; [|lia].
      cbn [String.length]. rewrite Nat2Z.inj_succ, Z.pow_succ_r by lia. nia. }
  intros H. apply Hgo in H; [|lia].
  pose proof (Z.pow_le_mono_r 16 (Z.of_nat (String.length s)) 4). lia.
Qed.

Lemma hextets_val_range hs :
  Forall (fun h => 0 <= h < 65536) hs -> 0 <= hextets_val hs < 65536 ^ Z.of_nat (length hs).
Proof.
  unfold hextets_val. intros H.
  assert (forall acc k, 0 <= acc < 65536 ^ Z.of_nat k ->
    0 <= fold_left (fun acc h => acc * 65536 + h) hs acc < 65536 ^ Z.of_nat (k + length hs)) as Hg.
  { induction H as [|h hs Hh Hhs IH]; intros acc k Hacc; simpl.
    - by rewrite Nat.add_0_r.
    - rewrite <- Nat.add_succ_comm. apply IH.
      rewrite Nat2Z.inj_succ, Z.pow_succ_r by lia. lia. }
  apply (Hg 0 0%nat). simpl. lia.
Qed.

Lemma ipv6_hextets_wf parts hs :
  ipv6_hextets parts = Some hs -> Forall (fun h => 0 <= h < 65536) hs /\ length hs = 8%nat.
Proof.
  unfold ipv6_hextets. set (n := length parts).
  destruct (9 <? n)%nat; [done|].
  destruct (inner_empty parts) as [|skip [|]] eqn:Ei; [| |done].
  - destruct (negb (n =? 8)%nat) eqn:En; [done|]. simpl.
    destruct (_ || _); [done|]. intros H.
    destruct (all_some_results _ _ _ _ parse_hextet_range H) as [? Hlen].
    apply negb_false_iff, Nat.eqb_eq in En. split; [done | lia].
  - assert (Hskip : (1 <= skip < n - 1)%nat).
    { assert (In skip (inner_empty parts)) as Hin by (rewrite Ei; by left).
      apply filter_In in Hin as [Hin _]. apply in_seq in Hin. unfold n. lia. }
    set (hi := if String.eqb _ _ then _ else _). set (lo := if String.eqb _ _ then _ else _).
    assert (hi <= skip)%nat by (unfold hi; case_match; lia).
    assert (lo <= n - skip - 1)%nat by (unfold lo; case_match; lia).
    clearbody hi lo. destruct (_ && _); [done|]. destruct (_ && _); [done|].
    destruct (8 <? hi + lo + 1)%nat eqn:E8; [done|]. apply Nat.ltb_ge in E8.
    destruct (all_some (map parse_hextet (take hi parts))) as [a|] eqn:Ea; [|done]. simpl.
    destruct (all_some (map parse_hextet (drop (n - lo) parts))) as [b|] eqn:Eb; [|done].
    intros [= <-].
    destruct (all_some_results _ _ _ _ parse_hextet_range Ea) as [Ha Hla].
    destruct (all_some_results _ _ _ _ parse_hextet_range Eb) as [Hb Hlb].
    rewrite length_take in Hla. rewrite length_drop in Hlb. fold n in Hla, Hlb. split.
    + repeat apply Forall_app_2; [done| |done]. apply Forall_forall. intros x Hx.
      apply list_elem_of_In, repeat_spec in Hx. lia.
    + rewrite !length_app, repeat_length. lia.
Qed.

Lemma ipv6_of_string_wf s a : ipv6_of_string s = Some a -> ip_wf a.
Proof.
  unfold ipv6_of_string. destruct (str_exists (Ascii.eqb "/") s) eqn:Es; [done|].
  destruct (split_scope s) as [[w sc]|] eqn:Esc; [|done]. simpl.
  destruct (ipv6_int_of_string w) as [n|] eqn:En; [|done]. simpl. intros [= <-]. split.
  - unfold ipv6_int_of_string in En. destruct (_ <? _)%nat; [done|].
    destruct (expand_v4_suffix _) as [ps|]; [|done]. simpl in En.
    destruct (ipv6_hextets ps) as [hs|] eqn:Eh; [|done]. simpl in En. injection En as <-.
    destruct (ipv6_hextets_wf _ _ Eh) as [Hr Hl].
    pose proof (hextets_val_range hs Hr) as Hv. by rewrite Hl in Hv.
  - unfold split_scope in Esc. pose proof (split_no_sep "%" s) as Hsep.
    pose proof (split_forall (fun c => negb (Ascii.eqb c "/")) "%" s) as Hsl.
    destruct (split "%" s) as [|u [|v [|]]]; try done.
    + by injection Esc as <- <-.
    + destruct (String.eqb v "") eqn:Ev; [done|]. injection Esc as <- <-.
      unfold scope_wf. rewrite Ev. simpl.
      apply Forall_cons in Hsep as [_ Hsep]. apply Forall_cons in Hsep as [-> _].
      assert (str_forall (fun c => negb (Ascii.eqb c "/")) s = true) as Hs.
      { rewrite (str_forall_exists (fun c => Ascii.eqb c "/")). apply negb_true_iff.
        etransitivity; [|exact Es]. clear. induction s as [|c s IH]; [done|].
        cbn [str_exists]. by rewrite IH, Ascii.eqb_sym. }
      apply Hsl in Hs. apply Forall_cons in Hs as [_ Hs]. by apply Forall_cons in Hs as [-> _].
Qed.

Lemma ip_address_wf s a : ip_address s = Some a -> ip_wf a.
Proof.
  unfold ip_address. destruct (ipv4_of_string s) as [n|] eqn:E.
  - intros [= <-]. by eapply ipv4_of_string_range.
  - apply ipv6_of_string_wf.
Qed.

(** *** Networks *)

Definition net_wf (net : ip_net) : Prop :=
  let a := net_addr net in
  ip_wf a /\ 0 <= net_plen net <= max_plen a
  /\ Z.land (ip_int a) (netmask (max_plen a) (net_plen net)) = ip_int a.

Definition plen_ok (z : Z) : bool :=
  bool_decide (prefix_of_digits 128 (str_of_Z z) = Some z)
  && ((32 <? z) || bool_decide (prefix_of_digits 32 (str_of_Z z) = Some z))
  && str_forall digit_char (str_of_Z z).

Lemma plen_ok_all z : 0 <= z <= 128 -> plen_ok z = true.
Proof. intros H. apply (all_below_spec 129); [by vm_compute | lia]. Qed.

Lemma land_masked n m : Z.land (Z.land n m) m = Z.land n m.
Proof. by rewrite <- Z.land_assoc, Z.land_diag. Qed.

Lemma land_range n m k : 0 <= k -> 0 <= n < 2 ^ k -> 0 <= Z.land n m < 2 ^ k.
Proof.
  intros Hk Hn.
  assert (Z.land n m = Z.land n m mod 2 ^ k) as ->; [|apply Z.mod_pos_bound; lia].
  rewrite <- !Z.land_ones by done. rewrite <- Z.land_assoc, (Z.land_comm m), Z.land_assoc.
  rewrite Z.land_ones by done. by rewrite Z.mod_small.
Qed.

Lemma net_parse_wf s net : ip_network s = Some net -> net_wf net.
Proof.
  assert (Hdig : forall max m p, prefix_of_digits max m = Some p -> 0 <= p <= max).
  { intros max m p. unfold prefix_of_digits. destruct (_ && _) eqn:E; [|done].
    apply andb_true_iff in E as [_ E]. apply digits_val_nonneg in E.
    destruct (_ <=? _) eqn:El; [|done]. zify_bool. intros [= <-]. lia. }
  assert (Hmask : forall m p, prefix_of_mask m = Some p -> 0 <= p <= 32).
  { intros m p. unfold prefix_of_mask. destruct (ipv4_of_string m) as [n|]; [|done].
    cbn [mbind option_bind].
    assert (forall x, List.find (fun p => netmask 32 p =? x) (map Z.of_nat (seq 0 33)) = Some p ->
                      0 <= p <= 32) as Hf.
    { intros x Hx. apply find_some in Hx as [Hin _]. apply in_map_iff in Hin as (i & <- & Hin).
      apply in_seq in Hin. lia. }
    match goal with |- match ?x with _ => _ end = _ -> _ => destruct x eqn:E1 end.
    - intros [= ->]. exact (Hf _ E1).
    - intros H. exact (Hf _ H). }
  assert (H4 : forall addr mask, ipv4_network addr mask = Some net -> net_wf net).
  { intros addr mask. unfold ipv4_network. destruct (ipv4_of_string addr) as [n|] eqn:En; [|done].
    cbn [mbind option_bind]. destruct (match mask with None => _ | _ => _ end) as [p|] eqn:Ep; [|done].
    intros [= <-].
    assert (0 <= p <= 32) as Hp.
    { destruct mask as [m|]; [|injection Ep; lia].
      destruct (prefix_of_digits 32 m) eqn:Ed; [injection Ep as <-; exact (Hdig _ _ _ Ed) | exact (Hmask _ _ Ep)]. }
    split; [|split]; cbn [ip_wf net_addr net_plen ip_int max_plen]; [|done|apply land_masked].
    apply (land_range n _ 32); [lia | by eapply ipv4_of_string_range]. }
  assert (H6 : forall addr mask, ipv6_network addr mask = Some net -> net_wf net).
  { intros addr mask. unfold ipv6_network. destruct (ipv6_of_string addr) as [a|] eqn:En; [|done].
    cbn [mbind option_bind]. destruct (match mask with None => _ | _ => _ end) as [p|] eqn:Ep; [|done].
    intros [= <-]. pose proof (ipv6_of_string_wf _ _ En) as Hwf.
    assert (exists n sc, a = IPv6 n sc) as (n & sc & ->).
    { unfold ipv6_of_string in En. destruct (str_exists _ _); [done|].
      destruct (split_scope addr) as [[??]|]; [|done]. cbn in En.
      destruct (ipv6_int_of_string _); [|done]. injection En as <-. eauto. }
    assert (0 <= p <= 128) as Hp.
    { destruct mask as [m|]; [exact (Hdig _ _ _ Ep) | injection Ep; lia]. }
    cbn [ip_int]. destruct (_ =? _) eqn:Em.
    - apply Z.eqb_eq in Em. by split; [|split].
    - split; [|split]; cbn [ip_wf net_addr net_plen ip_int max_plen]; [|done|apply land_masked].
      destruct Hwf as [? _]. split; [|done]. by apply (land_range n _ 128). }
  unfold ip_network. destruct (split "/" s) as [|addr [|mask [|]]]; try done.
  - destruct (ipv4_network addr None) eqn:E; [intros [= <-]|]; eauto.
  - destruct (ipv4_network addr (Some mask)) eqn:E; [intros [= <-]|]; eauto.
Qed.

(** [ip_network(str(net)) == net]. *)
Lemma ip_network_str net : net_wf net -> ip_network (net_str net) = Some net.
Proof.
  destruct net as [a p]. intros (Ha & Hp & Hm). cbn [net_addr net_plen] in *.
  assert (0 <= p <= 128) as Hp'. { destruct a; simpl in Hp; lia. }
  pose proof (plen_ok_all p Hp') as Hok. unfold plen_ok in Hok. split_bool.
  repeat match goal with H : (_ && _) = true |- _ => apply andb_true_iff in H as [? ?] end.
  match goal with H : bool_decide _ = true |- _ => apply bool_decide_eq_true in H end.
  unfold ip_network, net_str. cbn [net_addr net_plen].
  change (ip_str a +:+ "/" +:+ str_of_Z p) with (ip_str a +:+ String "/" (str_of_Z p)).
  rewrite split_app, split_no_char; [| |by apply ip_str_no_slash].
  2: { eapply str_forall_impl; [|eassumption]. intros c. by apply digit_not. }
  destruct a as [n|n sc]; cbn [ip_int max_plen ip_str] in *.
  - unfold ipv4_network. rewrite ipv4_str_parse by done. cbn [mbind option_bind].
    match goal with H : (_ || _) = true |- _ => apply orb_true_iff in H as [H|H] end;
      [zify_bool; lia|].
    match goal with H : bool_decide _ = true |- _ => apply bool_decide_eq_true in H as -> end.
    cbn [mbind option_bind]. by rewrite Hm.
  - unfold ipv4_network. rewrite ipv4_no_colon.
    2: { destruct sc; rewrite ?str_exists_app, ipv6_int_str_colon; done. }
    cbn [mbind option_bind]. unfold ipv6_network.
    pose proof (ip_address_str _ Ha) as Hparse. unfold ip_address in Hparse.
    rewrite ipv4_no_colon in Hparse.
    2: { cbn [ip_str]. destruct sc; rewrite ?str_exists_app, ipv6_int_str_colon; done. }
    cbn [ip_str] in Hparse. rewrite Hparse. cbn [mbind option_bind ip_int].
    match goal with H : prefix_of_digits 128 _ = _ |- _ => rewrite H end.
    cbn [mbind option_bind]. by rewrite Hm, Z.eqb_refl.
Qed.
