(* ===== verification/NetworkRules.v ===== *)
(** * Canonical network rules ([network_rules.py])

    Normalisation of rule requests, the lifecycle and the matching of rules,
    and the validation and migration of stored policies. Rules and policies are
    JSON dictionaries, as in the source. *)
From S2P Require Import Prelude PyVal PyStr IpAddr.

Definition MAX_RULES : Z := 1024.
Definition MAX_BYTES : Z := 1024 * 1024.
Definition SCHEMA : string := "greyward.network.rules/v2".

(** What the code takes from the interpreter's C extensions and Unicode
    tables: IDNA of a name with non-ASCII characters ([None] is
    [UnicodeError]), SHA-256 as a hexadecimal text, and [json.dumps(v,
    sort_keys=True)]. *)
Class Host := {
  host_idna : string -> option string;
  host_sha256 : string -> string;
  host_json_sorted : val -> string;
}.

(** The ambient readings: [time.time()], [boot_id()] and the first twenty hex
    digits of [uuid.uuid4()]. *)
Record env := Env { now : val; boot : val; fresh : string }.

Section rules.
Context `{Host}.

(** ** Text *)

Definition text (value : val) (maximum : Z) : res string :=
  match value with
  | VStr s =>
      if (maximum <? str_len s) || negb (isprintable s)
      then Err (PolicyError "Text contains unsupported characters or exceeds its limit.")
      else Ok (strip s)
  | _ => Err (PolicyError "Text contains unsupported characters or exceeds its limit.")
  end.

Definition rule_id (rule : dict) : val :=
  py_or (get "id" rule)
        (VStr ("greyward-" +:+ str_take 20 (host_sha256 (host_json_sorted (VDict rule))))).

Definition idna_encode (value : string) : option string :=
  if isascii value then
    if String.eqb value "" then Some ""
    else
      let labels := split "." value in
      if forallb (fun l => (0 <? str_len l) && (str_len l <? 64)) (take (length labels - 1) labels)
         && (str_len (default "" (last labels)) <? 64)
      then Some value else None
  else host_idna value.

Definition alnum_char (c : ascii) : bool :=
  digit_char c || ((97 <=? ord c) && (ord c <=? 122)).

(** [re.fullmatch(r'[a-z0-9](?:[a-z0-9-]{0,61}[a-z0-9])?', p)]. *)
Definition label_ok (p : string) : bool :=
  match p with
  | "" => false
  | String c r =>
      alnum_char c && str_forall (fun c => alnum_char c || Ascii.eqb c "-") r
      && (str_len p <=? 63)
      && match r with "" => true | _ => alnum_char (default c (last (String.list_ascii_of_string r))) end
  end.

Definition host_name (value : val) : res string :=
  s ← text value 253;
  let s := str_lower (rstrip_char "." s) in
  match idna_encode s with
  | None => Err (PolicyError "Invalid hostname.")
  | Some s =>
      if String.eqb s "" || existsb (fun p => negb (label_ok p)) (split "." s)
      then Err (PolicyError "Enter a hostname without a URL, wildcard or path.")
      else Ok s
  end.

(** ** Ports *)

(** [str(p)]. The text of a float, a list or a dictionary always has a part
    that is not a run of digits (a point, an exponent, a bracket), so any such
    text stands for it here. *)
Definition str_of_port (p : val) : string :=
  match p with
  | VNone => "None"
  | VBool true => "True"
  | VBool false => "False"
  | VInt z => str_of_Z z
  | VStr s => s
  | _ => "[...]"
  end.

(** [int(p)] for a part whose text matched the digits pattern. *)
Definition int_of_port (p : val) : Z :=
  match p with VInt z => z | _ => digits_val (strip (str_of_port p)) end.

Definition port_parts (part : val) : list val :=
  match part with
  | VList [a; b] => [a; b]
  | _ => map VStr (split "-" (str_of_port part))
  end.

(** One element of the port list: a port or a range. *)
Definition port_range (part : val) : res (Z * Z) :=
  let parts := port_parts part in
  if negb ((length parts =? 1)%nat || (length parts =? 2)%nat) || existsb is_bool parts
     || existsb (fun p => negb (match_digits 5 (strip (str_of_port p)))) parts
  then Err (PolicyError "Ports must be numbers or ranges, such as 443, 8000-8010.")
  else
    let start := int_of_port (nth 0 parts VNone) in
    let stop := int_of_port (nth (length parts - 1) parts VNone) in
    if (1 <=? start) && (start <=? stop) && (stop <=? 65535) then Ok (start, stop)
    else Err (PolicyError "Ports must be between 1 and 65535, in ascending order.").

Definition range_leb (x y : Z * Z) : bool :=
  (x.1 <? y.1) || ((x.1 =? y.1) && (x.2 <=? y.2)).

(** One step of the merging loop; the merged list is kept reversed, so that
    [merged[-1]] is its head. *)
Definition merge_step (merged : list (Z * Z)) (r : Z * Z) : list (Z * Z) :=
  match merged with
  | (a, b) :: rest =>
      if r.1 <=? b + 1 then (a, Z.max r.2 b) :: rest else r :: merged
  | [] => [r]
  end.

Definition merge_ranges (ranges : list (Z * Z)) : list (Z * Z) :=
  rev (fold_left merge_step (sort_by range_leb ranges) []).

Definition port_list (value : val) : res (list val) :=
  let value := match value with
               | VStr s => VList (map (fun p => VStr (strip p))
                                    (List.filter (fun p => negb (String.eqb (strip p) "")) (split "," s)))
               | v => v
               end in
  match value with
  | VList l => if (32 <? Z.of_nat (length l))
               then Err (PolicyError "Use at most 32 ports or ranges.") else Ok l
  | _ => Err (PolicyError "Use at most 32 ports or ranges.")
  end.

Definition port_ranges (value : val) : res (list (Z * Z)) :=
  parts ← port_list value;
  ranges ← mapM_res port_range parts;
  Ok (merge_ranges ranges).

(** The JSON form of a list of ranges. *)
Definition ranges_val (rs : list (Z * Z)) : val :=
  VList (map (fun r => VList [VInt r.1; VInt r.2]) rs).

(** ** Normalisation *)

Definition fail {A} (m : string) : res A := Err (PolicyError m).

(** [re.fullmatch(r'greyward-[a-f0-9]{20}', s)]. *)
Definition hex_lower_char (c : ascii) : bool := digit_char c || ((97 <=? ord c) && (ord c <=? 102)).

Definition identifier_ok (v : val) : bool :=
  match v with
  | VStr s => startswith "greyward-" s && (str_len s =? 29) && str_forall hex_lower_char (str_drop 9 s)
  | _ => false
  end.

(** [re.fullmatch(r'[a-zA-Z0-9_-]+', s)]. *)
Definition name_char (c : ascii) : bool :=
  alnum_char c || ((65 <=? ord c) && (ord c <=? 90)) || Ascii.eqb c "_" || Ascii.eqb c "-".
Definition name_ok (s : string) : bool := negb (String.eqb s "") && str_forall name_char s.

(** [sorted(set(protocols))] for a list of strings. *)
Definition dedup_strs (l : list string) : list string :=
  fold_right (fun s acc => if existsb (String.eqb s) acc then acc else s :: acc) [] l.
Definition string_leb (s t : string) : bool := negb (t <? s)%string.
Definition sorted_set (l : list string) : list string := sort_by string_leb (dedup_strs l).

Definition str_of (v : val) : string := match v with VStr s => s | _ => "" end.

Definition protocols_ok (v : val) : res (list string) :=
  match v with
  | VList ((_ :: _) as l) =>
      if existsb (fun p => negb (in_strs ["tcp"; "udp"; "any"] p)) l
         || (existsb (is_str "any") l && negb (length l =? 1)%nat)
      then fail "Choose TCP, UDP or both." else Ok (map str_of l)
  | _ => fail "Choose TCP, UDP or both."
  end.

(** [isinstance(uid, int)], not a [bool], and a valid user id. *)
Definition uid_ok (v : val) : res Z :=
  match v with
  | VInt z => if (0 <=? z) && (z <? 2 ^ 32 - 1) then Ok z else fail "Invalid user identity."
  | _ => fail "Invalid user identity."
  end.

Definition timed (lifetime : string) : bool := in_strs ["15m"; "1h"] (VStr lifetime).

Definition number_ok (v : val) : res unit :=
  match v with
  | VInt _ | VFloat _ =>
      finite ← math_isfinite v;
      negative ← (ge ← py_ge v (VInt 0); Ok (negb ge));
      if negb finite || negative then fail "Invalid rule timestamp." else Ok tt
  | _ => fail "Invalid rule timestamp."
  end.

Definition check_stamp (lifetime : string) (result : dict) (stamp : string) : res unit :=
  number ← item stamp result;
  if is_none number && String.eqb stamp "expires_at" && negb (timed lifetime) then Ok tt
  else number_ok number.

Definition expires_at (now : val) (value existing : dict) (lifetime : string) : res val :=
  if timed lifetime then
    if is_str lifetime (get "lifetime" existing) && negb (truthy (getd "renew" (VBool false) value))
    then Ok (get "expires_at" existing)
    else py_add_int now (if String.eqb lifetime "15m" then 900 else 3600)
  else Ok VNone.

Definition boot_of (current_boot : val) (value existing : dict) (lifetime : string) : val :=
  if String.eqb lifetime "boot" then
    if negb (truthy (getd "renew" (VBool false) value))
    then getd "boot_id" current_boot existing else current_boot
  else VNone.

(** The address of one destination, [address] already stripped text. Every
    [ValueError] of this block, [PolicyError] included, becomes the same error. *)
Definition destination_address (kind : val) (address : string) : res string :=
  if in_strs ["host"; "domain"] kind then host_name (VStr address)
  else if is_str "ip" kind then
    match ip_address address with Some a => Ok (ip_str a) | None => Err (ValueError "ip") end
  else if is_str "network" kind then
    match ip_network address with Some n => Ok (net_str n) | None => Err (ValueError "network") end
  else fail "Unsupported destination type.".

Definition add_destination (acc : list val) (destination : val) : res (list val) :=
  match destination with
  | VDict d =>
      let kind := get "kind" d in
      address ← text (get "value" d) 253;
      address ← try_with (destination_address kind address) is_value_error
                  (fun _ => fail "Invalid destination address.");
      let item := VDict (dlit [("kind", kind); ("value", VStr address)]) in
      Ok (if existsb (py_eq item) acc then acc else acc ++ [item])
  | _ => fail "Invalid destination."
  end.

Definition destinations_of (value : dict) : res (list val) :=
  match getd "destinations" (VList []) value with
  | VList l => if 32 <? Z.of_nat (length l) then fail "Use at most 32 destinations."
               else foldM add_destination [] l
  | _ => fail "Use at most 32 destinations."
  end.

(** The condition of a managed-DNS exception. *)
Definition dns_ok (action path : string) (ports : list (Z * Z)) : bool :=
  String.eqb action "allow" && negb (String.eqb path "*")
  && match ports with [] => false | _ => true end
  && forallb (fun r => (r.1 =? r.2) && ((r.1 =? 53) || (r.1 =? 853))) ports.

(** The application branch: lines after the common fields. *)
Definition normalize_application (value : dict) (uid : Z) (action : string)
    (ports : list (Z * Z)) (result : dict) : res dict :=
  path ← text (getd "path" (VStr "") value) 4096;
  _ ← require (negb ((negb (startswith "/" path)
                      && negb (String.eqb path "*" && is_true (get "all_applications" value)))
                     || existsb (String.eqb "..") (split "/" path) || startswith "/app/" path))
        (PolicyError "Use a host executable path; ambiguous Flatpak sandbox paths are unsupported.");
  let scope := getd "scope" (VStr "user") value in
  _ ← require (in_strs ["user"; "system"] scope) (PolicyError "Unsupported user scope.");
  let result := dupdate result
    [("path", VStr path); ("uid", if is_str "system" scope then VNone else VInt uid);
     ("scope", scope); ("destinations", VList [])] in
  let result := if String.eqb path "*" then dset "all_applications" (VBool true) result else result in
  result ← (if truthy (get "required_host" value)
            then h ← host_name (get "required_host" value); Ok (dset "required_host" (VStr h) result)
            else Ok result);
  ds ← destinations_of value;
  let result := dset "destinations" (VList ds) result in
  if truthy (get "dns_exception" value) then
    _ ← require (dns_ok action path ports)
          (PolicyError "A DNS exception requires a specific executable and exact DNS ports.");
    Ok (dset "dns_exception" (VBool true) result)
  else Ok result.

(** Exactly one of a service and custom ports. *)
Definition service_ports_ok (service : string) (ports : list (Z * Z)) : bool :=
  negb (Bool.eqb (negb (String.eqb service "")) (match ports with [] => false | _ => true end)).

(** The incoming branch. *)
Definition normalize_incoming (value : dict) (family : string) (protocols : list string)
    (ports : list (Z * Z)) (result : dict) : res dict :=
  _ ← require (negb (existsb (String.eqb "any") protocols))
        (PolicyError "Incoming custom ports require TCP or UDP.");
  zone ← text (getd "zone" (VStr "") value) 80;
  service ← text (getd "service" (VStr "") value) 80;
  _ ← require (name_ok zone) (PolicyError "Choose an installed firewall zone.");
  _ ← require (String.eqb service "" || name_ok service)
        (PolicyError "Choose an installed firewall service.");
  _ ← require (service_ports_ok service ports)
        (PolicyError "Choose either a service or custom ports.");
  _ ← require (String.eqb service "" || bool_decide (protocols = ["tcp"; "udp"]))
        (PolicyError "Installed services use their own protocols; select custom ports to restrict TCP or UDP.");
  source ← text (getd "source" (VStr "") value) 80;
  '(source, result) ←
    (if String.eqb source "" then Ok (source, result)
     else match ip_network source with
          | None => fail "Invalid source address or subnet."
          | Some n =>
              let source_family := if ip_version (net_addr n) =? 4 then "ipv4" else "ipv6" in
              _ ← require (String.eqb family "any" || String.eqb family source_family)
                    (PolicyError "The source and address family disagree.");
              Ok (net_str n, dset "family" (VStr source_family) result)
          end);
  Ok (dupdate result [("zone", VStr zone); ("service", VStr service); ("source", VStr source);
                      ("scope", VStr "system")]).

(** A field that must be one of the given string literals. *)
Definition choice (l : list string) (v : val) (m : string) : res string :=
  if in_strs l v then Ok (str_of v) else fail m.

Definition identifier_of (value existing : dict) (uuid : string) : val :=
  py_or (py_or (get "id" existing) (get "id" value)) (VStr ("greyward-" +:+ uuid)).

(** [normalize(value, actor_uid, existing=..., current_time=..., current_boot=...)];
    [existing] is the empty dictionary for [None], [uuid] the first twenty hex
    digits of [uuid.uuid4()]. *)
Definition normalize (E : env) (value actor_uid : val) (existing : dict)
    (current_time current_boot : val) (uuid : string) : res dict :=
  match value with
  | VDict value =>
      uid ← uid_ok actor_uid;
      let now := if is_none current_time then now E else current_time in
      let current_boot := if is_none current_boot then boot E else current_boot in
      provider ← choice ["application"; "incoming"] (getd "provider" (VStr "application") value)
                   "Unknown rule provider.";
      action ← choice ["allow"; "deny"] (getd "action" (VStr "deny") value) "Choose Allow or Block.";
      family ← choice ["any"; "ipv4"; "ipv6"] (getd "family" (VStr "any") value)
                 "Unsupported address family.";
      protocols ← protocols_ok (getd "protocols" (VList [VStr "tcp"; VStr "udp"]) value);
      lifetime ← choice ["permanent"; "boot"; "15m"; "1h"] (getd "lifetime" (VStr "permanent") value)
                   "Unsupported rule lifetime.";
      _ ← require (negb (String.eqb lifetime "boot" && negb (truthy current_boot)
                         && negb (truthy (get "boot_id" existing))))
            (PolicyError "The boot identity is unavailable.");
      let enabled := getd "enabled" (VBool true) value in
      _ ← require (is_bool enabled) (PolicyError "Enabled must be boolean.");
      let identifier := identifier_of value existing uuid in
      _ ← require (identifier_ok identifier) (PolicyError "Invalid rule identifier.");
      name ← text (py_or (get "name" value) (VStr "Network rule")) 160;
      description ← text (getd "description" (VStr "") value) 500;
      let protocols := sorted_set protocols in
      ports ← port_ranges (getd "ports" (VList []) value);
      expires ← expires_at now value existing lifetime;
      let result := dlit
        [("id", identifier); ("provider", VStr provider); ("name", VStr name);
         ("description", VStr description); ("action", VStr action); ("enabled", enabled);
         ("family", VStr family); ("protocols", VList (map VStr protocols));
         ("ports", ranges_val ports); ("lifetime", VStr lifetime);
         ("created_at", getd "created_at" now existing); ("updated_at", now);
         ("expires_at", expires); ("boot_id", boot_of current_boot value existing lifetime)] in
      _ ← mapM_res (check_stamp lifetime result) ["created_at"; "updated_at"; "expires_at"];
      if String.eqb provider "application"
      then normalize_application value uid action ports result
      else normalize_incoming value family protocols ports result
  | _ => fail "A structured rule is required."
  end.

(** ** Lifecycle and matching *)

Inductive life := DISABLED | REVIEW_REQUIRED | EXPIRED | SAVED.

Definition life_str (l : life) : string :=
  match l with
  | DISABLED => "DISABLED" | REVIEW_REQUIRED => "REVIEW_REQUIRED"
  | EXPIRED => "EXPIRED" | SAVED => "SAVED"
  end.

#[export] Instance life_eq_dec : EqDecision life.
Proof. solve_decision. Defined.

Definition lifecycle (E : env) (rule : dict) (current_time current_boot : val) : res life :=
  if negb (truthy (getd "enabled" (VBool true) rule)) then Ok DISABLED
  else
    let current_time := if is_none current_time then now E else current_time in
    if truthy (get "review_required" rule) then Ok REVIEW_REQUIRED
    else
      over ← (if is_none (get "expires_at" rule) then Ok false
              else py_ge current_time (get "expires_at" rule));
      if over : bool then Ok EXPIRED
      else if is_str "boot" (get "lifetime" rule)
              && negb (py_eq (get "boot_id" rule) (py_or current_boot (boot E)))
      then Ok EXPIRED
      else Ok SAVED.

(** The fields of an OpenSnitch connection the policy reads. *)
Record connection := Connection {
  process_path : string;
  process_id : Z;
  user_id : Z;
  protocol : string;
  src_ip : string;
  src_port : Z;
  dst_ip : string;
  dst_host : string;
  dst_port : Z;
}.

(** [a in rule[k]] for a list field. *)
Definition in_list (a : val) (l : val) : res bool :=
  l ← as_list l; Ok (existsb (py_eq a) l).

Definition in_port_range (port : Z) (r : val) : res bool :=
  match r with
  | VList [VInt a; VInt b] => Ok ((a <=? port) && (port <=? b))
  | _ => Err TypeError
  end.

(** [any(... for x in l)] when the test can raise: left to right, stops at the
    first success. *)
Fixpoint any_res {A} (f : A -> res bool) (l : list A) : res bool :=
  match l with
  | [] => Ok false
  | x :: l => b ← f x; if b : bool then Ok true else any_res f l
  end.

Definition parse_ip (v : val) : res ip_addr := ip_address_val v.
Definition parse_net (v : val) : res ip_net :=
  match v with
  | VStr s => match ip_network s with Some n => Ok n | None => Err (ValueError "ip_network") end
  | _ => Err (ValueError "ip_network")
  end.

Definition destination_matches (host : string) (address : option ip_addr) (destination : val) : res bool :=
  d ← as_dict destination;
  kind ← item "kind" d;
  value ← item "value" d;
  if is_str "host" kind && is_str host value then Ok true
  else if is_str "domain" kind
          && (is_str host value || endswith ("." +:+ str_of value) host) then Ok true
  else if is_str "ip" kind then
    match address with
    | None => Ok false
    | Some a => b ← parse_ip value; Ok (bool_decide (a = b))
    end
  else if is_str "network" kind then
    match address with
    | None => Ok false
    | Some a => n ← parse_net value; Ok (in_network a n)
    end
  else Ok false.

Definition family_of (a : ip_addr) : string := if ip_version a =? 4 then "ipv4" else "ipv6".

(** [matches(rule, connection)] at the time and boot of [E]. The list fields of
    a rule are lists, as [normalize] leaves them. *)
Definition matches (E : env) (rule : dict) (c : connection) : res bool :=
  if negb (is_str "application" (get "provider" rule)) then Ok false else
  state ← lifecycle E rule VNone VNone;
  if negb (bool_decide (state = SAVED)) then Ok false else
  path ← item "path" rule;
  if negb (in_strs ["*"; process_path c] path) then Ok false else
  let uid := get "uid" rule in
  if negb (is_none uid) && negb (py_eq uid (VInt (user_id c))) then Ok false else
  let proto := removesuffix "6" (str_lower (protocol c)) in
  protocols ← item "protocols" rule;
  any ← in_list (VStr "any") protocols;
  listed ← in_list (VStr proto) protocols;
  if negb any && negb listed then Ok false else
  let address := ip_address (dst_ip c) in
  family ← item "family" rule;
  if negb (is_str "any" family)
     && match address with None => true | Some a => negb (is_str (family_of a) family) end
  then Ok false else
  ports ← (ports ← item "ports" rule; as_list ports);
  in_port ← any_res (in_port_range (dst_port c)) ports;
  if match ports with [] => false | _ => negb in_port end then Ok false else
  let host := str_lower (rstrip_char "." (dst_host c)) in
  let required := get "required_host" rule in
  if truthy required && negb (is_str host required) then Ok false else
  ds ← (ds ← item "destinations" rule; as_list ds);
  match ds with
  | [] => Ok true
  | _ => any_res (destination_matches host address) ds
  end.

(** ** Stored policies *)

Definition dns_policy_value : val :=
  VDict (dlit [("enforce", VBool true); ("ports", VList [VInt 53; VInt 853])]).

(** [d.setdefault(k, v)]. *)
Definition setdefault (k : string) (v : val) (d : dict) : dict :=
  match dget k d with Some _ => d | None => dset k v d end.

Definition is_threat_exception (item : dict) : bool := is_str "THREAT_EXCEPTION" (get "tier" item).

(** [int(v)] on a stored number. *)
Definition trunc_float (f : spec_float) : res Z :=
  match f with
  | S754_nan => Err (ValueError "cannot convert float NaN to integer")
  | S754_infinity _ => Err OverflowError
  | S754_zero _ => Ok 0
  | S754_finite s m e =>
      let a := Z.shiftl (Z.pos m) e in Ok (if s then - a else a)
  end.

(** Decimal text accepted by [int]: sign, digits, single underscores between
    digits, surrounding white space. *)
Fixpoint int_digits (after_digit : bool) (acc : Z) (s : string) : option Z :=
  match s with
  | "" => if after_digit then Some acc else None
  | String c s =>
      if digit_char c then int_digits true (acc * 10 + (ord c - 48)) s
      else if Ascii.eqb c "_" && after_digit then
        match s with String d _ => if digit_char d then int_digits false acc s else None | _ => None end
      else None
  end.

Definition int_of_text (s : string) : res Z :=
  let r := match strip s with
           | String "-" s => option_map Z.opp (int_digits false 0 s)
           | String "+" s => int_digits false 0 s
           | s => int_digits false 0 s
           end in
  match r with Some z => Ok z | None => Err (ValueError "invalid literal for int()") end.

Definition py_int (v : val) : res Z :=
  match v with
  | VInt z => Ok z
  | VBool b => Ok (if b then 1 else 0)
  | VFloat f => trunc_float f
  | VStr s => int_of_text s
  | _ => Err TypeError
  end.

(** [len(set(l)) == len(l)]. *)
Fixpoint all_distinct (l : list val) : bool :=
  match l with
  | [] => true
  | x :: l => negb (existsb (py_eq x) l) && all_distinct l
  end.

Definition check_distinct (ids : list val) : res unit :=
  if forallb hashable ids
  then require (all_distinct ids) (PolicyError "Duplicate rule identifiers.")
  else Err TypeError.

(** One stored rule of a policy of the current schema: its identifier. *)
Definition check_stored (E : env) (r : val) : res val :=
  i ← as_dict r;
  if is_threat_exception i then
    path_ok ← (if is_str "allow" (get "action" i) then
                 match getd "path" (VStr "") i with
                 | VStr p => Ok (startswith "/" p)
                 | _ => Err AttributeError
                 end
               else Ok false);
    port_ok ← (if path_ok : bool then
                 p ← py_int (getd "port" (VInt 0) i); Ok ((1 <=? p) && (p <=? 65535))
               else Ok false);
    _ ← require port_ok (PolicyError "Invalid threat exception.");
    _ ← ip_address_val (get "ip" i);
    Ok (rule_id i)
  else
    normalized ← normalize E r (py_or (get "uid" i) (VInt 0)) i (getd "updated_at" (now E) i) VNone (fresh E);
    _ ← require (py_eq (VDict normalized) r) (PolicyError "Stored network rule is not canonical.");
    item "id" i.

(** The sort key of a legacy rule: specific paths first, then specific
    destinations. *)
Definition legacy_key (r : val) : nat :=
  match r with
  | VDict i =>
      (if is_str "*" (get "path" i) then 0 else 2)
      + (if truthy (get "host" i) || truthy (get "ip" i) || truthy (get "port" i) then 1 else 0)
  | _ => 0
  end.

Definition port_is (p : val) (z : Z) : bool := py_eq p (VInt z).

Definition migrate_rule (E : env) (r : val) : res val :=
  i ← as_dict r;
  if is_threat_exception i then Ok (VDict (dset "id" (rule_id i) i))
  else
    let has k := truthy (get k i) in
    let dest kind k := VDict (dlit [("kind", VStr kind); ("value", get k i)]) in
    let destinations :=
      if has "host" && has "ip" then [dest "ip" "ip"]
      else (if has "host" then [dest "host" "host"] else [])
           ++ (if has "ip" then [dest "ip" "ip"] else []) in
    let allow := is_str "allow" (get "action" i) in
    migrated ← normalize E (VDict (dlit
      [("id", rule_id i); ("path", get "path" i);
       ("name", py_or (get "name" i) (VStr "Migrated network rule"));
       ("action", VStr (if allow then "allow" else "deny")); ("scope", VStr "system");
       ("all_applications", VBool (is_str "*" (get "path" i)));
       ("protocols", VList [VStr "any"]);
       ("dns_exception", VBool (allow && (port_is (get "port" i) 53 || port_is (get "port" i) 853)));
       ("required_host", if has "ip" then get "host" i else VNone);
       ("ports", VList (if has "port" then [get "port" i] else []));
       ("destinations", VList destinations)])) (VInt 0) [] VNone VNone (fresh E);
    Ok (VDict (if is_str "always" (getd "duration" (VStr "always") i) then migrated
               else dset "description"
                      (VStr "Legacy temporary scope: choose a new lifetime before enabling.")
                      (dset "enabled" (VBool (negb (is_str "allow" (get "action" migrated)))) migrated))).

Definition policy_defaults (policy : dict) : dict :=
  setdefault "threat_intel"
    (VDict (dlit [("enabled", VBool true); ("provider", VStr "feodo-recommended")]))
  (setdefault "dns_policy" dns_policy_value
  (setdefault "interactive_prompts" (VBool false)
  (setdefault "default_duration" (VStr "once")
  (setdefault "default_action" (VStr "allow") policy)))).

Definition migrate (E : env) (policy : val) : res dict :=
  match policy with
  | VDict p =>
      _ ← match getd "rules" (VList []) p with
          | VList l => require (forallb is_dict l) (PolicyError "Invalid network policy.")
          | _ => fail "Invalid network policy."
          end;
      let result := policy_defaults p in
      _ ← require (in_strs ["allow"; "deny"; "reject"] (get "default_action" result))
            (PolicyError "Invalid default action.");
      _ ← require (py_eq (get "dns_policy" result) dns_policy_value)
            (PolicyError "Managed DNS policy is invalid.");
      result ←
        (if is_str SCHEMA (get "schema" result) then
           _ ← require (match get "revision" result with VInt z => 0 <=? z | _ => false end)
                 (PolicyError "Invalid policy revision.");
           rules ← (rules ← item "rules" result; as_list rules);
           ids ← mapM_res (check_stored E) rules;
           _ ← check_distinct ids;
           Ok result
         else
           legacy ← as_list (getd "rules" (VList []) result);
           rules ← mapM_res (migrate_rule E)
                     (sort_by (fun x y => (legacy_key y <=? legacy_key x)%nat) legacy);
           Ok (dupdate result [("schema", VStr SCHEMA); ("revision", VInt 0); ("rules", VList rules)]));
      rules ← (rules ← item "rules" result; as_list rules);
      _ ← require (Z.of_nat (length rules) <=? MAX_RULES)
            (PolicyError "The policy limit is 1,024 rules; no existing rule was removed.");
      Ok result
  | _ => fail "Invalid network policy."
  end.
End rules.
