(* ===== verification/RuleSpec.v ===== *)
(** * Typed view of canonical rules

    The abstract data of a canonical rule, its JSON dictionary, what it means
    for such a rule to be well formed and which connections an application rule
    covers. [RulesCorrect] proves that [normalize] produces exactly
    dictionaries of this shape and that [matches] decides [app_covers]. *)
From S2P Require Import Prelude PyVal PyStr IpAddr NetworkRules.

Inductive dest :=
| DHost (h : string)
| DDomain (h : string)
| DIp (a : ip_addr)
| DNet (n : ip_net).

Record common := Common {
  c_id : string; c_name : string; c_description : string; c_action : string;
  c_enabled : bool; c_family : string; c_protocols : list string;
  c_ports : list (Z * Z); c_lifetime : string;
  c_created : val; c_updated : val; c_expires : val; c_boot : val;
}.

Record app_rule := AppRule {
  a_common : common;
  a_path : string;
  a_uid : option Z;
  a_destinations : list dest;
  a_required_host : option string;
  a_dns_exception : bool;
}.

Record in_rule := InRule {
  i_common : common;
  i_zone : string;
  i_service : string;
  i_source : option ip_net;
}.

(** ** The dictionaries *)

Definition dest_kind (d : dest) : string :=
  match d with DHost _ => "host" | DDomain _ => "domain" | DIp _ => "ip" | DNet _ => "network" end.

Definition dest_value (d : dest) : string :=
  match d with DHost h | DDomain h => h | DIp a => ip_str a | DNet n => net_str n end.

Definition dest_val (d : dest) : val :=
  VDict [("kind", VStr (dest_kind d)); ("value", VStr (dest_value d))].

Definition opt_item (k : string) (v : option val) (d : dict) : dict :=
  match v with Some v => dset k v d | None => d end.

Definition common_dict (provider : string) (c : common) : dict :=
  dlit [("id", VStr (c_id c)); ("provider", VStr provider); ("name", VStr (c_name c));
        ("description", VStr (c_description c)); ("action", VStr (c_action c));
        ("enabled", VBool (c_enabled c)); ("family", VStr (c_family c));
        ("protocols", VList (map VStr (c_protocols c))); ("ports", ranges_val (c_ports c));
        ("lifetime", VStr (c_lifetime c)); ("created_at", c_created c);
        ("updated_at", c_updated c); ("expires_at", c_expires c); ("boot_id", c_boot c)].

Definition app_dict (r : app_rule) : dict :=
  opt_item "dns_exception" (if a_dns_exception r then Some (VBool true) else None)
  (dset "destinations" (VList (map dest_val (a_destinations r)))
  (opt_item "required_host" (option_map VStr (a_required_host r))
  (opt_item "all_applications" (if String.eqb (a_path r) "*" then Some (VBool true) else None)
  (dupdate (common_dict "application" (a_common r))
    [("path", VStr (a_path r));
     ("uid", match a_uid r with Some u => VInt u | None => VNone end);
     ("scope", VStr (match a_uid r with Some _ => "user" | None => "system" end));
     ("destinations", VList [])])))).

Definition in_dict (r : in_rule) : dict :=
  dupdate (common_dict "incoming" (i_common r))
    [("zone", VStr (i_zone r)); ("service", VStr (i_service r));
     ("source", VStr (match i_source r with Some n => net_str n | None => "" end));
     ("scope", VStr "system")].

(** ** Well-formedness *)

(** Ranges in ascending order, inside [1, 65535], with a gap between any two. *)
Fixpoint ranges_sep (lo : Z) (rs : list (Z * Z)) : Prop :=
  match rs with
  | [] => True
  | (a, b) :: rs => lo <= a /\ a <= b /\ b <= 65535 /\ ranges_sep (b + 2) rs
  end.
Definition ranges_wf (rs : list (Z * Z)) : Prop := ranges_sep 1 rs /\ (length rs <= 32)%nat.

Definition in_ranges (p : Z) (rs : list (Z * Z)) : Prop := exists r, In r rs /\ r.1 <= p <= r.2.

Definition protocols_wf (ps : list string) : Prop :=
  ps = ["tcp"] \/ ps = ["udp"] \/ ps = ["tcp"; "udp"] \/ ps = ["any"].

(** A text that [text] returns unchanged. *)
Definition stable_text (max : Z) (s : string) : Prop :=
  str_len s <= max /\ isprintable s = true /\ strip s = s.

Definition host_wf (h : string) : Prop :=
  h <> "" /\ Forall (fun l => label_ok l = true) (split "." h).

Definition dest_wf (d : dest) : Prop :=
  match d with
  | DHost h | DDomain h => host_wf h
  | DIp a => ip_wf a /\ isprintable (ip_str a) = true /\ strip (ip_str a) = ip_str a
  | DNet n => net_wf n /\ isprintable (net_str n) = true /\ strip (net_str n) = net_str n
  end.

Definition stamp_wf (v : val) : Prop := number_ok v = Ok tt.

Definition common_wf (c : common) : Prop :=
  identifier_ok (VStr (c_id c)) = true
  /\ stable_text 160 (c_name c) /\ stable_text 500 (c_description c)
  /\ In (c_action c) ["allow"; "deny"] /\ In (c_family c) ["any"; "ipv4"; "ipv6"]
  /\ protocols_wf (c_protocols c) /\ ranges_wf (c_ports c)
  /\ In (c_lifetime c) ["permanent"; "boot"; "15m"; "1h"]
  /\ stamp_wf (c_created c) /\ stamp_wf (c_updated c)
  /\ (if timed (c_lifetime c) then stamp_wf (c_expires c) else c_expires c = VNone)
  /\ (c_lifetime c <> "boot" -> c_boot c = VNone).

Definition path_wf (path : string) : Prop :=
  stable_text 4096 path
  /\ (startswith "/" path = true \/ path = "*")
  /\ existsb (String.eqb "..") (split "/" path) = false
  /\ startswith "/app/" path = false.

Definition dns_ports_only (rs : list (Z * Z)) : Prop :=
  rs <> [] /\ Forall (fun r => r = (53, 53) \/ r = (853, 853)) rs.

Definition app_wf (r : app_rule) : Prop :=
  common_wf (a_common r) /\ path_wf (a_path r)
  /\ match a_uid r with Some u => 0 <= u < 2 ^ 32 - 1 | None => True end
  /\ Forall dest_wf (a_destinations r) /\ NoDup (map dest_val (a_destinations r))
  /\ (length (a_destinations r) <= 32)%nat
  /\ match a_required_host r with Some h => host_wf h | None => True end
  /\ (a_dns_exception r = true ->
      c_action (a_common r) = "allow" /\ a_path r <> "*" /\ dns_ports_only (c_ports (a_common r))).

Definition in_wf (r : in_rule) : Prop :=
  let c := i_common r in
  common_wf c /\ c_protocols c <> ["any"]
  /\ name_ok (i_zone r) = true /\ str_len (i_zone r) <= 80
  /\ (i_service r = "" \/ name_ok (i_service r) = true) /\ str_len (i_service r) <= 80
  /\ (i_service r = "" <-> c_ports c <> [])
  /\ (i_service r <> "" -> c_protocols c = ["tcp"; "udp"])
  /\ match i_source r with
     | Some n => net_wf n /\ isprintable (net_str n) = true /\ strip (net_str n) = net_str n
                 /\ c_family c = family_of (net_addr n)
     | None => True
     end.

(** ** Rules of either provider *)

Inductive rule :=
| RApp (r : app_rule)
| RIn (r : in_rule).

Definition rule_dict (r : rule) : dict := match r with RApp r => app_dict r | RIn r => in_dict r end.
Definition rule_common (r : rule) : common := match r with RApp r => a_common r | RIn r => i_common r end.
Definition rule_wf (r : rule) : Prop := match r with RApp r => app_wf r | RIn r => in_wf r end.

(** The texts that normalisation rewrites (addresses, IDNA names) still fit the
    limits put on a request, and the name is not blank. *)
Definition dest_fits (d : dest) : Prop := str_len (dest_value d) <= 253.
Definition app_fits (ar : app_rule) : Prop :=
  Forall dest_fits (a_destinations ar)
  /\ match a_required_host ar with Some h => str_len h <= 253 | None => True end.
Definition in_fits (ir : in_rule) : Prop :=
  match i_source ir with Some n => str_len (net_str n) <= 80 | None => True end.
Definition rule_fits (r : rule) : Prop :=
  c_name (rule_common r) <> "" /\ match r with RApp r => app_fits r | RIn r => in_fits r end.

(** The boot identity is known to whoever re-reads a boot-lifetime rule. *)
Definition boot_known (E : env) (c : common) : Prop :=
  c_lifetime c = "boot" -> truthy (boot E) = true \/ truthy (c_boot c) = true.

(** ** What an application rule covers *)

Definition dest_covers (host : string) (address : option ip_addr) (d : dest) : Prop :=
  match d with
  | DHost h => host = h
  | DDomain h => host = h \/ endswith ("." +:+ h) host = true
  | DIp a => address = Some a
  | DNet n => exists a, address = Some a /\ in_network a n = true
  end.

(** The host name as [matches] compares it. *)
Definition conn_host (c : connection) : string := str_lower (rstrip_char "." (dst_host c)).
Definition conn_proto (c : connection) : string := removesuffix "6" (str_lower (protocol c)).

(** Every condition of the rule holds of the connection: executable, user,
    protocol, address family, port, required host and destination. *)
Definition app_covers (r : app_rule) (c : connection) : Prop :=
  let k := a_common r in
  (a_path r = "*" \/ a_path r = process_path c)
  /\ match a_uid r with Some u => u = user_id c | None => True end
  /\ (c_protocols k = ["any"] \/ In (conn_proto c) (c_protocols k))
  /\ (c_family k = "any" \/ exists a, ip_address (dst_ip c) = Some a /\ family_of a = c_family k)
  /\ (c_ports k = [] \/ in_ranges (dst_port c) (c_ports k))
  /\ match a_required_host r with Some h => conn_host c = h | None => True end
  /\ (a_destinations r = []
      \/ Exists (dest_covers (conn_host c) (ip_address (dst_ip c))) (a_destinations r)).

(** The rule is in force at the time and boot of [E]. *)
Definition in_force (E : env) (c : common) : Prop :=
  c_enabled c = true
  /\ (c_expires c = VNone \/ py_ge (now E) (c_expires c) = Ok false)
  /\ (c_lifetime c = "boot" -> py_eq (c_boot c) (boot E) = true).

(** * Port ranges

    What [port_ranges] computes: the merged list is in canonical form, covers
    exactly the requested ports, and is a fixed point of the function. *)

(** A range [port_range] accepts. *)
Definition range_ok (r : Z * Z) : Prop := 1 <= r.1 /\ r.1 <= r.2 /\ r.2 <= 65535.

(** The separation invariant on the reversed accumulator of the merging loop. *)
Fixpoint rsep (hi : Z) (acc : list (Z * Z)) : Prop :=
  match acc with
  | [] => True
  | (a, b) :: rest => 1 <= a /\ a <= b /\ b <= hi /\ rsep (a - 2) rest
  end.

Definition starts_below (acc : list (Z * Z)) (x : Z) : Prop :=
  match acc with [] => True | r :: _ => r.1 <= x end.

Lemma in_ranges_nil p : in_ranges p [] <-> False.
Proof. split; [intros (r & [] & _) | done]. Qed.

Lemma in_ranges_cons p r rs : in_ranges p (r :: rs) <-> r.1 <= p <= r.2 \/ in_ranges p rs.
Proof. unfold in_ranges. split; [intros (x & [->|H] & Hx); eauto | intros [H|(x & H & Hx)]].
  - exists r. split; [by left|done].
  - exists x. split; [by right|done].
Qed.

Lemma in_ranges_app p rs rs' : in_ranges p (rs ++ rs') <-> in_ranges p rs \/ in_ranges p rs'.
Proof.
  induction rs as [|r rs IH]; simpl; [rewrite in_ranges_nil; tauto|].
  rewrite !in_ranges_cons, IH. tauto.
Qed.

Lemma in_ranges_perm p rs rs' : rs ≡ₚ rs' -> in_ranges p rs <-> in_ranges p rs'.
Proof.
  intros Hp. unfold in_ranges. split; intros (r & Hr & H); exists r; (split; [|done]).
  - by rewrite <- Hp.
  - by rewrite Hp.
Qed.

Lemma in_ranges_rev p rs : in_ranges p (rev rs) <-> in_ranges p rs.
Proof. apply in_ranges_perm. symmetry. apply Permutation_rev. Qed.

Lemma merge_step_spec acc r p :
  rsep 65535 acc -> starts_below acc r.1 -> range_ok r ->
  rsep 65535 (merge_step acc r) /\ starts_below (merge_step acc r) r.1
  /\ (in_ranges p (merge_step acc r) <-> in_ranges p acc \/ r.1 <= p <= r.2).
Proof.
  intros Hacc Hs (H1 & H2 & H3). destruct acc as [|[a b] rest]; simpl.
  - rewrite in_ranges_cons, in_ranges_nil. destruct r; simpl in *. repeat split; try lia; tauto.
  - simpl in Hacc, Hs. destruct Hacc as (Ha & Hab & Hb & Hrest).
    destruct (Z.leb_spec r.1 (b + 1)) as [Hle|Hlt]; simpl.
    + repeat split; try lia; [done|..]; rewrite !in_ranges_cons; simpl; lia || tauto || idtac.
      * intros [?|?]; [|tauto].
        destruct (Z.le_gt_cases p b); [left; left; lia | right; lia].
      * intros [[?|?]|?]; [left; lia | tauto | left; lia].
    + rewrite in_ranges_cons. destruct r as [c d]; simpl in *.
      repeat split; try lia; try done; rewrite ?in_ranges_cons; simpl; tauto.
Qed.

Lemma merge_fold_spec l acc p :
  Sorted (fun x y => range_leb x y = true) l -> Forall range_ok l ->
  rsep 65535 acc -> match l with [] => True | r :: _ => starts_below acc r.1 end ->
  rsep 65535 (fold_left merge_step l acc)
  /\ (in_ranges p (fold_left merge_step l acc) <-> in_ranges p acc \/ in_ranges p l).
Proof.
  intros Hl. revert acc. induction Hl as [|r l Hl IH Hhd]; intros acc Hok Hacc Hs; simpl.
  - rewrite in_ranges_nil. tauto.
  - apply Forall_cons in Hok as [Hr Hok].
    destruct (merge_step_spec acc r p Hacc Hs Hr) as (Ha & Hb & Hc).
    destruct (IH (merge_step acc r) Hok Ha) as [Hd He].
    { destruct Hhd as [|r' l Hr']; [done|]. unfold range_leb in Hr'.
      assert (r.1 <= r'.1) as Hle.
      { apply orb_true_iff in Hr' as [Hr'|Hr']; [|apply andb_true_iff in Hr' as [Hr' _]];
          zify_bool; lia. }
      revert Hb. unfold starts_below. destruct (merge_step acc r); lia || done. }
    split; [done|]. rewrite He, Hc, in_ranges_cons. tauto.
Qed.

Lemma ranges_sep_mono lo lo' rs : lo' <= lo -> ranges_sep lo rs -> ranges_sep lo' rs.
Proof. destruct rs as [|[a b] rs]; simpl; [done|]. intros ? (? & ? & ? & ?). repeat split; try done; lia. Qed.

Lemma rsep_rev hi acc k :
  rsep hi acc -> -1 <= hi <= 65535 -> ranges_sep (hi + 2) k -> ranges_sep 1 (rev acc ++ k).
Proof.
  revert hi k; induction acc as [|[a b] acc IH]; intros hi k; simpl.
  - intros _ ?. apply ranges_sep_mono. lia.
  - intros (? & ? & ? & Hacc) ? Hk. rewrite <- app_assoc. apply (IH (a - 2)); [done|lia|].
    simpl. repeat split; try lia. eapply ranges_sep_mono; [|exact Hk]. lia.
Qed.

Lemma merge_step_length acc r : (length (merge_step acc r) <= S (length acc))%nat.
Proof. destruct acc as [|[a b] acc]; simpl; [lia|]. case_match; simpl; lia. Qed.

Lemma merge_fold_length l acc : (length (fold_left merge_step l acc) <= length acc + length l)%nat.
Proof.
  revert acc; induction l as [|r l IH]; intros acc; simpl; [lia|].
  pose proof (IH (merge_step acc r)). pose proof (merge_step_length acc r). lia.
Qed.

Lemma range_leb_total x y : range_leb x y = false -> range_leb y x = true.
Proof.
  unfold range_leb. intros H. apply orb_false_iff in H as [H1 H2]. apply Z.ltb_ge in H1.
  destruct (y.1 <? x.1) eqn:E; [done|]. zify_bool. assert (x.1 = y.1) as Heq by lia.
  rewrite Heq, Z.eqb_refl in *. simpl in *. zify_bool. apply Z.leb_le. lia.
Qed.

(** Merging valid ranges: canonical form, the same ports, no more ranges. *)
Lemma merge_ranges_spec rs :
  Forall range_ok rs ->
  ranges_sep 1 (merge_ranges rs) /\ (length (merge_ranges rs) <= length rs)%nat
  /\ forall p, in_ranges p (merge_ranges rs) <-> in_ranges p rs.
Proof.
  intros Hok. unfold merge_ranges. set (l := sort_by range_leb rs).
  assert (Sorted (fun x y => range_leb x y = true) l) as Hl
    by apply sort_by_Sorted, range_leb_total.
  assert (l ≡ₚ rs) as Hperm by apply sort_by_Permutation.
  assert (Forall range_ok l) as Hokl by by rewrite Hperm.
  assert (forall p, rsep 65535 (fold_left merge_step l [])
    /\ (in_ranges p (fold_left merge_step l []) <-> in_ranges p [] \/ in_ranges p l)) as Hf.
  { intros p. apply merge_fold_spec; try done. by destruct l. }
  split; [|split].
  - destruct (Hf 0) as [Hr _]. rewrite <- (app_nil_r (rev _)).
    by apply (rsep_rev 65535).
  - rewrite length_rev, (merge_fold_length l []). simpl. by rewrite Hperm.
  - intros p. rewrite in_ranges_rev. destruct (Hf p) as [_ ->].
    rewrite in_ranges_nil, (in_ranges_perm p l rs Hperm). tauto.
Qed.

(** Canonical ranges are a fixed point of merging. *)
Lemma canonical_Sorted lo rs : ranges_sep lo rs -> Sorted (fun x y => range_leb x y = true) rs.
Proof.
  revert lo; induction rs as [|[a b] rs IH]; intros lo; simpl; [constructor|].
  intros (? & ? & ? & H). constructor; [by eapply IH|].
  destruct rs as [|[c d] rs]; constructor. simpl in H.
  unfold range_leb. simpl. apply orb_true_iff. left. apply Z.ltb_lt. lia.
Qed.

Lemma merge_fold_canonical rs acc lo :
  ranges_sep lo rs -> match acc with [] => True | (_, b) :: _ => b + 2 <= lo end ->
  fold_left merge_step rs acc = rev rs ++ acc.
Proof.
  revert acc lo; induction rs as [|[a b] rs IH]; intros acc lo; simpl; [done|].
  intros (? & ? & ? & H) Hacc.
  assert (merge_step acc (a, b) = (a, b) :: acc) as ->.
  { destruct acc as [|[c d] acc]; simpl; [done|].
    by rewrite (proj2 (Z.leb_gt a (d + 1))) by lia. }
  rewrite (IH ((a, b) :: acc) (b + 2)) by (done || lia). by rewrite <- app_assoc.
Qed.

Lemma merge_ranges_canonical lo rs : ranges_sep lo rs -> merge_ranges rs = rs.
Proof.
  intros H. unfold merge_ranges. rewrite sort_by_id by by eapply canonical_Sorted.
  rewrite (merge_fold_canonical rs [] lo) by done. by rewrite app_nil_r, rev_involutive.
Qed.

(** ** The requested ports *)

(** [p] is one of the ports a port-list element asks for. *)
Definition part_asks (part : val) (p : Z) : Prop :=
  let parts := port_parts part in
  int_of_port (nth 0 parts VNone) <= p <= int_of_port (nth (length parts - 1) parts VNone).

Lemma port_range_ok part r :
  port_range part = Ok r -> range_ok r /\ forall p, part_asks part p <-> r.1 <= p <= r.2.
Proof.
  unfold port_range, part_asks. destruct (_ || _); [done|].
  destruct (_ && _) eqn:E; [|done]. intros [= <-]. split_bool.
  repeat match goal with H : (_ && _) = true |- _ => apply andb_true_iff in H as [? ?] end.
  zify_bool. unfold range_ok. simpl. split; [lia | tauto].
Qed.

Lemma port_list_length v l : port_list v = Ok l -> (length l <= 32)%nat.
Proof.
  unfold port_list. destruct v; try done;
    (destruct (32 <? _) eqn:E; [done|]); intros [= <-]; zify_bool; lia.
Qed.

Lemma port_ranges_wf v rs : port_ranges v = Ok rs -> ranges_wf rs.
Proof.
  unfold port_ranges. intros H. inv_ok. subst rs.
  apply mapM_res_Ok in Ha0. assert (Forall range_ok a0) as Hok.
  { apply Forall_forall. intros r Hr. apply list_elem_of_lookup in Hr as [i Hi].
    destruct (Forall2_lookup_r _ _ _ _ _ Ha0 Hi) as (x & _ & Hx). by apply port_range_ok in Hx as [? _]. }
  destruct (merge_ranges_spec a0 Hok) as (? & ? & _). split; [done|].
  apply port_list_length in Ha. apply Forall2_length in Ha0. lia.
Qed.

(** The JSON form of a range reads back. *)
Definition port_text_ok (z : Z) : bool :=
  match_digits 5 (strip (str_of_Z z)).

Lemma port_text_ok_all z : 0 <= z < 65536 -> port_text_ok z = true.
Proof. apply all_below_spec. by vm_compute. Qed.

Lemma port_range_val a b :
  1 <= a -> a <= b -> b <= 65535 -> port_range (VList [VInt a; VInt b]) = Ok (a, b).
Proof.
  intros Ha Hab Hb. unfold port_range. cbn [port_parts length Nat.eqb orb negb existsb is_bool str_of_port].
  pose proof (port_text_ok_all a ltac:(lia)) as Ea.
  pose proof (port_text_ok_all b ltac:(lia)) as Eb. unfold port_text_ok in Ea, Eb.
  rewrite Ea, Eb. cbn [orb negb nth length Nat.sub int_of_port].
  rewrite !(proj2 (Z.leb_le _ _)) by done. done.
Qed.

Lemma port_ranges_val rs : ranges_wf rs -> port_ranges (ranges_val rs) = Ok rs.
Proof.
  intros [Hs Hl]. unfold port_ranges, ranges_val, port_list.
  rewrite length_map. rewrite (proj2 (Z.ltb_ge _ _)) by lia. cbn [mbind res_bind].
  assert (forall lo rs, ranges_sep lo rs -> 1 <= lo ->
    mapM_res port_range (map (fun r => VList [VInt r.1; VInt r.2]) rs) = Ok rs) as Hm.
  { clear. intros lo rs; revert lo; induction rs as [|[a b] rs IH]; intros lo; simpl; [done|].
    intros (? & ? & ? & H) ?. rewrite port_range_val by lia. cbn.
    by rewrite (IH (b + 2)) by (done || lia). }
  rewrite (Hm 1) by (done || lia). cbn. f_equal. by eapply merge_ranges_canonical.
Qed.
