(* ===== verification/RuleTexts.v ===== *)
(** * Texts of canonical rules

    The texts, host names and addresses that [normalize] stores are fixed
    points of the functions that validate them. *)
From S2P Require Import Prelude PyVal PyStr IpAddr NetworkRules RuleSpec.

(** ** Text *)

Lemma text_Ok v max s :
  text v max = Ok s ->
  exists t, v = VStr t /\ s = strip t /\ str_len t <= max /\ isprintable t = true.
Proof.
  unfold text. destruct v as [| | | |t| |]; try done.
  destruct (_ || _) eqn:E; [done|]. intros [= <-]. split_bool. zify_bool. eauto.
Qed.

Lemma text_stable v max s : text v max = Ok s -> stable_text max s.
Proof.
  intros (t & -> & -> & Hl & Hp)%text_Ok. unfold stable_text.
  pose proof (str_len_strip t). split; [lia|]. split; [|apply strip_idemp].
  by apply str_forall_strip.
Qed.

Lemma stable_text_Ok max s : stable_text max s -> text (VStr s) max = Ok s.
Proof.
  intros (Hl & Hp & Hs). unfold text. rewrite (proj2 (Z.ltb_ge _ _)) by done.
  by rewrite Hp, Hs.
Qed.

Lemma strip_no_space s : str_forall (fun c => negb (isspace_char c)) s = true -> strip s = s.
Proof.
  intros H. unfold strip.
  assert (rstrip_by isspace_char s = s) as ->.
  { induction s as [|c s IH]; [done|]. simpl in *. apply andb_true_iff in H as [Hc Hs].
    rewrite IH by done. apply negb_true_iff in Hc. destruct s; by rewrite ?Hc. }
  destruct s as [|c s]; simpl in *; [done|]. apply andb_true_iff in H as [Hc _].
  by apply negb_true_iff in Hc as ->.
Qed.

(** ** Host names *)

Definition host_char (c : ascii) : bool := alnum_char c || Ascii.eqb c "-" || Ascii.eqb c ".".

Lemma host_char_facts c :
  host_char c = true ->
  lower_char c = c /\ isprintable_char c = true /\ isascii_char c = true
  /\ negb (isspace_char c) = true.
Proof. destruct c as [[] [] [] [] [] [] [] []]; vm_compute; naive_solver. Qed.

Lemma label_ok_chars l :
  label_ok l = true -> str_forall (fun c => alnum_char c || Ascii.eqb c "-") l = true.
Proof.
  destruct l as [|c r]; simpl; [done|]. intros H. split_bool.
  repeat match goal with H : (_ && _) = true |- _ => apply andb_true_iff in H as [? ?] end.
  apply andb_true_iff. split; [|done]. apply orb_true_iff. by left.
Qed.

Lemma label_ok_len l : label_ok l = true -> 0 < str_len l < 64.
Proof.
  destruct l as [|c r]; [done|]. intros H. unfold label_ok in H.
  repeat match goal with H : (_ && _) = true |- _ => apply andb_true_iff in H as [H ?] end.
  zify_bool. split; [unfold str_len; simpl; lia | lia].
Qed.

Lemma host_wf_chars h : host_wf h -> str_forall host_char h = true.
Proof.
  intros [_ H]. unfold host_char. apply split_words. eapply Forall_impl; [exact H|].
  apply label_ok_chars.
Qed.

Lemma last_split_ne c s : last (split c s) <> None.
Proof. intros H. apply last_None in H. by destruct (split_nonempty c s). Qed.

Lemma rstrip_dot s : last (split "." s) <> Some "" -> rstrip_char "." s = s.
Proof.
  unfold rstrip_char. induction s as [|c s IH]; [done|]. cbn [rstrip_by split].
  rewrite (Ascii.eqb_sym "." c). destruct (Ascii.eqb c ".") eqn:E.
  - intros H. assert (last (split "." s) <> Some "") as Hs.
    { pose proof (split_nonempty "." s). by destruct (split "." s). }
    rewrite (IH Hs). destruct s as [|a s]; [done|done].
  - intros H. destruct s as [|a s]; [done|].
    assert (last (split "." (String a s)) <> Some "") as Hs.
    { pose proof (split_nonempty "." (String a s)) as Hn.
      destruct (split "." (String a s)) as [|w [|w' ws]] eqn:Es; [done| |done].
      simpl. intros [= ->]. simpl in Es.
      destruct (Ascii.eqb a "."); [by destruct (split_nonempty "." s); congruence|].
      destruct (split "." s); discriminate Es. }
    by rewrite (IH Hs).
Qed.

Lemma str_map_id f s p :
  (forall c, p c = true -> f c = c) -> str_forall p s = true -> str_map f s = s.
Proof.
  intros Hf. induction s as [|c s IH]; simpl; [done|]. rewrite andb_true_iff.
  intros [Hc Hs]. by rewrite Hf, IH.
Qed.

Lemma idna_encode_wf h : host_wf h -> isascii h = true -> 
  forall `{Host}, idna_encode h = Some h.
Proof.
  intros [Hne Hl] Ha ?. unfold idna_encode. rewrite Ha.
  destruct (String.eqb_spec h ""); [done|].
  assert (Forall (fun l => 0 < str_len l < 64) (split "." h)) as Hlen
    by (eapply Forall_impl; [exact Hl | apply label_ok_len]).
  match goal with |- (if ?b && _ then _ else _) = _ => assert (b = true) as -> end.
  { apply forallb_forall. intros l Hin.
    assert (0 < str_len l < 64) as Hr.
    { apply list_elem_of_In in Hin.
      pose proof (Forall_take _ (length (split "." h) - 1)%nat _ Hlen) as Ht.
      rewrite Forall_forall in Ht. by apply Ht. }
    apply andb_true_iff; split; apply Z.ltb_lt; lia. }
  destruct (last (split "." h)) as [l|] eqn:El; simpl; [|done].
  apply last_Some in El as [k Hk]. rewrite Hk in Hlen.
  apply Forall_app in Hlen as [_ Hlen]. apply Forall_cons in Hlen as [? _].
  by rewrite (proj2 (Z.ltb_lt _ _)) by lia.
Qed.

Section host.
Context `{Host}.

Lemma host_name_wf v h : host_name v = Ok h -> host_wf h.
Proof.
  unfold host_name. intros Hh. inv_ok. destruct (idna_encode _) as [s|]; [|done].
  destruct (_ || _) eqn:E; [done|]. injection Hh as <-. split_bool. split.
  - by apply String.eqb_neq.
  - apply Forall_forall. intros l Hl. apply list_elem_of_In in Hl.
    match goal with H : existsb _ _ = false |- _ =>
      rewrite existsb_not_In in H; specialize (H l Hl) end. by apply negb_false_iff.
Qed.

Lemma host_wf_stable h : host_wf h -> str_len h <= 253 -> stable_text 253 h.
Proof.
  intros Hh Hl. pose proof (host_wf_chars h Hh) as Hc. split; [done|]. split.
  - eapply str_forall_impl; [|exact Hc]. intros c. by intros (_ & ? & _)%host_char_facts.
  - apply strip_no_space. eapply str_forall_impl; [|exact Hc].
    intros c. by intros (_ & _ & _ & ?)%host_char_facts.
Qed.

Lemma host_name_stable h : host_wf h -> str_len h <= 253 -> host_name (VStr h) = Ok h.
Proof.
  intros Hh Hl. pose proof (host_wf_chars h Hh) as Hc. unfold host_name.
  rewrite stable_text_Ok by by apply host_wf_stable. cbn [mbind res_bind].
  rewrite rstrip_dot.
  2: { destruct Hh as [_ Hl']. intros Hlast. apply last_Some in Hlast as [k Hk].
       rewrite Hk in Hl'. apply Forall_app in Hl' as [_ Hl']. by apply Forall_cons in Hl' as [? _]. }
  unfold str_lower. rewrite (str_map_id _ _ host_char) by (done || by intros c [? _]%host_char_facts).
  rewrite idna_encode_wf; [|done|].
  2: { eapply str_forall_impl; [|exact Hc]. by intros c (_ & _ & ? & _)%host_char_facts. }
  destruct Hh as [Hne Hls]. destruct (String.eqb_spec h ""); [done|]. simpl.
  replace (existsb _ _) with false; [done|]. symmetry. apply existsb_not_In. intros l Hin.
  apply list_elem_of_In in Hin. rewrite Forall_forall in Hls. by rewrite Hls.
Qed.
End host.

(** ** Addresses *)

Lemma rstrip_app p u t : rstrip_by p t <> "" -> rstrip_by p (u +:+ t) = u +:+ rstrip_by p t.
Proof.
  intros Ht. induction u as [|c u IH]; [done|].
  change (String c u +:+ t) with (String c (u +:+ t)). cbn [rstrip_by]. rewrite IH.
  change (String c u +:+ rstrip_by p t) with (String c (u +:+ rstrip_by p t)).
  destruct (u +:+ rstrip_by p t) eqn:E; [|done].
  destruct u; simpl in E; [by destruct Ht | done].
Qed.

Lemma rstrip_app_nil p u t : rstrip_by p t = "" -> rstrip_by p (u +:+ t) = rstrip_by p u.
Proof.
  intros Ht. induction u as [|c u IH]; [done|].
  change (String c u +:+ t) with (String c (u +:+ t)). cbn [rstrip_by]. by rewrite IH.
Qed.

Lemma rstrip_length_eq p s : String.length (rstrip_by p s) = String.length s -> rstrip_by p s = s.
Proof.
  induction s as [|c s IH]; [done|]. cbn [rstrip_by].
  pose proof (length_rstrip p s) as Hl.
  destruct (rstrip_by p s) as [|a r].
  - destruct (p c); simpl in *; [done|]. intros [= H]. by destruct s.
  - intros [= H]. rewrite IH; [done|]. simpl in *. lia.
Qed.

Lemma strip_fixed s : strip s = s -> rstrip_by isspace_char s = s.
Proof.
  intros Hs. apply rstrip_length_eq.
  pose proof (length_rstrip isspace_char s).
  pose proof (length_lstrip isspace_char (rstrip_by isspace_char s)).
  unfold strip in Hs. rewrite Hs in *. lia.
Qed.

Lemma length_app_string s t : String.length (s +:+ t) = (String.length s + String.length t)%nat.
Proof. induction s as [|c s IH]; simpl; [done|]. by f_equal. Qed.

Lemma app_string_inj u s t : u +:+ s = u +:+ t -> s = t.
Proof. induction u as [|c u IH]; [done|]. intros [= H]. by apply IH. Qed.

Lemma rstrip_suffix p u t :
  rstrip_by p (u +:+ t) = u +:+ t -> t <> "" -> rstrip_by p t = t.
Proof.
  intros H Ht. destruct (rstrip_by p t) eqn:E.
  - rewrite rstrip_app_nil in H by done. pose proof (length_rstrip p u) as Hl.
    rewrite H, length_app_string in Hl. destruct t; [done|]. simpl in Hl. lia.
  - rewrite <- E. rewrite rstrip_app in H by by rewrite E. by apply app_string_inj in H.
Qed.

Lemma join_split c s : join (String c "") (split c s) = s.
Proof.
  induction s as [|a s IH]; [done|]. cbn [split]. destruct (Ascii.eqb_spec a c) as [->|].
  - pose proof (split_nonempty c s). destruct (split c s) as [|w ws]; [done|].
    change (join (String c "") ("" :: w :: ws)) with (String c (join (String c "") (w :: ws))).
    by rewrite IH.
  - pose proof (split_nonempty c s). destruct (split c s) as [|w [|w' ws]]; [done| |].
    + simpl in *. by rewrite IH.
    + change (join (String c "") (String a w :: w' :: ws))
        with (String a (w +:+ (String c "" +:+ join (String c "") (w' :: ws)))).
      f_equal. exact IH.
Qed.

(** Characters of the text of an address, its scope id apart. *)
Definition ip_char (c : ascii) : bool :=
  hex_char_ok c || Ascii.eqb c ":" || Ascii.eqb c "." || Ascii.eqb c "/" || Ascii.eqb c "%".

Lemma ip_char_facts c : ip_char c = true -> isprintable_char c = true /\ negb (isspace_char c) = true.
Proof. destruct c as [[] [] [] [] [] [] [] []]; vm_compute; naive_solver. Qed.

Lemma digit_ip_char c : digit_char c = true -> ip_char c = true.
Proof. destruct c as [[] [] [] [] [] [] [] []]; vm_compute; naive_solver. Qed.

Lemma ipv4_str_chars n : str_forall ip_char (ipv4_str n) = true.
Proof.
  apply str_forall_join; [done|]. cbn [map].
  repeat constructor; (eapply str_forall_impl; [exact digit_ip_char | apply octet_digits, octet_range]).
Qed.

Lemma ipv6_int_str_chars n : str_forall ip_char (ipv6_int_str n) = true.
Proof.
  unfold ipv6_int_str. case_match.
  - rewrite str_forall_app, ipv4_str_chars. done.
  - apply str_forall_join; [done|]. apply compress_Forall; [done|]. apply Forall_map.
    eapply Forall_impl; [apply hextets_of_range|]. intros h Hh.
    pose proof (hextet_ok_all h Hh) as Hok. unfold hextet_ok in Hok. split_bool.
    eapply str_forall_impl; [|eassumption]. intros c Hc. unfold ip_char. by rewrite Hc.
Qed.

Definition plain_text (s : string) : Prop := str_forall ip_char s = true.

Lemma plain_printable s : plain_text s -> isprintable s = true.
Proof. apply str_forall_impl. by intros c [? _]%ip_char_facts. Qed.

Lemma plain_no_space s : plain_text s -> str_forall (fun c => negb (isspace_char c)) s = true.
Proof. apply str_forall_impl. by intros c [_ ?]%ip_char_facts. Qed.

Lemma lstrip_plain u t : plain_text u -> u <> "" -> lstrip_by isspace_char (u +:+ t) = u +:+ t.
Proof.
  intros Hu Hne. apply plain_no_space in Hu. destruct u as [|c u]; [done|].
  simpl in Hu. apply andb_true_iff in Hu as [Hc _]. apply negb_true_iff in Hc.
  change (String c u +:+ t) with (String c (u +:+ t)). cbn [lstrip_by]. by rewrite Hc.
Qed.

Lemma isprintable_app s t : isprintable (s +:+ t) = isprintable s && isprintable t.
Proof. apply str_forall_app. Qed.

Lemma ipv6_int_str_ne n : ipv6_int_str n <> "".
Proof. intros H. pose proof (ipv6_int_str_colon n) as Hc. by rewrite H in Hc. Qed.

(** The scope id of a parsed address is a suffix of the parsed text. *)
Lemma ipv6_scope s n sc :
  ipv6_of_string s = Some (IPv6 n (Some sc)) -> exists w, s = w +:+ String "%" sc.
Proof.
  unfold ipv6_of_string. destruct (str_exists _ _); [done|].
  destruct (split_scope s) as [[w o]|] eqn:E; [|done]. cbn [mbind option_bind].
  destruct (ipv6_int_of_string w); [|done]. intros [= _ ->]. unfold split_scope in E.
  pose proof (join_split "%" s) as Hj.
  destruct (split "%" s) as [|u [|v [|]]]; try done.
  destruct (String.eqb v ""); [done|]. injection E as -> ->. exists w. by rewrite <- Hj.
Qed.

Lemma ip_scope s n sc :
  ip_address s = Some (IPv6 n (Some sc)) -> exists w, s = w +:+ String "%" sc.
Proof. unfold ip_address. destruct (ipv4_of_string s); [done|]. apply ipv6_scope. Qed.

Lemma printable_scope w sc : isprintable (w +:+ String "%" sc) = true -> isprintable sc = true.
Proof. rewrite isprintable_app. intros [_ H]%andb_true_iff. exact H. Qed.

Lemma ip_str_printable s a : isprintable s = true -> ip_address s = Some a -> isprintable (ip_str a) = true.
Proof.
  intros Hs Ha. destruct a as [n|n [sc|]]; cbn [ip_str].
  - apply plain_printable, ipv4_str_chars.
  - apply ip_scope in Ha as [w ->]. apply printable_scope in Hs.
    rewrite !isprintable_app, Hs, (plain_printable (ipv6_int_str n)) by apply ipv6_int_str_chars. done.
  - apply plain_printable, ipv6_int_str_chars.
Qed.

Lemma ip_str_strip s a : strip s = s -> ip_address s = Some a -> ip_wf a -> strip (ip_str a) = ip_str a.
Proof.
  intros Hs Ha Hwf. destruct a as [n|n [sc|]]; cbn [ip_str].
  - apply strip_no_space, plain_no_space, ipv4_str_chars.
  - apply ip_scope in Ha as [w ->]. apply strip_fixed in Hs.
    apply rstrip_suffix in Hs; [|done]. change ("%" +:+ sc) with (String "%" sc).
    unfold strip. rewrite rstrip_app, Hs by by rewrite Hs.
    apply lstrip_plain; [apply ipv6_int_str_chars | apply ipv6_int_str_ne].
  - apply strip_no_space, plain_no_space, ipv6_int_str_chars.
Qed.

(** The text of an address begins with plain characters. *)
Lemma ip_str_head a : exists u t, ip_str a = u +:+ t /\ plain_text u /\ u <> "".
Proof.
  destruct a as [n|n [sc|]]; cbn [ip_str].
  - exists (ipv4_str n), "". split; [by rewrite string_app_nil_r|].
    split; [apply ipv4_str_chars|]. intros H. pose proof (f_equal (str_exists (Ascii.eqb ".")) H) as He.
    unfold ipv4_str in He. cbn [map join] in He. rewrite !str_exists_app in He. cbn in He.
    by rewrite !orb_true_r in He.
  - exists (ipv6_int_str n), ("%" +:+ sc). split; [done|].
    split; [apply ipv6_int_str_chars | apply ipv6_int_str_ne].
  - exists (ipv6_int_str n), "". split; [by rewrite string_app_nil_r|].
    split; [apply ipv6_int_str_chars | apply ipv6_int_str_ne].
Qed.

Lemma plen_plain p : 0 <= p <= 128 -> plain_text (str_of_Z p).
Proof.
  intros H. pose proof (plen_ok_all p H) as Hok. unfold plen_ok in Hok. split_bool.
  eapply str_forall_impl; [exact digit_ip_char | done].
Qed.

Lemma net_wf_plen net : net_wf net -> 0 <= net_plen net <= 128.
Proof. destruct net as [[n|n sc] p]; intros (_ & H & _); simpl in *; lia. Qed.

Lemma net_str_strip net : net_wf net -> strip (net_str net) = net_str net.
Proof.
  intros Hwf. pose proof (plen_plain _ (net_wf_plen _ Hwf)) as Hp. unfold net_str.
  change ("/" +:+ str_of_Z (net_plen net)) with (String "/" (str_of_Z (net_plen net))).
  assert (rstrip_by isspace_char (String "/" (str_of_Z (net_plen net)))
          = String "/" (str_of_Z (net_plen net))) as Hr.
  { apply strip_fixed, strip_no_space, plain_no_space. unfold plain_text. simpl. exact Hp. }
  unfold strip. rewrite rstrip_app, Hr by by rewrite Hr.
  destruct (ip_str_head (net_addr net)) as (u & t & -> & Hu & Hne).
  rewrite string_app_assoc. by apply lstrip_plain.
Qed.

Lemma net_str_printable s net :
  isprintable s = true -> ip_network s = Some net -> isprintable (net_str net) = true.
Proof.
  intros Hs Hn. pose proof (net_wf_plen _ (net_parse_wf _ _ Hn)) as Hp.
  apply plen_plain, plain_printable in Hp.
  unfold net_str. rewrite !isprintable_app, Hp, andb_true_r. cbn [isprintable str_forall].
  assert (isprintable (ip_str (net_addr net)) = true) as ->; [|done].
  assert (H6 : forall w, isprintable w = true ->
    forall m, ipv6_network w m = Some net -> isprintable (ip_str (net_addr net)) = true).
  { intros w Hw m. unfold ipv6_network. destruct (ipv6_of_string w) as [a|] eqn:Ea; [|done].
    cbn [mbind option_bind]. destruct (match m with None => _ | _ => _ end) as [p|]; [|done].
    intros [= <-]. cbn [net_addr]. case_match; cbn [ip_str].
    - destruct a as [n|n [sc|]]; cbn [ip_str].
      + apply plain_printable, ipv4_str_chars.
      + apply ipv6_scope in Ea as [v ->]. apply printable_scope in Hw.
        rewrite !isprintable_app, Hw, (plain_printable (ipv6_int_str n)) by apply ipv6_int_str_chars.
        done.
      + apply plain_printable, ipv6_int_str_chars.
    - apply plain_printable, ipv6_int_str_chars. }
  assert (H4 : forall w m, ipv4_network w m = Some net -> isprintable (ip_str (net_addr net)) = true).
  { intros w m. unfold ipv4_network. destruct (ipv4_of_string w) as [n|]; [|done].
    cbn [mbind option_bind]. destruct (match m with None => _ | _ => _ end) as [p|]; [|done].
    intros [= <-]. apply plain_printable, ipv4_str_chars. }
  apply (split_forall _ "/") in Hs. unfold ip_network in Hn.
  destruct (split "/" s) as [|w [|m [|]]]; try done; apply Forall_cons in Hs as [Hw _].
  - destruct (ipv4_network w None) eqn:E; [injection Hn as ->|]; eauto.
  - destruct (ipv4_network w (Some m)) eqn:E; [injection Hn as ->|]; eauto.
Qed.
