(* ===== verification/NormalizeProps.v ===== *)
(** * Normalisation of rules

    [normalize] produces exactly the dictionaries of the typed rules of
    [RuleSpec], and such a dictionary is a fixed point of it. *)
From S2P Require Import Prelude PyVal PyStr IpAddr NetworkRules RuleSpec RuleTexts.

(** ** Small inversions *)

Lemma in_strs_In l v : in_strs l v = true <-> exists s, v = VStr s /\ In s l.
Proof.
  destruct v; simpl; split; try done; try (by intros (? & ? & ?)).
  - intros (t & Ht & ->%String.eqb_eq)%existsb_exists. eauto.
  - intros (t & [= ->] & Ht). apply existsb_exists. exists t. by rewrite String.eqb_refl.
Qed.

Lemma choice_Ok l v m s : choice l v m = Ok s <-> v = VStr s /\ In s l.
Proof.
  unfold choice. destruct (in_strs l v) eqn:E.
  - apply in_strs_In in E as (t & -> & Ht). simpl. split; [by intros [= ->] | by intros [[= ->] _]].
  - split; [done|]. intros [-> Hs]. exfalso.
    assert (in_strs l (VStr s) = true) by (apply in_strs_In; eauto). congruence.
Qed.

Lemma is_bool_eq v : is_bool v = true <-> exists b, v = VBool b.
Proof. destruct v; simpl; split; try done; try (by intros []); eauto. Qed.

Lemma dedup_cases l :
  Forall (fun s => s = "tcp" \/ s = "udp") l ->
  dedup_strs l = match l with [] => [] | _ => dedup_strs l end
  /\ In (dedup_strs l) [[]; ["tcp"]; ["udp"]; ["tcp"; "udp"]; ["udp"; "tcp"]].
Proof.
  intros H. split; [by destruct l|]. induction H as [|s l Hs Hl IH]; simpl; [by left|].
  destruct Hs as [-> | ->];
    repeat destruct IH as [IH|IH]; try done; unfold dedup_strs in *; rewrite <- IH; vm_compute; tauto.
Qed.

Lemma dedup_nonempty s l : dedup_strs (s :: l) <> [].
Proof.
  unfold dedup_strs. cbn [fold_right]. fold (dedup_strs l).
  destruct (dedup_strs l); simpl; [done|]. by case_match.
Qed.

Lemma protocols_ok_wf v ps : protocols_ok v = Ok ps -> protocols_wf (sorted_set ps).
Proof.
  unfold protocols_ok. destruct v as [| | | | |l|]; try done. destruct l as [|p l]; [done|].
  destruct (_ || _) eqn:E; [done|]. intros [= <-]. apply orb_false_iff in E as [E1 E2].
    change (existsb (fun p => negb (in_strs ["tcp"; "udp"; "any"] p)) (p :: l) = false) in E1.
  rewrite existsb_not_In in E1.
  assert (forall q, In q (p :: l) -> exists s, q = VStr s /\ In s ["tcp"; "udp"; "any"]) as Hq.
  { intros q Hin. apply E1, negb_false_iff in Hin. by apply in_strs_In in Hin. }
  destruct (existsb (is_str "any") (p :: l)) eqn:Ea.
  - apply negb_false_iff, Nat.eqb_eq in E2. destruct l; [|done].
    simpl in Ea. rewrite orb_false_r in Ea. apply is_str_eq in Ea as ->. by right; right; right.
  - rewrite existsb_not_In in Ea.
    assert (Forall (fun s => s = "tcp" \/ s = "udp") (map str_of (p :: l))) as Hf.
    { apply Forall_map, Forall_forall. intros q Hin%list_elem_of_In.
      destruct (Hq q Hin) as (s & -> & Hs). specialize (Ea _ Hin). simpl in *.
      destruct Hs as [<-|[<-|[<-|[]]]]; auto. done. }
    destruct (dedup_cases _ Hf) as [_ Hd]. pose proof (dedup_nonempty (str_of p) (map str_of l)) as Hne.
    unfold sorted_set. simpl map in Hd |- *. unfold protocols_wf.
    repeat destruct Hd as [Hd|Hd]; try done; rewrite <- Hd; vm_compute; tauto.
Qed.

Lemma protocols_stable ps :
  protocols_wf ps -> protocols_ok (VList (map VStr ps)) = Ok ps /\ sorted_set ps = ps.
Proof. intros [->|[->|[->| ->]]]; by vm_compute. Qed.

(** ** The common fields *)

Section normalize.
Context `{Host}.
Implicit Types (E : env) (value ex : dict) (c : common).

Definition eff_now E (current_time : val) : val := if is_none current_time then now E else current_time.
Definition eff_boot E (current_boot : val) : val := if is_none current_boot then boot E else current_boot.

(** [c] holds the common fields [normalize] computes for [value] and [ex]. *)
Record common_parts E value ex (ct cb : val) (uuid : string) (provider : string) c : Prop := {
  cp_provider : choice ["application"; "incoming"] (getd "provider" (VStr "application") value)
                  "Unknown rule provider." = Ok provider;
  cp_id : identifier_of value ex uuid = VStr (c_id c);
  cp_name : text (py_or (get "name" value) (VStr "Network rule")) 160 = Ok (c_name c);
  cp_description : text (getd "description" (VStr "") value) 500 = Ok (c_description c);
  cp_action : choice ["allow"; "deny"] (getd "action" (VStr "deny") value)
                "Choose Allow or Block." = Ok (c_action c);
  cp_enabled : getd "enabled" (VBool true) value = VBool (c_enabled c);
  cp_family : choice ["any"; "ipv4"; "ipv6"] (getd "family" (VStr "any") value)
                "Unsupported address family." = Ok (c_family c);
  cp_protocols : exists ps,
    protocols_ok (getd "protocols" (VList [VStr "tcp"; VStr "udp"]) value) = Ok ps
    /\ c_protocols c = sorted_set ps;
  cp_ports : port_ranges (getd "ports" (VList []) value) = Ok (c_ports c);
  cp_lifetime : choice ["permanent"; "boot"; "15m"; "1h"] (getd "lifetime" (VStr "permanent") value)
                  "Unsupported rule lifetime." = Ok (c_lifetime c);
  cp_created : c_created c = getd "created_at" (eff_now E ct) ex;
  cp_updated : c_updated c = eff_now E ct;
  cp_expires : expires_at (eff_now E ct) value ex (c_lifetime c) = Ok (c_expires c);
  cp_boot : c_boot c = boot_of (eff_boot E cb) value ex (c_lifetime c);
  cp_boot_known : String.eqb (c_lifetime c) "boot" && negb (truthy (eff_boot E cb))
                  && negb (truthy (get "boot_id" ex)) = false;
}.

Definition normalize_rest value (uid : Z) (provider : string) c : res dict :=
  if String.eqb provider "application"
  then normalize_application value uid (c_action c) (c_ports c) (common_dict provider c)
  else normalize_incoming value (c_family c) (c_protocols c) (c_ports c) (common_dict provider c).

Lemma number_ok_unit v u : number_ok v = Ok u -> stamp_wf v.
Proof. by destruct u. Qed.

Lemma common_stamps provider c :
  item "created_at" (common_dict provider c) = Ok (c_created c)
  /\ item "updated_at" (common_dict provider c) = Ok (c_updated c)
  /\ item "expires_at" (common_dict provider c) = Ok (c_expires c).
Proof. done. Qed.

(** The timestamp checks, and what they establish. *)
Definition stamps_wf c : Prop :=
  stamp_wf (c_created c) /\ stamp_wf (c_updated c)
  /\ (is_none (c_expires c) && negb (timed (c_lifetime c)) = true \/ stamp_wf (c_expires c)).

Lemma check_stamps_Ok provider c :
  (exists us, mapM_res (check_stamp (c_lifetime c) (common_dict provider c))
    ["created_at"; "updated_at"; "expires_at"] = Ok us) <-> stamps_wf c.
Proof.
  destruct (common_stamps provider c) as (H1 & H2 & H3).
  assert (forall k v, item k (common_dict provider c) = Ok v -> k <> "expires_at" ->
    check_stamp (c_lifetime c) (common_dict provider c) k = number_ok v) as Hk.
  { intros k v Hv Hne. unfold check_stamp. rewrite Hv. cbn [mbind res_bind].
    by rewrite (proj2 (String.eqb_neq k _) Hne), andb_false_r. }
  cbn [mapM_res]. rewrite (Hk _ _ H1), (Hk _ _ H2) by done.
  unfold check_stamp. rewrite H3. cbn [mbind res_bind String.eqb Ascii.eqb Bool.eqb].
  rewrite andb_true_r. unfold stamps_wf, stamp_wf. split.
  - intros [us Hs]. inv_ok. repeat match goal with u : unit |- _ => destruct u end.
    split; [done|]. split; [done|].
    destruct (_ && _); [by left | by right].
  - intros (-> & -> & [He | He]); cbn [mbind res_bind].
    + rewrite He. by eexists.
    + destruct (_ && _); rewrite ?He; cbn; eauto.
Qed.

(** [normalize] on a dictionary with known common fields. *)
Lemma normalize_eq E value auid uid ex ct cb uuid provider c :
  uid_ok auid = Ok uid -> common_parts E value ex ct cb uuid provider c ->
  identifier_ok (VStr (c_id c)) = true -> stamps_wf c ->
  normalize E (VDict value) auid ex ct cb uuid = normalize_rest value uid provider c.
Proof.
  intros Huid [] Hid Hst. unfold normalize. rewrite Huid. cbn [mbind res_bind].
  fold (eff_now E ct) (eff_boot E cb). cbv zeta.
  rewrite cp_provider0, cp_action0, cp_family0. cbn [mbind res_bind].
  destruct cp_protocols0 as (ps & -> & Hps). cbn [mbind res_bind].
  rewrite cp_lifetime0. cbn [mbind res_bind]. rewrite cp_boot_known0, cp_enabled0.
  cbn [negb require mbind res_bind is_bool]. rewrite cp_id0, Hid. cbn [require mbind res_bind].
  rewrite cp_name0, cp_description0, cp_ports0, cp_expires0. cbn [mbind res_bind].
  rewrite <- Hps, <- cp_created0, <- cp_updated0, <- cp_boot0.
  fold (common_dict provider c).
  destruct (proj2 (check_stamps_Ok provider c) Hst) as [us ->]. done.
Qed.

Lemma stamps_expires E value ex ct c :
  expires_at (eff_now E ct) value ex (c_lifetime c) = Ok (c_expires c) -> stamps_wf c ->
  if timed (c_lifetime c) then stamp_wf (c_expires c) else c_expires c = VNone.
Proof.
  unfold expires_at. intros He (_ & _ & Hs). destruct (timed (c_lifetime c)).
  - rewrite andb_false_r in Hs. by destruct Hs.
  - by injection He as <-.
Qed.

(** What a successful [normalize] has established. *)
Lemma normalize_inv E v auid ex ct cb uuid r :
  normalize E v auid ex ct cb uuid = Ok r ->
  exists value uid provider c,
    v = VDict value /\ uid_ok auid = Ok uid /\ common_parts E value ex ct cb uuid provider c
    /\ common_wf c /\ stamps_wf c /\ normalize_rest value uid provider c = Ok r.
Proof.
  unfold normalize. destruct v as [| | | | | |value]; try done.
  fold (eff_now E ct) (eff_boot E cb). cbv zeta. intros Hr.
  apply bind_Ok in Hr as (uid & Huid & Hr).
  apply bind_Ok in Hr as (provider & Hprov & Hr).
  apply bind_Ok in Hr as (action & Hact & Hr).
  apply bind_Ok in Hr as (family & Hfam & Hr).
  apply bind_Ok in Hr as (ps & Hps & Hr).
  apply bind_Ok in Hr as (lifetime & Hlife & Hr).
  apply bind_Ok in Hr as (? & Hboot%require_Ok & Hr).
  apply bind_Ok in Hr as (? & (enabled & Hen)%require_Ok%is_bool_eq & Hr).
  apply bind_Ok in Hr as (? & Hid%require_Ok & Hr).
  apply bind_Ok in Hr as (name & Hname & Hr).
  apply bind_Ok in Hr as (descr & Hdescr & Hr).
  apply bind_Ok in Hr as (ports & Hports & Hr).
  apply bind_Ok in Hr as (expires & Hexp & Hr).
  apply bind_Ok in Hr as (us & Hst & Hr).
  assert (exists i, identifier_of value ex uuid = VStr i) as [i Hi].
  { destruct (identifier_of value ex uuid); try done. eauto. }
  set (c := Common i name descr action enabled family (sorted_set ps) ports lifetime
    (getd "created_at" (eff_now E ct) ex) (eff_now E ct) expires
    (boot_of (eff_boot E cb) value ex lifetime)).
  rewrite Hi in Hid, Hst, Hr. rewrite Hen in Hst, Hr.
  change (dlit _) with (common_dict provider c) in Hst, Hr.
  assert (stamps_wf c) as Hstamps by (apply (check_stamps_Ok provider); by exists us).
  apply negb_true_iff in Hboot.
  assert (common_parts E value ex ct cb uuid provider c) as Hc by (constructor; try done; eauto).
  exists value, uid, provider, c. repeat (split; [done|]). split; [|by split].
  repeat match goal with H : choice _ _ _ = Ok _ |- _ => apply choice_Ok in H as [_ H] end.
  split; [done|]. split; [by eapply text_stable|]. split; [by eapply text_stable|].
  split; [done|]. split; [done|]. split; [by eapply protocols_ok_wf|].
  split; [by eapply port_ranges_wf|]. split; [done|].
  destruct (Hstamps) as (? & ? & _). split; [done|]. split; [done|].
  split; [by eapply stamps_expires|].
  intros Hne. cbn. unfold boot_of. cbn in Hne. by destruct (String.eqb_spec lifetime "boot").
Qed.

(** ** Destinations *)

Lemma dest_py_eq d d' : py_eq (dest_val d) (dest_val d') = true <-> dest_val d = dest_val d'.
Proof.
  unfold dest_val. cbn -[String.eqb]. rewrite !String.eqb_refl, andb_true_r. cbn [andb].
  rewrite andb_true_iff, !String.eqb_eq. split; [intros [-> ->]; done | intros [= -> ->]; done].
Qed.

Lemma dest_in_acc d ds :
  existsb (py_eq (dest_val d)) (map dest_val ds) = true <-> In (dest_val d) (map dest_val ds).
Proof.
  rewrite existsb_In. split.
  - intros (x & (d' & <- & Hd')%in_map_iff & Hx%dest_py_eq). rewrite Hx. by apply in_map.
  - intros Hin. exists (dest_val d). split; [done|]. by apply dest_py_eq.
Qed.

Definition push_dest (acc : list val) (d : dest) : list val :=
  if existsb (py_eq (dest_val d)) acc then acc else acc ++ [dest_val d].

Lemma destination_address_Ok kind s addr :
  stable_text 253 s -> destination_address kind s = Ok addr ->
  exists d, dest_wf d /\ kind = VStr (dest_kind d) /\ addr = dest_value d.
Proof.
  intros (_ & Hp & Hs). unfold destination_address.
  destruct (in_strs _ kind) eqn:E1.
  - apply in_strs_In in E1 as (k & -> & Hk). intros Hh%host_name_wf.
    destruct Hk as [<-|[<-|[]]]; [exists (DHost addr) | exists (DDomain addr)]; done.
  - destruct (is_str "ip" kind) eqn:E2.
    { apply is_str_eq in E2 as ->. destruct (ip_address s) as [a|] eqn:Ea; [|done].
      intros [= <-]. exists (DIp a). split; [|done]. cbn. pose proof (ip_address_wf _ _ Ea).
      split; [done|]. split; [by eapply ip_str_printable | by eapply ip_str_strip]. }
    destruct (is_str "network" kind) eqn:E3; [|done].
    apply is_str_eq in E3 as ->. destruct (ip_network s) as [n|] eqn:En; [|done].
    intros [= <-]. exists (DNet n). split; [|done]. cbn. pose proof (net_parse_wf _ _ En).
    split; [done|]. split; [by eapply net_str_printable | by apply net_str_strip].
Qed.

Lemma add_destination_Ok acc v acc' :
  add_destination acc v = Ok acc' -> exists d, dest_wf d /\ acc' = push_dest acc d.
Proof.
  unfold add_destination. destruct v as [| | | | | |v]; try done. intros Ha.
  apply bind_Ok in Ha as (s & Hs%text_stable & Ha). apply bind_Ok in Ha as (addr & Haddr & Ha).
  apply try_with_Ok in Haddr as [Haddr | (e & _ & _ & Haddr)]; [|done].
  apply destination_address_Ok in Haddr as (d & Hd & Hk & ->); [|done].
  injection Ha as <-. exists d. split; [done|]. by rewrite Hk.
Qed.

Lemma add_destinations_Ok l acc ds :
  Forall dest_wf ds -> NoDup (map dest_val ds) ->
  foldM add_destination (map dest_val ds) l = Ok acc ->
  exists ds', acc = map dest_val ds' /\ Forall dest_wf ds' /\ NoDup (map dest_val ds')
              /\ (length ds' <= length ds + length l)%nat.
Proof.
  revert ds; induction l as [|v l IH]; intros ds Hwf Hnd; simpl.
  - intros [= <-]. exists ds. repeat (split; [done|]). lia.
  - intros Hf. apply bind_Ok in Hf as (acc' & Ha & Hf).
    apply add_destination_Ok in Ha as (d & Hd & ->). unfold push_dest in Hf.
    destruct (existsb _ _) eqn:E.
    + destruct (IH ds Hwf Hnd Hf) as (ds' & ? & ? & ? & ?). exists ds'.
      repeat (split; [done|]). lia.
    + replace (map dest_val ds ++ [dest_val d]) with (map dest_val (ds ++ [d])) in Hf
        by by rewrite map_app.
      apply IH in Hf as (ds' & ? & ? & ? & Hl).
      * exists ds'. repeat (split; [done|]). rewrite length_app in Hl. simpl in Hl. lia.
      * apply Forall_app_2; [done | by constructor].
      * rewrite map_app. apply NoDup_app. split; [done|]. split; [|simpl; apply NoDup_singleton].
        intros x Hx ->%list_elem_of_singleton. apply list_elem_of_In, dest_in_acc in Hx. congruence.
Qed.

Lemma destinations_of_Ok value acc :
  destinations_of value = Ok acc ->
  exists ds, acc = map dest_val ds /\ Forall dest_wf ds /\ NoDup (map dest_val ds)
             /\ (length ds <= 32)%nat.
Proof.
  unfold destinations_of. destruct (getd _ _ _) as [| | | | |l|]; try done.
  destruct (32 <? _) eqn:E; [done|]. zify_bool. intros Hf.
  apply (add_destinations_Ok l acc []) in Hf as (ds & ? & ? & ? & Hl);
    [|by constructor..]. exists ds. repeat (split; [done|]). simpl in Hl. lia.
Qed.

(** A destination whose text fits the request limit is stored unchanged. *)
Lemma add_destination_stable acc d :
  dest_wf d -> dest_fits d -> add_destination acc (dest_val d) = Ok (push_dest acc d).
Proof.
  intros Hwf Hfit. unfold add_destination, dest_val.
  change (get "value" _) with (VStr (dest_value d)). change (get "kind" _) with (VStr (dest_kind d)).
  assert (stable_text 253 (dest_value d)) as Hst.
  { destruct d; cbn in *; [by apply host_wf_stable..| |]; split; try done; tauto. }
  rewrite stable_text_Ok by done. cbn [mbind res_bind].
  assert (destination_address (VStr (dest_kind d)) (dest_value d) = Ok (dest_value d)) as ->; [|done].
  destruct d as [h|h|a|n]; unfold destination_address; cbn -[host_name ip_address ip_network].
  - by rewrite host_name_stable.
  - by rewrite host_name_stable.
  - by rewrite ip_address_str by apply Hwf.
  - by rewrite ip_network_str by apply Hwf.
Qed.

Lemma add_destinations_stable ds k :
  Forall dest_wf ds -> Forall dest_fits ds -> NoDup (map dest_val (k ++ ds)) ->
  foldM add_destination (map dest_val k) (map dest_val ds) = Ok (map dest_val (k ++ ds)).
Proof.
  intros Hwf. revert k. induction Hwf as [|d ds Hd Hds IH]; intros k Hf Hnd; cbn [map foldM].
  - by rewrite app_nil_r.
  - apply Forall_cons in Hf as [Hfd Hf]. rewrite add_destination_stable by done. cbn [mbind res_bind].
    unfold push_dest. destruct (existsb _ _) eqn:E.
    + apply dest_in_acc in E. exfalso. rewrite map_app in Hnd. apply NoDup_app in Hnd as (_ & Hnd & _).
      apply (Hnd (dest_val d)); [by apply list_elem_of_In | by left].
    + replace (map dest_val k ++ [dest_val d]) with (map dest_val (k ++ [d])) by by rewrite map_app.
      rewrite IH; rewrite <- ?app_assoc; done.
Qed.

(** ** The two branches *)

Lemma forallb_dns ports :
  forallb (fun r => (r.1 =? r.2) && ((r.1 =? 53) || (r.1 =? 853))) ports = true <->
  Forall (fun r => r = (53, 53) \/ r = (853, 853)) ports.
Proof.
  rewrite forallb_forall, Forall_forall. setoid_rewrite list_elem_of_In.
  split; intros Hf [a b] Hin; specialize (Hf _ Hin); simpl in *.
  - apply andb_true_iff in Hf as [Hab Hf]. apply orb_true_iff in Hf. zify_bool. subst.
    destruct Hf as [Hf|Hf]; zify_bool; subst; tauto.
  - by destruct Hf as [[= -> ->]|[= -> ->]].
Qed.

Lemma dns_ok_spec action path ports :
  dns_ok action path ports = true <-> action = "allow" /\ path <> "*" /\ dns_ports_only ports.
Proof.
  unfold dns_ok, dns_ports_only.
  rewrite !andb_true_iff, forallb_dns, String.eqb_eq, negb_true_iff, String.eqb_neq.
  destruct ports; split; naive_solver.
Qed.

Lemma path_ok_spec path all :
  stable_text 4096 path ->
  negb ((negb (startswith "/" path) && negb (String.eqb path "*" && all))
        || existsb (String.eqb "..") (split "/" path) || startswith "/app/" path) = true <->
  path_wf path /\ (startswith "/" path = true \/ all = true).
Proof.
  intros Hst. unfold path_wf. rewrite negb_true_iff, !orb_false_iff, andb_false_iff, !negb_false_iff.
  rewrite andb_true_iff, String.eqb_eq. tauto.
Qed.

(** The items of an application rule, by the value they were read from. *)
Record app_parts value (uid : Z) c (ar : app_rule) : Prop := {
  ap_common : a_common ar = c;
  ap_path : text (getd "path" (VStr "") value) 4096 = Ok (a_path ar);
  ap_all : startswith "/" (a_path ar) = true \/ is_true (get "all_applications" value) = true;
  ap_scope : match a_uid ar with
             | Some u => u = uid /\ getd "scope" (VStr "user") value = VStr "user"
             | None => getd "scope" (VStr "user") value = VStr "system"
             end;
  ap_host : match a_required_host ar with
            | Some h => truthy (get "required_host" value) = true
                        /\ host_name (get "required_host" value) = Ok h
            | None => truthy (get "required_host" value) = false
            end;
  ap_dests : destinations_of value = Ok (map dest_val (a_destinations ar));
  ap_dns : truthy (get "dns_exception" value) = a_dns_exception ar;
}.

Lemma normalize_application_inv value uid auid c r :
  uid_ok auid = Ok uid -> common_wf c ->
  normalize_application value uid (c_action c) (c_ports c) (common_dict "application" c) = Ok r ->
  exists ar, app_parts value uid c ar /\ app_wf ar /\ r = app_dict ar.
Proof.
  intros Huid Hc Hr. unfold normalize_application in Hr. cbv zeta in Hr.
  apply bind_Ok in Hr as (path & Hpath & Hr).
  apply bind_Ok in Hr as (? & Hp%require_Ok & Hr).
  apply path_ok_spec in Hp as [Hpw Hall]; [|by eapply text_stable].
  apply bind_Ok in Hr as (? & Hscope%require_Ok & Hr).
  apply bind_Ok in Hr as (result1 & Hhost & Hr).
  apply bind_Ok in Hr as (dsv & Hds & Hr).
  destruct (destinations_of_Ok _ _ Hds) as (ds & -> & Hdw & Hdn & Hdl).
  apply in_strs_In in Hscope as (scope & Hscope & Hin).
  assert (exists u, match u with
    | Some u => u = uid /\ scope = "user" | None => scope = "system" end) as [u Hu].
  { destruct Hin as [<-|[<-|[]]]; [by exists (Some uid) | by exists None]. }
  assert (exists h, match h with
    | Some h => truthy (get "required_host" value) = true /\ host_name (get "required_host" value) = Ok h
    | None => truthy (get "required_host" value) = false end
    /\ result1 = (opt_item "required_host" (option_map VStr h)
        (opt_item "all_applications" (if String.eqb path "*" then Some (VBool true) else None)
          (dupdate (common_dict "application" c)
            [("path", VStr path); ("uid", if is_str "system" (VStr scope) then VNone else VInt uid);
             ("scope", VStr scope); ("destinations", VList [])])))) as (h & Hh & Hres).
  { rewrite Hscope in Hhost. destruct (truthy (get "required_host" value)) eqn:Et.
    - apply bind_Ok in Hhost as (h & Hh & Hhost). exists (Some h). split; [done|].
      assert (forall a b : dict, Ok a = Ok b -> b = a) as Hinj by congruence. apply Hinj in Hhost as ->.
      by destruct (String.eqb path "*").
    - assert (forall a b : dict, Ok a = Ok b -> b = a) as Hinj by congruence.
      apply Hinj in Hhost as ->. exists None. split; [done|]. by destruct (String.eqb path "*"). }
  subst result1.
  set (dns := truthy (get "dns_exception" value)) in *.
  exists (AppRule c path u ds h dns).
  assert (dns = true -> c_action c = "allow" /\ path <> "*" /\ dns_ports_only (c_ports c)) as Hdns.
  { intros Hd. rewrite Hd in Hr. apply bind_Ok in Hr as (? & Hok%require_Ok & _).
    by apply dns_ok_spec. }
  assert (r = app_dict (AppRule c path u ds h dns)) as Heq.
  { assert (dset "destinations" (VList (map dest_val ds))
       (opt_item "required_host" (option_map VStr h)
        (opt_item "all_applications" (if String.eqb path "*" then Some (VBool true) else None)
          (dupdate (common_dict "application" c)
            [("path", VStr path); ("uid", if is_str "system" (VStr scope) then VNone else VInt uid);
             ("scope", VStr scope); ("destinations", VList [])])))
       = app_dict (AppRule c path u ds h false)) as Hd.
    { unfold app_dict. cbn [a_common a_path a_uid a_destinations a_required_host a_dns_exception].
      destruct u; [destruct Hu as [-> ->] | subst scope]; done. }
    rewrite Hd in Hr. destruct dns.
    - by apply bind_Ok in Hr as (? & _ & [= <-]).
    - by injection Hr as <-. }
  split; [|split; [|done]].
  - constructor; try done. destruct u; [destruct Hu as [-> ->] | subst scope]; done.
  - repeat (split; [done|]). cbn. split.
    { destruct u; [|done]. destruct Hu as [-> _]. unfold uid_ok in Huid.
      destruct auid; try done. destruct (_ && _) eqn:Eu; [|done]. injection Huid as ->.
      apply andb_true_iff in Eu as [? ?]. zify_bool. lia. }
    repeat (split; [done|]). split; [|done]. destruct h; [|done]. by eapply host_name_wf, Hh.
Qed.

(** Lookups in the dictionary of an application rule. *)
Ltac dict_cases r :=
  destruct r as [[] path uid ds rh dns]; unfold app_dict; cbn [a_path a_required_host a_dns_exception
    a_uid a_destinations a_common];
  destruct (String.eqb path "*"); destruct rh; destruct dns; reflexivity.

Lemma app_dict_common k ar :
  In k ["id"; "provider"; "name"; "description"; "action"; "enabled"; "family"; "protocols"; "ports";
        "lifetime"; "created_at"; "updated_at"; "expires_at"; "boot_id"; "renew"; "tier"] ->
  dget k (app_dict ar) = dget k (common_dict "application" (a_common ar)).
Proof. intros Hk. repeat destruct Hk as [<-|Hk]; [dict_cases ar..|done]. Qed.

Lemma app_dict_path ar : dget "path" (app_dict ar) = Some (VStr (a_path ar)).
Proof. dict_cases ar. Qed.
Lemma app_dict_uid ar :
  dget "uid" (app_dict ar) = Some (match a_uid ar with Some u => VInt u | None => VNone end).
Proof. dict_cases ar. Qed.
Lemma app_dict_scope ar :
  dget "scope" (app_dict ar) = Some (VStr (match a_uid ar with Some _ => "user" | None => "system" end)).
Proof. dict_cases ar. Qed.
Lemma app_dict_destinations ar :
  dget "destinations" (app_dict ar) = Some (VList (map dest_val (a_destinations ar))).
Proof. dict_cases ar. Qed.
Lemma app_dict_required_host ar :
  dget "required_host" (app_dict ar) = option_map VStr (a_required_host ar).
Proof. dict_cases ar. Qed.
Lemma app_dict_all ar :
  dget "all_applications" (app_dict ar) = if String.eqb (a_path ar) "*" then Some (VBool true) else None.
Proof. dict_cases ar. Qed.
Lemma app_dict_dns ar :
  dget "dns_exception" (app_dict ar) = if a_dns_exception ar then Some (VBool true) else None.
Proof. dict_cases ar. Qed.

Lemma normalize_application_stable ar uid :
  app_wf ar -> app_fits ar -> match a_uid ar with Some u => uid = u | None => True end ->
  let c := a_common ar in
  normalize_application (app_dict ar) uid (c_action c) (c_ports c) (common_dict "application" c)
  = Ok (app_dict ar).
Proof.
  intros (Hc & Hp & Hu & Hdw & Hdn & Hdl & Hh & Hdns) [Hfd Hfh] Huid c.
  unfold normalize_application, get, getd.
  rewrite app_dict_path, app_dict_scope, app_dict_required_host, app_dict_dns, app_dict_all.
  rewrite stable_text_Ok by apply Hp. cbn [mbind res_bind].
  rewrite (proj2 (path_ok_spec (a_path ar) _ (proj1 Hp))).
  2: { split; [done|]. destruct Hp as (_ & [Hp|Hp] & _); [by left|right]. by rewrite Hp. }
  cbn [require mbind res_bind].
  assert (in_strs ["user"; "system"]
    (VStr (match a_uid ar with Some _ => "user" | None => "system" end)) = true) as ->
    by by destruct (a_uid ar).
  cbn [require mbind res_bind].
  unfold destinations_of, getd. rewrite app_dict_destinations. rewrite length_map.
  rewrite (proj2 (Z.ltb_ge _ _)) by lia.
  pose proof (add_destinations_stable (a_destinations ar) [] Hdw Hfd Hdn) as Hds.
  change (map dest_val []) with (@nil val) in Hds. rewrite Hds. cbn [mbind res_bind app].
  rewrite <- dns_ok_spec in Hdns. subst c.
  destruct ar as [c path u ds rh dns].
  cbn [a_common a_path a_uid a_destinations a_required_host a_dns_exception] in *.
  destruct rh as [h|]; cbn [option_map truthy].
  - rewrite (proj2 (String.eqb_neq h "") (proj1 Hh)). cbn [negb].
    rewrite host_name_stable by done. cbn [mbind res_bind].
    destruct dns; cbn [truthy]; [rewrite (Hdns eq_refl)|];
      destruct (String.eqb path "*") eqn:Ep, u; subst; unfold app_dict; cbn; rewrite Ep; reflexivity.
  - destruct dns; cbn [truthy mbind res_bind]; [rewrite (Hdns eq_refl)|];
      destruct (String.eqb path "*") eqn:Ep, u; subst; unfold app_dict; cbn; rewrite Ep; reflexivity.
Qed.

Definition with_family c (f : string) : common :=
  Common (c_id c) (c_name c) (c_description c) (c_action c) (c_enabled c) f (c_protocols c)
    (c_ports c) (c_lifetime c) (c_created c) (c_updated c) (c_expires c) (c_boot c).

Lemma with_family_wf c f : In f ["any"; "ipv4"; "ipv6"] -> common_wf c -> common_wf (with_family c f).
Proof. intros Hf (? & ? & ? & ? & ? & ?). by repeat (split; [done|]). Qed.

Lemma with_family_same c : with_family c (c_family c) = c.
Proof. by destruct c. Qed.

Lemma family_of_In a : In (family_of a) ["any"; "ipv4"; "ipv6"].
Proof. destruct a; vm_compute; tauto. Qed.

Lemma protocols_any ps : protocols_wf ps -> existsb (String.eqb "any") ps = false <-> ps <> ["any"].
Proof. by intros [->|[->|[->| ->]]]; vm_compute. Qed.

Lemma stable_text_len v max s : text v max = Ok s -> str_len s <= max.
Proof. intros Ht. by apply text_stable in Ht as (? & _). Qed.

Lemma service_ports_spec service ports :
  service_ports_ok service ports = true <-> (service = "" <-> ports <> []).
Proof.
  unfold service_ports_ok. destruct (String.eqb_spec service ""), ports; simpl; split; try done.
  - intros Hx. by destruct (proj1 Hx).
  - intros Hx. exfalso. by apply n, Hx.
Qed.

Lemma normalize_incoming_inv value c r :
  common_wf c ->
  normalize_incoming value (c_family c) (c_protocols c) (c_ports c) (common_dict "incoming" c) = Ok r ->
  exists ir, in_wf ir /\ r = in_dict ir
    /\ i_common ir = match i_source ir with
                     | Some n => with_family c (family_of (net_addr n)) | None => c end.
Proof.
  intros Hc Hr. unfold normalize_incoming in Hr.
  apply bind_Ok in Hr as (? & Hany%require_Ok & Hr).
  apply bind_Ok in Hr as (zone & Hzone & Hr).
  apply bind_Ok in Hr as (service & Hserv & Hr).
  apply bind_Ok in Hr as (? & Hz%require_Ok & Hr).
  apply bind_Ok in Hr as (? & Hs%require_Ok & Hr).
  apply bind_Ok in Hr as (? & Hsp%require_Ok & Hr).
  apply bind_Ok in Hr as (? & Hproto%require_Ok & Hr).
  apply bind_Ok in Hr as (src & Hsrc & Hr).
  apply bind_Ok in Hr as ([source result] & Hres & Hr).
  apply service_ports_spec in Hsp. apply negb_true_iff, protocols_any in Hany; [|apply Hc].
  assert (service = "" \/ name_ok service = true) as Hs'.
  { apply orb_true_iff in Hs as [Hs|Hs]; [left; by apply String.eqb_eq | by right]. }
  assert (service <> "" -> c_protocols c = ["tcp"; "udp"]) as Hp.
  { intros Hne. apply orb_true_iff in Hproto as [Hx|Hx]; [by apply String.eqb_eq in Hx|].
    by apply bool_decide_eq_true in Hx. }
  assert (exists o, match o with
      | Some n => net_wf n /\ isprintable (net_str n) = true /\ strip (net_str n) = net_str n
                  /\ source = net_str n
                  /\ result = dset "family" (VStr (family_of (net_addr n))) (common_dict "incoming" c)
      | None => source = "" /\ result = common_dict "incoming" c end) as [o Ho].
  { destruct (String.eqb_spec src ""); [exists None; injection Hres as <- <-; done|].
    destruct (ip_network src) as [n'|] eqn:En; [|done]. exists (Some n').
    apply bind_Ok in Hres as (? & _ & Hres).
    assert (forall A B (a a' : A) (b b' : B), Ok (a, b) = Ok (a', b') -> a' = a /\ b' = b) as Hinj
      by (intros; split; congruence).
    apply Hinj in Hres as [-> ->].
    pose proof (text_stable _ _ _ Hsrc) as (_ & Hpr & _). pose proof (net_parse_wf _ _ En).
    split; [done|]. split; [by eapply net_str_printable|]. by split; [apply net_str_strip|]. }
  exists (InRule (match o with Some n => with_family c (family_of (net_addr n)) | None => c end)
                 zone service o).
  split; [|split; [|done]].
  - unfold in_wf. cbn [i_common i_zone i_service i_source].
    split; [destruct o; [apply with_family_wf; [apply family_of_In|done]|done]|].
    split; [by destruct o|]. split; [done|]. split; [by eapply stable_text_len|].
    split; [done|]. split; [by eapply stable_text_len|]. split; [by destruct o|].
    split; [by destruct o|]. destruct o; [|done]. naive_solver.
  - assert (forall a b : dict, Ok a = Ok b -> b = a) as Hinj by congruence.
    apply Hinj in Hr as ->. unfold in_dict. cbn [i_common i_zone i_service i_source].
    destruct o as [n|]; [destruct Ho as (_ & _ & _ & -> & ->) | destruct Ho as [-> ->]]; reflexivity.
Qed.

(** Lookups in the dictionary of an incoming rule. *)
Lemma in_dict_common k ir :
  In k ["id"; "provider"; "name"; "description"; "action"; "enabled"; "family"; "protocols"; "ports";
        "lifetime"; "created_at"; "updated_at"; "expires_at"; "boot_id"; "renew"; "tier"] ->
  dget k (in_dict ir) = dget k (common_dict "incoming" (i_common ir)).
Proof. intros Hk. repeat destruct Hk as [<-|Hk]; [reflexivity..|done]. Qed.

Lemma name_ok_stable max s : str_len s <= max -> name_ok s = true -> stable_text max s.
Proof.
  intros Hl Hn. unfold name_ok in Hn. apply andb_true_iff in Hn as [_ Hn].
  assert (forall ch, name_char ch = true -> isprintable_char ch = true /\ negb (isspace_char ch) = true)
    as Hc by (intros [[] [] [] [] [] [] [] []]; vm_compute; naive_solver).
  split; [done|]. split; [|apply strip_no_space]; (eapply str_forall_impl; [|exact Hn]);
    intros ch Hch; by apply Hc.
Qed.

Lemma net_str_ne n : net_str n <> "".
Proof.
  unfold net_str. destruct (ip_str_head (net_addr n)) as (u & t & -> & _ & Hu). by destruct u.
Qed.

Lemma normalize_incoming_stable ir :
  in_wf ir -> in_fits ir ->
  let c := i_common ir in
  normalize_incoming (in_dict ir) (c_family c) (c_protocols c) (c_ports c) (common_dict "incoming" c)
  = Ok (in_dict ir).
Proof.
  intros (Hc & Hany & Hz & Hzl & Hs & Hsl & Hsp & Hp & Hsrc) Hfit c. unfold normalize_incoming.
  rewrite (proj2 (protocols_any (c_protocols c) ltac:(apply Hc)) Hany).
  change (getd "zone" _ (in_dict ir)) with (VStr (i_zone ir)).
  change (getd "service" _ (in_dict ir)) with (VStr (i_service ir)).
  change (getd "source" _ (in_dict ir)) with
    (VStr (match i_source ir with Some n => net_str n | None => "" end)).
  cbn [negb require mbind res_bind].
  rewrite (stable_text_Ok _ (i_zone ir)) by by apply name_ok_stable.
  rewrite (stable_text_Ok _ (i_service ir)).
  2: { destruct Hs as [->|Hs]; [by vm_compute | by apply name_ok_stable]. }
  cbn [mbind res_bind]. rewrite Hz. cbn [require mbind res_bind].
  assert (String.eqb (i_service ir) "" || name_ok (i_service ir) = true) as ->.
  { destruct Hs as [->| ->]; [done|apply orb_true_r]. }
  rewrite (proj2 (service_ports_spec _ (c_ports c)) Hsp). cbn [require mbind res_bind].
  assert (String.eqb (i_service ir) "" || bool_decide (c_protocols c = ["tcp"; "udp"]) = true) as ->.
  { destruct (String.eqb_spec (i_service ir) ""); [done|]. simpl. by apply bool_decide_eq_true, Hp. }
  cbn [require mbind res_bind]. unfold in_fits in Hfit.
  destruct ir as [c' zone service [n|]]; cbn [i_common i_zone i_service i_source] in *; subst c.
  - destruct Hsrc as (Hn & Hpr & Hst & Hf). rewrite stable_text_Ok by by split.
    cbn [mbind res_bind]. rewrite (proj2 (String.eqb_neq _ _) (net_str_ne n)).
    rewrite ip_network_str by done. fold (family_of (net_addr n)). rewrite <- Hf.
    rewrite String.eqb_refl, orb_true_r. cbn [require mbind res_bind]. reflexivity.
  - reflexivity.
Qed.

(** ** Fixed points *)

Lemma common_parts_stable E d provider uuid c :
  In provider ["application"; "incoming"] ->
  (forall k, In k ["id"; "provider"; "name"; "description"; "action"; "enabled"; "family"; "protocols";
    "ports"; "lifetime"; "created_at"; "updated_at"; "expires_at"; "boot_id"; "renew"] ->
    dget k d = dget k (common_dict provider c)) ->
  common_wf c -> c_name c <> "" -> boot_known E c ->
  common_parts E d d (c_updated c) VNone uuid provider c.
Proof.
  intros Hprov Hget (Hid & Hn & Hdesc & Hact & Hfam & Hps & Hrs & Hlife & Hcr & Hup & Hexp & Hb) Hne Hboot.
  assert (forall k v, In k ["id"; "provider"; "name"; "description"; "action"; "enabled"; "family"; "protocols";
    "ports"; "lifetime"; "created_at"; "updated_at"; "expires_at"; "boot_id"; "renew"] ->
    getd k v d = getd k v (common_dict provider c)) as Hg.
  { intros k v Hk. unfold getd. by rewrite Hget. }
  assert (is_none (c_updated c) = false) as Hun.
  { destruct (c_updated c); done. }
  assert (Hidne : c_id c <> "") by (intros Hx; by rewrite Hx in Hid).
  constructor; unfold identifier_of, eff_now, eff_boot, expires_at, boot_of; unfold get;
    rewrite ?Hg by (simpl; tauto); rewrite ?Hun.
  - by apply choice_Ok.
  - change (getd "id" _ _) with (VStr (c_id c)). unfold py_or. cbn [truthy].
    rewrite (proj2 (String.eqb_neq _ _) Hidne). cbn [negb truthy].
    by rewrite (proj2 (String.eqb_neq _ _) Hidne).
  - change (getd "name" _ _) with (VStr (c_name c)). unfold py_or. cbn [truthy].
    rewrite (proj2 (String.eqb_neq _ _) Hne). by apply stable_text_Ok.
  - by apply stable_text_Ok.
  - by apply choice_Ok.
  - done.
  - by apply choice_Ok.
  - exists (c_protocols c). change (getd "protocols" _ _) with (VList (map VStr (c_protocols c))).
    by destruct (protocols_stable _ Hps) as [-> ->].
  - by apply port_ranges_val.
  - by apply choice_Ok.
  - done.
  - done.
  - change (getd "lifetime" _ _) with (VStr (c_lifetime c)).
    change (getd "renew" _ _) with (VBool false). change (getd "expires_at" _ _) with (c_expires c).
    change (getd "lifetime" VNone _) with (VStr (c_lifetime c)). cbn [is_str truthy negb]. rewrite String.eqb_refl. cbn [andb].
    destruct (timed (c_lifetime c)); [done | by rewrite Hexp].
  - change (getd "renew" _ _) with (VBool false). change (getd "boot_id" _ _) with (c_boot c). simpl.
    destruct (String.eqb_spec (c_lifetime c) "boot"); [done | by apply Hb].
  - change (getd "boot_id" _ _) with (c_boot c). simpl.
    destruct (String.eqb_spec (c_lifetime c) "boot") as [Hl|]; [|done].
    destruct (Hboot Hl) as [-> | ->]; simpl; by rewrite ?andb_false_r.
Qed.
End normalize.
