(* ===== verification/RulesCorrect.v ===== *)
(** * Canonical rules: properties

    What [normalize] produces, that canonical rules are its fixed points, that
    [matches] decides the coverage of [RuleSpec], and the lifecycle of timed and
    boot rules. *)
From S2P Require Import Prelude PyVal PyStr IpAddr NetworkRules RuleSpec RuleTexts NormalizeProps.

(** ** Timestamps *)

Lemma stamp_wf_num v : stamp_wf v ->
  (exists z, v = VInt z) \/ (exists f, v = VFloat f /\ f <> S754_nan).
Proof.
  unfold stamp_wf, number_ok. destruct v as [| |z|f| | |]; try done; [by eauto|].
  right. exists f. split; [done|]. by intros ->.
Qed.

Lemma stamp_wf_no_nan v : stamp_wf v -> no_nan v = true.
Proof. intros [[z ->]|(f & -> & Hf)]%stamp_wf_num; [done|]. by destruct f. Qed.

Lemma stamp_wf_not_none v : stamp_wf v -> is_none v = false.
Proof. by intros [[z ->]|(f & -> & Hf)]%stamp_wf_num. Qed.

Lemma stamp_wf_ge t v : stamp_wf t -> stamp_wf v -> exists b, py_ge t v = Ok b.
Proof.
  intros [[z ->]|(f & -> & Hf)]%stamp_wf_num [[z' ->]|(f' & -> & Hf')]%stamp_wf_num; by eexists.
Qed.

Lemma expires_wf c : common_wf c -> c_expires c = VNone \/ stamp_wf (c_expires c).
Proof. intros (_&_&_&_&_&_&_&_&_&_&He&_). destruct (timed _); auto. Qed.

Section correct.
Context `{Host}.
Implicit Types (E : env) (c : common).

(** ** Equality of canonical rules *)

Lemma common_dict_no_nan p c :
  common_wf c -> no_nan (c_boot c) = true -> no_nan (VDict (common_dict p c)) = true.
Proof.
  intros Hc Hb. pose proof (expires_wf _ Hc) as He.
  destruct Hc as (_&_&_&_&_&_&_&_&Hcr&Hup&_&_). unfold common_dict.
  match goal with |- context [dlit ?x] => change (dlit x) with (dupdate [] x) end.
  apply no_nan_dupdate; [|done].
  cbn [forallb snd no_nan]. rewrite (stamp_wf_no_nan _ Hcr), (stamp_wf_no_nan _ Hup), Hb.
  assert (no_nan (c_expires c) = true) as ->.
  { destruct He as [->|He]; [done | by apply stamp_wf_no_nan]. }
  assert (forallb no_nan (map VStr (c_protocols c)) = true) as ->.
  { apply forallb_forall. by intros x (s & <- & _)%in_map_iff. }
  assert (no_nan (ranges_val (c_ports c)) = true) as ->; [|done].
  cbn. apply forallb_forall. by intros x (r & <- & _)%in_map_iff.
Qed.

Lemma no_nan_opt k v d :
  match v with Some v => no_nan v = true | None => True end ->
  no_nan (VDict d) = true -> no_nan (VDict (opt_item k v d)) = true.
Proof. destruct v; [apply no_nan_dset | done]. Qed.

Lemma rule_dict_no_nan r :
  rule_wf r -> no_nan (c_boot (rule_common r)) = true -> no_nan (VDict (rule_dict r)) = true.
Proof.
  intros Hwf Hb. destruct r as [ar|ir]; cbn [rule_dict rule_common] in *.
  - apply no_nan_opt; [by destruct (a_dns_exception ar)|]. apply no_nan_dset.
    { cbn. apply forallb_forall. by intros x (d & <- & _)%in_map_iff. }
    apply no_nan_opt; [by destruct (a_required_host ar)|].
    apply no_nan_opt; [by destruct (_ =? _)%string|].
    apply no_nan_dupdate; [by destruct (a_uid ar)|]. by apply common_dict_no_nan; [apply Hwf|].
  - apply no_nan_dupdate; [done|]. by apply common_dict_no_nan; [apply Hwf|].
Qed.

(** ** Re-reading a canonical rule *)

Lemma rule_parts E r uuid :
  rule_wf r -> rule_fits r -> boot_known E (rule_common r) ->
  common_parts E (rule_dict r) (rule_dict r) (c_updated (rule_common r)) VNone uuid
    (match r with RApp _ => "application" | RIn _ => "incoming" end) (rule_common r).
Proof.
  intros Hwf [Hn _] Hb. destruct r as [ar|ir]; cbn [rule_dict rule_common] in *.
  - apply common_parts_stable; [by left| |by apply Hwf|done|done].
    intros k Hk. apply app_dict_common. simpl in Hk |- *. tauto.
  - apply common_parts_stable; [by right; left| |by apply Hwf|done|done].
    intros k Hk. apply in_dict_common. simpl in Hk |- *. tauto.
Qed.

(** The user id [migrate] hands to [normalize] for a stored rule. *)
Definition stored_uid (d : dict) : val := py_or (get "uid" d) (VInt 0).

Lemma stored_uid_ok r : rule_wf r ->
  exists uid, uid_ok (stored_uid (rule_dict r)) = Ok uid
    /\ match r with RApp ar => match a_uid ar with Some u => uid = u | None => True end | RIn _ => True end.
Proof.
  unfold stored_uid, get, getd. destruct r as [ar|ir]; cbn [rule_dict].
  - intros (_ & _ & Hu & _). rewrite app_dict_uid. destruct (a_uid ar) as [u|].
    + unfold py_or. cbn [truthy]. destruct (Z.eqb_spec u 0) as [->|Hne]; [by exists 0|].
      exists u. cbn [negb uid_ok]. split; [|done].
      by rewrite (proj2 (Z.leb_le 0 u)), (proj2 (Z.ltb_lt u _)) by lia.
    + by exists 0.
  - by exists 0.
Qed.

Lemma common_wf_stamps c : common_wf c -> stamps_wf c.
Proof.
  intros (_&_&_&_&_&_&_&_&?&?&He&_). split; [done|]. split; [done|].
  destruct (timed (c_lifetime c)); [by right | left; by rewrite He].
Qed.

Lemma stored_rule_stable E r uuid :
  rule_wf r -> rule_fits r -> boot_known E (rule_common r) ->
  normalize E (VDict (rule_dict r)) (stored_uid (rule_dict r)) (rule_dict r)
    (c_updated (rule_common r)) VNone uuid = Ok (rule_dict r).
Proof.
  intros Hwf Hfit Hb. destruct (stored_uid_ok r Hwf) as (uid & Huid & Hm).
  assert (common_wf (rule_common r)) as Hc by (destruct r; apply Hwf).
  erewrite normalize_eq; [|exact Huid|by apply rule_parts|apply Hc|by apply common_wf_stamps].
  destruct Hfit as [_ Hfit]. destruct r as [ar|ir]; unfold normalize_rest; cbn [rule_common rule_dict] in *.
  - change ("application" =? "application")%string with true. cbv iota.
    by apply normalize_application_stable.
  - change ("incoming" =? "application")%string with false. cbv iota.
    by apply normalize_incoming_stable.
Qed.

Lemma stored_rule_checks E r :
  rule_wf r -> rule_fits r -> boot_known E (rule_common r) -> no_nan (c_boot (rule_common r)) = true ->
  check_stored E (VDict (rule_dict r)) = Ok (VStr (c_id (rule_common r))).
Proof.
  intros Hwf Hfit Hb Hn. unfold check_stored. cbn [as_dict mbind res_bind].
  assert (is_threat_exception (rule_dict r) = false) as ->.
  { destruct r as [ar|ir]; [|done]. unfold is_threat_exception, get, getd, rule_dict.
    rewrite app_dict_common by (simpl; tauto). done. }
  fold (stored_uid (rule_dict r)).
  assert (getd "updated_at" (now E) (rule_dict r) = c_updated (rule_common r)) as ->.
  { destruct r as [ar|ir]; [|done]. unfold getd, rule_dict. by rewrite app_dict_common by (simpl; tauto). }
  rewrite stored_rule_stable by done. cbn [mbind res_bind].
  rewrite py_eq_refl by by apply rule_dict_no_nan. cbn [require mbind res_bind].
  destruct r as [ar|ir]; [|done]. unfold item, rule_dict. by rewrite app_dict_common by (simpl; tauto).
Qed.

(** ** Matching *)

(** [now E] can be compared with a timestamp. *)
Definition clock_wf E : Prop := stamp_wf (now E).

Lemma py_eq_str s v : py_eq (VStr s) v = is_str s v.
Proof. destruct v; try done. cbn. by rewrite String.eqb_sym. Qed.

(** The fields [lifecycle] and [matches] read of a canonical rule. *)
Lemma lifecycle_canonical E r :
  rule_wf r -> clock_wf E ->
  exists l, lifecycle E (rule_dict r) VNone VNone = Ok l
    /\ (l = SAVED <-> in_force E (rule_common r))
    /\ (l = DISABLED <-> c_enabled (rule_common r) = false)
    /\ l <> REVIEW_REQUIRED.
Proof.
  intros Hwf Hnow. unfold lifecycle.
  assert (forall k, In k ["enabled"; "expires_at"; "lifetime"; "boot_id"] ->
    dget k (rule_dict r) = dget k (common_dict "application" (rule_common r))) as Hk.
  { intros k Hk. destruct r as [ar|ir]; cbn [rule_dict rule_common].
    - apply app_dict_common. simpl in Hk |- *. tauto.
    - repeat destruct Hk as [<-|Hk]; [reflexivity..|done]. }
  assert (get "review_required" (rule_dict r) = VNone) as ->.
  { destruct r as [ar|ir]; [|done]. unfold get, getd, rule_dict.
    assert (dget "review_required" (app_dict ar) = None) as ->; [|done].
    destruct ar as [[] path uid ds [h|] [|]]; unfold app_dict; cbn [a_path a_required_host a_dns_exception
      a_uid a_destinations a_common]; destruct (String.eqb path "*"); reflexivity. }
  unfold get, getd. rewrite !Hk by (simpl; tauto).
  change (dget "enabled" _) with (Some (VBool (c_enabled (rule_common r)))).
  change (dget "expires_at" _) with (Some (c_expires (rule_common r))).
  change (dget "lifetime" _) with (Some (VStr (c_lifetime (rule_common r)))).
  change (dget "boot_id" _) with (Some (c_boot (rule_common r))).
  assert (common_wf (rule_common r)) as Hc by (destruct r; apply Hwf).
  apply expires_wf in Hc. set (c := rule_common r) in *. clearbody c. clear Hwf Hk r.
  unfold in_force. cbn [truthy is_none]. destruct (c_enabled c) eqn:Een; cbn [negb].
  2: { exists DISABLED. naive_solver. }
  cbn [is_str].
  assert (is_none (now E) = false -> exists over,
    (if is_none (c_expires c) then Ok false else py_ge (now E) (c_expires c)) = Ok over
    /\ (over = false <-> c_expires c = VNone \/ py_ge (now E) (c_expires c) = Ok false)) as Hover.
  { intros _. destruct Hc as [->|Hc]; [by exists false; naive_solver|].
    rewrite stamp_wf_not_none by done. destruct (stamp_wf_ge (now E) (c_expires c)) as [b Hb]; [done..|].
    rewrite Hb. exists b. split; [done|]. apply stamp_wf_not_none in Hc.
    destruct (c_expires c); naive_solver. }
  destruct Hover as (over & -> & Hiff); [by apply stamp_wf_not_none|].
  cbn [mbind res_bind]. change (py_or VNone (boot E)) with (boot E).
  destruct over; [exists EXPIRED; naive_solver|].
  destruct (String.eqb_spec (c_lifetime c) "boot"), (py_eq (c_boot c) (boot E)); cbn [andb negb];
    eexists; (split; [done|]); naive_solver.
Qed.

Lemma any_res_ports port rs :
  any_res (in_port_range port) (map (fun r => VList [VInt r.1; VInt r.2]) rs)
  = Ok (existsb (fun r => (r.1 <=? port) && (port <=? r.2)) rs).
Proof.
  induction rs as [|[a b] rs IH]; cbn; [done|]. destruct (_ && _); cbn; [done|apply IH].
Qed.

Lemma in_ranges_existsb port rs :
  existsb (fun r => (r.1 <=? port) && (port <=? r.2)) rs = true <-> in_ranges port rs.
Proof.
  rewrite existsb_exists. unfold in_ranges. split; intros (r & Hr & Hp); exists r; (split; [done|]).
  - apply andb_true_iff in Hp as [? ?]. zify_bool. lia.
  - apply andb_true_iff. split; apply Z.leb_le; lia.
Qed.

Lemma destination_matches_wf host address d :
  dest_wf d ->
  exists b, destination_matches host address (dest_val d) = Ok b /\ (b = true <-> dest_covers host address d).
Proof.
  intros Hd. unfold destination_matches, dest_val. cbn [as_dict mbind res_bind].
  change (item "kind" _) with (Ok (VStr (dest_kind d))).
  change (item "value" _) with (Ok (VStr (dest_value d))).
  cbn [mbind res_bind is_str str_of].
  destruct d as [h|h|a|n]; cbn [dest_kind dest_value dest_covers].
  - change ("host" =? "host")%string with true. cbn [andb].
    destruct (String.eqb_spec h host) as [->|Hne]; [by exists true|].
    change ("host" =? "domain")%string with false. cbn. exists false. naive_solver.
  - change ("domain" =? "host")%string with false. change ("domain" =? "domain")%string with true. cbn [andb].
    destruct (String.eqb_spec h host) as [->|Hne]; cbn [orb]; [exists true; naive_solver|].
    destruct (endswith _ host) eqn:Ee; [exists true; naive_solver|].
    exists false. naive_solver.
  - change ("ip" =? "host")%string with false. change ("ip" =? "domain")%string with false.
    change ("ip" =? "ip")%string with true. cbn [andb]. destruct address as [a'|]; [|exists false; naive_solver].
    cbn [parse_ip ip_address_val]. unfold parse_ip, ip_address_val. rewrite ip_address_str by apply Hd.
    cbn [mbind res_bind]. exists (bool_decide (a' = a)). rewrite bool_decide_eq_true. naive_solver.
  - change ("network" =? "host")%string with false. change ("network" =? "domain")%string with false.
    change ("network" =? "ip")%string with false. change ("network" =? "network")%string with true.
    cbn [andb]. destruct address as [a'|]; [|exists false; naive_solver].
    cbn [parse_net]. rewrite ip_network_str by apply Hd. cbn [mbind res_bind].
    exists (in_network a' n). naive_solver.
Qed.

Lemma any_destination host address ds :
  Forall dest_wf ds ->
  exists b, any_res (destination_matches host address) (map dest_val ds) = Ok b
    /\ (b = true <-> Exists (dest_covers host address) ds).
Proof.
  induction 1 as [|d ds Hd Hds IH]; cbn [map any_res].
  - exists false. split; [done|]. by rewrite Exists_nil.
  - destruct (destination_matches_wf host address d Hd) as (b & -> & Hb). cbn [mbind res_bind].
    destruct b; [exists true; split; [done|]; split; [intros _; left; by apply Hb | done]|].
    destruct IH as (b & -> & Hb'). exists b. split; [done|]. rewrite Exists_cons. naive_solver.
Qed.

(** One guard of [matches]: the test [t] fails exactly when [P] holds. *)
Lemma guard_step (t : bool) (P Q : Prop) (m : res bool) :
  (t = false <-> P) -> (P -> exists b, m = Ok b /\ (b = true <-> Q)) ->
  exists b, (if t then Ok false else m) = Ok b /\ (b = true <-> P /\ Q).
Proof.
  intros Ht Hm. destruct t.
  - exists false. naive_solver.
  - destruct Hm as (b & -> & Hb); [by apply Ht|]. exists b. naive_solver.
Qed.

Lemma in_list_strs a l : in_list (VStr a) (VList (map VStr l)) = Ok (existsb (String.eqb a) l).
Proof.
  unfold in_list. cbn [as_list mbind res_bind]. f_equal.
  induction l as [|s l IH]; [done|]. cbn [map existsb]. rewrite IH. by rewrite py_eq_str; cbn; rewrite String.eqb_sym.
Qed.

Lemma protocols_guard ps a :
  protocols_wf ps ->
  negb (existsb (String.eqb "any") ps) && negb (existsb (String.eqb a) ps) = false
  <-> ps = ["any"] \/ In a ps.
Proof.
  intros Hps. rewrite andb_false_iff, !negb_false_iff.
  assert (existsb (String.eqb a) ps = true <-> In a ps) as ->.
  { rewrite existsb_exists. setoid_rewrite String.eqb_eq. naive_solver. }
  assert (existsb (String.eqb "any") ps = true <-> ps = ["any"]) as ->; [|done].
  by destruct Hps as [->|[->|[->| ->]]].
Qed.

(** The guards of [matches] after the lifecycle test, for the fields of a
    canonical rule. *)
Lemma matches_fields ar E (c : connection) :
  app_wf ar -> lifecycle E (app_dict ar) VNone VNone = Ok SAVED ->
  exists b, matches E (app_dict ar) c = Ok b /\ (b = true <-> app_covers ar c).
Proof.
  intros Hwf Hl. unfold matches.
  assert (is_str "application" (get "provider" (app_dict ar)) = true) as ->.
  { unfold get, getd. rewrite app_dict_common by (simpl; tauto). done. }
  cbn [negb]. rewrite Hl. cbn [mbind res_bind]. rewrite bool_decide_eq_true_2 by done. cbn [negb].
  unfold item, get, getd. rewrite app_dict_path, app_dict_uid, app_dict_destinations, app_dict_required_host.
  rewrite !app_dict_common by (simpl; tauto). cbn [mbind res_bind].
  change (dget "protocols" _) with (Some (VList (map VStr (c_protocols (a_common ar))))).
  change (dget "family" _) with (Some (VStr (c_family (a_common ar)))).
  change (dget "ports" _) with (Some (ranges_val (c_ports (a_common ar)))). cbn [mbind res_bind].
  destruct Hwf as (Hc & _ & _ & Hds & _ & _ & Hrh & _). destruct ar as [k path uid ds rh dns].
  cbn [a_common a_path a_uid a_destinations a_required_host option_map] in *.
  unfold app_covers. cbn [a_common a_path a_uid a_destinations a_required_host].
  apply guard_step; [|intros _].
  { rewrite negb_false_iff. cbn. rewrite !orb_true_iff, !String.eqb_eq. naive_solver. }
  apply guard_step; [|intros _].
  { destruct uid as [u|]; cbn [is_none negb andb]; [|done].
    rewrite negb_false_iff. cbn. unfold num_eqb, num_compare. rewrite !Z.sub_diag, !Z.shiftl_0_r.
    destruct (Z.compare_spec u (user_id c)); naive_solver lia. }
  rewrite !in_list_strs. cbn [mbind res_bind].
  apply guard_step; [by apply protocols_guard, Hc|intros _].
  apply guard_step; [|intros _].
  { cbn [is_str]. destruct (String.eqb_spec (c_family k) "any") as [->|Hne]; cbn [negb andb].
    { split; [by left|done]. }
    destruct (ip_address (dst_ip c)) as [a|]; cbn [is_str].
    - rewrite negb_false_iff, String.eqb_eq. split; [|naive_solver]. intros ->. right. eauto.
    - split; [done|]. intros [?|(a & ? & _)]; done. }
  unfold ranges_val. cbn [as_list mbind res_bind]. rewrite any_res_ports. cbn [mbind res_bind].
  apply guard_step; [|intros _].
  { destruct (c_ports k) as [|r rs]; cbn [map]; [naive_solver|].
    rewrite negb_false_iff, in_ranges_existsb. naive_solver. }
  apply guard_step; [|intros _].
  { destruct rh as [h|]; cbn [option_map truthy andb]; [|done].
    rewrite (proj2 (String.eqb_neq h "") (proj1 Hrh)). cbn [negb andb is_str].
    rewrite negb_false_iff, String.eqb_eq. unfold conn_host. naive_solver. }
  cbn [as_list mbind res_bind].
  destruct (any_destination (conn_host c) (ip_address (dst_ip c)) ds Hds) as (b & Hb & Hiff).
  destruct ds as [|d ds]; cbn [map]; [exists true; naive_solver|].
  exists b. split; [exact Hb|]. rewrite Hiff. naive_solver.
Qed.

(** ** Whole policies *)

Lemma mapM_res_check E (rules : list rule) :
  Forall (fun r => rule_wf r /\ rule_fits r /\ boot_known E (rule_common r)
                   /\ no_nan (c_boot (rule_common r)) = true) rules ->
  mapM_res (check_stored E) (map (fun r => VDict (rule_dict r)) rules)
  = Ok (map (fun r => VStr (c_id (rule_common r))) rules).
Proof.
  induction 1 as [|r rules (? & ? & ? & ?) _ IH]; cbn [map mapM_res]; [done|].
  rewrite stored_rule_checks by done. cbn [mbind res_bind]. by rewrite IH.
Qed.

Lemma check_distinct_ids l : NoDup l -> check_distinct (map VStr l) = Ok tt.
Proof.
  intros Hnd. unfold check_distinct.
  assert (forallb hashable (map VStr l) = true) as ->.
  { apply forallb_forall. by intros x (s & <- & _)%in_map_iff. }
  assert (all_distinct (map VStr l) = true) as ->; [|done].
  induction Hnd as [|s l Hs Hl IH]; [done|]. cbn [map all_distinct]. rewrite IH, andb_true_r.
  apply negb_true_iff, existsb_not_In. intros x (t & <- & Ht)%in_map_iff.
  rewrite py_eq_str. cbn. apply String.eqb_neq. intros ->. by apply Hs, list_elem_of_In.
Qed.

(** The fields of a policy of the current schema, the rules apart. *)
Record policy_head_ok (p : dict) : Prop := {
  ph_action : in_strs ["allow"; "deny"; "reject"] (getd "default_action" (VStr "allow") p) = true;
  ph_dns : py_eq (getd "dns_policy" dns_policy_value p) dns_policy_value = true;
  ph_schema : get "schema" p = VStr SCHEMA;
  ph_revision : exists n, get "revision" p = VInt n /\ 0 <= n;
}.

Lemma getd_setdefault k k' v v' d :
  getd k v (setdefault k' v' d) = if decide (k = k') then getd k v' d else getd k v d.
Proof.
  unfold setdefault, getd. case_decide as Hk.
  - subst k'. destruct (dget k d) as [x|] eqn:Hd; rewrite ?Hd; [done|]. by rewrite dget_dset_eq.
  - destruct (dget k' d); [done|]. by rewrite dget_dset_ne.
Qed.

Lemma dget_setdefault_ne k k' v d : k <> k' -> dget k (setdefault k' v d) = dget k d.
Proof. intros Hk. unfold setdefault. destruct (dget k' d); [done|]. by apply dget_dset_ne. Qed.

Lemma policy_defaults_other k p :
  ~ In k ["default_action"; "default_duration"; "interactive_prompts"; "dns_policy"; "threat_intel"] ->
  dget k (policy_defaults p) = dget k p.
Proof. intros Hk. simpl in Hk. unfold policy_defaults. rewrite !dget_setdefault_ne; naive_solver. Qed.

Lemma setdefault_present k v d x : dget k d = Some x -> setdefault k v d = d.
Proof. intros Hd. unfold setdefault. by rewrite Hd. Qed.

Lemma dget_setdefault_some k k' v x d :
  dget k d = Some x -> dget k (setdefault k' v d) = Some x.
Proof.
  intros Hd. destruct (decide (k = k')) as [<-|Hne].
  - by erewrite setdefault_present.
  - by rewrite dget_setdefault_ne.
Qed.

Lemma dget_setdefault_here k v d : exists x, dget k (setdefault k v d) = Some x.
Proof. unfold setdefault. destruct (dget k d) eqn:Hd; [eauto|]. rewrite dget_dset_eq. eauto. Qed.

Lemma dget_setdefault_keeps k k' v d :
  (exists x, dget k d = Some x) -> exists x, dget k (setdefault k' v d) = Some x.
Proof. intros [x Hx]. eexists. by apply dget_setdefault_some. Qed.

(** All five defaulted keys are present. *)
Definition has_defaults (p : dict) : Prop :=
  forall k, In k ["default_action"; "default_duration"; "interactive_prompts"; "dns_policy"; "threat_intel"] ->
  exists x, dget k p = Some x.

Lemma policy_defaults_has p : has_defaults (policy_defaults p).
Proof.
  intros k Hk. unfold policy_defaults.
  repeat destruct Hk as [<-|Hk]; [..|done];
    repeat first [apply dget_setdefault_here | apply dget_setdefault_keeps].
Qed.

Lemma policy_defaults_id p : has_defaults p -> policy_defaults p = p.
Proof.
  intros Hd. unfold policy_defaults.
  destruct (Hd "default_action") as [? H1]; [simpl; tauto|]. rewrite (setdefault_present _ _ _ _ H1).
  destruct (Hd "default_duration") as [? H2]; [simpl; tauto|]. rewrite (setdefault_present _ _ _ _ H2).
  destruct (Hd "interactive_prompts") as [? H3]; [simpl; tauto|]. rewrite (setdefault_present _ _ _ _ H3).
  destruct (Hd "dns_policy") as [? H4]; [simpl; tauto|]. rewrite (setdefault_present _ _ _ _ H4).
  destruct (Hd "threat_intel") as [? H5]; [simpl; tauto|]. by rewrite (setdefault_present _ _ _ _ H5).
Qed.

Lemma policy_head p : policy_head_ok p ->
  in_strs ["allow"; "deny"; "reject"] (get "default_action" (policy_defaults p)) = true
  /\ py_eq (get "dns_policy" (policy_defaults p)) dns_policy_value = true
  /\ get "schema" (policy_defaults p) = VStr SCHEMA
  /\ exists n, get "revision" (policy_defaults p) = VInt n /\ 0 <= n.
Proof.
  intros [Ha Hd Hs (n & Hn & Hr)].
  assert (get "schema" (policy_defaults p) = get "schema" p) as ->.
  { unfold get, getd. by rewrite policy_defaults_other by (simpl; naive_solver). }
  assert (get "revision" (policy_defaults p) = get "revision" p) as ->.
  { unfold get, getd. by rewrite policy_defaults_other by (simpl; naive_solver). }
  unfold get, policy_defaults. rewrite !getd_setdefault.
  repeat first [rewrite decide_False by done | rewrite decide_True by done].
  split; [done|]. split; [done|]. split; [done|]. by exists n.
Qed.

Lemma migrate_current E p rules :
  policy_head_ok p -> dget "rules" p = Some (VList (map (fun r => VDict (rule_dict r)) rules)) ->
  Forall (fun r => rule_wf r /\ rule_fits r /\ boot_known E (rule_common r)
                   /\ no_nan (c_boot (rule_common r)) = true) rules ->
  NoDup (map (fun r => c_id (rule_common r)) rules) -> Z.of_nat (length rules) <= MAX_RULES ->
  migrate E (VDict p) = Ok (policy_defaults p).
Proof.
  intros Hh Hrules Hok Hnd Hlen. destruct (policy_head p Hh) as (H1 & H2 & H3 & n & H4 & H5).
  unfold migrate.
  assert (getd "rules" (VList []) p = VList (map (fun r => VDict (rule_dict r)) rules)) as ->
    by (unfold getd; by rewrite Hrules).
  assert (forallb is_dict (map (fun r => VDict (rule_dict r)) rules) = true) as ->.
  { apply forallb_forall. by intros x (r & <- & _)%in_map_iff. }
  cbn [require mbind res_bind]. cbv zeta. rewrite H1, H2, H3, H4. cbn [require mbind res_bind].
  change (is_str SCHEMA (VStr SCHEMA)) with true. cbv iota. rewrite (proj2 (Z.leb_le 0 n)) by done.
  cbn [require mbind res_bind]. unfold item. rewrite policy_defaults_other by (simpl; naive_solver).
  rewrite Hrules. cbn [mbind res_bind as_list]. rewrite mapM_res_check by done. cbn [mbind res_bind].
  rewrite <- (map_map (fun r => c_id (rule_common r)) VStr), check_distinct_ids by done. cbn [mbind res_bind].
  rewrite policy_defaults_other by (simpl; naive_solver). rewrite Hrules. cbn [mbind res_bind as_list].
  rewrite length_map, (proj2 (Z.leb_le _ _)) by done. done.
Qed.

(** ** Legacy rules *)

Definition set_common (ar : app_rule) c : app_rule :=
  AppRule c (a_path ar) (a_uid ar) (a_destinations ar) (a_required_host ar) (a_dns_exception ar).

Definition temporary_common (c : common) : common :=
  Common (c_id c) (c_name c) "Legacy temporary scope: choose a new lifetime before enabling." (c_action c)
    (negb (String.eqb (c_action c) "allow")) (c_family c) (c_protocols c) (c_ports c) (c_lifetime c)
    (c_created c) (c_updated c) (c_expires c) (c_boot c).

Lemma temporary_dict ar :
  dset "description" (VStr "Legacy temporary scope: choose a new lifetime before enabling.")
    (dset "enabled" (VBool (negb (is_str "allow" (get "action" (app_dict ar))))) (app_dict ar))
  = app_dict (set_common ar (temporary_common (a_common ar))).
Proof.
  assert (get "action" (app_dict ar) = VStr (c_action (a_common ar))) as ->.
  { unfold get, getd. by rewrite app_dict_common by (simpl; tauto). }
  destruct ar as [[] path uid ds [h|] [|]]; unfold app_dict; cbn [set_common temporary_common a_path a_required_host
    a_dns_exception a_uid a_destinations a_common]; destruct (String.eqb path "*"); reflexivity.
Qed.

Lemma temporary_wf ar : app_wf ar -> app_wf (set_common ar (temporary_common (a_common ar))).
Proof.
  intros ((?&?&?&?&?&?&?&?&?&?&?&?) & Hrest). split; [|exact Hrest].
  repeat (split; [done|]). done.
Qed.

(** What the migration of one legacy rule yields. *)
Definition migrated_from (i : dict) (ar : app_rule) : Prop :=
  app_wf ar /\ a_uid ar = None /\ c_lifetime (a_common ar) = "permanent"
  /\ VStr (c_id (a_common ar)) = rule_id i
  /\ c_action (a_common ar) = (if is_str "allow" (get "action" i) then "allow" else "deny")
  /\ c_enabled (a_common ar)
     = (is_str "always" (getd "duration" (VStr "always") i) || negb (is_str "allow" (get "action" i))).

Lemma migrate_rule_spec E r v :
  migrate_rule E r = Ok v ->
  exists i, r = VDict i /\
    if is_threat_exception i then v = VDict (dset "id" (rule_id i) i)
    else exists ar, migrated_from i ar /\ v = VDict (app_dict ar).
Proof.
  unfold migrate_rule. destruct r as [| | | | | |i]; try done. cbn [as_dict mbind res_bind].
  intros Hm. exists i. split; [done|]. destruct (is_threat_exception i); [by injection Hm as <-|].
  cbv zeta in Hm. apply bind_Ok in Hm as (d & Hd & Hm).
  apply normalize_inv in Hd as (value & uid & p & c & Hv & Huid & Hparts & Hc & _ & Hr).
  injection Hv as <-. pose proof (cp_provider _ _ _ _ _ _ _ _ Hparts) as cp_provider0.
  pose proof (cp_lifetime _ _ _ _ _ _ _ _ Hparts) as cp_lifetime0.
  pose proof (cp_action _ _ _ _ _ _ _ _ Hparts) as cp_action0.
  pose proof (cp_enabled _ _ _ _ _ _ _ _ Hparts) as cp_enabled0.
  pose proof (cp_id _ _ _ _ _ _ _ _ Hparts) as cp_id0.
  assert (p = "application") as ->.
  { apply choice_Ok in cp_provider0 as [Hp _]. by injection Hp. }
  unfold normalize_rest in Hr. change ("application" =? "application")%string with true in Hr. cbv iota in Hr.
  apply (normalize_application_inv _ _ (VInt 0)) in Hr as (ar & Hap & Hwf & ->); [|done..].
  pose proof (ap_scope _ _ _ _ Hap) as ap_scope0. pose proof (ap_common _ _ _ _ Hap) as ap_common0.
  assert (a_uid ar = None) as Hu.
  { destruct (a_uid ar); [|done]. by destruct ap_scope0. }
  assert (c_lifetime c = "permanent") as Hl.
  { apply choice_Ok in cp_lifetime0 as [Hx _]. by injection Hx. }
  assert (c_action c = (if is_str "allow" (get "action" i) then "allow" else "deny")) as Ha.
  { apply choice_Ok in cp_action0 as [Hx _]. injection Hx as <-. done. }
  assert (c_enabled c = true) as He by by injection cp_enabled0.
  assert (VStr (c_id c) = rule_id i) as Hid.
  { rewrite <- cp_id0. unfold identifier_of. change (get "id" []) with VNone.
    change (get "id" _) with (rule_id i). unfold rule_id, py_or. change (truthy VNone) with false. cbv iota.
    destruct (truthy (get "id" i)) eqn:Et; [by rewrite Et|]. done. }
  subst c. clear Hap. apply (f_equal (fun x => match x with Ok v => v | _ => VNone end)) in Hm. cbv iota in Hm.
  destruct (is_str "always" _) eqn:Ed; subst v.
  - exists ar. split; [|done]. unfold migrated_from. rewrite Ed. tauto.
  - rewrite temporary_dict. exists (set_common ar (temporary_common (a_common ar))). split; [|done].
    unfold migrated_from. rewrite Ed. split; [by apply temporary_wf|]. cbn. rewrite Ha.
    repeat (split; [done|]). by destruct (is_str "allow" _).
Qed.

Lemma migrate_legacy_inv E p q :
  is_str SCHEMA (get "schema" p) = false -> migrate E (VDict p) = Ok q ->
  exists legacy rules,
    getd "rules" (VList []) p = VList legacy
    /\ Forall2 (fun l r => migrate_rule E l = Ok r)
         (sort_by (fun x y => (legacy_key y <=? legacy_key x)%nat) legacy) rules
    /\ q = dupdate (policy_defaults p) [("schema", VStr SCHEMA); ("revision", VInt 0); ("rules", VList rules)]
    /\ Z.of_nat (length rules) <= MAX_RULES.
Proof.
  intros Hs Hm. unfold migrate in Hm. cbv zeta in Hm.
  assert (get "schema" (policy_defaults p) = get "schema" p) as Hsch.
  { unfold get, getd. by rewrite policy_defaults_other by (simpl; naive_solver). }
  assert (getd "rules" (VList []) (policy_defaults p) = getd "rules" (VList []) p) as Hru.
  { unfold getd. by rewrite policy_defaults_other by (simpl; naive_solver). }
  rewrite Hsch, Hs, Hru in Hm. set (result := policy_defaults p) in *. clearbody result. clear Hsch Hru.
  apply bind_Ok in Hm as (? & _ & Hm). apply bind_Ok in Hm as (? & _ & Hm).
  apply bind_Ok in Hm as (? & _ & Hm). apply bind_Ok in Hm as (d & Hd & Hm).
  apply bind_Ok in Hd as (legacy & Hl & Hd). apply bind_Ok in Hd as (rules & Hr & Hd).
  assert (forall a b : dict, Ok a = Ok b -> b = a) as Hinj by congruence.
  apply Hinj in Hd as ->.
  apply bind_Ok in Hm as (rules' & Hr' & Hm). apply bind_Ok in Hm as (? & Hlen%require_Ok & Hm).
  apply Hinj in Hm as ->. exists legacy, rules.
  destruct (getd "rules" (VList []) p) as [| | | | |l|]; try done. injection Hl as ->.
  apply mapM_res_Ok in Hr. split; [done|]. split; [done|]. split; [done|].
  unfold item in Hr'. unfold dupdate in Hr'. cbn [fold_left fst snd] in Hr'.
  rewrite dget_dset_eq in Hr'. injection Hr' as <-. by apply Z.leb_le in Hlen.
Qed.

(** ** Deadlines *)

Lemma normalize_deadline E value auid ex ct cb uuid d :
  normalize E (VDict value) auid ex ct cb uuid = Ok d ->
  exists l e, dget "lifetime" d = Some (VStr l) /\ dget "expires_at" d = Some e
    /\ expires_at (eff_now E ct) value ex l = Ok e.
Proof.
  intros (value' & uid & p & c & [= <-] & Huid & Hparts & Hc & _ & Hr)%normalize_inv.
  exists (c_lifetime c), (c_expires c). unfold normalize_rest in Hr.
  pose proof (cp_expires _ _ _ _ _ _ _ _ Hparts) as He.
  apply cp_provider in Hparts as [_ Hp]%choice_Ok.
  destruct (String.eqb_spec p "application") as [->|Hne].
  - apply (normalize_application_inv _ _ auid) in Hr as (ar & Har & _ & ->); [|done..].
    rewrite !app_dict_common by (simpl; tauto). by rewrite (ap_common _ _ _ _ Har).
  - destruct Hp as [<-|[<-|[]]]; [done|].
    apply normalize_incoming_inv in Hr as (ir & _ & -> & Hic); [|done].
    rewrite !in_dict_common by (simpl; tauto). rewrite Hic. by destruct (i_source ir).
Qed.

Lemma rule_field k r :
  In k ["id"; "name"; "description"; "action"; "enabled"; "family"; "protocols"; "ports";
        "lifetime"; "created_at"; "updated_at"; "expires_at"; "boot_id"] ->
  dget k (rule_dict r) = dget k (common_dict "application" (rule_common r)).
Proof.
  intros Hk. destruct r as [ar|ir]; cbn [rule_dict rule_common].
  - apply app_dict_common. simpl in Hk |- *. tauto.
  - repeat destruct Hk as [<-|Hk]; [reflexivity..|done].
Qed.

Lemma rule_lifetime r : dget "lifetime" (rule_dict r) = Some (VStr (c_lifetime (rule_common r))).
Proof. by rewrite rule_field by (simpl; tauto). Qed.

Lemma rule_expires r : dget "expires_at" (rule_dict r) = Some (c_expires (rule_common r)).
Proof. by rewrite rule_field by (simpl; tauto). Qed.
End correct.
