(* ===== verification/RuleClaims.v ===== *)
(** * Network rules: the properties

    The theorems on [network_rules.py] a client of the module relies on, each
    with a concrete instance: what normalisation yields, re-reading stored
    rules, what a rule matches, ports, deadlines and policy migration. *)
From S2P Require Import Prelude PyVal PyStr IpAddr NetworkRules RuleSpec RuleTexts NormalizeProps RulesCorrect.

(** A concrete host for the instances below: no IDNA, a constant digest. *)
#[export] Instance example_host : Host := {|
  host_idna _ := None;
  host_sha256 _ := "00112233445566778899aabbccddeeff";
  host_json_sorted _ := "{}";
|}.

Definition example_env : env := Env (VInt 1000) (VStr "boot-1") "aaaaaaaaaaaaaaaaaaaa".

Definition ssh_request : dict :=
  dlit [("path", VStr "/usr/bin/ssh"); ("action", VStr "allow"); ("protocols", VList [VStr "tcp"]);
        ("ports", VStr "22, 8000-8010,8005-8020"); ("lifetime", VStr "1h");
        ("destinations", VList [VDict (dlit [("kind", VStr "network"); ("value", VStr "10.1.2.3/8")])])].

Section claims.
Context `{Host}.

(** C30. Whatever [normalize] accepts, from any request and any existing rule, it
    returns as the dictionary of a well-formed rule: an application rule or an
    incoming rule whose every field is in its canonical form. *)
Theorem normalize_canonical E v auid ex ct cb uuid d :
  normalize E v auid ex ct cb uuid = Ok d -> exists r, rule_wf r /\ d = rule_dict r.
Proof.
  intros (value & uid & p & c & -> & Huid & Hparts & Hc & _ & Hr)%normalize_inv.
  apply cp_provider in Hparts as [_ Hp]%choice_Ok. unfold normalize_rest in Hr.
  destruct (String.eqb_spec p "application") as [->|Hne].
  - apply (normalize_application_inv _ _ auid) in Hr as (ar & _ & Hwf & ->); [|done..]. by exists (RApp ar).
  - destruct Hp as [<-|[<-|[]]]; [done|].
    apply normalize_incoming_inv in Hr as (ir & Hwf & -> & _); [|done]. by exists (RIn ir).
Qed.

(** A canonical rule is a fixed point of [normalize], read with the rule
    itself as the existing one and its own update time: exactly the comparison
    by which stored policies are validated, so an unchanged rule stays valid
    at any later time, deadline and boot identity included. *)
Theorem normalize_fixed_point E r uuid :
  rule_wf r -> rule_fits r -> boot_known E (rule_common r) ->
  normalize E (VDict (rule_dict r)) (stored_uid (rule_dict r)) (rule_dict r)
    (c_updated (rule_common r)) VNone uuid = Ok (rule_dict r).
Proof. apply stored_rule_stable. Qed.

(** C4. On a canonical application rule [matches] never raises and decides
    whether the rule is in force and covers the connection. *)
Theorem matches_correct E ar c :
  app_wf ar -> clock_wf E ->
  exists b, matches E (app_dict ar) c = Ok b
    /\ (b = true <-> in_force E (a_common ar) /\ app_covers ar c).
Proof.
  intros Hwf Hnow. destruct (lifecycle_canonical E (RApp ar) Hwf Hnow) as (l & Hl & Hforce & _).
  cbn [rule_dict rule_common] in *. destruct (decide (l = SAVED)) as [->|Hne].
  - destruct (matches_fields ar E c Hwf Hl) as (b & Hb & Hiff). exists b. naive_solver.
  - exists false. split; [|naive_solver]. unfold matches.
    assert (is_str "application" (get "provider" (app_dict ar)) = true) as ->.
    { unfold get, getd. rewrite app_dict_common by (simpl; tauto). done. }
    rewrite Hl. cbn [negb mbind res_bind]. by rewrite bool_decide_eq_false_2.
Qed.

(** The ranges of a port request are in canonical form (ascending, inside
    1..65535, gaps between any two, at most 32) and cover exactly the ports
    that some element of the request asks for. *)
Theorem port_ranges_correct v rs :
  port_ranges v = Ok rs ->
  ranges_wf rs /\
  forall p, in_ranges p rs <-> exists l part, port_list v = Ok l /\ In part l /\ part_asks part p.
Proof.
  intros Hrs. split; [by eapply port_ranges_wf|]. intros p. unfold port_ranges in Hrs.
  apply bind_Ok in Hrs as (l & Hl & Hrs). apply bind_Ok in Hrs as (ps & Hps & [= <-]).
  apply mapM_res_Ok in Hps.
  assert (Forall range_ok ps) as Hok.
  { apply Forall_forall. intros r (i & Hi)%list_elem_of_lookup.
    destruct (Forall2_lookup_r _ _ _ _ _ Hps Hi) as (x & _ & Hx). by apply port_range_ok in Hx as [? _]. }
  destruct (merge_ranges_spec ps Hok) as (_ & _ & ->). unfold in_ranges. split.
  - intros (r & Hr & Hp). apply list_elem_of_In, list_elem_of_lookup in Hr as [i Hi].
    destruct (Forall2_lookup_r _ _ _ _ _ Hps Hi) as (part & Hpart & Hx). exists l, part.
    split; [done|]. split; [by apply list_elem_of_In, (list_elem_of_lookup_2 _ i)|].
    by apply (proj2 (port_range_ok _ _ Hx)).
  - intros (l' & part & Hl' & Hin & Hp). rewrite Hl in Hl'. injection Hl' as <-.
    apply list_elem_of_In, list_elem_of_lookup in Hin as [i Hi].
    destruct (Forall2_lookup_l _ _ _ _ _ Hps Hi) as (r & Hr & Hx). exists r.
    split; [by apply list_elem_of_In, (list_elem_of_lookup_2 _ i)|]. by apply (proj2 (port_range_ok _ _ Hx)).
Qed.

(** The deadline of a timed rule: an edit that keeps the lifetime and does
    not ask for renewal keeps the existing deadline, any other sets it to the
    current time plus the lifetime; a rule of another lifetime has none. *)
Theorem deadline_of_edit E value auid ex ct cb uuid r :
  normalize E (VDict value) auid ex ct cb uuid = Ok (rule_dict r) ->
  let c := rule_common r in
  if timed (c_lifetime c) then
    if is_str (c_lifetime c) (get "lifetime" ex) && negb (truthy (getd "renew" (VBool false) value))
    then c_expires c = get "expires_at" ex
    else py_add_int (eff_now E ct) (if String.eqb (c_lifetime c) "15m" then 900 else 3600) = Ok (c_expires c)
  else c_expires c = VNone.
Proof.
  intros Hn c. destruct (normalize_deadline E value auid ex ct cb uuid (rule_dict r) Hn)
    as (l & e & Hl & He & Hexp).
  assert (c_lifetime c = l /\ c_expires c = e) as [-> ->].
  { rewrite rule_lifetime in Hl. rewrite rule_expires in He. subst c.
    by injection Hl as ->; injection He as ->. }
  unfold expires_at in Hexp. destruct (timed l); [|by injection Hexp].
  destruct (_ && _); [by injection Hexp|done].
Qed.

(** A canonical rule is Disabled exactly when it is switched off, Saved
    exactly when it is in force, and never asks for review; so a rule that is
    enabled but past its deadline, or of another boot, is Expired. *)
Theorem lifecycle_correct E r :
  rule_wf r -> clock_wf E ->
  exists l, lifecycle E (rule_dict r) VNone VNone = Ok l
    /\ (l = SAVED <-> in_force E (rule_common r))
    /\ (l = DISABLED <-> c_enabled (rule_common r) = false)
    /\ (l = EXPIRED <-> c_enabled (rule_common r) = true /\ ~ in_force E (rule_common r))
    /\ l <> REVIEW_REQUIRED.
Proof.
  intros Hwf Hnow. destruct (lifecycle_canonical E r Hwf Hnow) as (l & Hl & Hs & Hd & Hr).
  exists l. split; [done|]. split; [done|]. split; [done|]. split; [|done].
  destruct (c_enabled (rule_common r)) eqn:He; destruct l; naive_solver.
Qed.

(** A stored policy of the current schema whose rules are well formed, fit
    the limits and have distinct identifiers is accepted, unchanged but for the
    defaulted keys, at any time: validation never rejects what normalisation
    produced. *)
Theorem migrate_accepts_canonical E p rules :
  policy_head_ok p -> dget "rules" p = Some (VList (map (fun r => VDict (rule_dict r)) rules)) ->
  Forall (fun r => rule_wf r /\ rule_fits r /\ boot_known E (rule_common r)
                   /\ no_nan (c_boot (rule_common r)) = true) rules ->
  NoDup (map (fun r => c_id (rule_common r)) rules) -> Z.of_nat (length rules) <= MAX_RULES ->
  migrate E (VDict p) = Ok (policy_defaults p).
Proof. apply migrate_current. Qed.

(** Migration of a policy of an older schema keeps every rule (in an order
    that puts specific rules first) and yields revision 0 of the current schema.
    Each rule becomes a well-formed, permanent, system-wide rule of the same
    verdict; a legacy Allow that was temporary comes out disabled. *)
Theorem migrate_legacy_correct E p q :
  is_str SCHEMA (get "schema" p) = false -> migrate E (VDict p) = Ok q ->
  get "schema" q = VStr SCHEMA /\ get "revision" q = VInt 0 /\
  exists legacy sorted rules,
    getd "rules" (VList []) p = VList legacy /\ sorted ≡ₚ legacy
    /\ Sorted (fun x y => (legacy_key y <= legacy_key x)%nat) sorted
    /\ get "rules" q = VList rules /\ Z.of_nat (length rules) <= MAX_RULES
    /\ Forall2 (fun l r => exists i, l = VDict i /\
         if is_threat_exception i then r = VDict (dset "id" (rule_id i) i)
         else exists ar, migrated_from i ar /\ r = VDict (app_dict ar)) sorted rules.
Proof.
  intros Hs Hm. apply migrate_legacy_inv in Hm as (legacy & rules & Hl & Hmap & -> & Hlen); [|done].
  split; [by dlookup|]. split; [by dlookup|].
  exists legacy, (sort_by (fun x y => (legacy_key y <=? legacy_key x)%nat) legacy), rules.
  split; [done|]. split; [apply sort_by_Permutation|]. split.
  { eapply Sorted_mono; [|apply sort_by_Sorted].
    - intros x y Hxy. by apply Nat.leb_le.
    - intros x y Hxy. apply Nat.leb_gt in Hxy. apply Nat.leb_le. lia. }
  split; [by dlookup|]. split; [done|]. eapply Forall2_impl; [exact Hmap|].
  intros x y. apply migrate_rule_spec.
Qed.
End claims.

(** ** Instances *)

Definition example_common : common :=
  Common "greyward-0123456789abcdef0123" "ssh" "" "allow" true "ipv4" ["tcp"] [(22, 22); (8000, 8020)]
    "1h" (VInt 1000) (VInt 1000) (VInt 4600) VNone.

Definition example_rule : app_rule :=
  AppRule example_common "/usr/bin/ssh" (Some 1000)
    [DNet (IpNet (IPv4 167772160) 8); DDomain "example.org"] None false.

Definition example_connection : connection :=
  Connection "/usr/bin/ssh" 4242 1000 "TCP" "192.168.1.2" 40000 "10.20.30.40" "" 22.

Lemma example_common_wf : common_wf example_common.
Proof.
  unfold common_wf, stable_text, ranges_wf. cbn -[identifier_ok isprintable strip str_len stamp_wf timed].
  split_and!; first [by vm_compute | by left | by right; left | lia | tauto | idtac].
Qed.

Lemma example_rule_wf : app_wf example_rule.
Proof.
  split; [exact example_common_wf|]. cbn [example_rule a_path a_uid a_destinations a_required_host a_dns_exception].
  split_and!.
  - split_and!; try by vm_compute. by left.
  - done.
  - done.
  - constructor; [|constructor; [|done]].
    + cbn [dest_wf]. split; [|by vm_compute]. split_and!; by vm_compute.
    + split; [done|]. vm_compute. by repeat constructor.
  - vm_compute. by repeat constructor; set_solver.
  - simpl. lia.
  - done.
  - done.
Qed.

Lemma example_fits : rule_fits (RApp example_rule).
Proof.
  split; [done|]. split; [|done]. repeat constructor; by vm_compute.
Qed.

Lemma normalize_canonical_witness :
  exists d, normalize example_env (VDict ssh_request) (VInt 1000) [] VNone VNone "0123456789abcdef0123" = Ok d
    /\ exists r, rule_wf r /\ d = rule_dict r.
Proof.
  eexists. split; [vm_compute; reflexivity|].
  apply (normalize_canonical example_env (VDict ssh_request) (VInt 1000) [] VNone VNone "0123456789abcdef0123").
  vm_compute. reflexivity.
Defined.

Lemma normalize_fixed_point_witness :
  normalize example_env (VDict (app_dict example_rule)) (VInt 1000) (app_dict example_rule) (VInt 1000) VNone
    "ffffffffffffffffffff" = Ok (app_dict example_rule).
Proof.
  exact (normalize_fixed_point example_env (RApp example_rule) _ example_rule_wf example_fits
    (fun H => match H with eq_refl => I end)).
Defined.

Lemma matches_correct_witness :
  exists b, matches example_env (app_dict example_rule) example_connection = Ok b
    /\ (b = true <-> in_force example_env example_common /\ app_covers example_rule example_connection).
Proof. apply (matches_correct example_env example_rule); [exact example_rule_wf | reflexivity]. Defined.

Lemma port_ranges_correct_witness :
  ranges_wf [(22, 22); (8000, 8020)] /\
  forall p, in_ranges p [(22, 22); (8000, 8020)] <-> exists l part,
    port_list (VStr "22, 8000-8010,8005-8020") = Ok l /\ In part l /\ part_asks part p.
Proof. apply (port_ranges_correct (VStr "22, 8000-8010,8005-8020")). vm_compute. reflexivity. Defined.

Lemma deadline_of_edit_witness :
  let value := dset "action" (VStr "deny") (app_dict example_rule) in
  exists d, normalize example_env (VDict value) (VInt 1000) (app_dict example_rule) (VInt 3000) VNone "" = Ok d
    /\ dget "expires_at" d = Some (get "expires_at" (app_dict example_rule)).
Proof.
  intros value.
  set (r := RApp (AppRule (Common "greyward-0123456789abcdef0123" "ssh" "" "deny" true "ipv4" ["tcp"]
    [(22, 22); (8000, 8020)] "1h" (VInt 1000) (VInt 3000) (VInt 4600) VNone) "/usr/bin/ssh" (Some 1000)
    (a_destinations example_rule) None false)).
  assert (normalize example_env (VDict value) (VInt 1000) (app_dict example_rule) (VInt 3000) VNone ""
          = Ok (rule_dict r)) as Hn by (vm_compute; reflexivity).
  exists (rule_dict r). split; [exact Hn|].
  pose proof (deadline_of_edit example_env value (VInt 1000) (app_dict example_rule) (VInt 3000) VNone "" r Hn)
    as Hd.
  exact (f_equal Some Hd).
Defined.

Lemma lifecycle_correct_witness :
  exists l, lifecycle example_env (app_dict example_rule) VNone VNone = Ok l
    /\ (l = SAVED <-> in_force example_env example_common)
    /\ (l = DISABLED <-> c_enabled example_common = false)
    /\ (l = EXPIRED <-> c_enabled example_common = true /\ ~ in_force example_env example_common)
    /\ l <> REVIEW_REQUIRED.
Proof. apply (lifecycle_correct example_env (RApp example_rule)); [exact example_rule_wf | reflexivity]. Defined.

Definition example_policy : dict :=
  dlit [("schema", VStr SCHEMA); ("revision", VInt 3); ("rules", VList [VDict (app_dict example_rule)])].

Lemma migrate_accepts_canonical_witness :
  migrate example_env (VDict example_policy) = Ok (policy_defaults example_policy).
Proof.
  apply (migrate_accepts_canonical example_env example_policy [RApp example_rule]).
  - split; try reflexivity. exists 3. done.
  - reflexivity.
  - constructor; [|done]. split; [exact example_rule_wf|]. split; [exact example_fits|]. by split.
  - vm_compute. repeat constructor. by intros ?%elem_of_nil.
  - done.
Defined.

Definition legacy_policy : dict :=
  dlit [("default_action", VStr "deny");
        ("rules", VList [VDict (dlit [("path", VStr "*"); ("action", VStr "deny")]);
                         VDict (dlit [("path", VStr "/usr/bin/curl"); ("action", VStr "allow");
                                      ("host", VStr "example.org"); ("duration", VStr "once")])])].

Lemma migrate_legacy_correct_witness :
  exists q, migrate example_env (VDict legacy_policy) = Ok q /\ get "revision" q = VInt 0.
Proof.
  eexists. split; [vm_compute; reflexivity|].
  apply (migrate_legacy_correct example_env legacy_policy); [reflexivity|]. vm_compute. reflexivity.
Defined.
