(* ===== verification/NetworkLocation.v ===== *)
(** * The country of a destination ([network_location.py])

    The address classes of the [ipaddress] module, the weak host name hint, the
    geofeed rows and the weighted vote of the local sources. A database read
    through a library or a subprocess is an argument; the caches, which only
    repeat an earlier answer, are not modelled. *)
From S2P Require Import Prelude PyVal PyStr Json PyText IpAddr.

(** ** Address classes of the standard library *)

Definition networks (l : list string) : list ip_net := omap ip_network l.

Definition in_some (a : ip_addr) (l : list string) : bool := existsb (in_network a) (networks l).

Definition ipv4_mapped (a : ip_addr) : option ip_addr :=
  match a with
  | IPv6 n _ => if Z.shiftr n 32 =? 65535 then Some (IPv4 (Z.land n 4294967295)) else None
  | IPv4 _ => None
  end.

Definition private_v4 : list string :=
  ["0.0.0.0/8"; "10.0.0.0/8"; "127.0.0.0/8"; "169.254.0.0/16"; "172.16.0.0/12"; "192.0.0.0/24"; "192.0.0.170/31";
   "192.0.2.0/24"; "192.168.0.0/16"; "198.18.0.0/15"; "198.51.100.0/24"; "203.0.113.0/24"; "240.0.0.0/4";
   "255.255.255.255/32"].
Definition private_v4_exceptions : list string := ["192.0.0.9/32"; "192.0.0.10/32"].
Definition private_v6 : list string :=
  ["::1/128"; "::/128"; "::ffff:0:0/96"; "64:ff9b:1::/48"; "100::/64"; "2001::/23"; "2001:db8::/32"; "2002::/16";
   "3fff::/20"; "fc00::/7"; "fe80::/10"].
Definition private_v6_exceptions : list string :=
  ["2001:1::1/128"; "2001:1::2/128"; "2001:3::/32"; "2001:4:112::/48"; "2001:20::/28"; "2001:30::/28"].
Definition reserved_v6 : list string :=
  ["::/8"; "100::/8"; "200::/7"; "400::/6"; "800::/5"; "1000::/4"; "4000::/3"; "6000::/3"; "8000::/3"; "a000::/3";
   "c000::/3"; "e000::/4"; "f000::/5"; "f800::/6"; "fe00::/9"].

Definition is_private (a : ip_addr) : bool :=
  let a := match ipv4_mapped a with Some b => b | None => a end in
  match a with
  | IPv4 _ => in_some a private_v4 && negb (in_some a private_v4_exceptions)
  | IPv6 _ _ => in_some a private_v6 && negb (in_some a private_v6_exceptions)
  end.

Definition is_global (a : ip_addr) : bool :=
  match a with
  | IPv4 _ => negb (in_some a ["100.64.0.0/10"]) && negb (is_private a)
  | IPv6 _ _ => negb (is_private a)
  end.

Definition is_multicast (a : ip_addr) : bool :=
  in_some a (match a with IPv4 _ => ["224.0.0.0/4"] | IPv6 _ _ => ["ff00::/8"] end).
Definition is_reserved (a : ip_addr) : bool :=
  in_some a (match a with IPv4 _ => ["240.0.0.0/4"] | IPv6 _ _ => reserved_v6 end).
Definition is_loopback (a : ip_addr) : bool :=
  match a with IPv4 _ => in_some a ["127.0.0.0/8"] | IPv6 n _ => n =? 1 end.
Definition is_link_local (a : ip_addr) : bool :=
  in_some a (match a with IPv4 _ => ["169.254.0.0/16"] | IPv6 _ _ => ["fe80::/10"] end).
Definition is_unspecified (a : ip_addr) : bool := ip_int a =? 0.

Example address_classes :
  map (fun s => match ip_address s with Some a => (is_global a, is_reserved a, is_multicast a) | None => (false, false, false) end)
    ["8.8.8.8"; "10.1.2.3"; "100.64.0.1"; "192.0.0.9"; "250.0.0.1"; "224.0.0.251"; "2600::1"; "fd00::1"; "::ffff:10.0.0.1"; "400::1"; "ff02::1"]
  = [(true, false, false); (false, false, false); (false, false, false); (true, false, false); (false, true, false);
     (true, false, true); (true, false, false); (false, false, false); (false, true, false); (true, true, false); (true, false, true)].
Proof. vm_compute. reflexivity. Qed.

(** ** Countries of addresses and names *)

(** [_public_address(value)]. *)
Definition public_address (value : string) : option string :=
  address ← ip_address value;
  let address := match ipv4_mapped address with Some b => b | None => address end in
  if is_global address && negb (is_multicast address) && negb (is_reserved address) then Some (ip_str address) else None.

Definition capital (c : ascii) : bool := (65 <=? ord c) && (ord c <=? 90).

(** [_COUNTRY_CODE_RE.fullmatch(s)]. *)
Definition country_code_ok (s : string) : bool := (String.length s =? 2)%nat && str_forall capital s.

(** [_country_code(value)]. *)
Definition country_code `{FloatText} (value : val) : string :=
  let candidate := str_upper (strip (text_of value)) in if country_code_ok candidate then candidate else "".

Definition CC_TLD_COUNTRIES : list string := split " "
  "AD AE AF AG AI AL AM AO AQ AR AS AT AU AW AX AZ BA BB BD BE BF BG BH BI BJ BL BM BN BO BQ BR BS BT BV BW BY BZ CA CC CD CF CG CH CI CK CL CM CN CO CR CU CV CW CX CY CZ DE DJ DK DM DO DZ EC EE EG EH ER ES ET FI FJ FK FM FO FR GA GB GD GE GF GG GH GI GL GM GN GP GQ GR GS GT GU GW GY HK HM HN HR HT HU ID IE IL IM IN IO IQ IR IS IT JE JM JO JP KE KG KH KI KM KN KP KR KW KY KZ LA LB LC LI LK LR LS LT LU LV LY MA MC MD ME MF MG MH MK ML MM MN MO MP MQ MR MS MT MU MV MW MX MY MZ NA NC NE NF NG NI NL NO NP NR NU NZ OM PA PE PF PG PH PK PL PM PN PR PS PT PW PY QA RE RO RS RU RW SA SB SC SD SE SG SH SI SJ SK SL SM SN SO SR SS ST SV SX SY SZ TC TD TF TG TH TJ TK TL TM TN TO TR TT TV TW TZ UA UG UM US UY UZ VA VC VE VG VI VN VU WF WS YE YT ZA ZM ZW".

(** [country_hint_for_host(value)]; [value or ""] is the text given. *)
Definition country_hint_for_host (value : string) : string :=
  let host := str_lower (rstrip_char "." (strip value)) in
  let hint (host : string) :=
    let suffix := List.last (split "." host) "" in
    if String.eqb suffix "uk" then "GB"
    else if existsb (String.eqb (str_upper suffix)) CC_TLD_COUNTRIES then str_upper suffix else "" in
  if String.eqb host "" || str_contains "://" host then ""
  else if startswith "[" host && has_char "]" host
  then hint ((partition_at "]" (str_drop 1 host)).1.1)
  else match ip_address host with Some _ => "" | None => hint host end.

(** ** The geofeed *)

Definition row_leb (x y : ip_net * string) : bool :=
  let key (r : ip_net * string) := (net_str r.1, r.2) in
  let text_leb a b := match String.compare a b with Gt => false | _ => true end in
  if net_plen x.1 =? net_plen y.1
  then if String.eqb (key x).1 (key y).1 then text_leb x.2 y.2 else text_leb (key x).1 (key y).1
  else net_plen y.1 <? net_plen x.1.

(** [_geofeed_entries] on the rows of the file. *)
Definition geofeed_entries `{FloatText} (rows : list (list string)) : list (ip_net * string) :=
  let entry (row : list string) :=
    match row with
    | [] => None
    | prefix :: rest =>
        if String.eqb (strip prefix) "" || startswith "#" (lstrip_by isspace_char prefix) then None
        else
          network ← ip_network (strip prefix);
          let country := country_code (VStr (hd "" rest)) in
          if String.eqb country "" then None else Some (network, country)
    end in
  sort_by row_leb (omap entry rows).

(** [_country_from_geofeed(address, path)]. *)
Definition country_from_geofeed `{FloatText} (rows : list (list string)) (address : string) : string :=
  match ip_address address with
  | Some a => match List.find (fun e => in_network a e.1) (geofeed_entries rows) with Some e => e.2 | None => "" end
  | None => ""
  end.

(** ** The vote of the local sources *)

(** A configured source: its name, the name and the age of its file ([None]
    when it is missing or unreadable), its answer and its weight. *)
Record source := Source {
  s_name : string;
  s_file : option string;
  s_mtime : option Z;
  s_lookup : string -> string;
  s_weight : Z;
}.

(** What the answer of a source rests on. *)
Record detail := Detail { d_source : string; d_available : bool; d_age : option Z; d_freshness : string }.

Record vote := Vote { v_source : string; v_country : string; v_weight : Z }.

(** [int((time.time() - mtime) / 86400)], not below zero, in whole seconds. *)
Definition age_days (time mtime : Z) : Z := Z.max 0 (Z.quot (time - mtime) 86400).

Definition source_age (time : Z) (s : source) : option Z :=
  match s_file s with Some _ => option_map (age_days time) (s_mtime s) | None => None end.

Definition source_country (time : Z) (address : string) (s : source) : string :=
  match source_age time s with Some _ => s_lookup s address | None => "" end.

Definition source_detail (time : Z) (address : string) (s : source) : detail :=
  let age := source_age time s in
  let stale_after := match s_file s with Some f => if String.eqb f "dbip-country-lite.mmdb" then 62 else 180 | None => 180 end in
  Detail (s_name s) (negb (String.eqb (source_country time address s) "")) age
    (match age with None => "UNKNOWN" | Some a => if stale_after <? a then "STALE" else "RECENT" end).

Definition source_vote (time : Z) (address : string) (s : source) : option vote :=
  let country := source_country time address s in
  if String.eqb country "" then None else Some (Vote (s_name s) country (s_weight s)).

Definition weight_of (votes : list vote) (country : string) : Z :=
  fold_right (fun v n => if String.eqb (v_country v) country then v_weight v + n else n) 0 votes.

Definition count_of (votes : list vote) (country : string) : Z :=
  fold_right (fun v n => if String.eqb (v_country v) country then 1 + n else n) 0 votes.

(** [(-totals[c], -counts[c], c)] as an order on countries. *)
Definition country_leb (votes : list vote) (c d : string) : bool :=
  if weight_of votes c =? weight_of votes d then
    if count_of votes c =? count_of votes d then match String.compare c d with Gt => false | _ => true end
    else count_of votes d <? count_of votes c
  else weight_of votes d <? weight_of votes c.

(** The keys of [totals]. *)
Fixpoint distinct_countries (votes : list vote) : list string :=
  match votes with
  | [] => []
  | v :: votes => v_country v :: List.filter (fun c => negb (String.eqb c (v_country v))) (distinct_countries votes)
  end.

(** [min(totals, key=...)]. *)
Definition selected_country (votes : list vote) : string :=
  match distinct_countries votes with
  | [] => ""
  | c :: cs => fold_left (fun best c => if country_leb votes best c then best else c) cs c
  end.

Record resolution := Resolution {
  country_of : string;
  confidence : string;
  converged : bool;
  source_count : Z;
  availability : string;
  sources : list detail;
}.

(** [_resolution_uncached(value)] for [str(value or "")]. *)
Definition resolution_uncached (time : Z) (inputs : list source) (value : string) : resolution :=
  match public_address (strip value) with
  | None => Resolution "" "NONE" false 0 "UNKNOWN" []
  | Some address =>
      let details := map (source_detail time address) inputs in
      let votes := omap (source_vote time address) inputs in
      match votes with
      | [] => Resolution "" "NONE" false 0 "UNKNOWN" details
      | _ =>
          let converged := (length (distinct_countries votes) =? 1)%nat in
          let used := List.filter d_available details in
          let stale := existsb (fun d => String.eqb (d_freshness d) "STALE") used in
          let confidence :=
            if stale then "VERY_LOW"
            else if forallb (fun d => String.eqb (d_source d) "geoip-legacy") used then "LOW"
            else if converged && (2 <=? Z.of_nat (length votes)) then "HIGH"
            else if converged then "MEDIUM" else "LOW" in
          Resolution (selected_country votes) confidence converged (Z.of_nat (length votes))
            (if stale then "STALE" else "AVAILABLE") details
      end
  end.

(** [_country_from_mmdb] on the record the library returns. *)
Definition country_of_record `{FloatText} (record : val) : string :=
  match record with
  | VDict r => match get "country" r with VDict country => country_code (get "iso_code" country) | _ => "" end
  | _ => ""
  end.

Definition detail_val (d : detail) : val :=
  VDict (dlit [("source", VStr (d_source d)); ("available", VBool (d_available d));
               ("age_days", match d_age d with Some a => VInt a | None => VNone end);
               ("age_basis", VStr "FILE_MTIME"); ("freshness", VStr (d_freshness d))]).

(** [country_resolution_for_destination(ip, host)]: the host name is not used. *)
Definition country_resolution_for_destination (time : Z) (inputs : list source) (ip : string) : dict :=
  let r := resolution_uncached time inputs ip in
  dlit [("country_code", VStr (country_of r)); ("confidence", VStr (confidence r)); ("converged", VBool (converged r));
        ("source_count", VInt (source_count r)); ("availability", VStr (availability r));
        ("sources", VList (map detail_val (sources r)));
        ("source", VStr (if String.eqb (country_of r) "" then "NONE" else "LOCAL"))].

(** ** Properties *)

Section vote_order.
Variable votes : list vote.

Lemma country_leb_spec c d :
  country_leb votes c d = true <->
  weight_of votes d < weight_of votes c
  \/ (weight_of votes d = weight_of votes c
      /\ (count_of votes d < count_of votes c
          \/ (count_of votes d = count_of votes c /\ String.compare c d <> Gt))).
Proof.
  unfold country_leb. destruct (Z.eqb_spec (weight_of votes c) (weight_of votes d)) as [Hw|Hw].
  - destruct (Z.eqb_spec (count_of votes c) (count_of votes d)) as [Hc|Hc].
    + destruct (String.compare c d) eqn:E; naive_solver lia.
    + rewrite Z.ltb_lt. naive_solver lia.
  - rewrite Z.ltb_lt. naive_solver lia.
Qed.

Lemma country_leb_total c d : country_leb votes c d = true \/ country_leb votes d c = true.
Proof.
  rewrite !country_leb_spec, (String.compare_antisym d c).
  destruct (String.compare c d); simpl; destruct (Z.lt_total (weight_of votes c) (weight_of votes d)) as [|[|]],
    (Z.lt_total (count_of votes c) (count_of votes d)) as [|[|]]; naive_solver lia.
Qed.

Lemma country_leb_antisym c d : country_leb votes c d = true -> country_leb votes d c = true -> c = d.
Proof.
  rewrite !country_leb_spec, (String.compare_antisym d c). intros Hc Hd. apply string_compare_Eq.
  destruct (String.compare c d); simpl in *; [done|exfalso; naive_solver lia..].
Qed.

Lemma country_leb_trans c d e :
  country_leb votes c d = true -> country_leb votes d e = true -> country_leb votes c e = true.
Proof.
  rewrite !country_leb_spec. intros Hc Hd.
  destruct Hc as [Hc|(Hw & [Hc|(Hn & Hc)])], Hd as [Hd|(Hw' & [Hd|(Hn' & Hd)])];
    try (left; lia); try (right; split; [lia|left; lia]).
  right. split; [lia|]. right. split; [lia|].
  by eapply string_compare_le_trans.
Qed.

Lemma fold_best_In cs c : In (fold_left (fun best c => if country_leb votes best c then best else c) cs c) (c :: cs).
Proof.
  revert c; induction cs as [|d cs IH]; intros c; cbn [fold_left]; [by left|].
  destruct (country_leb votes c d).
  - destruct (IH c) as [Heq|Hin]; [by left|]. right. by right.
  - right. apply IH.
Qed.

Lemma fold_best_least cs c d :
  In d (c :: cs) -> country_leb votes (fold_left (fun best c => if country_leb votes best c then best else c) cs c) d = true.
Proof.
  revert c d; induction cs as [|e cs IH]; intros c d; cbn [fold_left].
  - intros [->|[]]. destruct (country_leb_total d d); done.
  - intros Hin. destruct (country_leb votes c e) eqn:E.
    + destruct Hin as [->|[->|Hin]]; [apply IH; by left| |apply IH; by right].
      eapply country_leb_trans; [apply (IH c); by left|done].
    + assert (country_leb votes e c = true) as E' by (destruct (country_leb_total c e); congruence).
      destruct Hin as [->|[->|Hin]]; [|apply IH; by left|apply IH; by right].
      eapply country_leb_trans; [apply (IH e); by left|done].
Qed.

Lemma distinct_countries_In c l : In c (distinct_countries l) <-> exists v, In v l /\ v_country v = c.
Proof.
  induction l as [|v l IH]; cbn [distinct_countries In]; [naive_solver|].
  rewrite List.filter_In, IH. split.
  - intros [<-|((w & Hw & <-) & _)]; [exists v|exists w]; tauto.
  - intros (w & [->|Hw] & <-); [by left|]. destruct (String.eqb_spec (v_country w) (v_country v)) as [->|Hn]; [by left|].
    right. split; [by exists w|done].
Qed.

Lemma selected_In : votes <> [] -> exists v, In v votes /\ v_country v = selected_country votes.
Proof.
  intros Hn. unfold selected_country. destruct (distinct_countries votes) as [|c cs] eqn:E; [by destruct votes|].
  apply distinct_countries_In. rewrite E. apply fold_best_In.
Qed.

Lemma selected_least v : In v votes -> country_leb votes (selected_country votes) (v_country v) = true.
Proof.
  intros Hv. assert (In (v_country v) (distinct_countries votes)) as Hin by (apply distinct_countries_In; by exists v).
  unfold selected_country. destruct (distinct_countries votes) as [|c cs]; [done|]. by apply fold_best_least.
Qed.
End vote_order.

Definition votes_of (time : Z) (inputs : list source) (address : string) : list vote :=
  omap (source_vote time address) inputs.

Lemma one_country votes :
  (length (distinct_countries votes) =? 1)%nat = true ->
  forall v, In v votes -> v_country v = selected_country votes.
Proof.
  intros Hl v Hv. destruct (selected_In votes) as (w & Hw & Hs); [by intros ->|]. rewrite <- Hs.
  assert (In (v_country v) (distinct_countries votes)) as H1 by (apply distinct_countries_In; by exists v).
  assert (In (v_country w) (distinct_countries votes)) as H2 by (apply distinct_countries_In; by exists w).
  destruct (distinct_countries votes) as [|c [|d l]]; [done| |done]. destruct H1 as [<-|[]], H2 as [<-|[]]. done.
Qed.

Lemma some_countries votes :
  (forall v, In v votes -> v_country v = selected_country votes) -> votes <> [] ->
  (length (distinct_countries votes) =? 1)%nat = true.
Proof.
  intros Hall Hn. destruct votes as [|v votes]; [done|]. cbn [distinct_countries].
  destruct (List.filter _ _) as [|c l] eqn:E; [done|exfalso].
  assert (In c (c :: l)) as Hc by by left. rewrite <- E in Hc. apply List.filter_In in Hc as [Hc Hx].
  apply distinct_countries_In in Hc as (w & Hw & <-).
  rewrite (Hall w (or_intror Hw)), (Hall v (or_introl eq_refl)), String.eqb_refl in Hx. done.
Qed.

(** The vote of the local sources: the country reported is that of some
    source that answered, no other answer has a greater total weight, ties go
    to the larger number of sources and then to the smaller code, [converged]
    says that all answers agree, and HIGH confidence is claimed only for two or
    more agreeing sources of which none is stale. *)
Theorem country_vote_correct time inputs value address :
  public_address (strip value) = Some address -> votes_of time inputs address <> [] ->
  let votes := votes_of time inputs address in
  let r := resolution_uncached time inputs value in
  (exists v, In v votes /\ v_country v = country_of r)
  /\ (forall v, In v votes -> country_leb votes (country_of r) (v_country v) = true)
  /\ (converged r = true <-> forall v, In v votes -> v_country v = country_of r)
  /\ (confidence r = "HIGH" -> (2 <= length votes)%nat /\ converged r = true /\ availability r = "AVAILABLE").
Proof.
  intros Ha Hn votes r.
  assert (country_of r = selected_country votes /\ converged r = (length (distinct_countries votes) =? 1)%nat
    /\ (confidence r = "HIGH" -> (2 <= length votes)%nat /\ converged r = true /\ availability r = "AVAILABLE"))
    as (-> & -> & Hh).
  { unfold r, resolution_uncached. rewrite Ha. unfold votes_of in *. fold votes.
    destruct votes as [|v l] eqn:E; [done|]. rewrite <- E. cbn [country_of converged confidence availability].
    split; [done|]. split; [done|]. destruct (existsb _ _); [done|]. destruct (forallb _ _); [done|].
    destruct (length (distinct_countries votes) =? 1)%nat; [|done]. cbn [andb].
    destruct (2 <=? Z.of_nat (length votes)) eqn:E2; [|done]. apply Z.leb_le in E2. intros _. split; [lia|done]. }
  split; [by apply selected_In|]. split; [apply selected_least|]. split; [|done].
  split; [apply one_country|]. intros Hall. by apply some_countries.
Qed.

Definition example_sources : list source :=
  [Source "geoip" (Some "dbip-country-lite.mmdb") (Some 1780000000) (fun _ => "DE") 4;
   Source "geoip-secondary" None None (fun _ => "") 3;
   Source "geoip-legacy" (Some "GeoIP.dat") (Some 1790000000) (fun _ => "FR") 2;
   Source "geofeed" (Some "geofeed.csv") (Some 1790000000) (fun a => if String.eqb a "9.9.9.9" then "FR" else "") 1].

Lemma country_vote_correct_witness :
  country_of (resolution_uncached 1790000100 example_sources " 9.9.9.9") = "DE"
  /\ converged (resolution_uncached 1790000100 example_sources " 9.9.9.9") = false
  /\ country_leb (votes_of 1790000100 example_sources "9.9.9.9") "DE" "FR" = true.
Proof.
  destruct (country_vote_correct 1790000100 example_sources " 9.9.9.9" "9.9.9.9") as (_ & Hl & _);
    [vm_compute; reflexivity|vm_compute; discriminate|].
  split; [vm_compute; reflexivity|]. split; [vm_compute; reflexivity|].
  apply (Hl (Vote "geofeed" "FR" 1)). vm_compute. tauto.
Defined.
