(* ===== verification/PolicyDecision.v ===== *)
(** * The decision for a connection ([control_plane.py], [select_policy_rule])

    The tiers of the network decision: threat exceptions, threat indicators,
    the reviewed user rules, managed DNS and the default action. The threat
    snapshot and the DNS servers observed on the system are arguments. *)
From S2P Require Import Prelude PyVal PyStr IpAddr NetworkRules RuleSpec NormalizeProps RulesCorrect.
From S2P Require Import PyText RuleClaims.

Definition DNS_POLICY_PORTS : list Z := [53; 853].
Definition DNS_PROVIDER_ADDRESSES : list string :=
  ["9.9.9.9"; "149.112.112.112"; "2620:fe::fe"; "2620:fe::9"; "76.76.2.2"; "76.76.10.2"; "2606:1a40::2";
   "2606:1a40:1::2"; "94.140.14.14"; "94.140.15.15"; "2a10:50c0::ad1:ff"; "2a10:50c0::ad2:ff"].
Definition LOCAL_RESOLVER_ADDRESSES : list string := ["127.0.0.53"; "127.0.0.54"; "::1"].

(** What the decision reads of the system besides the policy: the threat
    indicator of a connection and the resolver addresses in use. *)
Record surroundings := Surroundings {
  indicator_of : connection -> option dict;
  vpn_dns : list string;
  private_dns : list string;
  default_dns : list string;
}.

Section decision.
Context `{Host}.

(** [destination["ip"]] and [destination["port"]] of [_destination]. *)
Definition destination_ip (c : connection) : val := text_or_none (clean (dst_ip c) 64).
Definition destination_port (c : connection) : Z := dst_port c.

(** [int(rule.get("port", 0) or 0)]. *)
Definition rule_port (rule : dict) : res Z := py_int (py_or (getd "port" (VInt 0) rule) (VInt 0)).

(** The nested [matches(rule, exact_application=True)]. *)
Definition exact_exception (rule : dict) (c : connection) : res bool :=
  let ip := destination_ip c in
  if negb (is_str (process_path c) (get "path" rule) && is_str "allow" (get "action" rule)
           && py_eq (get "ip" rule) ip) then Ok false
  else
    port ← rule_port rule;
    Ok ((port =? destination_port c) && truthy ip && negb (destination_port c =? 0)
        && (is_none (get "uid" rule) || py_eq (get "uid" rule) (VInt (user_id c)))).

(** Tier 1: the first exception that matches exactly. *)
Fixpoint threat_exception (rules : list val) (c : connection) : res (option dict) :=
  match rules with
  | [] => Ok None
  | VDict rule :: rules =>
      if is_str "THREAT_EXCEPTION" (get "tier" rule) then
        b ← exact_exception rule c;
        if b : bool then Ok (Some rule) else threat_exception rules c
      else threat_exception rules c
  | _ :: rules => threat_exception rules c
  end.

(** Tier 2: the indicator, unless switched off or excepted. *)
Definition threat_indicator (sys : surroundings) (policy : dict) (exception : option dict) (c : connection)
  : res (option dict) :=
  config ← as_dict (getd "threat_intel" (VDict []) policy);
  match exception with
  | None => Ok (if is_true (getd "enabled" (VBool true) config) then indicator_of sys c else None)
  | Some _ => Ok None
  end.

Definition indicator_rule (i : dict) : dict :=
  let text v := match v with VStr s => s | VInt z => str_of_Z z | _ => "None" end in
  dset "indicator_id" (VStr (text (get "ip" i) +:+ ":" +:+ text (get "port" i)))
    (dset "name" (VStr "GREYWARD Feodo known malicious C2") (dset "duration" (VStr "always")
    (dset "action" (VStr "deny") (dset "path" (VStr "*") (dset "tier" (VStr "THREAT") i))))).

Definition dns_port (c : connection) : bool := existsb (Z.eqb (dst_port c)) DNS_POLICY_PORTS.

(** The user tier: the first rule that matches and is not a generic Allow on a
    managed DNS port. *)
Fixpoint user_rule (E : env) (rules : list val) (c : connection) : res (option (val * dict)) :=
  match rules with
  | [] => Ok None
  | VDict rule :: rules =>
      if is_str "application" (get "provider" rule) then
        b ← matches E rule c;
        if negb b then user_rule E rules c else
        action ← item "action" rule;
        if dns_port c && is_str "allow" action && negb (is_true (get "dns_exception" rule))
        then user_rule E rules c
        else Ok (Some (action, rule))
      else user_rule E rules c
  | _ :: rules => user_rule E rules c
  end.

Definition builtin (path : string) (ip : option string) (port : Z) (name : string) : dict :=
  match ip with
  | Some ip => dlit [("path", VStr path); ("ip", VStr ip); ("port", VInt port); ("name", VStr name)]
  | None => dlit [("path", VStr path); ("port", VInt port); ("name", VStr name)]
  end.

Definition in_texts (s : string) (l : list string) : bool := existsb (String.eqb s) l.

(** The managed-DNS tier: the resolver paths that may leave the machine. *)
Definition dns_decision (sys : surroundings) (c : connection) : val * val * option dict :=
  let port := dst_port c in
  let ip := dst_ip c in
  let path := process_path c in
  let allow r := (VStr "allow", VStr "always", Some r) in
  if (port =? 53) && in_texts ip LOCAL_RESOLVER_ADDRESSES then
    allow (builtin "*" (Some ip) port "GREYWARD local resolver stub")
  else if endswith "/systemd-resolved" path && (port =? 853) && in_texts ip DNS_PROVIDER_ADDRESSES then
    allow (builtin path None port "GREYWARD managed resolver upstream")
  else if endswith "/systemd-resolved" path && (port =? 53) && in_texts ip (vpn_dns sys) then
    allow (builtin path (Some ip) port "GREYWARD active VPN resolver upstream")
  else if String.eqb path "/usr/lib/systemd/systemd-resolved" && in_texts ip (private_dns sys) then
    allow (builtin path (Some ip) port "GREYWARD private-domain resolver upstream")
  else if String.eqb path "/usr/lib/systemd/systemd-resolved" && in_texts ip (default_dns sys) then
    allow (builtin path (Some ip) port "GREYWARD explicit Network Default resolver upstream")
  else (VStr "deny", VStr "always", Some (builtin "*" None port "GREYWARD deny direct DNS outside managed resolver")).

(** [select_policy_rule(connection)] under the loaded policy. *)
Definition select_policy_rule (E : env) (sys : surroundings) (policy : dict) (c : connection)
  : res (val * val * option dict) :=
  rules ← (rules ← item "rules" policy; as_list rules);
  exception ← threat_exception rules c;
  indicator ← threat_indicator sys policy exception c;
  match indicator with
  | Some i => Ok (VStr "deny", VStr "always", Some (indicator_rule i))
  | None =>
      user ← user_rule E rules c;
      match user with
      | Some (action, rule) => Ok (action, VStr "once", Some rule)
      | None =>
          dns_policy ← as_dict (getd "dns_policy" (VDict []) policy);
          if is_true (get "enforce" dns_policy) && dns_port c then Ok (dns_decision sys c)
          else
            action ← item "default_action" policy;
            duration ← item "default_duration" policy;
            Ok (action, duration, exception)
      end
  end.

(** [default_policy()] and the policy used when none can be validated. *)
Definition default_policy : dict :=
  dlit [("default_action", VStr "allow"); ("default_duration", VStr "once"); ("interactive_prompts", VBool false);
        ("dns_policy", dns_policy_value);
        ("threat_intel", VDict (dlit [("enabled", VBool true); ("provider", VStr "feodo-recommended")]));
        ("rules", VList [])].

Definition unavailable_policy (error : string) : dict :=
  dset "policy_error" (VStr error) (dset "default_action" (VStr "deny") default_policy).

(** [load_policy()] given the outcome of the store's read: only a [PolicyError]
    is handled. *)
Definition load_policy (read : res dict) : res dict :=
  try_with read is_policy_error (fun e => Ok (unavailable_policy (exn_text e))).

(** ** Lemmas *)

(** The resolver connections the managed-DNS tier lets out. *)
Definition resolver_path (sys : surroundings) (c : connection) : Prop :=
  (dst_port c = 53 /\ In (dst_ip c) LOCAL_RESOLVER_ADDRESSES)
  \/ (endswith "/systemd-resolved" (process_path c) = true /\
      ((dst_port c = 853 /\ In (dst_ip c) DNS_PROVIDER_ADDRESSES) \/ (dst_port c = 53 /\ In (dst_ip c) (vpn_dns sys))))
  \/ (process_path c = "/usr/lib/systemd/systemd-resolved" /\
      (In (dst_ip c) (private_dns sys) \/ In (dst_ip c) (default_dns sys))).

Lemma in_texts_In s l : in_texts s l = true <-> In s l.
Proof.
  unfold in_texts. rewrite existsb_exists. split; [intros (x & Hx & ->%String.eqb_eq); done|].
  intros Hs. exists s. by rewrite String.eqb_refl.
Qed.

Lemma dns_decision_spec sys c :
  exists action selected, dns_decision sys c = (VStr action, VStr "always", Some selected)
    /\ (action = "allow" <-> resolver_path sys c) /\ (action = "allow" \/ action = "deny").
Proof.
  unfold dns_decision, resolver_path. setoid_rewrite <- in_texts_In.
  destruct ((dst_port c =? 53) && in_texts (dst_ip c) LOCAL_RESOLVER_ADDRESSES) eqn:E1.
  { split_bool. zify_bool. do 2 eexists. split; [reflexivity|]. tauto. }
  destruct (endswith "/systemd-resolved" (process_path c) && (dst_port c =? 853)
            && in_texts (dst_ip c) DNS_PROVIDER_ADDRESSES) eqn:E2.
  { split_bool. zify_bool. do 2 eexists. split; [reflexivity|]. tauto. }
  destruct (endswith "/systemd-resolved" (process_path c) && (dst_port c =? 53)
            && in_texts (dst_ip c) (vpn_dns sys)) eqn:E3.
  { split_bool. zify_bool. do 2 eexists. split; [reflexivity|]. tauto. }
  destruct (String.eqb_spec (process_path c) "/usr/lib/systemd/systemd-resolved") as [Hp|Hp]; cbn [andb].
  - destruct (in_texts (dst_ip c) (private_dns sys)) eqn:E4.
    { do 2 eexists. split; [reflexivity|]. tauto. }
    destruct (in_texts (dst_ip c) (default_dns sys)) eqn:E5.
    { do 2 eexists. split; [reflexivity|]. tauto. }
    do 2 eexists. split; [reflexivity|]. split; [|by right]. split; [done|].
    intros [[Hd Ha]|[(He & [[Hd Ha]|[Hd Ha]])|(_ & [?|?])]]; try congruence;
      rewrite ?Hd, ?He, ?Ha in E1; rewrite ?Hd, ?He, ?Ha in E2; rewrite ?Hd, ?He, ?Ha in E3; done.
  - do 2 eexists. split; [reflexivity|]. split; [|by right]. split; [done|].
    intros [[Hd Ha]|[(He & [[Hd Ha]|[Hd Ha]])|(? & _)]]; try congruence;
      rewrite ?Hd, ?He, ?Ha in E1; rewrite ?Hd, ?He, ?Ha in E2; rewrite ?Hd, ?He, ?Ha in E3; done.
Qed.

(** The rule the user tier selects. *)
Definition selects (E : env) (c : connection) (rule : dict) : Prop :=
  is_str "application" (get "provider" rule) = true /\ matches E rule c = Ok true
  /\ (dns_port c = true -> is_str "allow" (get "action" rule) = true ->
      is_true (get "dns_exception" rule) = true).

Lemma user_rule_Some E rules c action rule :
  user_rule E rules c = Ok (Some (action, rule)) ->
  dget "action" rule = Some action /\ selects E c rule /\
  exists before after, rules = before ++ VDict rule :: after
    /\ forall r, In (VDict r) before -> ~ selects E c r.
Proof.
  induction rules as [|v rules IH]; [done|]. cbn [user_rule].
  assert (user_rule E rules c = Ok (Some (action, rule)) -> (forall r, v = VDict r -> ~ selects E c r) ->
    dget "action" rule = Some action /\ selects E c rule /\
    exists before after, v :: rules = before ++ VDict rule :: after
      /\ forall r, In (VDict r) before -> ~ selects E c r) as Hskip.
  { intros Hu Hv. destruct (IH Hu) as (? & ? & before & after & -> & Hb). split; [done|]. split; [done|].
    exists (v :: before), after. split; [done|]. intros r [->|Hr]; [by apply Hv|by apply Hb]. }
  destruct v as [| | | | | |r]; try (intros Hu; apply Hskip; [done|by intros]).
  destruct (is_str "application" (get "provider" r)) eqn:Hp.
  2: { intros Hu. apply Hskip; [done|]. intros ? [= <-] (Hx & _). congruence. }
  destruct (matches E r c) as [b|] eqn:Hm; [|done]. cbn [mbind res_bind]. destruct b; cbn [negb].
  2: { intros Hu. apply Hskip; [done|]. intros ? [= <-] (_ & Hx & _). congruence. }
  unfold item. destruct (dget "action" r) as [a|] eqn:Ha; [|done]. cbn [mbind res_bind].
  assert (get "action" r = a) as Hg by (unfold get, getd; by rewrite Ha).
  destruct (dns_port c && is_str "allow" a && negb (is_true (get "dns_exception" r))) eqn:Hd.
  - intros Hu. apply Hskip; [done|]. intros ? [= <-] (_ & _ & Hx). rewrite Hg in Hx. split_bool.
    rewrite Hx in * by done. done.
  - intros Hu. assert (a = action /\ r = rule) as [-> ->] by (split; congruence).
    split; [done|]. split.
    + split; [done|]. split; [done|]. rewrite Hg. intros Hdp Hal. rewrite Hdp, Hal in Hd. cbn in Hd.
      by apply negb_false_iff in Hd.
    + by exists [], rules.
Qed.

Lemma user_rule_None E rules c :
  user_rule E rules c = Ok None -> forall r, In (VDict r) rules -> ~ selects E c r.
Proof.
  induction rules as [|v rules IH]; [done|]. cbn [user_rule].
  assert (user_rule E rules c = Ok None -> (forall r, v = VDict r -> ~ selects E c r) ->
    forall r, In (VDict r) (v :: rules) -> ~ selects E c r) as Hskip.
  { intros Hu Hv r [->|Hr]; [by apply Hv|by apply IH]. }
  destruct v as [| | | | | |r]; try (intros Hu; apply Hskip; [done|by intros]).
  destruct (is_str "application" (get "provider" r)) eqn:Hp.
  2: { intros Hu. apply Hskip; [done|]. intros ? [= <-] (Hx & _). congruence. }
  destruct (matches E r c) as [b|] eqn:Hm; [|done]. cbn [mbind res_bind]. destruct b; cbn [negb].
  2: { intros Hu. apply Hskip; [done|]. intros ? [= <-] (_ & Hx & _). congruence. }
  unfold item. destruct (dget "action" r) as [a|] eqn:Ha; [|done]. cbn [mbind res_bind].
  assert (get "action" r = a) as Hg by (unfold get, getd; by rewrite Ha).
  destruct (dns_port c && is_str "allow" a && negb (is_true (get "dns_exception" r))) eqn:Hd; [|done].
  intros Hu. apply Hskip; [done|]. intros ? [= <-] (_ & _ & Hx). rewrite Hg in Hx. split_bool.
  rewrite Hx in * by done. done.
Qed.

Lemma threat_exception_Some rules c r :
  threat_exception rules c = Ok (Some r) ->
  In (VDict r) rules /\ is_str "THREAT_EXCEPTION" (get "tier" r) = true /\ exact_exception r c = Ok true.
Proof.
  induction rules as [|v rules IH]; [done|]. cbn [threat_exception].
  destruct v as [| | | | | |rule]; try (intros Ht; destruct (IH Ht) as (? & ? & ?); split; [by right|done]).
  destruct (is_str "THREAT_EXCEPTION" (get "tier" rule)) eqn:Et; [|intros Ht; destruct (IH Ht) as (? & ? & ?); split; [by right|done]].
  destruct (exact_exception rule c) as [[]|] eqn:Ee; cbn [mbind res_bind]; [| |done].
  - intros Ht. assert (rule = r) as -> by congruence. split; [by left|done].
  - intros Ht. destruct (IH Ht) as (? & ? & ?). split; [by right|done].
Qed.
End decision.

(** ** Properties *)

(** C10. On a connection to a managed DNS port, while DNS is enforced and the
    default is not consulted, an Allow comes only from a reviewed rule that
    carries an explicit DNS exception or from a resolver path of the managed
    DNS tier: no generic Allow rule lets an application reach a DNS server. *)
Theorem dns_stays_managed `{Host} E sys policy c duration selected :
  dns_port c = true -> is_true (get "enforce" (match getd "dns_policy" (VDict []) policy with VDict d => d | _ => [] end)) = true ->
  select_policy_rule E sys policy c = Ok (VStr "allow", duration, selected) ->
  (exists rule, selected = Some rule /\ matches E rule c = Ok true /\ is_true (get "dns_exception" rule) = true)
  \/ resolver_path sys c.
Proof.
  intros Hport Henf Hs. unfold select_policy_rule in Hs.
  apply bind_Ok in Hs as (rules & _ & Hs). apply bind_Ok in Hs as (exception & _ & Hs).
  apply bind_Ok in Hs as (indicator & _ & Hs). destruct indicator as [i|]; [done|].
  apply bind_Ok in Hs as (user & Hu & Hs). destruct user as [[action rule]|].
  - left. exists rule. destruct (user_rule_Some _ _ _ _ _ Hu) as (Ha & (_ & Hm & Hd) & _).
    assert (action = VStr "allow" /\ selected = Some rule) as [-> ->] by (split; congruence).
    split; [done|]. split; [done|]. apply Hd; [done|]. unfold get, getd. by rewrite Ha.
  - right. apply bind_Ok in Hs as (dns & Hdns & Hs).
    destruct (getd "dns_policy" _ _) as [| | | | | |d]; try done. injection Hdns as <-.
    rewrite Henf, Hport in Hs. cbn [andb] in Hs.
    destruct (dns_decision_spec sys c) as (a & sel & Hd & Hiff & _). rewrite Hd in Hs.
    apply Hiff. congruence.
Qed.

(** A connection that matches a threat indicator is denied whatever the
    user rules and defaults say, unless an exact exception for that executable,
    address, port and user exists or the protection is switched off. *)
Theorem threats_are_denied `{Host} E sys policy c rules config i :
  item "rules" policy = Ok (VList rules) -> threat_exception rules c = Ok None ->
  getd "threat_intel" (VDict []) policy = VDict config -> is_true (getd "enabled" (VBool true) config) = true ->
  indicator_of sys c = Some i ->
  select_policy_rule E sys policy c = Ok (VStr "deny", VStr "always", Some (indicator_rule i)).
Proof.
  intros Hr He Hc Hen Hi. unfold select_policy_rule. rewrite Hr. cbn [mbind res_bind as_list]. rewrite He.
  cbn [mbind res_bind]. unfold threat_indicator. rewrite Hc. cbn [as_dict mbind res_bind]. rewrite Hen, Hi. done.
Qed.

(** When the user tier decides, the decision is the verdict of the first
    rule, in the reviewed order, that is in force for the connection; and an
    exception that suppressed an indicator is one that names the executable,
    the address, the port and the user of the connection. *)
Theorem first_rule_decides `{Host} E sys policy c action selected :
  select_policy_rule E sys policy c = Ok (action, VStr "once", Some selected) ->
  (exists rules, item "rules" policy = Ok (VList rules) /\
     ((exists before after, rules = before ++ VDict selected :: after /\ selects E c selected
        /\ dget "action" selected = Some action /\ forall r, In (VDict r) before -> ~ selects E c r)
      \/ (is_str "THREAT_EXCEPTION" (get "tier" selected) = true /\ exact_exception selected c = Ok true))).
Proof.
  intros Hs. unfold select_policy_rule in Hs. apply bind_Ok in Hs as (rules & Hr & Hs).
  apply bind_Ok in Hr as (v & Hv & Hr). destruct v as [| | | | |l|]; try done. injection Hr as ->.
  exists rules. split; [done|].
  apply bind_Ok in Hs as (exception & He & Hs). apply bind_Ok in Hs as (indicator & _ & Hs).
  destruct indicator as [i|]; [done|]. apply bind_Ok in Hs as (user & Hu & Hs). destruct user as [[a rule]|].
  - left. destruct (user_rule_Some _ _ _ _ _ Hu) as (Ha & Hsel & before & after & Hl & Hb).
    assert (a = action /\ rule = selected) as [-> ->] by (split; congruence). by exists before, after.
  - right. apply bind_Ok in Hs as (dns & _ & Hs).
    destruct (is_true (get "enforce" dns) && dns_port c).
    + exfalso. destruct (dns_decision_spec sys c) as (x & sel & Hd & _). rewrite Hd in Hs. congruence.
    + apply bind_Ok in Hs as (x & _ & Hs). apply bind_Ok in Hs as (y & _ & Hs).
      assert (exception = Some selected) as -> by congruence. by apply threat_exception_Some in He as (_ & ? & ?).
Qed.

(** ** Instances *)

Definition example_surroundings : surroundings := Surroundings
  (fun c => if String.eqb (dst_ip c) "45.9.8.7"
            then Some (dlit [("ip", VStr "45.9.8.7"); ("port", VInt 443); ("malware", VStr "sample")]) else None)
  ["10.8.0.1"] [] [].

Definition decision_policy : dict := policy_defaults example_policy.

Definition resolver_connection : connection :=
  Connection "/usr/lib/systemd/systemd-resolved" 700 0 "udp" "192.168.1.2" 40000 "10.8.0.1" "" 53.
Definition threat_connection : connection :=
  Connection "/usr/bin/ssh" 4242 1000 "tcp" "192.168.1.2" 40000 "45.9.8.7" "" 443.

Lemma dns_stays_managed_witness :
  exists duration selected,
    select_policy_rule example_env example_surroundings decision_policy resolver_connection
      = Ok (VStr "allow", duration, selected)
    /\ ((exists rule, selected = Some rule /\ matches example_env rule resolver_connection = Ok true
                      /\ is_true (get "dns_exception" rule) = true)
        \/ resolver_path example_surroundings resolver_connection).
Proof.
  do 2 eexists. split; [vm_compute; reflexivity|].
  eapply (dns_stays_managed example_env example_surroundings decision_policy resolver_connection);
    vm_compute; reflexivity.
Defined.

Lemma threats_are_denied_witness :
  exists i, select_policy_rule example_env example_surroundings decision_policy threat_connection
            = Ok (VStr "deny", VStr "always", Some (indicator_rule i)).
Proof.
  eexists. eapply (threats_are_denied example_env example_surroundings decision_policy threat_connection);
    vm_compute; reflexivity.
Defined.

Lemma first_rule_decides_witness :
  select_policy_rule example_env example_surroundings decision_policy example_connection
    = Ok (VStr "allow", VStr "once", Some (app_dict example_rule))
  /\ exists rules, item "rules" decision_policy = Ok (VList rules) /\
     ((exists before after, rules = before ++ VDict (app_dict example_rule) :: after
        /\ selects example_env example_connection (app_dict example_rule)
        /\ dget "action" (app_dict example_rule) = Some (VStr "allow")
        /\ forall r, In (VDict r) before -> ~ selects example_env example_connection r)
      \/ (is_str "THREAT_EXCEPTION" (get "tier" (app_dict example_rule)) = true
          /\ exact_exception (app_dict example_rule) example_connection = Ok true)).
Proof.
  assert (select_policy_rule example_env example_surroundings decision_policy example_connection
    = Ok (VStr "allow", VStr "once", Some (app_dict example_rule))) as Hs by (vm_compute; reflexivity).
  split; [exact Hs|]. exact (first_rule_decides _ _ _ _ _ _ Hs).
Defined.
