(* ===== verification/Feodo.v ===== *)
(** * The threat feed ([feodo.py])

    Validation of the downloaded feed, the snapshot file, its update that keeps
    the last good indicators, and the lookup of the indicator of a connection. *)
From S2P Require Import Prelude PyVal PyStr IpAddr Json JsonExample PyText NetworkRules PolicyDecision.

Definition FEODO_PROVIDER : string := "feodo-recommended".
Definition SNAPSHOT_SCHEMA : string := "greyward.feodo/v1".
Definition MAX_FEED_BYTES : Z := 4 * 1024 * 1024.
Definition MAX_INDICATORS : Z := 4096.

Definition default_snapshot : dict :=
  dlit [("schema", VStr SNAPSHOT_SCHEMA); ("provider", VStr FEODO_PROVIDER); ("state", VStr "INITIALIZING");
        ("fetched_at", VNone); ("last_successful_update", VNone); ("indicator_count", VInt 0);
        ("indicators", VList []); ("error", VStr "The first Feodo snapshot has not been received yet.")].

(** [except (ValueError, TypeError)]. *)
Definition value_or_type (e : exn) : bool := is_value_error e || match e with TypeError => true | _ => false end.

Definition indicator_val (ip : string) (port : Z) (malware : val) : val :=
  VDict (dlit [("ip", VStr ip); ("port", VInt port); ("malware", malware)]).

Section feed.
Context `{FloatText}.

(** One entry, its address under the given key: [None] when it is invalid. *)
Definition normalize_item (key : string) (item : val) : res (option val) :=
  match item with
  | VDict d =>
      parsed ← try_with
        (address ← match ip_address (text_of (get key d)) with
                   | Some a => Ok (ip_str a) | None => Err (ValueError "ip_address") end;
         port ← py_int (get "port" d);
         Ok (Some (address, port)))
        value_or_type (fun _ => Ok None);
      Ok (match parsed with
          | Some (address, port) =>
              if (1 <=? port) && (port <=? 65535)
              then Some (indicator_val address port (clean_or_none (get "malware" d) 96)) else None
          | None => None
          end)
  | _ => Ok None
  end.

(** [_normalize_entry(item)]. *)
Definition normalize_entry (item : val) : res (option val) := normalize_item "ip_address" item.

Definition indicator_key (v : val) : val * val :=
  match v with VDict d => (get "ip" d, get "port" d) | _ => (VNone, VNone) end.

Definition same_key (v w : val) : bool :=
  py_eq (indicator_key v).1 (indicator_key w).1 && py_eq (indicator_key v).2 (indicator_key w).2.

Definition add_indicator (acc : list val) (item : val) : res (list val) :=
  n ← normalize_entry item;
  match n with
  | None => Err (ValueError "The Feodo response contains an invalid IP or port.")
  | Some i =>
      let acc := if existsb (same_key i) acc then acc else acc ++ [i] in
      _ ← require (Z.of_nat (length acc) <=? MAX_INDICATORS)
            (ValueError "The Feodo response exceeds the indicator limit.");
      Ok acc
  end.

(** [normalize_feed(payload)]. *)
Definition normalize_feed (payload : val) : res (list val) :=
  match payload with
  | VList l => foldM add_indicator [] l
  | _ => Err (ValueError "The Feodo response must be a JSON array.")
  end.

(** The indicators of a stored snapshot that are valid. *)
Fixpoint stored_indicators (l : list val) : res (list val) :=
  match l with
  | [] => Ok []
  | item :: l =>
      n ← normalize_item "ip" item;
      rest ← stored_indicators l;
      Ok (match n with Some i => i :: rest | None => rest end)
  end.

(** [str(s).upper()] on the state of a snapshot. *)
Definition snapshot_state (v : val) : string :=
  let s := str_upper (py_str (py_or v (VStr "ERROR"))) in
  if in_strs ["READY"; "EMPTY"; "STALE"; "ERROR"; "INITIALIZING"] (VStr s) then s else "ERROR".

(** [load_snapshot()]; [file] is the outcome of reading the file as text. *)
Definition load_snapshot (file : res string) : res dict :=
  match file with
  | Err (OSError _) => Ok default_snapshot
  | Err e => Err e
  | Ok s =>
      match loads s with
      | Ok (VDict value) =>
          if negb (is_str SNAPSHOT_SCHEMA (get "schema" value)) then Ok default_snapshot else
          match get "indicators" value with
          | VList l =>
              normalized ← stored_indicators (take (Z.to_nat MAX_INDICATORS) l);
              Ok (dset "state" (VStr (snapshot_state (get "state" value)))
                   (dset "provider" (VStr FEODO_PROVIDER)
                   (dset "indicator_count" (VInt (Z.of_nat (length normalized)))
                   (dset "indicators" (VList normalized) value))))
          | _ => Ok default_snapshot
          end
      | _ => Ok default_snapshot
      end
  end.

(** [except (UnicodeDecodeError, JSONDecodeError, ValueError, OSError, URLError)]. *)
Definition update_caught (e : exn) : bool :=
  is_value_error e || is_os_error e.

(** The snapshot of a fetched feed. *)
Definition fresh_snapshot (fetched : res string) (timestamp : string) : res dict :=
  raw ← fetched;
  _ ← require (Z.of_nat (String.length raw) <=? MAX_FEED_BYTES)
        (ValueError "The Feodo response is larger than the safety limit.");
  payload ← loads raw;
  indicators ← normalize_feed payload;
  Ok (dlit [("schema", VStr SNAPSHOT_SCHEMA); ("provider", VStr FEODO_PROVIDER);
            ("state", VStr (match indicators with [] => "EMPTY" | _ => "READY" end));
            ("fetched_at", VStr timestamp); ("last_successful_update", VStr timestamp);
            ("indicator_count", VInt (Z.of_nat (length indicators))); ("indicators", VList indicators);
            ("error", VNone)]).

Definition failed_snapshot (current : dict) (e : exn) : dict :=
  let text := clean (exn_text e) 240 in
  dset "error" (VStr (if String.eqb text "" then "The Feodo update failed." else text))
    (dset "state" (VStr (if truthy (get "last_successful_update" current) then "STALE" else "ERROR")) current).

(** [update_feed(fetcher)]: the new content of the snapshot file. *)
Definition update_feed (file fetched : res string) (timestamp : string) : res dict :=
  current ← load_snapshot file;
  try_with (fresh_snapshot fetched timestamp) update_caught (fun e => Ok (failed_snapshot current e)).

(** [matching_indicator(connection, snapshot)]. *)
Fixpoint find_indicator (address : string) (port : Z) (l : list val) : res (option dict) :=
  match l with
  | [] => Ok None
  | v :: l =>
      d ← as_dict v;
      if negb (is_str address (get "ip" d)) then find_indicator address port l else
      p ← py_int (py_or (getd "port" (VInt 0) d) (VInt 0));
      if p =? port then Ok (Some d) else find_indicator address port l
  end.

Definition matching_indicator (file : res string) (snapshot : option dict) (c : connection) : res (option dict) :=
  match ip_address (dst_ip c) with
  | None => Ok None
  | Some a =>
      source ← match snapshot with Some ((_ :: _) as s) => Ok s | _ => load_snapshot file end;
      indicators ← as_list (getd "indicators" (VList []) source);
      find_indicator (ip_str a) (dst_port c) indicators
  end.

(** [threat_status(policy, activity)]. *)
Definition threat_status (file : res string) (policy : dict) (activity : list dict) : res dict :=
  snapshot ← load_snapshot file;
  let enabled := match get "threat_intel" policy with
                 | VDict config => truthy (getd "enabled" (VBool true) config) | _ => true end in
  let blocked := List.filter (fun e => is_str "BLOCKED" (get "decision" e) && is_dict (get "threat" e)) activity in
  count ← py_int (py_or (getd "indicator_count" (VInt 0) snapshot) (VInt 0));
  Ok (dlit [("enabled", VBool enabled); ("provider", VStr FEODO_PROVIDER);
    ("state", if enabled then getd "state" (VStr "ERROR") snapshot else VStr "DISABLED");
    ("last_successful_update", get "last_successful_update" snapshot); ("indicator_count", VInt count);
    ("last_error", get "error" snapshot);
    ("recent_blocked_connections", VList (rev (map VDict (last_n 64 blocked))))]).
End feed.

(** ** Properties *)

(** A valid indicator: a canonical address and a port. *)
Definition indicator_wf (v : val) : Prop :=
  exists a port malware, v = indicator_val (ip_str a) port malware /\ ip_wf a /\ 1 <= port <= 65535.

Lemma normalize_item_wf `{FloatText} key item i : normalize_item key item = Ok (Some i) -> indicator_wf i.
Proof.
  unfold normalize_item. destruct item as [| | | | | |d]; try done. intros Hn.
  apply bind_Ok in Hn as (parsed & Hp & Hn). destruct parsed as [[address port]|]; [|done].
  destruct ((1 <=? port) && (port <=? 65535)) eqn:Eb; [|done].
  apply try_with_Ok in Hp as [Hp|(e & _ & _ & Hp)]; [|done].
  apply bind_Ok in Hp as (addr & Ha & Hp). apply bind_Ok in Hp as (p & Hi & Hp). injection Hp as -> ->.
  destruct (ip_address _) as [a|] eqn:Ea; [|done]. injection Ha as <-.
  split_bool. zify_bool. exists a, port, (clean_or_none (get "malware" d) 96).
  split; [|split; [by eapply ip_address_wf|done]]. by injection Hn as <-.
Qed.

Lemma indicator_val_key ip port malware ip' port' malware' :
  same_key (indicator_val ip port malware) (indicator_val ip' port' malware') = true <-> ip = ip' /\ port = port'.
Proof.
  change (py_eq (VStr ip) (VStr ip') && py_eq (VInt port) (VInt port') = true <-> ip = ip' /\ port = port').
  rewrite andb_true_iff. cbn. unfold num_eqb, num_compare. rewrite !Z.sub_diag, !Z.shiftl_0_r, String.eqb_eq.
  destruct (Z.compare_spec port port'); naive_solver lia.
Qed.

(** Indicators with pairwise different keys. *)
Fixpoint keys_distinct (l : list val) : Prop :=
  match l with [] => True | x :: l => (forall y, In y l -> same_key x y = false) /\ keys_distinct l end.

Lemma keys_distinct_snoc l x :
  keys_distinct l -> Forall indicator_wf l -> indicator_wf x -> existsb (same_key x) l = false -> keys_distinct (l ++ [x]).
Proof.
  intros Hl Hwf Hx Hn. induction Hwf as [|y l Hy Hwf IH]; [done|]. cbn [keys_distinct app existsb] in *.
  destruct Hl as [Hyl Hl]. apply orb_false_iff in Hn as [Hxy Hn]. split; [|by apply IH].
  intros z [Hz|[<-|[]]]%in_app_iff; [by apply Hyl|].
  destruct Hx as (a & p & m & -> & _), Hy as (a' & p' & m' & -> & _).
  destruct (same_key (indicator_val (ip_str a') p' m') _) eqn:E; [|done].
  apply indicator_val_key in E as [E1 E2]. rewrite <- not_true_iff_false in Hxy. exfalso. apply Hxy.
  by apply indicator_val_key.
Qed.

Lemma add_indicators_spec `{FloatText} l acc out :
  Forall indicator_wf acc -> keys_distinct acc -> Z.of_nat (length acc) <= MAX_INDICATORS ->
  foldM add_indicator acc l = Ok out ->
  Forall indicator_wf out /\ keys_distinct out /\ Z.of_nat (length out) <= MAX_INDICATORS
  /\ (forall x, In x acc -> In x out)
  /\ forall item, In item l -> exists i, normalize_entry item = Ok (Some i) /\ exists x, In x out /\ same_key i x = true.
Proof.
  revert acc; induction l as [|item l IH]; intros acc Hwf Hd Hlen; cbn [foldM].
  - intros [= <-]. split_and!; try done.
  - intros Hf. apply bind_Ok in Hf as (acc1 & Ha & Hf). unfold add_indicator in Ha.
    apply bind_Ok in Ha as (n & Hn & Ha). destruct n as [i|]; [|done].
    apply bind_Ok in Ha as ([] & Hr%require_Ok & Ha). apply Z.leb_le in Hr.
    assert (indicator_wf i) as Hi by by eapply normalize_item_wf.
    assert (acc1 = (if existsb (same_key i) acc then acc else acc ++ [i])) as -> by congruence. clear Ha.
    assert (exists x, In x (if existsb (same_key i) acc then acc else acc ++ [i]) /\ same_key i x = true) as (x & Hx & Hk).
    { destruct (existsb (same_key i) acc) eqn:E.
      - by apply existsb_exists in E.
      - exists i. split; [apply in_app_iff; right; by left|].
        destruct Hi as (a & p & m & -> & _). by apply indicator_val_key. }
    destruct (IH (if existsb (same_key i) acc then acc else acc ++ [i])) as (H1 & H2 & H3 & H4 & H5); [..|done|].
    + destruct (existsb _ acc); [done|]. apply Forall_app. split; [done|]. by constructor.
    + destruct (existsb _ acc) eqn:E; [done|]. by apply keys_distinct_snoc.
    + done.
    + split_and!; [done..| |].
      * intros y Hy. apply H4. destruct (existsb _ acc); [done|]. apply in_app_iff. by left.
      * intros item' [<-|Hin]; [|by apply H5]. exists i. split; [done|]. exists x. split; [by apply H4|done].
Qed.

(** C35. An accepted feed yields indicators that are all valid (canonical
    address, port in range), pairwise different and at most 4096, and that
    cover every entry of the feed; an invalid entry rejects the whole feed. *)
Theorem normalize_feed_correct `{FloatText} items out :
  normalize_feed (VList items) = Ok out ->
  Forall indicator_wf out /\ keys_distinct out /\ Z.of_nat (length out) <= MAX_INDICATORS
  /\ forall item, In item items -> exists i, normalize_entry item = Ok (Some i) /\ exists x, In x out /\ same_key i x = true.
Proof.
  intros Hf. cbn [normalize_feed] in Hf.
  destruct (add_indicators_spec items [] out) as (H1 & H2 & H3 & _ & H5); try done.
Qed.

(** A failed update never loses protection: the indicators and the time of
    the last success of the current snapshot are kept, and the state says
    whether there ever was a success. *)
Theorem failed_update_keeps_indicators `{FloatText} file fetched timestamp current e :
  load_snapshot file = Ok current -> fresh_snapshot fetched timestamp = Err e -> update_caught e = true ->
  exists updated, update_feed file fetched timestamp = Ok updated
    /\ get "indicators" updated = get "indicators" current
    /\ get "last_successful_update" updated = get "last_successful_update" current
    /\ get "state" updated = VStr (if truthy (get "last_successful_update" current) then "STALE" else "ERROR").
Proof.
  intros Hl Hf He. unfold update_feed. rewrite Hl. cbn [mbind res_bind]. rewrite Hf. cbn [try_with]. rewrite He.
  eexists. split; [reflexivity|]. unfold failed_snapshot. split_and!; by dlookup.
Qed.

Lemma find_indicator_spec address port l :
  Forall indicator_wf l ->
  match find_indicator address port l with
  | Ok (Some d) => In (VDict d) l /\ get "ip" d = VStr address /\ get "port" d = VInt port
  | Ok None => forall v d, In v l -> v = VDict d -> ~ (get "ip" d = VStr address /\ get "port" d = VInt port)
  | Err _ => False
  end.
Proof.
  induction 1 as [|v l (a & p & m & -> & Ha & Hp) Hl IH]; [by intros v d []|].
  cbn [find_indicator]. unfold indicator_val. cbn [as_dict mbind res_bind].
  set (d := dlit _) in *. change (get "ip" d) with (VStr (ip_str a)).
  change (getd "port" (VInt 0) d) with (VInt p). cbn [is_str].
  destruct (String.eqb_spec (ip_str a) address) as [<-|Hne]; cbn [negb].
  - assert (py_or (VInt p) (VInt 0) = VInt p) as ->.
    { unfold py_or. cbn [truthy]. by rewrite (proj2 (Z.eqb_neq p 0)) by lia. }
    cbn [py_int mbind res_bind]. destruct (Z.eqb_spec p port) as [->|Hne].
    + split; [by left|done].
    + destruct (find_indicator _ _ l) as [[d'|]|]; [|intros v d' [<-|Hin] Hv|done].
      * destruct IH as (? & ? & ?). split; [by right|done].
      * injection Hv as <-. intros [_ Hx]. change (get "port" d) with (VInt p) in Hx. congruence.
      * by eapply IH.
  - destruct (find_indicator _ _ l) as [[d'|]|]; [|intros v d' [<-|Hin] Hv|done].
    + destruct IH as (? & ? & ?). split; [by right|done].
    + injection Hv as <-. intros [Hx _]. change (get "ip" d) with (VStr (ip_str a)) in Hx. congruence.
    + by eapply IH.
Qed.

(** The snapshot file, once read, holds valid indicators only. *)
Lemma load_snapshot_wf `{FloatText} file current :
  load_snapshot file = Ok current -> exists l, getd "indicators" (VList []) current = VList l /\ Forall indicator_wf l.
Proof.
  assert (exists l, getd "indicators" (VList []) default_snapshot = VList l /\ Forall indicator_wf l) as Hd
    by (exists []; by split).
  unfold load_snapshot. destruct file as [s|[]]; try done; [|by intros [= <-]].
  destruct (loads s) as [[| | | | | |value]|]; try by intros [= <-].
  destruct (negb _); [by intros [= <-]|]. destruct (get "indicators" value) as [| | | | |l|]; try by intros [= <-].
  intros Hl. apply bind_Ok in Hl as (items & Hi & [= <-]). exists items. split.
  - unfold getd. by rewrite !dget_dset.
  - revert items Hi. induction (take _ l) as [|x l' IH]; intros items Hi; cbn [stored_indicators] in Hi.
    + injection Hi as <-. constructor.
    + apply bind_Ok in Hi as (n & Hn & Hi). apply bind_Ok in Hi as (rest & Hrest & [= <-]).
      destruct n as [i|]; [constructor; [by eapply normalize_item_wf|]|]; by apply IH.
Qed.

(** When the snapshot file can be read, the lookup never raises and is exact:
    it returns an indicator of the canonical form of the connection's address
    and of its port, and none only if there is no such indicator, or the
    destination is not an address. *)
Theorem matching_indicator_exact `{FloatText} file current c :
  load_snapshot file = Ok current ->
  exists l, getd "indicators" (VList []) current = VList l /\ Forall indicator_wf l /\
  match matching_indicator file None c with
  | Ok (Some d) => exists a, ip_address (dst_ip c) = Some a /\ In (VDict d) l
                     /\ get "ip" d = VStr (ip_str a) /\ get "port" d = VInt (dst_port c)
  | Ok None => forall a d, ip_address (dst_ip c) = Some a -> In (VDict d) l ->
                 ~ (get "ip" d = VStr (ip_str a) /\ get "port" d = VInt (dst_port c))
  | Err _ => False
  end.
Proof.
  intros Hf. destruct (load_snapshot_wf file current Hf) as (l & Hs & Hl). exists l. split; [done|]. split; [done|].
  unfold matching_indicator. destruct (ip_address (dst_ip c)) as [a|] eqn:Ea; [|by intros].
  rewrite Hf. cbn [mbind res_bind]. rewrite Hs. cbn [as_list mbind res_bind].
  pose proof (find_indicator_spec (ip_str a) (dst_port c) l Hl) as Hspec.
  destruct (find_indicator _ _ l) as [[d|]|]; [by exists a| |done].
  intros a' d [= <-] Hin. by eapply Hspec.
Qed.

(** A feed entry whose port is the JSON number Infinity makes the update
    fail with an exception that the update does not handle, so that it neither
    keeps serving as STALE nor records the error. *)
Theorem infinite_port_escapes `{FloatText} file current timestamp raw d rest a :
  load_snapshot file = Ok current -> Z.of_nat (String.length raw) <= MAX_FEED_BYTES ->
  loads raw = Ok (VList (VDict d :: rest)) ->
  ip_address (text_of (get "ip_address" d)) = Some a -> get "port" d = VFloat (S754_infinity false) ->
  update_feed file (Ok raw) timestamp = Err OverflowError.
Proof.
  intros Hl Hlen Hr Ha Hp. unfold update_feed. rewrite Hl. cbn [mbind res_bind].
  assert (fresh_snapshot (Ok raw) timestamp = Err OverflowError) as ->; [|done].
  unfold fresh_snapshot. cbn [mbind res_bind]. rewrite (proj2 (Z.leb_le _ _) Hlen). cbn [require mbind res_bind].
  rewrite Hr. cbn [mbind res_bind normalize_feed foldM]. unfold add_indicator, normalize_entry, normalize_item.
  rewrite Ha, Hp. done.
Qed.

(** ** Instances at concrete inputs *)

Definition feed_entry (ip : string) (port : Z) : val :=
  VDict (dlit [("ip_address", VStr ip); ("port", VInt port); ("malware", VStr "Emotet")]).

Definition example_feed : list val :=
  [feed_entry "203.0.113.7" 443; feed_entry "2001:DB8:0:0::1" 8080; feed_entry "203.0.113.7" 443].

Definition stored_feed : dict :=
  dset "indicators" (VList [indicator_val "203.0.113.7" 443 (VStr "Emotet"); indicator_val "2001:db8::1" 8080 (VStr "Emotet")])
    (dset "last_successful_update" (VStr "2026-01-02T03:04:05Z") (dset "state" (VStr "READY") default_snapshot)).

Definition infinite_feed : string :=
  dumps (VList [VDict (dlit [("ip_address", VStr "203.0.113.7"); ("port", VFloat (S754_infinity false))])]).

Lemma normalize_feed_correct_witness :
  exists out, normalize_feed (VList example_feed) = Ok out /\ length out = 2%nat /\ keys_distinct out.
Proof.
  exists [indicator_val "203.0.113.7" 443 (VStr "Emotet"); indicator_val "2001:db8::1" 8080 (VStr "Emotet")].
  split; [reflexivity|]. split; [reflexivity|].
  apply (normalize_feed_correct example_feed). reflexivity.
Defined.

Lemma failed_update_keeps_indicators_witness :
  exists current updated, load_snapshot (Ok (dumps (VDict stored_feed))) = Ok current
    /\ update_feed (Ok (dumps (VDict stored_feed))) (Err (OSError "timed out")) "2026-02-03T04:05:06Z" = Ok updated
    /\ get "indicators" updated = get "indicators" current /\ get "state" updated = VStr "STALE".
Proof.
  destruct (load_snapshot (Ok (dumps (VDict stored_feed)))) as [current|e] eqn:El; [|vm_compute in El; discriminate El].
  destruct (failed_update_keeps_indicators (Ok (dumps (VDict stored_feed))) (Err (OSError "timed out"))
              "2026-02-03T04:05:06Z" current (OSError "timed out") El) as (updated & Hu & Hi & Hl & Hs);
    [reflexivity|reflexivity|].
  exists current, updated. split; [reflexivity|]. split; [exact Hu|]. split; [exact Hi|].
  vm_compute in El. injection El as <-. exact Hs.
Defined.

Lemma matching_indicator_exact_witness :
  exists current l d, load_snapshot (Ok (dumps (VDict stored_feed))) = Ok current
    /\ getd "indicators" (VList []) current = VList l
    /\ matching_indicator (Ok (dumps (VDict stored_feed))) None
         (Connection "/usr/bin/curl" 77 1000 "TCP" "192.168.1.2" 40000 "2001:db8:0::1" "" 8080) = Ok (Some d)
    /\ In (VDict d) l.
Proof.
  destruct (load_snapshot (Ok (dumps (VDict stored_feed)))) as [current|e] eqn:El; [|vm_compute in El; discriminate El].
  destruct (matching_indicator_exact (Ok (dumps (VDict stored_feed))) current
    (Connection "/usr/bin/curl" 77 1000 "TCP" "192.168.1.2" 40000 "2001:db8:0::1" "" 8080) El) as (l & Hl & _ & Hm).
  destruct (matching_indicator _ _ _) as [[d|]|e] eqn:Em; [|exfalso; vm_compute in Em; discriminate Em|destruct Hm].
  exists current, l, d. split; [reflexivity|]. split; [exact Hl|]. split; [reflexivity|].
  destruct Hm as (a & _ & Hin & _). exact Hin.
Defined.

Lemma infinite_port_escapes_witness :
  update_feed (Ok (dumps (VDict stored_feed))) (Ok infinite_feed) "2026-02-03T04:05:06Z" = Err OverflowError.
Proof.
  destruct (load_snapshot (Ok (dumps (VDict stored_feed)))) as [current|e] eqn:El; [|vm_compute in El; discriminate El].
  destruct (loads infinite_feed) as [v|e] eqn:Ev; [|vm_compute in Ev; discriminate Ev].
  vm_compute in Ev. injection Ev as Ev.
  eapply (infinite_port_escapes _ current _ infinite_feed
    (dlit [("ip_address", VStr "203.0.113.7"); ("port", VFloat (S754_infinity false))]) [] _ El);
    vm_compute; first [reflexivity | discriminate].
Defined.
