(* ===== verification/NetworkActivity.v ===== *)
(** * Network activity ([control_plane.py], [NetworkState])

    The bounded record of application connections: its entries, the
    replacement of provisional entries by the daemon's own reports, pruning,
    and what the daemon's heartbeat and subscription change. One reading of the
    clock serves a whole call. The handlers are modelled one after another. *)
From S2P Require Import Prelude PyVal PyStr Json PyText PyTime NetworkRules PolicyDecision.
From S2P Require NetworkLocation.

Definition MAX_NETWORK_ACTIVITY : nat := 4096.
Definition NETWORK_ACTIVITY_RETENTION : Z := 30 * minute.
Definition MAX_NETWORK_RULES : nat := 128.
Definition NETWORK_STALE : Z := 30 * second.
Definition COALESCE_WINDOW : Z := 15 * second.

(** What a call reads of the system: the clock, the local country sources and
    the identity of a process instance. *)
Record ambient := Ambient {
  moment : Z;
  geo_sources : list NetworkLocation.source;
  instance_key : Z -> string -> Z -> option string;
}.

Record destination := Destination {
  host : option string;
  ip : option string;
  port : Z;
  country : dict;
}.

Record event := Event {
  event_id : string;
  process_key : option string;
  pid : option Z;
  actor_uid : Z;
  connection_key : string;
  occurred_at : string;
  application : string;
  executable : option string;
  destined : destination;
  e_protocol : option string;
  decision : string;
  rule_name : option string;
  reported_by : string;
  threat : option dict;
  sequence : Z;
}.

(** The message types of the daemon's protocol, as far as they are read. *)
Record proto_operator := ProtoOperator { op_operand : string; op_data : string; op_list : list (string * string) }.
Record proto_rule := ProtoRule {
  r_name : string; r_action : string; r_duration : string; r_enabled : bool; r_operator : proto_operator }.
Record proto_event := ProtoEvent { pe_time : string; pe_connection : connection; pe_rule : proto_rule }.
Record proto_stats := ProtoStats {
  daemon_version : string; st_connections : Z; st_accepted : Z; st_dropped : Z; st_rule_hits : Z; st_rule_misses : Z;
  st_rules : Z; st_events : list proto_event }.

Record netstate := NetState {
  connected : bool;
  version : string;
  last_seen : option Z;
  stats : dict;
  rules : list dict;
  activity : list event;
  retained_at : gmap string Z;
  next_sequence : Z;
  session_id : string;
  policy_matches : list (string * dict);
  emitted : list dict;
}.

Definition set_activity (l : list event) (r : gmap string Z) (s : netstate) : netstate :=
  NetState (connected s) (version s) (last_seen s) (stats s) (rules s) l r (next_sequence s) (session_id s)
    (policy_matches s) (emitted s).

Definition option_val (o : option string) : val := match o with Some s => VStr s | None => VNone end.
Definition option_str (s : string) : option string := if String.eqb s "" then None else Some s.
Definition option_text (o : option string) : string := match o with Some s => s | None => "None" end.

(** [Path(value).name]. *)
Definition path_name (s : string) : string :=
  List.last (List.filter (fun p => negb (String.eqb p "") && negb (String.eqb p ".")) (split "/" s)) "".

(** [_application_name(path)]. *)
Definition application_name (path : string) : string :=
  let value := clean path 240 in
  if String.eqb value "" then "Unknown application"
  else let name := path_name value in if String.eqb name "" then value else name.

(** [_decision(action)]. *)
Definition decision_of (action : string) : string :=
  let action := str_lower action in
  if String.eqb action "allow" then "ALLOWED"
  else if String.eqb action "deny" || String.eqb action "reject" then "BLOCKED" else "UNKNOWN".

(** [_destination(connection)]. *)
Definition destination_of (A : ambient) (c : connection) : destination :=
  let host := clean (dst_host c) 160 in
  let address := clean (dst_ip c) 64 in
  Destination (option_str host) (option_str address) (dst_port c)
    (NetworkLocation.country_resolution_for_destination (moment A / second) (geo_sources A) address).

(** The fields by which two records are of the same connection. *)
Record flow := Flow {
  f_executable : option string; f_host : option string; f_ip : option string; f_port : Z; f_decision : string;
  f_protocol : option string; f_pid : option Z; f_uid : Z; f_connection : string }.

#[export] Instance flow_eq_dec : EqDecision flow.
Proof. solve_decision. Defined.

Definition flow_of (e : event) : flow :=
  Flow (executable e) (host (destined e)) (ip (destined e)) (port (destined e)) (decision e) (e_protocol e) (pid e)
    (actor_uid e) (connection_key e).

(** [_same_connection(left, right)]. *)
Definition same_connection (e : event) (f : flow) : bool := bool_decide (flow_of e = f).

Section state.
Context `{Host} `{FloatText} `{TimeText}.

(** [_within_coalesce_window(left, right)]. *)
Definition within_coalesce_window (left right : string) : bool :=
  match event_time left, event_time right with
  | Some a, Some b => Z.abs (a - b) <=? COALESCE_WINDOW
  | _, _ => false
  end.

(** [_prune_activity()]. *)
Definition prune_activity (t : Z) (s : netstate) : netstate :=
  let cutoff := t - NETWORK_ACTIVITY_RETENTION in
  let l := last_n MAX_NETWORK_ACTIVITY
             (List.filter (fun e => cutoff <=? default t (retained_at s !! event_id e)) (activity s)) in
  set_activity l (base.filter (fun kv => kv.1 ∈ map event_id l) (retained_at s)) s.

(** The text that identifies the flow, and the one that identifies the record. *)
Definition flow_text (c : connection) (d : destination) (protocol : option string) : string :=
  join "|" [str_of_Z (user_id c); str_of_Z (process_id c); option_text protocol; clean (src_ip c) 64;
            str_of_Z (src_port c); default "" (ip d); str_of_Z (port d)].

Definition identity_text (c : connection) (d : destination) (key : string) (protocol : option string) (path decision time : string)
  : string :=
  join "|" [key; str_of_Z (user_id c); str_of_Z (process_id c); option_text protocol; path; default "" (host d);
            default "" (ip d); str_of_Z (port d); decision; time].

Definition threat_fields (d : destination) (t : dict) : dict :=
  dlit [("provider", VStr "feodo-recommended"); ("ip", option_val (ip d)); ("port", VInt (port d));
        ("malware", clean_or_none (get "malware" t) 96); ("indicator_id", clean_or_none (get "indicator_id" t) 96)].

(** [threat or inherited], where an empty object counts as none. *)
Definition or_threat (a b : option dict) : option dict :=
  match a with Some ((_ :: _) as d) => Some d | _ => b end.

(** The telemetry event of a record. *)
Definition telemetry_of (session : string) (e : event) : dict :=
  let d := destined e in
  let blocked := String.eqb (decision e) "BLOCKED" in
  let exact := match executable e with Some _ => "EXACT" | None => "UNKNOWN" end in
  dlit [("event_id", VStr (event_id e)); ("occurred_at", VStr (occurred_at e)); ("component", VStr "opensnitch-control-plane");
        ("source", VStr (reported_by e)); ("category", VStr "NETWORK"); ("event_type", VStr "CONNECTION_ATTEMPT");
        ("action", VStr "CONNECT"); ("outcome", VStr (decision e)); ("severity", VStr (if blocked then "NOTICE" else "INFO"));
        ("assessment", VStr (if blocked then "NOTEWORTHY" else "NORMAL")); ("session_id", VStr session);
        ("application", VStr (application e));
        ("destination", VDict (dlit [("host", option_val (host d)); ("ip", option_val (ip d)); ("port", VInt (port d))]));
        ("protocol", option_val (e_protocol e)); ("port", VInt (port d)); ("decision", VStr (decision e));
        ("correlation", VDict (dlit [("session_id", VStr session)]));
        ("details", VDict (dlit [("rule_name", option_val (rule_name e)); ("network_event_type", VStr "CONNECTION_ATTEMPT");
           ("process_key", option_val (process_key e)); ("pid", match pid e with Some p => VInt p | None => VNone end)]));
        ("quality", VDict (dlit [("source_state", VStr "AVAILABLE"); ("attribution", VStr exact); ("confidence", VStr exact)]));
        ("relations", VList []); ("retention_class", VStr "investigation")].

(** The record of a connection, before its threat and its sequence number. *)
Definition new_event (A : ambient) (c : connection) (action source : string) (at_ : option string) (name : string) : event :=
  let path := clean (process_path c) 240 in
  let d := destination_of A c in
  let decision := decision_of action in
  let timestamp := match at_ with Some s => if String.eqb s "" then iso (moment A) else s | None => iso (moment A) end in
  let timestamp := match event_time timestamp with Some t => utc_text t | None => timestamp end in
  let protocol := option_str (str_lower (clean (protocol c) 24)) in
  let key := str_take 40 (host_sha256 (flow_text c d protocol)) in
  Event ("network-" +:+ str_take 24 (host_sha256 (identity_text c d key protocol path decision timestamp)))
    (instance_key A (process_id c) timestamp (user_id c))
    (if process_id c =? 0 then None else Some (process_id c)) (user_id c) key timestamp (application_name path)
    (option_str path) d protocol decision (option_str (clean name 160)) source None 0.

(** The threat another record of the same connection carries. The flow looked
    for holds the path itself, also when it is empty. *)
Definition inherited_threat (s : netstate) (e : event) (path : string) : option dict :=
  let f := flow_of e in
  let f := Flow (Some path) (f_host f) (f_ip f) (f_port f) (f_decision f) (f_protocol f) (f_pid f) (f_uid f) (f_connection f) in
  let carries x := same_connection x f && within_coalesce_window (occurred_at e) (occurred_at x)
                   && match threat x with Some (_ :: _) => true | _ => false end in
  match List.find carries (activity s) with Some x => threat x | None => None end.

Definition with_threat (e : event) (t : option dict) : event :=
  Event (event_id e) (process_key e) (pid e) (actor_uid e) (connection_key e) (occurred_at e) (application e)
    (executable e) (destined e) (e_protocol e) (decision e) (rule_name e) (reported_by e)
    (option_map (threat_fields (destined e)) t) (sequence e).

Definition with_sequence (e : event) (n : Z) : event :=
  Event (event_id e) (process_key e) (pid e) (actor_uid e) (connection_key e) (occurred_at e) (application e)
    (executable e) (destined e) (e_protocol e) (decision e) (rule_name e) (reported_by e) (threat e) n.

(** A provisional record of the same connection inside the window. *)
Definition superseded (e x : event) : bool :=
  same_connection x (flow_of e) && String.eqb (reported_by x) "greyward-policy"
  && within_coalesce_window (occurred_at e) (occurred_at x).

(** The daemon has already reported the connection. *)
Definition already_reported (s : netstate) (e : event) : bool :=
  String.eqb (reported_by e) "greyward-policy"
  && existsb (fun x => same_connection x (flow_of e) && String.eqb (reported_by x) "opensnitch-statistics"
                       && within_coalesce_window (occurred_at e) (occurred_at x)) (activity s).

(** The end of [_record]: prune, number, append, bound, hand over. *)
Definition append_event (t : Z) (e : event) (s : netstate) : netstate :=
  let s := prune_activity t s in
  let n := next_sequence s + 1 in
  let e := with_sequence e n in
  let l := last_n MAX_NETWORK_ACTIVITY (activity s ++ [e]) in
  let retained := base.filter (fun kv => kv.1 ∈ map event_id l) (<[event_id e := t]> (retained_at s)) in
  NetState (connected s) (version s) (last_seen s) (stats s) (rules s) l retained n (session_id s) (policy_matches s)
    (emitted s ++ [telemetry_of (session_id s) e]).

(** [_record(connection, action, source, occurred_at, rule_name, threat)]. *)
Definition record (A : ambient) (c : connection) (action source : string) (at_ : option string) (name : string)
  (t : option dict) (s : netstate) : netstate :=
  let e := new_event A c action source at_ name in
  let e := with_threat e (or_threat t (inherited_threat s e (clean (process_path c) 240))) in
  if already_reported s e then s else
  let l := if String.eqb source "opensnitch-statistics" then List.filter (fun x => negb (superseded e x)) (activity s)
           else activity s in
  let s := set_activity l (retained_at s) s in
  if existsb (fun x => String.eqb (event_id x) (event_id e)) l then s else append_event (moment A) e s.

(** ** Heartbeat and subscription *)

Definition report (A : ambient) (s : netstate) (e : proto_event) : netstate :=
  if String.eqb (process_path (pe_connection e)) "" then s
  else
    let time := clean (pe_time e) 64 in
    record A (pe_connection e) (r_action (pe_rule e)) "opensnitch-statistics"
      (Some (if String.eqb time "" then iso (moment A) else time)) (r_name (pe_rule e)) None s.

(** [pinged(stats)]. *)
Definition pinged (A : ambient) (p : proto_stats) (s : netstate) : netstate :=
  let counters := dlit [("connections", VInt (st_connections p)); ("accepted", VInt (st_accepted p));
                        ("dropped", VInt (st_dropped p)); ("rule_hits", VInt (st_rule_hits p));
                        ("rule_misses", VInt (st_rule_misses p)); ("rules", VInt (st_rules p))] in
  fold_left (report A) (st_events p)
    (NetState true (clean (daemon_version p) 32) (Some (moment A)) counters (rules s) (activity s) (retained_at s)
       (next_sequence s) (session_id s) (policy_matches s) (emitted s)).

(** [s.isdigit()] followed by [int(s)]: the three superscript digits of Latin-1
    are digits for the first and not for the second. *)
Definition isdigit_char (c : ascii) : bool :=
  digit_char c || (ord c =? 178) || (ord c =? 179) || (ord c =? 185).

Definition port_of_text (s : string) : res val :=
  if negb (String.eqb s "") && str_forall isdigit_char s then
    if str_forall digit_char s then Ok (VInt (digits_val s)) else Err (ValueError "invalid literal for int()")
  else Ok VNone.

(** One child of a list operator. *)
Definition scope_child (acc : val * dict) (child : string * string) : res (val * dict) :=
  let '(app, d) := acc in
  let operand := clean child.1 40 in
  let data := clean child.2 240 in
  if String.eqb operand "process.path" then Ok (VStr data, d)
  else if String.eqb operand "dest.host" then Ok (app, dset "host" (VStr data) d)
  else if String.eqb operand "dest.ip" then Ok (app, dset "ip" (VStr data) d)
  else if String.eqb operand "dest.port" then p ← port_of_text data; Ok (app, dset "port" p d)
  else Ok (app, d).

(** [s.upper().replace(" ", "_")]. *)
Definition duration_text (s : string) : string :=
  str_map (fun c => if Ascii.eqb c " " then "_"%char else c) (str_upper (clean s 32)).

(** [_rule(rule, source)]. *)
Definition daemon_rule (r : proto_rule) (source : string) : res (option dict) :=
  let name := clean (r_name r) 160 in
  let action := str_lower (r_action r) in
  if negb (String.eqb action "allow" || String.eqb action "deny" || String.eqb action "reject") then Ok None else
  let o := r_operator r in
  let operand := clean (op_operand o) 40 in
  let data := clean (op_data o) 240 in
  let app := if String.eqb operand "process.path" then VStr data else VNone in
  scope ← (if String.eqb operand "list" then
             '(app, d) ← foldM scope_child (app, dlit [("host", VNone); ("ip", VNone); ("port", VNone)]) (op_list o);
             Ok (app, if existsb (fun kv => truthy kv.2) d then VDict d else VNone)
           else Ok (app, VNone));
  let key := if negb (String.eqb name "") then name else if negb (String.eqb data "") then data else action in
  Ok (Some (dlit
    [("id", VStr ("rule-" +:+ str_take 20 (host_sha256 key)));
     ("name", VStr (if String.eqb name "" then "Unnamed rule" else name)); ("source", VStr source);
     ("action", VStr (if String.eqb action "allow" then "ALLOW" else "BLOCK"));
     ("duration", VStr (duration_text (r_duration r))); ("enabled", VBool (r_enabled r));
     ("scope", VDict (dlit [("application", scope.1); ("destination", scope.2)]));
     ("mutable", VBool (String.eqb source "GREYWARD"))])).

(** [subscribed(config)]: a rule that raises leaves the list of the rules as it
    was, after the connection was noted. *)
Definition subscribed (A : ambient) (config_version : string) (config_rules : list proto_rule) : act netstate unit :=
  _ ← modify (fun s => NetState true (clean config_version 32) (Some (moment A)) (stats s) (rules s) (activity s)
                         (retained_at s) (next_sequence s) (session_id s) (policy_matches s) (emitted s));
  rs ← lift (mapM_res (fun r => daemon_rule r (if startswith "greyward-" (r_name r) then "GREYWARD_DAEMON" else "OPENSNITCH"))
               config_rules);
  modify (fun s => NetState (connected s) (version s) (last_seen s) (stats s)
                     (last_n MAX_NETWORK_RULES (omap id rs)) (activity s) (retained_at s) (next_sequence s) (session_id s)
                     (policy_matches s) (emitted s)).

(** [__init__]. *)
Definition initial_state (session : string) : netstate :=
  NetState false "" None [] [] [] ∅ 0 ("network-" +:+ session) [] [].
End state.
