(* ===== verification/NetworkViews.v ===== *)
(** * What the control plane reports and answers ([control_plane.py])

    The snapshot of [NetworkState], its per-minute summary, the incremental
    activity response, the store of blocked connections and the answer to a
    connection ([AskRule]). The files are written atomically; the last content
    of each is part of the state. *)
From S2P Require Import Prelude PyVal PyStr Json PyText PyTime NetworkRules PolicyDecision NetworkActivity.
From S2P Require Feodo.

Definition opt_int (o : option Z) : val := match o with Some z => VInt z | None => VNone end.

Definition destination_dict (d : destination) : dict :=
  let code := get "country_code" (country d) in
  dlit [("host", option_val (host d)); ("ip", option_val (ip d)); ("port", VInt (port d));
        ("country_code", if truthy code then code else VNone); ("country_confidence", get "confidence" (country d));
        ("country_converged", get "converged" (country d)); ("country_source_count", get "source_count" (country d));
        ("country_source", get "source" (country d)); ("country_availability", get "availability" (country d));
        ("country_sources", get "sources" (country d))].

Definition event_dict (e : event) : dict :=
  let d := dlit [("event_id", VStr (event_id e)); ("process_key", option_val (process_key e)); ("pid", opt_int (pid e));
        ("actor_uid", VInt (actor_uid e)); ("connection_key", VStr (connection_key e)); ("occurred_at", VStr (occurred_at e));
        ("application", VStr (application e)); ("executable", option_val (executable e));
        ("destination", VDict (destination_dict (destined e))); ("protocol", option_val (e_protocol e));
        ("decision", VStr (decision e)); ("rule_name", option_val (rule_name e)); ("source", VStr (reported_by e));
        ("sequence", VInt (sequence e))] in
  match threat e with Some t => dset "threat" (VDict t) d | None => d end.

(** ** The state of the provider *)

Definition provider_state (t : Z) (s : netstate) : string :=
  match last_seen s with
  | Some seen => if negb (connected s) then "UNAVAILABLE" else if NETWORK_STALE <? t - seen then "DEGRADED" else "OPERATING"
  | None => "UNAVAILABLE"
  end.

Definition provider_detail (state : string) : string :=
  if String.eqb state "UNAVAILABLE" then "OpenSnitch application protection is unavailable."
  else if String.eqb state "DEGRADED" then "OpenSnitch has not reported a fresh heartbeat. Recent activity may be stale."
  else "OpenSnitch application interception is operating.".

(** ** Totals *)

Inductive category := Allowed | Blocked | Unknown.

#[export] Instance category_eq_dec : EqDecision category.
Proof. solve_decision. Defined.

Definition category_of (e : event) : category :=
  if String.eqb (decision e) "ALLOWED" then Allowed else if String.eqb (decision e) "BLOCKED" then Blocked else Unknown.

Record counts := Counts { total : Z; allowed : Z; blocked : Z; unknown : Z }.

Definition no_counts : counts := Counts 0 0 0 0.

Definition count_one (k : category) (c : counts) : counts :=
  match k with
  | Allowed => Counts (total c + 1) (allowed c + 1) (blocked c) (unknown c)
  | Blocked => Counts (total c + 1) (allowed c) (blocked c + 1) (unknown c)
  | Unknown => Counts (total c + 1) (allowed c) (blocked c) (unknown c + 1)
  end.

Definition to_minute (t : Z) : Z := t / minute * minute.

Definition bucket_index (first retained : Z) : Z := (to_minute retained - first) / minute.

(** One event of [activity_summary]: the totals and the buckets. *)
Definition summarize_event (first : Z) (retained : gmap string Z) (acc : counts * list counts) (e : event)
  : counts * list counts :=
  let '(all, buckets) := acc in
  let k := category_of e in
  (count_one k all,
   match retained !! event_id e with
   | None => buckets
   | Some r =>
       let i := bucket_index first r in
       if (0 <=? i) && (i <? Z.of_nat (length buckets)) then alter (count_one k) (Z.to_nat i) buckets else buckets
   end).

Definition first_bucket (t : Z) : Z := to_minute t - 29 * minute.

Definition summarize (t : Z) (s : netstate) : counts * list counts :=
  fold_left (summarize_event (first_bucket t) (retained_at s)) (activity s) (no_counts, repeat no_counts 30).

Definition counts_fields (c : counts) : list (string * val) :=
  [("total", VInt (total c)); ("allowed", VInt (allowed c)); ("blocked", VInt (blocked c)); ("unknown", VInt (unknown c))].

(** [activity_summary()] on a pruned state. *)
Definition activity_summary (t : Z) (s : netstate) : dict :=
  let '(all, buckets) := summarize t s in
  let bucket (i : nat) (c : counts) :=
    VDict (dlit (("started_at", VStr (iso (first_bucket t + Z.of_nat i * minute))) :: counts_fields c)) in
  dlit (counts_fields all ++ [("window_seconds", VInt 1800); ("buckets", VList (imap bucket buckets))]).

(** ** Applications *)

Record app := App {
  app_name : string; app_executable : option string; app_counts : counts; app_last_seen : string;
  app_destinations : list string }.

Definition app_key (e : event) : string := match executable e with Some p => p | None => application e end.

Definition text_max (a b : string) : string := match String.compare a b with Lt => b | _ => a end.

Definition add_to_app (e : event) (a : app) : app :=
  let dest := match host (destined e) with Some h => Some h | None => ip (destined e) end in
  App (app_name a) (app_executable a) (count_one (category_of e) (app_counts a)) (text_max (app_last_seen a) (occurred_at e))
    (match dest with
     | Some d => if existsb (String.eqb d) (app_destinations a) then app_destinations a
                 else last_n 8 (app_destinations a ++ [d])
     | None => app_destinations a
     end).

Fixpoint add_app (e : event) (apps : list (string * app)) : list (string * app) :=
  match apps with
  | [] => [(app_key e, add_to_app e (App (application e) (executable e) no_counts (occurred_at e) []))]
  | (k, a) :: apps => if String.eqb k (app_key e) then (k, add_to_app e a) :: apps else (k, a) :: add_app e apps
  end.

Definition applications (l : list event) : list app := map snd (fold_left (fun acc e => add_app e acc) l []).

Definition application_dict (a : app) : dict :=
  dlit [("application", VStr (app_name a)); ("executable", option_val (app_executable a));
        ("allowed", VInt (allowed (app_counts a))); ("blocked", VInt (blocked (app_counts a)));
        ("unknown", VInt (unknown (app_counts a))); ("last_seen", VStr (app_last_seen a));
        ("destinations", VList (map VStr (app_destinations a)))].

(** ** The snapshot *)

Section views.
Context `{Host} `{FloatText} `{TimeText}.

(** A policy rule as the snapshot shows it; [None] for an item it skips. *)
Definition policy_rule_view (r : val) : res (option dict) :=
  match r with
  | VDict i =>
      if negb (truthy (get "path" i)) then Ok None else
      if negb (in_strs ["allow"; "deny"; "reject"] (get "action" i)) then Ok None else
      let named := py_or (get "name" i) (VStr ("GREYWARD " +:+ application_name (text_of (get "path" i)))) in
      d ← (if truthy (get "host" i) || truthy (get "ip" i) || truthy (get "port" i) then
             p ← py_int (py_or (getd "port" (VInt 0) i) (VInt 0));
             Ok (VDict (dlit [("host", clean_or_none (get "host" i) 160); ("ip", clean_or_none (get "ip" i) 64); ("port", VInt p)]))
           else Ok VNone);
      Ok (Some (dlit
        [("id", rule_id i); ("name", VStr (clean_val named 160)); ("source", VStr "GREYWARD");
         ("action", VStr (if is_str "allow" (get "action" i) then "ALLOW" else "BLOCK"));
         ("duration", VStr (duration_text (text_of (getd "duration" (VStr "always") i)))); ("enabled", VBool true);
         ("scope", VDict (dlit [("application", VStr (clean_val (get "path" i) 240)); ("destination", d)]));
         ("mutable", VBool true); ("tier", getd "tier" (VStr "GREYWARD") i)]))
  | _ => Ok None
  end.

(** What a snapshot reads besides the state: the loaded policy, the error of the
    policy store and the threat snapshot file. *)
Record sources := Sources { policy : dict; store_error : val; feodo_file : res string }.

Definition health_dict (state detail : string) (s : netstate) : dict :=
  let operating := String.eqb state "OPERATING" in
  let quiet := match activity s with [] => true | _ => false end in
  dlit [("state", VStr (if operating then (if quiet then "IDLE" else "ACTIVE") else state));
        ("daemon", VStr (if connected s then "ACTIVE" else "INACTIVE")); ("control_plane", VStr "ACTIVE");
        ("event_stream", VStr (if quiet then "EMPTY" else "OBSERVED"));
        ("freshness", VStr (if operating then "FRESH" else "STALE")); ("healthy", VBool operating);
        ("detail", VStr (if operating && quiet then "Link ready; no application traffic has been observed yet." else detail))].

Definition capabilities_dict (available : bool) : dict :=
  dlit [("installed", VBool true); ("activity", VBool available); ("rules", VBool available);
        ("rule_mutation", VStr (if available then "TYPED_POLICY" else "UNAVAILABLE")); ("interactive_prompts", VStr "DEFERRED")].

Definition opensnitch_dict (state detail : string) (s : netstate) : dict :=
  dlit [("state", VStr state); ("detail", VStr detail); ("version", text_or_none (version s));
        ("last_seen", match last_seen s with Some t => VStr (iso t) | None => VNone end); ("stats", VDict (stats s));
        ("health", VDict (health_dict state detail s));
        ("capabilities", VDict (capabilities_dict (String.eqb state "OPERATING")))].

(** [snapshot()]. *)
Definition snapshot (A : ambient) (R : sources) : act netstate dict :=
  let t := moment A in
  _ ← modify (prune_activity t);
  s ← gets (fun s => s);
  rules_val ← lift (rules ← item "rules" (policy R); as_list rules);
  policy_rules ← lift (mapM_res policy_rule_view rules_val);
  let policy_rules := omap id policy_rules in
  threat ← lift (Feodo.threat_status (feodo_file R) (policy R) (map event_dict (activity s)));
  let state := provider_state t s in
  let detail := provider_detail state in
  let exceptions := List.filter (fun r => is_str "THREAT_EXCEPTION" (get "tier" r)) policy_rules in
  mret (dlit
    [("schema", VStr "greyward.security.network/v1"); ("generated_at", VStr (iso t));
     ("policy_revision", get "revision" (policy R)); ("rules_schema", VStr "greyward.network.rules/v2");
     ("policy_matches", VDict (dlit (map (fun kv => (kv.1, VDict kv.2)) (policy_matches s))));
     ("policy_error", py_or (get "policy_error" (policy R)) (store_error R));
     ("fresh_until", VStr (iso (t + NETWORK_STALE))); ("opensnitch", VDict (opensnitch_dict state detail s));
     ("applications", VList (map (fun a => VDict (application_dict a)) (applications (activity s))));
     ("activity", VList (rev (map (fun e => VDict (event_dict e)) (activity s))));
     ("activity_session_id", VStr (session_id s)); ("activity_next_sequence", VInt (next_sequence s));
     ("activity_summary", VDict (activity_summary t s));
     ("threat_intel", VDict (dset "exceptions" (VList (map VDict exceptions)) threat));
     ("rules", VList (map VDict (last_n MAX_NETWORK_RULES (policy_rules ++ rules s))))]).

(** ** The incremental response *)

(** [except (TypeError, ValueError)]. *)
Definition bounded_int (v : val) (low high default : Z) : res Z :=
  try_with (n ← py_int v; Ok (Z.max low (Z.min high n))) Feodo.value_or_type (fun _ => Ok default).

(** [max(0, int(since_sequence))]. *)
Definition since_of (v : val) : res Z :=
  try_with (n ← py_int v; Ok (Z.max 0 n)) Feodo.value_or_type (fun _ => Ok 0).

Definition oldest_sequence (l : list event) : Z := match l with e :: _ => sequence e | [] => 0 end.

(** [since == 0 or (oldest and since < oldest - 1)], whose value is the number 0
    when nothing is retained. *)
Definition reset_value (since oldest : Z) : val :=
  if since =? 0 then VBool true else if oldest =? 0 then VInt 0 else VBool (since <? oldest - 1).

(** The events of the response, newest first. *)
Definition selected_events (since limit : Z) (l : list event) : list event :=
  take (Z.to_nat limit)
    (if truthy (reset_value since (oldest_sequence l)) then rev l
     else List.filter (fun e => since <? sequence e) (rev l)).

(** [activity_response(since_sequence, limit)]. *)
Definition activity_response (A : ambient) (R : sources) (since_sequence limit : val) : act netstate dict :=
  _ ← modify (prune_activity (moment A));
  view ← snapshot A R;
  since ← lift (since_of since_sequence);
  n ← lift (bounded_int limit 1 256 256);
  s ← gets (fun s => s);
  let reset := reset_value since (oldest_sequence (activity s)) in
  let opensnitch := match get "opensnitch" view with VDict d => d | _ => [] end in
  let capabilities := match get "capabilities" opensnitch with VDict d => d | _ => [] end in
  mret (dlit
    [("schema", VStr "greyward.security.network.activity/v1"); ("state", get "state" opensnitch);
     ("detail", get "detail" opensnitch); ("session_id", VStr (session_id s)); ("generated_at", get "generated_at" view);
     ("fresh_until", get "fresh_until" view); ("next_sequence", VInt (next_sequence s)); ("reset", reset);
     ("summary", get "activity_summary" view);
     ("rule_mutation", getd "rule_mutation" (VStr "UNAVAILABLE") capabilities);
     ("events", VList (map (fun e => VDict (event_dict e)) (selected_events since n (activity s))))]).
End views.
