(* ===== verification/ControlPlane.v ===== *)
(** * The control plane of the connection engine ([control_plane.py])

    [SecurityContextStore], the bounded list of blocked connections with its two
    projections, and the handlers of [ControlPlane]: the heartbeat, the
    subscription and the answer to a connection. *)
From S2P Require Import Prelude PyVal PyStr Json PyText PyTime NetworkRules PolicyDecision NetworkActivity NetworkViews.
From S2P Require Feodo.

Definition MAX_EVENTS : nat := 64.
Definition MAX_POLICY_MATCHES : nat := 1024.

(** A blocked connection of the security summary. *)
Record blocked_event := BlockedEvent {
  b_id : string; b_kind : string; b_time : string; b_detail : string; b_threat : option dict }.

Record context_store := ContextStore {
  cs_events : list blocked_event;
  cs_network : netstate;
  cs_connected : bool;
  cs_version : string;
  cs_last_seen : Z;
  cs_summary : option dict;
  cs_projection : option dict;
}.

Definition set_network (n : netstate) (s : context_store) : context_store :=
  ContextStore (cs_events s) n (cs_connected s) (cs_version s) (cs_last_seen s) (cs_summary s) (cs_projection s).

Definition set_events (l : list blocked_event) (s : context_store) : context_store :=
  ContextStore l (cs_network s) (cs_connected s) (cs_version s) (cs_last_seen s) (cs_summary s) (cs_projection s).

Definition seen (t : Z) (v : string) (s : context_store) : context_store :=
  ContextStore (cs_events s) (cs_network s) true v t (cs_summary s) (cs_projection s).

(** A method of the network state run on the store. *)
Definition on_network {A} (m : act netstate A) : act context_store A := fun s =>
  let '(r, n) := m (cs_network s) in (r, set_network n s).

Definition blocked_event_dict (e : blocked_event) : dict :=
  let d := dlit [("event_id", VStr (b_id e)); ("kind", VStr (b_kind e)); ("notification", VStr "AGGREGATABLE");
                 ("occurred_at", VStr (b_time e)); ("title", VStr "Application connection blocked");
                 ("detail", VStr (b_detail e)); ("source", VStr "opensnitch/v1.8.0")] in
  match b_threat e with Some t => dset "threat" (VDict t) d | None => d end.

(** The summary of [SecurityContextStore.write]. *)
Definition summary_dict (t : Z) (s : context_store) : dict :=
  let review := negb (match cs_events s with [] => true | _ => false end) in
  let state := if review then "REVIEW NEEDED" else if cs_connected s then "SECURE" else "UNAVAILABLE" in
  let live := if review then
      dlit [("kind", VStr "REVIEW NEEDED"); ("state", VStr "REVIEW NEEDED");
            ("detail", VStr "OpenSnitch blocked one or more application connections."); ("observed_at", VStr (iso t))]
    else
      dlit [("kind", VStr "PROTECTED"); ("state", VStr state);
            ("detail", VStr (if cs_connected s then "OpenSnitch control plane is connected."
                             else "OpenSnitch control plane has not connected."));
            ("observed_at", VStr (iso t))] in
  dlit [("schema", VStr "greyward.security.context/v1"); ("state", VStr state); ("generated_at", VStr (iso t));
        ("fresh_until", VStr (iso (t + 2 * minute))); ("review_count", VInt (Z.of_nat (length (cs_events s))));
        ("live_states", VList [VDict live]);
        ("recent_events", VList (map (fun e => VDict (blocked_event_dict e)) (last_n MAX_EVENTS (cs_events s))))].

Section control.
Context `{Host} `{FloatText} `{TimeText}.

(** [NetworkState.write()]: the snapshot is computed before the file is replaced. *)
Definition write_network (A : ambient) (R : sources) : act context_store unit :=
  view ← on_network (snapshot A R);
  modify (fun s => ContextStore (cs_events s) (cs_network s) (cs_connected s) (cs_version s) (cs_last_seen s)
                     (cs_summary s) (Some view)).

(** [SecurityContextStore.write()]. *)
Definition write_context (A : ambient) (R : sources) : act context_store unit :=
  _ ← modify (fun s => ContextStore (cs_events s) (cs_network s) (cs_connected s) (cs_version s) (cs_last_seen s)
                         (Some (summary_dict (moment A) s)) (cs_projection s));
  write_network A R.

(** [ControlPlane.Subscribe] and [ControlPlane.Ping]. *)
Definition subscribe (A : ambient) (R : sources) (config_version : string) (config_rules : list proto_rule)
  : act context_store unit :=
  _ ← modify (seen (moment A) (clean config_version 32));
  _ ← on_network (subscribed A config_version config_rules);
  write_context A R.

Definition ping (A : ambient) (R : sources) (p : proto_stats) : act context_store unit :=
  _ ← modify (seen (moment A) (clean (daemon_version p) 32));
  _ ← on_network (modify (pinged A p));
  write_context A R.

(** The threat a selected rule stands for. *)
Definition selected_threat (selected : option dict) : option dict :=
  match selected with Some d => if is_str "THREAT" (get "tier" d) then Some d else None | None => None end.

Definition blocked_id (path destination : string) (port : Z) : string :=
  "opensnitch-" +:+ str_take 24 (host_sha256 (join "|" [path; destination; str_of_Z port])).

Definition or_text (a b : string) : string := if String.eqb a "" then b else a.

(** The last event with the identifier takes the time. *)
Fixpoint touch_last (id : string) (t : string) (l : list blocked_event) : option (list blocked_event) :=
  match l with
  | [] => None
  | e :: l =>
      match touch_last id t l with
      | Some l' => Some (e :: l')
      | None => if String.eqb (b_id e) id then Some (BlockedEvent (b_id e) (b_kind e) t (b_detail e) (b_threat e) :: l)
                else None
      end
  end.

(** The events after [blocked(connection, selected)]. *)
Definition note_blocked (t : Z) (c : connection) (selected : option dict) (l : list blocked_event) : list blocked_event :=
  let destination := clean (or_text (dst_host c) (or_text (dst_ip c) "unknown destination")) 160 in
  let path := clean (or_text (process_path c) "unknown application") 160 in
  let id := blocked_id path destination (dst_port c) in
  match touch_last id (iso t) l with
  | Some l => l
  | None =>
      let threat := option_map (fun d =>
        dlit [("provider", VStr "feodo-recommended"); ("ip", VStr (dst_ip c)); ("port", VInt (dst_port c));
              ("malware", get "malware" d); ("indicator_id", get "indicator_id" d)]) (selected_threat selected) in
      last_n MAX_EVENTS (l ++ [BlockedEvent id
        (match threat with Some _ => "NETWORK_THREAT_BLOCKED" | None => "APP_CONNECTION_BLOCKED" end) (iso t)
        (clean (path +:+ " was blocked from connecting to " +:+ destination +:+ ":" +:+ str_of_Z (dst_port c) +:+ ".") 320)
        threat])
  end.

(** [SecurityContextStore.blocked(connection, selected)]. *)
Definition note_block (A : ambient) (R : sources) (c : connection) (selected : option dict) : act context_store unit :=
  _ ← modify (fun s => set_events (note_blocked (moment A) c selected (cs_events s)) s);
  let threat := selected_threat selected in
  let name := match threat with Some d => text_of (getd "name" (VStr "") d) | None => "" end in
  _ ← on_network (modify (record A c "deny" "greyward-policy" None name threat));
  write_context A R.

(** ** The answer to a connection *)

Definition observe_match (t : Z) (selected : dict) (observed : dict) : res dict :=
  let observed := if py_eq (get "version" observed) (get "updated_at" selected) then observed
                  else dlit [("version", get "updated_at" selected); ("decisions", VInt 0)] in
  n ← item "decisions" observed;
  n ← py_add_int n 1;
  Ok (dset "last_seen" (VStr (iso t)) (dset "decisions" n observed)).

(** A match of a stored rule is counted per version of the rule; at most 1024
    rules are remembered, the oldest key is forgotten first. *)
Definition count_match (A : ambient) (selected : option dict) : act netstate unit :=
  match selected with
  | Some ((_ :: _) as d) =>
      match get "id" d with
      | VStr key =>
          if String.eqb key "" then mret tt else
          s ← gets (fun s => s);
          observed ← lift (observe_match (moment A) d (default [] (dget key (policy_matches s))));
          let l := put key observed (policy_matches s) in
          let l := if (MAX_POLICY_MATCHES <? length l)%nat then List.tl l else l in
          modify (fun s => NetState (connected s) (version s) (last_seen s) (stats s) (rules s) (activity s)
                             (retained_at s) (next_sequence s) (session_id s) l (emitted s))
      | VNone => mret tt
      | v => if truthy v && negb (hashable v) then raise TypeError else mret tt
      end
  | _ => mret tt
  end.

Record daemon_reply := DaemonReply {
  reply_name : string;
  reply_action : val;
  reply_duration : string;
  reply_operator : string * string * list (string * string);
}.

(** The operator that binds the answer to the connection. *)
Definition reply_operators (c : connection) : list (string * string) :=
  List.filter (fun od => negb (String.eqb od.2 ""))
    [("process.path", process_path c); ("user.id", str_of_Z (user_id c)); ("dest.ip", dst_ip c);
     ("dest.port", str_of_Z (dst_port c)); ("source.port", str_of_Z (src_port c)); ("protocol", protocol c)].

Definition reply_rule (c : connection) (action : val) (selected : option dict) : daemon_reply :=
  let operators := reply_operators c in
  let operator :=
    if (1 <? length operators)%nat then ("list", "", operators)
    else match operators with (o, d) :: _ => (o, d, []) | [] => ("true", "", []) end in
  let seed := match selected with Some ((_ :: _) as d) => VDict d | _ => VDict (dlit [("action", action)]) end in
  DaemonReply ("greyward-" +:+ py_str action +:+ "-" +:+ str_take 12 (host_sha256 (host_json_sorted seed))) action "once"
    operator.

Definition denies (action : val) : bool := in_strs ["deny"; "reject"] action.

(** [ControlPlane.AskRule]. *)
Definition ask_rule (E : env) (sys : surroundings) (A : ambient) (R : sources) (c : connection)
  : act context_store daemon_reply :=
  decided ← lift (select_policy_rule E sys (policy R) c);
  let '(action, _, selected) := decided in
  _ ← on_network (count_match A selected);
  _ ← (if denies action then note_block A R c selected
       else
         let name := match selected with Some d => text_of (getd "name" (VStr "") d) | None => "" end in
         _ ← on_network (modify (record A c (text_of action) "greyward-policy" None name (selected_threat selected)));
         write_network A R);
  mret (reply_rule c action selected).
End control.
