(* ===== verification/NetworkClaims.v ===== *)
(** * Properties of the network activity and of the control plane

    The invariant of the activity buffer over every sequence of handlers, the
    totals of the summary, the completeness of the incremental response and the
    answer to a connection. *)
From stdpp Require Import sorting.
From S2P Require Import Prelude PyVal PyStr Json PyText PyTime NetworkRules PolicyDecision NetworkActivity NetworkViews ControlPlane JsonExample RuleClaims.

(** ** Sublists *)

Lemma StronglySorted_sublist {A} (R : A -> A -> Prop) (l k : list A) :
  l `sublist_of` k -> StronglySorted R k -> StronglySorted R l.
Proof.
  induction 1 as [|x l k Hlk IH|x l k Hlk IH]; intros Hs; [constructor| |].
  - inversion Hs as [|? ? Hk Hf]; subst. constructor; [by apply IH|].
    rewrite !List.Forall_forall in *. intros y Hy. apply Hf.
    apply list_elem_of_In. eapply sublist_subseteq; [exact Hlk|]. by apply list_elem_of_In.
  - inversion Hs; subst. by apply IH.
Qed.

Lemma filter_sublist {A} (p : A -> bool) (l : list A) : List.filter p l `sublist_of` l.
Proof. induction l as [|x l IH]; cbn; [done|]. destruct (p x); by constructor. Qed.

Lemma last_n_sublist {A} n (l : list A) : last_n n l `sublist_of` l.
Proof. apply sublist_drop. Qed.

Lemma in_last_n_snoc {A} n (l : list A) x : (0 < n)%nat -> In x (last_n n (l ++ [x])).
Proof.
  intros Hn. unfold last_n. rewrite length_app. cbn [length]. rewrite drop_app_le by lia.
  apply in_app_iff. right. by left.
Qed.

Lemma sublist_In {A} (l k : list A) x : l `sublist_of` k -> In x l -> In x k.
Proof. intros Hs Hx. apply list_elem_of_In. eapply sublist_subseteq; [done|]. by apply list_elem_of_In. Qed.

Lemma NoDup_last_n_snoc {A B} (f : A -> B) n l x :
  NoDup (map f l) -> ~ In (f x) (map f l) -> NoDup (map f (last_n n (l ++ [x]))).
Proof.
  intros Hl Hx. eapply sublist_NoDup; [|apply (fmap_sublist f), last_n_sublist].
  change (NoDup (map f (l ++ [x]))). rewrite map_app. apply NoDup_app. split_and!; [done| |by apply NoDup_singleton].
  intros i Hi Hj. apply list_elem_of_In in Hi, Hj. destruct Hj as [<-|[]]. by apply Hx.
Qed.

(** ** The invariant of the buffer *)

(** At most [n] entries, numbered in increasing order, with different
    identifiers, each with the time it was retained. *)
Record activity_upto (n : nat) (s : netstate) : Prop := {
  wf_bounded : (length (activity s) <= n)%nat;
  wf_increasing : StronglySorted Z.lt (map sequence (activity s));
  wf_numbered : forall e, In e (activity s) -> 1 <= sequence e <= next_sequence s;
  wf_identified : NoDup (map event_id (activity s));
  wf_dated : forall e, In e (activity s) -> is_Some (retained_at s !! event_id e);
  wf_counter : 0 <= next_sequence s;
}.

Abbreviation activity_wf := (activity_upto MAX_NETWORK_ACTIVITY).

Lemma activity_sublist n m s l r :
  activity_upto n s -> l `sublist_of` activity s -> (length l <= m)%nat ->
  (forall e, In e l -> is_Some (r !! event_id e)) -> activity_upto m (set_activity l r s).
Proof.
  intros [Hb Hi Hn Hd Ht Hc] Hs Hl Hr. split; cbn; try done.
  - eapply StronglySorted_sublist; [|exact Hi]. by apply (fmap_sublist sequence).
  - intros e He. apply Hn. by eapply sublist_In.
  - eapply sublist_NoDup; [exact Hd|]. by apply (fmap_sublist event_id).
Qed.

(** Only the activity fields matter. *)
Lemma activity_upto_ext n s s' :
  activity s' = activity s -> retained_at s' = retained_at s -> next_sequence s' = next_sequence s ->
  activity_upto n s -> activity_upto n s'.
Proof. intros E1 E2 E3 [Hb Hi Hn Hd Ht Hc]. split; rewrite ?E1, ?E2, ?E3; try done. Qed.

Lemma retained_filter (r : gmap string Z) (l : list event) e :
  In e l -> base.filter (fun kv : string * Z => kv.1 ∈ map event_id l) r !! event_id e = r !! event_id e.
Proof.
  intros He. rewrite map_lookup_filter. destruct (r !! event_id e) as [t|]; [|done]. cbn.
  rewrite option_guard_True; [done|]. cbn. apply list_elem_of_In. by apply in_map.
Qed.

Section invariant.
Context `{Host} `{FloatText} `{TimeText}.

Lemma prune_sublist t s : activity (prune_activity t s) `sublist_of` activity s.
Proof. etrans; [apply last_n_sublist|apply filter_sublist]. Qed.

Lemma prune_wf n t s : activity_upto n s -> activity_wf (prune_activity t s).
Proof.
  intros Hs. eapply activity_sublist; [done|apply prune_sublist|apply last_n_length|].
  intros e He. rewrite retained_filter by done. apply (wf_dated n s Hs). eapply sublist_In; [|exact He]. apply prune_sublist.
Qed.

(** Appending a numbered entry before the bound is enforced. *)
Definition appended (t : Z) (e : event) (s : netstate) : netstate :=
  NetState (connected s) (version s) (last_seen s) (stats s) (rules s) (activity s ++ [e]) (<[event_id e := t]> (retained_at s))
    (sequence e) (session_id s) (policy_matches s) (emitted s).

Lemma appended_wf n t e s :
  activity_upto n s -> sequence e = next_sequence s + 1 -> (forall x, In x (activity s) -> event_id x <> event_id e) ->
  activity_upto (S n) (appended t e s).
Proof.
  intros [Hb Hi Hn Hd Ht Hc] He Hne. split; cbn.
  - rewrite length_app. cbn. lia.
  - rewrite map_app. apply StronglySorted_app. split_and!; [|done|by repeat constructor].
    intros x y Hx Hy. apply list_elem_of_In in Hx, Hy. apply in_map_iff in Hx as (z & <- & Hz). destruct Hy as [<-|[]].
    apply Hn in Hz. lia.
  - intros x [Hx|[<-|[]]]%in_app_iff; [apply Hn in Hx; lia|lia].
  - rewrite map_app. apply NoDup_app. split_and!; [done| |by apply NoDup_singleton].
    intros i Hi' Hj. apply list_elem_of_In in Hi', Hj. apply in_map_iff in Hi' as (z & <- & Hz). destruct Hj as [Hj|[]].
    by apply (Hne z).
  - intros x [Hx|[<-|[]]]%in_app_iff; [|rewrite lookup_insert_eq; by eexists].
    rewrite lookup_insert_ne by (intros E; by apply (Hne x)). by apply Ht.
  - lia.
Qed.

Lemma append_event_wf n t e s :
  activity_upto n s -> (forall x, In x (activity s) -> event_id x <> event_id e) -> activity_wf (append_event t e s).
Proof.
  intros Hs Hne. pose proof (prune_wf n t s Hs) as Hp.
  assert (forall x, In x (activity (prune_activity t s)) -> event_id x <> event_id e) as Hne'.
  { intros x Hx. apply Hne. eapply sublist_In; [|exact Hx]. apply prune_sublist. }
  pose proof (appended_wf _ t (with_sequence e (next_sequence (prune_activity t s) + 1)) _ Hp eq_refl Hne') as Ha.
  set (s1 := appended _ _ _) in Ha. set (l := last_n MAX_NETWORK_ACTIVITY (activity s1)).
  apply (activity_upto_ext _ (set_activity l (base.filter (fun kv => kv.1 ∈ map event_id l) (retained_at s1)) s1)); [done..|].
  eapply activity_sublist; [exact Ha|apply last_n_sublist|apply last_n_length|].
  intros x Hx. rewrite retained_filter by done. apply (wf_dated _ _ Ha). eapply sublist_In; [|exact Hx]. apply last_n_sublist.
Qed.

Lemma record_wf n A c action source at_ name t s :
  (n <= MAX_NETWORK_ACTIVITY)%nat -> activity_upto n s -> activity_wf (record A c action source at_ name t s).
Proof.
  intros Hn Hs. unfold record. set (e := with_threat _ _).
  assert (activity_wf s) as Hw.
  { destruct Hs as [Hb ? ? ? ? ?]. split; try done. lia. }
  destruct (already_reported s e); [done|].
  set (l := if String.eqb source _ then _ else _).
  assert (l `sublist_of` activity s) as Hl by (unfold l; destruct (String.eqb source _); [apply filter_sublist|done]).
  assert (activity_wf (set_activity l (retained_at s) s)) as Hw'.
  { eapply activity_sublist; [exact Hw|done| |].
    - apply sublist_length in Hl. pose proof (wf_bounded _ _ Hw). lia.
    - intros x Hx. apply (wf_dated _ _ Hw). by eapply sublist_In. }
  destruct (existsb _ l) eqn:E; [done|].
  eapply append_event_wf; [exact Hw'|]. intros x Hx Heq. rewrite <- not_true_iff_false in E. apply E.
  apply existsb_exists. exists x. split; [done|]. by apply String.eqb_eq.
Qed.
End invariant.

(** ** The invariant of the control plane *)

(** A provisional entry and the daemon's own report of one connection. *)
Definition doubled `{TimeText} (x y : event) : Prop :=
  reported_by x = "greyward-policy" /\ reported_by y = "opensnitch-statistics" /\ flow_of x = flow_of y
  /\ within_coalesce_window (occurred_at x) (occurred_at y) = true.

Definition never_both `{TimeText} (l : list event) : Prop := forall x y, In x l -> In y l -> ~ doubled x y.

Record network_wf `{TimeText} (s : netstate) : Prop := {
  net_activity : activity_wf s;
  net_rules : (length (rules s) <= MAX_NETWORK_RULES)%nat;
  net_matches : (length (policy_matches s) <= MAX_POLICY_MATCHES)%nat;
  net_single : never_both (activity s);
}.

Record store_wf `{TimeText} (s : context_store) : Prop := {
  store_network : network_wf (cs_network s);
  store_events : (length (cs_events s) <= MAX_EVENTS)%nat;
  store_distinct : NoDup (map b_id (cs_events s));
}.

Definition keeps_net `{TimeText} (s s' : netstate) : Prop := network_wf s -> network_wf s'.
Definition keeps_store `{TimeText} (s s' : context_store) : Prop := store_wf s -> store_wf s'.

#[export] Instance keeps_net_preorder `{TimeText} : PreOrder keeps_net.
Proof. split; [intros s Hs; exact Hs|]. intros a b c Hab Hbc Ha. by apply Hbc, Hab. Qed.

#[export] Instance keeps_store_preorder `{TimeText} : PreOrder keeps_store.
Proof. split; [intros s Hs; exact Hs|]. intros a b c Hab Hbc Ha. by apply Hbc, Hab. Qed.

Lemma touch_last_ids id t l l' : touch_last id t l = Some l' -> map b_id l' = map b_id l.
Proof.
  revert l'; induction l as [|e l IH]; intros l'; cbn; [done|].
  destruct (touch_last id t l) as [k|]; [intros [= <-]; cbn; by rewrite (IH k)|].
  destruct (String.eqb (b_id e) id); [|done]. by intros [= <-].
Qed.

Lemma touch_last_None id t l : touch_last id t l = None <-> ~ In id (map b_id l).
Proof.
  induction l as [|e l IH]; cbn; [naive_solver|]. destruct (touch_last id t l) as [k|]; [split; [done|]|].
  - intros Hn. assert (~ In id (map b_id l)) as Hl by tauto. by apply IH in Hl.
  - destruct (String.eqb_spec (b_id e) id); naive_solver.
Qed.

Section control_invariant.
Context `{Host} `{FloatText} `{TimeText}.

Lemma never_both_sublist l k : l `sublist_of` k -> never_both k -> never_both l.
Proof. intros Hs Hk x y Hx Hy. apply Hk; by eapply sublist_In. Qed.

Lemma never_both_snoc l e :
  never_both l -> (forall x, In x l -> ~ doubled x e /\ ~ doubled e x) -> never_both (l ++ [e]).
Proof.
  intros Hl He x y [Hx|[<-|[]]]%in_app_iff [Hy|[<-|[]]]%in_app_iff; [by apply Hl|by apply He..|].
  intros (E1 & E2 & _). rewrite E1 in E2. done.
Qed.

Lemma within_sym a b : within_coalesce_window a b = within_coalesce_window b a.
Proof. unfold within_coalesce_window. destruct (event_time a), (event_time b); try done. by rewrite <- Z.abs_opp, Z.opp_sub_distr, Z.add_comm. Qed.

Lemma never_both_append t e s :
  never_both (activity s) -> (forall x, In x (activity s) -> ~ doubled x e /\ ~ doubled e x) ->
  never_both (activity (append_event t e s)).
Proof.
  intros Hs He. cbn [append_event activity]. eapply never_both_sublist; [apply last_n_sublist|].
  apply never_both_snoc; [eapply never_both_sublist; [apply prune_sublist|done]|].
  intros x Hx. apply (sublist_In _ _ _ (prune_sublist t s)) in Hx. by apply He.
Qed.

Lemma record_single A c action source at_ name t s :
  never_both (activity s) -> never_both (activity (record A c action source at_ name t s)).
Proof.
  intros Hs. unfold record. set (e := with_threat _ _). assert (reported_by e = source) as Hsrc by done.
  destruct (already_reported s e) eqn:Ea; [done|]. set (l := if String.eqb source _ then _ else _).
  assert (never_both l) as Hl.
  { unfold l. destruct (String.eqb source _); [|done]. eapply never_both_sublist; [apply filter_sublist|done]. }
  destruct (existsb _ l); [done|]. apply never_both_append; [done|]. cbn [activity set_activity]. intros x Hx.
  split; intros (E1 & E2 & E3 & E4).
  - rewrite Hsrc in E2. subst l. rewrite E2 in Hx. apply List.filter_In in Hx as [_ Hx]. cbn [String.eqb] in Hx.
    apply negb_true_iff in Hx. rewrite <- not_true_iff_false in Hx. apply Hx. unfold superseded, same_connection.
    rewrite bool_decide_eq_true_2 by done. rewrite E1, within_sym, E4. done.
  - rewrite <- not_true_iff_false in Ea. apply Ea. unfold already_reported. rewrite E1. cbn [andb].
    apply andb_true_iff. split; [done|]. apply existsb_exists. exists x. split.
    + subst l. destruct (String.eqb source _); [apply List.filter_In in Hx; tauto|done].
    + unfold same_connection. rewrite bool_decide_eq_true_2 by done. by rewrite E2, E4.
Qed.

Lemma record_keeps A c action source at_ name t s : keeps_net s (record A c action source at_ name t s).
Proof.
  intros [Ha Hr Hm Hs]. split.
  - eapply record_wf; [reflexivity|done].
  - unfold record. repeat (case_match; try done).
  - unfold record. repeat (case_match; try done).
  - by apply record_single.
Qed.

Lemma prune_keeps t s : keeps_net s (prune_activity t s).
Proof.
  intros [Ha Hr Hm Hs]. split; [eapply prune_wf; exact Ha|done..|]. eapply never_both_sublist; [apply prune_sublist|done].
Qed.

Lemma pinged_keeps A p s : keeps_net s (pinged A p s).
Proof.
  intros Hs. unfold pinged. set (s1 := NetState _ _ _ _ _ _ _ _ _ _ _).
  assert (network_wf s1) as H1'.
  { destruct Hs as [Ha Hr Hm Hs]. split; [by apply (activity_upto_ext _ s)|done..]. }
  clearbody s1. clear Hs. revert s1 H1'. induction (st_events p) as [|e l IH]; intros s1 Hs1; cbn [fold_left]; [done|].
  apply IH. unfold report. destruct (String.eqb _ _); [done|]. by apply record_keeps.
Qed.

Lemma subscribed_keeps A v l : respects keeps_net (subscribed A v l).
Proof.
  unfold subscribed. effects; apply respects_modify; intros s [Ha Hr Hm Hs].
  - split; [by apply (activity_upto_ext _ s)|done..].
  - split; [by apply (activity_upto_ext _ s)|apply last_n_length|done..].
Qed.

Lemma snapshot_keeps A R : respects keeps_net (snapshot A R).
Proof. unfold snapshot. effects. apply respects_modify. apply prune_keeps. Qed.

Lemma activity_response_keeps A R since limit : respects keeps_net (activity_response A R since limit).
Proof. unfold activity_response. effects; apply respects_modify; apply prune_keeps. Qed.

Lemma count_match_keeps A selected : respects keeps_net (count_match A selected).
Proof.
  unfold count_match. destruct selected as [[|kv d]|]; [effects| |effects].
  destruct (get "id" (kv :: d)) as [| | | |key| |]; try solve [effects]; try (case_match; solve [effects]).
  destruct (String.eqb key ""); [effects|].
  intros s Hs. unfold after, mbind, act_bind, gets, lift, modify.
  destruct (observe_match (moment A) (kv :: d) (default [] (dget key (policy_matches s)))) as [o|e]; [|done].
  destruct Hs as [Ha Hr Hm Hs]. split; [by apply (activity_upto_ext _ s)|done| |done].
  cbn [after snd policy_matches].
  pose proof (put_length key o (policy_matches s)) as Hp. set (l := put _ _ _) in *.
  assert (length (List.tl l) = length l - 1)%nat by (destruct l; cbn; lia). clearbody l.
  destruct (Nat.ltb_spec MAX_POLICY_MATCHES (length l)); [lia|lia].
Qed.

Lemma on_network_keeps {A} (m : act netstate A) : respects keeps_net m -> respects keeps_store (on_network m).
Proof.
  intros Hm s [Hn He Hd]. specialize (Hm (cs_network s) Hn). unfold after, on_network in *.
  destruct (m (cs_network s)) as [r n]. by split.
Qed.

Lemma write_network_keeps A R : respects keeps_store (write_network A R).
Proof.
  unfold write_network. effects; [apply on_network_keeps, snapshot_keeps|]. by apply respects_modify; intros s [].
Qed.

Lemma write_context_keeps A R : respects keeps_store (write_context A R).
Proof.
  unfold write_context. effects; [|apply on_network_keeps, snapshot_keeps|]; by apply respects_modify; intros s [].
Qed.

Lemma note_blocked_wf t c selected l :
  (length l <= MAX_EVENTS)%nat -> NoDup (map b_id l) ->
  (length (note_blocked t c selected l) <= MAX_EVENTS)%nat /\ NoDup (map b_id (note_blocked t c selected l)).
Proof.
  intros Hl Hd. unfold note_blocked. destruct (touch_last _ _ l) as [l'|] eqn:E.
  - apply touch_last_ids in E. rewrite <- (length_map b_id l'), E, length_map. done.
  - apply touch_last_None in E. split; [apply last_n_length|].
    by apply NoDup_last_n_snoc.
Qed.
End control_invariant.

Section handlers.
Context `{Host} `{FloatText} `{TimeText}.

Lemma note_block_keeps A R c selected : respects keeps_store (note_block A R c selected).
Proof.
  unfold note_block. apply respects_bind; [typeclasses eauto| |intros _; apply respects_bind; [typeclasses eauto| |]].
  - apply respects_modify. intros s [Hn He Hd]. destruct (note_blocked_wf (moment A) c selected _ He Hd). by split.
  - apply on_network_keeps, respects_modify. intros s. apply record_keeps.
  - intros _. apply write_context_keeps.
Qed.

Lemma ask_rule_keeps E sys A R c : respects keeps_store (ask_rule E sys A R c).
Proof.
  unfold ask_rule. apply respects_bind; [typeclasses eauto|effects|intros [[action d] selected]].
  apply respects_bind; [typeclasses eauto|apply on_network_keeps, count_match_keeps|intros _].
  apply respects_bind; [typeclasses eauto| |intros _; effects].
  destruct (denies action); [apply note_block_keeps|].
  apply respects_bind; [typeclasses eauto| |intros _; apply write_network_keeps].
  apply on_network_keeps, respects_modify. intros s. apply record_keeps.
Qed.

Lemma subscribe_keeps A R v l : respects keeps_store (subscribe A R v l).
Proof.
  unfold subscribe. apply respects_bind; [typeclasses eauto| |intros _; apply respects_bind; [typeclasses eauto| |]].
  - by apply respects_modify; intros s [].
  - apply on_network_keeps, subscribed_keeps.
  - intros _. apply write_context_keeps.
Qed.

Lemma ping_keeps A R p : respects keeps_store (ping A R p).
Proof.
  unfold ping. apply respects_bind; [typeclasses eauto| |intros _; apply respects_bind; [typeclasses eauto| |]].
  - by apply respects_modify; intros s [].
  - apply on_network_keeps, respects_modify. intros s. apply pinged_keeps.
  - intros _. apply write_context_keeps.
Qed.

(** The handlers, with anything they may read of the system. *)
Inductive handled : context_store -> context_store -> Prop :=
| handled_ping A R p s : handled s (after (ping A R p) s)
| handled_subscribe A R v l s : handled s (after (subscribe A R v l) s)
| handled_ask E sys A R c s : handled s (after (ask_rule E sys A R c) s)
| handled_write A R s : handled s (after (write_context A R) s)
| handled_response A R since limit s : handled s (after (on_network (activity_response A R since limit)) s).

Definition initial_store (session : string) (t : Z) : context_store :=
  ContextStore [] (initial_state session) false "" t None None.

Lemma initial_store_wf session t : store_wf (initial_store session t).
Proof.
  split; cbn; [split; cbn|lia|constructor].
  - split; cbn; try done; try lia; constructor.
  - lia.
  - unfold MAX_POLICY_MATCHES. lia.
  - by intros x y [].
Qed.

Lemma reachable_wf session t s : rtc handled (initial_store session t) s -> store_wf s.
Proof.
  intros Hr. assert (store_wf (initial_store session t)) as Hi by apply initial_store_wf.
  induction Hr as [s|s s' s'' Hs Hr IH]; [done|]. apply IH. clear IH Hr. destruct Hs.
  - by apply ping_keeps.
  - by apply subscribe_keeps.
  - by apply ask_rule_keeps.
  - by apply write_context_keeps.
  - by apply on_network_keeps; [apply activity_response_keeps|].
Qed.

(** ** Totals *)

Definition counts_wf (c : counts) : Prop := total c = allowed c + blocked c + unknown c /\ 0 <= allowed c /\ 0 <= blocked c /\ 0 <= unknown c.

Definition counted (k : category) (l : list event) : Z :=
  Z.of_nat (length (List.filter (fun e => bool_decide (category_of e = k)) l)).

Lemma count_one_wf k c : counts_wf c -> counts_wf (count_one k c).
Proof. unfold counts_wf. destruct k; cbn; lia. Qed.

Definition bucket_total (l : list counts) : Z := fold_right (fun c n => total c + n) 0 l.

Lemma bucket_total_alter k i l : (i < length l)%nat -> bucket_total (alter (count_one k) i l) = bucket_total l + 1.
Proof.
  revert i; induction l as [|c l IH]; intros [|i] Hi; cbn [length] in Hi; try lia.
  - change (total (count_one k c) + bucket_total l = total c + bucket_total l + 1). destruct k; cbn [total count_one]; lia.
  - change (total c + bucket_total (alter (count_one k) i l) = total c + bucket_total l + 1). rewrite IH; lia.
Qed.

Lemma summarize_spec first r l acc :
  let '(all, buckets) := fold_left (summarize_event first r) l acc in
  total all = total acc.1 + Z.of_nat (length l)
  /\ allowed all = allowed acc.1 + counted Allowed l
  /\ blocked all = blocked acc.1 + counted Blocked l
  /\ unknown all = unknown acc.1 + counted Unknown l
  /\ (Forall counts_wf acc.2 -> Forall counts_wf buckets) /\ length buckets = length acc.2
  /\ bucket_total acc.2 <= bucket_total buckets <= bucket_total acc.2 + Z.of_nat (length l)
  /\ ((forall e, In e l -> exists t, r !! event_id e = Some t /\ 0 <= bucket_index first t < Z.of_nat (length acc.2)) ->
      bucket_total buckets = bucket_total acc.2 + Z.of_nat (length l)).
Proof.
  revert acc. induction l as [|e l IH]; intros [all buckets]; cbn [fold_left].
  { unfold counted. cbn [fst snd List.filter length]. split_and!; intros; first [done|lia]. }
  specialize (IH (summarize_event first r (all, buckets) e)).
  destruct (fold_left _ l _) as [all' buckets'].
  assert (exists b, summarize_event first r (all, buckets) e = (count_one (category_of e) all, b)
    /\ (Forall counts_wf buckets -> Forall counts_wf b) /\ length b = length buckets
    /\ bucket_total buckets <= bucket_total b <= bucket_total buckets + 1
    /\ ((exists t, r !! event_id e = Some t /\ 0 <= bucket_index first t < Z.of_nat (length buckets)) ->
        bucket_total b = bucket_total buckets + 1)) as (b & Hb & Hw & Hl & Ht & Hx).
  { cbn [summarize_event]. destruct (r !! event_id e) as [t|] eqn:Er;
      [|exists buckets; split_and!; try done; try lia; by intros (? & ? & _)].
    destruct ((0 <=? bucket_index first t) && (bucket_index first t <? Z.of_nat (length buckets))) eqn:Ei.
    - split_bool. zify_bool. eexists. split; [reflexivity|].
      rewrite bucket_total_alter by lia. rewrite length_alter. split_and!; try done; try lia.
      intros Hf. apply Forall_alter; [done|]. intros c _. apply count_one_wf.
    - exists buckets. split_and!; try done; try lia. intros (t' & [= <-] & Hi).
      exfalso. rewrite <- not_true_iff_false in Ei. apply Ei. apply andb_true_iff. rewrite Z.leb_le, Z.ltb_lt. lia. }
  rewrite Hb in IH. cbn [fst snd] in *. destruct IH as (I1 & I2 & I3 & I4 & I5 & I6 & I7 & I8).
  unfold counted in *. cbn [List.filter length].
  split_and!.
  - rewrite I1. destruct (category_of e); repeat case_bool_decide; try done; cbn [total allowed blocked unknown count_one length]; lia.
  - rewrite I2. destruct (category_of e); repeat case_bool_decide; try done; cbn [total allowed blocked unknown count_one length]; lia.
  - rewrite I3. destruct (category_of e); repeat case_bool_decide; try done; cbn [total allowed blocked unknown count_one length]; lia.
  - rewrite I4. destruct (category_of e); repeat case_bool_decide; try done; cbn [total allowed blocked unknown count_one length]; lia.
  - auto.
  - congruence.
  - lia.
  - lia.
  - intros Hall. rewrite I8; [rewrite Hx; [lia|apply Hall; by left]|].
    intros x Hxin. rewrite Hl. apply Hall. by right.
Qed.
End handlers.

(** * Theorems on the network activity and the control plane

    The totals of the summary, the incremental response, and the record a
    denied connection leaves. *)

(** Whatever the daemon and the clients send, in any order, also when a
    handler raises half-way: the activity holds at most 4096 entries with
    different identifiers and increasing sequence numbers up to the counter,
    each with its retention time; at most 64 different blocked connections, 128
    daemon rules and 1024 rule counters are kept. *)
Theorem control_plane_bounded `{Host} `{FloatText} `{TimeText} session t s :
  rtc handled (initial_store session t) s ->
  activity_wf (cs_network s)
  /\ (length (rules (cs_network s)) <= MAX_NETWORK_RULES)%nat
  /\ (length (policy_matches (cs_network s)) <= MAX_POLICY_MATCHES)%nat
  /\ (length (cs_events s) <= MAX_EVENTS)%nat /\ NoDup (map b_id (cs_events s)).
Proof.
  intros Hr. apply reachable_wf in Hr as [[Ha Hl Hm _] He Hd]. by split_and!.
Qed.

(** C21. The activity never shows one connection twice: when the daemon has
    reported a connection, no provisional entry of the same flow within fifteen
    seconds is kept or added, whatever the order in which the answer and the
    report arrive. *)
Theorem never_shown_twice `{Host} `{FloatText} `{TimeText} session t s x y :
  rtc handled (initial_store session t) s ->
  In x (activity (cs_network s)) -> In y (activity (cs_network s)) -> ~ doubled x y.
Proof. intros Hr%reachable_wf. apply (net_single _ (store_network _ Hr)). Qed.

Lemma bucket_index_window t r : first_bucket t <= r <= t -> 0 <= bucket_index (first_bucket t) r < 30.
Proof.
  unfold bucket_index, first_bucket, to_minute. intros Hr.
  assert (minute > 0) as Hm by (unfold minute, second; lia).
  replace (r / minute * minute - (t / minute * minute - 29 * minute)) with ((r / minute - t / minute + 29) * minute) by lia.
  rewrite Z.div_mul by lia.
  assert (t / minute - 29 <= r / minute).
  { apply Z.div_le_lower_bound; lia. }
  assert (r / minute <= t / minute) by (apply Z.div_le_mono; lia). lia.
Qed.

(** The summary accounts for every retained event: the total is the length
    of the activity and splits into allowed, blocked and unknown; the thirty
    buckets split likewise, never count an event twice, and count every event
    retained since the start of the first bucket. *)
Theorem summary_totals `{TimeText} t s :
  let '(all, buckets) := summarize t s in
  total all = Z.of_nat (length (activity s)) /\ counts_wf all
  /\ allowed all = counted Allowed (activity s) /\ blocked all = counted Blocked (activity s)
  /\ length buckets = 30%nat /\ Forall counts_wf buckets /\ bucket_total buckets <= total all
  /\ ((forall e, In e (activity s) -> exists r, retained_at s !! event_id e = Some r /\ first_bucket t <= r <= t) ->
      bucket_total buckets = total all).
Proof.
  unfold summarize.
  pose proof (summarize_spec (first_bucket t) (retained_at s) (activity s) (no_counts, repeat no_counts 30)) as Hs.
  destruct (fold_left _ _ _) as [all buckets]. cbn [fst snd] in Hs. destruct Hs as (S1 & S2 & S3 & S4 & S5 & S6 & S7 & S8).
  assert (bucket_total (repeat no_counts 30) = 0) as Hz by reflexivity. rewrite Hz in *. cbn [total allowed blocked unknown no_counts] in *.
  assert (length (repeat no_counts 30) = 30%nat) as Hn by reflexivity. rewrite Hn in *.
  assert (Z.of_nat (length (activity s)) = counted Allowed (activity s) + counted Blocked (activity s) + counted Unknown (activity s)).
  { clear. unfold counted. induction (activity s) as [|e l IH]; [done|]. cbn [List.filter].
    destruct (category_of e); repeat case_bool_decide; try done; cbn [length] in *; lia. }
  assert (counts_wf all) as Hall by (unfold counts_wf, counted in *; lia).
  split_and!; try lia; try done.
  - apply S5. by repeat constructor.
  - intros Hin. rewrite S8; [lia|]. intros e He. destruct (Hin e He) as (r & Hr & Hw). exists r. split; [done|].
    by apply bucket_index_window.
Qed.

Lemma increasing_rev (l : list Z) : StronglySorted Z.lt l -> StronglySorted Z.gt (rev l).
Proof.
  induction 1 as [|x l Hl IH Hx]; cbn; [constructor|]. apply StronglySorted_app. split_and!; [|done|by repeat constructor].
  intros a b Ha Hb. apply list_elem_of_In in Ha, Hb. apply in_rev in Ha. destruct Hb as [<-|[]].
  rewrite List.Forall_forall in Hx. specialize (Hx a Ha). lia.
Qed.

Lemma take_sublist' {A} n (l : list A) : take n l `sublist_of` l.
Proof. apply sublist_take. Qed.

(** An incremental response that does not reset the client returns only
    retained entries newer than the client's, newest first, at most as many as
    asked for; what it leaves out is older than all it returns, and it leaves
    out nothing when the new entries fit the limit. *)
Theorem response_complete n s since limit :
  activity_upto n s -> 0 <= limit -> truthy (reset_value since (oldest_sequence (activity s))) = false ->
  let newer := List.filter (fun e => since <? sequence e) (activity s) in
  let r := selected_events since limit (activity s) in
  (forall e, In e r -> In e newer) /\ StronglySorted Z.gt (map sequence r) /\ Z.of_nat (length r) <= limit
  /\ (forall e x, In e r -> In x newer -> ~ In x r -> sequence x < sequence e)
  /\ (Z.of_nat (length newer) <= limit -> forall e, In e newer -> In e r)
  /\ (forall e l, activity s = e :: l -> sequence e - 1 <= since).
Proof.
  intros Hs Hlim Hreset newer. cbn zeta.
  assert (selected_events since limit (activity s) = take (Z.to_nat limit) (rev newer)) as ->.
  { unfold selected_events. rewrite Hreset. f_equal. apply List.filter_rev. }
  set (r := take _ _).
  assert (StronglySorted Z.gt (map sequence (rev newer))) as Hsorted.
  { rewrite map_rev. apply increasing_rev. eapply StronglySorted_sublist; [|apply (wf_increasing _ _ Hs)].
    apply (fmap_sublist sequence), filter_sublist. }
  split_and!.
  - intros e He. apply in_rev. eapply sublist_In; [|exact He]. apply take_sublist'.
  - eapply StronglySorted_sublist; [|exact Hsorted]. apply (fmap_sublist sequence), take_sublist'.
  - unfold r. rewrite length_take. lia.
  - intros e x He Hx Hnx. apply in_rev in Hx. rewrite <- (take_drop (Z.to_nat limit) (rev newer)) in Hx, Hsorted.
    apply in_app_iff in Hx as [Hx|Hx]; [done|]. rewrite map_app in Hsorted. apply StronglySorted_app in Hsorted as (Hlt & _).
    apply Z.gt_lt, Hlt; apply list_elem_of_In; by apply in_map.
  - intros Hfit e He. unfold r. rewrite take_ge; [by apply in_rev in He|]. rewrite length_rev. lia.
  - intros e l El. rewrite El in Hreset. cbn [oldest_sequence] in Hreset. unfold reset_value in Hreset.
    pose proof (wf_numbered _ _ Hs e) as Hn. rewrite El in Hn. specialize (Hn (or_introl eq_refl)).
    destruct (since =? 0) eqn:E0; [done|]. destruct (Z.eqb_spec (sequence e) 0); [lia|]. cbn in Hreset.
    apply Z.ltb_ge in Hreset. lia.
Qed.

(** ** The answer to a connection *)

Definition shown_path (c : connection) : string := clean (or_text (process_path c) "unknown application") 160.
Definition shown_destination (c : connection) : string :=
  clean (or_text (dst_host c) (or_text (dst_ip c) "unknown destination")) 160.

Lemma note_blocked_listed `{Host} t c selected l :
  In (blocked_id (shown_path c) (shown_destination c) (dst_port c)) (map b_id (note_blocked t c selected l)).
Proof.
  unfold note_blocked. fold (shown_path c) (shown_destination c). set (id := blocked_id _ _ _).
  destruct (touch_last id (iso t) l) as [l'|] eqn:E.
  - rewrite (touch_last_ids _ _ _ _ E). destruct (in_dec String.string_dec id (map b_id l)) as [Hi|Hi]; [done|].
    apply (touch_last_None id (iso t)) in Hi. congruence.
  - apply in_map_iff. eexists. split; [|apply in_last_n_snoc; unfold MAX_EVENTS; lia]. done.
Qed.

Lemma keeps_events_network {A} (m : act netstate A) s : cs_events (after (on_network m) s) = cs_events s.
Proof. unfold after, on_network. by destruct (m (cs_network s)). Qed.

Definition same_events (s s' : context_store) : Prop := cs_events s' = cs_events s.

#[export] Instance same_events_preorder : PreOrder same_events.
Proof. split; [done|]. intros a b c Hab Hbc. unfold same_events in *. congruence. Qed.

Section answer.
Context `{Host} `{FloatText} `{TimeText}.

Lemma write_context_events A R : respects same_events (write_context A R).
Proof.
  unfold write_context, write_network. apply respects_bind; [typeclasses eauto|by apply respects_modify|intros _].
  apply respects_bind; [typeclasses eauto|intros s; apply keeps_events_network|intros ?]. by apply respects_modify.
Qed.

Lemma bind_run {S A B} (m : act S A) (f : A -> act S B) s b :
  outcome (m ≫= f) s = Ok b ->
  exists a, outcome m s = Ok a /\ outcome (f a) (after m s) = Ok b /\ after (m ≫= f) s = after (f a) (after m s).
Proof.
  unfold outcome, after, mbind, act_bind. destruct (m s) as [[a|e] s1]; [|done]. intros Hf. by exists a.
Qed.

(** An answer carries the decided action for this connection only, never
    for longer; and when it denies, the connection is in the list of blocked
    connections of the security summary. *)
Theorem ask_rule_answer E sys A R c s reply :
  outcome (ask_rule E sys A R c) s = Ok reply ->
  exists action duration selected,
    select_policy_rule E sys (policy R) c = Ok (action, duration, selected)
    /\ reply = reply_rule c action selected /\ reply_action reply = action /\ reply_duration reply = "once"
    /\ (denies action = true ->
        In (blocked_id (shown_path c) (shown_destination c) (dst_port c))
           (map b_id (cs_events (after (ask_rule E sys A R c) s)))).
Proof.
  intros Ho. unfold ask_rule in *. apply bind_run in Ho as ([[action d] selected] & Hd & Ho & ->).
  apply bind_run in Ho as ([] & Hc & Ho & ->). apply bind_run in Ho as ([] & Hb & Ho & ->).
  exists action, d, selected. cbn in Hd. split; [done|]. injection Ho as <-. split_and!; try done.
  intros Hden. rewrite Hden in *. match goal with |- context [after (mret ?x) ?s'] => change (after (mret x) s') with s' end. set (s1 := after (on_network _) _) in *.
  unfold note_block in *. apply bind_run in Hb as ([] & _ & Hb & ->). apply bind_run in Hb as ([] & _ & Hb & ->).
  pose proof (write_context_events A R) as Hw. unfold respects, same_events in Hw. rewrite Hw, keeps_events_network.
  apply (note_blocked_listed (moment A) c selected (cs_events s1)).
Qed.
End answer.

(** ** Instances at concrete inputs *)

#[export] Instance example_time : TimeText := {| event_time := canonical_time |}.

Definition example_ambient (t : Z) : ambient := Ambient t [] (fun _ _ _ => None).
Definition example_readings : sources := Sources decision_policy VNone (Err (OSError "no such file")).

Definition web_connection : connection :=
  Connection "/usr/bin/curl" 77 1000 "TCP" "192.168.1.2" 40000 "203.0.113.9" "example.org" 443.

Definition direct_dns : connection :=
  Connection "/usr/bin/dig" 78 1000 "UDP" "192.168.1.2" 40001 "8.8.8.8" "" 53.

Definition first_answer : act context_store daemon_reply :=
  ask_rule example_env example_surroundings (example_ambient (1790000000 * second)) example_readings web_connection.

Definition daemon_report : proto_stats :=
  ProtoStats "1.8.0" 1 1 0 0 0 0 [ProtoEvent "2026-09-21T14:13:25Z" web_connection
    (ProtoRule "greyward-allow" "allow" "once" true (ProtoOperator "" "" []))].

Definition example_run : context_store :=
  after (ping (example_ambient (1790000010 * second)) example_readings daemon_report)
    (after first_answer (initial_store "0123456789abcdef" 0)).

(** The answer to the connection, then the daemon's report of it. *)
Lemma example_reachable : rtc handled (initial_store "0123456789abcdef" 0) example_run.
Proof.
  eapply rtc_l; [apply (handled_ask example_env example_surroundings (example_ambient (1790000000 * second)) example_readings web_connection)|].
  apply rtc_once, handled_ping.
Qed.

Lemma control_plane_bounded_witness :
  length (activity (cs_network example_run)) = 1%nat /\ NoDup (map b_id (cs_events example_run)).
Proof.
  split; [vm_compute; reflexivity|]. apply (control_plane_bounded "0123456789abcdef" 0 example_run example_reachable).
Defined.

Lemma never_shown_twice_witness :
  exists x, activity (cs_network example_run) = [x] /\ reported_by x = "opensnitch-statistics" /\ ~ doubled x x.
Proof.
  destruct (activity (cs_network example_run)) as [|x [|y l]] eqn:E; [vm_compute in E; discriminate E| |vm_compute in E; discriminate E].
  exists x. split; [reflexivity|]. split.
  - vm_compute in E. injection E as <-. reflexivity.
  - apply (never_shown_twice "0123456789abcdef" 0 example_run x x example_reachable); rewrite E; left; reflexivity.
Defined.

Definition numbered (n : Z) : event :=
  Event ("network-" +:+ str_of_Z n) None None 1000 "key" "2026-09-21T14:13:20Z" "curl" None (Destination None None 443 []) None
    "ALLOWED" None "opensnitch-statistics" None n.

Definition three_events : netstate :=
  NetState true "" None [] [] [numbered 4; numbered 6; numbered 7]
    (<["network-4" := 0]> (<["network-6" := 0]> (<["network-7" := 0]> ∅))) 7 "s" [] [].

Lemma response_complete_witness :
  activity_upto 3 three_events /\ selected_events 4 256 (activity three_events) = [numbered 7; numbered 6]
  /\ (forall e, In e (List.filter (fun e => 4 <? sequence e) (activity three_events)) -> In e (selected_events 4 256 (activity three_events))).
Proof.
  assert (activity_upto 3 three_events) as Hw.
  { split; cbn [activity three_events next_sequence]; [cbn; lia|cbn; repeat constructor; lia| | | |lia].
    - intros e [<-|[<-|[<-|[]]]]; cbn; lia.
    - apply (bool_decide_eq_true_1 (NoDup _)). vm_compute. reflexivity.
    - intros e [<-|[<-|[<-|[]]]]; eexists; vm_compute; reflexivity. }
  split; [exact Hw|]. split; [vm_compute; reflexivity|].
  apply (response_complete 3 three_events 4 256 Hw); [lia|reflexivity|cbn; lia].
Defined.

Lemma ask_rule_answer_witness :
  exists reply,
    outcome (ask_rule example_env example_surroundings (example_ambient (1790000000 * second)) example_readings direct_dns)
      (initial_store "0123456789abcdef" 0) = Ok reply
    /\ reply_action reply = VStr "deny" /\ reply_duration reply = "once".
Proof.
  destruct (outcome (ask_rule example_env example_surroundings (example_ambient (1790000000 * second)) example_readings direct_dns)
              (initial_store "0123456789abcdef" 0)) as [reply|e] eqn:E; [|vm_compute in E; discriminate E].
  exists reply. split; [reflexivity|].
  destruct (ask_rule_answer _ _ _ _ _ _ _ E) as (action & d & selected & Hs & _ & -> & -> & _).
  split; [|reflexivity]. vm_compute in Hs. injection Hs as <- _ _. reflexivity.
Defined.
