(* ===== verification/NetworkPatterns.v ===== *)
(** * Network patterns ([network_patterns.py])

    The retrospective evaluation of recorded connections: which observations
    take part, the sliding windows per application or process instance, and the
    factor an observation receives. An incremental window is compared with its
    definition in NetworkPatternsProps. *)
From stdpp Require Import gmap.
From stdpp Require Import gmap sorting.
From S2P Require Import Prelude PyVal PyStr Json PyText PyTime IpAddr NetworkRules NetworkLocation JsonExample.

Definition SOURCES : list string :=
  ["opensnitch"; "opensnitch-statistics"; "greyward-policy"; "opensnitch-stats"; "opensnitch-notification"].
Definition MAX_RECORDS : nat := 4096.
Definition WINDOW : Z := 60 * second.
Definition SERVICE_PORTS : list Z := [21; 22; 23; 135; 139; 445; 1433; 2375; 3306; 3389; 5432; 5900; 6379; 9200; 27017].

(** The user of an actor as a component of a key: the numbers [1], [1.0] and
    [True] are one user. An object or a list is kept, but is no key. A NaN is
    not told apart from another NaN. *)
Inductive user := UserNumber (z : Z) | UserFloat (f : spec_float) | UserText (s : string) | UserObject (v : string) | NoUser.

#[export] Instance spec_float_eq_dec : EqDecision spec_float.
Proof. solve_decision. Defined.
#[export] Instance user_eq_dec : EqDecision user.
Proof. solve_decision. Defined.

(** The process instance or the application of a user. *)
Inductive actor := Instance_of (key : string) (uid : user) | Application_of (path : string) (uid : user).

#[export] Instance actor_eq_dec : EqDecision actor.
Proof. solve_decision. Defined.

Record observation := Observation {
  o_id : string; o_time : Z; o_actors : list actor; o_address : string; o_port : Z; o_protocol : string; o_subnet : string }.

Definition hex_key (s : string) : bool :=
  (String.length s =? 40)%nat
  && str_forall (fun c => digit_char c || ((97 <=? ord c) && (ord c <=? 102))) s.

(** The integer a float is equal to. *)
Definition integral (f : spec_float) : option Z :=
  match num_of_float f with
  | NFin m e => if 0 <=? e then Some (Z.shiftl m e)
                else if Z.shiftl (Z.shiftr m (- e)) (- e) =? m then Some (Z.shiftr m (- e)) else None
  | _ => None
  end.

Definition uid_of (v : val) : user :=
  match v with
  | VInt z => UserNumber z
  | VBool b => UserNumber (if b then 1 else 0)
  | VFloat f => match integral f with Some z => UserNumber z | None => UserFloat f end
  | VStr s => UserText s
  | VNone => NoUser
  | VList _ | VDict _ => UserObject (py_str v)
  end.

Definition hashable_user (u : user) : bool := match u with UserObject _ => false | _ => true end.

Definition actor_user (a : actor) : user := match a with Instance_of _ u | Application_of _ u => u end.

(** [type(v) is int]. *)
Definition exact_int (v : val) : option Z := match v with VInt z => Some z | _ => None end.

Section patterns.
Context `{Host} `{FloatText} `{TimeText}.

(** The identifier of an observation without one: SHA-256 of the [repr] of its
    actor (the user in it as the event has it), time, address, port, protocol
    and decision. *)
Variable unnamed_id : actor -> val -> Z -> string -> Z -> string -> string -> string.

(** The user an application is attributed to, which must be a number. *)
Definition application_uid (uid : val) : option Z :=
  match exact_int uid with Some z => if 0 <=? z then Some z else None | None => None end.

(** The actors of an observation: the instance if its key is verified, and the
    application of a user. *)
Definition actors_of (key executable uid : val) : list actor :=
  let application := match executable, application_uid uid with
                     | VStr e, Some u => if startswith "/" e then [Application_of e (UserNumber u)] else []
                     | _, _ => []
                     end in
  match key with
  | VStr k => if hex_key k then Instance_of k (uid_of uid) :: application else application
  | _ => application
  end.

(** [event.get(k) or details.get(k)]: the details must be an object only when
    the event has no value of its own. *)
Definition event_or_details (k : string) (event : dict) : res val :=
  if truthy (get k event) then Ok (get k event)
  else details ← as_dict (py_or (get "details" event) (VDict [])); Ok (get k details).

Definition subnet_of (a : ip_addr) : res string :=
  match ip_network (ip_str a +:+ match a with IPv4 _ => "/24" | IPv6 _ _ => "/64" end) with
  | Some n => Ok (net_str n)
  | None => Err (ValueError "does not appear to be an IPv4 or IPv6 network")
  end.

(** [normalized(event)]. *)
Definition normalized (v : val) : res (option observation) :=
  match v with
  | VDict event =>
      known ← in_set SOURCES (get "source" event);
      if negb known then Ok None else
      match py_or (get "destination" event) (VDict []) with
      | VDict destination =>
          let time := event_time (py_str (get "occurred_at" event)) in
          let port := getd "port" (get "port" event) destination in
          let protocol := removesuffix "6" (str_lower (text_of (get "protocol" event))) in
          let decision := getd "decision" (get "outcome" event) event in
          address ← try_with (a ← ip_address_val (py_or (get "ip" destination) (VStr "")); Ok (Some a)) is_value_error
                      (fun _ => Ok None);
          match address, time with
          | Some address, Some time =>
              if negb (in_strs ["tcp"; "udp"] (VStr protocol)) then Ok None else
              match exact_int port with
              | Some port =>
                  if negb ((1 <=? port) && (port <=? 65535)) then Ok None else
                  decided ← in_set ["ALLOWED"; "BLOCKED"] decision;
                  if negb decided then Ok None else
                  if is_loopback address || is_link_local address || is_multicast address || is_unspecified address
                     || is_reserved address then Ok None else
                  executable ← event_or_details "executable" event;
                  key ← event_or_details "process_key" event;
                  let actors := actors_of key executable (get "actor_uid" event) in
                  match actors with
                  | [] => Ok None
                  | actor :: _ =>
                      subnet ← subnet_of address;
                      let id := if truthy (get "event_id" event) then py_str (get "event_id" event)
                                else unnamed_id actor (get "actor_uid" event) time (ip_str address) port protocol (py_str decision) in
                      Ok (Some (Observation id time actors (ip_str address) port protocol subnet))
                  end
              | None => Ok None
              end
          | _, _ => Ok None
          end
      | _ => Ok None
      end
  | _ => Ok None
  end.

(** The observations in the order of their time and identifier, the last one of
    each identifier. Identifiers are texts. *)
Definition observation_leb (x y : observation) : bool :=
  if o_time x =? o_time y then match String.compare (o_id x) (o_id y) with Gt => false | _ => true end
  else o_time x <? o_time y.

Definition unique_observations (events : list val) : res (list (string * observation)) :=
  foldM (fun acc v => n ← normalized v;
                      Ok (match n with Some o => put (o_id o) o acc | None => acc end))
        [] (last_n MAX_RECORDS events).

(** ** Sliding windows *)

(** What is counted: the ports of one destination, or the addresses of one
    subnet on one port. *)
Inductive group := Vertical (a : actor) (address : string) | Horizontal (a : actor) (subnet : string) (port : Z).
Inductive target := TPort (p : Z) | TAddress (s : string).

#[export] Instance group_eq_dec : EqDecision group.
Proof. solve_decision. Defined.
#[export] Instance target_eq_dec : EqDecision target.
Proof. solve_decision. Defined.
#[export] Instance target_countable : Countable target.
Proof.
  apply (inj_countable' (fun t => match t with TPort p => inl p | TAddress s => inr s end)
           (fun s => match s with inl p => TPort p | inr s => TAddress s end)).
  by intros [].
Defined.

(** The deque and the counter of a group. *)
Record window := Window { w_queue : list (Z * target); w_counts : gmap target Z }.

Definition empty_window : window := Window [] ∅.

(** [counts[old] -= 1; if not counts[old]: del counts[old]]. *)
Definition forget (old : target) (counts : gmap target Z) : gmap target Z :=
  let n := default 0 (counts !! old) - 1 in
  if n =? 0 then delete old counts else <[old := n]> counts.

(** [while queue and queue[0][0] < limit]. *)
Fixpoint expire (limit : Z) (queue : list (Z * target)) (counts : gmap target Z) : window :=
  match queue with
  | (t, old) :: rest => if t <? limit then expire limit rest (forget old counts) else Window queue counts
  | [] => Window [] counts
  end.

Definition slide (t : Z) (x : target) (w : window) : window :=
  let w := expire (t - WINDOW) (w_queue w) (w_counts w) in
  Window (w_queue w ++ [(t, x)]) (<[x := default 0 (w_counts w !! x) + 1]> (w_counts w)).

Definition is_tcp (o : observation) : bool := String.eqb (o_protocol o) "tcp".

(** A window can be kept of every actor: none has a user that is no key. *)
Definition hashable_actors (o : observation) : bool := forallb (fun a => hashable_user (actor_user a)) (o_actors o).

Definition groups_of (o : observation) : list group :=
  flat_map (fun a => Vertical a (o_address o)
                     :: (if existsb (Z.eqb (o_port o)) SERVICE_PORTS then [Horizontal a (o_subnet o) (o_port o)] else []))
           (o_actors o).

Definition target_of (g : group) (o : observation) : target :=
  match g with Vertical _ _ => TPort (o_port o) | Horizontal _ _ _ => TAddress (o_address o) end.

Definition threshold (g : group) : nat := match g with Vertical _ _ => 12 | Horizontal _ _ _ => 16 end.

Record pattern := Pattern {
  p_code : string; p_explanation : string; p_observations : nat; p_distinct : nat; p_attribution : string;
  p_first : Z; p_last : Z }.

Definition group_actor (g : group) : actor := match g with Vertical a _ | Horizontal a _ _ => a end.

Definition application_scope (g : group) : bool := match group_actor g with Application_of _ _ => true | _ => false end.

(** The factor of a group whose window holds [queue] with [n] distinct targets. *)
Definition pattern_of (g : group) (o : observation) (queue : list (Z * target)) (n : nat) : option pattern :=
  if (n <? threshold g)%nat then None else
  let count := str_of_Z (Z.of_nat n) in
  let description := match g with
    | Vertical _ _ => count +:+ " distinct TCP service ports on one destination"
    | Horizontal _ _ _ => count +:+ " destinations in one local network prefix on TCP port " +:+ str_of_Z (o_port o)
    end in
  let description := if application_scope g
    then description +:+ " across observed instances of the same application and user" else description in
  Some (Pattern (match g with Vertical _ _ => "SERVICE_PORT_SWEEP" | Horizontal _ _ _ => "SERVICE_HOST_SWEEP" end)
          (description +:+ " within 60 seconds. This resembles service discovery; an authorized scanner may be legitimate.")
          (length queue) n (if application_scope g then "APPLICATION_ACTIVITY" else "KERNEL_PROCESS_INSTANCE")
          (match queue with (t, _) :: _ => t | [] => o_time o end) (o_time o)).

Fixpoint lookup_window (g : group) (l : list (group * window)) : window :=
  match l with [] => empty_window | (h, w) :: l => if decide (h = g) then w else lookup_window g l end.

(** One group of one observation. *)
Definition step_group (o : observation) (acc : list (group * window) * list pattern) (g : group)
  : list (group * window) * list pattern :=
  let '(windows, factors) := acc in
  let w := slide (o_time o) (target_of g o) (lookup_window g windows) in
  ((g, w) :: windows, match pattern_of g o (w_queue w) (size (w_counts w)) with Some p => factors ++ [p] | None => factors end).

(** [max(factors, key=...)]: the first of the greatest. *)
Definition pattern_key_lt (p q : pattern) : bool :=
  let exact r := String.eqb (p_attribution r) "KERNEL_PROCESS_INSTANCE" in
  (p_distinct p <? p_distinct q)%nat || ((p_distinct p =? p_distinct q)%nat && negb (exact p) && exact q).

Definition best_pattern (l : list pattern) : option pattern :=
  match l with [] => None | p :: l => Some (fold_left (fun b p => if pattern_key_lt b p then p else b) l p) end.

Definition step (acc : list (group * window) * list (string * pattern)) (o : observation)
  : list (group * window) * list (string * pattern) :=
  let '(windows, result) := acc in
  if negb (is_tcp o) then (windows, result) else
  let '(windows, factors) := fold_left (step_group o) (groups_of o) (windows, []) in
  (windows, match best_pattern factors with Some p => result ++ [(o_id o, p)] | None => result end).

(** [evaluate(events)]. A connection over TCP of an actor that is no key raises. *)
Definition evaluate (events : list val) : res (list (string * pattern)) :=
  unique ← unique_observations events;
  let ordered := sort_by observation_leb (map snd unique) in
  _ ← require (forallb (fun o => negb (is_tcp o) || hashable_actors o) ordered) TypeError;
  Ok (fold_left step ordered ([], [])).2.
End patterns.

(** * The sliding windows are what they stand for

    The incremental evaluation of [network_patterns.py] (a deque and a counter
    per group) gives the same factors as a direct definition: for each
    observation, the targets its group met in the sixty seconds up to it. *)

(** ** Reference *)

(** Everything a group met, in order. *)
Definition met_by (g : group) (o : observation) : list (Z * target) :=
  if is_tcp o then map (fun h => (o_time o, target_of h o)) (List.filter (fun h => bool_decide (h = g)) (groups_of o)) else [].

Definition met (g : group) (l : list observation) : list (Z * target) := flat_map (met_by g) l.

(** What it met in the window that ends at [t]. *)
Definition recent (g : group) (t : Z) (l : list observation) : list (Z * target) :=
  List.filter (fun e => t - WINDOW <=? e.1) (met g l).

Definition targets (q : list (Z * target)) : gset target := list_to_set (map snd q).

Definition reference_patterns (past : list observation) (o : observation) : list pattern :=
  omap (fun g => let q := recent g (o_time o) (past ++ [o]) in pattern_of g o q (size (targets q))) (groups_of o).

Fixpoint reference_run (past l : list observation) : list (string * pattern) :=
  match l with
  | [] => []
  | o :: l =>
      (if is_tcp o then match best_pattern (reference_patterns past o) with Some p => [(o_id o, p)] | None => [] end else [])
      ++ reference_run (past ++ [o]) l
  end.

(** ** Counters *)

Definition occurrences (x : target) (q : list (Z * target)) : Z :=
  Z.of_nat (length (List.filter (fun e => bool_decide (e.2 = x)) q)).

(** The counter holds the number of occurrences, and only positive ones. *)
Definition counts_ok (q : list (Z * target)) (c : gmap target Z) : Prop :=
  forall x, c !! x = (if occurrences x q =? 0 then None else Some (occurrences x q)).

Lemma occurrences_cons t y q x : occurrences x ((t, y) :: q) = occurrences x q + (if bool_decide (y = x) then 1 else 0).
Proof. unfold occurrences. cbn. case_bool_decide; cbn [length]; lia. Qed.

Lemma occurrences_snoc t y q x : occurrences x (q ++ [(t, y)]) = occurrences x q + (if bool_decide (y = x) then 1 else 0).
Proof. unfold occurrences. rewrite List.filter_app, length_app. cbn. case_bool_decide; cbn [length]; lia. Qed.

Lemma occurrences_nonneg x q : 0 <= occurrences x q.
Proof. unfold occurrences. lia. Qed.

Lemma counts_default q c x : counts_ok q c -> default 0 (c !! x) = occurrences x q.
Proof. intros Hc. rewrite Hc. destruct (Z.eqb_spec (occurrences x q) 0) as [E|E]; cbn; lia. Qed.

Lemma forget_ok t old q c : counts_ok ((t, old) :: q) c -> counts_ok q (forget old c).
Proof.
  intros Hc x. unfold forget. rewrite (counts_default _ _ old Hc).
  pose proof (occurrences_cons t old q old) as Ho. rewrite bool_decide_eq_true_2 in Ho by done. rewrite Ho.
  replace (occurrences old q + 1 - 1) with (occurrences old q) by lia.
  pose proof (Hc x) as Hx. rewrite occurrences_cons in Hx.
  destruct (Z.eqb_spec (occurrences old q) 0) as [E|E]; destruct (decide (old = x)) as [<-|Hne].
  - rewrite lookup_delete_eq, E. done.
  - rewrite lookup_delete_ne by done. rewrite Hx, bool_decide_eq_false_2, Z.add_0_r by done. done.
  - rewrite lookup_insert_eq. destruct (Z.eqb_spec (occurrences old q) 0); done.
  - rewrite lookup_insert_ne by done. rewrite Hx, bool_decide_eq_false_2, Z.add_0_r by done. done.
Qed.

Lemma add_ok t x q c : counts_ok q c -> counts_ok (q ++ [(t, x)]) (<[x := default 0 (c !! x) + 1]> c).
Proof.
  intros Hc y. rewrite (counts_default q c x Hc), occurrences_snoc. destruct (decide (x = y)) as [<-|Hne].
  - rewrite lookup_insert_eq, bool_decide_eq_true_2 by done. pose proof (occurrences_nonneg x q).
    destruct (Z.eqb_spec (occurrences x q + 1) 0); [lia|done].
  - rewrite lookup_insert_ne, bool_decide_eq_false_2, Z.add_0_r by done. apply Hc.
Qed.

Lemma occurrences_In x q : occurrences x q <> 0 <-> In x (map snd q).
Proof.
  unfold occurrences. induction q as [|[t y] q IH]; cbn; [split; [lia|done]|].
  case_bool_decide as E; cbn [length]; [split; [by left|lia]|]. rewrite <- IH. cbn in E. naive_solver.
Qed.

Lemma counts_size q c : counts_ok q c -> size c = size (targets q).
Proof.
  intros Hc. rewrite <- size_dom. f_equal. apply set_eq. intros x. rewrite elem_of_dom, Hc. unfold targets.
  rewrite elem_of_list_to_set, list_elem_of_In, <- occurrences_In.
  destruct (Z.eqb_spec (occurrences x q) 0); by split.
Qed.

(** ** One window *)

Definition by_time (q : list (Z * target)) : Prop := StronglySorted (fun a b => a.1 <= b.1) q.

Lemma expire_spec limit q c :
  by_time q -> counts_ok q c ->
  let w := expire limit q c in
  w_queue w = List.filter (fun e => limit <=? e.1) q /\ counts_ok (w_queue w) (w_counts w).
Proof.
  intros Hs. revert c. induction Hs as [|[t x] q Hs IH Hx]; intros c Hc; cbn [expire List.filter]; [done|].
  cbn [fst]. destruct (Z.ltb_spec t limit) as [Hlt|Hge].
  - rewrite (proj2 (Z.leb_gt limit t)) by lia. apply IH. by eapply forget_ok.
  - rewrite (proj2 (Z.leb_le limit t)) by lia. cbn [w_queue w_counts]. split; [|done]. f_equal.
    symmetry. clear -Hx Hge. induction q as [|e q IH]; [done|]. inversion Hx as [|? ? He Hq]; subst.
    cbn [List.filter]. cbn in He. rewrite (proj2 (Z.leb_le limit e.1)) by lia. by rewrite IH.
Qed.

Lemma slide_spec t x w :
  by_time (w_queue w) -> counts_ok (w_queue w) (w_counts w) ->
  let w' := slide t x w in
  w_queue w' = List.filter (fun e => t - WINDOW <=? e.1) (w_queue w) ++ [(t, x)] /\ counts_ok (w_queue w') (w_counts w').
Proof.
  intros Hs Hc. unfold slide. destruct (expire_spec (t - WINDOW) _ _ Hs Hc) as [Hq Hk]. cbn zeta.
  cbn [w_queue w_counts]. rewrite Hq in *. split; [done|]. by apply add_ok.
Qed.

(** ** The run *)

Definition times_upto (t : Z) (l : list observation) : Prop := forall o, In o l -> o_time o <= t.

(** The window of a group after [past]: what it met, less a prefix that is too
    old for any later observation. *)
Definition window_ok (past : list observation) (g : group) (w : window) : Prop :=
  counts_ok (w_queue w) (w_counts w)
  /\ exists old, met g past = old ++ w_queue w
       /\ forall e t, In e old -> times_upto t past -> e.1 < t - WINDOW.

Lemma met_app g l k : met g (l ++ k) = met g l ++ met g k.
Proof. apply flat_map_app. Qed.

Lemma met_times g l e : In e (met g l) -> exists o, In o l /\ e.1 = o_time o.
Proof.
  intros He. apply in_flat_map in He as (o & Ho & He). exists o. split; [done|]. unfold met_by in He.
  destruct (is_tcp o); [|done]. apply in_map_iff in He as (h & <- & _). done.
Qed.

Lemma met_by_time g l :
  StronglySorted (fun a b => o_time a <= o_time b) l -> by_time (met g l).
Proof.
  induction 1 as [|o l Hl IH Ho]; [constructor|]. unfold met. cbn [flat_map]. fold (met g l). unfold by_time.
  apply StronglySorted_app. split_and!; [| |done].
  - intros a b Ha Hb. apply list_elem_of_In in Ha, Hb. unfold met_by in Ha.
    destruct (is_tcp o); [|done]. apply in_map_iff in Ha as (h & <- & _).
    apply met_times in Hb as (p & Hp & ->). rewrite List.Forall_forall in Ho. by apply Ho.
  - unfold met_by. destruct (is_tcp o); [|constructor]. induction (List.filter _ _) as [|h hs IHh]; cbn; [constructor|].
    constructor; [done|]. rewrite List.Forall_forall. intros e He. apply in_map_iff in He as (? & <- & _). cbn. lia.
Qed.

Lemma filter_none {A} (p : A -> bool) l : (forall x, In x l -> p x = false) -> List.filter p l = [].
Proof.
  intros Hl. induction l as [|x l IH]; cbn; [done|]. rewrite (Hl x) by by left. apply IH. intros y Hy. apply Hl. by right.
Qed.

Lemma met_by_once g o :
  NoDup (groups_of o) -> In g (groups_of o) -> is_tcp o = true -> met_by g o = [(o_time o, target_of g o)].
Proof.
  intros Hd Hg Ht. unfold met_by. rewrite Ht. induction (groups_of o) as [|h hs IH]; [done|].
  apply NoDup_cons in Hd as [Hh Hd]. rewrite list_elem_of_In in Hh. cbn [List.filter]. case_bool_decide as E.
  - subst h. rewrite filter_none; [done|]. intros h Hin. apply bool_decide_eq_false_2. by intros ->.
  - destruct Hg as [->|Hg]; [done|]. by apply IH.
Qed.

Lemma met_by_other g o : ~ In g (groups_of o) -> met_by g o = [].
Proof.
  intros Hg. unfold met_by. destruct (is_tcp o); [|done]. rewrite filter_none; [done|].
  intros h Hh. apply bool_decide_eq_false_2. by intros ->.
Qed.

(** Sliding the window of a group gives the window after one more observation
    and shows exactly the recent targets. *)
Lemma slide_window past o g w :
  StronglySorted (fun a b => o_time a <= o_time b) past -> times_upto (o_time o) past ->
  window_ok past g w -> met_by g o = [(o_time o, target_of g o)] ->
  let w' := slide (o_time o) (target_of g o) w in
  window_ok (past ++ [o]) g w' /\ w_queue w' = recent g (o_time o) (past ++ [o]).
Proof.
  intros Hsort Ht (Hc & old & Hm & Hold) Hone w'.
  assert (by_time (w_queue w)) as Hq.
  { pose proof (met_by_time g past Hsort) as Hb. rewrite Hm in Hb. by eapply StronglySorted_app. }
  destruct (slide_spec (o_time o) (target_of g o) w Hq Hc) as [Hw Hc']. fold w' in Hw, Hc'.
  assert (met g (past ++ [o]) = old ++ w_queue w ++ [(o_time o, target_of g o)]) as Hm'.
  { rewrite met_app. unfold met at 2. cbn [flat_map]. rewrite Hone, Hm, app_nil_r. by rewrite app_assoc. }
  assert (w_queue w' = recent g (o_time o) (past ++ [o])) as Hr.
  { unfold recent. rewrite Hm', !List.filter_app, (filter_none _ old), Hw.
    - cbn [List.filter fst app]. rewrite (proj2 (Z.leb_le (o_time o - WINDOW) (o_time o))) by (unfold WINDOW, second; lia). done.
    - intros e He. apply Z.leb_gt. by apply Hold. }
  split; [|done]. split; [done|].
  exists (old ++ List.filter (fun e => negb (o_time o - WINDOW <=? e.1)) (w_queue w)). split.
  - rewrite Hm', Hw, <- app_assoc. f_equal. rewrite app_assoc. f_equal.
    clear -Hq. induction Hq as [|e q Hq IH He]; [done|]. cbn [List.filter].
    destruct (Z.leb_spec (o_time o - WINDOW) e.1) as [Hle|Hgt]; cbn [negb app]; [|by rewrite IH at 1].
    rewrite (filter_none (fun e => negb _) q).
    + cbn [app]. f_equal. rewrite filter_none in IH; [exact IH|].
      intros x Hx. rewrite List.Forall_forall in He. specialize (He x Hx). apply negb_false_iff, Z.leb_le. lia.
    + intros x Hx. rewrite List.Forall_forall in He. specialize (He x Hx). apply negb_false_iff, Z.leb_le. lia.
  - intros e t [He|He]%in_app_iff Hall.
    + apply Hold; [done|]. intros p Hp. apply Hall. apply in_app_iff. by left.
    + apply List.filter_In in He as [_ He]. apply negb_true_iff, Z.leb_gt in He.
      specialize (Hall o (proj2 (in_app_iff past [o] o) (or_intror (or_introl eq_refl)))). lia.
Qed.

Lemma window_skip past o g w : met_by g o = [] -> window_ok past g w -> window_ok (past ++ [o]) g w.
Proof.
  intros Hn (Hc & old & Hm & Hold). split; [done|]. exists old. split.
  - rewrite met_app, Hm. unfold met. cbn [flat_map]. by rewrite Hn, app_nil_r.
  - intros e t He Hall. apply Hold; [done|]. intros p Hp. apply Hall. apply in_app_iff. by left.
Qed.

Lemma lookup_window_eq g w l : lookup_window g ((g, w) :: l) = w.
Proof. cbn. by rewrite decide_True. Qed.

Lemma lookup_window_ne g h w l : h <> g -> lookup_window g ((h, w) :: l) = lookup_window g l.
Proof. intros Hn. cbn. by rewrite decide_False. Qed.

Definition pattern_at (past : list observation) (o : observation) (g : group) : option pattern :=
  let q := recent g (o_time o) (past ++ [o]) in pattern_of g o q (size (targets q)).

Lemma step_groups past o gs windows factors :
  StronglySorted (fun a b => o_time a <= o_time b) past -> times_upto (o_time o) past ->
  NoDup gs -> (forall g, In g gs -> met_by g o = [(o_time o, target_of g o)]) ->
  (forall g, In g gs -> window_ok past g (lookup_window g windows)) ->
  let '(windows', factors') := fold_left (step_group o) gs (windows, factors) in
  factors' = factors ++ omap (pattern_at past o) gs
  /\ (forall g, In g gs -> window_ok (past ++ [o]) g (lookup_window g windows'))
  /\ (forall g, ~ In g gs -> lookup_window g windows' = lookup_window g windows).
Proof.
  intros Hs Ht Hd. revert windows factors. induction Hd as [|g gs Hg Hd IH]; intros windows factors Hone Hok; cbn [fold_left].
  { cbn. rewrite app_nil_r. split_and!; [done|by intros g []|done]. }
  rewrite list_elem_of_In in Hg. cbn [step_group].
  destruct (slide_window past o g (lookup_window g windows) Hs Ht (Hok g (or_introl eq_refl)) (Hone g (or_introl eq_refl))) as [Hw Hq].
  set (w := slide _ _ _) in *.
  specialize (IH ((g, w) :: windows) (match pattern_of g o (w_queue w) (size (w_counts w)) with Some p => factors ++ [p] | None => factors end)).
  destruct (fold_left _ gs _) as [windows' factors']. destruct IH as (I1 & I2 & I3).
  - intros h Hh. apply Hone. by right.
  - intros h Hh. rewrite lookup_window_ne by (intros ->; done). apply Hok. by right.
  - split_and!.
    + assert (pattern_of g o (w_queue w) (size (w_counts w)) = pattern_at past o g) as Hp.
      { unfold pattern_at. rewrite <- Hq, (counts_size (w_queue w) (w_counts w)); [done|]. apply Hw. }
      rewrite I1, Hp. change (omap (pattern_at past o) (g :: gs)) with
        (match pattern_at past o g with Some p => p :: omap (pattern_at past o) gs | None => omap (pattern_at past o) gs end).
      destruct (pattern_at past o g); [by rewrite <- app_assoc|done].
    + intros h [<-|Hh]; [rewrite I3 by done; by rewrite lookup_window_eq|by apply I2].
    + intros h Hh. rewrite I3 by (intros Hin; apply Hh; by right). apply lookup_window_ne. intros ->. apply Hh. by left.
Qed.

Lemma run_spec past l windows result :
  StronglySorted (fun a b => o_time a <= o_time b) (past ++ l) -> Forall (fun o => NoDup (groups_of o)) l ->
  (forall g, window_ok past g (lookup_window g windows)) ->
  (fold_left step l (windows, result)).2 = result ++ reference_run past l.
Proof.
  revert past windows result. induction l as [|o l IH]; intros past windows result Hs Hd Hok; cbn [fold_left reference_run].
  { by rewrite app_nil_r. }
  inversion Hd as [|? ? Ho Hd']; subst. assert (StronglySorted (fun a b => o_time a <= o_time b) ((past ++ [o]) ++ l)) as Hs'
    by by rewrite <- app_assoc.
  assert (StronglySorted (fun a b => o_time a <= o_time b) past) as Hp by (by apply StronglySorted_app in Hs as (_ & ? & _)).
  assert (times_upto (o_time o) past) as Ht.
  { intros p Hin. apply StronglySorted_app in Hs as (Hlt & _). apply (Hlt p o); apply list_elem_of_In; [done|by left]. }
  unfold step at 2. destruct (is_tcp o) eqn:Etcp; cbn [negb].
  - pose proof (step_groups past o (groups_of o) windows [] Hp Ht Ho) as Hg.
    destruct (fold_left (step_group o) _ _) as [windows' factors]. destruct Hg as (-> & Hin & Hout).
    + intros g Hg. by apply met_by_once.
    + intros g _. apply Hok.
    + cbn [app]. rewrite (IH (past ++ [o])); [|done..|].
      * change (omap (pattern_at past o) (groups_of o)) with (reference_patterns past o).
        destruct (best_pattern _); [by rewrite <- app_assoc|done].
      * intros g. destruct (in_dec (fun a b => decide (a = b)) g (groups_of o)) as [Hg|Hg]; [by apply Hin|].
        rewrite Hout by done. apply window_skip; [by apply met_by_other|done].
  - cbn [app]. apply IH; [done..|]. intros g. apply window_skip; [|done]. unfold met_by. by rewrite Etcp.
Qed.

Lemma actors_groups o : NoDup (o_actors o) -> NoDup (groups_of o).
Proof.
  unfold groups_of. induction 1 as [|a l Ha Hl IH]; [constructor|]. cbn [flat_map].
  apply NoDup_app. split_and!; [| |done].
  - destruct (existsb _ _); repeat (apply NoDup_cons; split; [set_solver|]); by constructor.
  - intros g Hg Hin. apply list_elem_of_In in Hg, Hin. apply in_flat_map in Hin as (b & Hb & Hin).
    assert (group_actor g = a) as Ea by (destruct (existsb _ _); naive_solver).
    assert (group_actor g = b) as Eb by (destruct (existsb _ _); naive_solver). apply Ha, list_elem_of_In. congruence.
Qed.

Section run.
Context `{Host} `{FloatText} `{TimeText}.
Variable unnamed_id : actor -> val -> Z -> string -> Z -> string -> string -> string.

Lemma actors_of_distinct key executable uid : NoDup (actors_of key executable uid).
Proof.
  unfold actors_of. set (app := match executable with VStr _ => _ | _ => _ end).
  assert (NoDup app /\ forall k u, ~ Instance_of k u ∈ app) as [Ha Hi].
  { unfold app. destruct executable; try (split; [constructor|set_solver]).
    destruct (application_uid uid); [|split; [constructor|set_solver]].
    destruct (startswith _ _); split; [apply NoDup_singleton|set_solver|constructor|set_solver]. }
  destruct key as [| | | |k| |]; try done. destruct (hex_key k); [|done]. apply NoDup_cons. split; [apply Hi|done].
Qed.

Lemma normalized_actors v o : normalized unnamed_id v = Ok (Some o) -> NoDup (o_actors o).
Proof.
  unfold normalized. destruct v as [| | | | | |event]; try done. intros Hn.
  apply bind_Ok in Hn as (known & _ & Hn). destruct known; [|done]. cbn [negb] in Hn.
  destruct (py_or _ _) as [| | | | | |destination]; try done. apply bind_Ok in Hn as (address & _ & Hn).
  destruct address as [address|]; [|done]. destruct (event_time _); [|done]. destruct (negb (in_strs _ _)); [done|].
  destruct (exact_int _); [|done]. destruct (negb (_ && _)); [done|]. apply bind_Ok in Hn as (decided & _ & Hn).
  destruct (negb decided); [done|]. destruct (is_loopback _ || _ || _ || _ || _); [done|].
  apply bind_Ok in Hn as (executable & _ & Hn). apply bind_Ok in Hn as (key & _ & Hn).
  pose proof (actors_of_distinct key executable (get "actor_uid" event)) as Ha.
  destruct (actors_of _ _ _); [done|]. apply bind_Ok in Hn as (subnet & _ & Hn). injection Hn as <-. done.
Qed.

Lemma unique_actors l acc out :
  (forall e, In e acc -> NoDup (o_actors e.2)) ->
  foldM (fun acc v => n ← normalized unnamed_id v; Ok (match n with Some o => put (o_id o) o acc | None => acc end)) acc l = Ok out ->
  forall e, In e out -> NoDup (o_actors e.2).
Proof.
  revert acc; induction l as [|v l IH]; intros acc Hacc; cbn [foldM]; [by intros [= <-]|].
  intros Hf. apply bind_Ok in Hf as (acc' & Ha & Hf). apply bind_Ok in Ha as (n & Hn & Ha). injection Ha as <-.
  eapply IH; [|exact Hf]. destruct n as [o|]; [|done]. intros e He. apply put_In in He as [->|He]; [|by apply Hacc].
  by eapply normalized_actors.
Qed.

Lemma observation_leb_time a b : observation_leb a b = true -> o_time a <= o_time b.
Proof. unfold observation_leb. destruct (Z.eqb_spec (o_time a) (o_time b)); [lia|]. intros Hl%Z.ltb_lt. lia. Qed.

Lemma observation_leb_total a b : observation_leb a b = false -> o_time b <= o_time a.
Proof. unfold observation_leb. destruct (Z.eqb_spec (o_time a) (o_time b)); [lia|]. intros Hl%Z.ltb_ge. lia. Qed.

Lemma sorted_by_time l : StronglySorted (fun a b => o_time a <= o_time b) (sort_by observation_leb l).
Proof.
  induction l as [|x l IH]; cbn; [constructor|]. induction IH as [|y l' Hl IH' Hy]; cbn; [by repeat constructor|].
  destruct (observation_leb x y) eqn:E.
  - apply observation_leb_time in E. constructor; [by constructor|]. constructor; [done|].
    rewrite List.Forall_forall in *. intros z Hz. specialize (Hy z Hz). lia.
  - apply observation_leb_total in E. constructor; [done|]. rewrite List.Forall_forall in *. intros z Hz.
    apply insert_by_In in Hz as [->|Hz]; [done|by apply Hy].
Qed.

End run.

(** ** An instance: a scan of twelve ports *)

#[local] Instance canonical_text : TimeText := {| event_time := canonical_time |}.

Definition scan_event (port : Z) : val :=
  VDict (dlit [("event_id", VStr ("scan-" +:+ str_of_Z port)); ("source", VStr "opensnitch-statistics");
    ("occurred_at", VStr ("2026-09-21T14:13:" +:+ two port +:+ "Z")); ("protocol", VStr "tcp"); ("decision", VStr "ALLOWED");
    ("executable", VStr "/usr/bin/nmap"); ("actor_uid", VInt 1000);
    ("destination", VDict (dlit [("ip", VStr "192.168.1.9"); ("port", VInt port)]))]).

Definition scan : list val := map scan_event [10; 11; 12; 13; 14; 15; 16; 17; 18; 19; 20; 21].

Definition no_id (_ : actor) (_ : val) (_ : Z) (_ : string) (_ : Z) (_ _ : string) : string := "".


(** The user of a process may be any value: a text takes part, a list only as
    long as no window is kept of it. *)
Definition owned_event (protocol : string) (uid : val) : val :=
  VDict (dlit [("event_id", VStr "e"); ("source", VStr "opensnitch"); ("occurred_at", VStr "2026-09-21T14:13:10Z");
    ("protocol", VStr protocol); ("decision", VStr "ALLOWED"); ("actor_uid", uid);
    ("process_key", VStr "0123456789012345678901234567890123456789"); ("executable", VStr "/usr/bin/nmap");
    ("details", VStr "text"); ("destination", VDict (dlit [("ip", VStr "192.168.1.9"); ("port", VInt 22)]))]).

Example owners :
  evaluate no_id [owned_event "tcp" (VStr "root")] = Ok []
  /\ evaluate no_id [owned_event "tcp" (VList [])] = Err TypeError
  /\ evaluate no_id [owned_event "udp" (VList [])] = Ok [].
Proof. by vm_compute. Qed.
