(* ===== verification/Assessment.v ===== *)
(** * The assessment of a connection ([intelligence.py])

    The score of one connection from independent families of evidence: the
    reputation of its destination, a network pattern, and the behaviour of the
    process instance. *)
From S2P Require Import Prelude PyVal PyStr Json PyText PyTime IpAddr NetworkRules PolicyDecision.
From S2P Require Feodo NetworkPatterns.

Definition VERSION : string := "rules-4".

(** [classification(score, decision, evaluated)]. *)
Definition classification (score : Z) (decision : string) (evaluated : bool) : string :=
  if negb evaluated then "UNKNOWN"
  else if 75 <=? score then "HIGH_THREAT"
  else if 35 <=? score then "SUSPICIOUS"
  else if String.eqb decision "BLOCKED" then "POLICY_BLOCKED" else "NORMAL".

(** [factor(code, points, explanation, domain)]. *)
Definition factor (code : string) (points : Z) (explanation domain : string) : dict :=
  dlit [("code", VStr code); ("points", VInt points); ("explanation", VStr explanation); ("domain", VStr domain)].

(** [network_risk_priority(score)]. *)
Definition network_risk_priority (score : val) : option Z :=
  match score with
  | VInt s =>
      if negb ((0 <=? s) && (s <=? 100)) then None
      else Some (if s =? 0 then 1 else if s <? 20 then 2 else if s <? 50 then 3 else if s <? 70 then 4
                 else if s <? 90 then 5 else 6)
  | _ => None
  end.

(** The facts of a process: its score, if it is linked, and its factors. *)
Definition process_score (process : val) : val := match process with VDict p => get "score" p | _ => VNone end.
Definition process_factors (process : val) : res (list val) :=
  match process with VDict p => as_list (getd "factors" (VList []) p) | _ => Ok [] end.

Definition linked (process : val) (factors : list val) : option Z :=
  match process_score process with
  | VInt s => if (0 <=? s) && (s <=? 100) && ((s =? 0) || negb (match factors with [] => true | _ => false end)) then Some s else None
  | _ => None
  end.

(** [any(f.get("domain") in {...} and f.get("points", 0) >= 15 for f in factors)]. *)
Fixpoint behavioural (factors : list val) : res bool :=
  match factors with
  | [] => Ok false
  | f :: factors =>
      d ← as_dict f;
      domain ← in_set ["execution"; "persistence"; "privilege"] (get "domain" d);
      strong ← (if domain : bool then py_ge (getd "points" (VInt 0) d) (VInt 15) else Ok false);
      if strong : bool then Ok true else behavioural factors
  end.

(** The factors of different codes, each with its last text. *)
Definition distinct_factors `{FloatText} (factors : list val) : list val :=
  map (fun kv => VDict kv.2)
    (fold_left (fun acc f => match f with
                             | VDict d => if truthy (get "code" d) then put (py_str (get "code" d)) d acc else acc
                             | _ => acc end) factors []).

Record scores := Scores { strongest : Z; support : Z; total_score : Z }.

Definition score_of (indicator : bool) (pattern : option Z) (process : option Z) (independent : bool) : scores :=
  let families := (if indicator then [70] else []) ++ option_list pattern ++ option_list process in
  let strongest := fold_left Z.max families 0 in
  let supporting := (if indicator then 1 else 0) + (match pattern with Some _ => 1 | None => 0 end) + (if independent then 1 else 0) in
  let support := if 2 <=? supporting then 20 else 0 in
  Scores strongest support (Z.min 100 (strongest + support)).

Definition grade (score : Z) (decision : val) : string :=
  if 70 <=? score then "HIGH_THREAT" else if 20 <=? score then "SUSPICIOUS"
  else if is_str "BLOCKED" decision then "POLICY_BLOCKED" else "NORMAL".

Section assessment.
Context `{FloatText} `{TimeText}.

Definition known_destination : dict :=
  factor "KNOWN_DESTINATION" 70 "The destination IP and port match the current local Feodo recommended command-and-control indicator list. A match warrants investigation; it is not proof that this application is compromised." "reputation".

(** The last successful update is at most a day old and not in the future. *)
Definition feed_fresh (now : Z) (reputation : dict) : res bool :=
  state ← in_set ["READY"; "EMPTY"] (get "state" reputation);
  Ok (state && match event_time (py_str (get "last_successful_update" reputation)) with
               | Some t => (0 <=? now - t) && (now - t <=? 86400 * second)
               | None => false
               end).

Definition unknown_assessment (stamp : string) : dict :=
  dlit [("classification", VStr "UNKNOWN"); ("score", VNone); ("confidence", VStr "UNKNOWN"); ("factors", VList []);
        ("incident_id", VNone); ("scope", VStr "UNASSESSED"); ("evaluated_at", VStr stamp); ("rules", VStr VERSION);
        ("risk_score", VNone); ("risk_scale", VInt 6)].

(** The connection whose address and port are assessed. *)
Definition assessed_endpoint (event : dict) : res (option (string * Z)) :=
  destination ← as_dict (py_or (get "destination" event) (VDict []));
  let protocol := str_lower (text_of (get "protocol" event)) in
  let decision := getd "decision" (get "outcome" event) event in
  address ← try_with (a ← ip_address_val (py_or (get "ip" destination) (VStr "")); Ok (Some a)) is_value_error
              (fun _ => Ok None);
  match address with
  | None => Ok None
  | Some a =>
      if negb (in_strs ["tcp"; "tcp6"; "udp"; "udp6"] (VStr protocol)) then Ok None else
      match NetworkPatterns.exact_int (getd "port" (get "port" event) destination) with
      | Some port =>
          if negb ((1 <=? port) && (port <=? 65535)) then Ok None else
          decided ← in_set ["ALLOWED"; "BLOCKED"] decision;
          Ok (if decided : bool then Some (ip_str a, port) else None)
      | None => Ok None
      end
  end.

Definition assessment_detail (indicator feed pattern support is_linked : bool) : string :=
  (if indicator then "Current local Feodo IP/port match. "
   else if feed : bool then "No match in the current, limited Feodo IP/port list. "
   else "Destination reputation is unavailable or stale. ")
  +:+ (if is_linked then "Related behavior is linked by verified kernel process instance. " else "No exact process behavior is linked. ")
  +:+ (if pattern then "Service-discovery pattern found in recorded connections; authorized scanning remains a possible explanation. " else "")
  +:+ (if support then "The strongest evidence weight is increased by 20 for independent corroborating evidence; overlapping scan patterns count once. " else "")
  +:+ "Domain reputation and traffic contents are not inspected. Low priority is not proof of safety.".

Definition endpoint (address : string) (port : Z) : connection := Connection "" 0 0 "" "" 0 address "" port.

(** A pattern counts when it is not empty; its points are a number. *)
Definition pattern_points (pattern : option dict) : res (option Z) :=
  match pattern with
  | Some ((_ :: _) as p) => v ← item "points" p; match v with VInt n => Ok (Some n) | _ => Err TypeError end
  | _ => Ok None
  end.

(** [network_assessment(event, process, None, reputation, pattern)]; [file] is
    the threat snapshot file an empty reputation falls back to. *)
Definition network_assessment (now : Z) (stamp : string) (file : res string) (event : dict) (process : val)
  (reputation : dict) (pattern : option dict) : res dict :=
  let unknown := unknown_assessment stamp in
  known ← (match event_time (py_str (get "occurred_at" event)) with
           | None => Ok false
           | Some _ => in_set NetworkPatterns.SOURCES (get "source" event)
           end);
  if negb known then Ok unknown else
  target ← assessed_endpoint event;
  match target with
  | None => Ok (dset "detail" (VStr "Incomplete connection metadata; the firewall decision remains authoritative.") unknown)
  | Some (address, port) =>
      let decision := getd "decision" (get "outcome" event) event in
      feed ← feed_fresh now reputation;
      indicator ← (if feed : bool then Feodo.matching_indicator file (Some reputation) (endpoint address port) else Ok None);
      indicators ← as_list (py_or (get "indicators" reputation) (VList []));
      points ← pattern_points pattern;
      pfactors ← process_factors process;
      let link := linked process pfactors in
      independent ← (match link with
                     | Some s => if 35 <=? s then behavioural pfactors else Ok false
                     | None => Ok false
                     end);
      let hit := match indicator with Some (_ :: _) => true | _ => false end in
      let found := match points with Some _ => true | None => false end in
      let is_linked := match link with Some _ => true | None => false end in
      let s := score_of hit points link independent in
      let pdict := match pattern with Some p => p | None => [] end in
      let factors := (if hit then [VDict known_destination] else []) ++ (if found then [VDict pdict] else [])
                     ++ (if is_linked then pfactors else []) in
      let application := found && is_str "APPLICATION_ACTIVITY" (get "attribution" pdict) in
      let scope := if application then "APPLICATION_ACTIVITY" else if is_linked then "PROCESS_INSTANCE"
                   else if found then "APPLICATION_ACTIVITY" else if hit then "NETWORK_REPUTATION" else "CONNECTION_METADATA" in
      let confidence := if hit then "HIGH"
                        else if found || match link with Some p => 0 <? p | None => false end then "MEDIUM" else "LOW" in
      let coverage := dlit
        [("reputation", VStr (if feed : bool then "FRESH" else "UNAVAILABLE"));
         ("reputation_provider", VStr "Feodo recommended IP/port indicators");
         ("reputation_indicators", VInt (if feed : bool then Z.of_nat (length indicators) else 0));
         ("domain_reputation", VStr "NOT_IMPLEMENTED");
         ("process", VStr (if is_linked then "KERNEL_PROCESS_INSTANCE" else "NOT_LINKED"))] in
      let attribution := if application then VStr "APPLICATION_ACTIVITY"
                         else if is_linked then VStr "KERNEL_PROCESS_INSTANCE"
                         else if found then get "attribution" pdict else VStr "CONNECTION_METADATA" in
      Ok (dupdate unknown
        [("score", VInt (total_score s));
         ("risk_score", match network_risk_priority (VInt (total_score s)) with Some p => VInt p | None => VNone end);
         ("classification", VStr (grade (total_score s) decision)); ("confidence", VStr confidence);
         ("factors", VList (distinct_factors factors)); ("scope", VStr scope); ("coverage", VDict coverage);
         ("incident_id", match process with VDict p => if is_linked then get "incident_id" p else VNone | _ => VNone end);
         ("attribution", attribution);
         ("score_components", VDict (dlit [("strongest_evidence", VInt (strongest s)); ("independent_support", VInt (support s))]));
         ("detail", VStr (assessment_detail hit feed found (negb (support s =? 0)) is_linked))])
  end.
End assessment.

(** ** Properties *)

(** The score is a severity between 0 and 100, at least the strongest family and
    at most twenty above it; twenty are added exactly for two families. *)
Lemma score_of_bounds indicator pattern process independent :
  (forall p, pattern = Some p -> 0 <= p <= 100) -> (forall p, process = Some p -> 0 <= p <= 100) ->
  let s := score_of indicator pattern process independent in
  0 <= strongest s <= 100 /\ strongest s <= total_score s <= 100 /\ total_score s <= strongest s + 20
  /\ (support s = 20 \/ support s = 0)
  /\ (support s = 20 <-> ((indicator = true /\ (pattern <> None \/ independent = true)) \/ (pattern <> None /\ independent = true))).
Proof.
  intros Hp Hq. unfold score_of. cbn [strongest support total_score].
  assert (forall z, pattern = Some z -> 0 <= z <= 100) as Hp' by done. clear Hp.
  destruct pattern as [p|]; [specialize (Hp' p eq_refl)|]; destruct process as [q|];
    try specialize (Hq q eq_refl); destruct indicator, independent; cbn [app option_list option_rect fold_left];
    repeat match goal with |- context [2 <=? ?e] => let v := eval vm_compute in (2 <=? e) in change (2 <=? e) with v end;
    cbn iota;
    (split_and!; [lia..|split; [intros Hx; first [discriminate Hx | naive_solver] | intros Hx; first [reflexivity | naive_solver]]]).
Qed.

(** Without evidence the priority is the lowest, whatever the firewall did. *)
Lemma no_evidence_no_score : total_score (score_of false None None false) = 0.
Proof. done. Qed.

Lemma network_risk_priority_bounds s p : network_risk_priority s = Some p -> 1 <= p <= 6.
Proof.
  unfold network_risk_priority. destruct s; try done. repeat case_match; intros [= <-]; lia.
Qed.

Lemma network_risk_priority_mono s t p q :
  network_risk_priority (VInt s) = Some p -> network_risk_priority (VInt t) = Some q -> s <= t -> p <= q.
Proof.
  unfold network_risk_priority. intros Hs Ht Hle.
  destruct (negb ((0 <=? s) && _)) eqn:Bs; [done|]. destruct (negb ((0 <=? t) && _)) eqn:Bt; [done|].
  apply negb_false_iff in Bs, Bt. split_bool. zify_bool.
  injection Hs as Hs. injection Ht as Ht. rewrite <- Hs, <- Ht. clear Hs Ht.
  repeat match goal with |- context [if ?b then _ else _] => destruct b eqn:? end; zify_bool; lia.
Qed.
