(* ===== verification/SecureDns.v ===== *)
(** * Secure DNS: data and operations on links ([secure_dns_reconciler.py])

    The policy, the providers, the properties of a link as systemd-resolved
    reports them, and the operations that apply, recognise and undo a managed
    configuration. systemd-resolved, NetworkManager and the clock are an
    interface; the files of the service are part of the state. *)
From S2P Require Import Prelude PyVal PyStr Json PyText PyTime IpAddr NetworkRules.

Definition MODES : list string := ["Automatic"; "Privacy"; "NetworkDefault"].
Definition PROVIDER_ORDER : list string := ["quad9"; "controld"; "adguard"].

Record provider := Provider { p_sni : string; p_addresses : list string }.

Definition PROVIDERS : list (string * provider) :=
  [("quad9", Provider "dns.quad9.net" ["9.9.9.9"; "149.112.112.112"; "2620:fe::fe"; "2620:fe::9"]);
   ("controld", Provider "p2.freedns.controld.com" ["76.76.2.2"; "76.76.10.2"; "2606:1a40::2"; "2606:1a40:1::2"]);
   ("adguard", Provider "dns.adguard-dns.com" ["94.140.14.14"; "94.140.15.15"; "2a10:50c0::ad1:ff"; "2a10:50c0::ad2:ff"])].

Definition provider_named (key : string) : option provider := dget key PROVIDERS.

(** A server as resolved lists it: family, address bytes, port, name. *)
Record dns_server := DnsServer { ds_family : Z; ds_address : list Z; ds_port : Z; ds_name : string }.

#[export] Instance dns_server_eq_dec : EqDecision dns_server.
Proof. solve_decision. Defined.

(** The properties of a link, or of the global scope. *)
Record link_props := LinkProps {
  l_dns : list dns_server;
  l_domains : list (string * bool);
  l_over_tls : string;
  l_dnssec : string;
  l_default_route : bool;
  l_current : option dns_server;
}.

(** The properties of the resolver: the entries carry the index of the link
    they belong to, 0 for the global scope. *)
Record manager_props := ManagerProps {
  m_dns : list (Z * dns_server);
  m_domains : list (Z * (string * bool));
  m_over_tls : string;
  m_dnssec : string;
  m_current : option (Z * dns_server);
}.

Record device := Device { dev_interface : string; dev_ifindex : Z; dev_vpn : bool }.

(** [_snapshot]: what is put back when the management of a link ends. *)
Record link_snapshot := LinkSnapshot {
  sn_ifindex : Z; sn_dns : list dns_server; sn_over_tls : string; sn_dnssec : string; sn_default_route : bool;
  sn_domains : list (string * bool) }.

(** The D-Bus calls and the clock on their state [P]. A D-Bus error is
    [ProviderError] with the name of the error. *)
Class Resolved (P : Type) := {
  rv_devices : act P (list device);
  rv_link : Z -> act P link_props;
  rv_global : act P manager_props;
  rv_set_dns : Z -> list dns_server -> act P unit;
  rv_set_over_tls : Z -> string -> act P unit;
  rv_set_dnssec : Z -> string -> act P unit;
  rv_set_default_route : Z -> bool -> act P unit;
  rv_revert : Z -> act P unit;
  rv_resolve : Z -> act P (bool * Z);
  rv_reload : act P unit;
  rv_sleep : act P unit;
  rv_monotonic : P -> Z;   (* microseconds *)
  rv_stamp : P -> string;
}.

(** The service: the platform, the read-only marker and its files. *)
Record dns_state (P : Type) := DnsState {
  platform : P;
  read_only : bool;
  policy_file : option dict;
  managed_snapshot : option link_snapshot;
  private_snapshot : option link_snapshot;
  config_file : option string;
  config_symlink : bool;
  temporary_symlink : bool;
  published : option dict;
}.
Arguments DnsState {P}. Arguments platform {P}. Arguments read_only {P}. Arguments policy_file {P}.
Arguments managed_snapshot {P}. Arguments private_snapshot {P}. Arguments config_file {P}.
Arguments config_symlink {P}. Arguments temporary_symlink {P}. Arguments published {P}.

(** ** The policy *)

Record dns_policy := DnsPolicy { dp_value : dict; dp_desired : string; dp_order : list string; dp_provider : string }.

(** The members of a list that are keys of [PROVIDERS]. *)
Fixpoint known_providers (l : list val) : res (list string) :=
  match l with
  | [] => Ok []
  | v :: l => b ← in_set (map fst PROVIDERS) v; rest ← known_providers l;
              Ok (match v with VStr s => if b : bool then s :: rest else rest | _ => rest end)
  end.

Definition default_dns_policy : dict :=
  dlit [("desired_policy", VStr "Automatic"); ("provider", VStr "quad9"); ("provider_order", VList (map VStr PROVIDER_ORDER));
        ("custom", VNone)].

(** [_policy()]. *)
Definition policy_of (file : option dict) : res dns_policy :=
  let value := match file with Some d => d | None => default_dns_policy end in
  mode ← in_set MODES (get "desired_policy" value);
  let desired := match get "desired_policy" value with VStr s => if mode : bool then s else "Automatic" | _ => "Automatic" end in
  order ← known_providers (match get "provider_order" value with VList l => l | _ => map VStr PROVIDER_ORDER end);
  let order := order ++ List.filter (fun k => negb (existsb (String.eqb k) order)) PROVIDER_ORDER in
  known ← in_set (map fst PROVIDERS) (get "provider" value);
  let provider := match get "provider" value with VStr s => if known : bool then s else hd "" order | _ => hd "" order end in
  Ok (DnsPolicy (dset "provider" (VStr provider) (dset "provider_order" (VList (map VStr order))
                  (dset "desired_policy" (VStr desired) value))) desired order provider).

(** ** Servers *)

(** [address.packed]. *)
Definition packed (a : ip_addr) : list Z :=
  map (fun k => Z.land (Z.shiftr (ip_int a) (8 * Z.of_nat k)) 255)
    (rev (seq 0 (match a with IPv4 _ => 4 | IPv6 _ _ => 16 end))).

(** [ipaddress.ip_address(bytes(l))]. *)
Definition unpacked (l : list Z) : option ip_addr :=
  let n := fold_left (fun acc b => acc * 256 + b) l 0 in
  if (length l =? 4)%nat then Some (IPv4 n) else if (length l =? 16)%nat then Some (IPv6 n None) else None.

Definition family_of (a : ip_addr) : Z := match a with IPv4 _ => 2 | IPv6 _ _ => 10 end.

(** [_provider_dns(provider)]. *)
Definition provider_dns (p : provider) : list dns_server :=
  omap (fun text => a ← ip_address text; Some (DnsServer (family_of a) (packed a) 853 (p_sni p))) (p_addresses p).

(** [_server(props)]. *)
Definition server_dict (props : link_props) : option dict :=
  s ← l_current props;
  a ← unpacked (ds_address s);
  Some (dlit [("address", VStr (ip_str a)); ("port", VInt (ds_port s)); ("name", VStr (ds_name s)); ("family", VInt (ds_family s))]).

Definition yes_text (s : string) : bool := existsb (String.eqb (str_lower s)) ["yes"; "true"].

(** The identity of a server in [_managed]: the port is not compared. *)
Definition server_identity (s : dns_server) : Z * list Z * string := (ds_family s, ds_address s, ds_name s).

Definition included {A} `{EqDecision A} (l k : list A) : bool := forallb (fun x => existsb (fun y => bool_decide (y = x)) k) l.

(** [_managed(props, provider)]: equality of the sets of servers. *)
Definition managed (props : link_props) (p : provider) : bool :=
  let expected := map server_identity (provider_dns p) in
  let actual := map server_identity (l_dns props) in
  included expected actual && included actual expected && yes_text (l_over_tls props) && yes_text (l_dnssec props).

(** [_managed_provider(props)]. *)
Definition managed_provider (props : link_props) : option string :=
  option_map fst (List.find (fun kp => managed props kp.2) PROVIDERS).

(** [_matches_provider(props, provider)]. *)
Definition matches_provider (props : link_props) (p : provider) : bool :=
  match l_current props with
  | Some s => match unpacked (ds_address s) with
              | Some a => String.eqb (ds_name s) (p_sni p) || existsb (String.eqb (ip_str a)) (p_addresses p)
              | None => false
              end
  | None => false
  end.

(** [_domains(props)], [_transport(props, vpn)]. *)
Definition domain_names (props : link_props) : list string := map fst (l_domains props).
Definition transport (props : link_props) (vpn : bool) : string :=
  if vpn then "VPNTunnel" else if yes_text (l_over_tls props) then "DoT" else "Plain".

(** [_snapshot(ifindex, props)]: the domains are filled in by the caller. *)
Definition snapshot_of (ifindex : Z) (props : link_props) : link_snapshot :=
  LinkSnapshot ifindex (l_dns props) (l_over_tls props) (l_dnssec props) (l_default_route props) [].

(** ** Operations *)

Section operations.
Context {P : Type} `{Resolved P}.
Abbreviation M := (act (dns_state P)).

Definition on_platform {A} (m : act P A) : M A := fun s =>
  let '(r, p) := m (platform s) in
  (r, DnsState p (read_only s) (policy_file s) (managed_snapshot s) (private_snapshot s) (config_file s) (config_symlink s)
        (temporary_symlink s) (published s)).

Definition set_managed_snapshot (sn : option link_snapshot) : M unit := modify (fun s =>
  DnsState (platform s) (read_only s) (policy_file s) sn (private_snapshot s) (config_file s) (config_symlink s) (temporary_symlink s) (published s)).
Definition set_private_snapshot (sn : option link_snapshot) : M unit := modify (fun s =>
  DnsState (platform s) (read_only s) (policy_file s) (managed_snapshot s) sn (config_file s) (config_symlink s) (temporary_symlink s) (published s)).
Definition set_config (c : option string) : M unit := modify (fun s =>
  DnsState (platform s) (read_only s) (policy_file s) (managed_snapshot s) (private_snapshot s) c (config_symlink s) (temporary_symlink s) (published s)).
Definition set_policy (d : dict) : M unit := modify (fun s =>
  DnsState (platform s) (read_only s) (Some d) (managed_snapshot s) (private_snapshot s) (config_file s) (config_symlink s) (temporary_symlink s) (published s)).
Definition publish (d : dict) : M unit := modify (fun s =>
  DnsState (platform s) (read_only s) (policy_file s) (managed_snapshot s) (private_snapshot s) (config_file s) (config_symlink s) (temporary_symlink s) (Some d)).

Definition link (ifindex : Z) : M link_props := on_platform (rv_link ifindex).
Definition stamp_now : M string := gets (fun s => rv_stamp (platform s)).
Definition mutation_enabled : M bool := gets (fun s => negb (read_only s)).

(** [except (dbus.DBusException, OSError, ValueError, KeyError)]. *)
Definition dns_caught (e : exn) : bool :=
  match e with ProviderError _ | OSError _ | ValueError _ | PolicyError _ | KeyError _ => true | _ => false end.

(** [_global(bus)]: the entries of the global scope. A route of the resolver
    itself does not exist: [props.get("DefaultRoute", True)]. *)
Definition own_entries {A} (l : list (Z * A)) : list A := map snd (List.filter (fun e => e.1 =? 0) l).

Definition global_of (m : manager_props) : link_props :=
  LinkProps (own_entries (m_dns m)) (own_entries (m_domains m)) (m_over_tls m) (m_dnssec m) true
    (match m_current m with Some (i, s) => if i =? 0 then Some s else None | None => None end).

Definition global : M link_props := m ← on_platform rv_global; mret (global_of m).

(** [_apply_link(bus, ifindex, provider)]. *)
Definition apply_link (ifindex : Z) (p : provider) : M unit :=
  _ ← on_platform (rv_set_dns ifindex (provider_dns p));
  _ ← on_platform (rv_set_over_tls ifindex "yes");
  on_platform (rv_set_dnssec ifindex "yes").

(** [_restore_link(bus, snapshot)]: only a link still managed by us. *)
Definition restore_link (snapshot : option link_snapshot) : M bool :=
  match snapshot with
  | None => mret false
  | Some sn =>
      current ← link (sn_ifindex sn);
      match managed_provider current with
      | None => mret false
      | Some _ =>
          _ ← on_platform (rv_set_dns (sn_ifindex sn) (sn_dns sn));
          _ ← on_platform (rv_set_over_tls (sn_ifindex sn) (sn_over_tls sn));
          _ ← on_platform (rv_set_dnssec (sn_ifindex sn) (sn_dnssec sn));
          _ ← on_platform (rv_set_default_route (sn_ifindex sn) (sn_default_route sn));
          mret true
      end
  end.

(** [_revert_managed_link(bus, ifindex)]. *)
Definition revert_managed_link (ifindex : Z) : M bool :=
  current ← link ifindex;
  match managed_provider current with
  | None => mret false
  | Some _ => _ ← on_platform (rv_revert ifindex); mret true
  end.

(** The flags of an answer that came over an encrypted transport, was
    authenticated, and was not synthesised: bits 18, 9 and 23. *)
Definition flags_ok (flags : Z) : bool := Z.testbit flags 18 && Z.testbit flags 9 && Z.testbit flags 23.

(** [_probe(bus, ifindex)]: the transport and validation in force and the error
    of the measurement. *)
Definition probe (ifindex : Z) : M (bool * bool * option string) :=
  props ← (if ifindex =? 0 then global else link ifindex);
  let encrypted := yes_text (l_over_tls props) in
  let validated := yes_text (l_dnssec props) in
  catch (answer ← on_platform (rv_resolve ifindex);
         let '(found, flags) := answer in
         mret (encrypted, validated, if found && flags_ok flags then None else Some "ResolverValidationFailed"))
    (fun e => match e with ProviderError _ => true | _ => false end)
    (fun e => mret (encrypted, validated, Some (str_take 160 (exn_text e)))).
End operations.

(** * Secure DNS: separate public and private scopes ([secure_dns_split.py])

    The reversible drop-in that supplies the public scope of the resolver, the
    bounded waits for its effect, and the reconciliation of one link whose own
    domains stay on it. *)

Definition nl : string := String (ascii_of_N 10) "".
Definition DBUS_CALL_TIMEOUT : Z := 8 * second.

Definition RESET_CONFIGURATION : string :=
  "# Managed by greyward-secure-dns; scope removal in progress." +:+ nl +:+ "[Resolve]" +:+ nl +:+ "DNS=" +:+ nl +:+ "Domains=" +:+ nl.

(** [_configuration(provider)]. *)
Definition server_text (p : provider) (address : string) : string :=
  (if has_char ":" address then "[" +:+ address +:+ "]" else address) +:+ ":853#" +:+ p_sni p.

Definition configuration (p : provider) : string :=
  "# Managed by greyward-secure-dns; runtime public scope only." +:+ nl +:+ "[Resolve]" +:+ nl +:+ "DNS=" +:+ nl +:+ "DNS="
  +:+ join " " (map (server_text p) (p_addresses p)) +:+ nl +:+ "Domains=" +:+ nl +:+ "Domains=~." +:+ nl +:+ "FallbackDNS=" +:+ nl
  +:+ "DNSOverTLS=yes" +:+ nl +:+ "DNSSEC=yes" +:+ nl.

(** [snapshot["dns_over_tls"] or "no"]. *)
Definition or_no (s : string) : string := if String.eqb s "" then "no" else s.

(** [_same_link(props, snapshot)]. *)
Definition same_link (props : link_props) (sn : link_snapshot) : bool :=
  bool_decide (l_dns props = sn_dns sn) && bool_decide (l_domains props = sn_domains sn).

Definition is_root_scope (props : link_props) : bool := bool_decide (l_domains props = [(".", true)]).

(** [str(ipaddress.ip_address(bytes(item[1])))]. *)
Definition address_text (s : dns_server) : res string :=
  match unpacked (ds_address s) with
  | Some a => Ok (ip_str a)
  | None => Err (ValueError "does not appear to be an IPv4 or IPv6 address")
  end.

Section scope.
Context {P : Type} `{Resolved P}.
Abbreviation M := (act (dns_state P)).

Definition reload : M unit := on_platform rv_reload.

(** [_owned_configuration()]: [None], ["reset"] or the key of the provider. *)
Definition owned_configuration : M (option string) := fun s =>
  if config_symlink s then (Err (ValueError "Secure DNS runtime configuration is a symlink"), s)
  else match config_file s with
       | None => (Ok None, s)
       | Some text =>
           if String.eqb text RESET_CONFIGURATION then (Ok (Some "reset"), s)
           else match List.find (fun kp => String.eqb text (configuration kp.2)) PROVIDERS with
                | Some kp => (Ok (Some kp.1), s)
                | None => (Err (ValueError "Secure DNS runtime configuration has a foreign owner"), s)
                end
       end.

(** [_write_configuration(text)]. *)
Definition write_configuration (text : string) : M unit :=
  symlink ← gets temporary_symlink;
  if symlink : bool then raise (ValueError "Secure DNS temporary configuration is a symlink") else set_config (Some text).

(** The wait loops: [Some true] when the condition was observed, [Some false]
    when the deadline passed, [None] when the fuel ran out. *)
Fixpoint observed (fuel : nat) (ok : link_props -> bool) (deadline : Z) : M (option bool) :=
  match fuel with
  | O => mret None
  | S fuel =>
      current ← global;
      if ok current then mret (Some true)
      else now ← gets (fun s => rv_monotonic (platform s));
           if deadline <=? now then mret (Some false)
           else _ ← on_platform rv_sleep; observed fuel ok deadline
  end.

(** One turn every 50 ms for 8 s, the turn at the deadline and one to spare. *)
Definition WAIT_FUEL : nat := 162.

Definition await (ok : link_props -> bool) (message : string) : M unit :=
  now ← gets (fun s => rv_monotonic (platform s));
  r ← observed WAIT_FUEL ok (now + DBUS_CALL_TIMEOUT);
  match r with Some true => mret tt | _ => raise (ValueError message) end.

Definition is_empty_scope (props : link_props) : bool :=
  match l_dns props, l_domains props with [], [] => true | _, _ => false end.

(** [restore(bus)]: the public scope is emptied, observed empty and removed. *)
Definition remove_scope : M unit :=
  _ ← write_configuration RESET_CONFIGURATION;
  _ ← reload;
  _ ← await is_empty_scope "Secure DNS scope removal was not observed";
  _ ← set_config None;
  reload.

Definition link_gone (e : exn) : bool := bool_decide (e = ProviderError "org.freedesktop.resolve1.NoSuchLink").

(** The link is still as we left it: same servers and domains, no default
    route, and the pinned transport and validation. *)
Definition still_ours (current : link_props) (sn : link_snapshot) : bool :=
  same_link current sn && negb (l_default_route current) && String.eqb (l_over_tls current) (or_no (sn_over_tls sn))
  && String.eqb (l_dnssec current) (or_no (sn_dnssec sn)).

Definition restore_private (sn : link_snapshot) : M unit :=
  current ← catch (props ← link (sn_ifindex sn); mret (Some props)) link_gone (fun _ => mret None);
  match current with
  | None => set_private_snapshot None
  | Some current =>
      _ ← when (still_ours current sn)
            (_ ← on_platform (rv_set_default_route (sn_ifindex sn) (sn_default_route sn));
             _ ← on_platform (rv_set_over_tls (sn_ifindex sn) (sn_over_tls sn));
             on_platform (rv_set_dnssec (sn_ifindex sn) (sn_dnssec sn)));
      set_private_snapshot None
  end.

Definition restore : M unit :=
  snapshot ← gets private_snapshot;
  owner ← owned_configuration;
  _ ← match owner with Some _ => remove_scope | None => mret tt end;
  match snapshot with Some sn => restore_private sn | None => mret tt end.

(** [active_private_addresses(bus)]. *)
Definition active_private_addresses : M (list string) :=
  snapshot ← gets private_snapshot;
  owner ← owned_configuration;
  match snapshot, option_map provider_named owner with
  | Some sn, Some (Some p) =>
      props ← link (sn_ifindex sn);
      global_props ← global;
      if negb (same_link props sn) || l_default_route props || negb (managed global_props p)
         || negb (is_root_scope global_props) || bool_decide (sn_domains sn = [])
         || existsb (fun d => String.eqb d.1 ".") (sn_domains sn)
      then mret []
      else lift (mapM_res address_text (sn_dns sn))
  | _, _ => mret []
  end.

(** ** Reconciliation of a split link *)

Definition unavailable (reason : string) : dict :=
  dlit [("effective_policy", VStr "Unavailable"); ("effective_owner", VStr "None"); ("effective_transport", VStr "None");
        ("encryption", VStr "Unavailable"); ("validation", VStr "Unavailable"); ("degradation_reason", VStr reason)].

Definition secure_provider (stamp : string) : dict :=
  dlit [("effective_policy", VStr "SecureProvider"); ("effective_owner", VStr "Greyward"); ("effective_transport", VStr "DoT");
        ("encryption", VStr "Enabled"); ("validation", VStr "Enabled"); ("degradation_reason", VNone);
        ("last_successful_reconciliation", VStr stamp)].

Definition server_val (props : link_props) : val := match server_dict props with Some d => VDict d | None => VNone end.

(** A falsy error: none, or an error without text. *)
Definition no_error (error : option string) : bool := match error with Some s => String.eqb s "" | None => true end.

(** The evidence under which a provider is reported. *)
Definition verified (measured : bool * bool * option string) (props : link_props) (p : provider) : bool :=
  let '(encrypted, validated, error) := measured in
  no_error error && encrypted && validated && matches_provider props p.

Definition use_provider (key : string) (p : provider) (owner : option string) : M unit :=
  keep ← (if bool_decide (owner = Some key) then current ← global; mret (managed current p) else mret false);
  _ ← when (negb keep) (_ ← write_configuration (configuration p); reload);
  await (fun current => managed current p) "Secure DNS public scope reload was not observed".

Fixpoint try_scopes (ifindex : Z) (sn : link_snapshot) (owner : option string) (base : dict) (order : list string) : M dict :=
  match order with
  | [] => mret (dupdate base (unavailable "AllProvidersUnavailable"))
  | key :: order =>
      match provider_named key with
      | None => raise (KeyError key)
      | Some p =>
          _ ← use_provider key p owner;
          measured ← probe 0;
          current ← global;
          let base := dupdate base [("resolver", server_val current); ("provider", VStr key)] in
          private_props ← link ifindex;
          if verified measured current p && is_root_scope current && same_link private_props sn
             && negb (l_default_route private_props)
          then stamp ← stamp_now; mret (dupdate base (secure_provider stamp))
          else try_scopes ifindex sn (Some key) base order
      end
  end.

(** Pins the original private policy of the link before the public scope. *)
Definition pin_private (ifindex : Z) (props : link_props) (sn : link_snapshot) : M unit :=
  _ ← when (negb (String.eqb (l_over_tls props) (or_no (sn_over_tls sn))))
        (on_platform (rv_set_over_tls ifindex (or_no (sn_over_tls sn))));
  _ ← when (negb (String.eqb (l_dnssec props) (or_no (sn_dnssec sn))))
        (on_platform (rv_set_dnssec ifindex (or_no (sn_dnssec sn))));
  when (l_default_route props) (on_platform (rv_set_default_route ifindex false)).

(** A scope being removed, or a snapshot of another link, is undone first. *)
Definition settle (d : device) (props : link_props) : M (link_props * option link_snapshot) :=
  owner ← owned_configuration;
  props ← (if bool_decide (owner = Some "reset") then _ ← restore; link (dev_ifindex d) else mret props);
  snapshot ← gets private_snapshot;
  match snapshot with
  | Some sn =>
      if negb (sn_ifindex sn =? dev_ifindex d) || negb (same_link props sn)
      then _ ← restore; props ← link (dev_ifindex d); mret (props, None)
      else mret (props, Some sn)
  | None => mret (props, None)
  end.

(** [reconcile(bus, device, props, base, policy)]. *)
Definition reconcile (d : device) (props : link_props) (base : dict) (policy : dns_policy) : M dict :=
  settled ← settle d props;
  let '(props, snapshot) := settled in
  owner ← owned_configuration;
  global_props ← global;
  if bool_decide (owner = None) && negb (is_empty_scope global_props)
  then mret (dupdate base [("effective_policy", VStr "Unavailable"); ("degradation_reason", VStr "SplitDnsAmbiguous")])
  else
    sn ← match snapshot with
         | Some sn => mret sn
         | None => let sn := snapshot_of (dev_ifindex d) props in
                   let sn := LinkSnapshot (sn_ifindex sn) (sn_dns sn) (sn_over_tls sn) (sn_dnssec sn) (sn_default_route sn)
                               (l_domains props) in
                   _ ← set_private_snapshot (Some sn); mret sn
         end;
    _ ← pin_private (dev_ifindex d) props sn;
    resolvers ← lift (mapM_res address_text (sn_dns sn));
    try_scopes (dev_ifindex d) sn owner
      (dupdate base [("public_scope", VStr "system"); ("private_resolvers", VList (map VStr resolvers))]) (dp_order policy).
End scope.

Example configuration_quad9 :
  option_map configuration (provider_named "quad9") = Some (join nl
    ["# Managed by greyward-secure-dns; runtime public scope only."; "[Resolve]"; "DNS=";
     "DNS=9.9.9.9:853#dns.quad9.net 149.112.112.112:853#dns.quad9.net [2620:fe::fe]:853#dns.quad9.net [2620:fe::9]:853#dns.quad9.net";
     "Domains="; "Domains=~."; "FallbackDNS="; "DNSOverTLS=yes"; "DNSSEC=yes"; ""]).
Proof. vm_compute. reflexivity. Qed.
