(* ===== verification/SecureDnsService.v ===== *)
(** * Secure DNS: the observed state and the service
      ([secure_dns_reconciler.py])

    [_state] reads the devices, reconciles the link the policy asks for and
    describes the result; the handlers save the policy and publish that
    description. A failed reading is published as such. *)
From S2P Require Import Prelude PyVal PyStr Json PyText PyTime IpAddr NetworkRules SecureDns.

(** The fields every answer carries. *)
Definition base_state (stamp : string) (policy : dns_policy) (enabled : bool) : dict :=
  dlit [("schema", VStr "greyward.secure-dns/v1"); ("generated_at", VStr stamp); ("desired_policy", VStr (dp_desired policy));
        ("effective_policy", VStr "Disconnected"); ("effective_owner", VStr "None"); ("effective_transport", VStr "None");
        ("provider", VStr (dp_provider policy)); ("provider_order", VList (map VStr (dp_order policy)));
        ("dns_enforcement", VStr "MANAGED_DNS_PORTS"); ("encryption", VStr "Unknown"); ("validation", VStr "Unknown");
        ("degradation_reason", VStr "NoActiveLink"); ("link", VNone); ("vpn_links", VList []); ("route_domains", VList []);
        ("resolver", VNone); ("last_successful_reconciliation", VNone);
        ("runtime_mutation", VStr (if enabled then "ENABLED" else "DISABLED_READ_ONLY"))].

(** The answer when the state could not be read. *)
Definition unreachable_state (stamp : string) (policy : dns_policy) (enabled : bool) : dict :=
  dlit [("schema", VStr "greyward.secure-dns/v1"); ("generated_at", VStr stamp); ("desired_policy", VStr (dp_desired policy));
        ("effective_policy", VStr "Unavailable"); ("effective_owner", VStr "None"); ("effective_transport", VStr "None");
        ("provider", VStr (dp_provider policy)); ("encryption", VStr "Unknown"); ("validation", VStr "Unknown");
        ("degradation_reason", VStr "ResolverUnreachable");
        ("runtime_mutation", VStr (if enabled then "ENABLED" else "DISABLED_READ_ONLY"))].

(** A VPN owns the resolver; what was observed is not a proof. *)
Definition vpn_owned (stamp : string) (policy : dns_policy) (primary : device) (props : link_props) : dict :=
  dlit [("effective_policy", VStr "VPNOwned"); ("effective_owner", VStr "VPN"); ("effective_transport", VStr "VPNTunnel");
        ("encryption", VStr "Unknown"); ("validation", VStr "Unknown"); ("tunnel_detected", VBool true);
        ("configured_provider", VStr (dp_provider policy)); ("provider", VNone);
        ("dns_owner_observed", VStr (match server_dict props with Some _ => "VPN" | None => "UNKNOWN" end));
        ("routing_observed", VDict (dlit [("link", VStr (dev_interface primary));
                                          ("route_domains", VList (map VStr (domain_names props)));
                                          ("default_route", VBool (l_default_route props))]));
        ("encryption_verification", VStr "UNKNOWN"); ("kill_switch_verification", VStr "UNKNOWN");
        ("leak_protection_verification", VStr "UNKNOWN"); ("degradation_reason", VNone);
        ("last_successful_reconciliation", VStr stamp)].

(** The resolver of the network itself. *)
Definition network_default (stamp : string) (props : link_props) : dict :=
  let encrypted := yes_text (l_over_tls props) in
  let validated := yes_text (l_dnssec props) in
  dlit [("effective_policy", VStr "NetworkDefault"); ("effective_owner", VStr "Network");
        ("effective_transport", VStr (transport props false));
        ("encryption", VStr (if encrypted then "Enabled" else "Not guaranteed"));
        ("validation", VStr (if validated then "Enabled" else "Not guaranteed"));
        ("degradation_reason", if encrypted || validated then VNone else VStr "NetworkDnsOnly");
        ("last_successful_reconciliation", VStr stamp)].

(** The last provider that passed, the error of the last attempt and the last
    properties that were read. *)
Record attempts := Attempts { selected : option (string * provider); failed : option string; seen : link_props }.

(** [desired in {"Automatic", "Privacy"}]. *)
Definition managed_mode (desired : string) : bool := existsb (String.eqb desired) ["Automatic"; "Privacy"].

(** [not error and encrypted and validated and _matches_provider(...)], else
    the error that is kept. *)
Definition judge (measured : bool * bool * option string) (props : link_props) (p : provider) : option string :=
  if verified measured props p then None
  else Some (match measured.2 with Some e => if String.eqb e "" then "ResolverValidationFailed" else e | None => "ResolverValidationFailed" end).

(** The description of a link that is neither a VPN's nor split. *)
Definition describe (stamp : string) (desired : string) (devices : nat) (t : attempts) (base : dict) : dict :=
  let props := seen t in
  let base := dupdate base [("resolver", server_val props); ("route_domains", VList (map VStr (domain_names props)))] in
  dupdate base
    (if negb (no_error (failed t)) && String.eqb desired "Automatic" then unavailable "AllProvidersUnavailable"
     else if negb (no_error (failed t)) then unavailable "ResolverUnreachable"
     else if String.eqb desired "NetworkDefault" then network_default stamp props
     else if managed_mode desired && ((1 <? devices)%nat || bool_decide (domain_names props <> [])) then unavailable "SplitDnsAmbiguous"
     else if yes_text (l_over_tls props) && yes_text (l_dnssec props)
             && match selected t with Some kp => matches_provider props kp.2 | None => false end
     then secure_provider stamp
     else if String.eqb desired "Automatic" then unavailable "DoTUnavailable"
     else unavailable "ResolverUnreachable").

Section service.
Context {P : Type} `{Resolved P}.
Abbreviation M := (act (dns_state P)).

(** [str(error)[:160]]. *)
Definition short_error (e : exn) : string := str_take 160 (exn_text e).

(** One turn of the provider loop. An exception of the calls that apply the
    provider leaves the properties as last read. *)
Definition attempt (ifindex : Z) (p : provider) (props : link_props) : M (link_props * option string) :=
  applied ← catch (if managed props p then mret (props, None)
                   else _ ← apply_link ifindex p; props ← link ifindex; mret (props, None))
              dns_caught (fun e => mret (props, Some (short_error e)));
  let '(props, error) := applied in
  match error with
  | Some e => mret (props, Some e)
  | None => catch (measured ← probe ifindex; props ← link ifindex; mret (props, judge measured props p))
              dns_caught (fun e => mret (props, Some (short_error e)))
  end.

Fixpoint try_providers (ifindex : Z) (t : attempts) (order : list string) : M attempts :=
  match order with
  | [] => mret t
  | key :: order =>
      match provider_named key with
      | None => raise (KeyError key)
      | Some p =>
          r ← attempt ifindex p (seen t);
          match r with
          | (props, None) => mret (Attempts (Some (key, p)) None props)
          | (props, Some e) => try_providers ifindex (Attempts (selected t) (Some e) props) order
          end
      end
  end.

(** Going back to the network's own resolver. *)
Definition leave_management (primary : device) (props : link_props) : M link_props :=
  let ifindex := dev_ifindex primary in
  snapshot ← gets managed_snapshot;
  props ← match snapshot with
          | Some sn =>
              if sn_ifindex sn =? ifindex
              then restored ← restore_link (Some sn);
                   if restored : bool then _ ← set_managed_snapshot None; link ifindex else mret props
              else mret props
          | None => mret props
          end;
  match managed_provider props with
  | Some _ => reverted ← revert_managed_link ifindex;
              if reverted : bool then _ ← set_managed_snapshot None; link ifindex else mret props
  | None => mret props
  end.

(** The providers in order, after the link was recorded. *)
Definition manage_link (primary : device) (policy : dns_policy) (props : link_props) (snapshot : option link_snapshot) : M attempts :=
  _ ← match managed_provider props, snapshot with
      | None, None => set_managed_snapshot (Some (snapshot_of (dev_ifindex primary) props))
      | _, _ => mret tt
      end;
  try_providers (dev_ifindex primary) (Attempts None None props) (dp_order policy).

(** A managed link that failed under [Automatic] is put back. *)
Definition give_up_link (primary : device) : M unit :=
  restored ← catch
    (snapshot ← gets managed_snapshot;
     restored ← restore_link snapshot;
     if restored : bool then mret true
     else current ← link (dev_ifindex primary);
          match managed_provider current with Some _ => revert_managed_link (dev_ifindex primary) | None => mret false end)
    dns_caught (fun _ => mret false);
  if restored : bool then set_managed_snapshot None else mret tt.

(** The end of [_state], for devices of which none is a VPN and a link that is
    not split. [domains] are the domains the link had when it was first read. *)
Definition link_state (policy : dns_policy) (primary : device) (devices : nat) (domains : list string) (props : link_props)
    (base : dict) : M dict :=
  let desired := dp_desired policy in
  enabled ← mutation_enabled;
  snapshot ← gets managed_snapshot;
  props ← (if enabled && String.eqb desired "NetworkDefault" then leave_management primary props else mret props);
  t ← (if enabled && managed_mode desired && bool_decide (domains = []) && (devices =? 1)%nat
       then manage_link primary policy props snapshot else mret (Attempts None None props));
  let base := match selected t with Some kp => dset "provider" (VStr kp.1) base | None => base end in
  _ ← when (negb (no_error (failed t)) && String.eqb desired "Automatic") (give_up_link primary);
  stamp ← stamp_now;
  mret (describe stamp desired devices t base).

(** One link, no VPN, with explicit domains other than the root. *)
Definition split_eligible (devices : list device) (props : link_props) : bool :=
  negb (existsb dev_vpn devices) && (length devices =? 1)%nat && bool_decide (domain_names props <> [])
  && negb (existsb (fun d => String.eqb d ".") (domain_names props)) && bool_decide (l_dns props <> [])
  && match managed_provider props with Some _ => false | None => true end.

(** [_state()] once devices were found: [primary] is the first VPN, or the
    first device. *)
Definition active_state (policy : dns_policy) (devices : list device) (primary : device) (base : dict) : M dict :=
  let desired := dp_desired policy in
  let vpn := List.filter dev_vpn devices in
  let base := dupdate base [("vpn_links", VList (map (fun d => VStr (dev_interface d)) vpn)); ("link", VStr (dev_interface primary))] in
  props ← link (dev_ifindex primary);
  let eligible := split_eligible devices props in
  enabled ← mutation_enabled;
  props ← (if enabled && (String.eqb desired "NetworkDefault" || negb eligible)
           then _ ← restore; link (dev_ifindex primary) else mret props);
  let base := dupdate base [("route_domains", VList (map VStr (domain_names props))); ("resolver", server_val props)] in
  match vpn with
  | _ :: _ => stamp ← stamp_now; mret (dupdate base (vpn_owned stamp policy primary props))
  | [] =>
      if enabled && managed_mode desired && eligible then reconcile primary props base policy
      else link_state policy primary (length devices) (domain_names props) props base
  end.

(** [_state()]. *)
Definition state : M dict :=
  file ← gets policy_file;
  policy ← lift (policy_of file);
  enabled ← mutation_enabled;
  stamp ← stamp_now;
  let base := base_state stamp policy enabled in
  devices ← on_platform rv_devices;
  match devices with
  | [] => _ ← when enabled restore; mret base
  | d :: _ => active_state policy devices (match List.filter dev_vpn devices with v :: _ => v | [] => d end) base
  end.

(** ** The service *)

(** [except (dbus.DBusException, OSError, ValueError)]. *)
Definition unreadable (e : exn) : bool :=
  match e with ProviderError _ | OSError _ | ValueError _ | PolicyError _ => true | _ => false end.

(** [refresh()]. *)
Definition refresh : M unit :=
  value ← catch state unreadable (fun _ =>
    file ← gets policy_file;
    policy ← lift (policy_of file);
    enabled ← mutation_enabled;
    stamp ← stamp_now;
    mret (unreachable_state stamp policy enabled));
  publish value.

(** An answer that carries the published state. *)
Definition with_result (answer : list (string * val)) : M dict :=
  result ← gets published;
  mret (dlit (answer ++ [("result", match result with Some d => VDict d | None => VNone end)])).

Definition invalid (detail : string) : dict := dlit [("ok", VBool false); ("state", VStr "INVALID"); ("detail", VStr detail)].

(** Saves one field of the policy, unless the runtime is read-only. *)
Definition save_field (key value : string) : M dict :=
  enabled ← mutation_enabled;
  if enabled : bool
  then file ← gets policy_file;
       policy ← lift (policy_of file);
       _ ← set_policy (dset key (VStr value) (dp_value policy));
       _ ← refresh;
       with_result [("ok", VBool true); ("state", VStr "SAVED")]
  else _ ← refresh;
       with_result [("ok", VBool false); ("state", VStr "READ_ONLY");
                    ("detail", VStr "Secure DNS configuration is read-only in this runtime; no change was saved.")].

Definition SetMode (mode : string) : M dict :=
  if existsb (String.eqb mode) MODES then save_field "desired_policy" mode else mret (invalid "Unsupported Secure DNS mode.").

Definition SetProvider (text : string) : M dict :=
  let key := str_lower text in
  match provider_named key with
  | Some _ => save_field "provider" key
  | None => mret (invalid "Unsupported Secure DNS provider.")
  end.

Definition GetState : M (option dict) := _ ← refresh; gets published.

Definition RetrySecureDns : M dict := _ ← refresh; with_result [("ok", VBool true); ("state", VStr "RETRIED")].

(** [restore_runtime()]: what [--restore] undoes when the service stops. *)
Definition restore_runtime : M unit :=
  _ ← restore;
  snapshot ← gets managed_snapshot;
  match snapshot with
  | None => mret tt
  | Some sn =>
      restored ← catch
        (restored ← restore_link (Some sn);
         if restored : bool then mret true else revert_managed_link (sn_ifindex sn))
        dns_caught (fun _ => mret false);
      if restored : bool then set_managed_snapshot None else mret tt
  end.

(** The requests of the service. *)
Inductive dns_request := Refresh | ReqGetState | ReqSetMode (mode : string) | ReqSetProvider (text : string) | Retry.

Definition dns_serve (r : dns_request) : M unit :=
  match r with
  | Refresh => refresh
  | ReqGetState => _ ← GetState; mret tt
  | ReqSetMode mode => _ ← SetMode mode; mret tt
  | ReqSetProvider text => _ ← SetProvider text; mret tt
  | Retry => _ ← RetrySecureDns; mret tt
  end.
End service.
