(* ===== verification/SecureDnsClaims.v ===== *)
(** * Secure DNS: what the service guarantees

    A secure provider is reported only on evidence of the same refresh, a
    read-only runtime only reads, and the waits for the resolver end. *)
From stdpp Require Import relations.
From S2P Require Import Prelude PyVal PyStr Json PyText PyTime IpAddr NetworkRules SecureDns SecureDnsService.

Section relations.
Context {P : Type} `{Resolved P}.
Implicit Types (s : dns_state P) (p q : P).

(** A call that reads, and any call. *)
Inductive reading p : P -> Prop :=
| reads_devices : reading p (rv_devices p).2
| reads_link i : reading p (rv_link i p).2
| reads_global : reading p (rv_global p).2
| reads_resolve i : reading p (rv_resolve i p).2.

Inductive calling p : P -> Prop :=
| calls_reading q : reading p q -> calling p q
| calls_dns i l : calling p (rv_set_dns i l p).2
| calls_over_tls i m : calling p (rv_set_over_tls i m p).2
| calls_dnssec i m : calling p (rv_set_dnssec i m p).2
| calls_route i b : calling p (rv_set_default_route i b p).2
| calls_revert i : calling p (rv_revert i p).2
| calls_reload : calling p (rv_reload p).2
| calls_sleep : calling p (rv_sleep p).2.

Definition reads : P -> P -> Prop := rtc reading.
Definition calls : P -> P -> Prop := rtc calling.

Definition evolves s s' : Prop := calls (platform s) (platform s').

(** Only [published] may change, and the platform is only read. *)
Definition observes s s' : Prop :=
  reads (platform s) (platform s') /\ read_only s' = read_only s /\ policy_file s' = policy_file s
  /\ managed_snapshot s' = managed_snapshot s /\ private_snapshot s' = private_snapshot s /\ config_file s' = config_file s.

Definition only_observes s s' : Prop := read_only s = true -> observes s s'.

#[export] Instance evolves_preorder : PreOrder evolves.
Proof. split; [intros s; apply rtc_refl | intros s t u H1 H2; exact (rtc_trans _ _ _ H1 H2)]. Qed.

#[export] Instance only_observes_preorder : PreOrder only_observes.
Proof.
  split; [intros s; by repeat split; try apply rtc_refl|]. intros s t u H1 H2 Hs.
  destruct (H1 Hs) as (Hp & Hr & Hf & Hm & Hv & Hc). destruct H2 as (Hp' & Hr' & Hf' & Hm' & Hv' & Hc'); [congruence|].
  split_and!; try congruence. exact (rtc_trans _ _ _ Hp Hp').
Qed.

Lemma respects_call {A} (m : act P A) : (forall p, calling p (m p).2) -> respects evolves (on_platform m).
Proof.
  intros Hm s. unfold evolves, after, on_platform. specialize (Hm (platform s)). destruct (m (platform s)).
  by apply rtc_once.
Qed.

Lemma respects_read {A} (m : act P A) : (forall p, reading p (m p).2) -> respects only_observes (on_platform m).
Proof.
  intros Hm s _. unfold observes, after, on_platform. specialize (Hm (platform s)).
  destruct (m (platform s)). split_and!; try done. by apply rtc_once.
Qed.

(** In a read-only runtime every guarded change is skipped. *)
Lemma respects_enabled {A} (f : bool -> act (dns_state P) A) :
  respects only_observes (f false) -> respects only_observes (mutation_enabled ≫= f).
Proof. intros Hf s Hs. unfold after, mbind, act_bind, mutation_enabled, gets. rewrite Hs. by apply Hf. Qed.
End relations.

Create HintDb dns discriminated.
#[export] Hint Constants Opaque : dns.

(** Descends through the code by its head symbol; [dns] has what is known. *)
Ltac platform_step :=
  match goal with
  | |- PreOrder _ => typeclasses eauto
  | |- respects _ (mret ?a ≫= ?f) => change (mret a ≫= f) with (f a); cbv beta
  | |- respects _ (mret _) => apply respects_ret; typeclasses eauto
  | |- respects _ (lift _) => apply respects_lift; typeclasses eauto
  | |- respects _ (raise _) => apply respects_raise; typeclasses eauto
  | |- respects _ (gets _) => apply respects_gets; typeclasses eauto
  | |- respects evolves (modify _) => apply respects_modify; intros; apply rtc_refl
  | |- respects _ (_ ≫= _) => apply respects_bind; [typeclasses eauto| |intros ?]
  | |- respects _ (catch _ _ _) => apply respects_catch; [typeclasses eauto| |intros ?]
  | |- respects evolves (on_platform _) => apply respects_call; intros; first [do 2 constructor | constructor]
  | |- respects only_observes (on_platform _) => apply respects_read; intros; constructor
  | |- respects _ (when _ _) => unfold when
  | |- respects _ (match ?x with _ => _ end) => destruct x
  | |- respects _ (let '_ := ?x in _) => destruct x
  end.

Ltac platform_calls := repeat first [solve [auto 1 with dns nocore] | platform_step | progress cbv zeta].

Section evolution.
Context {P : Type} `{Resolved P}.

Lemma link_evolves i : respects evolves (link i).
Proof. unfold link. platform_calls. Qed.

Lemma global_evolves : respects evolves global.
Proof. unfold global. platform_calls. Qed.
#[local] Hint Resolve link_evolves global_evolves : dns.

Lemma probe_evolves i : respects evolves (probe i).
Proof. unfold probe. platform_calls. Qed.

Lemma restore_link_evolves sn : respects evolves (restore_link sn).
Proof. unfold restore_link. platform_calls. Qed.

Lemma revert_managed_link_evolves i : respects evolves (revert_managed_link i).
Proof. unfold revert_managed_link. platform_calls. Qed.

Lemma apply_link_evolves i p : respects evolves (apply_link i p).
Proof. unfold apply_link. platform_calls. Qed.

Lemma owned_evolves : respects evolves owned_configuration.
Proof.
  intros s. unfold after, owned_configuration. destruct (config_symlink s), (config_file s); try apply rtc_refl.
  destruct (_ =? _)%string; [apply rtc_refl|]. destruct (List.find _ _); apply rtc_refl.
Qed.

Lemma observed_evolves fuel ok deadline : respects evolves (observed fuel ok deadline).
Proof. induction fuel as [|fuel IH]; cbn [observed]; platform_calls. Qed.
#[local] Hint Resolve probe_evolves restore_link_evolves revert_managed_link_evolves apply_link_evolves owned_evolves
  observed_evolves : dns.

Lemma write_configuration_evolves text : respects evolves (write_configuration text).
Proof. unfold write_configuration, set_config. platform_calls. Qed.

Lemma await_evolves ok m : respects evolves (await ok m).
Proof.
  unfold await. apply respects_bind; [typeclasses eauto|apply respects_gets; typeclasses eauto|intros now].
  apply respects_bind; [typeclasses eauto|apply observed_evolves|intros r]. platform_calls.
Qed.

Lemma reload_evolves : respects evolves reload.
Proof. unfold reload. platform_calls. Qed.
#[local] Hint Resolve write_configuration_evolves await_evolves reload_evolves : dns.

Lemma remove_scope_evolves : respects evolves remove_scope.
Proof. unfold remove_scope, set_config. platform_calls. Qed.

Lemma restore_private_evolves sn : respects evolves (restore_private sn).
Proof. unfold restore_private, set_private_snapshot. platform_calls. Qed.
#[local] Hint Resolve remove_scope_evolves restore_private_evolves : dns.

Lemma restore_evolves : respects evolves restore.
Proof. unfold restore. platform_calls. Qed.

Lemma use_provider_evolves key p owner : respects evolves (use_provider key p owner).
Proof. unfold use_provider. platform_calls. Qed.

Lemma attempt_evolves i p props : respects evolves (attempt i p props).
Proof. unfold attempt. platform_calls. Qed.
#[local] Hint Resolve restore_evolves use_provider_evolves attempt_evolves : dns.

Lemma settle_evolves d props : respects evolves (settle d props).
Proof. unfold settle. platform_calls. Qed.

Lemma pin_private_evolves i props sn : respects evolves (pin_private i props sn).
Proof. unfold pin_private. platform_calls. Qed.

Lemma leave_management_evolves d props : respects evolves (leave_management d props).
Proof. unfold leave_management, set_managed_snapshot. platform_calls. Qed.

Lemma give_up_link_evolves d : respects evolves (give_up_link d).
Proof. unfold give_up_link, set_managed_snapshot. platform_calls. Qed.

Lemma try_scopes_evolves i sn owner base order : respects evolves (try_scopes i sn owner base order).
Proof.
  revert owner base; induction order as [|key order IH]; intros owner base; cbn [try_scopes]; unfold stamp_now;
    platform_calls.
Qed.

Lemma try_providers_evolves i t order : respects evolves (try_providers i t order).
Proof.
  revert t; induction order as [|key order IH]; intros t; cbn [try_providers]; platform_calls.
Qed.

Lemma set_private_evolves sn : respects evolves (set_private_snapshot sn).
Proof. unfold set_private_snapshot. platform_calls. Qed.

Lemma set_managed_evolves sn : respects evolves (set_managed_snapshot sn).
Proof. unfold set_managed_snapshot. platform_calls. Qed.
End evolution.
#[export] Hint Resolve link_evolves global_evolves probe_evolves restore_evolves settle_evolves pin_private_evolves
  leave_management_evolves give_up_link_evolves try_scopes_evolves try_providers_evolves use_provider_evolves attempt_evolves
  owned_evolves set_private_evolves set_managed_evolves : dns.

(** ** A read-only runtime *)

Section reading.
Context {P : Type} `{Resolved P}.

Lemma link_observes i : respects only_observes (link i).
Proof. unfold link. platform_calls. Qed.

Lemma link_state_observes policy d n domains props base : respects only_observes (link_state policy d n domains props base).
Proof.
  unfold link_state, stamp_now. apply respects_enabled. cbn [andb].
  apply respects_bind; [typeclasses eauto|platform_calls|intros snapshot].
  repeat (platform_step; cbn [failed no_error negb andb when]).
Qed.
#[local] Hint Resolve link_observes link_state_observes : dns.

Lemma active_state_observes policy devices d base : respects only_observes (active_state policy devices d base).
Proof.
  unfold active_state, stamp_now. apply respects_bind; [typeclasses eauto|platform_calls|intros props].
  apply respects_enabled. cbn [andb]. platform_calls.
Qed.
#[local] Hint Resolve active_state_observes : dns.

Lemma state_observes : respects only_observes state.
Proof.
  unfold state, stamp_now. do 2 (apply respects_bind; [typeclasses eauto|platform_calls|intros ?]).
  apply respects_enabled. platform_calls.
Qed.

Lemma publish_observes d : respects only_observes (publish d).
Proof. apply respects_modify. intros s _. repeat split. apply rtc_refl. Qed.
#[local] Hint Resolve state_observes publish_observes : dns.

Lemma refresh_observes : respects only_observes refresh.
Proof. unfold refresh, mutation_enabled, stamp_now. platform_calls. Qed.
#[local] Hint Resolve refresh_observes : dns.

Lemma save_field_observes key value : respects only_observes (save_field key value).
Proof. unfold save_field. apply respects_enabled. unfold with_result. platform_calls. Qed.
#[local] Hint Resolve save_field_observes : dns.

Lemma serve_observes r : respects only_observes (dns_serve r).
Proof.
  destruct r; cbn [dns_serve]; unfold GetState, SetMode, SetProvider, RetrySecureDns, with_result; platform_calls.
Qed.
End reading.

(** ** Evidence of a secure provider *)

(** The keys of a literal are distinct. *)
Ltac distinct_keys := apply (bool_decide_unpack _); vm_compute; exact I.

Section evidence.
Context {P : Type} `{Resolved P}.
Implicit Types (s : dns_state P) (p q : P).

(** The properties of a link, or of the global scope, as read at [p]. *)
Definition reported p (props : link_props) : Prop :=
  (exists i, (rv_link i p).1 = Ok props) \/ (exists m, (rv_global p).1 = Ok m /\ props = global_of m).

(** Between [p] and [q]: a transport and a validation read as strict, then an
    answer the resolver marks as confidential, authenticated and not
    synthesised. *)
Definition probed p q : Prop :=
  exists p1 p2 props i flags,
    calls p p1 /\ reported p1 props /\ yes_text (l_over_tls props) = true /\ yes_text (l_dnssec props) = true
    /\ calls p1 p2 /\ rv_resolve i p2 = (Ok (true, flags), q) /\ flags_ok flags = true.

(** After such an answer, properties whose server is the provider's. *)
Definition evidence p q (prov : provider) : Prop :=
  exists p1 p2 props, probed p p1 /\ calls p1 p2 /\ reported p2 props /\ matches_provider props prov = true /\ calls p2 q.

Lemma probed_mono p p' q : calls p' p -> probed p q -> probed p' q.
Proof. intros Hp (p1 & p2 & props & i & fl & H1 & ?). exists p1, p2, props, i, fl. split; [by etrans|done]. Qed.

Lemma evidence_mono p p' q q' prov : calls p' p -> calls q q' -> evidence p q prov -> evidence p' q' prov.
Proof.
  intros Hp Hq (p1 & p2 & props & H1 & H2 & H3 & H4 & H5). exists p1, p2, props.
  split_and!; try done; [by eapply probed_mono | by etrans].
Qed.

(** The errors of the resolver have a name. *)
Definition errors_named : Prop := forall i p e q, rv_resolve i p = (Err (ProviderError e), q) -> e <> "".

Lemma ret_run {A} (a b : A) s s' : (mret a : act (dns_state P) A) s = (Ok b, s') -> b = a /\ s' = s.
Proof. by intros [= -> ->]. Qed.

(** A run that returned evolved. *)
Lemma evolves_run {A} (m : act (dns_state P) A) s r s' : respects evolves m -> m s = (r, s') -> calls (platform s) (platform s').
Proof. intros Hm Hr. specialize (Hm s). unfold evolves, after in Hm. by rewrite Hr in Hm. Qed.

Lemma on_platform_run {A} (m : act P A) s r s' : on_platform m s = (r, s') -> m (platform s) = (r, platform s').
Proof. unfold on_platform. destruct (m (platform s)). by intros [= <- <-]. Qed.

Lemma link_reported i s props s' : link i s = (Ok props, s') -> reported (platform s) props.
Proof. intros Hr%on_platform_run. left. exists i. by rewrite Hr. Qed.

Lemma global_reported s props s' : global s = (Ok props, s') -> reported (platform s) props.
Proof.
  unfold global. intros (m & s1 & Hr & Hm)%act_bind_Ok. injection Hm as <- _. apply on_platform_run in Hr.
  right. exists m. by rewrite Hr.
Qed.

Lemma probe_evidence i s e v err s' :
  errors_named -> probe i s = (Ok (e, v, err), s') -> no_error err = true -> e = true -> v = true ->
  exists q, probed (platform s) q /\ calls q (platform s').
Proof.
  intros Hnamed (props & s1 & Hprops & Hr)%act_bind_Ok Herr -> ->.
  assert (Hrep : reported (platform s) props /\ calls (platform s) (platform s1)).
  { destruct (i =? 0); (split; [|eapply evolves_run; [|exact Hprops]; auto with dns]);
      [by eapply global_reported | by eapply link_reported]. }
  destruct Hrep as [Hrep Hcalls]. unfold catch in Hr.
  match type of Hr with match ?m with _ => _ end = _ => destruct m as [[a|x] s2] eqn:Hask end.
  - injection Hr as -> <-. apply act_bind_Ok in Hask as ([found flags] & s3 & Hres & Hret).
    apply on_platform_run in Hres. injection Hret as He Hv Hverdict <-.
    destruct found, (flags_ok flags) eqn:Hflags; cbn in Hverdict; subst err; try done.
    exists (platform s3). split; [|apply rtc_refl].
    exists (platform s), (platform s1), props, i, flags. by split_and!.
  - destruct x; try done. cbn in Hr. injection Hr as _ _ <- <-.
    apply act_bind_Err in Hask as [Hres|([] & ? & _ & Hret)]; [|done]. apply on_platform_run, Hnamed in Hres.
    by destruct m.
Qed.

(** What was measured and read is the evidence. *)
Lemma verified_evidence s s1 s2 i measured props prov :
  errors_named -> probe i s = (Ok measured, s1) -> calls (platform s1) (platform s2) -> reported (platform s2) props ->
  verified measured props prov = true -> evidence (platform s) (platform s2) prov.
Proof.
  intros Hnamed Hprobe Hc Hrep Hv. destruct measured as [[e v] err]. unfold verified in Hv. split_bool.
  destruct (probe_evidence _ _ _ _ _ _ Hnamed Hprobe) as (q & Hq & Hcq); [done..|].
  exists q, (platform s2), props. split_and!; try done. by etrans.
Qed.

Lemma attempt_evidence i prov props s props' s' :
  errors_named -> attempt i prov props s = (Ok (props', None), s') -> evidence (platform s) (platform s') prov.
Proof.
  intros Hnamed ([props1 [e|]] & s1 & Happ & Hr)%act_bind_Ok; [done|].
  assert (Hc : calls (platform s) (platform s1)).
  { eapply evolves_run; [|exact Happ]. pose proof (apply_link_evolves i prov). platform_calls. }
  unfold catch in Hr. match type of Hr with match ?m with _ => _ end = _ => destruct m as [[a|x] s2] eqn:Hm end;
    [|by destruct (dns_caught x)].
  injection Hr as -> <-. apply act_bind_Ok in Hm as (measured & s3 & Hprobe & Hm).
  apply act_bind_Ok in Hm as (props2 & s4 & Hlink & Hret). injection Hret as <- Hj <-.
  unfold judge in Hj. destruct (verified measured props2 prov) eqn:Hv; [|done].
  eapply evidence_mono; [exact Hc| |eapply verified_evidence; [done|exact Hprobe|apply rtc_refl|by eapply link_reported|done]].
  eapply evolves_run; [|exact Hlink]. auto with dns.
Qed.

Lemma try_providers_evidence i t0 order s t s' k prov :
  errors_named -> selected t0 = None -> try_providers i t0 order s = (Ok t, s') -> selected t = Some (k, prov) ->
  provider_named k = Some prov /\ evidence (platform s) (platform s') prov.
Proof.
  intros Hnamed. revert t0 s; induction order as [|key order IH]; intros t0 s H0 Hr Ht; cbn [try_providers] in Hr.
  { injection Hr as <- <-. congruence. }
  destruct (provider_named key) as [p|] eqn:Hp; [|done].
  apply act_bind_Ok in Hr as ([props [e|]] & s1 & Hatt & Hr).
  - destruct (IH (Attempts (selected t0) (Some e) props) s1 H0 Hr Ht) as [? ?]. split; [done|]. eapply evidence_mono; [|apply rtc_refl|done].
    eapply evolves_run; [|exact Hatt]. auto with dns.
  - injection Hr as <- <-. cbn in Ht. injection Ht as <- <-. split; [done|]. by eapply attempt_evidence.
Qed.

(** A description that claims a secure provider is backed by evidence. *)
Definition backed (d : dict) p q : Prop :=
  get "effective_policy" d = VStr "SecureProvider" ->
  exists k prov, get "provider" d = VStr k /\ provider_named k = Some prov /\ evidence p q prov.

Lemma backed_mono d p p' q q' : calls p' p -> calls q q' -> backed d p q -> backed d p' q'.
Proof.
  intros Hp Hq Hb Hd. destruct (Hb Hd) as (k & prov & ? & ? & ?). exists k, prov. split_and!; try done.
  by eapply evidence_mono.
Qed.

Lemma get_dupdate k d e : NoDup (map fst e) -> get k (dupdate d e) = match dget k e with Some v => v | None => get k d end.
Proof. intros He. unfold get, getd. rewrite dget_dupdate by done. by destruct (dget k e). Qed.

(** A description whose last update settles on another policy. *)
Lemma not_backed base e v p q :
  NoDup (map fst e) -> dget "effective_policy" e = Some v -> v <> VStr "SecureProvider" -> backed (dupdate base e) p q.
Proof. intros He Hv Hne Hd. rewrite get_dupdate, Hv in Hd by done. done. Qed.

Lemma other_policy d v p q : get "effective_policy" d = v -> v <> VStr "SecureProvider" -> backed d p q.
Proof. intros Hv Hne Hd. congruence. Qed.

Lemma try_scopes_backed i sn owner base order s d s' :
  errors_named -> try_scopes i sn owner base order s = (Ok d, s') -> backed d (platform s) (platform s').
Proof.
  intros Hnamed. revert owner base s; induction order as [|key order IH]; intros owner base s Hr; cbn [try_scopes] in Hr.
  { apply ret_run in Hr as [-> ->]. eapply (not_backed base (unavailable _)); [distinct_keys|reflexivity|done]. }
  destruct (provider_named key) as [p|] eqn:Hp; [|done].
  apply act_bind_Ok in Hr as ([] & s1 & Huse & Hr). apply act_bind_Ok in Hr as (measured & s2 & Hprobe & Hr).
  apply act_bind_Ok in Hr as (current & s3 & Hglobal & Hr). apply act_bind_Ok in Hr as (private & s4 & Hlink & Hr).
  pose proof (evolves_run _ _ _ _ (use_provider_evolves key p owner) Huse) as H1.
  pose proof (evolves_run _ _ _ _ (probe_evolves 0) Hprobe) as H2.
  pose proof (evolves_run _ _ _ _ global_evolves Hglobal) as H3.
  pose proof (evolves_run _ _ _ _ (link_evolves i) Hlink) as H4.
  destruct (verified measured current p) eqn:Hv; cbn [andb] in Hr;
    [|eapply backed_mono; [|apply rtc_refl|by eapply IH]; do 3 (etrans; [eassumption|]); done].
  destruct (_ && _ && _) in Hr; [|eapply backed_mono; [|apply rtc_refl|by eapply IH]; do 3 (etrans; [eassumption|]); done].
  apply act_bind_Ok in Hr as (stamp & s5 & Hs & Hr). injection Hs as _ <-. apply ret_run in Hr as [-> ->].
  intros _. exists key, p. split_and!; [|done|].
  - rewrite !get_dupdate; [reflexivity|distinct_keys..].
  - eapply evidence_mono; [exact H1| |eapply verified_evidence; [done|exact Hprobe|apply rtc_refl|by eapply global_reported|done]].
    by etrans.
Qed.

Lemma reconcile_backed dev props base policy s d s' :
  errors_named -> reconcile dev props base policy s = (Ok d, s') -> backed d (platform s) (platform s').
Proof.
  intros Hnamed ([props1 snapshot] & s1 & Hsettle & Hr)%act_bind_Ok. apply act_bind_Ok in Hr as (owner & s2 & Hown & Hr).
  apply act_bind_Ok in Hr as (scope & s3 & Hglobal & Hr).
  pose proof (evolves_run _ _ _ _ (settle_evolves dev props) Hsettle) as H1.
  pose proof (evolves_run _ _ _ _ owned_evolves Hown) as H2.
  pose proof (evolves_run _ _ _ _ global_evolves Hglobal) as H3.
  destruct (_ && _) in Hr.
  { apply ret_run in Hr as [-> ->]. eapply (not_backed base [_; _]); [distinct_keys|reflexivity|done]. }
  apply act_bind_Ok in Hr as (sn & s4 & Hsn & Hr). apply act_bind_Ok in Hr as ([] & s5 & Hpin & Hr).
  apply act_bind_Ok in Hr as (resolvers & s6 & Hres & Hr). unfold lift in Hres. injection Hres as _ <-.
  pose proof (evolves_run _ _ _ _ (pin_private_evolves (dev_ifindex dev) props1 sn) Hpin) as H5.
  assert (H4 : calls (platform s3) (platform s4)) by (eapply evolves_run; [|exact Hsn]; platform_calls).
  eapply backed_mono; [|apply rtc_refl|by eapply try_scopes_backed].
  do 4 (etrans; [eassumption|]). done.
Qed.

Lemma describe_secure stamp desired n t base :
  get "effective_policy" (describe stamp desired n t base) = VStr "SecureProvider" -> exists kp, selected t = Some kp.
Proof.
  unfold describe, network_default. intros Hd. destruct (selected t) as [kp|]; [by exists kp|]. exfalso. revert Hd.
  rewrite andb_false_r. repeat case_match; rewrite get_dupdate by distinct_keys; done.
Qed.

Lemma describe_provider stamp desired n t base : get "provider" (describe stamp desired n t base) = get "provider" base.
Proof.
  unfold describe, network_default. repeat case_match; rewrite !get_dupdate by distinct_keys; done.
Qed.

Lemma link_state_backed policy dev n domains props base s d s' :
  errors_named -> link_state policy dev n domains props base s = (Ok d, s') -> backed d (platform s) (platform s').
Proof.
  intros Hnamed. unfold link_state. intros (enabled & s1 & Hen & Hr)%act_bind_Ok. injection Hen as _ <-.
  apply act_bind_Ok in Hr as (snapshot & s1 & Hsn & Hr). injection Hsn as _ <-.
  apply act_bind_Ok in Hr as (props1 & s2 & Hleave & Hr). apply act_bind_Ok in Hr as (t & s3 & Ht & Hr).
  apply act_bind_Ok in Hr as ([] & s4 & Hgive & Hr). apply act_bind_Ok in Hr as (stamp & s5 & Hs & Hr).
  injection Hs as _ <-. apply ret_run in Hr as [-> ->].
  assert (H2 : calls (platform s) (platform s2)) by (eapply evolves_run; [|exact Hleave]; platform_calls).
  assert (H4 : calls (platform s3) (platform s4)) by (eapply evolves_run; [|exact Hgive]; platform_calls).
  intros Hd. destruct (describe_secure _ _ _ _ _ Hd) as [[k prov] Hk]. rewrite describe_provider, Hk.
  destruct (_ && _) in Ht; [|apply ret_run in Ht as [-> _]; done].
  apply act_bind_Ok in Ht as ([] & s2' & Hrec & Ht).
  eapply try_providers_evidence in Ht as [Hnamed' Hev]; [|done|done|exact Hk].
  assert (H3 : calls (platform s2) (platform s2')) by (eapply evolves_run; [|exact Hrec]; platform_calls).
  exists k, prov. split_and!; [|done|eapply evidence_mono; [|exact H4|exact Hev]; by etrans].
  unfold get, getd. by rewrite dget_dset_eq.
Qed.

Lemma active_state_backed policy devices dev base s d s' :
  errors_named -> active_state policy devices dev base s = (Ok d, s') -> backed d (platform s) (platform s').
Proof.
  intros Hnamed (props & s1 & Hlink & Hr)%act_bind_Ok. apply act_bind_Ok in Hr as (enabled & s1' & Hen & Hr).
  injection Hen as _ <-. apply act_bind_Ok in Hr as (props2 & s2 & Hres & Hr).
  pose proof (evolves_run _ _ _ _ (link_evolves (dev_ifindex dev)) Hlink) as H1.
  assert (H2 : calls (platform s1) (platform s2)) by (eapply evolves_run; [|exact Hres]; platform_calls).
  eapply backed_mono; [by etrans|apply rtc_refl|]. destruct (List.filter dev_vpn devices) as [|v vpn].
  - destruct (_ && _) in Hr; [by eapply reconcile_backed | by eapply link_state_backed].
  - apply act_bind_Ok in Hr as (stamp & s3 & Hs & Hr). apply ret_run in Hr as [-> ->].
    eapply (not_backed _ (vpn_owned stamp policy dev props2)); [distinct_keys|reflexivity|done].
Qed.

Lemma state_backed s d s' : errors_named -> state s = (Ok d, s') -> backed d (platform s) (platform s').
Proof.
  intros Hnamed (file & s1 & Hf & Hr)%act_bind_Ok. injection Hf as _ <-.
  apply act_bind_Ok in Hr as (policy & s1 & Hp & Hr). unfold lift in Hp. injection Hp as _ <-.
  apply act_bind_Ok in Hr as (enabled & s1 & Hen & Hr). injection Hen as _ <-.
  apply act_bind_Ok in Hr as (stamp & s1 & Hs & Hr). injection Hs as _ <-.
  apply act_bind_Ok in Hr as (devices & s1 & Hdev & Hr).
  assert (H1 : calls (platform s) (platform s1)).
  { eapply evolves_run; [|exact Hdev]. platform_calls. }
  destruct devices as [|dev devices].
  - apply act_bind_Ok in Hr as ([] & s2 & Hrest & Hr). apply ret_run in Hr as [-> ->]. by eapply (other_policy (base_state _ _ _)).
  - eapply backed_mono; [exact H1|apply rtc_refl|by eapply active_state_backed].
Qed.

Lemma refresh_backed s u s' :
  errors_named -> refresh s = (Ok u, s') -> exists d, published s' = Some d /\ backed d (platform s) (platform s').
Proof.
  intros Hnamed (d & s1 & Hr & Hpub)%act_bind_Ok. injection Hpub as _ <-. exists d. split; [done|].
  unfold catch in Hr. destruct (state s) as [[d'|e] s2] eqn:Hstate.
  - injection Hr as -> <-. exact (state_backed _ _ _ Hnamed Hstate).
  - destruct (unreadable e); [|done].
    apply act_bind_Ok in Hr as (file & s3 & Hf & Hr). apply act_bind_Ok in Hr as (policy & s4 & Hp & Hr).
    apply act_bind_Ok in Hr as (enabled & s5 & Hen & Hr). apply act_bind_Ok in Hr as (stamp & s6 & Hs & Hr).
    apply ret_run in Hr as [-> ->]. by eapply (other_policy (unreachable_state _ _ _)).
Qed.
End evidence.

(** ** The waits *)

(** The monotonic clock: reading the resolver does not turn it back, and a
    sleep of 50 ms takes at least that long. *)
Class ClockLaws (P : Type) `{Resolved P} : Prop := {
  sleep_advances : forall p : P, rv_monotonic p + 50000 <= rv_monotonic (rv_sleep p).2;
  read_advances : forall p : P, rv_monotonic p <= rv_monotonic (rv_global p).2;
}.

Section waits.
Context {P : Type} `{ClockLaws P}.
Implicit Types s : dns_state P.

Definition clock s : Z := rv_monotonic (platform s).

Lemma global_clock s : clock s <= clock (after global s).
Proof.
  unfold clock, after, global, on_platform, mbind, act_bind. pose proof (read_advances (platform s)).
  by destruct (rv_global (platform s)) as [[]].
Qed.

Lemma sleep_clock s : clock s + 50000 <= clock (after (on_platform rv_sleep) s).
Proof.
  unfold clock, after, on_platform. pose proof (sleep_advances (platform s)). by destruct (rv_sleep (platform s)).
Qed.

(** Enough fuel for the time left: the loop ends, whatever is added. *)
Lemma observed_ends fuel extra ok deadline s :
  deadline - clock s <= 50000 * (Z.of_nat fuel - 1) -> (0 < fuel)%nat ->
  observed (fuel + extra) ok deadline s = observed fuel ok deadline s /\ outcome (observed fuel ok deadline) s <> Ok None.
Proof.
  revert s; induction fuel as [|fuel IH]; intros s Hleft Hpos; [lia|]. clear Hpos.
  cbn [observed Nat.add]. unfold outcome, mbind, act_bind. pose proof (global_clock s) as Hg. unfold after in Hg.
  destruct (global s) as [[current|e] s1]; cbn [snd] in Hg; [|by split].
  destruct (ok current); [by split|]. unfold gets. fold (clock s1).
  destruct (Z.leb_spec deadline (clock s1)); [by split|].
  pose proof (sleep_clock s1) as Hs. unfold after in Hs.
  destruct (on_platform rv_sleep s1) as [[u|e] s2]; cbn [snd] in Hs; [|by split].
  assert (Hpos : (0 < fuel)%nat) by lia. apply IH; [lia|done].
Qed.
End waits.

(** * Secure DNS: the properties

    The guarantees of [SecureDnsClaims] for the requests of the service, and a
    small laboratory resolver (one wired link, a clock) on which they are
    exercised. *)

(** ** A laboratory resolver *)

Record lab := Lab { lab_link : link_props; lab_scope : manager_props; lab_flags : Z; lab_clock : Z }.

Definition lab_set (f : link_props -> link_props) : act lab unit :=
  modify (fun p => Lab (f (lab_link p)) (lab_scope p) (lab_flags p) (lab_clock p)).

#[export] Instance lab_resolver : Resolved lab := {
  rv_devices := mret [Device "eth0" 2 false];
  rv_link := fun _ => gets lab_link;
  rv_global := gets lab_scope;
  rv_set_dns := fun _ l => lab_set (fun r =>
    LinkProps l (l_domains r) (l_over_tls r) (l_dnssec r) (l_default_route r) (head l));
  rv_set_over_tls := fun _ m => lab_set (fun r =>
    LinkProps (l_dns r) (l_domains r) m (l_dnssec r) (l_default_route r) (l_current r));
  rv_set_dnssec := fun _ m => lab_set (fun r =>
    LinkProps (l_dns r) (l_domains r) (l_over_tls r) m (l_default_route r) (l_current r));
  rv_set_default_route := fun _ b => lab_set (fun r =>
    LinkProps (l_dns r) (l_domains r) (l_over_tls r) (l_dnssec r) b (l_current r));
  rv_revert := fun _ => mret tt;
  rv_resolve := fun _ => gets (fun p => (true, lab_flags p));
  rv_reload := mret tt;
  rv_sleep := modify (fun p => Lab (lab_link p) (lab_scope p) (lab_flags p) (lab_clock p + 50000));
  rv_monotonic := lab_clock;
  rv_stamp := fun _ => "2026-03-01T10:00:00Z";
}.

#[export] Instance lab_clock_laws : ClockLaws lab.
Proof. split; intros p; cbn; lia. Qed.

(** DHCP gave a resolver without a domain; answers come authenticated. *)
Definition dhcp : dns_server := DnsServer 2 [192; 168; 1; 1] 53 "".
Definition strict_flags : Z := 2 ^ 18 + 2 ^ 9 + 2 ^ 23.
Definition lab_start : lab :=
  Lab (LinkProps [dhcp] [] "no" "no" true (Some dhcp)) (ManagerProps [] [] "no" "no" None) strict_flags 0.
Definition service_start (ro : bool) : dns_state lab := DnsState lab_start ro None None None None false false None.

(** ** Properties *)

(** A request that returned published nothing, or a description whose claim of a
    secure provider is backed by evidence of this very request. *)
Lemma serve_backed {P} `{Resolved P} r (s s' : dns_state P) :
  errors_named -> dns_serve r s = (Ok tt, s') ->
  published s' = published s \/ exists d, published s' = Some d /\ backed d (platform s) (platform s').
Proof.
  intros Hnamed Hr. assert (Hsave : forall key value a s1, save_field key value s = (Ok a, s1) ->
    exists d, published s1 = Some d /\ backed d (platform s) (platform s1)).
  { unfold save_field, mutation_enabled, with_result. intros key value a s1.
    intros (enabled & s2 & Hen & Hs)%act_bind_Ok. injection Hen as _ <-. destruct enabled.
    - apply act_bind_Ok in Hs as (file & s2 & Hf & Hs). injection Hf as _ <-.
      apply act_bind_Ok in Hs as (policy & s2 & Hp & Hs). unfold lift in Hp. injection Hp as _ <-.
      apply act_bind_Ok in Hs as ([] & s2 & Hset & Hs). apply act_bind_Ok in Hs as ([] & s3 & Href & Hs).
      apply act_bind_Ok in Hs as (result & s4 & Hres & Hs). injection Hres as _ <-. apply ret_run in Hs as [_ ->].
      injection Hset as <-. by apply refresh_backed in Href.
    - apply act_bind_Ok in Hs as ([] & s3 & Href & Hs).
      apply act_bind_Ok in Hs as (result & s4 & Hres & Hs). injection Hres as _ <-. apply ret_run in Hs as [_ ->].
      by apply refresh_backed in Href. }
  destruct r as [| |mode|text|]; cbn [dns_serve] in Hr.
  - right. by apply refresh_backed in Hr.
  - apply act_bind_Ok in Hr as (a & s1 & Hget & Hr). apply ret_run in Hr as [_ ->].
    apply act_bind_Ok in Hget as ([] & s2 & Href & Hget). injection Hget as _ <-. right. by apply refresh_backed in Href.
  - apply act_bind_Ok in Hr as (a & s1 & Hset & Hr). apply ret_run in Hr as [_ ->]. unfold SetMode in Hset.
    destruct (existsb _ _) in Hset; [right; by eapply Hsave | left]. by apply ret_run in Hset as [_ ->].
  - apply act_bind_Ok in Hr as (a & s1 & Hset & Hr). apply ret_run in Hr as [_ ->]. unfold SetProvider in Hset.
    destruct (provider_named _) in Hset; [right; by eapply Hsave | left]. by apply ret_run in Hset as [_ ->].
  - apply act_bind_Ok in Hr as (a & s1 & Hret & Hr). apply ret_run in Hr as [_ ->].
    apply act_bind_Ok in Hret as ([] & s2 & Href & Hret). unfold with_result in Hret.
    apply act_bind_Ok in Hret as (result & s3 & Hres & Hret). injection Hres as _ <-. apply ret_run in Hret as [_ ->].
    right. by apply refresh_backed in Href.
Qed.

(** C3. Whatever request is served, a published [SecureProvider] names a
    provider of the table, and between the start and the end of that request
    the service read strict transport and validation, obtained an answer the
    resolver marked confidential, authenticated and not synthesised, and then
    read properties whose current server is that provider's. Configuration
    alone is never reported as security. *)
Theorem secure_provider_verified {P} `{Resolved P} r (s s' : dns_state P) d :
  errors_named -> dns_serve r s = (Ok tt, s') -> published s' <> published s -> published s' = Some d ->
  get "effective_policy" d = VStr "SecureProvider" ->
  exists k prov, get "provider" d = VStr k /\ provider_named k = Some prov /\ evidence (platform s) (platform s') prov.
Proof.
  intros Hnamed Hr Hne Hd Hsecure. destruct (serve_backed _ _ _ Hnamed Hr) as [Heq|(d' & Hd' & Hback)]; [done|].
  rewrite Hd in Hd'. injection Hd' as <-. by apply Hback.
Qed.

(** In a read-only runtime no request changes anything: the resolver and the
    network are only read, and the policy, the snapshots and the drop-in keep
    their contents. *)
Theorem read_only_observes {P} `{Resolved P} r (s : dns_state P) :
  read_only s = true -> observes s (after (dns_serve r) s).
Proof. intros Hs. by apply serve_observes. Qed.

(** The waits for systemd-resolved end: under a clock that does not run
    backwards and sleeps that last, the loop stops within its 162 turns, at the
    condition, at an error or at the deadline, and more fuel changes nothing. *)
Theorem wait_terminates {P} `{ClockLaws P} extra ok (s : dns_state P) :
  observed (WAIT_FUEL + extra) ok (clock s + DBUS_CALL_TIMEOUT) s = observed WAIT_FUEL ok (clock s + DBUS_CALL_TIMEOUT) s
  /\ outcome (observed WAIT_FUEL ok (clock s + DBUS_CALL_TIMEOUT)) s <> Ok None.
Proof. apply observed_ends; unfold DBUS_CALL_TIMEOUT, second, WAIT_FUEL; lia. Qed.

(** ** Witnesses *)

Definition served (r : dns_request) (ro : bool) : dns_state lab := after (dns_serve r) (service_start ro).

Example strict_lab : errors_named (P := lab).
Proof. intros i p e q. by cbn. Qed.

Lemma secure_provider_verified_witness :
  exists d, published (served Refresh false) = Some d /\ get "effective_policy" d = VStr "SecureProvider"
    /\ exists k prov, get "provider" d = VStr k /\ provider_named k = Some prov
         /\ evidence lab_start (platform (served Refresh false)) prov.
Proof.
  eexists. split; [vm_compute; reflexivity|]. split; [reflexivity|].
  apply (secure_provider_verified Refresh (service_start false) (served Refresh false));
    [exact strict_lab|vm_compute; reflexivity|vm_compute; discriminate|vm_compute; reflexivity|reflexivity].
Defined.

Lemma read_only_observes_witness : read_only (service_start true) = true /\ observes (service_start true) (served (ReqSetMode "Privacy") true).
Proof. split; [reflexivity|]. apply (read_only_observes (ReqSetMode "Privacy")). reflexivity. Defined.

Lemma wait_terminates_witness :
  outcome (observed WAIT_FUEL (fun _ => false) DBUS_CALL_TIMEOUT) (service_start false) = Ok (Some false)
  /\ outcome (observed WAIT_FUEL (fun _ => false) DBUS_CALL_TIMEOUT) (service_start false) <> Ok None.
Proof.
  split; [vm_compute; reflexivity|]. exact (proj2 (wait_terminates 0 (fun _ => false) (service_start false))).
Defined.

(** A saved provider is not the one that is applied: the chain is tried in its
    own order. *)
Example chosen_provider_not_applied :
  option_map (fun d => (get "effective_policy" d, get "provider" d)) (published (served (ReqSetProvider "adguard") false))
    = Some (VStr "SecureProvider", VStr "quad9")
  /\ option_map (get "provider") (policy_file (served (ReqSetProvider "adguard") false)) = Some (VStr "adguard").
Proof. by vm_compute. Qed.
