(* ===== verification/PolicyStore.v ===== *)
(** * The policy file ([PolicyStore] of [network_rules.py])

    The store object, the policy file with its recovery copy, cached reads with
    fallback to the last validated policy, and the three-step write. A replacement
    is the system calls the code makes; whether it succeeds, and the modification
    time it gets, is an argument of the write. A crash keeps the content of a file
    only if it was synced, and may lose the last renames. *)
From S2P Require Import Prelude PyVal PyStr Json NetworkRules IpAddr JsonRound JsonExample RuleSpec RulesCorrect RuleClaims.

(** A readable regular file; [None] stands for one that cannot be read. *)
Record file := File { f_data : string; f_mtime : Z }.
Record disk := Disk { d_main : option file; d_backup : option file }.

Record store := Store {
  last_good : option dict;
  error : option string;
  signature : option (Z * Z);
  backup_error : option string;
}.

Definition store_init : store := Store None None None None.

Record world := World { w_disk : disk; w_store : store }.

Inductive target := TMain | TBackup.

Definition newline : string := String (ascii_of_N 10) "".

(** [except (OSError, ValueError, TypeError, KeyError)]. *)
Definition read_caught (e : exn) : bool :=
  is_value_error e || match e with OSError _ | TypeError | KeyError _ => true | _ => false end.

Section store.
Context `{Host} `{FloatText}.

Definition set_store (f : store -> store) : act world unit :=
  modify (fun w => World (w_disk w) (f (w_store w))).

Definition set_disk (f : disk -> disk) : act world unit :=
  modify (fun w => World (f (w_disk w)) (w_store w)).

(** [path.stat()] or [path.read_bytes()]. *)
Definition load (f : option file) : act world file :=
  match f with Some f => mret f | None => raise (OSError "No such file or directory") end.

Definition file_signature (f : file) : Z * Z := (f_mtime f, Z.of_nat (String.length (f_data f))).

Definition parse_policy (E : env) (data limit : string) : res dict :=
  _ ← require (negb (MAX_BYTES <? Z.of_nat (String.length data))) (PolicyError limit);
  policy ← loads data;
  migrate E policy.

Definition read_main (E : env) : act world dict :=
  w ← gets id;
  f ← load (d_main (w_disk w));
  let s := w_store w in
  match last_good s, bool_decide (signature s = Some (file_signature f)), error s with
  | Some p, true, None => mret p
  | _, _, _ =>
      policy ← lift (parse_policy E (f_data f) "Network policy exceeds its size limit.");
      _ ← set_store (fun s => Store (Some policy) None (Some (file_signature f)) (backup_error s));
      mret policy
  end.

Definition read_backup (E : env) : act world dict :=
  w ← gets id;
  f ← load (d_backup (w_disk w));
  policy ← lift (parse_policy E (f_data f) "Backup exceeds its size limit.");
  _ ← set_store (fun s => Store (Some policy) (error s) (signature s) (backup_error s));
  mret policy.

(** [PolicyStore.read]. *)
Definition read (E : env) : act world dict :=
  catch (read_main E) read_caught (fun e =>
    _ ← set_store (fun s => Store (last_good s) (Some (exn_text e)) (signature s) (backup_error s));
    w ← gets id;
    match last_good (w_store w) with
    | Some p => mret p
    | None => catch (read_backup E) read_caught (fun _ =>
                raise (PolicyError "Network policy unavailable; no validated last-known-good policy."))
    end).

(** ** Replacing a file

    The system calls of a replacement, and what the kernel knows while they run:
    the disk at the start, the temporary file with its content and whether it is
    synced, and the files that were renamed over a target, in order. *)
Inductive syscall := SCreate | SWrite (data : string) | SSync | SRename (t : target) (mtime : Z) | SUnlink.

Record renamed := Renamed { rn_target : target; rn_file : file; rn_synced : bool }.
Record kernel := Kernel { k_base : disk; k_temporary : option (string * bool); k_renames : list renamed }.

Definition quiet (d : disk) : kernel := Kernel d None [].

Definition syscall_step (k : kernel) (c : syscall) : kernel :=
  let temporary o := Kernel (k_base k) o (k_renames k) in
  match c, k_temporary k with
  | SCreate, _ => temporary (Some ("", false))
  | SWrite data, Some (s, _) => temporary (Some (s +:+ data, false))
  | SSync, Some (s, _) => temporary (Some (s, true))
  | SRename t mtime, Some (s, synced) => Kernel (k_base k) None (k_renames k ++ [Renamed t (File s mtime) synced])
  | SUnlink, _ => temporary None
  | _, None => k
  end.

Definition run_calls (l : list syscall) (k : kernel) : kernel := fold_left syscall_step l k.

Definition put_file (d : disk) (r : renamed) : disk :=
  match rn_target r with
  | TMain => Disk (Some (rn_file r)) (d_backup d)
  | TBackup => Disk (d_main d) (Some (rn_file r))
  end.

(** What the running system sees. *)
Definition visible (k : kernel) : disk := fold_left put_file (k_renames k) (k_base k).

(** [tempfile.mkstemp], [write] and [flush], [os.fsync], [os.replace] and, in the
    [finally], [os.unlink]: [None] when one of the first four raises [OSError],
    otherwise the modification time of the new file. *)
Definition replace_calls (t : target) (data : string) (o : option Z) : list syscall :=
  match o with
  | None => [SCreate; SWrite data; SSync; SUnlink]
  | Some mtime => [SCreate; SWrite data; SSync; SRename t mtime; SUnlink]
  end.

Definition replace_file (t : target) (data : string) (o : option Z) : act world unit :=
  _ ← set_disk (fun d => visible (run_calls (replace_calls t data o) (quiet d)));
  match o with None => raise (OSError "replace") | Some _ => mret tt end.

Definition encode (p : dict) : string := dumps (VDict p) +:+ newline.

(** The outcomes of the three replacements of a write. *)
Record outcomes := Outcomes { o_first : option Z; o_main : option Z; o_last : option Z }.

(** The targets and contents the loop of a write goes through. *)
Definition commit_plan (previous_data data : string) (o : outcomes) : list (target * string * option Z) :=
  [(TBackup, previous_data, o_first o); (TMain, data, o_main o); (TBackup, data, o_last o)].

(** The loop, from its turn [index]: a failure of the last turn is only noted. *)
Fixpoint commit_from (index : nat) (plan : list (target * string * option Z)) (backup_refreshed : bool) : act world bool :=
  match plan with
  | [] => mret backup_refreshed
  | (t, data, o) :: plan =>
      replaced ← catch (_ ← replace_file t data o; mret true) is_os_error (fun e =>
        if (index =? 2)%nat then
          _ ← set_store (fun s => Store (last_good s) (error s) (signature s)
                 (Some "Policy saved, but its recovery copy could not be refreshed."));
          mret false
        else raise e);
      if replaced : bool then commit_from (S index) plan (index =? 2)%nat else mret backup_refreshed
  end.

Definition commit (previous_data data : string) (o : outcomes) : act world bool := commit_from 0 (commit_plan previous_data data o) false.

(** [PolicyStore.write(policy, expected_revision)]: the policy that is replaced and
    the one that replaces it, and the write. *)
Definition prepare_write (E : env) (policy : val) (expected_revision : Z) : act world (dict * dict) :=
  previous ← read E;
  revision ← lift (item "revision" previous);
  _ ← lift (require (py_eq revision (VInt expected_revision))
              (PolicyError "Policy changed. Review the current rules before applying again."));
  candidate ← lift (migrate E policy);
  let candidate := dset "revision" (VInt (expected_revision + 1)) candidate in
  _ ← lift (require (negb (MAX_BYTES <? Z.of_nat (String.length (encode candidate))))
              (PolicyError "Policy exceeds its size limit; no rules were changed."));
  mret (previous, candidate).

Definition write (E : env) (policy : val) (expected_revision : Z) (o : outcomes) : act world dict :=
  x ← prepare_write E policy expected_revision;
  let '(previous, candidate) := x in
  refreshed ← commit (encode previous) (encode candidate) o;
  _ ← set_store (fun s => Store (Some candidate) (error s) (signature s)
                   (if refreshed : bool then None else backup_error s));
  mret candidate.

(** ** A crash during a write

    The system calls a write makes on the disk: those of the turns of its loop, up
    to the first that fails. *)
Fixpoint plan_calls (plan : list (target * string * option Z)) : list syscall :=
  match plan with
  | [] => []
  | (t, data, o) :: plan => replace_calls t data o ++ match o with Some _ => plan_calls plan | None => [] end
  end.

Definition write_calls (E : env) (policy : val) (n : Z) (o : outcomes) (w : world) : list syscall :=
  match outcome (prepare_write E policy n) w with
  | Ok (previous, candidate) => plan_calls (commit_plan (encode previous) (encode candidate) o)
  | Err _ => []
  end.

(** What a crash may leave of a renamed file: its content, or anything if it was
    not synced; and of the disk: the first renames, in their order. *)
Definition torn (r r' : renamed) : Prop := rn_target r' = rn_target r /\ (rn_synced r = true -> rn_file r' = rn_file r).

Definition survives (k : kernel) (d : disk) : Prop :=
  exists j l, Forall2 torn (firstn j (k_renames k)) l /\ d = fold_left put_file l (k_base k).

(** A process that has just started. *)
Definition fresh_world (d : disk) : world := World d store_init.

(** ** Properties *)

(** [p] has passed the validation of stored policies. *)
Definition validated (p : dict) : Prop := exists E v, migrate E v = Ok p.

(** The text [data] is a policy that validation at [E] reads as [p]. *)
Definition holds_policy (E : env) (data : string) (p : dict) : Prop :=
  forall limit, parse_policy E data limit = Ok p.

Definition store_ok (w : world) : Prop :=
  forall p, last_good (w_store w) = Some p -> validated p.

Lemma parse_policy_validated E data limit p : parse_policy E data limit = Ok p -> validated p.
Proof. unfold parse_policy. intros Hp. inv_ok. by exists E, a0. Qed.

Lemma read_main_ok E w p w' :
  read_main E w = (Ok p, w') -> store_ok w -> validated p /\ store_ok w' /\ w_disk w' = w_disk w.
Proof.
  intros Hr Hs. unfold read_main in Hr.
  apply act_bind_Ok in Hr as (w0 & w1 & [= <- <-] & Hr).
  apply act_bind_Ok in Hr as (f & w1 & Hf & Hr).
  assert (w1 = w) as ->. { unfold id in Hf. destruct (d_main (w_disk w)); [by injection Hf|done]. }
  unfold id in Hr.
  assert (match lift (parse_policy E (f_data f) "Network policy exceeds its size limit.") w with
    | (Ok p', _) => validated p' | _ => True end) as Hv.
  { unfold lift. destruct (parse_policy E (f_data f) _) eqn:Ep; [by eapply parse_policy_validated|done]. }
  assert ((policy ← lift (parse_policy E (f_data f) "Network policy exceeds its size limit.");
    _ ← set_store (fun s => Store (Some policy) None (Some (file_signature f)) (backup_error s));
    mret policy) w = (Ok p, w') -> validated p /\ store_ok w' /\ w_disk w' = w_disk w) as Hload.
  { intros Hl. apply act_bind_Ok in Hl as (q & w2 & Hq & Hl). rewrite Hq in Hv.
    injection Hl as <- <-. injection Hq as _ <-. split; [done|]. split; [|done]. by intros ? [= <-]. }
  destruct (last_good (w_store w)) as [q|] eqn:Eg; [|by apply Hload].
  destruct (bool_decide _); [|by apply Hload]. destruct (error (w_store w)); [by apply Hload|].
  injection Hr as <- <-. split; [by apply Hs|]. done.
Qed.

Lemma read_main_err E w e w' : read_main E w = (Err e, w') -> w' = w.
Proof.
  unfold read_main. intros [Hr|(w0 & w1 & [= <- <-] & Hr)]%act_bind_Err; [done|].
  unfold id in Hr. apply act_bind_Err in Hr as [Hr|(f & w1 & Hf & Hr)].
  { destruct (d_main (w_disk w)); [done|]. by injection Hr as _ <-. }
  assert (w1 = w) as ->. { destruct (d_main (w_disk w)); [by injection Hf|done]. }
  assert ((policy ← lift (parse_policy E (f_data f) "Network policy exceeds its size limit.");
    _ ← set_store (fun s => Store (Some policy) None (Some (file_signature f)) (backup_error s));
    mret policy) w = (Err e, w') -> w' = w) as Hload.
  { intros [Hl|(q & w2 & Hq & Hl)]%act_bind_Err; [by injection Hl as _ <-|done]. }
  destruct (last_good (w_store w)); [|by apply Hload].
  destruct (bool_decide _); [|by apply Hload]. destruct (error (w_store w)); [by apply Hload|done].
Qed.
End store.

(** * The policy file: properties

    Reads return validated policies only, a write takes effect as a whole or not
    at all, survives a crash at any point, is what the next process reads, and
    a writer that lost the race is refused. *)

(** ** Dictionaries and JSON *)

Lemma sorted_keys_cons {A} k (v : A) d :
  sorted_keys ((k, v) :: d) = true <->
  match d with [] => True | (k', _) :: _ => String.compare k k' = Lt end /\ sorted_keys d = true.
Proof.
  destruct d as [|[k' v'] d]; cbn [sorted_keys]; [naive_solver|].
  by rewrite andb_true_iff, ltb_compare.
Qed.

Lemma sorted_keys_dset {A} k (v : A) d : sorted_keys d = true -> sorted_keys (dset k v d) = true.
Proof.
  induction d as [|[k' v'] d IH]; [done|]. intros Hs. apply sorted_keys_cons in Hs as [Hk Hs].
  specialize (IH Hs). cbn [dset]. destruct (String.compare k k') eqn:E.
  - apply String.compare_eq_iff in E as ->. by apply sorted_keys_cons.
  - apply sorted_keys_cons. split; [done|]. by apply sorted_keys_cons.
  - apply sorted_keys_cons. split; [|done].
    assert (String.compare k' k = Lt) as Hk' by (by rewrite string_compare_antisym, E).
    destruct d as [|[k2 v2] d]; cbn [dset]; [done|]. by destruct (String.compare k k2).
Qed.

Lemma json_ok_dset k v d :
  json_ok v = true -> json_ok (VDict d) = true -> json_ok (VDict (dset k v d)) = true.
Proof.
  cbn [json_ok]. intros Hv [Hs Hd]%andb_true_iff. apply andb_true_iff.
  split; [by apply sorted_keys_dset|]. clear Hs. induction d as [|[k' v'] d IH]; cbn; [by rewrite Hv|].
  apply andb_true_iff in Hd as [H1 H2]. cbn [snd] in H1.
  destruct (String.compare k k'); cbn; rewrite ?Hv, ?H1, ?H2; auto.
Qed.

Lemma json_ok_setdefault k v d :
  json_ok v = true -> json_ok (VDict d) = true -> json_ok (VDict (setdefault k v d)) = true.
Proof. unfold setdefault. destruct (dget k d); [done|]. apply json_ok_dset. Qed.

Lemma json_ok_defaults p : json_ok (VDict p) = true -> json_ok (VDict (policy_defaults p)) = true.
Proof. intros Hp. unfold policy_defaults. by repeat apply json_ok_setdefault. Qed.

Section claims.
Context `{Host} `{FloatTextOk}.
Implicit Types (E : env) (p : dict) (w : world).

(** A policy whose rules are canonical: what the rule transactions write. *)
Record canonical_policy E p (rules : list rule) : Prop := {
  cp_head : policy_head_ok p;
  cp_rules : dget "rules" p = Some (VList (map (fun r => VDict (rule_dict r)) rules));
  cp_wf : Forall (fun r => rule_wf r /\ rule_fits r /\ boot_known E (rule_common r)
                           /\ no_nan (c_boot (rule_common r)) = true) rules;
  cp_ids : NoDup (map (fun r => c_id (rule_common r)) rules);
  cp_len : Z.of_nat (length rules) <= MAX_RULES;
  cp_json : json_ok (VDict p) = true;
}.

Lemma canonical_migrate E p rules : canonical_policy E p rules -> migrate E (VDict p) = Ok (policy_defaults p).
Proof. intros []. by eapply migrate_current. Qed.

(** The policy a write of [p] at revision [n] stores. *)
Definition committed (n : Z) p : dict := dset "revision" (VInt (n + 1)) (policy_defaults p).

Lemma committed_canonical E n p rules :
  0 <= n -> canonical_policy E p rules -> canonical_policy E (committed n p) rules.
Proof.
  intros Hn [Hh Hr Hwf Hnd Hl Hj]. unfold committed. split; try done.
  - destruct (policy_head p Hh) as (Ha & Hb & Hc & _). split.
    + unfold getd. rewrite dget_dset_ne by done. destruct (policy_defaults_has p "default_action") as [x Hx]; [simpl; tauto|].
      unfold get, getd in Ha. by rewrite Hx in *.
    + unfold getd. rewrite dget_dset_ne by done. destruct (policy_defaults_has p "dns_policy") as [x Hx]; [simpl; tauto|].
      unfold get, getd in Hb. by rewrite Hx in *.
    + unfold get, getd in *. by rewrite dget_dset_ne.
    + exists (n + 1). unfold get, getd. rewrite dget_dset_eq. split; [done|lia].
  - rewrite dget_dset_ne by done. rewrite policy_defaults_other by (simpl; naive_solver). done.
  - apply json_ok_dset; [done|]. by apply json_ok_defaults.
Qed.

Lemma committed_defaults n p : policy_defaults (committed n p) = committed n p.
Proof.
  apply policy_defaults_id. intros k Hk. destruct (policy_defaults_has p k Hk) as [x Hx]. exists x.
  unfold committed. rewrite dget_dset_ne; [done|]. intros ->. simpl in Hk. naive_solver.
Qed.

(** What a canonical policy, once written, is read as. *)
Lemma encode_holds E n p rules :
  0 <= n -> canonical_policy E p rules ->
  Z.of_nat (String.length (encode (committed n p))) <= MAX_BYTES ->
  holds_policy E (encode (committed n p)) (committed n p).
Proof.
  intros Hn Hp Hlen limit. unfold parse_policy. rewrite (proj2 (Z.ltb_ge _ _)) by done.
  cbn [negb require mbind res_bind]. pose proof (committed_canonical E n p rules Hn Hp) as Hc.
  unfold encode, newline. rewrite loads_dumps by apply (cp_json _ _ _ Hc). cbn [mbind res_bind].
  rewrite (canonical_migrate E _ rules Hc). by rewrite committed_defaults.
Qed.

(** A process that starts reads the policy of the main file. *)
Lemma fresh_read E d f p :
  d_main d = Some f -> holds_policy E (f_data f) p -> outcome (read E) (fresh_world d) = Ok p.
Proof.
  intros Hd Hp. unfold outcome, read, read_main, catch, fresh_world. unfold mbind at 1, act_bind at 1.
  cbn [gets id w_disk]. unfold gets, id. cbn [w_disk w_store store_init last_good]. rewrite Hd.
  unfold mbind, act_bind, load, mret, act_ret, lift. by rewrite Hp.
Qed.

Lemma read_disk E w : w_disk (after (read E) w) = w_disk w.
Proof.
  unfold after, read, catch. destruct (read_main E w) as [[p|e] w1] eqn:Em.
  - unfold read_main in Em. apply act_bind_Ok in Em as (w0 & ? & [= <- <-] & Em).
    unfold id in Em. apply act_bind_Ok in Em as (f & w2 & Hf & Em).
    assert (w2 = w) as -> by (destruct (d_main (w_disk w)); [by injection Hf|done]).
    assert (forall q, (policy ← lift (parse_policy E (f_data f) "Network policy exceeds its size limit.");
      _ ← set_store (fun s => Store (Some policy) None (Some (file_signature f)) (backup_error s));
      mret policy) w = (Ok q, w1) -> w_disk w1 = w_disk w) as Hload.
    { intros q Hl. apply act_bind_Ok in Hl as (x & w3 & Hx & Hl). injection Hx as _ <-. by injection Hl as _ <-. }
    destruct (last_good (w_store w)); [|by eapply Hload].
    destruct (bool_decide _); [|by eapply Hload]. destruct (error (w_store w)); [by eapply Hload|].
    by injection Em as _ <-.
  - apply read_main_err in Em as ->. destruct (read_caught e); [|done].
    unfold mbind, act_bind, set_store, modify, gets, id. cbn [w_store w_disk last_good].
    destruct (last_good (w_store w)); [done|]. unfold read_backup.
    unfold mbind, act_bind, gets, id, load. cbn [w_disk w_store]. unfold set_store, modify, lift, mret, act_ret.
    destruct (d_backup (w_disk w)); cbn -[parse_policy]; [|done].
    match goal with |- context [parse_policy ?E ?x ?y] => destruct (parse_policy E x y) as [q|e'] end; cbn; [done|]. by destruct (read_caught e').
Qed.

(** The fallback of [read] keeps and serves validated policies. *)
Lemma fallback_ok E w e :
  store_ok w ->
  let m := (_ ← set_store (fun s => Store (last_good s) (Some (exn_text e)) (signature s) (backup_error s));
    w ← gets id;
    match last_good (w_store w) with
    | Some p => mret p
    | None => catch (read_backup E) read_caught (fun _ =>
                raise (PolicyError "Network policy unavailable; no validated last-known-good policy."))
    end) : act world dict in
  store_ok (m w).2 /\ forall p, (m w).1 = Ok p -> validated p.
Proof.
  intros Hs m. subst m. unfold mbind, act_bind, set_store, modify, gets, id. cbn [w_store w_disk last_good].
  destruct (last_good (w_store w)) as [q|] eqn:Eq.
  - split; [by intros ? [= <-]; apply Hs|]. intros p [= <-]. by apply Hs.
  - unfold catch, read_backup, mbind, act_bind, gets, id, load. cbn [w_disk w_store].
    unfold set_store, modify, lift, mret, act_ret. destruct (d_backup (w_disk w)) as [f|]; cbn -[parse_policy].
    + match goal with |- context [parse_policy ?E ?x ?y] => destruct (parse_policy E x y) as [q|e'] eqn:Ep end; cbn.
      * apply parse_policy_validated in Ep. split; [by intros ? [= <-]|]. by intros ? [= <-].
      * destruct (read_caught e'); cbn; by (split; [intros ? ?; cbn in *; congruence|]).
    + split; [intros ? ?; cbn in *; congruence|done].
Qed.

(** The parts of a write that succeeded. *)
Lemma prepare_write_Ok E policy n w x w' :
  prepare_write E policy n w = (Ok x, w') ->
  exists previous candidate, read E w = (Ok previous, w') /\ py_eq (get "revision" previous) (VInt n) = true
    /\ migrate E policy = Ok candidate /\ x = (previous, dset "revision" (VInt (n + 1)) candidate)
    /\ Z.of_nat (String.length (encode x.2)) <= MAX_BYTES.
Proof.
  unfold prepare_write. intros Hw.
  apply act_bind_Ok in Hw as (previous & w1 & Hread & Hw).
  apply act_bind_Ok in Hw as (rev & w2 & Hrev & Hw). injection Hrev as Hrev <-.
  apply act_bind_Ok in Hw as (u & w3 & Hu & Hw). injection Hu as Hu%require_Ok <-.
  apply act_bind_Ok in Hw as (candidate & w4 & Hm & Hw). injection Hm as Hm <-. cbv zeta in Hw.
  apply act_bind_Ok in Hw as (u2 & w5 & Hu2 & Hw). injection Hu2 as Hu2%require_Ok <-. injection Hw as <- <-.
  apply negb_true_iff, Z.ltb_ge in Hu2. exists previous, candidate. split; [done|]. split; [|done].
  unfold item in Hrev. unfold get, getd. destruct (dget "revision" previous); [by injection Hrev as ->|done].
Qed.

Lemma prepare_write_disk E policy n w : w_disk (after (prepare_write E policy n) w) = w_disk w.
Proof.
  pose proof (read_disk E w) as Hd. unfold prepare_write, after, mbind, act_bind, lift in *.
  destruct (read E w) as [[previous|e] w1]; [|done]. destruct (item "revision" previous); [|done]. destruct (require _ _); [|done].
  destruct (migrate E policy); [|done]. by destruct (require _ _).
Qed.

Lemma write_Ok E policy n o w c w' :
  write E policy n o w = (Ok c, w') ->
  exists previous candidate w1 t1,
    read E w = (Ok previous, w1) /\ py_eq (get "revision" previous) (VInt n) = true
    /\ migrate E policy = Ok candidate /\ c = dset "revision" (VInt (n + 1)) candidate
    /\ Z.of_nat (String.length (encode c)) <= MAX_BYTES
    /\ d_main (w_disk w') = Some (File (encode c) t1) /\ last_good (w_store w') = Some c.
Proof.
  unfold write. intros Hw. apply act_bind_Ok in Hw as ([previous cand] & w1 & Hx & Hw).
  apply prepare_write_Ok in Hx as (previous' & candidate & Hread & Hrev & Hm & [= <- ->] & Hlen). cbn [snd] in Hlen.
  apply act_bind_Ok in Hw as (b & w6 & Hc & Hw).
  apply act_bind_Ok in Hw as (u3 & w7 & Hs & Hw). injection Hw as <- <-. injection Hs as _ <-.
  unfold commit in Hc. destruct o as [[t0|] [t1|] last]; try done.
  exists previous, candidate, w1, t1. do 5 (split; [done|]). split; [|done].
  destruct last as [t2|]; cbn in Hc; by injection Hc as _ <-.
Qed.

(** A successful write of a canonical policy stores it, with the next
    revision and the defaulted keys, and the next process to start reads exactly
    that policy, whatever its clock and boot. *)
Theorem write_then_read E E' p rules n o w c w' :
  canonical_policy E p rules -> canonical_policy E' p rules -> 0 <= n ->
  write E (VDict p) n o w = (Ok c, w') ->
  c = committed n p /\ outcome (read E') (fresh_world (w_disk w')) = Ok c.
Proof.
  intros Hp Hp' Hn (previous & candidate & w1 & t1 & _ & _ & Hm & Hc & Hlen & Hd & _)%write_Ok.
  rewrite (canonical_migrate E p rules Hp) in Hm.
  assert (c = committed n p) as -> by (unfold committed; congruence). split; [done|].
  eapply fresh_read; [done|]. by eapply encode_holds.
Qed.

(** A write has its effect as a whole or not at all: if it raises, the
    policy file is untouched; if it returns, the file holds the returned policy,
    which is also what the store serves from then on. *)
Theorem write_all_or_nothing E policy n o w :
  match write E policy n o w with
  | (Ok c, w') => last_good (w_store w') = Some c
                  /\ exists t, d_main (w_disk w') = Some (File (encode c) t)
  | (Err _, w') => d_main (w_disk w') = d_main (w_disk w)
  end.
Proof.
  destruct (write E policy n o w) as [[c|e] w'] eqn:Hw.
  - apply write_Ok in Hw as (? & ? & ? & t & _ & _ & _ & _ & _ & Hd & Hl). split; [done|]. by exists t.
  - pose proof (prepare_write_disk E policy n w) as Hdisk. unfold after in Hdisk. unfold write in Hw.
    apply act_bind_Err in Hw as [Hw|([previous candidate] & w1 & Hx & Hw)]; [rewrite Hw in Hdisk; cbn [snd] in Hdisk; by rewrite Hdisk|].
    rewrite Hx in Hdisk. cbn [snd] in Hdisk. apply act_bind_Err in Hw as [Hw|(b & w2 & _ & Hw)]; [|done].
    unfold commit in Hw. destruct o as [[t0|] [t1|] [t2|]]; cbn in Hw; try done; injection Hw as _ <-; cbn; by rewrite Hdisk.
Qed.

(** *** System calls *)

Lemma run_calls_app l k x : run_calls (l ++ k) x = run_calls k (run_calls l x).
Proof. apply fold_left_app. Qed.

(** The disk after the calls of a write is that after the write. *)
Lemma calls_of_write E policy n o w :
  w_disk (after (write E policy n o) w) = visible (run_calls (write_calls E policy n o w) (quiet (w_disk w))).
Proof.
  pose proof (prepare_write_disk E policy n w) as Hd. unfold write, write_calls, outcome, after in *. unfold mbind at 1, act_bind at 1.
  destruct (prepare_write E policy n w) as [[[previous candidate]|e] w1]; cbn [fst snd] in *; [|done].
  rewrite <- Hd. unfold commit. by destruct o as [[t0|] [t1|] [t2|]].
Qed.

(** Stopped anywhere, a replacement has renamed nothing, or its whole content
    after it was synced. *)
Lemma replace_prefix t data o i k :
  let k' := run_calls (firstn i (replace_calls t data o)) k in
  k_base k' = k_base k /\ (k_renames k' = k_renames k \/ exists mtime, k_renames k' = k_renames k ++ [Renamed t (File data mtime) true]).
Proof. destruct o as [mtime|]; do 6 (destruct i as [|i]; cbn; eauto). Qed.

Definition planned (plan : list (target * string * option Z)) (r : renamed) : Prop :=
  rn_synced r = true /\ In (rn_target r, f_data (rn_file r)) (map fst plan).

Lemma plan_prefix plan i k :
  let k' := run_calls (firstn i (plan_calls plan)) k in
  k_base k' = k_base k /\ exists l, k_renames k' = k_renames k ++ l /\ Forall (planned plan) l.
Proof.
  revert i k. induction plan as [|[[t data] o] plan IH]; intros i k; cbn [plan_calls].
  { rewrite firstn_nil. split; [done|]. exists []. by rewrite app_nil_r. }
  cbv zeta. rewrite firstn_app, run_calls_app. set (rest := match o with Some _ => _ | None => _ end).
  destruct (replace_prefix t data o i k) as [Hb Hr]. set (k1 := run_calls (firstn i (replace_calls t data o)) k) in *.
  assert (forall l, Forall (planned plan) l -> Forall (planned ((t, data, o) :: plan)) l) as Hweak.
  { intros l Hl. eapply Forall_impl; [exact Hl|]. intros r [Hs Hi]. split; [done|by right]. }
  assert (exists l, Forall (planned ((t, data, o) :: plan)) l /\ k_renames k1 = k_renames k ++ l) as (l1 & Hl1 & Hk1).
  { destruct Hr as [Hr|[mtime Hr]]; [exists []; by rewrite app_nil_r|]. eexists. split; [|exact Hr]. constructor; [|done]. split; [done|by left]. }
  assert (exists l, k_base (run_calls (firstn (i - length (replace_calls t data o)) rest) k1) = k_base k1
    /\ k_renames (run_calls (firstn (i - length (replace_calls t data o)) rest) k1) = k_renames k1 ++ l /\ Forall (planned plan) l) as (l2 & Hb2 & Hl2 & Hf2).
  { destruct o; [|exists []; unfold rest; rewrite firstn_nil, app_nil_r; done]. destruct (IH (i - length (replace_calls t data (Some z)))%nat k1) as (Hb' & l & Hl & Hf).
    by exists l. }
  split; [congruence|]. exists (l1 ++ l2). split; [by rewrite Hl2, Hk1, app_assoc|]. apply Forall_app. split; [done|by apply Hweak].
Qed.

(** A crash may lose nothing but the last renames. *)
Lemma survives_prefix j k : survives k (fold_left put_file (firstn j (k_renames k)) (k_base k)).
Proof. exists j, (firstn j (k_renames k)). split; [|done]. apply Forall_Forall2_diag, Forall_true. by intros r. Qed.

(** The main file after renames: as before, or one of those renamed over it. *)
Lemma put_files_main l d :
  d_main (fold_left put_file l d) = d_main d
  \/ exists r, In r l /\ rn_target r = TMain /\ d_main (fold_left put_file l d) = Some (rn_file r).
Proof.
  revert d. induction l as [|r l IH]; intros d; [by left|]. cbn [fold_left].
  destruct (IH (put_file d r)) as [Hx|(r' & Hin & Ht & Hx)]; [|right; exists r'; split; [by right|done]].
  rewrite Hx. unfold put_file. destruct (rn_target r) eqn:Et; [right; exists r; split; [by left|done]|by left].
Qed.

(** C34. The disk that a write leaves is that after the system calls it makes; and
    a crash after any number of these calls, which keeps the content of synced
    files only and may lose the last renames, leaves a policy file that the next
    process reads as the old policy or as the new one, never as anything else. *)
Theorem write_crash_safe E E' p rules n o w old f :
  canonical_policy E p rules -> canonical_policy E' p rules -> 0 <= n ->
  d_main (w_disk w) = Some f -> holds_policy E' (f_data f) old ->
  let calls := write_calls E (VDict p) n o w in
  w_disk (after (write E (VDict p) n o) w) = visible (run_calls calls (quiet (w_disk w)))
  /\ forall i d, survives (run_calls (firstn i calls) (quiet (w_disk w))) d ->
       outcome (read E') (fresh_world d) = Ok old \/ outcome (read E') (fresh_world d) = Ok (committed n p).
Proof.
  intros Hp Hp' Hn Hf Hold calls. split; [apply calls_of_write|]. intros i d (j & l & Hl & ->).
  assert (forall l', outcome (prepare_write E (VDict p) n) w = l' -> calls = match l' with
    | Ok (previous, candidate) => plan_calls (commit_plan (encode previous) (encode candidate) o) | Err _ => [] end) as Hcalls by (by intros ? <-).
  specialize (Hcalls _ eq_refl). unfold outcome at 1 in Hcalls. destruct (prepare_write E (VDict p) n w) as [[x|e] w1] eqn:Hx; cbn [fst] in Hcalls.
  2:{ rewrite Hcalls, firstn_nil in *. cbn in *. rewrite firstn_nil in Hl. apply Forall2_nil_inv_l in Hl as ->. left. eapply fresh_read; [exact Hf|exact Hold]. }
  apply prepare_write_Ok in Hx as (previous & candidate & _ & _ & Hm & -> & Hlen). cbn [snd] in Hlen.
  rewrite (canonical_migrate E p rules Hp) in Hm.
  assert (dset "revision" (VInt (n + 1)) candidate = committed n p) as Hc by (unfold committed; congruence). rewrite Hc in *. rewrite Hcalls in *.
  set (plan := commit_plan _ _ _) in *. destruct (plan_prefix plan i (quiet (w_disk w))) as (Hb & r & Hr & Hall).
  cbn [k_base quiet k_renames app] in *. rewrite Hb. rewrite Hr in Hl.
  destruct (put_files_main l (w_disk w)) as [Hmain|(r' & Hin & Ht & Hmain)]; [left; eapply fresh_read; [by rewrite Hmain|done]|].
  right. eapply fresh_read; [exact Hmain|]. apply list_elem_of_In, list_elem_of_lookup in Hin as [m Hin].
  destruct (Forall2_lookup_r _ _ _ _ _ Hl Hin) as (r0 & Hr0 & Ht0 & Hs0).
  assert (planned plan r0) as [Hsync Hplan].
  { rewrite Forall_forall in Hall. apply Hall. apply list_elem_of_lookup_2, elem_of_take in Hr0 as (m' & Hr0 & _). by eapply list_elem_of_lookup_2. }
  rewrite (Hs0 Hsync). rewrite <- Ht0, Ht in Hplan. destruct Hplan as [[=]|[[= Hdata]|[[=]|[]]]].
  rewrite <- Hdata. by eapply encode_holds.
Qed.

(** The directory is not synced: after all calls of a write, and after it has
    returned, a crash may still leave the disk as it was before. *)
Lemma returned_write_may_be_lost E p n o w :
  survives (run_calls (write_calls E (VDict p) n o w) (quiet (w_disk w))) (w_disk w).
Proof.
  exists O, []. split; [constructor|]. unfold write_calls. destruct (outcome _ w) as [[previous candidate]|e]; [|done].
  set (plan := commit_plan _ _ _). destruct (plan_prefix plan (length (plan_calls plan)) (quiet (w_disk w))) as (Hb & _).
  rewrite firstn_all in Hb. by rewrite Hb.
Qed.

(** No lost update: after a writer has committed against revision [n], a
    second process writing against the same revision is refused, its policy
    file and revision unchanged. *)
Theorem second_writer_refused E E' p rules n o w c w' policy' o' :
  canonical_policy E p rules -> canonical_policy E' p rules -> 0 <= n ->
  write E (VDict p) n o w = (Ok c, w') ->
  let w2 := fresh_world (w_disk w') in
  outcome (write E' policy' n o') w2
    = Err (PolicyError "Policy changed. Review the current rules before applying again.")
  /\ w_disk (after (write E' policy' n o') w2) = w_disk w'.
Proof.
  intros Hp Hp' Hn (previous & candidate & w1 & t & _ & _ & Hm & Hc & Hlen & Hd & _)%write_Ok w2.
  rewrite (canonical_migrate E p rules Hp) in Hm.
  assert (c = committed n p) as -> by (unfold committed; congruence).
  assert (outcome (read E') w2 = Ok (committed n p)) as Hr.
  { eapply fresh_read; [exact Hd|]. by eapply encode_holds. }
  pose proof (read_disk E' w2) as Hdisk. unfold outcome, after in *.
  destruct (read E' w2) as [r w3] eqn:Hread. cbn in Hr, Hdisk. subst r.
  assert (prepare_write E' policy' n w2
    = (Err (PolicyError "Policy changed. Review the current rules before applying again."), w3)) as Hx.
  { unfold prepare_write, mbind, act_bind. rewrite Hread. unfold item, committed. rewrite dget_dset_eq. unfold lift.
    assert (py_eq (VInt (n + 1)) (VInt n) = false) as ->; [|done].
    cbn. unfold num_eqb, num_compare. rewrite !Z.sub_diag, !Z.shiftl_0_r.
    destruct (Z.compare_spec (n + 1) n); [lia|done..]. }
  unfold write, mbind, act_bind. rewrite Hx. by split.
Qed.

(** Reads serve validated policies only, from the file, from the last good
    one held in memory or from the recovery copy, and keep doing so; and a store
    that has a last good policy answers every read whose failure it handles. *)
Theorem read_validated E w :
  store_ok w ->
  store_ok (after (read E) w) /\ w_disk (after (read E) w) = w_disk w
  /\ (forall p, outcome (read E) w = Ok p -> validated p)
  /\ (forall q e, last_good (w_store w) = Some q -> outcome (read_main E) w = Err e ->
       read_caught e = true -> outcome (read E) w = Ok q).
Proof.
  intros Hs. pose proof (read_disk E w) as Hdisk. unfold outcome, after in *. split_and!; [|done| |].
  - unfold read, catch in *. destruct (read_main E w) as [[p|e] w1] eqn:Em; [by eapply read_main_ok|].
    apply read_main_err in Em as ->. destruct (read_caught e); [|done]. by apply fallback_ok.
  - intros p Hp. unfold read, catch in *. destruct (read_main E w) as [[q|e] w1] eqn:Em.
    { cbn in Hp. injection Hp as ->. by eapply (proj1 (read_main_ok _ _ _ _ Em Hs)). }
    apply read_main_err in Em as ->. destruct (read_caught e); [|done].
    by apply (proj2 (fallback_ok E w e Hs)).
  - intros q e Hq Em Hc. unfold read, catch. destruct (read_main E w) as [[p|e'] w1] eqn:Hm; [done|].
    cbn in Em. injection Em as ->. apply read_main_err in Hm as ->. rewrite Hc.
    unfold mbind, act_bind, set_store, modify, gets, id. cbn [w_store w_disk last_good]. by rewrite Hq.
Qed.
End claims.

(** ** Instances *)

Lemma example_canonical : canonical_policy example_env example_policy [RApp example_rule].
Proof.
  split.
  - split; try reflexivity. exists 3. done.
  - reflexivity.
  - constructor; [|done]. split; [exact example_rule_wf|]. split; [exact example_fits|]. by split.
  - constructor; [intros Hx; inversion Hx|constructor].
  - done.
  - by vm_compute.
Qed.

Definition example_outcomes : outcomes := Outcomes (Some 11) (Some 12) None.

Definition example_world : world := fresh_world (Disk (Some (File (encode example_policy) 5)) None).

Lemma write_then_read_witness :
  exists c w', write example_env (VDict example_policy) 3 example_outcomes example_world = (Ok c, w')
    /\ outcome (read example_env) (fresh_world (w_disk w')) = Ok c.
Proof.
  do 2 eexists. split; [vm_compute; reflexivity|].
  eapply (write_then_read example_env example_env example_policy [RApp example_rule] 3 example_outcomes example_world);
    [exact example_canonical|exact example_canonical|done|vm_compute; reflexivity].
Defined.

Lemma example_holds : holds_policy example_env (encode example_policy) (policy_defaults example_policy).
Proof. intros limit. vm_compute. reflexivity. Qed.

(** The crash comes after the new file was synced and renamed; the recovery copy
    is not renamed yet. *)
Definition crashed_disk : disk := Disk (Some (File (encode (committed 3 example_policy)) 12)) (Some (File (encode (policy_defaults example_policy)) 11)).

Lemma write_crash_safe_witness :
  survives (run_calls (firstn 12 (write_calls example_env (VDict example_policy) 3 example_outcomes example_world)) (quiet (w_disk example_world))) crashed_disk
  /\ (outcome (read example_env) (fresh_world crashed_disk) = Ok (policy_defaults example_policy)
      \/ outcome (read example_env) (fresh_world crashed_disk) = Ok (committed 3 example_policy)).
Proof.
  assert (survives (run_calls (firstn 12 (write_calls example_env (VDict example_policy) 3 example_outcomes example_world)) (quiet (w_disk example_world)))
    crashed_disk) as Hs.
  { pose proof (survives_prefix 2 (run_calls (firstn 12 (write_calls example_env (VDict example_policy) 3 example_outcomes example_world))
      (quiet (w_disk example_world)))) as Hs. vm_compute in Hs |- *. exact Hs. }
  split; [exact Hs|].
  destruct (write_crash_safe example_env example_env example_policy [RApp example_rule] 3 example_outcomes example_world
    (policy_defaults example_policy) (File (encode example_policy) 5)) as [_ Hcrash];
    [exact example_canonical|exact example_canonical|done|reflexivity|exact example_holds|].
  exact (Hcrash 12%nat crashed_disk Hs).
Defined.

Lemma second_writer_refused_witness :
  exists c w', write example_env (VDict example_policy) 3 example_outcomes example_world = (Ok c, w')
    /\ outcome (write example_env (VDict example_policy) 3 example_outcomes) (fresh_world (w_disk w'))
       = Err (PolicyError "Policy changed. Review the current rules before applying again.").
Proof.
  do 2 eexists. split; [vm_compute; reflexivity|].
  eapply (second_writer_refused example_env example_env example_policy [RApp example_rule] 3 example_outcomes
    example_world);
    [exact example_canonical|exact example_canonical|done|vm_compute; reflexivity].
Defined.

Lemma read_validated_witness :
  store_ok example_world /\ store_ok (after (read example_env) example_world).
Proof.
  assert (store_ok example_world) as Hs by done.
  split; [exact Hs|]. exact (proj1 (read_validated example_env example_world Hs)).
Defined.
