(* ===== verification/Firewall.v ===== *)
(** * The firewalld adapter ([network_firewall.py])

    Compilation of incoming rules to native rich rules, the owned native
    entries of a rule list, and the capture, replacement and restoration of
    those entries through firewalld, which is an interface here. *)
From S2P Require Import Prelude PyVal PyStr NetworkRules.

Inductive plane := Runtime | Permanent.
#[export] Instance plane_eq_dec : EqDecision plane.
Proof. solve_decision. Defined.

Definition plane_str (p : plane) : string := match p with Runtime => "runtime" | Permanent => "permanent" end.
(** [self.runtime if plane == 'runtime' else self.permanent(zone)]. *)
Definition plane_of (v : val) : plane := if is_str "runtime" v then Runtime else Permanent.

(** A native rule of a zone in one plane of firewalld. *)
Definition key : Type := string * string * plane.

(** The D-Bus calls of firewalld on its state [P]; [fd_open] is the lookup of
    the permanent configuration of a zone. [fd_rich_text] is
    [str(Rich_Rule(rule_str=...))]. *)
Class Firewalld (P : Type) := {
  fd_open : string -> act P unit;
  fd_rich : string -> plane -> act P (list string);
  fd_services : string -> plane -> act P (list string);
  fd_ports : string -> plane -> act P (list (string * string));
  fd_change : plane -> string -> string -> bool -> Z -> act P unit;
  fd_zones : act P (list string);
  fd_active_zones : act P (list string);
  fd_service_names : act P (list string);
  fd_definition : string -> act P dict;
  fd_time : P -> val;
  fd_monotonic : P -> Z;
  fd_rich_text : string -> res string;
}.

(** [v > w] on timestamps; a deadline has passed when it is not later than the
    clock. *)
Definition py_gt (v w : val) : res bool := ge ← py_ge v w; le ← py_ge w v; Ok (ge && negb le).

Definition passed (deadline now : val) : Prop := py_gt deadline now = Ok false.

(** What the adapter relies on: reading changes nothing and is accurate, a
    change request affects no other entry. A request may fail, or be accepted
    and have no effect. The clock is not set back while requests are made. *)
Class FirewalldOk (P : Type) `{Firewalld P} := {
  fd_has : P -> key -> bool;
  fd_open_frame : forall z p k, fd_has (after (fd_open z) p) k = fd_has p k;
  fd_rich_frame : forall z pl p k, fd_has (after (fd_rich z pl) p) k = fd_has p k;
  fd_rich_exact : forall z pl p l n, outcome (fd_rich z pl) p = Ok l ->
    existsb (String.eqb n) l = fd_has p (z, n, pl);
  fd_change_frame : forall pl z n r s p k, k <> (z, n, pl) ->
    fd_has (after (fd_change pl z n r s) p) k = fd_has p k;
  fd_catalog_frame : forall p k,
    fd_has (after fd_service_names p) k = fd_has p k /\ fd_has (after fd_zones p) k = fd_has p k
    /\ forall name, fd_has (after (fd_definition name) p) k = fd_has p k;
  fd_open_later : forall z p d, passed d (fd_time p) -> passed d (fd_time (after (fd_open z) p));
  fd_rich_later : forall z pl p d, passed d (fd_time p) -> passed d (fd_time (after (fd_rich z pl) p));
  fd_change_later : forall pl z n r s p d, passed d (fd_time p) -> passed d (fd_time (after (fd_change pl z n r s) p));
}.

(** An entry owned by a rule: its key and its [expires_at]. *)
Record entry := Entry { e_zone : string; e_native : string; e_plane : plane; e_expires : val }.

Definition e_key (e : entry) : key := (e_zone e, e_native e, e_plane e).

(** [a == b] on the tuples of the source. *)
Definition entry_eqb (a b : entry) : bool :=
  bool_decide (e_key a = e_key b) && py_eq (e_expires a) (e_expires b).

Definition entry_in (e : entry) (l : list entry) : bool := existsb (entry_eqb e) l.

(** [l - k] and [l.symmetric_difference(k)] on sets of entries. *)
Definition minus (l k : list entry) : list entry := List.filter (fun e => negb (entry_in e k)) l.
Definition sym_diff (l k : list entry) : list entry := minus l k ++ minus k l.

(** The order of [sorted(..., key=lambda e: e[:3])]. *)
Definition key_leb (a b : key) : bool :=
  let '(z, n, p) := a in let '(z', n', p') := b in
  match String.compare z z' with
  | Lt => true | Gt => false
  | Eq => match String.compare n n' with
          | Lt => true | Gt => false
          | Eq => string_leb (plane_str p) (plane_str p')
          end
  end.
Definition sort_entries (l : list entry) : list entry := sort_by (fun a b => key_leb (e_key a) (e_key b)) l.

(** A field that is formatted into text. *)
Definition item_str (k : string) (d : dict) : res string :=
  v ← item k d; match v with VStr s => Ok s | _ => Err TypeError end.

Definition is_incoming (r : dict) : bool := is_str "incoming" (get "provider" r).

(** [v - w] on timestamps; [math.ceil]. *)
Definition py_sub (v w : val) : res val :=
  match v, w with
  | VInt a, VInt b => Ok (VInt (a - b))
  | VInt a, VFloat g => f ← float_of_int a; Ok (VFloat (SFsub prec64 emax64 f g))
  | VFloat f, VInt b => g ← float_of_int b; Ok (VFloat (SFsub prec64 emax64 f g))
  | VFloat f, VFloat g => Ok (VFloat (SFsub prec64 emax64 f g))
  | _, _ => Err TypeError
  end.

Definition math_ceil (v : val) : res Z :=
  match v with
  | VInt z => Ok z
  | VFloat (S754_finite s m e) =>
      let a := if s then Z.neg m else Z.pos m in
      Ok (if 0 <=? e then Z.shiftl a e else - ((- a) / 2 ^ (- e)))
  | VFloat (S754_zero _) => Ok 0
  | VFloat S754_nan => Err (ValueError "cannot convert float NaN to integer")
  | VFloat (S754_infinity _) => Err OverflowError
  | _ => Err TypeError
  end.

Section firewall.
Context {P : Type} `{Firewalld P} `{Host}.

(** ** Native rules *)

(** Double quotes around a text. *)
Definition dq (s : string) : string :=
  String (ascii_of_N 34) (s +:+ String (ascii_of_N 34) "").

Definition port_text (r : val) : res string :=
  match r with
  | VList [VInt a; VInt b] => Ok (if a =? b then str_of_Z a else str_of_Z a +:+ "-" +:+ str_of_Z b)
  | _ => Err TypeError
  end.

Definition rule_elements (rule : dict) : res (list string) :=
  service ← item_str "service" rule;
  if negb (String.eqb service "") then Ok ["service name=" +:+ dq service]
  else
    ports ← (ports ← item "ports" rule; as_list ports);
    protocols ← (protocols ← item "protocols" rule; as_list protocols);
    elements ← mapM_res (fun r => p ← port_text r;
      mapM_res (fun protocol => match protocol with
        | VStr t => Ok ("port port=" +:+ dq p +:+ " protocol=" +:+ dq t)
        | _ => Err TypeError end) protocols) ports;
    Ok (concat elements).

(** [rich_rules(rule, position)]. *)
Definition rich_rules (rule : dict) (position : Z) : res (list string) :=
  family ← item_str "family" rule;
  let families := if String.eqb family "any" then ["ipv4"; "ipv6"] else [family] in
  source ← item_str "source" rule;
  elements ← rule_elements rule;
  action ← item_str "action" rule;
  let entries := concat (map (fun family =>
    let prefix := "rule family=" +:+ dq family +:+ " priority=" +:+ dq (str_of_Z (-20000 + position))
                  +:+ (if String.eqb source "" then "" else " source address=" +:+ dq source) in
    map (fun element => prefix +:+ " " +:+ element
                        +:+ (if String.eqb action "allow" then " accept" else " drop")) elements) families) in
  mapM_res fd_rich_text entries.

(** [found.add(e)]. *)
Definition add_entry (found : list entry) (e : entry) : list entry :=
  if entry_in e found then found else found ++ [e].

Definition incoming_rules (rules : list dict) : list (Z * dict) :=
  imap (fun i r => (Z.of_nat i, r)) (List.filter is_incoming rules).

Definition entries_of (E : env) (found : list entry) (ir : Z * dict) : res (list entry) :=
  let '(index, rule) := ir in
  state ← lifecycle E rule VNone VNone;
  if negb (bool_decide (state = SAVED)) then Ok found else
  natives ← rich_rules rule index;
  zone ← item_str "zone" rule;
  lifetime ← item "lifetime" rule;
  Ok (fold_left (fun found native =>
        let found := add_entry found (Entry zone native Runtime (get "expires_at" rule)) in
        if is_str "permanent" lifetime then add_entry found (Entry zone native Permanent VNone) else found)
      natives found).

(** [Firewall.entries(rules)]. *)
Definition entries (E : env) (rules : list dict) : res (list entry) :=
  foldM (entries_of E) [] (incoming_rules rules).

(** ** Talking to firewalld *)

(** [set(str(r) for r in provider.getRichRules(...))], the provider looked up
    for the plane. *)
Definition provider_of (z : string) (pl : plane) : act P unit :=
  match pl with Runtime => mret tt | Permanent => fd_open z end.

Definition actual_rules (z : string) (pl : plane) : act P (list string) := fd_rich z pl.

Definition has_rule (n : string) (l : list string) : bool := existsb (String.eqb n) l.

(** ** Capture *)

Definition record_val (z n : string) (pl : plane) (present : bool) (expires : val) : val :=
  VDict (dlit [("zone", VStr z); ("rule", VStr n); ("plane", VStr (plane_str pl));
               ("present", VBool present); ("expires_at", expires)]).

(** [snapshots[key]], read once per zone and plane. *)
Definition snapshot (snaps : list (string * plane * list string)) (z : string) (pl : plane)
  : act P (list string * list (string * plane * list string)) :=
  match List.find (fun s => bool_decide (s.1 = (z, pl))) snaps with
  | Some s => mret (s.2, snaps)
  | None =>
      _ ← provider_of z pl;
      l ← actual_rules z pl;
      mret (l, snaps ++ [(z, pl, l)])
  end.

Definition old_expiry (old : list entry) (k : key) : val :=
  match List.find (fun e => bool_decide (e_key e = k)) old with Some e => e_expires e | None => VNone end.

Fixpoint capture_loop (old : list entry) (l : list entry) (seen : list key)
    (snaps : list (string * plane * list string)) : act P (list val) :=
  match l with
  | [] => mret []
  | e :: l =>
      if existsb (fun k => bool_decide (k = e_key e)) seen then capture_loop old l seen snaps
      else
        '(rules, snaps) ← snapshot snaps (e_zone e) (e_plane e);
        records ← capture_loop old l (e_key e :: seen) snaps;
        mret (record_val (e_zone e) (e_native e) (e_plane e) (has_rule (e_native e) rules)
                (old_expiry old (e_key e)) :: records)
  end.

(** [Firewall.capture(before, after)]. *)
Definition capture (E : env) (before after : list dict) : act P (list val) :=
  old ← lift (entries E before);
  new ← lift (entries E after);
  let changed := sym_diff old new in
  _ ← lift (require (negb (128 <? Z.of_nat (length changed)))
        (PolicyError "Apply incoming changes in smaller batches (at most 128 native changes)."));
  capture_loop old (sort_entries changed) [] [].

(** ** Restore *)

Definition seconds_left (expires now : val) : res Z :=
  if truthy expires then d ← py_sub expires now; s ← math_ceil d; Ok (Z.max 1 s) else Ok 0.

Definition still_present (record : dict) (now : val) : res bool :=
  present ← item "present" record;
  if negb (truthy present) then Ok false else
  expires ← item "expires_at" record;
  if negb (truthy expires) then Ok true else py_gt expires now.

Definition restore_one (r : val) : act P unit :=
  record ← lift (as_dict r);
  zone ← lift (item_str "zone" record);
  native ← lift (item_str "rule" record);
  plane ← lift (item "plane" record);
  let pl := plane_of plane in
  _ ← provider_of zone pl;
  actual ← actual_rules zone pl;
  now ← gets fd_time;
  present ← lift (still_present record now);
  _ ← (if Bool.eqb (has_rule native actual) present then mret tt
       else
         now ← gets fd_time;
         expires ← lift (item "expires_at" record);
         seconds ← lift (seconds_left expires now);
         fd_change pl zone native (negb present) seconds);
  actual ← actual_rules zone pl;
  if Bool.eqb (has_rule native actual) present then mret tt
  else raise (PolicyError "firewalld did not confirm rollback.").

(** [except Exception]. *)
Definition any_exception (e : exn) : bool := true.

(** The loop of [restore]: whether some record failed. *)
Fixpoint restore_loop (l : list val) (failed : bool) : act P bool :=
  match l with
  | [] => mret failed
  | r :: l =>
      failed ← catch (_ ← restore_one r; mret failed) any_exception (fun _ => mret true);
      restore_loop l failed
  end.

(** [Firewall.restore(records)]. *)
Definition restore (records : list val) : act P unit :=
  failed ← restore_loop (rev records) false;
  lift (require (negb failed)
    (PolicyError "Incoming-access rollback is INCOMPLETE; its recovery journal is retained.")).

(** ** Replace *)

(** A completed change and the request that reverses it. *)
Definition done_change : Type := entry * bool * Z.

Definition lift_p {A} (m : act P A) : act (P * list done_change) A := fun s =>
  let '(r, p) := m s.1 in (r, (p, s.2)).

Definition change_one (remove : bool) (e : entry) : act (P * list done_change) unit :=
  _ ← lift_p (provider_of (e_zone e) (e_plane e));
  actual ← lift_p (actual_rules (e_zone e) (e_plane e));
  if remove && negb (has_rule (e_native e) actual) then mret tt
  else if negb remove && has_rule (e_native e) actual then
    raise (PolicyError "An identical external firewall rule already exists; it was not adopted or changed.")
  else
    now ← lift_p (gets fd_time);
    seconds ← lift (seconds_left (e_expires e) now);
    _ ← lift_p (fd_change (e_plane e) (e_zone e) (e_native e) remove seconds);
    _ ← modify (fun s => (s.1, s.2 ++ [(e, negb remove, seconds)]));
    actual ← lift_p (actual_rules (e_zone e) (e_plane e));
    if Bool.eqb (has_rule (e_native e) actual) remove
    then raise (PolicyError "firewalld did not confirm the requested rule change.")
    else mret tt.

(** The reversal of the completed changes, latest first: whether one failed. *)
Fixpoint roll_back (l : list done_change) (failed : bool) : act P bool :=
  match l with
  | [] => mret failed
  | (e, remove, seconds) :: l =>
      failed ← catch (_ ← fd_change (e_plane e) (e_zone e) (e_native e) remove seconds; mret failed)
                 any_exception (fun _ => mret true);
      roll_back l failed
  end.

Definition change_all (old new : list entry) : act (P * list done_change) unit :=
  _ ← each (change_one true) (sort_entries (minus old new));
  each (change_one false) (sort_entries (minus new old)).

(** The [try] statement of [replace]: the changes, reversed on failure. *)
Definition change_or_roll_back (old new : list entry) : act P unit := fun p =>
  match change_all old new (p, []) with
  | (Ok _, (p', _)) => (Ok tt, p')
  | (Err e, (p', completed)) =>
      (failed ← roll_back (rev completed) false;
       if failed : bool
       then raise (PolicyError "Firewall apply failed; rollback is INCOMPLETE. Review incoming access.")
       else raise e) p'
  end.

(** The zones and services a rule list may name: the part of [catalog()] that
    [replace] and [prepare] consult. *)
Definition installed (rules : list dict) (zones services : list string) : res unit :=
  foldM (fun _ rule =>
    if is_incoming rule then
      zone ← item_str "zone" rule;
      service ← (if existsb (String.eqb zone) zones then item_str "service" rule else Ok "");
      require (existsb (String.eqb zone) zones
               && (String.eqb service "" || existsb (String.eqb service) services))
        (PolicyError "The selected zone or service is no longer installed.")
    else Ok tt) tt rules.

(** [Firewall.replace(before, after)], given the catalog it read. *)
Definition replace_with (E : env) (zones services : list string) (before after : list dict) : act P unit :=
  _ ← lift (installed after zones services);
  old ← lift (entries E before);
  new ← lift (entries E after);
  _ ← lift (require (negb (128 <? Z.of_nat (length (sym_diff old new))))
        (PolicyError "Apply incoming changes in smaller batches."));
  change_or_roll_back old new.
End firewall.

(** * Catalog, observation and external rules of firewalld

    The read-only operations of the adapter: the cached service catalog, the
    observed state of incoming rules and the rules of other owners; and
    [replace], which consults the catalog first. *)

(** [self._definition_cache]: deadline, names and details. *)
Definition cache : Type := option (Z * list string * list val).

Record catalog_data := Catalog {
  cat_zones : list string;
  cat_services : list string;
  cat_details : list val;
  cat_incomplete : bool;
}.

Section views.
Context {P : Type} `{Firewalld P} `{Host}.

Definition SECOND : Z := 1000000000.

Definition on_p {A} (m : act P A) : act (P * cache) A := fun s =>
  let '(r, p) := m s.1 in (r, (p, s.2)).

Definition port_pair (v : val) : res val :=
  match v with
  | VList [VStr p; VStr protocol] => Ok (VList [VStr p; VStr protocol])
  | _ => Err (ValueError "not enough values to unpack")
  end.

(** One entry of the catalog from the definition of a service. *)
Definition service_detail (name : string) (definition : dict) : res val :=
  all_ports ← as_list (getd "ports" (VList []) definition);
  ports ← mapM_res port_pair (take 64 all_ports);
  let complex_scope := existsb (fun k => truthy (get k definition))
    ["protocols"; "source_ports"; "destinations"; "includes"; "helpers"; "modules"] in
  let truncated := 64 <? Z.of_nat (length all_ports) in
  let label := match py_or (get "short" definition) (VStr name) with VStr s => s | _ => name end in
  let description := match getd "description" (VStr "") definition with VStr s => s | _ => "" end in
  Ok (VDict (dlit [("id", VStr name); ("label", VStr (str_take 120 label));
    ("description", VStr (str_take 280 description)); ("ports", VList ports);
    ("simple", VBool (match ports with [] => false | _ => true end && negb complex_scope && negb truncated));
    ("additional_conditions", VBool (complex_scope || truncated))])).

(** The definitions read before the deadline; a failing one is left out. *)
Fixpoint read_details (names : list string) (deadline : Z) (details : list val) : act P (list val) :=
  match names with
  | [] => mret details
  | name :: names =>
      t ← gets fd_monotonic;
      if deadline <=? t then mret details
      else
        details ← catch (definition ← fd_definition name;
                         detail ← lift (service_detail name definition);
                         mret (details ++ [detail])) any_exception (fun _ => mret details);
        read_details names deadline details
  end.

Definition string_sort (l : list string) : list string := sort_by string_leb l.

(** [Firewall.catalog()]. *)
Definition catalog : act (P * cache) catalog_data :=
  names ← on_p fd_service_names;
  let names := string_sort names in
  _ ← lift (require (negb (1024 <? Z.of_nat (length names)))
        (PolicyError "The installed service catalog exceeds its bounded capacity."));
  s ← gets id;
  now ← on_p (gets fd_monotonic);
  details ← match s.2 with
            | Some (deadline, cached, details) =>
                if (now <=? deadline) && bool_decide (cached = names) then mret (Some details) else mret None
            | None => mret None
            end;
  details ← match details with
            | Some details => mret details
            | None =>
                details ← on_p (t ← gets fd_monotonic; read_details names (t + 2 * SECOND) []);
                t ← on_p (gets fd_monotonic);
                _ ← modify (fun s => (s.1, Some (t + 30 * SECOND, names, details)));
                mret details
            end;
  zones ← on_p fd_zones;
  mret (Catalog (string_sort zones) names details (negb (length details =? length names)%nat)).

(** [Firewall.replace(before, after)]. *)
Definition replace (E : env) (before after : list dict) : act (P * cache) unit :=
  c ← catalog;
  on_p (replace_with E (cat_zones c) (cat_services c) before after).

(** ** Observation *)

Definition subset (l k : list string) : bool := forallb (fun s => has_rule s k) l.

Fixpoint observe_loop (E : env) (rules : list (Z * dict)) (snaps : list (string * (list string * list string)))
    (result : dict) : act P dict :=
  match rules with
  | [] => mret result
  | (index, rule) :: rules =>
      state ← lift (lifecycle E rule VNone VNone);
      '(state, snaps) ←
        (if bool_decide (state = SAVED) then
           expected ← lift (rich_rules rule index);
           zone ← lift (item_str "zone" rule);
           '(planes, snaps) ← match dget zone snaps with
             | Some planes => mret (planes, snaps)
             | None =>
                 runtime ← actual_rules zone Runtime;
                 _ ← provider_of zone Permanent;
                 permanent ← actual_rules zone Permanent;
                 mret ((runtime, permanent), dset zone (runtime, permanent) snaps)
             end;
           lifetime ← lift (item "lifetime" rule);
           mret (if subset expected planes.1 && (negb (is_str "permanent" lifetime) || subset expected planes.2)
                 then "LOADED" else "SAVED", snaps)
         else mret (life_str state, snaps));
      identifier ← lift (item_str "id" rule);
      observe_loop E rules snaps (dset identifier (VStr state) result)
  end.

(** [Firewall.observe(rules)]. *)
Definition observe (E : env) (rules : list dict) : act P dict :=
  observe_loop E (incoming_rules rules) [] [].

(** ** Rules of other owners *)

(** The dictionary of records, keyed by zone, kind and value, in order of first
    appearance. *)
Record external_record := External {
  x_zone : string; x_kind : string; x_value : string; x_runtime : bool; x_permanent : bool
}.

Definition mark (zone : string) (pl : plane) (records : list external_record) (kv : string * string)
  : list external_record :=
  let '(kind, value) := kv in
  let same r := String.eqb (x_zone r) zone && String.eqb (x_kind r) kind && String.eqb (x_value r) value in
  let set r := match pl with
               | Runtime => External (x_zone r) (x_kind r) (x_value r) true (x_permanent r)
               | Permanent => External (x_zone r) (x_kind r) (x_value r) (x_runtime r) true
               end in
  if existsb same records then map (fun r => if same r then set r else r) records
  else records ++ [set (External zone kind value false false)].

Definition zone_values (own : list entry) (zone : string) (pl : plane) : act P (list (string * string)) :=
  _ ← provider_of zone pl;
  services ← fd_services zone pl;
  ports ← fd_ports zone pl;
  rich ← actual_rules zone pl;
  let foreign := List.filter (fun n => negb (existsb (fun e => bool_decide (e_key e = (zone, n, pl))) own)) rich in
  mret (take 256 (map (fun v => ("service", v)) services
                  ++ map (fun v => ("port", v.1 +:+ "/" +:+ v.2)) ports
                  ++ map (fun v => ("rich", v)) foreign)).

Fixpoint external_loop (own : list entry) (targets : list (string * plane)) (records : list external_record)
  : act P (list external_record) :=
  match targets with
  | [] => mret records
  | (zone, pl) :: targets =>
      values ← zone_values own zone pl;
      external_loop own targets (fold_left (mark zone pl) values records)
  end.

Definition external_val (r : external_record) : val :=
  VDict (dlit [("owner", VStr "firewalld"); ("zone", VStr (x_zone r)); ("kind", VStr (x_kind r));
    ("value", VStr (str_take 1000 (x_value r))); ("mutable", VBool false);
    ("runtime", VBool (x_runtime r)); ("permanent", VBool (x_permanent r))]).

(** [Firewall.external(rules)]. *)
Definition external (E : env) (rules : list dict) : act P val :=
  own ← lift (entries E rules);
  zones ← fd_active_zones;
  let targets := concat (map (fun z => [(z, Runtime); (z, Permanent)]) (take 16 (string_sort zones))) in
  records ← external_loop own targets [];
  mret (VDict (dlit [("rules", VList (map external_val (take 128 records)));
                     ("truncated", VBool (128 <? Z.of_nat (length records)))])).
End views.
