(* ===== verification/FirewallClaims.v ===== *)
(** * The firewalld adapter: lemmas

    Which native entries an operation can affect, and what a successful one
    establishes. *)
From S2P Require Import Prelude PyVal PyStr NetworkRules Firewall IpAddr RuleSpec RuleClaims.

(** ** Frames

    [m] leaves every key outside [K] as it is, whether it returns or raises. *)
Section keeps.
Context {S : Type} (has : S -> key -> bool).

Definition keeps (K : key -> Prop) {A} (m : act S A) : Prop :=
  forall s k, ~ K k -> has (after m s) k = has s k.

Lemma keeps_weaken (K K' : key -> Prop) {A} (m : act S A) :
  (forall k, K k -> K' k) -> keeps K m -> keeps K' m.
Proof. intros HK Hm s k Hk. apply Hm. naive_solver. Qed.

Lemma keeps_ret K {A} (a : A) : keeps K (mret a : act S A).
Proof. done. Qed.

Lemma keeps_lift K {A} (r : res A) : keeps K (lift r : act S A).
Proof. done. Qed.

Lemma keeps_raise K {A} e : keeps K (raise e : act S A).
Proof. done. Qed.

Lemma keeps_gets K {A} (f : S -> A) : keeps K (gets f).
Proof. done. Qed.

Lemma keeps_bind K {A B} (m : act S A) (f : A -> act S B) :
  keeps K m -> (forall a, keeps K (f a)) -> keeps K (m ≫= f).
Proof.
  intros Hm Hf s k Hk. specialize (Hm s k Hk). unfold after, mbind, act_bind in *.
  destruct (m s) as [[a|e] s1]; [|done]. rewrite <- Hm. by apply Hf.
Qed.

Lemma keeps_catch K {A} (m : act S A) p h :
  keeps K m -> (forall e, keeps K (h e)) -> keeps K (catch m p h).
Proof.
  intros Hm Hh s k Hk. specialize (Hm s k Hk). unfold after, catch in *.
  destruct (m s) as [[a|e] s1]; [done|]. destruct (p e); [|done]. rewrite <- Hm. by apply Hh.
Qed.

Lemma keeps_each K {A} (f : A -> act S unit) l :
  (forall x, In x l -> keeps K (f x)) -> keeps K (each f l).
Proof.
  induction l as [|x l IH]; intros Hf; [apply keeps_ret|]. cbn [each].
  apply keeps_bind; [apply Hf; by left|]. intros _. apply IH. intros y Hy. apply Hf. by right.
Qed.
End keeps.

Definition no_key (k : key) : Prop := False.

(** ** The adapter *)

Section props.
Context {P : Type} `{FirewalldOk P} `{Host}.

Definition has2 {A} (s : P * A) (k : key) : bool := fd_has s.1 k.

Lemma keeps_rich z pl : keeps fd_has no_key (fd_rich z pl).
Proof. intros p k _. apply fd_rich_frame. Qed.

Lemma keeps_provider z pl : keeps fd_has no_key (provider_of z pl).
Proof. destruct pl; [apply keeps_ret|]. intros p k _. apply fd_open_frame. Qed.

Lemma keeps_change pl z n r s : keeps fd_has (eq (z, n, pl)) (fd_change pl z n r s).
Proof. intros p k Hk. apply fd_change_frame. congruence. Qed.

Lemma keeps_lift_p K {A} (m : act P A) : keeps fd_has K m -> keeps has2 K (lift_p m).
Proof.
  intros Hm [p d] k Hk. specialize (Hm p k Hk). unfold has2, after, lift_p in *. cbn [fst].
  by destruct (m p).
Qed.

Lemma any_keeps {A} K (m : act P A) : keeps fd_has no_key m -> keeps fd_has K m.
Proof. by apply keeps_weaken. Qed.

Lemma change_one_keeps remove e : keeps has2 (eq (e_key e)) (change_one remove e).
Proof.
  unfold change_one. apply keeps_bind; [by apply keeps_lift_p, any_keeps, keeps_provider|intros _].
  apply keeps_bind; [by apply keeps_lift_p, any_keeps, keeps_rich|intros actual].
  destruct (remove && _); [apply keeps_ret|]. destruct (_ && _); [apply keeps_raise|].
  apply keeps_bind; [by apply keeps_lift_p, keeps_gets|intros now].
  apply keeps_bind; [apply keeps_lift|intros seconds].
  apply keeps_bind; [by apply keeps_lift_p, keeps_change|intros _].
  apply keeps_bind; [by intros [p d] k Hk|intros _].
  apply keeps_bind; [by apply keeps_lift_p, any_keeps, keeps_rich|intros after].
  destruct (Bool.eqb _ _); [apply keeps_raise|apply keeps_ret].
Qed.

(** What reading the rules of a zone says about an entry. *)
Lemma rich_has z pl p l p' n :
  fd_rich z pl p = (Ok l, p') -> has_rule n l = fd_has p (z, n, pl) /\ fd_has p' (z, n, pl) = fd_has p (z, n, pl).
Proof.
  intros Hr. split.
  - apply fd_rich_exact. unfold outcome. by rewrite Hr.
  - rewrite <- (fd_rich_frame z pl p). unfold after. by rewrite Hr.
Qed.

Lemma lift_p_Ok {A} (m : act P A) s a s' :
  lift_p m s = (Ok a, s') -> exists p', m s.1 = (Ok a, p') /\ s' = (p', s.2).
Proof. unfold lift_p. destruct (m s.1) as [[b|e] p']; intros [= <- <-]. eauto. Qed.

(** A change that returns has been confirmed. *)
Lemma change_one_Ok remove e s u s' :
  change_one remove e s = (Ok u, s') -> fd_has s'.1 (e_key e) = negb remove.
Proof.
  unfold change_one. intros Hc. apply act_bind_Ok in Hc as (? & s1 & _ & Hc).
  apply act_bind_Ok in Hc as (actual & s2 & Ha & Hc). apply lift_p_Ok in Ha as (p2 & Ha & ->).
  destruct (rich_has _ _ _ _ _ (e_native e) Ha) as [Hin Hsame].
  destruct (remove && negb (has_rule (e_native e) actual)) eqn:E1.
  { injection Hc as <- <-. apply andb_true_iff in E1 as [-> Hno%negb_true_iff]. cbn [fst]. unfold e_key.
    by rewrite Hsame, <- Hin. }
  destruct (negb remove && has_rule (e_native e) actual) eqn:E2; [done|].
  apply act_bind_Ok in Hc as (now & s3 & _ & Hc). apply act_bind_Ok in Hc as (seconds & s4 & _ & Hc).
  apply act_bind_Ok in Hc as (? & s5 & _ & Hc). apply act_bind_Ok in Hc as (? & s6 & _ & Hc).
  apply act_bind_Ok in Hc as (actual2 & s7 & Ha2 & Hc). apply lift_p_Ok in Ha2 as (p7 & Ha2 & ->).
  destruct (rich_has _ _ _ _ _ (e_native e) Ha2) as [Hin2 Hsame2].
  destruct (Bool.eqb (has_rule (e_native e) actual2) remove) eqn:E3; [done|]. injection Hc as <- <-.
  cbn [fst]. unfold e_key. rewrite Hsame2, <- Hin2.
  by destruct (has_rule _ actual2), remove.
Qed.

(** The loops of [replace]. *)
Lemma each_change_Ok remove l s u s' :
  each (change_one remove) l s = (Ok u, s') ->
  forall k, fd_has s'.1 k = if existsb (fun e => bool_decide (e_key e = k)) l then negb remove else fd_has s.1 k.
Proof.
  revert s; induction l as [|e l IH]; intros s; cbn [each].
  - intros [= <- <-] k. done.
  - intros Hc k. apply act_bind_Ok in Hc as (u' & s1 & Hq1 & Hq2). rewrite (IH _ Hq2 k). cbn [existsb].
    destruct (existsb _ l); [by rewrite orb_true_r|]. rewrite orb_false_r.
    destruct (bool_decide_reflect (e_key e = k)) as [<-|Hne].
    + by eapply change_one_Ok.
    + pose proof (change_one_keeps remove e s k Hne) as Hk. unfold has2, after in Hk. by rewrite Hq1 in Hk.
Qed.

Definition keys (l : list entry) : list key := map e_key l.

Lemma keys_sorted l k : existsb (fun e => bool_decide (e_key e = k)) (sort_entries l) = bool_decide (k ∈ keys l).
Proof.
  apply eq_true_iff_eq. rewrite existsb_exists, bool_decide_eq_true. unfold sort_entries, keys.
  setoid_rewrite sort_by_In. rewrite list_elem_of_In, in_map_iff.
  split; intros (e & He & Hk); exists e; [apply bool_decide_eq_true in Hk | rewrite bool_decide_eq_true]; tauto.
Qed.

Lemma change_all_Ok old new s u s' :
  change_all old new s = (Ok u, s') ->
  forall k, fd_has s'.1 k =
    if bool_decide (k ∈ keys (minus new old)) then true
    else if bool_decide (k ∈ keys (minus old new)) then false else fd_has s.1 k.
Proof.
  unfold change_all. intros Hc k. apply act_bind_Ok in Hc as (u' & s1 & Hq1 & Hq2).
  rewrite (each_change_Ok _ _ _ _ _ Hq2 k), keys_sorted, (each_change_Ok _ _ _ _ _ Hq1 k), keys_sorted. done.
Qed.

Definition changed_keys (old new : list entry) (k : key) : Prop := k ∈ keys (sym_diff old new).

Lemma sym_diff_keys old new k :
  k ∈ keys (sym_diff old new) <-> k ∈ keys (minus old new) \/ k ∈ keys (minus new old).
Proof. unfold keys, sym_diff. by rewrite map_app, elem_of_app. Qed.

Lemma change_all_keeps old new : keeps has2 (changed_keys old new) (change_all old new).
Proof.
  unfold change_all. apply keeps_bind; [|intros _]; apply keeps_each; intros e He;
    apply (keeps_weaken has2 (eq (e_key e))); try apply change_one_keeps; intros k <-;
    apply sym_diff_keys; unfold sort_entries in He; apply sort_by_In in He;
    [left|right]; apply list_elem_of_In, in_map_iff; by exists e.
Qed.

(** The completed changes are changes of the requested entries. *)
Definition done_in (K : key -> Prop) (d : list done_change) : Prop := Forall (fun c => K (e_key c.1.1)) d.

Lemma lift_p_done {A} (m : act P A) s : (after (lift_p m) s).2 = s.2.
Proof. unfold after, lift_p. by destruct (m s.1). Qed.

Lemma change_one_done K remove e s :
  K (e_key e) -> done_in K s.2 -> done_in K (after (change_one remove e) s).2.
Proof.
  intros Hk Hd. unfold change_one, after, mbind, act_bind.
  pose proof (lift_p_done (provider_of (e_zone e) (e_plane e)) s) as E1. unfold after in E1.
  destruct (lift_p (provider_of (e_zone e) (e_plane e)) s) as [[?|?] s1]; cbn [snd] in E1 |- *; [|by rewrite E1].
  pose proof (lift_p_done (actual_rules (e_zone e) (e_plane e)) s1) as E2. unfold after in E2.
  destruct (lift_p (actual_rules (e_zone e) (e_plane e)) s1) as [[actual|?] s2]; cbn [snd] in E2 |- *;
    [|by rewrite E2, E1].
  unfold mret, act_ret.
  destruct (remove && _); [cbn; by rewrite E2, E1|]. destruct (_ && _); [cbn; by rewrite E2, E1|].
  unfold lift_p at 1. cbn. unfold lift. destruct (seconds_left _ _) as [seconds|]; cbn; [|by rewrite E2, E1].
  unfold lift_p at 1. cbn. destruct (fd_change _ _ _ _ _ _) as [[?|?] p3]; cbn; [|by rewrite E2, E1].
  unfold lift_p. cbn. destruct (actual_rules (e_zone e) (e_plane e) p3) as [[?|?] p4]; cbn; [destruct (Bool.eqb _ _); cbn|];
    rewrite E2, E1; apply Forall_app; (split; [done|by constructor]).
Qed.

Lemma change_all_done old new p :
  done_in (changed_keys old new) (after (change_all old new) (p, [])).2.
Proof.
  unfold change_all, after, mbind, act_bind.
  assert (forall remove l s, (forall e, In e l -> changed_keys old new (e_key e)) ->
    done_in (changed_keys old new) s.2 -> done_in (changed_keys old new) (after (each (change_one remove) l) s).2)
    as Hloop.
  { intros remove l s Hl Hs. apply (each_inv (fun s => done_in (changed_keys old new) s.2)); [|done].
    intros e s' He Hs'. by apply change_one_done; [apply Hl|]. }
  assert (forall l, (forall e, In e (sort_entries l) -> In e l)) as Hsort.
  { intros l e. unfold sort_entries. apply sort_by_In. }
  pose proof (Hloop true (sort_entries (minus old new)) (p, [])) as Hq1.
  unfold after in Hq1. destruct (each (change_one true) _ (p, [])) as [[?|?] s1]; cbn [snd] in *.
  - apply Hloop.
    + intros e He%Hsort. apply sym_diff_keys. right. apply list_elem_of_In, in_map_iff. by exists e.
    + apply Hq1; [|constructor]. intros e He%Hsort. apply sym_diff_keys. left.
      apply list_elem_of_In, in_map_iff. by exists e.
  - apply Hq1; [|constructor]. intros e2 He%Hsort. apply sym_diff_keys. left.
    apply list_elem_of_In, in_map_iff. by exists e2.
Qed.

Lemma roll_back_keeps K l failed :
  done_in K l -> keeps fd_has K (roll_back l failed).
Proof.
  intros Hl. revert failed. induction Hl as [|[[e remove] seconds] l He Hl IH]; intros failed; cbn [roll_back].
  - apply keeps_ret.
  - apply keeps_bind; [|intros; apply IH]. apply keeps_catch; [|intros; apply keeps_ret].
    apply keeps_bind; [|intros; apply keeps_ret].
    eapply keeps_weaken; [|apply keeps_change]. by intros k <-.
Qed.

Lemma change_or_roll_back_keeps old new : keeps fd_has (changed_keys old new) (change_or_roll_back old new).
Proof.
  intros p k Hk. pose proof (change_all_keeps old new (p, []) k Hk) as Hc.
  pose proof (change_all_done old new p) as Hd. unfold after, has2, change_or_roll_back in *.
  destruct (change_all old new (p, [])) as [[?|e] [p' completed]]; cbn [fst snd] in *; [done|].
  rewrite <- Hc. refine (keeps_bind fd_has (changed_keys old new) _ _ _ _ p' k Hk).
  - apply roll_back_keeps. by apply Forall_rev.
  - intros []; apply keeps_raise.
Qed.

Lemma change_or_roll_back_Ok old new p u p' :
  change_or_roll_back old new p = (Ok u, p') ->
  forall k, fd_has p' k =
    if bool_decide (k ∈ keys (minus new old)) then true
    else if bool_decide (k ∈ keys (minus old new)) then false else fd_has p k.
Proof.
  unfold change_or_roll_back. destruct (change_all old new (p, [])) as [[?|e] [p1 completed]] eqn:Ec.
  - intros [= _ <-]. pose proof (change_all_Ok _ _ _ _ _ Ec) as Hk. exact Hk.
  - intros Hr. apply act_bind_Ok in Hr as ([] & ? & _ & Hr); discriminate Hr.
Qed.

(** ** Capture *)

Definition snaps_exact (p : P) (snaps : list (string * plane * list string)) : Prop :=
  Forall (fun s => forall n, has_rule n s.2 = fd_has p (s.1.1, n, s.1.2)) snaps.

Lemma snapshot_Ok snaps z pl p l snaps' p' :
  snaps_exact p snaps -> snapshot snaps z pl p = (Ok (l, snaps'), p') ->
  (forall n, has_rule n l = fd_has p (z, n, pl)) /\ (forall k, fd_has p' k = fd_has p k)
  /\ snaps_exact p' snaps'.
Proof.
  intros Hs Hsn. unfold snapshot in Hsn.
  destruct (List.find _ snaps) as [s|] eqn:Hf.
  - injection Hsn as <- <- <-. apply find_some in Hf as [Hin Hk%bool_decide_eq_true].
    split; [|done]. intros n. unfold snaps_exact in Hs. rewrite Forall_forall in Hs.
    rewrite (Hs s) by by apply list_elem_of_In. by rewrite Hk.
  - apply act_bind_Ok in Hsn as (? & p1 & Hop & Hsn). apply act_bind_Ok in Hsn as (l' & p2 & Hr & Hsn).
    injection Hsn as <- <- <-. unfold actual_rules in Hr.
    assert (forall k, fd_has p1 k = fd_has p k) as Hq1.
    { intros k. pose proof (keeps_provider z pl p k ltac:(by intros [])) as Hk. unfold after in Hk.
      by rewrite Hop in Hk. }
    assert (forall k, fd_has p2 k = fd_has p1 k) as Hq2.
    { intros k. pose proof (fd_rich_frame z pl p1 k) as Hk. unfold after in Hk. by rewrite Hr in Hk. }
    assert (forall n, has_rule n l' = fd_has p1 (z, n, pl)) as Hl.
    { intros n. by apply (rich_has z pl p1 l' p2 n). }
    split; [intros n; by rewrite Hl, Hq1|]. split; [intros k; by rewrite Hq2, Hq1|].
    apply Forall_app. split.
    + eapply Forall_impl; [exact Hs|]. intros s Hx n. by rewrite Hx, Hq2, Hq1.
    + constructor; [|done]. intros n. cbn [fst snd]. by rewrite Hl, Hq2.
Qed.

(** The records of [capture], typed. *)
Record captured := Captured { c_key : key; c_present : bool; c_expires_at : val }.

Definition captured_val (c : captured) : val :=
  let '(z, n, pl) := c_key c in record_val z n pl (c_present c) (c_expires_at c).

Lemma capture_loop_Ok old l seen snaps p records p' :
  snaps_exact p snaps -> capture_loop old l seen snaps p = (Ok records, p') ->
  exists cs, records = map captured_val cs /\ (forall k, fd_has p' k = fd_has p k)
    /\ NoDup (map c_key cs) /\ (forall c, c ∈ cs -> c_key c ∉ seen)
    /\ (forall k, k ∈ map e_key l -> k ∉ seen -> k ∈ map c_key cs)
    /\ Forall (fun c => c_key c ∈ map e_key l /\ c_present c = fd_has p (c_key c)
                        /\ c_expires_at c = old_expiry old (c_key c)) cs.
Proof.
  revert seen snaps p records p'. induction l as [|e l IH]; intros seen snaps p records p' Hs Hc;
    cbn [capture_loop] in Hc.
  - injection Hc as <- <-. exists []. split_and!; try done; try (by constructor);
      intros ? Hx; cbn [map] in Hx; by apply not_elem_of_nil in Hx.
  - destruct (existsb _ seen) eqn:Hseen.
    + apply existsb_exists in Hseen as (k & Hin & Hk%bool_decide_eq_true). subst k.
      destruct (IH _ _ _ _ _ Hs Hc) as (cs & -> & Hh & Hnd & Hns & Hall & Hf). exists cs.
      split_and!; try done.
      * intros k Hk Hk'. cbn [map] in Hk. apply elem_of_cons in Hk as [->|Hk]; [|by apply Hall].
        by apply list_elem_of_In in Hin.
      * eapply Forall_impl; [exact Hf|]. intros c (Hx & ? & ?). split_and!; try done. cbn [map]. by right.
    + apply act_bind_Ok in Hc as ([rules snaps'] & p1 & Hsn & Hc).
      apply act_bind_Ok in Hc as (records' & p2 & Hloop & Hc). injection Hc as <- <-.
      destruct (snapshot_Ok _ _ _ _ _ _ _ Hs Hsn) as (Hl & Hh1 & Hs').
      destruct (IH _ _ _ _ _ Hs' Hloop) as (cs & -> & Hh & Hnd & Hns & Hall & Hf).
      exists (Captured (e_key e) (has_rule (e_native e) rules) (old_expiry old (e_key e)) :: cs).
      assert (e_key e ∉ seen) as Hnew.
      { intros Hx. rewrite existsb_not_In in Hseen. apply list_elem_of_In in Hx. specialize (Hseen _ Hx).
        by rewrite bool_decide_eq_true_2 in Hseen. }
      split_and!.
      * done.
      * intros k. by rewrite Hh, Hh1.
      * cbn [map c_key]. constructor; [|done]. intros Hx. apply list_elem_of_In, in_map_iff in Hx as (c & Hk & Hx).
        apply list_elem_of_In in Hx. specialize (Hns c Hx). rewrite Hk in Hns. apply Hns. by left.
      * intros c [->|Hx]%elem_of_cons; [done|]. specialize (Hns c Hx). intros Hy. apply Hns. by right.
      * intros k Hk Hk'. cbn [map c_key] in *. apply elem_of_cons in Hk as [->|Hk]; [by left|].
        destruct (decide (k = e_key e)) as [->|Hne]; [by left|]. right. apply Hall; [done|].
        by intros [->|?]%elem_of_cons.
      * constructor; [cbn; split_and!; [by left|apply Hl|done]|].
        eapply Forall_impl; [exact Hf|]. intros c (Hx & Hp & ?). split_and!; [by right| |done].
        by rewrite Hp, Hh1.
Qed.

Lemma capture_Ok E before after p records p' :
  capture E before after p = (Ok records, p') ->
  exists old new cs, entries E before = Ok old /\ entries E after = Ok new
    /\ records = map captured_val cs /\ (forall k, fd_has p' k = fd_has p k)
    /\ NoDup (map c_key cs) /\ (forall k, k ∈ map c_key cs <-> changed_keys old new k)
    /\ Forall (fun c => c_present c = fd_has p (c_key c) /\ c_expires_at c = old_expiry old (c_key c)) cs.
Proof.
  unfold capture. intros Hc.
  apply act_bind_Ok in Hc as (old & p1 & Ho & Hc). injection Ho as Ho <-.
  apply act_bind_Ok in Hc as (new & p1 & Hn & Hc). injection Hn as Hn <-. cbv zeta in Hc.
  apply act_bind_Ok in Hc as (u & p1 & Hu & Hc). injection Hu as _ <-.
  apply capture_loop_Ok in Hc as (cs & -> & Hh & Hnd & Hns & Hall & Hf); [|constructor].
  exists old, new, cs. split_and!; try done.
  - intros k. unfold changed_keys, keys. split.
    + intros Hk. apply list_elem_of_In, in_map_iff in Hk as (c & <- & Hc%list_elem_of_In).
      rewrite Forall_forall in Hf. destruct (Hf c Hc) as (Hx & _). apply list_elem_of_In, in_map_iff in Hx as (e & He & Hx).
      unfold sort_entries in Hx. apply sort_by_In in Hx. apply list_elem_of_In, in_map_iff. by exists e.
    + intros Hk. apply Hall; [|apply not_elem_of_nil]. apply list_elem_of_In, in_map_iff in Hk as (e & He & Hx).
      apply list_elem_of_In, in_map_iff. exists e. split; [done|]. by apply sort_by_In.
  - eapply Forall_impl; [exact Hf|]. by intros c (_ & ? & ?).
Qed.

(** ** Restore *)

(** Whether a captured entry is to be present at time [now]. *)
Definition wanted (c : captured) (now : val) : res bool :=
  if negb (c_present c) then Ok false
  else if negb (truthy (c_expires_at c)) then Ok true else py_gt (c_expires_at c) now.

Lemma plane_of_str pl : plane_of (VStr (plane_str pl)) = pl.
Proof. by destruct pl. Qed.

Lemma restore_one_captured c p :
  restore_one (captured_val c) p =
  (let '(z, n, pl) := c_key c in
   _ ← provider_of z pl;
   actual ← actual_rules z pl;
   now ← gets fd_time;
   present ← lift (wanted c now);
   _ ← (if Bool.eqb (has_rule n actual) present then mret tt
        else now ← gets fd_time;
             seconds ← lift (seconds_left (c_expires_at c) now);
             fd_change pl z n (negb present) seconds);
   actual ← actual_rules z pl;
   if Bool.eqb (has_rule n actual) present then mret tt
   else raise (PolicyError "firewalld did not confirm rollback.")) p.
Proof. destruct c as [[[z n] []] pr ex]; reflexivity. Qed.

Lemma restore_one_keeps c : keeps fd_has (eq (c_key c)) (restore_one (captured_val c)).
Proof.
  intros p k Hk. unfold after. rewrite restore_one_captured. revert p k Hk.
  destruct (c_key c) as [[z n] pl].
  change (keeps fd_has (eq (z, n, pl)) (
   _ ← provider_of z pl;
   actual ← actual_rules z pl;
   now ← gets fd_time;
   present ← lift (wanted c now);
   _ ← (if Bool.eqb (has_rule n actual) present then mret tt
        else now ← gets fd_time;
             seconds ← lift (seconds_left (c_expires_at c) now);
             fd_change pl z n (negb present) seconds);
   actual ← actual_rules z pl;
   if Bool.eqb (has_rule n actual) present then mret tt
   else raise (PolicyError "firewalld did not confirm rollback."))).
  apply keeps_bind; [by apply any_keeps, keeps_provider|intros _].
  apply keeps_bind; [by apply any_keeps, keeps_rich|intros actual].
  apply keeps_bind; [apply keeps_gets|intros now]. apply keeps_bind; [apply keeps_lift|intros present].
  apply keeps_bind.
  { destruct (Bool.eqb _ _); [apply keeps_ret|]. apply keeps_bind; [apply keeps_gets|intros].
    apply keeps_bind; [apply keeps_lift|intros]. apply keeps_change. }
  intros _. apply keeps_bind; [by apply any_keeps, keeps_rich|intros].
  destruct (Bool.eqb _ _); [apply keeps_ret|apply keeps_raise].
Qed.

(** Deadlines that have passed stay so. *)
Definition later (p p' : P) : Prop := forall d, passed d (fd_time p) -> passed d (fd_time p').

#[export] Instance later_preorder : PreOrder later.
Proof. split; [by intros p d|]. intros p q r Hpq Hqr d Hd. by apply Hqr, Hpq. Qed.

Lemma later_provider z pl : respects later (provider_of z pl).
Proof. destruct pl; [apply respects_ret; typeclasses eauto|]. intros p d. apply fd_open_later. Qed.

Lemma later_rich z pl : respects later (actual_rules z pl).
Proof. intros p d. apply fd_rich_later. Qed.

Lemma later_change pl z n r s : respects later (fd_change pl z n r s).
Proof. intros p d. apply fd_change_later. Qed.

Lemma restore_one_later c : respects later (restore_one (captured_val c)).
Proof.
  intros p. unfold after. rewrite restore_one_captured. revert p. destruct (c_key c) as [[z n] pl].
  match goal with |- forall p, later p (?m p).2 => change (respects later m) end.
  apply respects_bind; [typeclasses eauto|apply later_provider|intros _].
  apply respects_bind; [typeclasses eauto|apply later_rich|intros actual].
  apply respects_bind; [typeclasses eauto|apply respects_gets; typeclasses eauto|intros now].
  apply respects_bind; [typeclasses eauto|apply respects_lift; typeclasses eauto|intros present].
  apply respects_bind; [typeclasses eauto| |intros _].
  { destruct (Bool.eqb _ _); [apply respects_ret; typeclasses eauto|].
    apply respects_bind; [typeclasses eauto|apply respects_gets; typeclasses eauto|intros]. apply respects_bind; [typeclasses eauto|apply respects_lift; typeclasses eauto|intros].
    apply later_change. }
  apply respects_bind; [typeclasses eauto|apply later_rich|intros]. destruct (Bool.eqb _ _); [apply respects_ret|apply respects_raise]; typeclasses eauto.
Qed.

(** Whether an entry is as it was captured: it is there exactly if it was, except
    one that was there with a deadline that has passed. *)
Definition brought_back (had there : bool) (deadline now : val) : Prop :=
  there = had \/ (had = true /\ there = false /\ truthy deadline = true /\ passed deadline now).

Definition settled (c : captured) (p : P) : Prop := brought_back (c_present c) (fd_has p (c_key c)) (c_expires_at c) (fd_time p).

Lemma settled_later c p p' : settled c p -> later p p' -> fd_has p' (c_key c) = fd_has p (c_key c) -> settled c p'.
Proof. unfold settled, brought_back. intros [Hs|(H1' & H2' & H3' & H4')] Hl ->; [by left|]. right. split_and!; try done. by apply Hl. Qed.

Lemma restore_one_Ok c p u p' : restore_one (captured_val c) p = (Ok u, p') -> settled c p'.
Proof.
  rewrite restore_one_captured. unfold settled. destruct (c_key c) as [[z n] pl]. intros Hr.
  apply act_bind_Ok in Hr as (? & p1 & _ & Hr). apply act_bind_Ok in Hr as (actual & p2 & _ & Hr).
  apply act_bind_Ok in Hr as (now & p3 & Hnow & Hr). injection Hnow as Hnow <-. apply act_bind_Ok in Hr as (present & p4 & Hw & Hr).
  injection Hw as Hw <-. apply act_bind_Ok in Hr as (? & p5 & Hch & Hr).
  apply act_bind_Ok in Hr as (actual2 & p6 & Ha & Hr).
  assert (later p2 p5) as Hl1.
  { match type of Hch with ?m p2 = _ => assert (respects later m) as Hm end.
    { destruct (Bool.eqb _ _); [apply respects_ret; typeclasses eauto|].
      apply respects_bind; [typeclasses eauto|apply respects_gets; typeclasses eauto|intros]. apply respects_bind; [typeclasses eauto|apply respects_lift; typeclasses eauto|intros].
      apply later_change. }
    specialize (Hm p2). unfold after in Hm. by rewrite Hch in Hm. }
  pose proof (later_rich z pl p5) as Hl2. unfold after in Hl2. rewrite Ha in Hl2. cbn [snd] in Hl2. unfold actual_rules in Ha.
  destruct (rich_has _ _ _ _ _ n Ha) as [Hin Hsame].
  destruct (Bool.eqb (has_rule n actual2) present) eqn:Eb; [|done]. injection Hr as _ <-.
  apply eqb_prop in Eb. assert (fd_has p6 (z, n, pl) = present) as -> by congruence.
  unfold wanted in Hw. destruct (c_present c); cbn [negb] in Hw; [|left; congruence].
  destruct (truthy (c_expires_at c)) eqn:Et; cbn [negb] in Hw; [|left; congruence].
  destruct present; [by left|]. right. split_and!; try done. apply Hl2, Hl1. unfold passed. by rewrite Hnow.
Qed.

Lemma restore_loop_later l failed : respects later (restore_loop (map captured_val l) failed).
Proof.
  revert failed. induction l as [|c l IH]; intros failed; cbn [map restore_loop]; [apply respects_ret; typeclasses eauto|].
  apply respects_bind; [typeclasses eauto| |intros; apply IH].
  apply respects_catch; [typeclasses eauto| |intros; apply respects_ret; typeclasses eauto].
  apply respects_bind; [typeclasses eauto|apply restore_one_later|intros; apply respects_ret; typeclasses eauto].
Qed.

Lemma restore_loop_Ok l failed p p' :
  restore_loop (map captured_val l) failed p = (Ok false, p') -> NoDup (map c_key l) ->
  failed = false /\ forall k, match List.find (fun c => bool_decide (c_key c = k)) l with
    | Some c => settled c p'
    | None => fd_has p' k = fd_has p k end.
Proof.
  revert failed p. induction l as [|c l IH]; intros failed p; cbn [map restore_loop].
  - intros [= -> <-] _. done.
  - intros Hr Hnd. apply NoDup_cons in Hnd as [Hni Hnd].
    apply act_bind_Ok in Hr as (failed1 & p1 & H1' & Hr). destruct (IH _ _ Hr Hnd) as [-> Hl].
    pose proof (restore_loop_later l false p1) as Hlater. unfold after in Hlater. rewrite Hr in Hlater. cbn [snd] in Hlater.
    unfold catch in H1'. destruct ((_ ← restore_one (captured_val c); mret failed) p) as [[b|e] p2] eqn:E1.
    2: { cbn in H1'. done. }
    injection H1' as -> <-. apply act_bind_Ok in E1 as ([] & p3 & Hone & [= -> <-]).
    split; [done|]. intros k. cbn [List.find]. specialize (Hl k).
    destruct (bool_decide_reflect (c_key c = k)) as [<-|Hne].
    + assert (List.find (fun c' => bool_decide (c_key c' = c_key c)) l = None) as Hn.
      { destruct (List.find _ l) as [c'|] eqn:Hf; [|done]. apply find_some in Hf as [Hin Hk%bool_decide_eq_true].
        exfalso. apply Hni. apply list_elem_of_In, in_map_iff. by exists c'. }
      rewrite Hn in Hl. eapply settled_later; [by eapply restore_one_Ok|exact Hlater|exact Hl].
    + destruct (List.find _ l) as [c'|]; [done|]. rewrite Hl.
      pose proof (restore_one_keeps c p k Hne) as Hk. unfold after in Hk. by rewrite Hone in Hk.
Qed.
End props.

(** * The firewalld adapter: properties

    A replacement that returns has put every owned entry of the new rules in
    place and removed the superseded ones; no outcome touches an entry outside
    the difference of the two rule lists; and a capture taken before restores
    the firewall after any outcome. *)

Section claims.
Context {P : Type} `{FirewalldOk P} `{Host}.
Implicit Types (E : env) (p : P) (c : cache).

Lemma keeps_on_p K {A} (m : act P A) : keeps fd_has K m -> keeps has2 K (on_p m).
Proof.
  intros Hm [p c] k Hk. specialize (Hm p k Hk). unfold has2, after, on_p in *. cbn [fst].
  by destruct (m p).
Qed.

Lemma read_details_keeps names deadline details : keeps fd_has no_key (read_details names deadline details).
Proof.
  revert details; induction names as [|n names IH]; intros details; cbn [read_details]; [apply keeps_ret|].
  apply keeps_bind; [apply keeps_gets|intros t]. destruct (deadline <=? t); [apply keeps_ret|].
  apply keeps_bind; [|intros; apply IH]. apply keeps_catch; [|intros; apply keeps_ret].
  apply keeps_bind; [|intros; apply keeps_bind; intros; [apply keeps_lift|apply keeps_ret]].
  intros p k _. by apply fd_catalog_frame.
Qed.

Lemma catalog_keeps : keeps has2 no_key catalog.
Proof.
  unfold catalog. apply keeps_bind; [apply keeps_on_p; intros p k _; by apply fd_catalog_frame|intros names].
  apply keeps_bind; [apply keeps_lift|intros _]. apply keeps_bind; [apply keeps_gets|intros s].
  apply keeps_bind; [apply keeps_on_p, keeps_gets|intros now].
  apply keeps_bind; [|intros cached].
  { destruct s.2 as [[[deadline cached] details]|]; [destruct (_ && _)|]; apply keeps_ret. }
  apply keeps_bind; [|intros details].
  { destruct cached; [apply keeps_ret|]. apply keeps_bind; [|intros details].
    - apply keeps_on_p. apply keeps_bind; [apply keeps_gets|intros; apply read_details_keeps].
    - apply keeps_bind; [apply keeps_on_p, keeps_gets|intros].
      apply keeps_bind; [by intros [] k _|intros; apply keeps_ret]. }
  apply keeps_bind; [apply keeps_on_p; intros p k _; by apply fd_catalog_frame|intros; apply keeps_ret].
Qed.

Lemma replace_with_keeps E zones services before after_rules old new :
  entries E before = Ok old -> entries E after_rules = Ok new ->
  keeps fd_has (changed_keys old new) (replace_with E zones services before after_rules).
Proof.
  intros Ho Hn p k Hk. unfold after, replace_with. rewrite Ho, Hn.
  unfold mbind, act_bind, lift. destruct (installed _ _ _); [|done].
  destruct (require _ _); [|done]. by apply change_or_roll_back_keeps.
Qed.

Lemma replace_keeps E before after_rules old new :
  entries E before = Ok old -> entries E after_rules = Ok new ->
  keeps has2 (changed_keys old new) (replace E before after_rules).
Proof.
  intros Ho Hn. unfold replace. apply keeps_bind; [eapply keeps_weaken; [|apply catalog_keeps]; by intros ? []|].
  intros cat. by apply keeps_on_p, replace_with_keeps.
Qed.

(** A restoration of captured entries, after changes to the changed entries
    only, brings back the captured state. *)
Lemma restore_captured E before after_rules p records p1 p2 u p3 :
  capture E before after_rules p = (Ok records, p1) ->
  (forall old new k, entries E before = Ok old -> entries E after_rules = Ok new -> ~ changed_keys old new k ->
     fd_has p2 k = fd_has p1 k) ->
  restore records p2 = (Ok u, p3) ->
  exists old, entries E before = Ok old /\ forall k,
    brought_back (fd_has p k) (fd_has p3 k) (old_expiry old k) (fd_time p3).
Proof.
  intros (old & new & cs & Ho & Hn & -> & Hh & Hnd & Hkeys & Hcs)%capture_Ok Hframe Hr.
  exists old. split; [done|]. intros k.
  unfold restore in Hr. apply act_bind_Ok in Hr as (failed & p4 & Hl & Hr).
  unfold lift in Hr. injection Hr as Hf Hp4. apply require_Ok, negb_true_iff in Hf as ->. subst p4.
  rewrite <- map_rev in Hl. apply restore_loop_Ok in Hl as [_ Hl].
  2: { rewrite map_rev. by apply NoDup_ListNoDup, NoDup_rev, NoDup_ListNoDup. }
  specialize (Hl k). destruct (List.find _ (rev cs)) as [x|] eqn:Hfind.
  - apply find_some in Hfind as [Hin%in_rev Hk%bool_decide_eq_true]. apply list_elem_of_In in Hin.
    rewrite Forall_forall in Hcs. destruct (Hcs x Hin) as [Hp He]. rewrite Hk in Hp, He.
    unfold settled in Hl. by rewrite Hp, He, Hk in Hl.
  - left. rewrite Hl, <- Hh. apply (Hframe old new k Ho Hn).
    intros Hc. apply Hkeys, list_elem_of_In, in_map_iff in Hc as (x & Hx & Hin).
    assert (In x (rev cs)) as Hin' by by apply in_rev in Hin.
    eapply find_none in Hfind; [|exact Hin']. by rewrite bool_decide_eq_false in Hfind.
Qed.

(** When [replace] returns, firewalld holds every entry the new rules add,
    none of those only the old rules owned, and is otherwise unchanged. *)
Theorem replace_correct E before after_rules p c u p' c' :
  replace E before after_rules (p, c) = (Ok u, (p', c')) ->
  exists old new, entries E before = Ok old /\ entries E after_rules = Ok new /\
  forall k, fd_has p' k =
    if bool_decide (k ∈ keys (minus new old)) then true
    else if bool_decide (k ∈ keys (minus old new)) then false else fd_has p k.
Proof.
  unfold replace. intros Hr. apply act_bind_Ok in Hr as (cat & [p1 c1] & Hcat & Hr).
  assert (forall k, fd_has p1 k = fd_has p k) as Hsame.
  { intros k. pose proof (catalog_keeps (p, c) k ltac:(by intros [])) as Hk.
    unfold after, has2 in Hk. by rewrite Hcat in Hk. }
  unfold on_p in Hr. cbn [fst] in Hr.
  destruct (replace_with _ _ _ _ _ p1) as [r p2] eqn:Hw. injection Hr as -> -> _. unfold replace_with in Hw.
  apply act_bind_Ok in Hw as (? & p3 & Hi & Hw). injection Hi as _ <-.
  apply act_bind_Ok in Hw as (old & p3 & Ho & Hw). injection Ho as Ho <-.
  apply act_bind_Ok in Hw as (new & p3 & Hn & Hw). injection Hn as Hn <-.
  apply act_bind_Ok in Hw as (? & p3 & Hq & Hw). injection Hq as _ <-.
  exists old, new. split; [done|]. split; [done|]. intros k.
  rewrite (change_or_roll_back_Ok _ _ _ _ _ Hw k). by rewrite Hsame.
Qed.

(** Whatever the outcome of [replace], a failed roll back included, no
    entry outside the difference of the old and the new rules changes: rules of
    other owners and unchanged rules are never touched. *)
Theorem replace_frame E before after_rules old new p c k :
  entries E before = Ok old -> entries E after_rules = Ok new -> ~ changed_keys old new k ->
  fd_has (after (replace E before after_rules) (p, c)).1 k = fd_has p k.
Proof. intros Ho Hn Hk. by apply (replace_keeps E before after_rules old new Ho Hn (p, c)). Qed.

End claims.

(** ** Instances

    A firewalld that holds a list of entries and refuses the change requests its
    script marks. *)
Record listed := Listed { l_keys : list key; l_refuse : list bool }.

Definition listed_has (p : listed) (k : key) : bool := existsb (fun k' => bool_decide (k' = k)) (l_keys p).

Definition listed_rich (z : string) (pl : plane) : act listed (list string) := fun p =>
  (Ok (map (fun k => k.1.2) (List.filter (fun k => bool_decide (k.1.1 = z) && bool_decide (k.2 = pl)) (l_keys p))), p).

Definition listed_change (pl : plane) (z n : string) (remove : bool) (seconds : Z) : act listed unit := fun p =>
  match l_refuse p with
  | true :: refuse => (Err (ProviderError "refused"), Listed (l_keys p) refuse)
  | refuse =>
      (Ok tt, Listed (if remove then List.filter (fun k => negb (bool_decide (k = (z, n, pl)))) (l_keys p)
                      else (z, n, pl) :: l_keys p) (tail refuse))
  end.

#[export] Instance listed_firewalld : Firewalld listed := {|
  fd_open _ := mret tt;
  fd_rich := listed_rich;
  fd_services _ _ := mret [];
  fd_ports _ _ := mret [];
  fd_change := listed_change;
  fd_zones := mret ["public"; "home"];
  fd_active_zones := mret ["public"];
  fd_service_names := mret ["ssh"; "http"];
  fd_definition _ := raise (ProviderError "missing");
  fd_time _ := VInt 1000;
  fd_monotonic _ := 0;
  fd_rich_text s := Ok s;
|}.

#[export] Instance listed_firewalld_ok : FirewalldOk listed.
Proof.
  refine {| fd_has := listed_has |}; try done.
  - intros z pl p l n [= <-]. unfold listed_has. induction (l_keys p) as [|[[z' n'] pl'] ks IH]; [done|].
    cbn. destruct (bool_decide_reflect (z' = z)) as [->|Hz]; cbn.
    + destruct (bool_decide_reflect (pl' = pl)) as [->|Hp]; cbn; rewrite <- ?IH.
      * f_equal. destruct (String.eqb_spec n n') as [->|Hne]; [by rewrite bool_decide_eq_true_2|].
        by rewrite bool_decide_eq_false_2 by congruence.
      * by rewrite bool_decide_eq_false_2 by congruence.
    + rewrite IH. by rewrite bool_decide_eq_false_2 by congruence.
  - intros pl z n r s p k Hk. unfold after, fd_change, listed_firewalld, listed_change.
    assert (forall ks refuse, listed_has (Listed (if r then List.filter (fun k => negb (bool_decide (k = (z, n, pl)))) ks
      else (z, n, pl) :: ks) refuse) k = listed_has (Listed ks []) k) as Hf.
    { intros ks refuse. unfold listed_has. cbn [l_keys]. destruct r.
      - induction ks as [|k' ks IH]; [done|]. cbn. destruct (bool_decide_reflect (k' = (z, n, pl))) as [->|Hne]; cbn.
        + by rewrite IH, bool_decide_eq_false_2 by congruence.
        + by rewrite IH.
      - cbn. by rewrite bool_decide_eq_false_2 by congruence. }
    destruct p as [ks [|[] refuse]]; cbn [l_refuse l_keys snd tail]; [apply Hf|done|apply Hf].
Defined.

Definition http_rule : dict := in_dict (InRule
  (Common "greyward-00000000000000000001" "http" "" "allow" true "ipv4" ["tcp"; "udp"] [] "permanent"
     (VInt 900) (VInt 900) VNone VNone) "public" "http" None).

Definition ssh_rule : dict := in_dict (InRule
  (Common "greyward-00000000000000000002" "ssh" "" "deny" true "any" ["tcp"] [(22, 22)] "permanent"
     (VInt 900) (VInt 900) VNone VNone) "home" "" None).

(** A firewall that owns the entries of [http_rule] and one of another owner. *)
Definition example_firewall (refuse : list bool) : listed :=
  match entries (P := listed) example_env [http_rule] with
  | Ok es => Listed (("home", "external", Runtime) :: map e_key es) refuse
  | Err _ => Listed [] refuse
  end.

Lemma replace_correct_witness :
  exists p' c', replace example_env [http_rule] [ssh_rule] (example_firewall [], None) = (Ok tt, (p', c'))
    /\ exists old new, entries (P := listed) example_env [http_rule] = Ok old
       /\ entries (P := listed) example_env [ssh_rule] = Ok new
       /\ forall k, fd_has p' k = if bool_decide (k ∈ keys (minus new old)) then true
            else if bool_decide (k ∈ keys (minus old new)) then false else fd_has (example_firewall []) k.
Proof.
  do 2 eexists. split; [vm_compute; reflexivity|].
  eapply (replace_correct example_env [http_rule] [ssh_rule] (example_firewall []) None tt).
  vm_compute. reflexivity.
Defined.

Lemma replace_frame_witness :
  fd_has (after (replace example_env [http_rule] [ssh_rule]) (example_firewall [false; false; true; true], None)).1
    ("home", "external", Runtime) = true.
Proof.
  destruct (entries (P := listed) example_env [http_rule]) as [old|] eqn:Ho; [|by vm_compute in Ho].
  destruct (entries (P := listed) example_env [ssh_rule]) as [new|] eqn:Hn; [|by vm_compute in Hn].
  rewrite (replace_frame example_env [http_rule] [ssh_rule] old new _ _ _ Ho Hn).
  - vm_compute. reflexivity.
  - vm_compute in Ho, Hn. injection Ho as <-. injection Hn as <-.
    refine (bool_decide_eq_false_1 (_ ∈ _) _). vm_compute. reflexivity.
Defined.

