(* ===== verification/Transactions.v ===== *)
(** * Reviewed rule transactions ([network_rule_transactions.py])

    The rule manager: reviews prepared from a list of commands, cancellation,
    application with journaling of the firewall, undo, and crash recovery. The
    thread that authorises a review may be interleaved with other requests:
    [authorize] is an arbitrary action on the whole state. *)
From S2P Require Import Prelude PyVal PyStr IpAddr Json NetworkRules PolicyStore Firewall.

(** A pending review; [t_native] is the firewall capture of an incoming one. *)
Record txn := Txn {
  t_uid : val;
  t_provider : string;
  t_before : dict;
  t_after : dict;
  t_deadline : Z;
  t_cancelled : bool;
  t_applying : bool;
  t_changes : list val;
  t_native : option (list val);
}.

Record undo_entry := Undo {
  u_uid : val;
  u_provider : string;
  u_before : dict;
  u_revision : val;
  u_deadline : Z;
}.

(** Insertion-ordered dictionaries keyed by token. *)
Definition lookup_token {A} (k : string) (d : list (string * A)) : option A := dget k d.
Definition set_token {A} (k : string) (v : A) (d : list (string * A)) : list (string * A) :=
  if existsb (fun kv => String.eqb kv.1 k) d
  then map (fun kv => if String.eqb kv.1 k then (k, v) else kv) d else d ++ [(k, v)].
Definition pop_token {A} (k : string) (d : list (string * A)) : list (string * A) :=
  List.filter (fun kv => negb (String.eqb kv.1 k)) d.

(** The whole state: files and store, firewall (if any), manager, clock. *)
Record mworld (P : Type) := MWorld {
  m_world : world;
  m_fw : option (P * cache);
  m_pending : list (string * txn);
  m_undo : list (string * undo_entry);
  m_clock : Z;
}.
Arguments MWorld {P} _ _ _ _ _.
Arguments m_world {P} _.
Arguments m_fw {P} _.
Arguments m_pending {P} _.
Arguments m_undo {P} _.
Arguments m_clock {P} _.

Definition REVIEW_TIME : Z := 180 * SECOND.

Section manager.
Context {P : Type} `{Firewalld P} `{Host} `{FloatText}.
Abbreviation M := (act (mworld P)).

(** [self.resolve_executable], if configured. *)
Context (resolve_executable : option (string -> res string)).

(** ** Access to the parts of the state *)

Definition on_store {A} (m : act world A) : M A := fun s =>
  let '(r, w) := m (m_world s) in (r, MWorld w (m_fw s) (m_pending s) (m_undo s) (m_clock s)).

Definition on_fw {A} (m : act (P * cache) A) : M A := fun s =>
  match m_fw s with
  | None => (Err AttributeError, s)
  | Some f => let '(r, f) := m f in (r, MWorld (m_world s) (Some f) (m_pending s) (m_undo s) (m_clock s))
  end.

Definition on_pv {A} (m : act P A) : M A := on_fw (on_p m).

Definition set_pending (f : list (string * txn) -> list (string * txn)) : M unit :=
  modify (fun s => MWorld (m_world s) (m_fw s) (f (m_pending s)) (m_undo s) (m_clock s)).

Definition set_undo (f : list (string * undo_entry) -> list (string * undo_entry)) : M unit :=
  modify (fun s => MWorld (m_world s) (m_fw s) (m_pending s) (f (m_undo s)) (m_clock s)).

Definition ensure (b : bool) (m : string) : M unit := lift (require b (PolicyError m)).

Definition no_firewall : M bool := gets (fun s => match m_fw s with None => true | Some _ => false end).

(** [policy['rules']] as a list of dictionaries. *)
Definition rules_of (p : dict) : res (list dict) :=
  rules ← item "rules" p; rules ← as_list rules; mapM_res as_dict rules.

Definition revision_of (p : dict) : res Z :=
  r ← item "revision" p; match r with VInt z => Ok z | _ => Err TypeError end.

(** ** Recovery *)

(** [RuleManager.recover()]. *)
Definition recover (E : env) (o : outcomes) : M dict :=
  policy ← on_store (read E);
  let pending := get "firewall_pending" policy in
  if truthy pending then
    none ← no_firewall;
    _ ← ensure (negb none) "Incoming recovery is pending while firewalld is unavailable.";
    native ← lift (d ← as_dict pending; l ← item "native_before" d; as_list l);
    _ ← on_pv (restore native);
    revision ← lift (revision_of policy);
    on_store (write E (VDict (ddel "firewall_pending" policy)) revision o)
  else mret policy.

(** ** Commands of a review *)

(** The edited policy, the warnings and the changes so far. *)
Record draft := Draft { d_policy : dict; d_warnings : list string; d_changes : list val }.

Definition change_val (operation : string) (rule : val) : val :=
  VDict (dlit [("operation", VStr operation); ("rule", rule)]).

Definition set_rules (rules : list dict) (p : dict) : dict := dset "rules" (VList (map VDict rules)) p.

(** The position of the first rule with the given id, if the id is truthy. *)
Fixpoint find_rule (identifier : val) (rules : list dict) : option (nat * dict) :=
  match rules with
  | [] => None
  | r :: rules => if py_eq (get "id" r) identifier then Some (O, r)
                  else option_map (fun ir => (S ir.1, ir.2)) (find_rule identifier rules)
  end.

Definition existing_rule (identifier : val) (rules : list dict) : option (nat * dict) :=
  if truthy identifier then find_rule identifier rules else None.

Definition provider_is (provider : string) (r : dict) : bool := is_str provider (get "provider" r).

(** The rows of a policy by id, in order. *)
Definition rows (rules : list dict) : list (val * dict) :=
  fold_left (fun acc r =>
    let k := get "id" r in
    if existsb (fun kr => py_eq kr.1 k) acc
    then map (fun kr => if py_eq kr.1 k then (kr.1, r) else kr) acc else acc ++ [(k, r)]) rules [].

Definition row (k : val) (rows : list (val * dict)) : option dict :=
  option_map snd (List.find (fun kr => py_eq kr.1 k) rows).

(** The operation [_restore]. *)
Definition cmd_restore (provider : string) (policy : dict) (restore : option dict) (d : draft) : res draft :=
  match restore with
  | None => fail "A server-issued undo reference is required."
  | Some before =>
      revision ← item "revision" policy;
      let candidate := dset "revision" revision before in
      old ← rules_of policy;
      new ← rules_of candidate;
      let old_rows := rows old in
      let new_rows := rows new in
      let restored := List.filter (fun kr => match row kr.1 old_rows with
                        | Some r => negb (py_eq (VDict r) (VDict kr.2)) | None => true end) new_rows in
      let removed := List.filter (fun kr => match row kr.1 new_rows with Some _ => false | None => true end) old_rows in
      let changes := d_changes d ++ map (fun kr => change_val "restore" (VDict kr.2)) restored
                     ++ map (fun kr => change_val "remove" (VDict kr.2)) removed in
      let changes :=
        if py_eq (VList (map fst old_rows)) (VList (map fst new_rows)) then changes
        else change_val "restore order"
               (VDict (dlit [("name", VStr (provider +:+ " rule order and membership"))])) :: changes in
      let changes := match changes with
        | [] => [change_val "restore" (VDict (dlit [("name", VStr "Threat protection settings")]))]
        | _ => changes end in
      Ok (Draft candidate
            (d_warnings d ++ ["Undo restores the previous reviewed configuration. Expired rules are not renewed."])
            changes)
  end.

(** The operation [threat_settings]. *)
Definition cmd_threat_settings (provider : string) (command : dict) (d : draft) : res draft :=
  let enabled := get "enabled" command in
  _ ← require (String.eqb provider "application" && is_bool enabled)
        (PolicyError "Invalid threat-protection setting.");
  Ok (Draft (dset "threat_intel" (VDict (dlit [("enabled", enabled); ("provider", VStr "feodo-recommended")]))
               (d_policy d))
        (d_warnings d ++ ["This changes malware destination blocking for the whole system."])
        (d_changes d ++ [change_val (if is_true enabled then "enable" else "disable")
                           (VDict (dlit [("name", VStr "Feodo threat blocking")]))])).

Definition exact_port (port : val) : bool :=
  match port with VInt z => (1 <=? z) && (z <=? 65535) | _ => false end.

Definition host_path (path : val) : bool :=
  match path with VStr s => startswith "/" s && negb (startswith "/app/" s) | _ => false end.

(** The operation [threat_exception]. *)
Definition cmd_threat_exception (provider : string) (actor_uid : val) (command : dict) (uuid : string) (d : draft)
  : res draft :=
  match getd "rule" (VDict []) command with
  | VDict value =>
      _ ← require (String.eqb provider "application" && is_str "allow" (get "action" value))
            (PolicyError "A threat exception must explicitly allow one application/IP/port.");
      let path := getd "path" (VStr "") value in
      address ← ip_address_val (getd "ip" (VStr "") value);
      let port := get "port" value in
      _ ← require (host_path path && exact_port port)
            (PolicyError "A threat exception requires a host executable and exact IP/port.");
      let rule := dlit [("id", VStr ("greyward-" +:+ uuid)); ("tier", VStr "THREAT_EXCEPTION"); ("path", path);
                        ("ip", VStr (ip_str address)); ("port", port); ("uid", actor_uid); ("action", VStr "allow");
                        ("duration", VStr "always"); ("name", VStr "GREYWARD Feodo false-positive exception")] in
      rules ← rules_of (d_policy d);
      Ok (Draft (set_rules (rules ++ [rule]) (d_policy d))
            (d_warnings d ++ ["This exact application/IP/port is exempted from Feodo threat blocking."])
            (d_changes d ++ [change_val "create exception" (VDict rule)]))
  | _ => fail "A threat exception must explicitly allow one application/IP/port."
  end.

(** [path.rsplit('/', 1)[-1].startswith(('python', ...))]. *)
Definition interpreter (path : string) : bool :=
  let base := default path (last (split "/" path)) in
  existsb (fun p => startswith p base) ["python"; "bash"; "sh"; "node"; "ruby"; "perl"; "java"].

Definition hostname_destination (v : val) : bool :=
  match v with VDict d => in_strs ["host"; "domain"] (get "kind" d) | _ => false end.

Definition application_warnings (rule : dict) : list string :=
  let path := match get "path" rule with VStr s => s | _ => "" end in
  let destinations := match get "destinations" rule with VList l => l | _ => [] end in
  (if String.eqb path "*"
   then ["This IP rule affects all applications in its selected user scope. It shares outgoing order with application rules; earlier matching rules take precedence."]
   else ["Executable-path scope follows replacement of that file and includes its helpers only when they use the same executable. It is not a code-generation grant."])
  ++ (if is_str "system" (get "scope" rule) then ["This rule applies to all users, not just this account."] else [])
  ++ (if is_str "allow" (get "action" rule)
      then ["An Allow rule does not block other destinations when the default is Allow."] else [])
  ++ (if existsb hostname_destination destinations
      then ["Hostname matching uses observed hostnames; it does not inspect URLs or encrypted content."] else [])
  ++ (if interpreter path
      then ["This executable scope includes other scripts or code running in the same interpreter."] else []).

(** The executable a new application rule names, resolved. *)
Definition resolve_path (rule : dict) : res dict :=
  match resolve_executable with
  | None => Ok rule
  | Some resolve =>
      if is_str "*" (get "path" rule) then Ok rule
      else path ← item_str "path" rule; p ← resolve path; Ok (dset "path" (VStr p) rule)
  end.

(** The operations [upsert] and [dns_exception]. *)
Definition cmd_upsert (E : env) (provider : string) (actor_uid : val) (command : dict) (uuid : string)
    (identifier : val) (existing : option (nat * dict)) (dns : bool) (d : draft) : res draft :=
  match get "rule" command with
  | VDict value =>
      _ ← require (negb (truthy (get "tier" value)) && is_str provider (getd "provider" (VStr provider) value))
            (PolicyError "Reserved or mismatched rules cannot be imported.");
      _ ← require (negb (truthy identifier && match existing with None => true | _ => false end))
            (PolicyError "The edited rule no longer exists.");
      let value := dset "provider" (VStr provider) value in
      let before := match existing with Some (_, r) => r | None => [] end in
      _ ← require (negb (negb dns && truthy (get "dns_exception" value) && negb (truthy (get "dns_exception" before))))
            (PolicyError "Use the explicit managed-DNS exception review.");
      _ ← require (negb (dns && negb (String.eqb provider "application")))
            (PolicyError "DNS exceptions apply to application rules only.");
      let value := if dns then dset "dns_exception" (VBool true) value else value in
      let warnings := d_warnings d ++ (if dns then
        ["This explicitly bypasses managed DNS for this executable on the selected DNS ports."] else []) in
      let value := match existing with Some _ => dset "id" identifier value | None => ddel "id" value end in
      rule ← normalize E (VDict value) actor_uid before VNone VNone uuid;
      rule ← (if String.eqb provider "application" then resolve_path rule else Ok rule);
      let warnings := if String.eqb provider "application" then warnings ++ application_warnings rule else warnings in
      rules ← rules_of (d_policy d);
      let rules := match existing with Some (i, _) => <[i := rule]> rules | None => rules ++ [rule] end in
      Ok (Draft (set_rules rules (d_policy d)) warnings
            (d_changes d ++ [change_val (match existing with Some _ => "update" | None => "create" end) (VDict rule)]))
  | _ => fail "Reserved or mismatched rules cannot be imported."
  end.

(** [l.insert(i, x)]. *)
Definition insert_at {A} (i : nat) (x : A) (l : list A) : list A := take i l ++ x :: drop i l.

(** The index of the [n]th sibling of the provider in [rules]. *)
Fixpoint sibling_index (provider : string) (n : nat) (rules : list dict) : nat :=
  match rules with
  | [] => O
  | r :: rules =>
      if provider_is provider r then
        match n with O => O | S n => S (sibling_index provider n rules) end
      else S (sibling_index provider n rules)
  end.

(** [move]: the rule at [i] leaves and is put before the sibling at [position],
    or after the last sibling. *)
Definition move_rule (provider : string) (i : nat) (rule : dict) (position : nat) (rules : list dict) : list dict :=
  let rest := delete i rules in
  let siblings := length (List.filter (provider_is provider) rest) in
  let target :=
    if (position <? siblings)%nat then sibling_index provider position rest
    else match siblings with O => length rest | S n => S (sibling_index provider n rest) end in
  insert_at target rule rest.

(** The operations [delete], [enable] and [move]. *)
Definition cmd_edit (provider operation : string) (command : dict) (existing : option (nat * dict)) (d : draft)
  : res draft :=
  match existing with
  | None => fail "The rule no longer exists."
  | Some (i, rule) =>
      rules ← rules_of (d_policy d);
      '(rules, rule) ←
        (if String.eqb operation "delete" then Ok (delete i rules, rule)
         else if String.eqb operation "enable" then
           let enabled := get "enabled" command in
           _ ← require (is_bool enabled) (PolicyError "Enabled must be boolean.");
           let rule := dset "enabled" enabled rule in Ok (<[i := rule]> rules, rule)
         else
           let siblings := length (List.filter (provider_is provider) rules) in
           match get "position" command with
           | VInt position =>
               _ ← require ((0 <=? position) && (position <? Z.of_nat siblings))
                     (PolicyError "Invalid rule position.");
               Ok (move_rule provider i rule (Z.to_nat position) rules, rule)
           | _ => fail "Invalid rule position."
           end);
      Ok (Draft (set_rules rules (d_policy d)) (d_warnings d) (d_changes d ++ [change_val operation (VDict rule)]))
  end.

(** One command of a review. *)
Definition run_command (E : env) (provider : string) (actor_uid : val) (policy : dict) (restore : option dict)
    (command : val) (uuid : string) (d : draft) : res draft :=
  match command with
  | VDict command =>
      let identifier := get "id" command in
      rules ← rules_of (d_policy d);
      let existing := existing_rule identifier rules in
      let operation := get "operation" command in
      _ ← match existing with
          | Some (_, r) =>
              let reserved_delete := is_str "THREAT_EXCEPTION" (get "tier" r) && is_str "delete" operation
                                     && String.eqb provider "application" in
              require (reserved_delete || (provider_is provider r && negb (truthy (get "tier" r))))
                (PolicyError "This rule belongs to another provider or a reserved protection.")
          | None => Ok tt
          end;
      if is_str "_restore" operation then cmd_restore provider policy restore d
      else if is_str "threat_settings" operation then cmd_threat_settings provider command d
      else if is_str "threat_exception" operation then cmd_threat_exception provider actor_uid command uuid d
      else if in_strs ["upsert"; "dns_exception"] operation then
        cmd_upsert E provider actor_uid command uuid identifier existing (is_str "dns_exception" operation) d
      else if in_strs ["delete"; "enable"; "move"] operation then
        cmd_edit provider (match operation with VStr s => s | _ => "" end) command existing d
      else fail "Unsupported rule operation."
  | _ => fail "Invalid rule operation."
  end.

(** The whole command list; the [n]th command draws the [n]th identifier. *)
Definition run_commands (E : env) (provider : string) (actor_uid : val) (policy : dict) (restore : option dict)
    (commands : list val) (uuids : nat -> string) : res draft :=
  foldM (fun d ic => run_command E provider actor_uid policy restore ic.2 (uuids ic.1) d)
    (Draft policy [] []) (imap (fun i c => (i, c)) commands).

(** ** Shadowed rules *)

Definition fingerprint_fields (rule : dict) : dict :=
  List.filter (fun kv => negb (existsb (String.eqb kv.1)
    ["id"; "name"; "description"; "created_at"; "updated_at"; "enabled"; "action"])) rule.

Definition fingerprint (rule : dict) : string := host_sha256 (host_json_sorted (VDict (fingerprint_fields rule))).

Definition shadow_warnings (provider : string) (rules : list dict) : list string :=
  (fold_left (fun acc rule =>
     if negb (provider_is provider rule) || negb (truthy (getd "enabled" (VBool true) rule)) then acc
     else
       let f := fingerprint rule in
       let name := match get "name" rule with VStr s => s | _ => "" end in
       (f :: acc.1, acc.2 ++ (if existsb (String.eqb f) acc.1
          then ["An earlier rule with the same conditions shadows " +:+ dq name +:+ "."] else [])))
   rules ([], [])).2.

(** [list(dict.fromkeys(l))]. *)
Definition unique (l : list string) : list string :=
  fold_left (fun acc s => if existsb (String.eqb s) acc then acc else acc ++ [s]) l [].

(** ** Review *)

(** [request['revision'] == policy['revision']] for a request revision that
    must be an integer. *)
Definition same_revision (v policy_revision : val) : bool :=
  match v with VInt _ => py_eq v policy_revision | _ => false end.

(** The undo record a request may restore. *)
Definition usable_undo (actor_uid : val) (provider : string) (revision : val) (now : Z) (u : undo_entry) : bool :=
  py_eq (u_uid u) actor_uid && String.eqb (u_provider u) provider && py_eq (u_revision u) revision
  && negb (u_deadline u <=? now).

Definition prepare_commands (actor_uid : val) (provider : string) (policy request : dict)
  : M (list val * option dict) :=
  if truthy (get "undo" request) then
    s ← gets id;
    revision ← lift (item "revision" policy);
    match (match get "undo" request with VStr t => lookup_token t (m_undo s) | _ => None end) with
    | Some u =>
        _ ← ensure (usable_undo actor_uid provider revision (m_clock s) u)
              "Undo expired or the policy changed. No changes were restored.";
        mret ([VDict (dlit [("operation", VStr "_restore")])], Some (u_before u))
    | None => raise (PolicyError "Undo expired or the policy changed. No changes were restored.")
    end
  else
    match get "commands" request with
    | VList l => mret (l, None)
    | _ => raise (PolicyError "A bounded non-empty change list is required.")
    end.

(** The check of zones and services against the installed ones. *)
Definition check_installed (rules : list dict) (cat : catalog_data) : res unit :=
  try_with (installed rules (cat_zones cat) (cat_services cat)) is_policy_error
    (fun _ => fail "Choose an installed firewall zone and service.").

(** [RuleManager.prepare(actor_uid, request)]; [token] is the fresh token. *)
Definition prepare (E : env) (actor_uid request : val) (uuids : nat -> string) (token : string) : M dict :=
  match request with
  | VDict request =>
      provider ← lift (choice ["application"; "incoming"] (get "provider" request)
                   "Choose an application or incoming-access transaction.");
      policy ← on_store (read E);
      _ ← ensure (negb (truthy (get "firewall_pending" policy)))
            "Incoming-access recovery must finish before editing rules.";
      revision ← lift (item "revision" policy);
      _ ← ensure (same_revision (get "revision" request) revision)
            "Policy changed. Reload and review your edits.";
      '(commands, restore) ← prepare_commands actor_uid provider policy request;
      _ ← ensure ((1 <=? Z.of_nat (length commands)) && (Z.of_nat (length commands) <=? MAX_RULES))
            "A bounded non-empty change list is required.";
      none ← no_firewall;
      _ ← ensure (negb (String.eqb provider "incoming" && none)) "firewalld is unavailable.";
      d ← lift (run_commands E provider actor_uid policy restore commands uuids);
      rules ← lift (rules_of (d_policy d));
      _ ← ensure (Z.of_nat (length rules) <=? MAX_RULES)
            "The policy limit is 1,024 rules. No existing rules were removed.";
      warnings ←
        (if String.eqb provider "incoming" then
           cat ← on_fw catalog;
           _ ← lift (check_installed rules cat);
           mret (d_warnings d ++
             ["Incoming rules affect the whole system. Established connections may remain open.";
              "Other firewalld policies can also affect reachability. This is a condition preview, not a connection test."])
         else mret (d_warnings d));
      let warnings := warnings ++ shadow_warnings provider rules in
      now ← gets m_clock;
      _ ← set_pending (List.filter (fun kt => negb (t_deadline kt.2 <=? now)));
      pending ← gets m_pending;
      _ ← ensure (negb (32 <=? Z.of_nat (length pending)))
            "Too many pending reviews. Close an existing review and retry.";
      before ← lift (rules_of policy);
      native ← (if String.eqb provider "incoming"
                then l ← on_pv (capture E before rules); mret (Some l) else mret None);
      _ ← set_pending (set_token token (Txn actor_uid provider policy (d_policy d) (now + REVIEW_TIME) false false
                                          (d_changes d) native));
      mret (dlit [("ok", VBool true); ("state", VStr "REVIEW"); ("transaction", VStr token); ("revision", revision);
                  ("changes", VList (d_changes d)); ("warnings", VList (map VStr (unique warnings)));
                  ("expires_in", VInt 180);
                  ("detail", VStr "Review these exact changes, then authenticate to apply. No policy has changed.")])
  | _ => raise (PolicyError "Choose an application or incoming-access transaction.")
  end.

(** ** Cancellation and application *)

Definition update_txn (token : string) (f : txn -> txn) : M unit :=
  set_pending (map (fun kt => if String.eqb kt.1 token then (kt.1, f kt.2) else kt)).

Definition set_cancelled (t : txn) : txn :=
  Txn (t_uid t) (t_provider t) (t_before t) (t_after t) (t_deadline t) true (t_applying t) (t_changes t) (t_native t).
Definition set_applying (t : txn) : txn :=
  Txn (t_uid t) (t_provider t) (t_before t) (t_after t) (t_deadline t) (t_cancelled t) true (t_changes t) (t_native t).

(** [RuleManager.cancel(actor_uid, token)]. *)
Definition cancel (actor_uid : val) (token : string) : M dict :=
  s ← gets id;
  match lookup_token token (m_pending s) with
  | Some t =>
      if py_eq (t_uid t) actor_uid then
        _ ← update_txn token set_cancelled;
        mret (dlit [("ok", VBool true); ("state", VStr "CANCELLED")])
      else raise (PolicyError "Review not found.")
  | None => raise (PolicyError "Review not found.")
  end.

(** The first locked section of [apply]: the review is claimed. *)
Definition apply_claim (actor_uid : val) (token : string) : M txn :=
  s ← gets id;
  match lookup_token token (m_pending s) with
  | Some t =>
      _ ← ensure (py_eq (t_uid t) actor_uid && negb (t_cancelled t) && negb (t_deadline t <=? m_clock s))
            "This review expired, was cancelled, or belongs to another caller.";
      _ ← ensure (negb (t_applying t)) "This review is already being applied.";
      _ ← update_txn token set_applying;
      mret (set_applying t)
  | None => raise (PolicyError "This review expired, was cancelled, or belongs to another caller.")
  end.

(** Under the policy lock: the checks that follow authentication. The
    transaction object is shared with [cancel], which sets its flag. *)
Definition apply_check (E : env) (token : string) (t : txn) : M dict :=
  policy ← on_store (read E);
  s ← gets id;
  let cancelled := match lookup_token token (m_pending s) with Some t => t_cancelled t | None => t_cancelled t end in
  _ ← ensure (negb (cancelled || (t_deadline t <=? m_clock s)))
        "The review was cancelled or expired during authentication.";
  revision ← lift (item "revision" policy);
  before ← lift (item "revision" (t_before t));
  _ ← ensure (py_eq revision before) "Policy changed during review. Nothing was applied.";
  mret policy.

(** The outcomes of the (up to three) policy writes of one application. *)
Record apply_outcomes := ApplyOutcomes { ao_journal : outcomes; ao_save : outcomes; ao_roll_back : outcomes }.

(** The journal of an incoming change: the policy with the captured entries. *)
Definition apply_journal (E : env) (t : txn) (policy : dict) (o : outcomes) : M (option (list val) * dict) :=
  if String.eqb (t_provider t) "incoming" then
    before ← lift (rules_of (t_before t));
    after ← lift (rules_of (t_after t));
    native ← on_pv (capture E before after);
    _ ← ensure (match t_native t with Some l => py_eq (VList native) (VList l) | None => false end)
          "firewalld changed during review. Nothing was applied.";
    let journal := dset "firewall_pending" (VDict (dlit [("native_before", VList native)])) policy in
    revision ← lift (revision_of policy);
    policy ← on_store (write E (VDict journal) revision o);
    mret (Some native, policy)
  else mret (None, policy).

(** The change itself; on failure the firewall is restored and the previous
    policy written back. *)
Definition apply_change (E : env) (t : txn) (native : option (list val)) (policy : dict) (o : apply_outcomes)
  : M dict :=
  catch
    (_ ← match native with
         | Some _ =>
             before ← lift (rules_of (t_before t));
             after ← lift (rules_of (t_after t));
             on_fw (replace E before after)
         | None => mret tt
         end;
     revision ← lift (revision_of policy);
     on_store (write E (VDict (t_after t)) revision (ao_save o)))
    any_exception
    (fun e =>
       _ ← match native with
           | Some records =>
               catch
                 (_ ← on_pv (restore records);
                  revision ← lift (revision_of policy);
                  _ ← on_store (write E (VDict (t_before t)) revision (ao_roll_back o));
                  mret tt)
                 any_exception
                 (fun _ => raise (PolicyError "Policy save failed and firewall rollback is INCOMPLETE."))
           | None => mret tt
           end;
       raise e).

Definition apply_commit (E : env) (t : txn) (policy : dict) (o : apply_outcomes) : M dict :=
  '(native, policy) ← apply_journal E t policy (ao_journal o);
  apply_change E t native policy o.

(** The undo record of an applied review. *)
Definition apply_record (actor_uid : val) (t : txn) (saved : dict) (undo_token : string) : M dict :=
  s ← gets id;
  revision ← lift (item "revision" saved);
  let live := List.filter (fun ku => negb (u_deadline ku.2 <=? m_clock s)) (m_undo s) in
  let live := if 32 <=? Z.of_nat (length live) then tail live else live in
  _ ← set_undo (fun _ => set_token undo_token
        (Undo actor_uid (t_provider t) (t_before t) revision (m_clock s + REVIEW_TIME)) live);
  mret (dlit [("ok", VBool true); ("state", VStr "SAVED"); ("revision", revision); ("undo", VStr undo_token);
              ("detail", VStr "Policy saved. Application changes affect future decisions; this is not proof that a connection matched.")]).

(** [RuleManager.apply(actor_uid, token, authorize)]; the review is removed from
    the pending ones whatever happens. *)
Definition apply (E : env) (actor_uid : val) (token : string) (authorize : txn -> M unit)
    (o : apply_outcomes) (undo_token : string) : M dict :=
  t ← apply_claim actor_uid token;
  finally
    (_ ← authorize t;
     policy ← apply_check E token t;
     saved ← apply_commit E t policy o;
     apply_record actor_uid t saved undo_token)
    (set_pending (pop_token token)).

(** ** Listing *)

Definition casefold_char (c : ascii) : string :=
  if ord c =? 223 then "ss" else String (lower_char c) "".
Fixpoint casefold (s : string) : string :=
  match s with "" => "" | String c s => casefold_char c +:+ casefold s end.

(** [t in s]. *)
Fixpoint contains (t s : string) : bool :=
  startswith t s || match s with "" => false | String _ s => contains t s end.

(** A page of the rules of a provider. *)
Record page := Page { pg_catalog : option catalog_data; pg_observed : dict; pg_external : val; pg_health : option string }.

Definition no_external : val := VDict (dlit [("rules", VList []); ("truncated", VBool false)]).

Definition health_text : string := "firewalld state is unavailable. Rules have not been assumed active.".

(** [m], or [None] when it raises. *)
Definition attempt {A} (m : M A) : M (option A) :=
  catch (a ← m; mret (Some a)) any_exception (fun _ => mret None).

(** What firewalld says about the incoming rules, as far as it could be read;
    after any failure the page is unhealthy instead of assuming that rules are
    active. *)
Definition incoming_page (E : env) (rules : list dict) : M page :=
  cat ← attempt (none ← no_firewall; _ ← ensure (negb none) "firewalld is unavailable."; on_fw catalog);
  match cat with
  | None => mret (Page None [] no_external (Some health_text))
  | Some _ =>
      observed ← attempt (on_pv (observe E rules));
      match observed with
      | None => mret (Page cat [] no_external (Some health_text))
      | Some obs =>
          ext ← attempt (on_pv (external E rules));
          mret (match ext with
                | None => Page cat obs no_external (Some health_text)
                | Some x => Page cat obs x None
                end)
      end
  end.

Definition page_rule (E : env) (pg : page) (position : nat) (rule : dict) : res dict :=
  identifier ← item_str "id" rule;
  state ← lifecycle E rule VNone VNone;
  let state := match pg_health pg with
               | Some _ => VStr "UNAVAILABLE"
               | None => getd identifier (VStr (life_str state)) (pg_observed pg)
               end in
  Ok (dset "owner" (VStr "GREYWARD") (dset "state" state (dset "position" (VInt (Z.of_nat position)) rule))).

Definition page_filter (search : string) (state : val) (rules : list dict) : list dict :=
  let rules := if String.eqb search "" then rules
    else List.filter (fun r => contains search (casefold (host_json_sorted (VDict r)))) rules in
  let rules := if is_str "ACTIVE" state
    then List.filter (fun r => in_strs ["SAVED"; "LOADED"; "OBSERVED"] (get "state" r)) rules else rules in
  if in_strs ["SAVED"; "LOADED"; "DISABLED"; "EXPIRED"; "UNAVAILABLE"] state
  then List.filter (fun r => py_eq (get "state" r) state) rules else rules.

Definition opt_text (o : option string) : val := match o with Some s => VStr s | None => VNone end.

Definition catalog_val (c : option catalog_data) : val :=
  match c with
  | None => VDict []
  | Some c => VDict (dlit [("zones", VList (map VStr (cat_zones c))); ("services", VList (map VStr (cat_services c)));
      ("service_details", VList (cat_details c)); ("definitions_incomplete", VBool (cat_incomplete c));
      ("definitions_source", VStr "firewalld-runtime")])
  end.

(** [RuleManager.listing(actor_uid, query)]. *)
Definition listing (E : env) (actor_uid : val) (query : dict) : M dict :=
  policy ← on_store (read E);
  _ ← ensure (negb (truthy (get "firewall_pending" policy)))
        "An interrupted incoming-access change requires recovery before editing.";
  provider ← lift (choice ["application"; "incoming"] (getd "provider" (VStr "application") query)
               "Unknown rule provider.");
  offset ← lift (match getd "offset" (VInt 0) query with
                 | VInt z => if (0 <=? z) && (z <=? MAX_RULES) then Ok z else fail "Invalid page offset."
                 | _ => fail "Invalid page offset." end);
  all ← lift (rules_of policy);
  let rules := List.filter (provider_is provider) all in
  pg ← (if String.eqb provider "incoming" then incoming_page E all else mret (Page None [] no_external None));
  let search := str_take 160 (casefold (match getd "search" (VStr "") query with VStr s => s | _ => "" end)) in
  rules ← lift (mapM_res (fun ir => page_rule E pg ir.1 ir.2) (imap (fun i r => (i, r)) rules));
  let rules := page_filter search (get "state" query) rules in
  revision ← lift (item "revision" policy);
  s ← gets id;
  let n := Z.of_nat (length rules) in
  mret (dlit [("ok", VBool true); ("schema", VStr SCHEMA); ("revision", revision);
    ("rules", VList (map VDict (take 100 (drop (Z.to_nat offset) rules)))); ("total", VInt n);
    ("offset", VInt offset); ("next_offset", if offset + 100 <? n then VInt (offset + 100) else VNone);
    ("actor_uid", actor_uid); ("provider", VStr provider); ("catalog", catalog_val (pg_catalog pg));
    ("external", pg_external pg);
    ("detail", match pg_health pg with
               | Some h => VStr h
               | None => py_or (opt_text (error (w_store (m_world s)))) (opt_text (backup_error (w_store (m_world s))))
               end);
    ("capabilities", VDict (dlit [("edit", VBool (match pg_health pg with None => true | _ => false end));
       ("flatpak_identity", VBool false); ("script_identity", VBool false); ("interactive_prompts", VBool false);
       ("max_rules", VInt MAX_RULES)]));
    ("default_action", getd "default_action" (VStr "allow") policy)]).
End manager.
