(* ===== verification/TransactionProps.v ===== *)
(** * Reviewed transactions: lemmas

    The effects of the operations of the rule manager on the policy file and on
    the firewall, and the command list's effect on the rules. *)
From S2P Require Import Prelude PyVal PyStr IpAddr Json NetworkRules RuleSpec NormalizeProps RulesCorrect RuleClaims PolicyStore Firewall FirewallClaims Transactions.

Section props.
Context {P : Type} `{FirewalldOk P} `{Host} `{FloatText}.
Abbreviation M := (act (mworld P)).
Implicit Types (s : mworld P).

(** The entries of the firewall, if there is one. *)
Definition entry_present s (k : key) : bool :=
  match m_fw s with Some f => fd_has f.1 k | None => false end.

(** The policy file, the firewall and the undo records are as they were. *)
Definition untouched s s' : Prop :=
  w_disk (m_world s') = w_disk (m_world s) /\ (forall k, entry_present s' k = entry_present s k)
  /\ m_undo s' = m_undo s /\ m_clock s' = m_clock s.

#[export] Instance untouched_preorder : PreOrder untouched.
Proof.
  split; [done|]. intros s1 s2 s3 (Ha & Hb & Hc & Hd) (Ha' & Hb' & Hc' & Hd').
  split_and!; [congruence| |congruence..]. intros k. by rewrite Hb', Hb.
Qed.

Lemma untouched_read E : respects untouched (on_store (read E)).
Proof.
  intros s. pose proof (read_disk E (m_world s)) as Hd. unfold after, on_store in *.
  destruct (read E (m_world s)) as [r w]. by split_and!.
Qed.

Lemma untouched_fw {A} (m : act (P * cache) A) : keeps has2 no_key m -> respects untouched (on_fw m).
Proof.
  intros Hm s. unfold after, on_fw. destruct (m_fw s) as [f|] eqn:Hf; [|done].
  pose proof (Hm f) as Hk. unfold after, has2 in Hk. destruct (m f) as [r f']. cbn [snd] in *.
  split_and!; try done. intros k. unfold entry_present. rewrite Hf. cbn. apply Hk. by intros [].
Qed.

Lemma capture_keeps E before after_rules : keeps fd_has no_key (capture E before after_rules).
Proof.
  unfold capture. apply keeps_bind; [apply keeps_lift|intros old].
  apply keeps_bind; [apply keeps_lift|intros new]. apply keeps_bind; [apply keeps_lift|intros _].
  generalize (sort_entries (sym_diff old new)). intros l.
  generalize (@nil key) (@nil (string * plane * list string)).
  induction l as [|e l IH]; intros seen snaps; cbn [capture_loop]; [apply keeps_ret|].
  destruct (existsb _ _); [apply IH|]. apply keeps_bind; [|intros [rules snaps']].
  - unfold snapshot. destruct (List.find _ _); [apply keeps_ret|].
    apply keeps_bind; [apply keeps_provider|intros _].
    apply keeps_bind; [apply keeps_rich|intros; apply keeps_ret].
  - apply keeps_bind; [apply IH|intros; apply keeps_ret].
Qed.

Lemma untouched_pending f : respects untouched (set_pending (P := P) f).
Proof. by intros s. Qed.

Lemma untouched_ensure b m : respects untouched (ensure (P := P) b m).
Proof. apply respects_lift. apply _. Qed.

Lemma untouched_no_firewall : respects untouched (no_firewall (P := P)).
Proof. apply respects_gets. apply _. Qed.

Ltac manager :=
  repeat first
    [ apply respects_ret; apply _ | apply respects_lift; apply _ | apply respects_raise; apply _
    | apply respects_gets; apply _ | apply untouched_read | apply untouched_pending | apply untouched_ensure
    | apply untouched_no_firewall | apply untouched_fw
    | apply respects_bind; [apply _| |intros ?]
    | match goal with
      | |- respects _ (match ?x with _ => _ end) => destruct x
      | |- respects _ (let '_ := ?x in _) => destruct x
      end ].

Lemma untouched_commands actor_uid provider policy request :
  respects untouched (prepare_commands (P := P) actor_uid provider policy request).
Proof. unfold prepare_commands. manager. Qed.

Lemma untouched_prepare resolve E actor_uid request uuids token :
  respects untouched (prepare resolve E actor_uid request uuids token).
Proof.
  unfold prepare. destruct request as [| | | | | |request]; try (apply respects_raise; apply _).
  apply respects_bind; [apply _|manager|intros provider].
  apply respects_bind; [apply _|manager|intros policy].
  apply respects_bind; [apply _|manager|intros _].
  apply respects_bind; [apply _|manager|intros revision].
  apply respects_bind; [apply _|manager|intros _].
  apply respects_bind; [apply _|apply untouched_commands|intros [commands restore]].
  apply respects_bind; [apply _|manager|intros _].
  apply respects_bind; [apply _|manager|intros none].
  apply respects_bind; [apply _|manager|intros _].
  apply respects_bind; [apply _|manager|intros d].
  apply respects_bind; [apply _|manager|intros rules].
  apply respects_bind; [apply _|manager|intros _].
  apply respects_bind; [apply _| |intros warnings].
  { destruct (String.eqb provider "incoming"); manager. apply catalog_keeps. }
  apply respects_bind; [apply _|manager|intros now].
  apply respects_bind; [apply _|manager|intros _].
  apply respects_bind; [apply _|manager|intros pending].
  apply respects_bind; [apply _|manager|intros _].
  apply respects_bind; [apply _|manager|intros before].
  apply respects_bind; [apply _| |intros native].
  { destruct (String.eqb provider "incoming"); manager. apply keeps_on_p, capture_keeps. }
  manager.
Qed.

Lemma untouched_check E token t : respects untouched (apply_check (P := P) E token t).
Proof. unfold apply_check. manager. Qed.

(** ** Bounded tables *)

Definition tables_bounded s : Prop := (length (m_pending s) <= 32)%nat /\ (length (m_undo s) <= 32)%nat.
Definition keeps_bounded s s' : Prop := tables_bounded s -> tables_bounded s'.

#[export] Instance keeps_bounded_preorder : PreOrder keeps_bounded.
Proof. split; [intros s Hs; exact Hs|]. intros s1 s2 s3 Hx Hy Hs. by apply Hy, Hx. Qed.

Lemma bounded_store {A} (m : act world A) : respects keeps_bounded (on_store (P := P) m).
Proof. intros s Hs. unfold after, on_store. destruct (m (m_world s)). exact Hs. Qed.

Lemma bounded_fw {A} (m : act (P * cache) A) : respects keeps_bounded (on_fw m).
Proof.
  intros s Hs. unfold after, on_fw. destruct (m_fw s) as [f|]; [|exact Hs]. destruct (m f). exact Hs.
Qed.

Lemma bounded_shrink f :
  (forall l, (length (f l) <= length l)%nat) -> respects keeps_bounded (set_pending (P := P) f).
Proof.
  intros Hf s [Hp Hu]. split; [|exact Hu]. unfold after, set_pending, modify. cbn. specialize (Hf (m_pending s)). lia.
Qed.

Lemma filter_length_le {A} (f : A -> bool) l : (length (List.filter f l) <= length l)%nat.
Proof. induction l as [|x l IH]; simpl; [lia|]. destruct (f x); simpl; lia. Qed.

Lemma set_token_length {A} k (v : A) d : (length (set_token k v d) <= S (length d))%nat.
Proof. unfold set_token. destruct (existsb _ d); [rewrite length_map; lia | rewrite length_app; simpl; lia]. Qed.

Ltac bounded :=
  repeat first
    [ apply respects_ret; apply _ | apply respects_lift; apply _ | apply respects_raise; apply _
    | apply respects_gets; apply _ | apply bounded_store | apply bounded_fw
    | apply bounded_shrink; intros; first [apply filter_length_le | rewrite length_map; lia]
    | apply respects_bind; [apply _| |intros ?] | apply respects_catch; [apply _| |intros ?]
    | apply respects_finally; [apply _| |]
    | match goal with
      | |- respects _ (match ?x with _ => _ end) => destruct x
      | |- respects _ (let '_ := ?x in _) => destruct x
      end ].

Lemma bounded_cancel actor_uid token : respects keeps_bounded (cancel (P := P) actor_uid token).
Proof. unfold cancel, update_txn. bounded. Qed.

Lemma bounded_record actor_uid t saved undo_token :
  respects keeps_bounded (apply_record (P := P) actor_uid t saved undo_token).
Proof.
  intros s [Hp Hu]. unfold after, apply_record, mbind, act_bind, gets, id, lift.
  destruct (item "revision" saved); [|exact (conj Hp Hu)]. split; [exact Hp|]. cbn -[set_token Z.leb].
  set (live := List.filter _ (m_undo s)).
  assert (length live <= 32)%nat as Hlive by (etransitivity; [apply filter_length_le|done]).
  destruct (32 <=? Z.of_nat (length live)) eqn:Hl;
    (etransitivity; [apply set_token_length|]); [|apply Z.leb_gt in Hl; lia].
  destruct live as [|x live']; cbn [tail length] in *; lia.
Qed.

Lemma bounded_apply E actor_uid token authorize o undo_token :
  (forall t, respects keeps_bounded (authorize t)) ->
  respects keeps_bounded (apply (P := P) E actor_uid token authorize o undo_token).
Proof.
  intros Ha. unfold apply. apply respects_bind; [apply _| |intros t].
  { unfold apply_claim, ensure, update_txn. bounded. }
  apply respects_finally; [apply _| |bounded].
  apply respects_bind; [apply _|apply Ha|intros _].
  apply respects_bind; [apply _| |intros policy]. { unfold apply_check, ensure. bounded. }
  apply respects_bind; [apply _| |intros saved].
  { unfold apply_commit, apply_journal, apply_change, on_pv, ensure. bounded. }
  apply bounded_record.
Qed.

(** The end of [prepare]: the review is added when there is room. *)
Lemma bounded_add token (k : list dict -> M (option (list val))) mk result policy m :
  (forall l, respects keeps_bounded (k l)) ->
  (forall l s, m_pending (after (k l) s) = m_pending s) ->
  respects keeps_bounded (
    pending ← gets (fun s => m_pending s);
    _ ← ensure (negb (32 <=? Z.of_nat (length pending))) m;
    before ← lift (rules_of policy);
    native ← k before;
    _ ← set_pending (set_token token (mk native));
    mret result : M dict).
Proof.
  intros Hk Hp s Hs. unfold after, mbind, act_bind, gets, ensure, lift.
  destruct (32 <=? Z.of_nat (length (m_pending s))) eqn:Hl; [exact Hs|]. apply Z.leb_gt in Hl.
  cbn [negb require]. destruct (rules_of policy) as [before|]; [|exact Hs].
  specialize (Hp before s). specialize (Hk before s Hs). unfold after in *.
  destruct (k before s) as [[native|e] s1]; cbn [snd] in *; [|exact Hk].
  destruct Hk as [Hk1 Hk2]. split; [|exact Hk2]. cbn -[set_token]. rewrite Hp.
  etransitivity; [apply set_token_length|]. lia.
Qed.

Lemma bounded_prepare resolve E actor_uid request uuids token :
  respects keeps_bounded (prepare resolve E actor_uid request uuids token).
Proof.
  unfold prepare. destruct request as [| | | | | |request]; try (apply respects_raise; apply _).
  do 5 (apply respects_bind; [apply _|unfold ensure; bounded|intros ?]).
  apply respects_bind; [apply _|unfold prepare_commands, ensure; bounded|intros [commands restore]].
  do 6 (apply respects_bind; [apply _|unfold ensure, no_firewall; bounded|intros ?]).
  apply respects_bind; [apply _|unfold on_fw; bounded|intros warnings].
  apply respects_bind; [apply _|bounded|intros now]. apply respects_bind; [apply _|bounded|intros _].
  apply (bounded_add token (fun before => if String.eqb _ "incoming" then l ← on_pv (capture E before _); mret (Some l)
                             else mret None)).
  - intros l. unfold on_pv. bounded.
  - intros l s. destruct (String.eqb _ _); [|done]. unfold after, on_pv, on_fw, mbind, act_bind.
    destruct (m_fw s) as [f|]; [|done]. by destruct (on_p _ f) as [[]].
Qed.

(** ** What refusal leaves *)

Lemma lookup_pop {A} token (d : list (string * A)) : lookup_token token (pop_token token d) = None.
Proof.
  unfold lookup_token, pop_token. induction d as [|[k v] d IH]; [done|]. cbn.
  destruct (String.eqb_spec k token) as [->|Hne]; cbn; [done|].
  by rewrite (proj2 (String.eqb_neq token k)) by congruence.
Qed.

Lemma apply_claimed E actor_uid token authorize o undo_token s t s1 :
  apply_claim actor_uid token s = (Ok t, s1) ->
  apply E actor_uid token authorize o undo_token s =
  finally (_ ← authorize t; policy ← apply_check E token t; saved ← apply_commit E t policy o;
           apply_record actor_uid t saved undo_token) (set_pending (pop_token token)) s1.
Proof. intros Hc. unfold apply, mbind at 1, act_bind at 1. by rewrite Hc. Qed.

(** A body that raises leaves the state it raised in, the review removed. *)
Lemma finally_pop_err {A} (m : M A) token s e s2 :
  m s = (Err e, s2) -> finally m (set_pending (pop_token token)) s
  = (Err e, MWorld (m_world s2) (m_fw s2) (pop_token token (m_pending s2)) (m_undo s2) (m_clock s2)).
Proof. intros Hm. unfold finally. by rewrite Hm. Qed.

Lemma check_refuses E token t s2 :
  (exists t2, lookup_token token (m_pending s2) = Some t2 /\ t_cancelled t2 = true)
  \/ t_deadline t <= m_clock s2
  \/ (forall policy, outcome (on_store (read E)) s2 = Ok policy ->
        py_eq (get "revision" policy) (get "revision" (t_before t)) = false) ->
  exists e s3, apply_check E token t s2 = (Err e, s3) /\ untouched s2 s3.
Proof.
  intros Hr. pose proof (untouched_check E token t s2) as Hu. unfold after in Hu.
  destruct (apply_check E token t s2) as [[policy|e] s3] eqn:Hc; [|by exists e, s3].
  exfalso. unfold apply_check in Hc. apply act_bind_Ok in Hc as (p1 & s4 & Hread & Hc).
  pose proof (untouched_read E s2) as Hu4. unfold after in Hu4. rewrite Hread in Hu4. cbn [snd] in Hu4.
  assert (m_pending s4 = m_pending s2) as Hpend.
  { unfold on_store in Hread. destruct (read E (m_world s2)). by injection Hread as _ <-. }
  apply act_bind_Ok in Hc as (s5 & s6 & Hg & Hc). injection Hg as <- <-. cbv zeta in Hc. unfold id in Hc.
  apply act_bind_Ok in Hc as (? & s5 & Hq & Hc). injection Hq as Hq%require_Ok <-.
  apply negb_true_iff, orb_false_iff in Hq as [Hcan Hdl].
  apply act_bind_Ok in Hc as (rev & s5 & Hrev & Hc). injection Hrev as Hrev <-.
  apply act_bind_Ok in Hc as (rev' & s5 & Hrev' & Hc). injection Hrev' as Hrev' <-.
  apply act_bind_Ok in Hc as (? & s5 & Hq & Hc). injection Hq as Hq%require_Ok <-.
  destruct Hr as [(t2 & Hl & Ht2) | [Hd | Hp]].
  - rewrite Hpend, Hl in Hcan. congruence.
  - destruct Hu4 as (_ & _ & _ & Hclk). rewrite Hclk in Hdl. apply Z.leb_gt in Hdl. lia.
  - specialize (Hp p1). unfold outcome in Hp. rewrite Hread in Hp. specialize (Hp eq_refl).
    unfold get, getd, item in *. destruct (dget "revision" p1); [|done].
    destruct (dget "revision" (t_before t)); [|done]. injection Hrev as ->. injection Hrev' as ->. congruence.
Qed.
End props.

(** * Reviewed transactions: firewall safety and command frames

    A failed application restores the firewall; the command list of one
    provider leaves the rules of the other alone; moving a rule is a
    permutation. *)

Section safety.
Context {P : Type} `{FirewalldOk P} `{Host} `{FloatText}.
Abbreviation M := (act (mworld P)).
Implicit Types (s : mworld P).

Definition ROLLBACK_INCOMPLETE : exn := PolicyError "Policy save failed and firewall rollback is INCOMPLETE.".

(** The firewall entries of [s'] are those of [s], but for entries of the old
    rules that were there and whose deadline has passed on the clock of [s']. *)
Definition clock_of s : val := match m_fw s with Some f => fd_time f.1 | None => VNone end.

Definition entries_restored (old : list entry) s s' : Prop := forall k,
  brought_back (entry_present s k) (entry_present s' k) (old_expiry old k) (clock_of s').

Lemma restored_same old s s' : (forall k, entry_present s' k = entry_present s k) -> entries_restored old s s'.
Proof. intros Hs k. left. apply Hs. Qed.

Lemma on_store_fw {A} (m : act world A) s : m_fw (after (on_store (P := P) m) s) = m_fw s.
Proof. unfold after, on_store. by destruct (m (m_world s)). Qed.

Lemma on_pv_run {A} (m : act P A) s p c :
  m_fw s = Some (p, c) ->
  on_pv m s = ((m p).1, MWorld (m_world s) (Some ((m p).2, c)) (m_pending s) (m_undo s) (m_clock s)).
Proof. intros Hf. unfold on_pv, on_fw, on_p. rewrite Hf. cbn [fst snd]. by destruct (m p). Qed.

Lemma on_pv_none {A} (m : act P A) s : m_fw s = None -> on_pv m s = (Err AttributeError, s).
Proof. intros Hf. unfold on_pv, on_fw. by rewrite Hf. Qed.

Lemma journal_result E t policy o s r s1 :
  apply_journal E t policy o s = (r, s1) -> t_provider t = "incoming" ->
  (forall k, entry_present s1 k = entry_present s k) /\
  forall native policy', r = Ok (native, policy') ->
  exists before after_rules records p p1 c,
    rules_of (t_before t) = Ok before /\ rules_of (t_after t) = Ok after_rules /\ native = Some records
    /\ m_fw s = Some (p, c) /\ capture E before after_rules p = (Ok records, p1) /\ m_fw s1 = Some (p1, c).
Proof.
  intros Hj Hp. unfold apply_journal in Hj. rewrite Hp in Hj.
  change ("incoming" =? "incoming")%string with true in Hj. cbv iota in Hj.
  unfold mbind, act_bind, lift in Hj.
  destruct (rules_of (t_before t)) as [before|] eqn:Hb; [|by injection Hj as <- <-].
  destruct (rules_of (t_after t)) as [after_rules|] eqn:Ha; [|by injection Hj as <- <-].
  destruct (m_fw s) as [[p c]|] eqn:Hf.
  2: { rewrite on_pv_none in Hj by done. by injection Hj as <- <-. }
  rewrite (on_pv_run _ s p c Hf) in Hj.
  assert (forall k, fd_has (capture E before after_rules p).2 k = fd_has p k) as Hsame.
  { intros k. apply (capture_keeps E before after_rules p k). by intros []. }
  destruct (capture E before after_rules p) as [[records|e] p1] eqn:Hc; cbn [fst snd] in *.
  2: { injection Hj as <- <-. split; [|done]. intros k. unfold entry_present. rewrite Hf. apply Hsame. }
  set (s2 := MWorld (m_world s) (Some (p1, c)) (m_pending s) (m_undo s) (m_clock s)) in *.
  assert (forall k, entry_present s2 k = entry_present s k) as Hs2.
  { intros k. unfold entry_present. rewrite Hf. apply Hsame. }
  unfold ensure, lift in Hj. destruct (require _ _); [|by injection Hj as <- <-].
  destruct (revision_of policy) as [revision|]; [|by injection Hj as <- <-].
  match type of Hj with context [on_store ?m s2] => pose proof (on_store_fw m s2) as Hfw end.
  unfold TransactionProps.entry_present, after in *.
  destruct (on_store _ s2) as [[policy1|e] s3]; cbn [snd] in Hfw; injection Hj as <- <-.
  - split; [intros k; rewrite Hfw; apply Hs2|]. intros native policy' [= <- <-].
    exists before, after_rules, records, p, p1, c. split_and!; try done.
  - split; [|done]. intros k. rewrite Hfw. apply Hs2.
Qed.

Lemma commit_restores E t policy o s e s' before old :
  t_provider t = "incoming" -> rules_of (t_before t) = Ok before -> entries E before = Ok old ->
  apply_commit E t policy o s = (Err e, s') -> e <> ROLLBACK_INCOMPLETE -> entries_restored old s s'.
Proof.
  intros Hp Hb Ho Hc Hne. unfold apply_commit in Hc. unfold mbind at 1, act_bind at 1 in Hc.
  destruct (apply_journal E t policy (ao_journal o) s) as [r s1] eqn:Hj.
  destruct (journal_result _ _ _ _ _ _ _ Hj Hp) as [Hsame Hok].
  destruct r as [[native policy1]|e1]; [|injection Hc as _ <-; by apply restored_same].
  destruct (Hok native policy1 eq_refl) as (before' & after_rules & records & p & p1 & c & Hb' & Ha & -> & Hf & Hcap & Hf1).
  rewrite Hb in Hb'. injection Hb' as <-. clear Hok Hj. unfold apply_change in Hc.
  unfold catch at 1 in Hc.
  destruct ((_ ← _; revision ← lift (revision_of policy1); _) s1) as [[saved|e2] s2] eqn:Hrun; [done|].
  assert (exists p2 c2, m_fw s2 = Some (p2, c2) /\ forall old new k, entries E before = Ok old ->
    entries E after_rules = Ok new -> ~ changed_keys old new k -> fd_has p2 k = fd_has p1 k) as (p2 & c2 & Hf2 & Hframe).
  { unfold mbind, act_bind, lift in Hrun. rewrite Hb, Ha in Hrun. unfold on_fw in Hrun. rewrite Hf1 in Hrun.
    pose proof (fun old new k Ho Hn => replace_keeps E before after_rules old new Ho Hn (p1, c) k) as Hk.
    unfold after, has2 in Hk. destruct (replace E before after_rules (p1, c)) as [[u|e3] [p2 c2]]; cbn [fst snd] in *.
    - exists p2, c2. destruct (revision_of policy1) as [revision|].
      + match type of Hrun with on_store ?m ?x = _ => pose proof (on_store_fw m x) as Hfw end.
        unfold after in Hfw. rewrite Hrun in Hfw. split; [exact Hfw|]. intros. by eapply Hk.
      + injection Hrun as _ <-. split; [done|]. intros. by eapply Hk.
    - injection Hrun as _ <-. exists p2, c2. split; [done|]. intros. by eapply Hk. }
  cbn [any_exception] in Hc. unfold mbind at 1, act_bind at 1 in Hc.
  unfold catch in Hc. unfold mbind at 1, act_bind at 1 in Hc. rewrite (on_pv_run _ s2 p2 c2 Hf2) in Hc.
  destruct (restore records p2) as [[u|e4] p3] eqn:Hr; cbn [fst snd any_exception] in Hc;
    [|unfold raise in Hc; injection Hc as <- _; by destruct Hne].
  destruct (restore_captured E before after_rules p records p1 p2 u p3 Hcap Hframe Hr) as (old' & Ho' & Hres).
  rewrite Ho in Ho'. injection Ho' as <-.
  assert (forall s3, m_fw s3 = Some (p3, c2) -> entries_restored old s s3) as Hdone.
  { intros s3 Hf3 k. unfold TransactionProps.entry_present, clock_of. rewrite Hf, Hf3. apply Hres. }
  unfold mbind, act_bind, lift in Hc. destruct (revision_of policy1) as [revision|]; cbn in Hc;
    [|unfold raise in Hc; injection Hc as <- _; by destruct Hne].
  match type of Hc with context [on_store ?m ?x] => pose proof (on_store_fw m x) as Hfw end.
  unfold after in Hfw. destruct (on_store _ _) as [[w|e5] s4]; cbn [snd m_fw] in Hfw; cbn in Hc.
  - unfold raise in Hc. injection Hc as _ <-. by apply Hdone.
  - unfold raise in Hc. injection Hc as <- _. by destruct Hne.
Qed.
End safety.
