(* ===== verification/RuleCommands.v ===== *)
(** * The commands of a review: lemmas

    How a command list edits the rules of its provider, and that it leaves the
    rules of the other provider alone. *)
From S2P Require Import Prelude PyVal PyStr IpAddr Json NetworkRules RuleSpec NormalizeProps RulesCorrect RuleClaims.
From S2P Require Import PolicyStore Firewall Transactions.

(** ** Moving a rule *)

Section move.
Context (p : dict -> bool).

Lemma filter_insert_at i x (l : list dict) :
  List.filter p (insert_at i x l) = List.filter p (take i l) ++ (if p x then [x] else []) ++ List.filter p (drop i l).
Proof. unfold insert_at. rewrite List.filter_app. cbn [List.filter]. by destruct (p x). Qed.

Lemma insert_at_perm {A} i x (l : list A) : insert_at i x l ≡ₚ x :: l.
Proof. unfold insert_at. rewrite <- (take_drop i l) at 3. by rewrite Permutation_middle. Qed.

Lemma delete_perm {A} i x (l : list A) : l !! i = Some x -> x :: delete i l ≡ₚ l.
Proof. intros Hi. symmetry. by apply delete_Permutation. Qed.

Lemma filter_delete i x (l : list dict) :
  l !! i = Some x -> p x = false -> List.filter p (delete i l) = List.filter p l.
Proof.
  intros Hi Hx. rewrite <- (take_drop_middle l i x Hi) at 2. rewrite delete_take_drop, !List.filter_app. cbn.
  by rewrite Hx.
Qed.

Lemma filter_insert i x y (l : list dict) :
  l !! i = Some x -> p x = false -> p y = false -> List.filter p (<[i := y]> l) = List.filter p l.
Proof.
  intros Hi Hx Hy. rewrite insert_take_drop by by eapply lookup_lt_Some.
  rewrite <- (take_drop_middle l i x Hi) at 3. rewrite !List.filter_app. cbn. by rewrite Hx, Hy.
Qed.
End move.

Lemma sibling_index_split provider n l :
  (n <= length (List.filter (provider_is provider) l))%nat -> (0 < n)%nat ->
  let i := S (sibling_index provider (n - 1) l) in
  List.filter (provider_is provider) (take i l) = take n (List.filter (provider_is provider) l)
  /\ List.filter (provider_is provider) (drop i l) = drop n (List.filter (provider_is provider) l).
Proof.
  revert n; induction l as [|r l IH]; intros n; cbn [List.filter length]; [lia|].
  cbn [sibling_index take drop List.filter]. destruct (provider_is provider r) eqn:Hr; cbn [length].
  - intros Hn Hpos. destruct n as [|[|n]]; [lia| |].
    + cbn [Nat.sub sibling_index take drop]. by rewrite !take_0, !drop_0.
    + cbn [Nat.sub]. destruct (IH (S n)) as [IH1 IH2]; [lia..|]. cbn [Nat.sub] in IH1, IH2.
      rewrite Nat.sub_0_r in IH1, IH2. cbn [take drop]. by rewrite IH1, IH2.
  - intros Hn Hpos. by destruct (IH n) as [-> ->].
Qed.

Lemma sibling_index_at provider n l :
  (n < length (List.filter (provider_is provider) l))%nat ->
  let i := sibling_index provider n l in
  List.filter (provider_is provider) (take i l) = take n (List.filter (provider_is provider) l)
  /\ List.filter (provider_is provider) (drop i l) = drop n (List.filter (provider_is provider) l).
Proof.
  revert n; induction l as [|r l IH]; intros n; cbn [List.filter length]; [lia|].
  cbn [sibling_index]. destruct (provider_is provider r) eqn:Hr; cbn [length].
  - destruct n as [|n]; intros Hn; cbn [take drop List.filter]; rewrite Hr; [done|].
    by destruct (IH n ltac:(lia)) as [-> ->].
  - intros Hn. cbn [take drop List.filter]. rewrite Hr. by destruct (IH n Hn) as [-> ->].
Qed.

(** The siblings after a move: the rule is at its position among them. *)
Lemma move_rule_siblings provider i rule position rules :
  provider_is provider rule = true ->
  (position <= length (List.filter (provider_is provider) (delete i rules)))%nat ->
  List.filter (provider_is provider) (move_rule provider i rule position rules)
  = insert_at position rule (List.filter (provider_is provider) (delete i rules)).
Proof.
  intros Hp Hpos. unfold move_rule. rewrite filter_insert_at, Hp. unfold insert_at.
  set (rest := delete i rules) in *.
  destruct (Nat.ltb_spec position (length (List.filter (provider_is provider) rest))) as [Hlt|Hge].
  - by destruct (sibling_index_at provider position rest Hlt) as [-> ->].
  - assert (position = length (List.filter (provider_is provider) rest)) as -> by lia.
    destruct (length (List.filter (provider_is provider) rest)) as [|n] eqn:Hn.
    + rewrite take_ge, drop_ge by done. by rewrite (nil_length_inv _ Hn).
    + destruct (sibling_index_split provider (S n) rest) as [Hs1 Hs2]; [lia..|].
      cbn [Nat.sub] in Hs1, Hs2. rewrite Nat.sub_0_r in Hs1, Hs2. by rewrite Hs1, Hs2.
Qed.

Lemma filter_move_other p provider i rule position rules :
  rules !! i = Some rule -> p rule = false ->
  List.filter p (move_rule provider i rule position rules) = List.filter p rules.
Proof.
  intros Hi Hp. unfold move_rule. rewrite filter_insert_at, Hp. cbn [app].
  rewrite <- List.filter_app, take_drop. by eapply filter_delete.
Qed.

(** ** Frames of commands *)

(** A rule of provider [q], not a reserved protection. *)
Definition owned (q : string) (r : dict) : bool := provider_is q r && negb (truthy (get "tier" r)).

Lemma rules_of_set rules p : rules_of (set_rules rules p) = Ok rules.
Proof.
  unfold rules_of, set_rules, item. rewrite dget_dset_eq. cbn [mbind res_bind as_list].
  apply mapM_res_Ok. induction rules; cbn; constructor; done.
Qed.

Lemma rules_of_dset k v p : k <> "rules" -> rules_of (dset k v p) = rules_of p.
Proof. intros Hk. unfold rules_of, item. by rewrite dget_dset_ne. Qed.

Lemma find_rule_lookup identifier rules i r :
  find_rule identifier rules = Some (i, r) -> rules !! i = Some r.
Proof.
  revert i; induction rules as [|r' rules IH]; intros i; cbn [find_rule]; [done|].
  destruct (py_eq _ _); [by intros [= <- <-]|].
  destruct (find_rule identifier rules) as [[j r2]|]; [|done]. cbn. intros [= <- ->]. by apply IH.
Qed.

Lemma existing_lookup identifier rules i r :
  existing_rule identifier rules = Some (i, r) -> rules !! i = Some r.
Proof. unfold existing_rule. destruct (truthy _); [apply find_rule_lookup|done]. Qed.

Section frames.
Context `{Host}.
Implicit Types (E : env) (d : draft).

Lemma owned_other q provider r : q <> provider -> provider_is provider r = true -> owned q r = false.
Proof.
  intros Hne Hp. unfold owned, provider_is in *. destruct (get "provider" r); try done.
  cbn in *. apply String.eqb_eq in Hp as ->. by rewrite (proj2 (String.eqb_neq provider q)).
Qed.

Lemma owned_tier q r : truthy (get "tier" r) = true -> owned q r = false.
Proof. intros Ht. unfold owned. by rewrite Ht, andb_false_r. Qed.

(** The guard on the edited rule. *)
Definition editable (provider : string) (operation : val) (r : dict) : bool :=
  (is_str "THREAT_EXCEPTION" (get "tier" r) && is_str "delete" operation && String.eqb provider "application")
  || (provider_is provider r && negb (truthy (get "tier" r))).

Lemma editable_not_owned q provider operation r :
  q <> provider -> editable provider operation r = true -> owned q r = false.
Proof.
  intros Hne [Ht|Hp]%orb_true_iff.
  - apply owned_tier. apply andb_true_iff in Ht as [[Ht _]%andb_true_iff _].
    apply is_str_eq in Ht as ->. done.
  - apply andb_true_iff in Hp as [Hp _]. by eapply owned_other.
Qed.

(** The provider of a normalised rule is the requested one. *)
Lemma normalize_provider E value auid ex ct cb uuid r provider :
  normalize E (VDict value) auid ex ct cb uuid = Ok r -> getd "provider" (VStr "application") value = VStr provider ->
  provider_is provider r = true.
Proof.
  intros (value' & uid & p & c & [= <-] & Huid & Hparts & Hc & _ & Hr)%normalize_inv Hp.
  apply cp_provider in Hparts as Hprov. apply choice_Ok in Hprov as [Hv Hin]. rewrite Hp in Hv. injection Hv as <-.
  unfold normalize_rest in Hr. destruct (String.eqb_spec provider "application") as [->|Hne].
  - apply (normalize_application_inv _ _ auid) in Hr as (ar & _ & _ & ->); [|done..].
    unfold provider_is, get, getd. by rewrite app_dict_common by (simpl; tauto).
  - destruct Hin as [<-|[<-|[]]]; [done|]. apply normalize_incoming_inv in Hr as (ir & _ & -> & _); [|done]. done.
Qed.

Lemma resolve_provider resolve provider r r' :
  resolve_path resolve r = Ok r' -> provider_is provider r = provider_is provider r'.
Proof.
  unfold resolve_path. destruct resolve as [f|]; [|by intros [= ->]].
  destruct (is_str "*" _); [by intros [= ->]|]. intros Hr.
  apply bind_Ok in Hr as (path & _ & Hr). apply bind_Ok in Hr as (p & _ & Hr).
  assert (forall a b : dict, Ok a = Ok b -> b = a) as Hinj by congruence. apply Hinj in Hr as ->.
  unfold provider_is, get, getd. by rewrite dget_dset_ne.
Qed.

(** The effect of a command on the rules owned by [q]. *)
Definition keeps_owned (q : string) d d' : Prop :=
  forall rules, rules_of (d_policy d) = Ok rules ->
  exists rules', rules_of (d_policy d') = Ok rules' /\ List.filter (owned q) rules' = List.filter (owned q) rules.

Lemma draft_inj d d' : Ok d = Ok d' -> d' = d.
Proof. by intros [= ->]. Qed.

Lemma threat_settings_owned q provider command d d' :
  cmd_threat_settings provider command d = Ok d' -> keeps_owned q d d'.
Proof.
  unfold cmd_threat_settings. intros Hd. apply bind_Ok in Hd as (? & _ & Hd). apply draft_inj in Hd as ->.
  intros rules Hr. exists rules. cbn [d_policy]. by rewrite rules_of_dset by done.
Qed.

Lemma threat_exception_owned q provider auid command uuid d d' :
  cmd_threat_exception provider auid command uuid d = Ok d' -> keeps_owned q d d'.
Proof.
  unfold cmd_threat_exception. destruct (getd "rule" _ _) as [| | | | | |value]; try done. intros Hd.
  apply bind_Ok in Hd as (? & _ & Hd). apply bind_Ok in Hd as (address & _ & Hd). cbv zeta in Hd.
  apply bind_Ok in Hd as (? & _ & Hd). apply bind_Ok in Hd as (rules & Hr & Hd). apply draft_inj in Hd as ->.
  intros rules' Hr'. rewrite Hr in Hr'. injection Hr' as <-. cbn [d_policy]. rewrite rules_of_set.
  eexists. split; [done|]. rewrite List.filter_app. cbn [List.filter]. rewrite owned_tier by done. by rewrite app_nil_r.
Qed.

Lemma edit_owned q provider operation command i r d d' rules :
  rules_of (d_policy d) = Ok rules -> rules !! i = Some r -> owned q r = false ->
  cmd_edit provider operation command (Some (i, r)) d = Ok d' -> keeps_owned q d d'.
Proof.
  intros Hr Hi Ho Hd rules0 Hr0. rewrite Hr in Hr0. injection Hr0 as <-. unfold cmd_edit in Hd. rewrite Hr in Hd.
  cbn [mbind res_bind] in Hd. apply bind_Ok in Hd as ([rules' r'] & Hm & Hd). apply draft_inj in Hd as ->.
  cbn [d_policy]. rewrite rules_of_set. eexists. split; [done|].
  assert (forall (A B : Type) (a a' : A) (b b' : B), Ok (a, b) = Ok (a', b') -> a' = a /\ b' = b) as Hinj
    by (intros; split; congruence).
  destruct (String.eqb operation "delete").
  { apply Hinj in Hm as [-> ->]. by eapply filter_delete. }
  destruct (String.eqb operation "enable").
  - apply bind_Ok in Hm as (? & _ & Hm). apply Hinj in Hm as [-> ->]. eapply filter_insert; [done..|].
    unfold owned, provider_is, get, getd in *. by rewrite !dget_dset_ne.
  - destruct (get "position" command); try done. apply bind_Ok in Hm as (? & _ & Hm).
    apply Hinj in Hm as [-> ->]. by apply filter_move_other.
Qed.

Lemma upsert_owned q resolve E provider auid command uuid identifier existing dns d d' rules :
  q <> provider -> rules_of (d_policy d) = Ok rules ->
  match existing with Some (i, r) => rules !! i = Some r /\ owned q r = false | None => True end ->
  cmd_upsert resolve E provider auid command uuid identifier existing dns d = Ok d' -> keeps_owned q d d'.
Proof.
  intros Hne Hr He Hd rules0 Hr0. rewrite Hr in Hr0. injection Hr0 as <-. unfold cmd_upsert in Hd.
  destruct (get "rule" command) as [| | | | | |value]; try done.
  do 4 (apply bind_Ok in Hd as (? & _ & Hd)).
  apply bind_Ok in Hd as (rule & Hn & Hd). apply bind_Ok in Hd as (rule' & Hres & Hd).
  rewrite Hr in Hd. cbn [mbind res_bind] in Hd. apply draft_inj in Hd as ->. cbn [d_policy].
  assert (provider_is provider rule = true) as Hp.
  { eapply normalize_provider; [exact Hn|].
    destruct existing as [[i r]|], dns; unfold getd;
      rewrite ?(dget_dset_ne "provider" "id") by done; rewrite ?dget_ddel_ne by done;
      rewrite ?(dget_dset_ne "provider" "dns_exception") by done; by rewrite dget_dset_eq. }
  assert (provider_is provider rule' = true) as Hp'.
  { destruct (String.eqb provider "application"); [by erewrite <- resolve_provider|].
    assert (forall a b : dict, Ok a = Ok b -> b = a) as Hinj by congruence. by apply Hinj in Hres as ->. }
  apply (owned_other q) in Hp'; [|done].
  rewrite rules_of_set. eexists. split; [done|]. destruct existing as [[i r]|].
  - destruct He as [Hi Ho]. by eapply filter_insert.
  - rewrite List.filter_app. cbn [List.filter]. rewrite Hp'. by rewrite app_nil_r.
Qed.

Lemma run_command_owned q resolve E provider auid policy restore command uuid d d' :
  q <> provider -> (forall c, command = VDict c -> is_str "_restore" (get "operation" c) = false) ->
  run_command resolve E provider auid policy restore command uuid d = Ok d' -> keeps_owned q d d'.
Proof.
  intros Hne Hnr Hd rules0 Hr0. revert rules0 Hr0.
  change (keeps_owned q d d'). unfold run_command in Hd. destruct command as [| | | | | |c]; try done.
  specialize (Hnr c eq_refl). apply bind_Ok in Hd as (rules & Hr & Hd). apply bind_Ok in Hd as (? & Hg & Hd).
  rewrite Hnr in Hd.
  assert (match existing_rule (get "id" c) rules with
          | Some (i, r) => rules !! i = Some r /\ owned q r = false | None => True end) as He.
  { destruct (existing_rule _ rules) as [[i r]|] eqn:Hex; [|done]. split; [by eapply existing_lookup|].
    apply require_Ok in Hg. by eapply (editable_not_owned q provider (get "operation" c)). }
  destruct (is_str "threat_settings" _); [by eapply threat_settings_owned|].
  destruct (is_str "threat_exception" _); [by eapply threat_exception_owned|].
  destruct (in_strs ["upsert"; _] _); [by eapply upsert_owned|].
  destruct (in_strs ["delete"; _; _] _); [|done].
  destruct (existing_rule (get "id" c) rules) as [[i r]|]; [|done]. destruct He as [Hi Ho]. by eapply edit_owned.
Qed.

Lemma run_commands_owned q resolve E provider auid policy restore commands uuids d' rules :
  q <> provider ->
  Forall (fun command => forall c, command = VDict c -> is_str "_restore" (get "operation" c) = false) commands ->
  rules_of policy = Ok rules ->
  run_commands resolve E provider auid policy restore commands uuids = Ok d' ->
  exists rules', rules_of (d_policy d') = Ok rules' /\ List.filter (owned q) rules' = List.filter (owned q) rules.
Proof.
  intros Hne Hnr Hr Hd. unfold run_commands in Hd.
  apply (foldM_inv (fun d => exists rules', rules_of (d_policy d) = Ok rules'
    /\ List.filter (owned q) rules' = List.filter (owned q) rules)) in Hd; [done| |by exists rules].
  intros d [i command] d2 Hin (rules' & Hr' & Hf) Hstep. cbn [fst snd] in Hstep.
  assert (In command commands) as Hc.
  { apply list_elem_of_In in Hin. apply elem_of_lookup_imap in Hin as (j & c & [= -> ->] & Hj).
    apply list_elem_of_In. by eapply list_elem_of_lookup_2. }
  rewrite Forall_forall in Hnr. apply list_elem_of_In in Hc.
  destruct (run_command_owned q _ _ _ _ _ _ _ _ _ _ Hne (Hnr command Hc) Hstep rules' Hr') as (rules2 & Hr2 & Hf2).
  exists rules2. split; [done|]. by rewrite Hf2.
Qed.
End frames.
