(* ===== verification/TransactionClaims.v ===== *)
(** * Reviewed transactions: properties

    Preparing a review changes nothing; a review is applied once, only if it was
    not cancelled, has not expired and the policy is the reviewed one; a failed
    application restores the firewall; commands stay within their provider. *)
From S2P Require Import Prelude PyVal PyStr IpAddr Json JsonRound JsonExample NetworkRules RuleSpec RuleClaims.
From S2P Require Import PolicyStore Firewall FirewallClaims Transactions.
From S2P Require Import TransactionProps RuleCommands.

Section claims.
Context {P : Type} `{FirewalldOk P} `{Host} `{FloatText}.
Implicit Types (s : mworld P) (E : env).

(** Preparing a review, whatever the request and its outcome, changes
    neither the policy file nor its recovery copy, nor any firewall entry, nor
    the undo records, nor does it let the table of pending reviews outgrow its
    bound. *)
Theorem prepare_changes_nothing resolve E actor_uid request uuids token s :
  let s' := after (prepare resolve E actor_uid request uuids token) s in
  w_disk (m_world s') = w_disk (m_world s) /\ (forall k, entry_present s' k = entry_present s k)
  /\ m_undo s' = m_undo s /\ (tables_bounded s -> tables_bounded s').
Proof.
  intros s'. destruct (untouched_prepare resolve E actor_uid request uuids token s) as (Hd & Hf & Hu & _).
  split_and!; [done..|]. apply bounded_prepare.
Qed.

(** A review is not applied if, by the time its caller has authenticated,
    it was cancelled, it expired, or the policy is no longer the reviewed one:
    the request fails, and the policy file and the firewall are what they were
    when the authentication ended. *)
Theorem apply_refused E actor_uid token authorize o undo_token s t s1 u s2 :
  apply_claim actor_uid token s = (Ok t, s1) -> authorize t s1 = (Ok u, s2) ->
  (exists t2, lookup_token token (m_pending s2) = Some t2 /\ t_cancelled t2 = true)
  \/ t_deadline t <= m_clock s2
  \/ (forall policy, outcome (on_store (read E)) s2 = Ok policy ->
        py_eq (get "revision" policy) (get "revision" (t_before t)) = false) ->
  let m := apply E actor_uid token authorize o undo_token in
  (exists e, outcome m s = Err e) /\ untouched s2 (after m s)
  /\ lookup_token token (m_pending (after m s)) = None.
Proof.
  intros Hc Ha Hr m. destruct (check_refuses E token t s2 Hr) as (e & s3 & Hcheck & Hu).
  unfold m, outcome, after. rewrite (apply_claimed _ _ _ _ _ _ _ _ _ Hc).
  rewrite (finally_pop_err _ token s1 e s3).
  - split; [by exists e|]. split; [|apply lookup_pop]. exact Hu.
  - unfold mbind, act_bind. by rewrite Ha, Hcheck.
Qed.

(** A review is used once: whatever the outcome of an application that
    claimed it, the review is gone, and applying it again is refused without
    authentication. *)
Theorem apply_single_use E actor_uid token authorize o undo_token s t s1 :
  apply_claim actor_uid token s = (Ok t, s1) ->
  let s' := after (apply E actor_uid token authorize o undo_token) s in
  lookup_token token (m_pending s') = None
  /\ forall E' uid authorize' o' undo', apply E' uid token authorize' o' undo' s'
       = (Err (PolicyError "This review expired, was cancelled, or belongs to another caller."), s').
Proof.
  intros Hc s'.
  assert (lookup_token token (m_pending s') = None) as Hn.
  { unfold s', after. rewrite (apply_claimed _ _ _ _ _ _ _ _ _ Hc). unfold finally.
    match goal with |- context [let '(_, _) := ?x in _] => destruct x as [r s2] end. apply lookup_pop. }
  split; [done|]. intros E' uid authorize' o' undo'.
  unfold apply, apply_claim, mbind, act_bind, gets, id. by rewrite Hn.
Qed.

(** C32. An incoming review whose application fails leaves the firewall as it
    was, apart from entries that were there and whose deadline has passed by then,
    unless the failure is reported as an incomplete roll back. *)
Theorem failed_application_restores E t policy o s e s' before old :
  t_provider t = "incoming" -> rules_of (t_before t) = Ok before -> entries E before = Ok old ->
  apply_commit E t policy o s = (Err e, s') -> e <> ROLLBACK_INCOMPLETE -> entries_restored old s s'.
Proof. apply commit_restores. Qed.

(** The tables of pending reviews and of undo records never exceed 32
    entries, whatever operation runs, the requests served during an
    authentication included. *)
Theorem tables_stay_bounded E actor_uid token authorize o undo_token s :
  (forall t, respects keeps_bounded (authorize t)) -> tables_bounded s ->
  tables_bounded (after (apply E actor_uid token authorize o undo_token) s)
  /\ tables_bounded (after (cancel actor_uid token) s).
Proof.
  intros Ha Hs. split; [by apply bounded_apply|by apply bounded_cancel].
Qed.
End claims.

(** The commands of a review of one provider leave the rules of the other
    provider as they are, in content and order, reserved protections apart. *)
Theorem commands_keep_other_provider `{Host} q resolve E provider auid policy restore commands uuids d rules :
  q <> provider ->
  Forall (fun command => forall c, command = VDict c -> is_str "_restore" (get "operation" c) = false) commands ->
  rules_of policy = Ok rules ->
  run_commands resolve E provider auid policy restore commands uuids = Ok d ->
  exists rules', rules_of (d_policy d) = Ok rules' /\ List.filter (owned q) rules' = List.filter (owned q) rules.
Proof. apply run_commands_owned. Qed.

(** Moving a rule permutes the policy: the rule takes the requested
    position among the rules of its provider, whose order is otherwise kept, and
    all other rules keep their content and order. *)
Theorem move_rule_correct provider i rule position rules :
  rules !! i = Some rule -> provider_is provider rule = true ->
  (position <= length (List.filter (provider_is provider) (delete i rules)))%nat ->
  move_rule provider i rule position rules ≡ₚ rules
  /\ List.filter (provider_is provider) (move_rule provider i rule position rules)
     = insert_at position rule (List.filter (provider_is provider) (delete i rules))
  /\ List.filter (fun r => negb (provider_is provider r)) (move_rule provider i rule position rules)
     = List.filter (fun r => negb (provider_is provider r)) rules.
Proof.
  intros Hi Hp Hpos. split_and!.
  - unfold move_rule. rewrite insert_at_perm. by apply delete_perm.
  - by apply move_rule_siblings.
  - apply filter_move_other; [done|]. by rewrite Hp.
Qed.

(** ** Cancellation after the check *)

Section race.
Context {P : Type} `{Firewalld P} `{Host} `{FloatText}.
Implicit Types (s : mworld P).

Definition with_pending (f : list (string * txn) -> list (string * txn)) s : mworld P :=
  MWorld (m_world s) (m_fw s) (f (m_pending s)) (m_undo s) (m_clock s).

(** The action neither reads nor writes the table of pending reviews. *)
Definition blind {A} (m : act (mworld P) A) : Prop := forall f s,
  m (with_pending f s) = (outcome m s, with_pending f (after m s)).

Lemma blind_ret {A} (a : A) : blind (mret a).
Proof. done. Qed.
Lemma blind_lift {A} (r : res A) : blind (lift r).
Proof. done. Qed.
Lemma blind_raise {A} e : blind (raise (A := A) e).
Proof. done. Qed.

Lemma blind_store {A} (m : act world A) : blind (on_store m).
Proof. intros f s. unfold outcome, after, on_store. cbn. by destruct (m (m_world s)). Qed.

Lemma blind_fw {A} (m : act (P * cache) A) : blind (on_fw m).
Proof. intros f s. unfold outcome, after, on_fw. cbn. destruct (m_fw s); [|done]. by destruct (m p). Qed.

Lemma blind_bind {A B} (m : act (mworld P) A) (g : A -> act (mworld P) B) :
  blind m -> (forall a, blind (g a)) -> blind (m ≫= g).
Proof.
  intros Hm Hg f s. unfold outcome, after, mbind, act_bind. rewrite Hm. unfold outcome, after.
  destruct (m s) as [[a|e] s1]; [|done]. apply Hg.
Qed.

Lemma blind_catch {A} (m : act (mworld P) A) p h : blind m -> (forall e, blind (h e)) -> blind (catch m p h).
Proof.
  intros Hm Hh f s. unfold outcome, after, catch. rewrite Hm. unfold outcome, after.
  destruct (m s) as [[a|e] s1]; [done|]. cbn. destruct (p e); [apply Hh|done].
Qed.

Lemma blind_commit E t policy o : blind (apply_commit E t policy o).
Proof.
  unfold apply_commit, apply_journal, apply_change, on_pv, ensure.
  repeat first
    [ apply blind_ret | apply blind_lift | apply blind_raise | apply blind_store | apply blind_fw
    | apply blind_bind; [|intros ?] | apply blind_catch; [|intros ?]
    | match goal with
      | |- blind (match ?x with _ => _ end) => destruct x
      | |- blind (let '_ := ?x in _) => destruct x
      end ].
Qed.
End race.

(** A cancellation that arrives after the checks of an application is
    answered CANCELLED, and yet the application commits exactly as if it had not
    arrived: the flag is not read again. *)
Theorem cancel_after_check `{Firewalld P} `{Host} `{FloatText} E actor_uid token t t' policy o (s : mworld P) :
  lookup_token token (m_pending s) = Some t' -> py_eq (t_uid t') actor_uid = true ->
  let s' := after (cancel actor_uid token) s in
  outcome (cancel actor_uid token) s = Ok (dlit [("ok", VBool true); ("state", VStr "CANCELLED")])
  /\ outcome (apply_commit E t policy o) s' = outcome (apply_commit E t policy o) s
  /\ m_world (after (apply_commit E t policy o) s') = m_world (after (apply_commit E t policy o) s).
Proof.
  intros Hl Hu s'.
  assert (cancel actor_uid token s = (Ok (dlit [("ok", VBool true); ("state", VStr "CANCELLED")]),
    with_pending (map (fun kt => if String.eqb kt.1 token then (kt.1, set_cancelled kt.2) else kt)) s)) as Hc.
  { unfold cancel, mbind, act_bind, gets, id. rewrite Hl, Hu. done. }
  unfold s', outcome, after. rewrite Hc. cbn [fst snd]. split; [done|]. by rewrite blind_commit.
Qed.

(** ** Instances *)

Definition example_manager : mworld listed :=
  MWorld example_world (Some (example_firewall [], None)) [] [] 0.

Definition example_request : val :=
  VDict (dlit [("provider", VStr "application"); ("revision", VInt 3);
    ("commands", VList [VDict (dlit [("operation", VStr "enable"); ("id", VStr "greyward-0123456789abcdef0123");
                                     ("enabled", VBool false)])])]).

(** The state in which the review "token" is pending. *)
Definition example_pending : mworld listed :=
  after (prepare None example_env (VInt 1000) example_request (fun _ => "00000000000000000009") "token") example_manager.

Definition example_writes : apply_outcomes :=
  ApplyOutcomes (Outcomes (Some 1) (Some 2) (Some 3)) (Outcomes (Some 4) (Some 5) (Some 6))
    (Outcomes (Some 7) (Some 8) (Some 9)).

Lemma prepare_changes_nothing_witness :
  tables_bounded example_pending /\ w_disk (m_world example_pending) = w_disk (m_world example_manager).
Proof.
  destruct (prepare_changes_nothing None example_env (VInt 1000) example_request
    (fun _ => "00000000000000000009") "token" example_manager) as (Hd & _ & _ & Hb).
  split; [apply Hb; split; cbn; lia | exact Hd].
Defined.

(** The caller cancels while authenticating. *)
Definition cancelling (t : txn) : act (mworld listed) unit := _ ← cancel (VInt 1000) "token"; mret tt.

Lemma apply_refused_witness :
  exists t s1 s2, apply_claim (VInt 1000) "token" example_pending = (Ok t, s1)
    /\ cancelling t s1 = (Ok tt, s2)
    /\ exists e, outcome (apply example_env (VInt 1000) "token" cancelling example_writes "undo") example_pending = Err e.
Proof.
  do 3 eexists. split; [vm_compute; reflexivity|]. split; [vm_compute; reflexivity|].
  eapply (apply_refused example_env (VInt 1000) "token" cancelling example_writes "undo" example_pending);
    [vm_compute; reflexivity|vm_compute; reflexivity|].
  left. eexists. split; vm_compute; reflexivity.
Defined.

Lemma apply_single_use_witness :
  exists t s1, apply_claim (VInt 1000) "token" example_pending = (Ok t, s1)
    /\ lookup_token "token" (m_pending (after
         (apply example_env (VInt 1000) "token" (fun _ => mret tt) example_writes "undo") example_pending)) = None.
Proof.
  do 2 eexists. split; [vm_compute; reflexivity|].
  eapply (apply_single_use example_env (VInt 1000) "token" (fun _ => mret tt) example_writes "undo" example_pending).
  vm_compute. reflexivity.
Defined.

(** An incoming review from [http_rule] to [ssh_rule] whose change requests are
    refused by firewalld after the first. *)
Definition incoming_policy (rules : list dict) : dict :=
  dlit [("schema", VStr SCHEMA); ("revision", VInt 3); ("rules", VList (map VDict rules))].

Definition incoming_world (refuse : list bool) : mworld listed :=
  MWorld (fresh_world (Disk (Some (File (encode (incoming_policy [http_rule])) 5)) None))
    (Some (example_firewall refuse, None)) [] [] 0.

Definition incoming_review : txn :=
  Txn (VInt 1000) "incoming" (incoming_policy [http_rule]) (incoming_policy [ssh_rule]) 100 false true []
    (match outcome (capture (P := listed) example_env [http_rule] [ssh_rule]) (example_firewall []) with
     | Ok l => Some l | Err _ => None end).

Lemma failed_application_restores_witness :
  exists e s' old, apply_commit example_env incoming_review (incoming_policy [http_rule]) example_writes
      (incoming_world [false; true]) = (Err e, s')
    /\ entries (P := listed) example_env [http_rule] = Ok old
    /\ entries_restored old (incoming_world [false; true]) s'.
Proof.
  do 3 eexists. split; [vm_compute; reflexivity|]. split; [vm_compute; reflexivity|].
  eapply (failed_application_restores example_env incoming_review (incoming_policy [http_rule]) example_writes
    (incoming_world [false; true]) _ _ [http_rule]);
    [reflexivity|vm_compute; reflexivity|vm_compute; reflexivity|vm_compute; reflexivity|discriminate].
Defined.

Lemma tables_stay_bounded_witness :
  tables_bounded (after (apply example_env (VInt 1000) "token" cancelling example_writes "undo") example_pending)
  /\ tables_bounded (after (cancel (VInt 1000) "token") example_pending).
Proof.
  apply (tables_stay_bounded example_env (VInt 1000) "token" cancelling example_writes "undo").
  - intros t. apply respects_bind; [apply _|apply bounded_cancel|intros; apply respects_ret; apply _].
  - vm_compute. split; lia.
Defined.

Lemma commands_keep_other_provider_witness :
  exists d rules', run_commands None example_env "application" (VInt 1000)
      (incoming_policy [http_rule; app_dict example_rule]) None
      [VDict (dlit [("operation", VStr "delete"); ("id", VStr "greyward-0123456789abcdef0123")])]
      (fun _ => "00000000000000000009") = Ok d
    /\ rules_of (d_policy d) = Ok rules' /\ List.filter (owned "incoming") rules' = [http_rule].
Proof.
  destruct (commands_keep_other_provider "incoming" None example_env "application" (VInt 1000)
    (incoming_policy [http_rule; app_dict example_rule]) None
    [VDict (dlit [("operation", VStr "delete"); ("id", VStr "greyward-0123456789abcdef0123")])]
    (fun _ => "00000000000000000009")
    (Draft (incoming_policy [http_rule]) [] [change_val "delete" (VDict (app_dict example_rule))])
    [http_rule; app_dict example_rule]) as (rules' & Hr & Hf).
  - done.
  - constructor; [|done]. by intros c [= <-].
  - vm_compute. reflexivity.
  - vm_compute. reflexivity.
  - exists (Draft (incoming_policy [http_rule]) [] [change_val "delete" (VDict (app_dict example_rule))]), rules'.
    split; [vm_compute; reflexivity|]. split; [exact Hr|exact Hf].
Defined.

Lemma move_rule_correct_witness :
  move_rule "incoming" 2 ssh_rule 0 [app_dict example_rule; http_rule; ssh_rule]
    ≡ₚ [app_dict example_rule; http_rule; ssh_rule].
Proof.
  apply (move_rule_correct "incoming" 2 ssh_rule 0 [app_dict example_rule; http_rule; ssh_rule]);
    [reflexivity|reflexivity|lia].
Defined.

Lemma cancel_after_check_witness :
  exists t policy s1, apply_check example_env "token" t example_pending = (Ok policy, s1)
    /\ outcome (cancel (VInt 1000) "token") s1 = Ok (dlit [("ok", VBool true); ("state", VStr "CANCELLED")])
    /\ exists saved, outcome (apply_commit example_env t policy example_writes) (after (cancel (VInt 1000) "token") s1)
                     = Ok saved.
Proof.
  exists (default incoming_review (lookup_token "token" (m_pending example_pending))).
  do 2 eexists. split; [vm_compute; reflexivity|].
  match goal with |- _ /\ exists saved, outcome (apply_commit _ ?t ?policy _) (after _ ?s1) = _ =>
    destruct (cancel_after_check example_env (VInt 1000) "token" t
      (default incoming_review (lookup_token "token" (m_pending example_pending))) policy example_writes s1) as (Hc & Hq & _);
      [vm_compute; reflexivity|vm_compute; reflexivity|] end.
  split; [exact Hc|]. eexists. rewrite Hq. vm_compute. reflexivity.
Defined.
