(* ===== verification/PolicyService.v ===== *)
(** * The privileged policy service ([network_policy_service.py])

    The D-Bus methods that put requests of desktop callers before the rule
    manager: the checks on the caller and on the engine, fresh authentication of
    every change, the legacy methods, and the listings. The system bus (accounts,
    units, login sessions, PolicyKit) and the engine's projection file are an
    interface. A worker waits for the authentication while the service goes on
    serving requests: [meanwhile] stands for what they do. *)
From S2P Require Import Prelude PyVal PyStr IpAddr Json NetworkRules PyText PolicyStore Firewall Transactions.

Record account := Account { acc_name : string; acc_gid : Z }.
Record unit_props := UnitProps { un_active : string; un_pid : Z; un_started : Z }.
Record session_facts := SessionFacts { ss_remote : bool; ss_locked : bool; ss_active : bool; ss_seat : string }.

(** The projection file: owner, mode, contents and modification time. *)
Record projection_file := ProjectionFile { pf_uid : Z; pf_mode : Z; pf_raw : string; pf_modified : Z }.

(** The answer of PolicyKit: authorised, challenge, temporary authorisation. *)
Record decision := Decision { de_authorized : bool; de_challenge : bool; de_temporary : bool }.

(** The system bus and the account database on their state [Q]; times are in
    microseconds. A D-Bus error is [ProviderError]. *)
Class SystemBus (Q : Type) := {
  sb_unix_user : string -> act Q Z;
  sb_account : Z -> act Q account;
  sb_wheel : act Q (Z * list string);
  sb_unit : string -> act Q unit_props;
  sb_projection : act Q projection_file;
  sb_user_state : Z -> act Q string;
  sb_display : Z -> act Q (string * string);
  sb_session : string -> act Q session_facts;
  sb_authorize : string -> dict -> string -> act Q decision;
  sb_cancel_check : string -> act Q unit;
  sb_firewall_state : act Q string;
}.

(** The service: the rule manager, the bus, the free slots and the reviews that
    are being authenticated. *)
Record service (P Q : Type) := Service {
  sv_manager : mworld P;
  sv_bus : Q;
  sv_slots : nat;
  sv_authorizations : list string;
}.
Arguments Service {P Q}. Arguments sv_manager {P Q}. Arguments sv_bus {P Q}. Arguments sv_slots {P Q}.
Arguments sv_authorizations {P Q}.

(** ** Requests *)

(** [decode(payload)]. *)
Definition decode `{FloatText} (payload : string) : res dict :=
  if (MAX_BYTES <? utf8_len payload) || has_char (ascii_of_N 0) payload then fail "Network request exceeds its size limit."
  else value ← loads payload;
       match value with VDict d => Ok d | _ => fail "A structured network request is required." end.

(** [failure(error)]. *)
Definition failure (e : exn) : dict :=
  dlit [("ok", VBool false); ("state", VStr "REFUSED"); ("detail", VStr (str_take 500 (exn_text e)))].

(** [legacy_remove_id(value)]. *)
Definition legacy_remove_id (value : string) : res string :=
  if identifier_ok (VStr value) then Ok value else fail "A bounded GREYWARD rule identifier is required.".

(** ** Legacy requests *)

Inductive legacy := LegacyRule | LegacyThreatException | LegacyThreatSetting | LegacyRemove.

(** [value.get('destination') or {}]. *)
Definition legacy_destination (value : dict) : res dict := as_dict (py_or (get "destination" value) (VDict [])).

Definition truthy_field (k : string) (d : dict) : bool := truthy (get k d).

Definition legacy_exception (value : dict) : res (list val) :=
  destination ← legacy_destination value;
  _ ← require (is_str "allow" (get "action" value) && negb (truthy_field "host" destination)
               && is_str "always" (getd "duration" (VStr "always") value))
        (PolicyError "A threat exception must allow an exact IP and port.");
  Ok [VDict (dlit [("operation", VStr "threat_exception");
        ("rule", VDict (dlit [("path", get "application" value); ("action", VStr "allow"); ("ip", get "ip" destination);
                              ("port", get "port" destination)]))])].

(** A rule of an old caller, as a rule of the present schema. *)
Definition legacy_rule (value destination : dict) (lifetime : string) : dict :=
  let rule := dlit [("path", get "application" value);
    ("name", py_or (get "name" value) (VStr "Application connection rule"));
    ("action", VStr (if is_str "allow" (get "action" value) then "allow" else "deny")); ("lifetime", VStr lifetime);
    ("ports", VList (if truthy_field "port" destination then [get "port" destination] else []));
    ("destinations", VList (omap (fun k =>
        if truthy_field k destination then Some (VDict (dlit [("kind", VStr k); ("value", get k destination)])) else None)
      ["host"; "ip"]))] in
  if truthy_field "host" destination && truthy_field "ip" destination
  then dset "destinations" (VList [VDict (dlit [("kind", VStr "ip"); ("value", get "ip" destination)])])
         (dset "required_host" (get "host" destination) rule)
  else rule.

Definition legacy_upsert (value : dict) : res (list val) :=
  destination ← legacy_destination value;
  _ ← require (in_strs ["allow"; "deny"; "block"; "reject"] (get "action" value)) (PolicyError "Unsupported network action.");
  let duration := getd "duration" (VStr "always") value in
  _ ← require (negb (is_str "once" duration))
        (PolicyError "Allow once requires a live pending request; use the rule editor for temporary rules.");
  let lifetime := if in_strs ["until_restart"; "until restart"] duration then "boot" else "permanent" in
  _ ← require (in_strs ["always"; "until_restart"; "until restart"] duration) (PolicyError "Unsupported legacy duration.");
  Ok [VDict (dlit [("operation", VStr "upsert"); ("rule", VDict (legacy_rule value destination lifetime))])].

(** The commands of a legacy request. *)
Definition legacy_commands (l : legacy) (value : dict) : res (list val) :=
  match l with
  | LegacyRemove => id ← item "id" value; Ok [VDict (dlit [("operation", VStr "delete"); ("id", id)])]
  | LegacyThreatSetting =>
      enabled ← item "enabled" value; Ok [VDict (dlit [("operation", VStr "threat_settings"); ("enabled", enabled)])]
  | LegacyThreatException => legacy_exception value
  | LegacyRule => legacy_upsert value
  end.

(** ** The prompt *)

Section prompt.
Context `{FloatText}.

(** The separator of the prompt, one character outside the modelled text. *)
Context (em_dash : string).

(** One line of the prompt for a change. *)
Definition change_summary (change : val) : res string :=
  change ← as_dict change;
  rule ← item "rule" change; rule ← as_dict rule;
  operation ← item "operation" change;
  let target := py_or (py_or (py_or (get "path" rule) (get "service" rule)) (get "name" rule))
                  (VStr (py_str (getd "ports" (VList []) rule))) in
  let destinations := py_or (py_or (py_or (get "destinations" rule) (get "source" rule)) (get "ip" rule)) (VStr "any destination") in
  let scope := match get "uid" rule with VNone => "all users" | uid => "user " +:+ py_str uid end in
  Ok (py_str operation +:+ " " +:+ py_str (getd "action" (VStr "") rule) +:+ ": " +:+ py_str target +:+ " " +:+ em_dash +:+ " "
      +:+ py_str destinations +:+ " " +:+ em_dash +:+ " " +:+ py_str (getd "protocols" (VStr "any protocol") rule) +:+ " ports "
      +:+ py_str (py_or (py_or (get "ports" rule) (get "port" rule)) (VStr "any")) +:+ " " +:+ em_dash +:+ " " +:+ scope
      +:+ " " +:+ em_dash +:+ " " +:+ py_str (getd "lifetime" (VStr "permanent") rule)).

Definition line_feed : string := String (ascii_of_N 10) "".

(** The details shown and recorded by PolicyKit. *)
Definition prompt_details (token : string) (t : txn) : res dict :=
  summaries ← mapM_res change_summary (take 8 (t_changes t));
  revision ← item "revision" (t_before t);
  let message := "Apply " +:+ t_provider t +:+ " network policy changes?" +:+ line_feed +:+ join line_feed summaries in
  let message := if (8 <? length (t_changes t))%nat
    then message +:+ line_feed +:+ "And " +:+ str_of_Z (Z.of_nat (length (t_changes t)) - 8) +:+ " more reviewed changes." else message in
  let message := match t_changes t with [] => message +:+ line_feed +:+ "Change system-wide threat blocking." | _ => message end in
  Ok (dlit [("polkit.message", VStr (str_take 3500 message)); ("greyward.transaction", VStr token);
            ("greyward.policy_revision", VStr (py_str revision))]).
End prompt.

(** [(a - b) > 0] on Python numbers: [v > 0]. *)
Definition positive (v : val) : res bool :=
  match num_of v with
  | Some x => Ok (match num_compare x (NFin 0 0) with Some Gt => true | _ => false end)
  | None => Err TypeError
  end.

(** ** The methods *)

Section service.
Context {P Q : Type} `{Firewalld P} `{SystemBus Q} `{Host} `{FloatText}.
Context (resolve_executable : option (string -> res string)) (em_dash : string).
Abbreviation S := (service P Q).
Abbreviation M := (act S).

(** [dt.datetime.fromisoformat(...)] of a time of the projection, against now:
    an interface, as it raises [ValueError] and [TypeError]. *)
Context (still_fresh : string -> res bool).

Definition on_manager {A} (m : act (mworld P) A) : M A := fun s =>
  let '(r, w) := m (sv_manager s) in (r, Service w (sv_bus s) (sv_slots s) (sv_authorizations s)).

Definition on_bus {A} (m : act Q A) : M A := fun s =>
  let '(r, q) := m (sv_bus s) in (r, Service (sv_manager s) q (sv_slots s) (sv_authorizations s)).

Definition set_slots (f : nat -> nat) : M unit :=
  modify (fun s => Service (sv_manager s) (sv_bus s) (f (sv_slots s)) (sv_authorizations s)).

Definition set_authorizations (f : list string -> list string) : M unit :=
  modify (fun s => Service (sv_manager s) (sv_bus s) (sv_slots s) (f (sv_authorizations s))).

Definition check_that (b : bool) (m : string) : M unit := lift (require b (PolicyError m)).

(** [peer(sender, admin)]. *)
Definition peer (sender : string) (admin : bool) : M Z :=
  _ ← check_that (negb (String.eqb sender "")) "Authenticated D-Bus sender is required.";
  uid ← on_bus (sb_unix_user sender);
  _ ← when (admin && negb (uid =? 0))
        (user ← on_bus (sb_account uid);
         wheel ← on_bus sb_wheel;
         check_that ((acc_gid user =? wheel.1) || existsb (String.eqb (acc_name user)) wheel.2)
           "An administrator account is required.");
  mret uid.

(** [engine_projection()]: the contents and the time. *)
Definition PROJECTION_LIMIT : Z := 8 * 1024 * 1024.

Definition engine_projection : M (val * Z) :=
  file ← on_bus sb_projection;
  _ ← check_that ((pf_uid file =? 0) && (Z.land (pf_mode file) 18 =? 0) && (str_len (pf_raw file) <=? PROJECTION_LIMIT))
        "The network engine projection is not trusted or exceeds its limit.";
  value ← lift (loads (pf_raw file));
  mret (value, pf_modified file).

Definition CONTROL_PLANE_UNIT : string := "greyward-opensnitch-control-plane.service".

(** [engine_live_since()]. *)
Definition live_unit (name : string) : M Z :=
  u ← on_bus (sb_unit name);
  _ ← check_that (String.eqb (un_active u) "active" && (1 <? un_pid u)) "The application connection engine is unavailable.";
  mret (un_started u).

Definition engine_live_since : M Z :=
  started ← live_unit CONTROL_PLANE_UNIT;
  _ ← live_unit "opensnitch.service";
  _ ← check_that (negb (started =? 0)) "The engine generation could not be verified.";
  mret started.

(** [projection.get('opensnitch', {})]. *)
Definition opensnitch_of (projection : dict) : res dict := as_dict (getd "opensnitch" (VDict []) projection).

(** [engine_ready()]. *)
Definition engine_ready : M dict :=
  read ← engine_projection;
  projection ← lift (as_dict read.1);
  _ ← (if truthy (get "policy_error" projection) || negb (is_str "greyward.network.rules/v2" (get "rules_schema" projection))
       then check_that false "The matching network engine is unavailable or has not confirmed the new rule contract. No rules were changed."
       else opensnitch ← lift (opensnitch_of projection);
            check_that (in_strs ["OPERATING"; "DEGRADED"] (get "state" opensnitch))
              "The matching network engine is unavailable or has not confirmed the new rule contract. No rules were changed.");
  started ← engine_live_since;
  opensnitch ← lift (opensnitch_of projection);
  _ ← check_that (negb (read.2 <? started) && truthy (get "last_seen" opensnitch))
        "The current engine generation has not acknowledged this rule contract.";
  mret projection.

(** The session of the caller: its display, local, active and unlocked. *)
Definition local_session (uid : Z) : M unit :=
  state ← on_bus (sb_user_state uid);
  _ ← check_that (String.eqb state "active") "An active local administrator session is required.";
  display ← on_bus (sb_display uid);
  _ ← check_that (negb (String.eqb display.1 "")) "A local desktop session is required.";
  facts ← on_bus (sb_session display.2);
  check_that (negb (ss_remote facts) && negb (ss_locked facts) && ss_active facts && negb (String.eqb (ss_seat facts) ""))
    "An active, unlocked local desktop session is required.".

Section worker.
(** What the service does while a worker waits for PolicyKit. *)
Context (meanwhile : M unit).

(** [authorize(sender, uid, token, transaction)]. *)
Definition authenticate (sender : string) (uid : Z) (token : string) (t : txn) : M unit :=
  _ ← local_session uid;
  _ ← set_authorizations (fun l => token :: l);
  details ← lift (prompt_details em_dash token t);
  _ ← meanwhile;
  answer ← on_bus (sb_authorize sender details token);
  _ ← check_that (de_authorized answer && negb (de_challenge answer) && negb (de_temporary answer))
        "Fresh authentication was cancelled or refused.";
  again ← peer sender true;
  _ ← check_that (again =? uid) "The originating caller exited or changed.";
  _ ← engine_ready;
  mret tt.

Definition authorize (sender : string) (uid : Z) (token : string) (t : txn) : M unit :=
  current ← peer sender true;
  _ ← check_that (current =? uid) "The originating caller changed.";
  if uid =? 0 then mret tt
  else finally (authenticate sender uid token t) (set_authorizations (List.filter (fun k => negb (String.eqb k token)))).

(** [RuleManager.apply] with [authorize] as its callback: the parts of
    [Transactions.apply] on the state of the service. *)
Definition apply_reviewed (E : env) (sender : string) (uid : Z) (token : string) (o : apply_outcomes) (undo_token : string)
  : M dict :=
  t ← on_manager (apply_claim (VInt uid) token);
  finally
    (_ ← authorize sender uid token t;
     policy ← on_manager (apply_check E token t);
     saved ← on_manager (apply_commit E t policy o);
     on_manager (apply_record (VInt uid) t saved undo_token))
    (on_manager (set_pending (pop_token token))).

(** The fresh values and the outcomes of the writes of one request. *)
Record supply := Supply { su_uuids : nat -> string; su_token : string; su_undo : string; su_writes : apply_outcomes }.

(** The review a legacy request stands for. *)
Definition legacy_review (E : env) (uid : Z) (l : legacy) (value : dict) (u : supply) : M dict :=
  policy ← on_manager (on_store (read E));
  revision ← lift (item "revision" policy);
  commands ← lift (legacy_commands l value);
  preview ← on_manager (prepare resolve_executable E (VInt uid)
    (VDict (dlit [("provider", VStr "application"); ("revision", revision); ("commands", VList commands)])) (su_uuids u) (su_token u));
  token ← lift (item "transaction" preview);
  mret (dlit [("transaction", token)]).

(** [work()] of [dispatch]. *)
Definition work (E : env) (payload sender : string) (l : option legacy) (u : supply) : M dict :=
  uid ← peer sender true;
  _ ← engine_ready;
  value ← lift (match l with
                | Some LegacyRemove => id ← legacy_remove_id payload; Ok (dlit [("id", VStr id)])
                | _ => decode payload
                end);
  value ← match l with Some l => legacy_review E uid l value u | None => mret value end;
  match get "transaction" value with
  | VStr token => apply_reviewed E sender uid token (su_writes u) (su_undo u)
  | _ => raise (PolicyError "A reviewed transaction is required.")
  end.

(** [dispatch(payload, sender, reply, error, legacy)]: the reply. *)
Definition dispatch (E : env) (payload sender : string) (l : option legacy) (u : supply) : M dict :=
  free ← gets sv_slots;
  match free with
  | O => mret (failure (PolicyError "Another network review is being authenticated. Retry when it completes."))
  | Datatypes.S _ =>
      _ ← set_slots pred;
      finally (catch (work E payload sender l u) any_exception (fun e => mret (failure e))) (set_slots Datatypes.S)
  end.

Definition Apply (E : env) (payload sender : string) (u : supply) : M dict := dispatch E payload sender None u.
Definition SetRule (E : env) (payload sender : string) (u : supply) : M dict := dispatch E payload sender (Some LegacyRule) u.
Definition SetThreatException (E : env) (payload sender : string) (u : supply) : M dict :=
  dispatch E payload sender (Some LegacyThreatException) u.
Definition RemoveRule (E : env) (payload sender : string) (u : supply) : M dict := dispatch E payload sender (Some LegacyRemove) u.

Definition SetThreatIntelEnabled (E : env) (payload sender : string) (u : supply) : M dict :=
  match (match loads payload with
         | Ok (VBool enabled) => Ok enabled
         | Ok _ => fail "Enablement must be boolean."
         | Err e => Err e
         end) with
  | Ok enabled => dispatch E (dumps (VDict (dlit [("enabled", VBool enabled)]))) sender (Some LegacyThreatSetting) u
  | Err e => mret (failure e)
  end.
End worker.

(** A reply in which every exception is a failure. *)
Definition replied (m : M dict) : M dict := catch m any_exception (fun e => mret (failure e)).

(** [GetFirewallState()]. *)
Definition GetFirewallState (sender : string) : M string :=
  _ ← peer sender false;
  catch (state ← on_bus sb_firewall_state; mret (if String.eqb state "RUNNING" then "running" else "not-running"))
    (fun e => match e with ProviderError _ => true | _ => false end)
    (fun _ => mret "unavailable").

(** [Preview(payload)]. *)
Definition Preview (E : env) (payload sender : string) (u : supply) : M dict :=
  replied (_ ← engine_ready;
           uid ← peer sender true;
           value ← lift (decode payload);
           on_manager (prepare resolve_executable E (VInt uid) (VDict value) (su_uuids u) (su_token u))).

(** [Cancel(payload)]: a token that is no text names no review. *)
Definition Cancel (payload sender : string) : M dict :=
  replied (value ← lift (decode payload);
           uid ← peer sender true;
           match get "transaction" value with
           | VStr token =>
               result ← on_manager (cancel (VInt uid) token);
               live ← gets sv_authorizations;
               _ ← when (existsb (String.eqb token) live)
                     (catch (on_bus (sb_cancel_check token)) (fun e => match e with ProviderError _ => true | _ => false end)
                        (fun _ => mret tt));
               mret result
           | v => raise (if hashable v then PolicyError "Review not found." else TypeError)
           end).

(** ** [GetRules] *)

Definition application_row (a : val) : res (option val) :=
  a ← as_dict a;
  Ok (if truthy (get "executable" a)
      then Some (VDict (dlit [("path", get "executable" a); ("name", get "application" a)])) else None).

(** [projection.get('applications', [])[:256]]: each element must answer
    [.get]. *)
Definition application_rows (projection : dict) : res (list val) :=
  match getd "applications" (VList []) projection with
  | VList l =>
      (fun found : list (option val) => omap (fun row => row) found) <$> mapM_res application_row (take 256 l)
  | VStr s => if String.eqb s "" then Ok [] else Err AttributeError
  | _ => Err TypeError
  end.

(** The engine holds this revision and says so now. *)
Definition engine_loaded (projection result : dict) : res bool :=
  until ← item "fresh_until" projection;
  until ← match until with VStr s => Ok s | _ => Err AttributeError end;
  fresh ← still_fresh until;
  if negb fresh then Ok false
  else if negb (py_eq (get "policy_revision" projection) (get "revision" result)) then Ok false
  else opensnitch ← opensnitch_of projection; Ok (is_str "OPERATING" (get "state" opensnitch)).

(** One rule of the page: LOADED when the engine has it, OBSERVED when it also
    decided a connection with this version of it. *)
Definition mark_rule (projection : dict) (loaded : bool) (rule : dict) : dict * option exn :=
  if is_str "application" (get "provider" rule) && is_str "SAVED" (get "state" rule) && loaded then
    let rule := dset "state" (VStr "LOADED") rule in
    match (matches ← as_dict (getd "policy_matches" (VDict []) projection);
           identifier ← item_str "id" rule;
           observed ← as_dict (getd identifier (VDict []) matches);
           if py_eq (get "version" observed) (get "updated_at" rule)
           then decided ← positive (getd "decisions" (VInt 0) observed); Ok (decided, observed) else Ok (false, observed)) with
    | Ok (true, observed) => (dset "observed" (VDict observed) (dset "state" (VStr "OBSERVED") rule), None)
    | Ok (false, _) => (rule, None)
    | Err e => (rule, Some e)
    end
  else (rule, None).

(** The rules in order; an exception keeps what was marked before it. *)
Fixpoint mark_rules (projection : dict) (loaded : bool) (rules : list dict) : list dict * option exn :=
  match rules with
  | [] => ([], None)
  | r :: rules =>
      match mark_rule projection loaded r with
      | (r, Some e) => (r :: rules, Some e)
      | (r, None) => let '(rest, e) := mark_rules projection loaded rules in (r :: rest, e)
      end
  end.

Definition no_edit (result : dict) : dict :=
  dset "capabilities" (VDict (dset "edit" (VBool false)
    (match get "capabilities" result with VDict c => c | _ => [] end))) result.

(** [except (OSError, ValueError, KeyError, TypeError, dbus.DBusException)]. *)
Definition listing_caught (e : exn) : bool :=
  match e with OSError _ | ValueError _ | PolicyError _ | KeyError _ | TypeError | ProviderError _ => true | _ => false end.

Definition not_editable (e : exn) (result : dict) : dict :=
  dset "detail" (VStr (str_take 240 (exn_text e))) (no_edit result).

(** The result with what the engine says, and the exception that ended it. *)
Definition with_engine (result projection : dict) : dict * option exn :=
  match application_rows projection with
  | Err e => (result, Some e)
  | Ok rows =>
      let result := dset "applications" (VList rows) result in
      match engine_loaded projection result, rules_of result with
      | Err e, _ => (result, Some e)
      | Ok loaded, Ok rules => let '(rules, e) := mark_rules projection loaded rules in (set_rules rules result, e)
      | Ok _, Err e => (result, Some e)
      end
  end.

(** [GetRules(payload)]. *)
Definition GetRules (E : env) (payload sender : string) : M dict :=
  replied (uid ← peer sender false;
           query ← lift (decode payload);
           result ← on_manager (listing E (VInt uid) query);
           let result := dset "applications" (VList []) result in
           projection ← catch (p ← engine_ready; mret (Ok p)) listing_caught (fun e => mret (Err e));
           let '(result, e) := match projection with Ok p => with_engine result p | Err e => (result, Some e) end in
           result ← match e with
                    | Some e => if listing_caught e then mret (not_editable e result) else raise e
                    | None => mret result
                    end;
           admin ← catch (_ ← peer sender true; mret true) is_policy_error (fun _ => mret false);
           mret (if admin : bool then result else no_edit result)).

(** [ListRules()]. *)
Definition upper_of (v : val) : res val := match v with VStr s => Ok (VStr (str_upper s)) | _ => Err AttributeError end.

Definition list_row (rule : dict) : res val :=
  name ← item "name" rule;
  action ← item "action" rule; action ← upper_of action;
  duration ← upper_of (getd "lifetime" (VStr "always") rule);
  Ok (VDict (dlit [("id", rule_id rule); ("name", name); ("action", action); ("source", VStr "GREYWARD"); ("mutable", VBool true);
    ("enabled", getd "enabled" (VBool true) rule); ("duration", duration); ("tier", getd "tier" (VStr "GREYWARD") rule);
    ("scope", VDict (dlit [("application", get "path" rule);
       ("destination", VDict (dlit [("host", get "required_host" rule); ("ip", get "ip" rule); ("port", get "port" rule)]))]))])).

Definition ListRules (E : env) : M dict :=
  replied (policy ← on_manager (on_store (read E));
           rules ← lift (rules_of policy);
           rows ← lift (mapM_res list_row rules);
           mret (dlit [("ok", VBool true); ("rules", VList rows)])).
End service.
