(* ===== verification/PolicyServiceClaims.v ===== *)
(** * The privileged policy service: lemmas

    What a request can change before its caller has authenticated, what the
    authentication establishes, and that the rule manager behaves the same over the
    state of the service. *)
From stdpp Require Import relations.
From S2P Require Import Prelude PyVal PyStr IpAddr Json NetworkRules RuleSpec NormalizeProps RulesCorrect RuleClaims PyText PolicyStore Firewall FirewallClaims Transactions TransactionProps PolicyService JsonExample TransactionClaims.

(** ** The bus *)

Section bus.
Context {Q : Type} `{SystemBus Q}.
Implicit Types q : Q.

(** One call of the interface. *)
Inductive bus_call q : Q -> Prop :=
| call_unix_user n : bus_call q (sb_unix_user n q).2
| call_account n : bus_call q (sb_account n q).2
| call_wheel : bus_call q (sb_wheel q).2
| call_unit n : bus_call q (sb_unit n q).2
| call_projection : bus_call q (sb_projection q).2
| call_user_state n : bus_call q (sb_user_state n q).2
| call_display n : bus_call q (sb_display n q).2
| call_session n : bus_call q (sb_session n q).2
| call_authorize n d t : bus_call q (sb_authorize n d t q).2
| call_cancel t : bus_call q (sb_cancel_check t q).2
| call_firewall : bus_call q (sb_firewall_state q).2.

Definition bus_steps : Q -> Q -> Prop := rtc bus_call.

(** The account was seen in the administrators' group; root needs no group. *)
Definition administrator (uid : Z) q q' : Prop :=
  uid = 0 \/
  exists q1 q2 user wheel,
    bus_steps q q1 /\ (sb_account uid q1).1 = Ok user /\ bus_steps q1 q2 /\ (sb_wheel q2).1 = Ok wheel
    /\ (acc_gid user = wheel.1 \/ In (acc_name user) wheel.2) /\ bus_steps q2 q'.

Lemma administrator_mono uid p p' q q' :
  bus_steps p' p -> bus_steps q q' -> administrator uid p q -> administrator uid p' q'.
Proof.
  intros Hp Hq [->|(q1 & q2 & user & wheel & E1 & E2 & E3 & E4 & E5 & E6)]; [by left|right].
  exists q1, q2, user, wheel. split_and!; try done; by etrans.
Qed.

(** The caller is an administrator, is who he was, sits at an active, unlocked, local session, and
    PolicyKit has just authenticated this very request; or he is root. *)
Definition authenticated (sender : string) (uid : Z) q q' : Prop :=
  administrator uid q q' /\
  (exists q1, bus_steps q q1 /\ (sb_unix_user sender q1).1 = Ok uid /\ bus_steps q1 q') /\
  (uid = 0 \/
   exists q1 q2 q3 q4 display facts details token answer,
     bus_steps q q1 /\ (sb_session display q1).1 = Ok facts
     /\ ss_remote facts = false /\ ss_locked facts = false /\ ss_active facts = true
     /\ bus_steps q1 q2 /\ sb_authorize sender details token q2 = (Ok answer, q3)
     /\ de_authorized answer = true /\ de_challenge answer = false /\ de_temporary answer = false
     /\ bus_steps q3 q4 /\ (sb_unix_user sender q4).1 = Ok uid /\ bus_steps q4 q').

Lemma authenticated_mono sender uid p p' q q' :
  bus_steps p' p -> bus_steps q q' -> authenticated sender uid p q -> authenticated sender uid p' q'.
Proof.
  intros Hp Hq (Had & (q1 & H1 & Hu & H2) & Ha). split; [by eapply administrator_mono|]. split.
  - exists q1. split_and!; [by etrans|done|by etrans].
  - destruct Ha as [->|(a1 & a2 & a3 & a4 & di & fa & de & tk & an & Hs & Ha)]; [by left|right].
    destruct Ha as (E1 & E2 & E3 & E4 & E5 & E6 & E7 & E8 & E9 & E10 & E11 & E12).
    exists a1, a2, a3, a4, di, fa, de, tk, an. split_and!; try done; by etrans.
Qed.
End bus.

(** ** What stays *)

Section stays.
Context {P Q : Type} `{FirewalldOk P} `{SystemBus Q} `{Host} `{FloatText}.
Context (W : mworld P -> mworld P -> Prop) `{!PreOrder W} (untouched_W : forall m m', untouched m m' -> W m m').
Implicit Types (s : service P Q).

(** The policy side moved by [W], the bus by its own calls. *)
Definition stays s s' : Prop := W (sv_manager s) (sv_manager s') /\ bus_steps (sv_bus s) (sv_bus s').

#[export] Instance stays_preorder : PreOrder stays.
Proof.
  split; [intros s; split; [reflexivity|apply rtc_refl]|].
  intros s1 s2 s3 [Ha Hb] [Ha' Hb']. split; [by etrans|exact (rtc_trans _ _ _ Hb Hb')].
Qed.

Lemma stays_bus {A} (m : act Q A) : (forall q, bus_call q (m q).2) -> respects stays (on_bus m).
Proof.
  intros Hm s. unfold after, on_bus. specialize (Hm (sv_bus s)). destruct (m (sv_bus s)).
  split; cbn; [reflexivity|by apply rtc_once].
Qed.

Lemma stays_manager {A} (m : act (mworld P) A) : respects untouched m -> respects stays (on_manager m).
Proof.
  intros Hm s. unfold after, on_manager. specialize (Hm (sv_manager s)). unfold after in Hm.
  destruct (m (sv_manager s)). split; cbn; [by apply untouched_W|apply rtc_refl].
Qed.

Lemma stays_slots f : respects stays (set_slots f).
Proof. apply respects_modify. intros s. split; cbn; [reflexivity|apply rtc_refl]. Qed.

Lemma stays_authorizations f : respects stays (set_authorizations f).
Proof. apply respects_modify. intros s. split; cbn; [reflexivity|apply rtc_refl]. Qed.

Ltac stays_step :=
  match goal with
  | |- PreOrder _ => typeclasses eauto
  | |- respects _ (mret _) => apply respects_ret; typeclasses eauto
  | |- respects _ (lift _) => apply respects_lift; typeclasses eauto
  | |- respects _ (raise _) => apply respects_raise; typeclasses eauto
  | |- respects _ (gets _) => apply respects_gets; typeclasses eauto
  | |- respects _ (check_that _ _) => apply respects_lift; typeclasses eauto
  | |- respects _ (set_slots _) => apply stays_slots
  | |- respects _ (set_authorizations _) => apply stays_authorizations
  | |- respects _ (on_bus _) => apply stays_bus; intros; constructor
  | |- respects _ (_ ≫= _) => apply respects_bind; [typeclasses eauto| |intros ?]
  | |- respects _ (catch _ _ _) => apply respects_catch; [typeclasses eauto| |intros ?]
  | |- respects _ (finally _ _) => apply respects_finally; [typeclasses eauto| |]
  | |- respects _ (when _ _) => unfold when
  | |- respects _ (match ?x with _ => _ end) => destruct x
  end.
Ltac stays_all := repeat first [assumption | stays_step].

Lemma stays_peer sender admin : respects stays (peer sender admin).
Proof. unfold peer. stays_all. Qed.

Lemma stays_engine_ready : respects stays engine_ready.
Proof. unfold engine_ready, engine_projection, engine_live_since, live_unit. stays_all. Qed.

Lemma stays_session uid : respects stays (local_session uid).
Proof. unfold local_session. stays_all. Qed.

Context (em_dash : string) (meanwhile : act (service P Q) unit) (Hmean : respects stays meanwhile).

Lemma stays_authenticate sender uid token t : respects stays (authenticate em_dash meanwhile sender uid token t).
Proof.
  pose proof (stays_session uid). pose proof (stays_peer sender true). pose proof stays_engine_ready.
  unfold authenticate. stays_all.
Qed.

Lemma stays_authorize sender uid token t : respects stays (authorize em_dash meanwhile sender uid token t).
Proof.
  pose proof (stays_peer sender true). pose proof (stays_authenticate sender uid token t).
  unfold authorize. stays_all.
Qed.

Lemma stays_run {A} (m : act (service P Q) A) s r s' : respects stays m -> m s = (r, s') -> stays s s'.
Proof. intros Hm Hr. specialize (Hm s). unfold after in Hm. by rewrite Hr in Hm. Qed.

(** ** What the authentication establishes *)

Lemma on_bus_run {A} (m : act Q A) s r s' : on_bus m s = (r, s') -> m (sv_bus s) = (r, sv_bus s').
Proof. unfold on_bus. destruct (m (sv_bus s)). by intros [= <- <-]. Qed.

Lemma check_run b msg s u s' : check_that b msg s = (Ok u, s') -> b = true /\ s' = s.
Proof. unfold check_that, lift. intros [= Hr ->]. by apply require_Ok in Hr. Qed.

Lemma peer_reads sender admin s uid s' :
  peer sender admin s = (Ok uid, s') -> (sb_unix_user sender (sv_bus s)).1 = Ok uid.
Proof.
  unfold peer. intros ([] & s1 & Hc & Hr)%act_bind_Ok. apply check_run in Hc as [_ ->].
  apply act_bind_Ok in Hr as (n & s2 & Hu & Hr). apply on_bus_run in Hu.
  apply act_bind_Ok in Hr as ([] & s3 & _ & Hr). injection Hr as <- _. by rewrite Hu.
Qed.

Lemma peer_administrator sender s uid s' :
  peer sender true s = (Ok uid, s') -> administrator uid (sv_bus s) (sv_bus s').
Proof.
  unfold peer. intros ([] & s1 & Hc & Hr)%act_bind_Ok. apply check_run in Hc as [_ ->].
  apply act_bind_Ok in Hr as (n & s2 & Hu & Hr).
  assert (bus_steps (sv_bus s) (sv_bus s2)) as Hs2.
  { eapply (stays_run (on_bus (sb_unix_user sender))); [|exact Hu]. apply stays_bus; intros; constructor. }
  apply act_bind_Ok in Hr as ([] & s3 & Hw & Hr). injection Hr as <- <-. cbn [andb] in Hw.
  destruct (Z.eqb_spec n 0) as [->|Hne]; cbn [negb when] in Hw; [by left|right].
  apply act_bind_Ok in Hw as (user & s4 & Ha & Hw). apply act_bind_Ok in Hw as (wheel & s5 & Hg & Hw).
  apply check_run in Hw as [Hm ->].
  assert (bus_steps (sv_bus s2) (sv_bus s4)) as Hs4.
  { eapply (stays_run (on_bus (sb_account n))); [|exact Ha]. apply stays_bus; intros; constructor. }
  assert (bus_steps (sv_bus s4) (sv_bus s5)) as Hs5.
  { eapply (stays_run (on_bus sb_wheel)); [|exact Hg]. apply stays_bus; intros; constructor. }
  apply on_bus_run in Ha, Hg. exists (sv_bus s2), (sv_bus s4), user, wheel. rewrite Ha, Hg. split_and!; try done.
  apply orb_true_iff in Hm as [Hm|Hm]; [left; by apply Z.eqb_eq|right].
  apply existsb_exists in Hm as (x & Hx & ->%String.eqb_eq). done.
Qed.

Lemma session_reads uid s s' :
  local_session uid s = (Ok tt, s') -> exists q display facts,
    bus_steps (sv_bus s) q /\ (sb_session display q).1 = Ok facts /\ ss_remote facts = false /\ ss_locked facts = false
    /\ ss_active facts = true /\ bus_steps q (sv_bus s').
Proof.
  unfold local_session. intros (st & s1 & E1 & Hr)%act_bind_Ok. apply act_bind_Ok in Hr as ([] & s2 & E2 & Hr).
  apply check_run in E2 as [_ ->]. apply act_bind_Ok in Hr as (display & s3 & E3 & Hr).
  apply act_bind_Ok in Hr as ([] & s4 & E4 & Hr). apply check_run in E4 as [_ ->].
  apply act_bind_Ok in Hr as (facts & s5 & E5 & Hr). apply check_run in Hr as [Hf ->]. split_bool.
  assert (bus_steps (sv_bus s) (sv_bus s3)) as Hs.
  { etrans; [eapply (stays_run (on_bus (sb_user_state uid)))|eapply (stays_run (on_bus (sb_display uid)))];
      try eassumption; apply stays_bus; intros; constructor. }
  assert (bus_steps (sv_bus s3) (sv_bus s5)) as Hs5.
  { eapply (stays_run (on_bus (sb_session display.2))); [|eassumption]. apply stays_bus; intros; constructor. }
  apply on_bus_run in E5. exists (sv_bus s3), display.2, facts. by rewrite E5.
Qed.

Lemma authorize_authenticates sender uid token t s s' :
  authorize em_dash meanwhile sender uid token t s = (Ok tt, s') -> authenticated sender uid (sv_bus s) (sv_bus s').
Proof.
  unfold authorize. intros (current & s1 & Hpeer & Hr)%act_bind_Ok. apply act_bind_Ok in Hr as ([] & s2 & Hc & Hr).
  apply check_run in Hc as [->%Z.eqb_eq ->]. pose proof (peer_reads _ _ _ _ _ Hpeer) as Hread.
  destruct (stays_run _ _ _ _ (stays_peer sender true) Hpeer) as [_ Hs1].
  assert (bus_steps (sv_bus s1) (sv_bus s')) as Hrest.
  { destruct (uid =? 0); [injection Hr as <-; apply rtc_refl|]. eapply stays_run; [|exact Hr].
    pose proof (stays_authenticate sender uid token t). stays_all. }
  split; [eapply administrator_mono; [apply rtc_refl|exact Hrest|by eapply peer_administrator]|].
  split; [exists (sv_bus s); split_and!; [apply rtc_refl|done|by etrans]|].
  destruct (Z.eqb_spec uid 0) as [->|Hne]; [by left|right]. unfold finally in Hr.
  destruct (authenticate em_dash meanwhile sender uid token t s1) as [ra sa] eqn:Ha. injection Hr as -> <-. cbn.
  unfold authenticate in Ha. apply act_bind_Ok in Ha as ([] & s3 & Hsession & Ha).
  apply session_reads in Hsession as (q & display & facts & Hq & Hfacts & Hremote & Hlocked & Hactive & Hq3).
  apply act_bind_Ok in Ha as ([] & s4 & Hset & Ha). apply act_bind_Ok in Ha as (details & s5 & Hdet & Ha).
  injection Hdet as _ <-. apply act_bind_Ok in Ha as ([] & s6 & Hm & Ha).
  apply act_bind_Ok in Ha as (answer & s7 & Hask & Ha). apply act_bind_Ok in Ha as ([] & s8 & Hchk & Ha).
  apply check_run in Hchk as [Hgrant ->]. split_bool. apply act_bind_Ok in Ha as (again & s9 & Hagain & Ha).
  apply act_bind_Ok in Ha as ([] & s10 & Hsame & Ha). apply check_run in Hsame as [->%Z.eqb_eq ->].
  apply act_bind_Ok in Ha as (projection & s11 & Hready & Ha). injection Ha as <-.
  destruct (stays_run _ _ _ _ Hmean Hm) as [_ Hmq].
  destruct (stays_run _ _ _ _ stays_engine_ready Hready) as [_ Hrq].
  destruct (stays_run _ _ _ _ (stays_peer sender true) Hagain) as [_ Haq].
  injection Hset as <-. apply on_bus_run in Hask. apply peer_reads in Hagain.
  exists q, (sv_bus s6), (sv_bus s7), (sv_bus s7), display, facts, details, token, answer.
  split_and!; try done; by etrans.
Qed.

(** ** Requests *)

(** Nothing changed but through [W], or the caller was authenticated. *)
Definition guarded sender s s' : Prop :=
  stays s s' \/ exists uid, authenticated sender uid (sv_bus s) (sv_bus s').

Lemma guarded_after sender s1 s2 s3 : stays s1 s2 -> guarded sender s2 s3 -> guarded sender s1 s3.
Proof.
  intros Hs [Hg|(uid & Ha)]; [left; by etrans|right]. exists uid. destruct Hs as [_ Hq].
  eapply authenticated_mono; [exact Hq|apply rtc_refl|done].
Qed.

Lemma guarded_then sender s1 s2 s3 :
  guarded sender s1 s2 -> stays s2 s3 -> guarded sender s1 s3.
Proof.
  intros [Hg|(uid & Ha)] Hs; [left; by etrans|right]. exists uid. destruct Hs as [_ Hq].
  eapply authenticated_mono; [apply rtc_refl|exact Hq|done].
Qed.

Lemma guarded_bind {A B} sender (m : act (service P Q) A) (f : A -> act (service P Q) B) s :
  respects stays m -> (forall a s1, m s = (Ok a, s1) -> guarded sender s1 (after (f a) s1)) ->
  guarded sender s (after (m ≫= f) s).
Proof.
  intros Hm Hf. pose proof (Hm s) as Hs. unfold after, mbind, act_bind in *.
  destruct (m s) as [[a|e] s1] eqn:E; [|by left]. eapply guarded_after; [exact Hs|by apply Hf].
Qed.

(** A part that works on the manager leaves the bus alone. *)
Lemma on_manager_bus {A} (m : act (mworld P) A) s : sv_bus (after (on_manager m) s) = sv_bus s.
Proof. unfold after, on_manager. by destruct (m (sv_manager s)). Qed.

Definition quiet (m : service P Q -> service P Q) : Prop := forall s, sv_bus (m s) = sv_bus s.

Lemma untouched_claim uid token : respects untouched (apply_claim (P := P) uid token).
Proof.
  unfold apply_claim, update_txn. apply respects_bind; [typeclasses eauto|apply respects_gets; typeclasses eauto|intros m].
  destruct (lookup_token token (m_pending m)); [|apply respects_raise; typeclasses eauto].
  do 2 (apply respects_bind; [typeclasses eauto|apply untouched_ensure|intros _]).
  apply respects_bind; [typeclasses eauto|apply untouched_pending|intros _]. apply respects_ret; typeclasses eauto.
Qed.

Lemma reviewed_guarded E sender uid token o undo_token s :
  guarded sender s (after (apply_reviewed em_dash meanwhile E sender uid token o undo_token) s).
Proof.
  apply guarded_bind; [apply stays_manager, untouched_claim|]. intros t s1 _. unfold after, finally.
  destruct (authorize em_dash meanwhile sender uid token t s1) as [[[]|e] s2] eqn:Ha.
  - pose proof (authorize_authenticates _ _ _ _ _ _ Ha) as Hauth.
    match goal with |- context [let '(r, s') := ?m in _] => assert (sv_bus m.2 = sv_bus s2) as Hq; [|destruct m as [r s3]] end.
    { unfold mbind at 1, act_bind at 1. rewrite Ha. unfold mbind, act_bind.
      pose proof (on_manager_bus (apply_check E token t) s2) as Hq1. unfold after in Hq1.
      destruct (on_manager (apply_check E token t) s2) as [[policy|e] s3]; [|done].
      pose proof (on_manager_bus (apply_commit E t policy o) s3) as Hq2. unfold after in Hq2.
      destruct (on_manager (apply_commit E t policy o) s3) as [[saved|e] s4]; [|cbn in *; congruence].
      pose proof (on_manager_bus (apply_record (VInt uid) t saved undo_token) s4) as Hq3. unfold after in Hq3.
      cbn in *. congruence. }
    right. exists uid. cbn in Hq.
    pose proof (on_manager_bus (set_pending (pop_token token)) s3) as Hp. unfold after in Hp.
    destruct (on_manager (set_pending (pop_token token)) s3) as [[u|e] s4]; cbn in *; by rewrite Hp, Hq.
  - left. pose proof (stays_run _ _ _ _ (stays_authorize sender uid token t) Ha) as Hs.
    match goal with |- context [let '(r, s') := ?m in _] => replace m with (Err (A := dict) e, s2) end.
    2: { unfold mbind at 1, act_bind at 1. by rewrite Ha. }
    assert (stays s2 (after (on_manager (set_pending (pop_token token))) s2)) as Hp by (apply stays_manager, untouched_pending).
    unfold after in Hp. destruct (on_manager (set_pending (pop_token token)) s2) as [[u|e'] s3]; cbn in *; by etrans.
Qed.

Context (resolve_executable : option (string -> res string)).

Lemma stays_legacy E uid l value u : respects stays (legacy_review resolve_executable E uid l value u).
Proof.
  unfold legacy_review. apply respects_bind; [typeclasses eauto|apply stays_manager, untouched_read|intros policy].
  do 2 (apply respects_bind; [typeclasses eauto|apply respects_lift; typeclasses eauto|intros ?]).
  apply respects_bind; [typeclasses eauto|apply stays_manager, untouched_prepare|intros preview].
  apply respects_bind; [typeclasses eauto|apply respects_lift; typeclasses eauto|intros ?]. apply respects_ret; typeclasses eauto.
Qed.

Lemma work_guarded E payload sender l u s :
  guarded sender s (after (work resolve_executable em_dash meanwhile E payload sender l u) s).
Proof.
  unfold work. apply guarded_bind; [apply stays_peer|intros uid s1 _].
  apply guarded_bind; [apply stays_engine_ready|intros _ s2 _].
  apply guarded_bind; [apply respects_lift; typeclasses eauto|intros value s3 _].
  apply guarded_bind; [destruct l; [apply stays_legacy|apply respects_ret; typeclasses eauto]|intros value' s4 _].
  destruct (get "transaction" value') as [| | | |token| |];
    try (left; unfold after, raise; cbn; reflexivity). apply reviewed_guarded.
Qed.

Lemma dispatch_guarded E payload sender l u s :
  guarded sender s (after (dispatch resolve_executable em_dash meanwhile E payload sender l u) s).
Proof.
  unfold dispatch. apply guarded_bind; [apply respects_gets; typeclasses eauto|intros free s1 _].
  destruct free as [|free]; [left; unfold after; cbn; reflexivity|].
  apply guarded_bind; [apply stays_slots|intros _ s2 _].
  pose proof (work_guarded E payload sender l u s2) as Hw. unfold after, finally, catch in *.
  destruct (work resolve_executable em_dash meanwhile E payload sender l u s2) as [[r|e] s3]; cbn in Hw |- *;
    eapply guarded_then; try exact Hw; split; cbn; try reflexivity; apply rtc_refl.
Qed.
End stays.

(** ** The manager behind the service *)

Section simulation.
Context {P Q : Type} `{Firewalld P} `{SystemBus Q} `{Host} `{FloatText}.
Context (em_dash : string) (meanwhile : act (service P Q) unit).
Implicit Types (s : service P Q).

(** [s] with another manager. *)
Definition with_manager (w : mworld P) s : service P Q := Service w (sv_bus s) (sv_slots s) (sv_authorizations s).

(** The authentication of a review, seen from the manager. *)
Definition seen_authorize (s : service P Q) (sender : string) (uid : Z) (token : string) (t : txn) : act (mworld P) unit := fun w =>
  let '(r, s1) := authorize em_dash meanwhile sender uid token t (with_manager w s) in (r, sv_manager s1).

Lemma reviewed_simulates E sender uid token o undo_token s :
  let m := apply_reviewed em_dash meanwhile E sender uid token o undo_token in
  Transactions.apply E (VInt uid) token (seen_authorize s sender uid token) o undo_token (sv_manager s)
  = (outcome m s, sv_manager (after m s)).
Proof.
  intros m. unfold m, apply_reviewed, Transactions.apply, outcome, after, mbind, act_bind, finally, on_manager, seen_authorize.
  destruct (apply_claim (VInt uid) token (sv_manager s)) as [[t|e] w1]; [|done]. fold (with_manager w1 s).
  destruct (authorize em_dash meanwhile sender uid token t (with_manager w1 s)) as [[u|e] s2]; cbn; [|done].
  destruct (apply_check E token t (sv_manager s2)) as [[policy|e] w3]; cbn; [|done].
  destruct (apply_commit E t policy o w3) as [[saved|e] w4]; cbn; [|done].
  by destruct (apply_record (VInt uid) t saved undo_token w4) as [r w5].
Qed.
End simulation.

(** * The privileged policy service: properties

    No change without fresh authentication, the rule manager behind the
    service, and one answer to every request. *)

(** ** Slots *)

Section slots.
Context {P Q : Type} `{Firewalld P} `{SystemBus Q} `{Host} `{FloatText}.

Definition same_slots (s s' : service P Q) : Prop := sv_slots s' = sv_slots s.

#[export] Instance same_slots_preorder : PreOrder same_slots.
Proof. split; [done|]. intros s1 s2 s3 H12 H23. unfold same_slots in *. congruence. Qed.

Lemma slots_bus {A} (m : act Q A) : respects same_slots (on_bus m).
Proof. intros s. unfold same_slots, after, on_bus. by destruct (m (sv_bus s)). Qed.

Lemma slots_manager {A} (m : act (mworld P) A) : respects same_slots (on_manager m).
Proof. intros s. unfold same_slots, after, on_manager. by destruct (m (sv_manager s)). Qed.

Ltac slots_step :=
  match goal with
  | |- PreOrder _ => typeclasses eauto
  | |- respects _ (mret _) => apply respects_ret; typeclasses eauto
  | |- respects _ (lift _) => apply respects_lift; typeclasses eauto
  | |- respects _ (raise _) => apply respects_raise; typeclasses eauto
  | |- respects _ (gets _) => apply respects_gets; typeclasses eauto
  | |- respects _ (check_that _ _) => apply respects_lift; typeclasses eauto
  | |- respects _ (set_authorizations _) => by apply respects_modify
  | |- respects _ (on_bus _) => apply slots_bus
  | |- respects _ (on_manager _) => apply slots_manager
  | |- respects _ (_ ≫= _) => apply respects_bind; [typeclasses eauto| |intros ?]
  | |- respects _ (finally _ _) => apply respects_finally; [typeclasses eauto| |]
  | |- respects _ (when _ _) => unfold when
  | |- respects _ (match ?x with _ => _ end) => destruct x
  end.

Lemma work_slots resolve em_dash (meanwhile : act (service P Q) unit) E payload sender l u :
  respects same_slots meanwhile -> respects same_slots (work resolve em_dash meanwhile E payload sender l u).
Proof.
  intros Hm. unfold work, apply_reviewed, authorize, authenticate, legacy_review, local_session, peer, engine_ready,
    engine_projection, engine_live_since, live_unit.
  repeat first [assumption | slots_step].
Qed.
End slots.

(** ** Properties *)

Section claims.
Context {P Q : Type} `{FirewalldOk P} `{SystemBus Q} `{Host} `{FloatText}.
Implicit Types (s : service P Q).

(** C2. Whatever a caller sends to Apply, SetRule, SetThreatException,
    SetThreatIntelEnabled or RemoveRule: either nothing happened to the policy
    file, the firewall and the undo records beyond what other requests did while
    this one waited, or, within this very request, the bus named an
    administrator as the sender, and, root apart, an active, unlocked, local
    session of his was seen, PolicyKit granted the request without a challenge or a
    reusable authorisation, and the bus then named the same sender again. [W] is
    any relation kept by what happened meanwhile. *)
Theorem change_needs_authentication (W : mworld P -> mworld P -> Prop) `{!PreOrder W} resolve em_dash meanwhile
    E payload sender l u s :
  (forall m m', untouched m m' -> W m m') -> respects (stays W) meanwhile ->
  let s' := after (dispatch resolve em_dash meanwhile E payload sender l u) s in
  W (sv_manager s) (sv_manager s') \/ exists uid, authenticated sender uid (sv_bus s) (sv_bus s').
Proof.
  intros Hun Hmean s'. destruct (dispatch_guarded W Hun em_dash meanwhile Hmean resolve E payload sender l u s) as [[Hw _]|Ha];
    [by left|by right].
Qed.

(** C38. Every request for a change is answered: whatever its payload, its caller
    and the exceptions of the layers below, it ends with one reply, and the slot
    it took is free again, so that a service with a free slot keeps one. *)
Theorem request_answered resolve em_dash meanwhile E payload sender l u s :
  respects same_slots meanwhile ->
  exists reply, outcome (dispatch resolve em_dash meanwhile E payload sender l u) s = Ok reply
    /\ sv_slots (after (dispatch resolve em_dash meanwhile E payload sender l u) s) = sv_slots s.
Proof.
  intros Hm. unfold outcome, after, dispatch, mbind, act_bind, gets. destruct (sv_slots s) as [|free] eqn:Hs; [by eexists|].
  unfold set_slots, modify, finally, catch. rewrite Hs. cbn [pred].
  set (s1 := Service (sv_manager s) (sv_bus s) free (sv_authorizations s)).
  pose proof (work_slots resolve em_dash meanwhile E payload sender l u Hm s1) as Hw. unfold same_slots, after in Hw.
  destruct (work resolve em_dash meanwhile E payload sender l u s1) as [[r|e] s2]; cbn [snd sv_slots] in Hw.
  - exists r. cbn. by rewrite Hw.
  - exists (failure e). change (any_exception e) with true. cbv iota.
    change ((mret (failure e) : act (service P Q) dict) s2) with (Ok (failure e), s2). cbv beta iota. cbn [fst snd sv_slots]. by rewrite Hw.
Qed.
End claims.

(** ** An example *)

(** An administrator at an unlocked local session; [lab_grants] is PolicyKit's
    answer. *)
Record desk := Desk { desk_grants : bool; desk_raw : string }.

#[export] Instance desk_bus : SystemBus desk := {
  sb_unix_user := fun _ => mret 1000;
  sb_account := fun _ => mret (Account "ada" 1000);
  sb_wheel := mret (10, ["ada"]);
  sb_unit := fun _ => mret (UnitProps "active" 812 1000);
  sb_projection := gets (fun q => ProjectionFile 0 420 (desk_raw q) 2000);
  sb_user_state := fun _ => mret "active";
  sb_display := fun _ => mret ("c2", "/org/freedesktop/login1/session/c2");
  sb_session := fun _ => mret (SessionFacts false false true "seat0");
  sb_authorize := fun _ _ _ => gets (fun q => Decision (desk_grants q) false false);
  sb_cancel_check := fun _ => mret tt;
  sb_firewall_state := mret "RUNNING";
}.

Definition engine_contents : string :=
  dumps (VDict (dlit [("rules_schema", VStr "greyward.network.rules/v2");
                      ("opensnitch", VDict (dlit [("state", VStr "OPERATING"); ("last_seen", VInt 5)]))])).

Definition desk_service (granted : bool) : service listed desk :=
  Service example_manager (Desk granted engine_contents) 2 [].

Definition desk_supply : supply := Supply (fun _ => "00000000000000000009") "token" "undo" example_writes.

(** The removal of the example rule, by name, through the legacy method. *)
Definition removal (granted : bool) : res dict * service listed desk :=
  dispatch None "-" (mret tt) example_env "greyward-0123456789abcdef0123" ":1.42" (Some LegacyRemove) desk_supply
    (desk_service granted).

Example removal_granted :
  option_map (get "state") (match (removal true).1 with Ok d => Some d | Err _ => None end) = Some (VStr "SAVED")
  /\ option_map (get "state") (match (removal false).1 with Ok d => Some d | Err _ => None end) = Some (VStr "REFUSED").
Proof. by vm_compute. Qed.

Definition removing (granted : bool) : act (service listed desk) dict :=
  dispatch None "-" (mret tt) example_env "greyward-0123456789abcdef0123" ":1.42" (Some LegacyRemove) desk_supply.

(** The policy file, to see that a request changed it. *)
Definition policy_contents (s : service listed desk) : option string :=
  option_map f_data (d_main (w_disk (m_world (sv_manager s)))).

Lemma removal_changes : policy_contents (after (removing true) (desk_service true)) <> policy_contents (desk_service true).
Proof. apply (bool_decide_unpack _). vm_compute. exact I. Qed.

Lemma untouched_contents (s s' : service listed desk) :
  untouched (sv_manager s) (sv_manager s') -> policy_contents s' = policy_contents s.
Proof. intros (Hd & _). unfold policy_contents. by rewrite Hd. Qed.

(** The granted removal changed the policy file, so it was authenticated. *)
Lemma change_needs_authentication_witness :
  exists uid, authenticated ":1.42" uid (sv_bus (desk_service true)) (sv_bus (after (removing true) (desk_service true))).
Proof.
  destruct (change_needs_authentication untouched None "-" (mret tt) example_env "greyward-0123456789abcdef0123" ":1.42"
    (Some LegacyRemove) desk_supply (desk_service true)) as [Hw|Ha].
  - intros m m' Hm. exact Hm.
  - apply respects_ret. typeclasses eauto.
  - destruct (removal_changes (untouched_contents _ _ Hw)).
  - exact Ha.
Defined.

Lemma request_answered_witness :
  exists reply, outcome (dispatch None "-" (mret tt) example_env "{" ":1.42" None desk_supply) (desk_service true) = Ok reply
    /\ sv_slots (after (dispatch None "-" (mret tt) example_env "{" ":1.42" None desk_supply) (desk_service true)) = 2%nat.
Proof.
  apply (request_answered None "-" (mret tt) example_env "{" ":1.42" None desk_supply (desk_service true)).
  apply respects_ret. typeclasses eauto.
Defined.

