(* ===== verification/Notifications.v ===== *)
(** * Notices of finished scans and the notification publisher

    [scan_notices.py]: the notices of the file scans that ended within the last
    minute, and the styled text of a notice. [notification_router.py]: what the
    desktop shows of the alerts. *)
From stdpp Require Import relations.
From S2P Require Import Prelude PyVal PyStr Json PyText PyTime IpAddr NetworkRules Firewall JsonExample RuleClaims.

(** [STYLES]: colour, label and artwork of a status. *)
Definition STYLES : list (string * (string * string * string)) :=
  [("CLEAN", ("#A7D8B7", "No threats detected", "clean")); ("PARTIAL", ("#E9C484", "Scan incomplete", "review"));
   ("FAILED", ("#E9C484", "Scan did not finish", "review")); ("UNAVAILABLE", ("#E9C484", "Scanner unavailable", "review"));
   ("CANCELLED", ("#BDCADA", "Scan cancelled", "neutral")); ("EMPTY", ("#BDCADA", "No files inspected", "neutral"));
   ("THREAT", ("#F0A3AA", "Threat detected", "threat"))].

(** [count(value)]. *)
Definition count (v : val) : option Z :=
  match v with VInt z => if (0 <=? z) && (z <=? 10000000) then Some z else None | _ => None end.

(** [Path(s).name]: the last component that is neither empty nor a dot. *)
Definition file_name (s : string) : string :=
  default "" (last (List.filter (fun c => negb (String.eqb c "" || String.eqb c ".")) (split "/" s))).

Definition q_mark : string := String quote "".

Section notices.
Context `{FloatText} `{IsoText}.

(** [subject(value)]. *)
Definition subject (v : val) : string :=
  let name := file_name (py_str (py_or v (VStr "Selected files"))) in
  let shown := str_take 100 (str_map (fun c => if isprintable_char c then c else " "%char) name) in
  if String.eqb shown "" then "Selected files" else shown.

(** [appearance(notice)]: the body and the icon. *)
Definition appearance (notice : dict) : res (option (string * string)) :=
  kind ← in_set ["scan-result"; "malware"] (get "kind" notice);
  if negb kind then Ok None else
  known ← in_set (map fst STYLES) (get "scan_status" notice);
  match (if known : bool then match get "scan_status" notice with VStr s => dget s STYLES | _ => None end else None) with
  | None => Ok None
  | Some (color, label, artwork) =>
      let caption := py_str (py_or (get "scan_caption" notice)
        (VStr (if is_str "THREAT" (get "scan_status" notice) then "Review this finding in File security"
               else "View the result in File security"))) in
      Ok (Some ("<font color=" +:+ q_mark +:+ color +:+ q_mark +:+ " size=" +:+ q_mark +:+ "5" +:+ q_mark +:+ "><b>" +:+ label
                +:+ "</b></font><br/><font size=" +:+ q_mark +:+ "4" +:+ q_mark +:+ ">" +:+ html_escape caption +:+ "</font>",
                "file:///usr/share/greyward-security-center/scan-notifications/greyward-scan-" +:+ artwork +:+ ".svg?design=2"))
  end.

(** The status, title and severity of a scan, [None] for an unknown state. *)
Definition middle_dot : string := " " +:+ String (ascii_of_N 183) " ".

Definition files_text (n : Z) (one many : string) : string := str_of_Z n +:+ (if n =? 1 then one else many).

Definition scan_outcome (scan : dict) : res (option (string * string * string)) :=
  let state := get "state" scan in
  let inspected := count (get "files_inspected" scan) in
  if is_str "COMPLETED" state then
    Ok (Some (match count (get "error_count" scan), count (get "skipped_count" scan), inspected with
              | Some 0, Some 0, Some 0 => ("EMPTY", "Scan finished", "INFO")
              | Some 0, Some 0, Some n => ("CLEAN", "Scan complete" +:+ middle_dot +:+ files_text n " file" " files", "INFO")
              | _, _, _ => ("PARTIAL", "Scan incomplete", "WARNING")
              end))
  else if is_str "CANCELLED" state then Ok (Some ("CANCELLED", "Scan cancelled", "INFO"))
  else known ← in_set ["FAILED"; "PARTIAL"; "INTERRUPTED"; "TIMEOUT"] state;
       Ok (if known : bool
           then Some (if is_str "PARTIAL" state then "PARTIAL" else "FAILED", "Scan incomplete", "WARNING") else None).

Definition scan_caption (status : string) (inspected : option Z) : string :=
  if String.eqb status "CLEAN" then match inspected with Some n => files_text n " file checked" " files checked" | None => "" end
  else match dget status [("PARTIAL", "Some files could not be checked"); ("FAILED", "The scan could not be completed");
                          ("CANCELLED", "No complete result was recorded");
                          ("EMPTY", "The selection contained no scannable files")] with
       | Some s => s | None => "View the result in File security" end.

Definition label_of (status : string) : string := match dget status STYLES with Some (_, l, _) => l | None => "" end.

(** [scan.get('scope') if isinstance(...) else {}]. *)
Definition scope_of (scan : dict) : dict := match get "scope" scan with VDict d => d | _ => [] end.

Definition notice_of (reference : string) (scan : dict) (outcome : string * string * string) : dict :=
  let '(status, title, severity) := outcome in
  let name := subject (get "label" (scope_of scan)) in
  dlit [("id", VStr ("scan-result:" +:+ reference)); ("kind", VStr "scan-result"); ("severity", VStr severity);
        ("title", VStr title); ("detail", VStr (label_of status +:+ middle_dot +:+ name)); ("route", VStr "files");
        ("actions", VList [VDict (dlit [("id", VStr "open"); ("label", VStr "View scan")])]);
        ("timeout_ms", VInt (if String.eqb severity "INFO" then 8000 else 12000)); ("scan_status", VStr status);
        ("scan_subject", VStr name); ("notification_title", VStr name);
        ("scan_caption", VStr (scan_caption status (count (get "files_inspected" scan))))].

(** A scan of the foreground without detections that ended in the last minute. *)
Definition recent_scan (current : Z) (scan : dict) : bool :=
  negb (truthy (get "background" (scope_of scan))) && bool_decide (count (get "detection_count" scan) = Some 0)
  && match iso_parse (text_of (get "ended_at" scan)) with
     | Some (ended, true) => (0 <=? current - ended) && (current - ended <? 60 * second)
     | _ => false
     end.

Definition reference_of (scan : dict) : string := text_of (get "operation_id" scan).

(** The loop over the scans; [seen] are the references handled before. *)
Fixpoint scan_loop (current : Z) (seen : list string) (scans : list val) : res (list dict) :=
  match scans with
  | [] => Ok []
  | VDict scan :: scans =>
      let reference := reference_of scan in
      if String.eqb reference "" || existsb (String.eqb reference) seen then scan_loop current seen scans
      else
        outcome ← (if recent_scan current scan then scan_outcome scan else Ok None);
        rest ← scan_loop current (reference :: seen) scans;
        Ok (match outcome with Some o => notice_of reference scan o :: rest | None => rest end)
  | _ :: scans => scan_loop current seen scans
  end.

(** [results(files, current)]. *)
Definition results (files : dict) (current : Z) : res (list dict) :=
  if negb (is_str "AVAILABLE" (get "state" files)) then Ok []
  else let scans := match get "recent_scans" files with VList l => take 8 l | _ => [] end in
       scan_loop current [] (py_or (get "latest_scan" files) (VDict []) :: scans).
End notices.

(** * The notification publisher ([notification_router.py])

    The records of what was shown, the alerts eligible for display, the
    reconciliation of the desktop's notifications with the observed alerts, and
    the callbacks of the notification server, which is an interface. Ids of
    alerts are texts. *)

Definition APP_NAME : string := "GREYWARD Security Center".
Definition APP_ID : string := "systems.mantis.greyward.securitycenter".
Definition ICON : string := "greyward-security-status".
Definition MAX_WARNING_STABILITY_SECONDS : Z := 300.
Definition DAY : Z := 86400.

(** A call of Notify. *)
Record notification := Notification {
  n_replaces : Z; n_icon : string; n_title : val; n_body : string; n_actions : list val; n_hints : dict; n_timeout : val }.

(** The notification server and the clocks; a D-Bus error is [ProviderError].
    [nt_attach] is the object of an owner, which the bus may refuse. *)
Class Notifier (Q : Type) := {
  nt_owner : act Q string;
  nt_attach : string -> act Q unit;
  nt_notify : notification -> act Q Z;
  nt_close : Z -> act Q unit;
  nt_dispatch : dict -> string -> act Q unit;
  nt_monotonic : Q -> val;
  nt_time : Q -> val;
}.

(** What is known about an alert that was observed. *)
Record alert := Alert { a_item : dict; a_id : Z; a_signature : option string; a_acknowledged : bool }.
Definition new_alert : alert := Alert [] 0 None false.

(** The delivery file. *)
Record delivery := Delivery { de_owner : string; de_records : list (string * alert); de_completed : list (string * val) }.

Record router (Q : Type) := Router {
  r_server : Q;
  r_records : list (string * alert);
  r_owner : string;
  r_connected : bool;
  r_completed : list (string * val);
  r_closing : list Z;
  r_warning_since : list (string * val);
  r_reminders : list (string * val);
  r_saved : option delivery;
}.
Arguments Router {Q}. Arguments r_server {Q}. Arguments r_records {Q}. Arguments r_owner {Q}. Arguments r_connected {Q}.
Arguments r_completed {Q}. Arguments r_closing {Q}. Arguments r_warning_since {Q}. Arguments r_reminders {Q}. Arguments r_saved {Q}.

(** ** Alerts *)

Definition is_critical (d : dict) : bool := is_str "CRITICAL" (get "severity" d).

Definition number (v : val) : option num := match v with VInt _ | VFloat _ => num_of v | _ => None end.

(** [0 < v <= MAX_WARNING_STABILITY_SECONDS] for a number that is no bool. *)
Definition bounded_stability (v : val) : bool :=
  match number v with
  | Some x => match num_compare (NFin 0 0) x, num_compare x (NFin MAX_WARNING_STABILITY_SECONDS 0) with
              | Some Lt, Some (Lt | Eq) => true | _, _ => false end
  | None => false
  end.

Definition stability_of (item : dict) : val := getd "notification_stability_seconds" (VInt 0) item.

Definition deferred_warning (item : dict) : bool :=
  is_str "WARNING" (get "severity" item) && bounded_stability (stability_of item).

(** The alerts by id: a later one replaces an earlier one in its place. *)
Fixpoint by_id (items : list dict) (acc : list (string * dict)) : res (list (string * dict)) :=
  match items with
  | [] => Ok acc
  | d :: items => k ← item_str "id" d; by_id items (put k d acc)
  end.

Definition forget_key {A} (k : string) (l : list (string * A)) : list (string * A) :=
  List.filter (fun kv => negb (String.eqb kv.1 k)) l.

Definition keep_keys {A B} (l : list (string * A)) (other : list (string * B)) : list (string * A) :=
  List.filter (fun kv => existsb (fun kv' => String.eqb kv'.1 kv.1) other) l.

(** [time - v < 86400] for a number [v]. *)
Definition within_day (time v : val) : res bool :=
  match v with
  | VInt _ | VFloat _ | VBool _ =>
      age ← py_sub time (match v with VBool b => VInt (if b then 1 else 0) | _ => v end);
      ge ← py_ge age (VInt DAY); Ok (match num_of age with Some NNan => false | _ => negb ge end)
  | _ => Ok false
  end.

(** [dict(sorted(d.items(), key=value)[-128:])]. *)
Definition time_leb (v w : string * val) : bool := match py_ge w.2 v.2 with Ok b => b | Err _ => false end.
Definition latest (l : list (string * val)) : list (string * val) := last_n 128 (sort_by time_leb l).

(** [re.fullmatch(r'greyward-intelligence-(?:[0-9]{1,2}|100)', s)]. *)
Definition gauge_ok (s : string) : bool :=
  startswith "greyward-intelligence-" s &&
  (let n := str_drop 22 s in
   String.eqb n "100" || (((String.length n =? 1)%nat || (String.length n =? 2)%nat) && str_forall digit_char n)).

(** [open_route(route, resource_ref)]: the command, if one is run. *)
Definition ROUTES : list string :=
  ["overview"; "devices"; "privacy"; "network"; "threats"; "files"; "updates"; "evidence"; "activity"; "history"; "protected-data";
   "intelligence"].

Definition hex_text (s : string) (n : nat) : bool := (String.length s =? n)%nat && str_forall hex_lower_char s.

Definition reference_for (route reference : string) : bool :=
  if existsb (String.eqb route) ["history"; "activity"]
  then startswith "incident-" reference && hex_text (str_drop 9 reference) 24
  else String.eqb route "protected-data" && startswith "resource_" reference && hex_text (str_drop 9 reference) 64.

Definition open_route (route : string) (resource_ref : option string) : option (list string) :=
  let route := if String.eqb route "intelligence" then "history" else route in
  if negb (existsb (String.eqb route) ROUTES) then None
  else match resource_ref with
       | None => Some ["/usr/bin/greyward-security-center-route"; route]
       | Some r => if reference_for route r then Some ["/usr/bin/greyward-security-center-route"; route; r] else None
       end.

Section router.
Context {Q : Type} `{Notifier Q} `{Host} `{FloatText}.
Abbreviation M := (act (router Q)).

Definition on_server {A} (m : act Q A) : M A := fun s =>
  let '(r, q) := m (r_server s) in
  (r, Router q (r_records s) (r_owner s) (r_connected s) (r_completed s) (r_closing s) (r_warning_since s) (r_reminders s) (r_saved s)).

Definition set_records (f : list (string * alert) -> list (string * alert)) : M unit := modify (fun s =>
  Router (r_server s) (f (r_records s)) (r_owner s) (r_connected s) (r_completed s) (r_closing s) (r_warning_since s) (r_reminders s) (r_saved s)).
Definition set_owner (owner : string) : M unit := modify (fun s =>
  Router (r_server s) (r_records s) owner (r_connected s) (r_completed s) (r_closing s) (r_warning_since s) (r_reminders s) (r_saved s)).
Definition set_connected (b : bool) : M unit := modify (fun s =>
  Router (r_server s) (r_records s) (r_owner s) b (r_completed s) (r_closing s) (r_warning_since s) (r_reminders s) (r_saved s)).
Definition set_completed (f : list (string * val) -> list (string * val)) : M unit := modify (fun s =>
  Router (r_server s) (r_records s) (r_owner s) (r_connected s) (f (r_completed s)) (r_closing s) (r_warning_since s) (r_reminders s) (r_saved s)).
Definition set_closing (f : list Z -> list Z) : M unit := modify (fun s =>
  Router (r_server s) (r_records s) (r_owner s) (r_connected s) (r_completed s) (f (r_closing s)) (r_warning_since s) (r_reminders s) (r_saved s)).
Definition set_warning_since (f : list (string * val) -> list (string * val)) : M unit := modify (fun s =>
  Router (r_server s) (r_records s) (r_owner s) (r_connected s) (r_completed s) (r_closing s) (f (r_warning_since s)) (r_reminders s) (r_saved s)).
Definition set_reminders (f : list (string * val) -> list (string * val)) : M unit := modify (fun s =>
  Router (r_server s) (r_records s) (r_owner s) (r_connected s) (r_completed s) (r_closing s) (r_warning_since s) (f (r_reminders s)) (r_saved s)).

(** [_save()]. *)
Definition save : M unit := modify (fun s =>
  Router (r_server s) (r_records s) (r_owner s) (r_connected s) (r_completed s) (r_closing s) (r_warning_since s) (r_reminders s)
    (Some (Delivery (r_owner s) (r_records s) (r_completed s)))).

Definition wall_time : M val := gets (fun s => nt_time (r_server s)).

Definition server_error (e : exn) : bool := match e with ProviderError _ => true | _ => false end.

Definition set_id (n : Z) (a : alert) : alert := Alert (a_item a) n (a_signature a) (a_acknowledged a).
Definition acknowledge (a : alert) : alert := Alert (a_item a) (a_id a) (a_signature a) true.

(** [_connect()]. The identifiers of the notifications and the owner are stored
    before its object is asked for: they stay when that fails. *)
Definition connect : M bool :=
  catch
    (owner ← on_server nt_owner;
     s ← gets id;
     _ ← when (negb (r_connected s) || negb (String.eqb owner (r_owner s)))
           (_ ← when (negb (String.eqb owner (r_owner s))) (set_records (map (fun ka => (ka.1, set_id 0 ka.2))));
            _ ← set_owner owner;
            _ ← on_server (nt_attach owner);
            set_connected true);
     mret true)
    server_error
    (fun _ => _ ← set_connected false; mret false).

(** [eligible_items(items)]: a warning that asks for stability is withheld
    until it was observed that long. *)
Fixpoint eligible_loop (now : val) (items : list dict) : M (list dict) :=
  match items with
  | [] => mret []
  | d :: items =>
      k ← lift (item_str "id" d);
      if deferred_warning d then
        s ← gets id;
        let since := match dget k (r_warning_since s) with Some v => v | None => now end in
        _ ← set_warning_since (fun l => match dget k l with Some _ => l | None => l ++ [(k, now)] end);
        ready ← lift (age ← py_sub now since; py_ge age (stability_of d));
        rest ← eligible_loop now items;
        mret (if ready : bool then d :: rest else rest)
      else
        _ ← set_warning_since (forget_key k);
        rest ← eligible_loop now items;
        mret (d :: rest)
  end.

Definition eligible_items (items : list dict) : M (list dict) :=
  s ← gets id;
  observed ← lift (by_id items []);
  _ ← set_warning_since (fun l => keep_keys l observed);
  eligible_loop (nt_monotonic (r_server s)) items.

(** ** Reconciliation *)

(** An alert that is no longer observed. *)
Definition withdraw (ka : string * alert) : M unit :=
  _ ← set_records (forget_key ka.1);
  if a_id ka.2 =? 0 then mret tt
  else _ ← set_closing (fun l => a_id ka.2 :: l);
       catch (on_server (nt_close (a_id ka.2))) server_error (fun _ => mret tt).

Definition is_reminder (k : string) (current : dict) : bool :=
  existsb (String.eqb k) ["updates-security"; "updates-restart"] && py_eq (get "reminder_seconds" current) (VInt DAY).

Definition escalated (current old : dict) : bool := is_critical current && negb (is_critical old).

Definition open_review : list val := [VStr "open"; VStr "Review"].

Definition action_pair (v : val) : res (list val) :=
  d ← as_dict v; i ← item "id" d; l ← item "label" d; Ok [i; l].

Definition notification_actions (current : dict) : res (list val) :=
  if is_str "usb" (get "kind" current) then Ok open_review
  else l ← as_list (getd "actions" (VList []) current);
       pairs ← mapM_res action_pair l;
       Ok (match List.concat pairs with [] => open_review | a => a end).

Definition notification_hints (current : dict) (quiet : bool) : res dict :=
  severity ← item "severity" current;
  kind ← item "kind" current;
  let hints := dlit [("desktop-entry", VStr APP_ID); ("urgency", VInt (if is_str "CRITICAL" severity then 2 else 1));
    ("category", VStr (if is_str "usb" kind then "device" else "system")); ("suppress-sound", VBool quiet);
    ("x-greyward-quiet", VBool quiet); ("x-greyward-severity", severity)] in
  Ok (if is_str "behavioral" kind then
        let hints := dset "x-greyward-threat-class" (getd "behavioral_class" (VStr "UNKNOWN") current)
                       (dset "x-greyward-threat-score" (getd "behavioral_score" (VInt 0) current) hints) in
        let gauge := py_str (getd "icon" (VStr "") current) in
        if gauge_ok gauge
        then dset "image-path" (VStr ("/usr/share/icons/hicolor/scalable/apps/" +:+ gauge +:+ ".svg")) hints else hints
      else hints).

(** The notification of an alert. *)
Definition notification_of (current : dict) (replaces : Z) (quiet : bool) : res notification :=
  actions ← notification_actions current;
  hints ← notification_hints current quiet;
  styled ← appearance current;
  detail ← item "detail" current;
  detail ← match getd "notification_detail" detail current with VStr s => Ok s | _ => Err AttributeError end;
  title ← item "title" current;
  hints ← match styled with
          | Some _ => status ← item "scan_status" current; Ok (dset "x-greyward-scan-state" status hints)
          | None => Ok hints
          end;
  Ok (Notification replaces (match styled with Some (_, icon) => icon | None => ICON end)
        (getd "notification_title" title current)
        (match styled with Some (body, _) => body | None => html_escape detail end)
        actions hints (getd "timeout_ms" (VInt 10000) current)).

(** The call of Notify and its bookkeeping; [false] ends the loop. *)
Definition publish_alert (k : string) (current : dict) (signature : string) (reminder : bool) (n : notification) : M bool :=
  catch
    (returned ← on_server (nt_notify n);
     _ ← set_records (put k (Alert current returned (Some signature) false));
     _ ← when (is_str "scan-result" (get "kind" current))
           (time ← wall_time; set_completed (fun l => latest (put k time l)));
     _ ← when reminder (time ← wall_time; set_reminders (put k time));
     mret true)
    server_error
    (fun _ => _ ← set_connected false; mret false).

(** One observed alert. *)
Definition deliver (k : string) (current : dict) : M bool :=
  s ← gets id;
  let a := default new_alert (dget k (r_records s)) in
  let old := a_item a in
  let a := Alert current (a_id a) (a_signature a) (a_acknowledged a) in
  _ ← set_records (put k a);
  if is_str "scan-result" (get "kind" current) && bool_decide (is_Some (dget k (r_completed s))) then mret true else
  let reminder := is_reminder k current in
  time ← wall_time;
  recent ← lift (if reminder then match dget k (r_reminders s) with Some v => within_day time v | None => Ok false end else Ok false);
  if recent : bool then mret true else
  if negb reminder && a_acknowledged a && negb (escalated current old) then mret true else
  let signature := host_json_sorted (VDict current) in
  if negb reminder && bool_decide (a_signature a = Some signature) && negb (a_id a =? 0) then mret true else
  let quiet := match a_signature a with Some t => negb (String.eqb t "") | None => false end
               && negb (escalated current old) && negb reminder in
  n ← lift (notification_of current (a_id a) quiet);
  publish_alert k current signature reminder n.

Fixpoint deliver_all (observed : list (string * dict)) : M unit :=
  match observed with
  | [] => mret tt
  | (k, current) :: observed => go ← deliver k current; if go : bool then deliver_all observed else mret tt
  end.

(** [reconcile(items)]. *)
Definition reconcile_alerts (items : list dict) : M unit :=
  connected ← connect;
  if connected : bool then
    observed ← lift (by_id items []);
    s ← gets id;
    _ ← each withdraw (List.filter (fun ka => negb (existsb (fun kv => String.eqb kv.1 ka.1) observed)) (r_records s));
    _ ← deliver_all observed;
    save
  else mret tt.

(** ** Callbacks *)

Definition with_id (n : Z) (l : list (string * alert)) : option (string * alert) := List.find (fun ka => a_id ka.2 =? n) l.

Definition action_ids (current : dict) : res (list val) :=
  l ← as_list (getd "actions" (VList []) current); mapM_res (fun v => d ← as_dict v; item "id" d) l.

(** [_action(notification_id, action_id)]. *)
Definition action_invoked (n : Z) (action : string) : M unit :=
  s ← gets id;
  match with_id n (r_records s) with
  | None => mret tt
  | Some (k, a) =>
      let current := a_item a in
      if String.eqb action "dismiss" && is_str "application-security" (get "kind" current) then
        _ ← set_records (put k (acknowledge a));
        _ ← when (r_connected s) (catch (on_server (nt_close n)) any_exception (fun _ => mret tt));
        _ ← set_records (put k (set_id 0 (acknowledge a)));
        save
      else
        ids ← lift (if is_str "usb" (get "kind" current) then Ok [] else action_ids current);
        when (existsb (String.eqb action) ["open"; "default"] || existsb (is_str action) ids)
          (on_server (nt_dispatch current (if String.eqb action "default" then "open" else action)))
  end.

(** [_closed(notification_id, reason)]: reasons 1 and 2 are expiry and the
    user's dismissal. *)
Definition closed (n reason : Z) : M unit :=
  s ← gets id;
  if existsb (Z.eqb n) (r_closing s) then set_closing (List.filter (fun m => negb (m =? n)))
  else _ ← set_records (map (fun ka =>
             if a_id ka.2 =? n
             then (ka.1, let a := set_id 0 ka.2 in if (reason =? 1) || (reason =? 2) then acknowledge a else a) else ka));
       save.
End router.

(** * The notification publisher: properties

    An acknowledged alert is not shown again, the times of completed scans stay
    bounded, and the case in which an escalation is lost. *)

Lemma dget_forget {A} k k' (l : list (string * A)) : k <> k' -> dget k (forget_key k' l) = dget k l.
Proof.
  intros Hne. unfold forget_key. induction l as [|[k2 v2] l IH]; cbn; [done|].
  destruct (String.eqb_spec k2 k') as [->|]; cbn; rewrite IH; [|done].
  by rewrite (proj2 (String.eqb_neq _ _) Hne).
Qed.

Lemma dget_map {A B} (f : A -> B) k (l : list (string * A)) :
  dget k (map (fun kv => (kv.1, f kv.2)) l) = option_map f (dget k l).
Proof. induction l as [|[k2 v2] l IH]; cbn; [done|]. rewrite IH. by destruct (k =? k2)%string. Qed.

(** The keys of the observed alerts are distinct. *)
Lemma put_keys {A} k (v : A) l : NoDup (map fst l) -> NoDup (map fst (put k v l)).
Proof.
  induction l as [|[k2 v2] l IH]; cbn; [intros _; repeat constructor; set_solver|].
  intros [Hn Hd]%NoDup_cons. destruct (String.eqb_spec k2 k) as [->|Hne]; cbn; [by constructor|].
  constructor; [|by apply IH]. rewrite list_elem_of_In, in_map_iff. intros ([k3 v3] & Hk & Hin). cbn in Hk. subst k3.
  assert (forall (m : list (string * A)) x, In x (put k v m) -> x = (k, v) \/ In x m) as Hput.
  { clear. induction m as [|[k3 v3] m IH]; intros x; cbn; [naive_solver|].
    destruct (String.eqb_spec k3 k); cbn; [naive_solver|]. intros [<-|Hx]; [naive_solver|]. destruct (IH _ Hx); naive_solver. }
  destruct (Hput _ _ Hin) as [[= -> _]|Hl]; [done|]. apply Hn, list_elem_of_In, in_map_iff. by exists (k2, v3).
Qed.

Lemma by_id_keys items acc observed : NoDup (map fst acc) -> by_id items acc = Ok observed -> NoDup (map fst observed).
Proof.
  revert acc; induction items as [|d items IH]; intros acc Hacc; cbn [by_id]; [by intros [= <-]|].
  rewrite bind_Ok. intros (k & _ & Hr). eapply IH; [|exact Hr]. by apply put_keys.
Qed.

Section quiet.
Context {Q : Type} `{Notifier Q} `{Host} `{FloatText}.
Implicit Types (s : router Q).

(** A call of the server other than Notify. *)
Inductive silent_call (q : Q) : Q -> Prop :=
| silent_owner : silent_call q (nt_owner q).2
| silent_attach owner : silent_call q (nt_attach owner q).2
| silent_close n : silent_call q (nt_close n q).2.

Definition silent s s' : Prop := rtc silent_call (r_server s) (r_server s').

#[export] Instance silent_preorder : PreOrder silent.
Proof. split; [intros s; apply rtc_refl|intros s1 s2 s3 E1 E2; exact (rtc_trans _ _ _ E1 E2)]. Qed.

(** Every observed alert was acknowledged, asks for no reminder and has not
    become critical since. *)
Definition settled (observed : list (string * dict)) s : Prop := forall k current, In (k, current) observed ->
  is_reminder k current = false /\
  exists a, dget k (r_records s) = Some a /\ a_acknowledged a = true /\ escalated current (a_item a) = false.

Lemma deliver_settled k current s a :
  is_reminder k current = false -> dget k (r_records s) = Some a -> a_acknowledged a = true ->
  escalated current (a_item a) = false ->
  exists s', deliver k current s = (Ok true, s') /\ r_server s' = r_server s
    /\ forall k', k' <> k -> dget k' (r_records s') = dget k' (r_records s).
Proof.
  intros Hrem Ha Hack Hesc. unfold deliver, mbind, act_bind, gets, id. rewrite Ha. cbn [default].
  unfold set_records, modify. cbn [a_item a_id a_signature a_acknowledged].
  set (s1 := Router _ _ _ _ _ _ _ _ _).
  assert (forall k', k' <> k -> dget k' (r_records s1) = dget k' (r_records s)) as Hrec.
  { intros k' Hne. unfold s1. cbn [r_records]. rewrite dget_put. by rewrite (proj2 (String.eqb_neq _ _) Hne). }
  destruct (_ && _); [by exists s1|]. unfold wall_time, lift, gets. rewrite Hrem, Hack, Hesc. cbn [negb andb]. by exists s1.
Qed.

Lemma deliver_all_settled observed s :
  NoDup (map fst observed) -> settled observed s -> silent s (after (deliver_all observed) s).
Proof.
  revert s; induction observed as [|[k current] observed IH]; intros s Hnd Hset; cbn [deliver_all]; [apply rtc_refl|].
  apply NoDup_cons in Hnd as [Hk Hnd].
  destruct (Hset k current (in_eq _ _)) as (Hrem & a & Ha & Hack & Hesc).
  destruct (deliver_settled k current s a Hrem Ha Hack Hesc) as (s1 & Hd & Hq & Hrec).
  unfold after, mbind, act_bind. rewrite Hd. unfold silent in *. rewrite <- Hq. apply IH; [done|].
  intros k' cur' Hin. destruct (Hset k' cur' (in_cons _ _ _ Hin)) as (Hrem' & a' & Ha' & Hrest). split; [done|].
  exists a'. rewrite Hrec; [done|]. intros ->. apply Hk, list_elem_of_In, in_map_iff. by exists (k, cur').
Qed.

Lemma on_server_silent {A} (m : act Q A) : (forall q, silent_call q (m q).2) -> respects silent (on_server m).
Proof.
  intros Hm s. unfold silent, after, on_server. specialize (Hm (r_server s)). destruct (m (r_server s)). by apply rtc_once.
Qed.

(** Withdrawing an alert that is not observed keeps the records of the others. *)
Lemma withdraw_settled observed ka s :
  existsb (fun kv => String.eqb kv.1 ka.1) observed = false -> settled observed s ->
  silent s (after (withdraw ka) s) /\ settled observed (after (withdraw ka) s).
Proof.
  intros Hout Hset. split.
  - assert (respects silent (withdraw ka)) as Hw; [|apply Hw]. unfold withdraw.
    apply respects_bind; [typeclasses eauto|apply respects_modify; intros; apply rtc_refl|intros _].
    destruct (a_id ka.2 =? 0); [apply respects_ret; typeclasses eauto|].
    apply respects_bind; [typeclasses eauto|apply respects_modify; intros; apply rtc_refl|intros _].
    apply respects_catch; [typeclasses eauto|apply on_server_silent; intros; constructor|].
    intros e. apply respects_ret. typeclasses eauto.
  - assert (r_records (after (withdraw ka) s) = forget_key ka.1 (r_records s)) as Hr.
    { unfold withdraw, after, mbind, act_bind, set_records, modify. cbn [r_records].
      destruct (a_id ka.2 =? 0); [done|]. unfold set_closing, modify, catch, on_server. cbn.
      destruct (nt_close (a_id ka.2) (r_server s)) as [[u|e] q]; cbn; [done|]. by destruct (server_error e). }
    intros k current Hin. destruct (Hset k current Hin) as (Hrem & a & Ha & Hrest). split; [done|]. exists a.
    rewrite Hr, dget_forget; [done|]. intros ->. pose proof (proj1 (existsb_not_In _ _) Hout _ Hin) as Hx. cbn in Hx.
    by rewrite String.eqb_refl in Hx.
Qed.

(** A step that makes no call of Notify and keeps what is settled. *)
Definition keeps_quiet observed {A} (m : act (router Q) A) : Prop :=
  forall s, settled observed s -> silent s (after m s) /\ settled observed (after m s).

Lemma keeps_quiet_ret observed {A} (x : A) : keeps_quiet observed (mret x).
Proof. intros s Hs. by split; [apply rtc_refl|]. Qed.

Lemma keeps_quiet_bind observed {A B} (m : act (router Q) A) (f : A -> act (router Q) B) :
  keeps_quiet observed m -> (forall x, keeps_quiet observed (f x)) -> keeps_quiet observed (x ← m; f x).
Proof.
  intros Hm Hf s Hs. destruct (Hm s Hs) as [Ha Hb]. unfold after, mbind, act_bind in *.
  destruct (m s) as [[x|e] s1]; cbn [snd] in *; [|done]. destruct (Hf x s1 Hb) as [Hc Hd]. unfold after in *.
  by split; [etrans|].
Qed.

Lemma keeps_quiet_catch observed {A} (m : act (router Q) A) p (f : exn -> act (router Q) A) :
  keeps_quiet observed m -> (forall e, keeps_quiet observed (f e)) -> keeps_quiet observed (catch m p f).
Proof.
  intros Hm Hf s Hs. destruct (Hm s Hs) as [Ha Hb]. unfold after, catch in *.
  destruct (m s) as [[x|e] s1]; cbn [snd] in *; [done|]. destruct (p e); [|done].
  destruct (Hf e s1 Hb) as [Hc Hd]. unfold after in *. by split; [etrans|].
Qed.

Lemma keeps_quiet_modify observed f :
  (forall s : router Q, r_server (f s) = r_server s) ->
  (forall s, settled observed s -> settled observed (f s)) -> keeps_quiet observed (modify f).
Proof. intros Hq Hf s Hs. split; [|by apply Hf]. unfold silent, after, modify. cbn. by rewrite Hq. Qed.

Lemma keeps_quiet_when observed b (m : act (router Q) unit) : keeps_quiet observed m -> keeps_quiet observed (when b m).
Proof. destruct b; [done|intros _; apply keeps_quiet_ret]. Qed.

Lemma keeps_quiet_server observed {A} (m : act Q A) :
  (forall q, silent_call q (m q).2) -> keeps_quiet observed (on_server m).
Proof.
  intros Hm s Hs. split; [by apply on_server_silent|]. unfold after, on_server. by destruct (m (r_server s)).
Qed.

Lemma connect_settled observed : keeps_quiet observed connect.
Proof.
  apply keeps_quiet_catch.
  - apply keeps_quiet_bind; [apply keeps_quiet_server; intros; constructor|intros owner].
    apply keeps_quiet_bind; [by intros s Hs; split; [apply rtc_refl|]|intros s0].
    apply keeps_quiet_bind; [|intros; apply keeps_quiet_ret]. apply keeps_quiet_when.
    apply keeps_quiet_bind; [apply keeps_quiet_when, keeps_quiet_modify; [done|]|intros _].
    { intros s Hset k current Hin. destruct (Hset k current Hin) as (Hrem & a & Ha & Hack & Hrest). split; [done|].
      exists (set_id 0 a). cbn [r_records]. by rewrite dget_map, Ha. }
    apply keeps_quiet_bind; [by apply keeps_quiet_modify|intros _].
    apply keeps_quiet_bind; [apply keeps_quiet_server; intros; constructor|intros _]. by apply keeps_quiet_modify.
  - intros e. apply keeps_quiet_bind; [by apply keeps_quiet_modify|intros; apply keeps_quiet_ret].
Qed.

Lemma reconcile_settled items observed s :
  by_id items [] = Ok observed -> settled observed s -> silent s (after (reconcile_alerts items) s).
Proof.
  intros Hobs Hset. destruct (connect_settled observed s Hset) as [Hs1 Hset1].
  unfold after in *. unfold reconcile_alerts, mbind at 1, act_bind at 1.
  destruct (connect s) as [[[]|e] s1]; cbn [snd] in Hs1, Hset1; [|done|done].
  unfold mbind, act_bind, lift. rewrite Hobs. unfold gets, id.
  set (gone := List.filter _ _).
  assert (silent s1 (after (each withdraw gone) s1) /\ settled observed (after (each withdraw gone) s1)) as [Hs2 Hset2].
  { apply (each_inv (fun s' => silent s1 s' /\ settled observed s')); [|by split].
    intros ka s' Hin [Hsil Hset']. apply filter_In in Hin as [_ Hout]. apply negb_true_iff in Hout.
    destruct (withdraw_settled observed ka s' Hout Hset') as [E1 E2]. split; [by etrans|done]. }
  unfold after in *. destruct (each withdraw gone s1) as [[u|e] s2]; cbn [snd] in *; [|by etrans].
  assert (silent s2 (after (deliver_all observed) s2)) as Hs3.
  { apply deliver_all_settled; [|done]. eapply by_id_keys; [|exact Hobs]. constructor. }
  unfold after in Hs3. destruct (deliver_all observed s2) as [[u'|e] s3]; cbn [snd] in *; (do 2 (etrans; [eassumption|])); done.
Qed.
End quiet.

(** ** Properties *)

(** C36. An alert the user dismissed or let expire is not shown again, the daily
    reminders of updates excepted: when every observed alert was acknowledged, is
    no such reminder and has not turned critical since it was last observed, a
    reconciliation makes no call of Notify, whatever else it withdraws or
    reconnects. *)
Theorem acknowledged_stays_quiet {Q} `{Notifier Q} `{Host} `{FloatText} items observed (s : router Q) :
  by_id items [] = Ok observed -> settled observed s -> silent s (after (reconcile_alerts items) s).
Proof. apply reconcile_settled. Qed.

(** The times of completed scans that are kept. *)
Lemma latest_bounded l : (length (latest l) <= 128)%nat.
Proof. apply last_n_length. Qed.

(** ** A laboratory server *)

(** The outcomes of the next calls of Notify, and what was shown. *)
Record screen := Screen { sc_refuse : list bool; sc_shown : list notification }.

#[export] Instance screen_server : Notifier screen := {
  nt_owner := mret ":1.7";
  nt_attach := fun _ => mret tt;
  nt_notify := fun n q => match sc_refuse q with
    | true :: l => (Err (ProviderError "org.freedesktop.DBus.Error.NoReply"), Screen l (sc_shown q))
    | _ => (Ok 41, Screen (tail (sc_refuse q)) (sc_shown q ++ [n])) end;
  nt_close := fun _ => mret tt;
  nt_dispatch := fun _ _ => mret tt;
  nt_monotonic := fun _ => VInt 1000;
  nt_time := fun _ => VInt 1790000000;
}.

Definition disk_alert (severity : string) : dict :=
  dlit [("id", VStr "disk"); ("kind", VStr "health"); ("severity", VStr severity); ("title", VStr "Disk"); ("detail", VStr "A disk reports errors.")].

Definition empty_router (refuse : list bool) : router screen := Router (Screen refuse []) [] "" false [] [] [] [] None.

Definition run_all (l : list (act (router screen) unit)) (s : router screen) : router screen := fold_left (fun s m => after m s) l s.

(** Shown, dismissed by the user, and observed again. *)
Definition dismissed : router screen := run_all [reconcile_alerts [disk_alert "WARNING"]; closed 41 2] (empty_router []).

Lemma acknowledged_stays_quiet_witness :
  length (sc_shown (r_server dismissed)) = 1%nat
  /\ silent dismissed (after (reconcile_alerts [disk_alert "WARNING"]) dismissed).
Proof.
  split; [reflexivity|].
  apply (acknowledged_stays_quiet [disk_alert "WARNING"] [("disk", disk_alert "WARNING")] dismissed); [reflexivity|].
  intros k current [[= <- <-]|[]]. split; [reflexivity|]. eexists. split; [vm_compute; reflexivity|]. by split.
Defined.

(** An escalation whose delivery fails once is lost: the alert is recorded as
    critical before it is shown, so that the next reconciliation sees no
    escalation and keeps to the old acknowledgement. *)
Definition escalation (refuse : list bool) : router screen :=
  let s := after (closed 41 2) (after (reconcile_alerts [disk_alert "WARNING"]) (empty_router [])) in
  let s := Router (Screen refuse (sc_shown (r_server s))) (r_records s) (r_owner s) (r_connected s) (r_completed s) (r_closing s)
             (r_warning_since s) (r_reminders s) (r_saved s) in
  run_all [reconcile_alerts [disk_alert "CRITICAL"]; reconcile_alerts [disk_alert "CRITICAL"]; reconcile_alerts [disk_alert "CRITICAL"]] s.

Example failed_escalation_lost :
  map n_title (sc_shown (r_server (escalation []))) = [VStr "Disk"; VStr "Disk"]
  /\ map n_title (sc_shown (r_server (escalation [true]))) = [VStr "Disk"].
Proof. by vm_compute. Qed.
