(* ===== verification/ShellSummary.v ===== *)
(** * The summary for the shell ([shell_summary.py])

    The bounded, redacted projection of the security context that the panel of
    the desktop shows, built from values the providers reported. *)
From S2P Require Import Prelude PyVal PyStr IpAddr Json NetworkRules PyText PyTime JsonExample.

Definition SHELL_SCHEMA : string := "greyward.security.shell/v1".
Definition POSTURES : list string := ["SECURE"; "PROTECTED"; "REVIEW NEEDED"; "UNAVAILABLE"].
Definition ACTIVE_UPDATE_PHASES : list string :=
  ["RESOLVING"; "AUTHENTICATING"; "DOWNLOADING"; "INSTALLING"; "VERIFYING"; "PREPARING_RESTART"; "RESTARTING"].
Definition UPDATE_PHASES : list string := ACTIVE_UPDATE_PHASES ++ ["READY_TO_RESTART"; "FAILED"; "CANCELLED"; "COMPLETE"; "IDLE"].
Definition SENSOR_KINDS : list string := ["MICROPHONE"; "CAMERA"].
Definition SHELL_CACHE_SECONDS : Z := 30.

(** ** Text without paths *)

Definition segment_char (c : ascii) : bool := word_char c || Ascii.eqb c "." || Ascii.eqb c "-".

Definition slash : ascii := "/".

(** After a slash: the segments separated by single slashes, and the rest. *)
Fixpoint path_segments (fuel : nat) (s : string) : list string * string :=
  match fuel with
  | O => ([], s)
  | S fuel =>
      match span segment_char s with
      | ("", _) => ([], s)
      | (w, String c r) =>
          if Ascii.eqb c slash
          then match path_segments fuel r with ([], _) => ([w], String c r) | (ws, rest) => (w :: ws, rest) end
          else ([w], String c r)
      | (w, "") => ([w], "")
      end
  end.

(** [re.sub(r"(?<![\w:])/(?:[\w.-]+/)+([\w.-]+)", r"\1", s)]; [before] is the
    character before the position. *)
Fixpoint hide_paths (fuel : nat) (before : option ascii) (s : string) : string :=
  match fuel, s with
  | S fuel, String c r =>
      if Ascii.eqb c slash && match before with Some b => negb (word_char b || Ascii.eqb b ":") | None => true end then
        match path_segments (String.length r) r with
        | ((_ :: _ :: _) as ws, rest) =>
            let name := default "" (last ws) in
            name +:+ hide_paths fuel (String.get (String.length name - 1) name) rest
        | _ => String c (hide_paths fuel (Some c) r)
        end
      else String c (hide_paths fuel (Some c) r)
  | _, _ => ""
  end.

Definition without_nul (s : string) : string := str_map (fun c => if Ascii.eqb c (ascii_of_N 0) then " "%char else c) s.

Example hide_paths_examples :
  map (fun s => hide_paths (String.length s) None s)
    ["see /home/ada/notes.txt now"; "http://a/b/c"; "/usr/"; "/usr/lib/"; "x=/a/b,/c/d.e"; "/one"]
  = ["see notes.txt now"; "http:/c"; "/usr/"; "lib/"; "x=b,d.e"; "/one"].
Proof. vm_compute. reflexivity. Qed.

Section shell.
Context `{FloatText} `{IsoText}.

(** [str(value or "").upper()], [str(value or other).upper()]. *)
Definition upper_text (v : val) : string := str_upper (text_of v).
Definition upper_or (v : val) (other : string) : string := str_upper (py_str (py_or v (VStr other))).

(** [_text(value, limit)]. *)
Definition shell_text (v : val) (limit : nat) : string :=
  let s := strip (without_nul (text_of v)) in str_take limit (hide_paths (String.length s) None s).

Definition shell_text_or_none (v : val) (limit : nat) : val := text_or_none (shell_text v limit).

(** [_int(value, default, maximum)]. *)
Definition int_caught (e : exn) : bool := match e with TypeError | ValueError _ | PolicyError _ => true | _ => false end.

Definition clamped_int (v : val) (fallback maximum : Z) : res Z :=
  try_with (n ← py_int v; Ok (Z.max 0 (Z.min n maximum))) int_caught (fun _ => Ok fallback).

(** [_parse_time(value)]: a refused text is the least time. *)
Definition parse_time (v : val) : Z * bool := default (TIME_MIN, true) (iso_parse (py_str v)).

(** [a >= b] on datetimes: with and without offset do not compare. *)
Definition time_ge (a b : Z * bool) : res bool := if Bool.eqb a.2 b.2 then Ok (b.1 <=? a.1) else Err TypeError.

Definition dict_or_empty (v : val) : dict := match v with VDict d => d | _ => [] end.
Definition list_or_empty (v : val) : list val := match v with VList l => l | _ => [] end.
Definition dicts_of (l : list val) : list dict := omap (fun v => match v with VDict d => Some d | _ => None end) l.

(** ** Parts of the summary *)

(** [_event_priority(event)]. *)
Definition PRIORITIES : list (string * Z) :=
  [("THREAT_DETECTED", 100); ("MALWARE_DETECTED", 100); ("PERSISTENCE_CHANGE_DETECTED", 90); ("USB_DEVICE_BLOCKED", 88);
   ("APP_CONNECTION_BLOCKED", 75); ("MICROPHONE_STARTED", 60); ("CAMERA_STARTED", 60)].

Definition event_priority (event : dict) : Z :=
  let kind := upper_text (get "kind" event) in
  let severity := default 30 (dget kind PRIORITIES) in
  let severity := if String.eqb (upper_text (get "state" event)) "THREAT" || str_contains "THREAT" kind || str_contains "MALWARE" kind
                  then Z.max severity 100 else severity in
  if String.eqb (upper_text (get "notification" event)) "ACTION_REQUIRED" then severity + 20 else severity.

(** [max(candidates, key=...)]: the first of the greatest. *)
Definition event_key (event : dict) : Z * (Z * bool) := (event_priority event, parse_time (get "occurred_at" event)).

Definition key_gt (a b : Z * (Z * bool)) : res bool :=
  if negb (a.1 =? b.1) then Ok (b.1 <? a.1)
  else if bool_decide (a.2 = b.2) then Ok false
  else ge ← time_ge a.2 b.2; Ok ge.

Fixpoint greatest (best : dict) (l : list dict) : res dict :=
  match l with
  | [] => Ok best
  | e :: l => gt ← key_gt (event_key e) (event_key best); greatest (if gt : bool then e else best) l
  end.

Definition EVENT_TARGETS : list (string * string) :=
  [("USB_DEVICE_BLOCKED", "devices"); ("APP_CONNECTION_BLOCKED", "network"); ("THREAT_DETECTED", "threats");
   ("MALWARE_DETECTED", "threats"); ("PERSISTENCE_CHANGE_DETECTED", "overview")].

Definition describe_event (event : dict) : val :=
  let kind := upper_or (get "kind" event) "SECURITY_EVENT" in
  let severity := if 100 <=? event_priority event then "CRITICAL" else if 70 <=? event_priority event then "WARNING" else "INFO" in
  VDict (dlit [("kind", VStr kind); ("severity", VStr severity); ("event_id", VStr (shell_text (get "event_id" event) 96));
    ("title", VStr (shell_text (py_or (get "title" event) (VStr "Security event")) 120));
    ("detail", VStr (shell_text (py_or (get "detail" event) (VStr "Review this item in Security Center.")) 240));
    ("source", VStr (shell_text (py_or (get "source" event) (VStr "GREYWARD Security Context")) 80));
    ("action_target", VStr (default "overview" (dget kind EVENT_TARGETS)))]).

(** [_priority_event(events)]. *)
Definition priority_event (events : list val) : res val :=
  match List.filter (fun d => truthy (get "event_id" d)) (dicts_of events) with
  | [] => Ok VNone
  | e :: rest => best ← greatest e rest; Ok (describe_event best)
  end.

(** [_sensor(live_states)]. *)
Definition no_sensor : val := VDict (dlit [("state", VStr "IDLE"); ("kind", VNone); ("detail", VNone); ("attribution", VNone)]).

Definition active_sensor (d : dict) : bool :=
  member (upper_text (get "kind" d)) SENSOR_KINDS && member (upper_text (get "state" d)) ["ACTIVE"; "REVIEW NEEDED"; "PROTECTED"].

Definition sensor (live_states : list val) : val :=
  match List.filter active_sensor (dicts_of live_states) with
  | [] => no_sensor
  | d :: _ =>
      let kind := upper_text (get "kind" d) in
      let detail := shell_text (py_or (get "detail" d)
        (VStr (if String.eqb kind "MICROPHONE" then "Microphone in use" else "Camera in use"))) 240 in
      let attribution := if str_contains "attribution=AMBIGUOUS" (str_lower detail) then "AMBIGUOUS" else "RELIABLE" in
      VDict (dlit [("state", VStr kind); ("kind", VStr kind); ("detail", VStr detail); ("attribution", VStr attribution)])
  end.

(** [_network(network)]. *)
Definition network_part (network : val) : val :=
  let opensnitch := dict_or_empty (get "opensnitch" (dict_or_empty network)) in
  let state := upper_or (get "state" opensnitch) "UNAVAILABLE" in
  let blocked := List.filter (fun d => member (upper_text (get "decision" d)) ["BLOCKED"; "DENIED"; "REJECTED"; "DROP"])
                   (dicts_of (list_or_empty (get "activity" (dict_or_empty network)))) in
  VDict (dlit [("state", VStr (if member state ["OPERATING"; "DEGRADED"; "UNAVAILABLE"] then state else "UNAVAILABLE"));
    ("detail", VStr (shell_text (py_or (get "detail" opensnitch) (VStr "Application network protection is unavailable.")) 240));
    ("blocked_recent", VInt (Z.of_nat (length (take 64 blocked))));
    ("last_blocked_application", match blocked with d :: _ => shell_text_or_none (get "application" d) 80 | [] => VNone end)]).

(** [_malware(summary, clamav)]. *)
Definition is_threat (d : dict) : bool :=
  String.eqb (upper_text (get "state" d)) "THREAT" || str_contains "THREAT" (upper_text (get "kind" d)).

Definition malware_part (summary : dict) (clamav : val) : res val :=
  let threat := existsb is_threat (dicts_of (list_or_empty (get "recent_events" summary))) in
  let value := dict_or_empty clamav in
  let status := if threat then "THREAT" else upper_or (get "status" value) "UNAVAILABLE" in
  let status := if member status ["CURRENT"; "OUTDATED"; "THREAT"; "UNAVAILABLE"; "INITIALIZING"; "UPDATING"] then status
                else "UNAVAILABLE" in
  age ← match get "database_age_seconds" value with
        | VNone => Ok VNone
        | age => n ← clamped_int age 0 31536000; Ok (VInt n)
        end;
  Ok (VDict (dlit [("state", VStr status); ("database_age_seconds", age)])).

(** [_usb(summary)]. *)
Definition usb_part (summary : dict) : res val :=
  match get "usb" summary with
  | VDict value =>
      let state := upper_or (get "state" value) "UNAVAILABLE" in
      n ← clamped_int (get "blocked_count" value) 0 128;
      Ok (VDict (dlit [("state", VStr (if member state ["CLEAR"; "BLOCKED"; "UNAVAILABLE"] then state else "UNAVAILABLE"));
                       ("blocked_count", VInt n)]))
  | _ => Ok (VDict (dlit [("state", VStr "UNAVAILABLE"); ("blocked_count", VInt 0)]))
  end.

(** [_update(transaction)]. *)
Definition update_part (transaction : val) : res val :=
  let value := dict_or_empty transaction in
  let phase := upper_or (get "phase" value) "IDLE" in
  let phase := if member phase UPDATE_PHASES then phase else "UNAVAILABLE" in
  progress ← match get "progress" value with
             | VNone => Ok VNone
             | p => try_with (n ← py_int p; Ok (VInt (Z.max 0 (Z.min n 100)))) int_caught (fun _ => Ok VNone)
             end;
  Ok (VDict (dlit [("phase", VStr phase); ("active", VBool (member phase ACTIVE_UPDATE_PHASES)); ("progress", progress);
    ("current_item", shell_text_or_none (get "current_item" value) 120);
    ("restart_required", VStr (upper_or (get "restart_required" value) "UNKNOWN"));
    ("error", shell_text_or_none (get "error" value) 160)])).

(** [_profile(profile, provider_fresh)]: state, availability, firewall. *)
Definition profile_part (profile : val) (fresh : bool) : string * bool * string :=
  let value := dict_or_empty profile in
  let name := upper_or (get "profile" value) "UNAVAILABLE" in
  let name := if member name ["STANDARD"; "PRIVATE"; "TRAVEL"] then name else "UNAVAILABLE" in
  let zone := str_upper (shell_text (get "firewall_zone" value) 32) in
  let zone := if String.eqb zone "" then "UNAVAILABLE" else zone in
  let offered := truthy (getd "available" (VBool false) value) in
  let available := offered && fresh && negb (String.eqb name "UNAVAILABLE") in
  (if available then name else "UNAVAILABLE", available, if fresh && offered then zone else "UNAVAILABLE").

(** [_secure_dns(value, provider_fresh)]. *)
Definition secure_dns_part (v : val) (fresh : bool) : val :=
  let value := dict_or_empty v in
  let effective := py_str (py_or (get "effective_policy" value) (VStr "UNAVAILABLE")) in
  let transport := py_str (py_or (get "effective_transport" value) (VStr "UNAVAILABLE")) in
  let available := fresh && negb (member effective [""; "Unavailable"; "UNAVAILABLE"]) in
  VDict (dlit [("state", VStr (if available then str_upper effective else "UNAVAILABLE"));
    ("transport", VStr (if available then str_upper transport else "UNAVAILABLE"));
    ("provider", if available then shell_text_or_none (get "provider" value) 48 else VNone); ("available", VBool available)]).

(** [_vpn(value, provider_fresh, current)]. *)
Definition link_name (v : val) : bool :=
  match v with VStr s => (0 <? String.length s)%nat && (String.length s <=? 64)%nat | _ => false end.

Definition vpn_state (v : val) (fresh : bool) (current : Z) : string :=
  let value := dict_or_empty v in
  let links := get "vpn_links" value in
  let valid := fresh && is_str "greyward.secure-dns/v1" (get "schema" value)
    && match parse_time (get "generated_at" value) with
       | (t, true) => (0 <=? current - t) && (current - t <=? 60 * second)
       | (_, false) => false
       end
    && match links with VList l => (length l <=? 64)%nat && forallb link_name l | _ => false end
    && member (upper_text (get "effective_policy" value)) ["DISCONNECTED"; "VPNOWNED"; "NETWORKDEFAULT"; "SECUREPROVIDER"] in
  let active := truthy links || is_true (get "tunnel_detected" value) in
  let contradictory := negb active && String.eqb (str_upper (py_str (get "effective_policy" value))) "VPNOWNED" in
  if valid && negb contradictory then (if active then "ACTIVE" else "OFF") else "UNAVAILABLE".

(** ** The summary *)

(** [sorted(events, key=time, reverse=True)]: stable, and an error when some
    times have an offset and others have none. *)
Definition later_leb (a b : dict) : bool := (parse_time (get "occurred_at" b)).1 <=? (parse_time (get "occurred_at" a)).1.

Definition newest_first (l : list dict) : res (list dict) :=
  let aware := map (fun d => (parse_time (get "occurred_at" d)).2) l in
  if forallb (fun b : bool => b) aware || forallb negb aware then Ok (sort_by later_leb l) else Err TypeError.

Definition notification_event (d : dict) : val :=
  VDict (dlit [("event_id", VStr (shell_text (get "event_id" d) 96));
    ("title", VStr (shell_text (py_or (get "title" d) (VStr "Security action required")) 120));
    ("detail", VStr (shell_text (py_or (get "detail" d) (VStr "Review this item in Security Center.")) 240));
    ("notification", VStr (upper_text (get "notification" d)))]).

Definition notification_events (events : list val) : res (list val) :=
  sorted ← newest_first (List.filter (fun d => String.eqb (upper_text (get "notification" d)) "ACTION_REQUIRED") (dicts_of events));
  Ok (map notification_event (take 8 sorted)).

(** [len(v)]. *)
Definition py_len (v : val) : res Z :=
  match v with
  | VList l => Ok (Z.of_nat (length l)) | VDict d => Ok (Z.of_nat (length d)) | VStr s => Ok (str_len s) | _ => Err TypeError
  end.

(** The values the providers reported. *)
Record shell_input := ShellInput {
  si_summary : val; si_network : val; si_clamav : val; si_profile : val; si_transaction : val; si_digest : val; si_secure_dns : val }.

(** [(security_digest or {})]. *)
Definition digest_of (i : shell_input) : res dict := as_dict (py_or (si_digest i) (VDict [])).

(** [dict(security_digest.get("devices", {}))]. *)
Definition cached_devices (i : shell_input) : res dict :=
  match si_digest i with
  | VDict d => match getd "devices" (VDict []) d with
               | VDict devices => Ok devices
               | VList [] | VStr "" => Ok []
               | _ => Err TypeError
               end
  | _ => Ok []
  end.

Definition state_of (value : dict) : string :=
  let state := upper_or (get "state" value) "UNAVAILABLE" in if member state POSTURES then state else "UNAVAILABLE".

(** [state != "UNAVAILABLE" and _parse_time(fresh_until) >= current]. *)
Definition provider_fresh (value : dict) (current : Z) : res bool :=
  if String.eqb (state_of value) "UNAVAILABLE" then Ok false else time_ge (parse_time (get "fresh_until" value)) (current, true).

Definition freshness (value : dict) (fresh : bool) : string :=
  if String.eqb (state_of value) "UNAVAILABLE" then "UNAVAILABLE"
  else if fresh then "FRESH" else if truthy (get "fresh_until" value) then "STALE" else "UNAVAILABLE".

(** The attention_counts: of reviews, and of everything that asks for attention. *)
Definition attention_counts (value : dict) : res (Z * Z) :=
  review ← clamped_int (get "review_count" value) 0 999;
  unavailable ← clamped_int (get "unavailable_count" value) 0 999;
  attention ← clamped_int (get "attention_count" value) 0 999;
  Ok (review, Z.max (review + unavailable) attention).

(** The section "security". *)
Definition security_part (i : shell_input) (fresh : bool) (attention : Z) : res val :=
  if fresh then
    digest ← digest_of i;
    n ← py_len (getd "recent_activity" (VList []) digest);
    let device (k : string) := match get "devices" digest with VDict d => get k d | _ => VNone end in
    Ok (VDict (dlit [("unresolved_count", VInt attention); ("important_activity_count", VInt (Z.max 0 (Z.min n 999)));
      ("external_devices", device "connected_external"); ("new_unknown_count", device "new_unknown_count");
      ("source_state", getd "source_state" (VDict (dlit [("state", VStr "UNAVAILABLE")])) digest)]))
  else
    Ok (VDict (dlit [("unresolved_count", VNone); ("important_activity_count", VNone); ("external_devices", VNone);
      ("new_unknown_count", VNone);
      ("source_state", VDict (dlit [("state", VStr "UNAVAILABLE"); ("reason", VStr "Security Context data is stale.")]))])).

(** What is shown of data that is no longer fresh. *)
Definition stale_network : val := VDict (dlit [("state", VStr "UNAVAILABLE"); ("detail", VStr "Security Context data is stale.")]).
Definition stale_malware : val := VDict (dlit [("state", VStr "UNAVAILABLE"); ("database_age_seconds", VInt 0)]).
Definition stale_usb : val := VDict (dlit [("state", VStr "UNAVAILABLE"); ("blocked_count", VInt 0)]).

Definition if_fresh {A} (fresh : bool) (m : res A) (stale : A) : res A := if fresh then m else Ok stale.

(** [build_shell_summary(...)]. *)
Definition build_shell_summary (i : shell_input) (current vpn_now : Z) : res dict :=
  let value := dict_or_empty (si_summary i) in
  let events := list_or_empty (get "recent_events" value) in
  let live_states := list_or_empty (get "live_states" value) in
  fresh ← provider_fresh value current;
  counted ← attention_counts value;
  let '(review, attention) := counted in
  cached ← cached_devices i;
  let until := utc_text (if fresh : bool then current + SHELL_CACHE_SECONDS * second else current) in
  let '(profile, available, firewall) := profile_part (si_profile i) fresh in
  priority ← if_fresh fresh (priority_event events) VNone;
  notifications ← if_fresh fresh (notification_events events) [];
  malware ← if_fresh fresh (malware_part value (py_or (si_clamav i) (VDict []))) stale_malware;
  usb ← if_fresh fresh (usb_part value) stale_usb;
  update ← update_part (if fresh then py_or (si_transaction i) (VDict []) else VDict []);
  security ← security_part i fresh attention;
  Ok (dlit [("schema", VStr SHELL_SCHEMA);
    ("generated_at", VStr (shell_text (py_or (get "generated_at" value) (VStr (utc_text current))) 40));
    ("fresh_until", VStr (shell_text (VStr until) 40)); ("freshness", VStr (freshness value fresh));
    ("cached", VDict (dlit [("posture", VDict (dlit [("state", VStr (state_of value)); ("review_count", VInt review)]));
                            ("security", VDict cached)]));
    ("evaluated_checks", get "evaluated_checks" value);
    ("posture", VDict (dlit [("state", VStr (if fresh then state_of value else "UNAVAILABLE"));
                             ("review_count", if fresh then VInt attention else VNone)]));
    ("priority", priority); ("notification_events", VList notifications);
    ("sensor", if fresh then sensor live_states else no_sensor);
    ("network", if fresh then network_part (py_or (si_network i) (VDict [])) else stale_network);
    ("network_profile", VDict (dlit [("state", VStr profile); ("available", VBool available)]));
    ("firewall", VDict (dlit [("state", VStr firewall)]));
    ("secure_dns", secure_dns_part (si_secure_dns i) fresh);
    ("vpn", VDict (dlit [("state", VStr (vpn_state (si_secure_dns i) fresh vpn_now))]));
    ("malware", malware); ("usb", usb); ("update", update);
    ("privacy", VDict (dlit [("profile", VStr (if fresh then profile else "UNAVAILABLE")); ("available", VBool available)]));
    ("capabilities", VDict (dlit [("refresh", VBool true); ("open_security_center", VBool true);
                                  ("privacy_profile_change", VBool available)]));
    ("security", security)]).
End shell.

(** * The summary for the shell: properties

    Data that is no longer fresh is shown as unavailable, and two cases in which
    the projection does not do what it says. *)

Definition field2 (k k2 : string) (d : dict) : val := match get k d with VDict e => get k2 e | _ => VNone end.

(** The sections of a summary that knows nothing. *)
Definition object (l : list (string * val)) : val := VDict (dlit l).

Definition stale_sections : list (string * val) :=
  [("posture", object [("state", VStr "UNAVAILABLE"); ("review_count", VNone)]);
   ("priority", VNone); ("notification_events", VList []);
   ("sensor", object [("state", VStr "IDLE"); ("kind", VNone); ("detail", VNone); ("attribution", VNone)]);
   ("network", object [("state", VStr "UNAVAILABLE"); ("detail", VStr "Security Context data is stale.")]);
   ("network_profile", object [("state", VStr "UNAVAILABLE"); ("available", VBool false)]);
   ("firewall", object [("state", VStr "UNAVAILABLE")]);
   ("secure_dns", object [("state", VStr "UNAVAILABLE"); ("transport", VStr "UNAVAILABLE"); ("provider", VNone); ("available", VBool false)]);
   ("vpn", object [("state", VStr "UNAVAILABLE")]);
   ("malware", object [("state", VStr "UNAVAILABLE"); ("database_age_seconds", VInt 0)]);
   ("usb", object [("state", VStr "UNAVAILABLE"); ("blocked_count", VInt 0)]);
   ("update", object [("phase", VStr "IDLE"); ("active", VBool false); ("progress", VNone); ("current_item", VNone);
                      ("restart_required", VStr "UNKNOWN"); ("error", VNone)]);
   ("privacy", object [("profile", VStr "UNAVAILABLE"); ("available", VBool false)]);
   ("capabilities", object [("refresh", VBool true); ("open_security_center", VBool true); ("privacy_profile_change", VBool false)]);
   ("security", object [("unresolved_count", VNone); ("important_activity_count", VNone); ("external_devices", VNone); ("new_unknown_count", VNone);
                        ("source_state", object [("state", VStr "UNAVAILABLE"); ("reason", VStr "Security Context data is stale.")])])].

Definition HEAD_FIELDS : list string := ["schema"; "generated_at"; "fresh_until"; "freshness"; "cached"; "evaluated_checks"].

(** C37. When the posture is unavailable or no longer fresh, every section of the
    summary is the constant [stale_sections], whatever the providers report: the
    states of posture, network, profile, firewall, resolver, VPN, malware and USB
    are UNAVAILABLE, no sensor is active and no update in progress, there is no
    event, no provider and no security count, and the profile cannot be changed
    (the count of blocked USB devices and the age of the definitions are 0 there,
    and the phase of updates is IDLE). It expires at once and is never called
    fresh. Beside the sections it has only the schema, times, the word on
    freshness, the number of checks and the state and counts that are marked as
    cached. *)
Theorem stale_sections_constant `{FloatText} `{IsoText} i current vpn_now d :
  build_shell_summary i current vpn_now = Ok d -> provider_fresh (dict_or_empty (si_summary i)) current = Ok false ->
  (forall k v, In (k, v) stale_sections -> dget k d = Some v)
  /\ (forall k, In k (map fst d) -> In k (map fst stale_sections) \/ In k HEAD_FIELDS)
  /\ (get "freshness" d = VStr "STALE" \/ get "freshness" d = VStr "UNAVAILABLE")
  /\ get "fresh_until" d = VStr (shell_text (VStr (utc_text current)) 40).
Proof.
  unfold build_shell_summary. intros Hb Hf. rewrite Hf in Hb. cbn [mbind res_bind if_fresh] in Hb.
  destruct (attention_counts _) as [[review attention]|]; [|done]. cbn [mbind res_bind] in Hb.
  destruct (cached_devices i) as [cached|]; [|done]. cbn [mbind res_bind] in Hb.
  unfold profile_part in Hb. rewrite andb_false_r in Hb. cbn [andb] in Hb.
  destruct (update_part _) as [update|] eqn:Hu; [|done]. cbn [mbind res_bind security_part] in Hb.
  assert (update = object [("phase", VStr "IDLE"); ("active", VBool false); ("progress", VNone); ("current_item", VNone);
                           ("restart_required", VStr "UNKNOWN"); ("error", VNone)]) as -> by (vm_compute in Hu |- *; congruence).
  injection Hb as <-. split_and!.
  - intros k v Hin. cbn [stale_sections In] in Hin. repeat (destruct Hin as [[= <- <-]|Hin]; [reflexivity|]). done.
  - intros k Hin. match type of Hin with In k ?names => assert (forallb (fun k => existsb (String.eqb k) (map fst stale_sections ++ HEAD_FIELDS)) names = true) as Hall by reflexivity end.
    rewrite forallb_forall in Hall. specialize (Hall k Hin). apply existsb_exists in Hall as (x & Hx & ->%String.eqb_eq). by apply in_app_or in Hx.
  - change (VStr (freshness (dict_or_empty (si_summary i)) false) = VStr "STALE" \/ VStr (freshness (dict_or_empty (si_summary i)) false) = VStr "UNAVAILABLE").
    unfold freshness. destruct (String.eqb _ _); [by right|]. destruct (truthy _); [by left|by right].
  - reflexivity.
Qed.

(** ** Attribution *)

Lemma prefix_has_char c t s : String.prefix t s = true -> has_char c t = true -> has_char c s = true.
Proof.
  revert s; induction t as [|a t IH]; intros [|b s]; try done. cbn [String.prefix]. destruct (Ascii.ascii_dec a b) as [->|]; [|done].
  intros Hp. unfold has_char. cbn [str_exists]. destruct (Ascii.eqb c b); [done|]. cbn [orb]. by apply IH.
Qed.

Lemma contains_has_char c t s : str_contains t s = true -> has_char c t = true -> has_char c s = true.
Proof.
  induction s as [|b s IH]; cbn [str_contains]; intros [Hp|Hs]%orb_true_iff Hc; try done.
  - by eapply prefix_has_char.
  - by eapply prefix_has_char.
  - unfold has_char. cbn [str_exists]. apply orb_true_iff. right. by apply IH.
Qed.

Lemma lower_char_small c : Ascii.eqb "A" (lower_char c) = false.
Proof. destruct c as [[] [] [] [] [] [] [] []]; reflexivity. Qed.

Lemma lower_no_capital s : has_char "A" (str_lower s) = false.
Proof.
  induction s as [|c s IH]; [done|]. unfold has_char, str_lower in *. cbn [str_map str_exists]. by rewrite lower_char_small, IH.
Qed.

(** The marker of an ambiguous attribution is looked for, in capitals, in text
    that was put in lower case: no sensor is ever reported as ambiguous. *)
Lemma attribution_never_ambiguous `{FloatText} live_states e :
  sensor live_states = VDict e -> get "attribution" e <> VStr "AMBIGUOUS".
Proof.
  unfold sensor. destruct (List.filter _ _) as [|d l]; [intros [= <-]; discriminate|].
  destruct (str_contains _ _) eqn:Hc; [|intros [= <-]; discriminate].
  pose proof (contains_has_char "A" _ _ Hc eq_refl) as Ha. by rewrite lower_no_capital in Ha.
Qed.

(** ** Examples *)

Definition shell_example (until : string) : shell_input :=
  ShellInput (VDict (dlit [("state", VStr "PROTECTED"); ("fresh_until", VStr until); ("review_count", VInt 2);
      ("recent_events", VList [VDict (dlit [("event_id", VStr "e-1"); ("kind", VStr "MALWARE_DETECTED");
         ("occurred_at", VStr "2026-03-01T09:59:00Z"); ("detail", VStr "found in /home/ada/mail/a.bin");
         ("notification", VStr "ACTION_REQUIRED")])])]))
    VNone VNone VNone VNone VNone
    (VDict (dlit [("schema", VStr "greyward.secure-dns/v1"); ("generated_at", VStr "2026-03-01T09:59:50Z"); ("vpn_links", VList []);
                  ("effective_policy", VStr "SecureProvider")])).

Definition shell_now : Z := 1772359200 * second.

Definition shell_fields (d : res dict) : option (list val) :=
  match d with
  | Ok d => Some [field2 "posture" "state" d; field2 "vpn" "state" d; field2 "secure_dns" "state" d; field2 "priority" "detail" d]
  | Err _ => None
  end.

Example shell_examples :
  utc_text shell_now = "2026-03-01T10:00:00Z"
  /\ shell_fields (build_shell_summary (shell_example "2026-03-01T10:00:05Z") shell_now shell_now)
     = Some [VStr "PROTECTED"; VStr "OFF"; VStr "SECUREPROVIDER"; VStr "found in a.bin"]
  /\ shell_fields (build_shell_summary (shell_example "2026-03-01T09:00:00Z") shell_now shell_now)
     = Some [VStr "UNAVAILABLE"; VStr "UNAVAILABLE"; VStr "UNAVAILABLE"; VNone].
Proof. by vm_compute. Qed.

Lemma stale_sections_constant_witness :
  exists d, build_shell_summary (shell_example "2026-03-01T09:00:00Z") shell_now shell_now = Ok d
    /\ field2 "cached" "posture" d = object [("state", VStr "PROTECTED"); ("review_count", VInt 2)]
    /\ forall k v, In (k, v) stale_sections -> dget k d = Some v.
Proof.
  eexists. split; [vm_compute; reflexivity|]. split; [vm_compute; reflexivity|].
  eapply (stale_sections_constant (shell_example "2026-03-01T09:00:00Z") shell_now shell_now); vm_compute; reflexivity.
Defined.

(** The text shown keeps absolute paths of one component, and those that follow
    a colon. *)
Example paths_not_hidden :
  shell_text (VStr "left in /secret") 240 = "left in /secret"
  /\ shell_text (VStr "file:/home/ada/private.txt") 240 = "file:/home/ada/private.txt".
Proof. by vm_compute. Qed.
