(* ===== verification/Aggregation.v ===== *)
(** * The security digest ([aggregation.py])

    The bounded aggregation of the recorded events, the connected devices, the
    open findings and the network state that the panel and the security center
    share. What the telemetry store answers is an argument: [None] when it
    raised. *)
From S2P Require Import Prelude PyVal PyStr IpAddr Json NetworkRules PyText PyTime ShellSummary.

Definition IMPORTANT_TYPES : list string :=
  ["SENSITIVE_ACCESS_BLOCKED"; "CONTROL_STATE_CHANGE"; "CONFIGURATION_CHANGE"; "UPDATE_PHASE"; "RECOVERY_POINT_CREATED";
   "RECOVERY_POINT_ASSOCIATED"; "BACKUP_COMPLETED"; "BACKUP_VERIFICATION"; "SERVICE_FAILURE"; "SERVICE_RESTART";
   "DEVICE_CONNECTED"; "DEVICE_DISCONNECTED"; "DEVICE_UNKNOWN"; "USB_DEVICE_BLOCKED"].

Section digest.
Context `{FloatText} `{IsoText}.

(** [_time(value)]: without an offset the time is in UTC. *)
Definition event_moment (v : val) : Z := (parse_time v).1.

(** [_event_summary(item)]. *)
Definition first_of (l : list val) : val := match List.find truthy l with Some v => v | None => default VNone (last l) end.

Definition event_summary (d : dict) : val :=
  let text k n := VStr (clean_val (get k d) n) in
  VDict (dlit [("event_id", text "event_id" 96%nat); ("occurred_at", text "occurred_at" 64%nat); ("component", text "component" 96%nat);
    ("category", text "category" 48%nat);
    ("event_type", VStr (clean_val (first_of [get "event_type" d; get "kind" d]) 96));
    ("outcome", VStr (str_upper (clean_val (first_of [get "outcome" d; get "state" d]) 32)));
    ("severity", VStr (str_upper (clean_val (py_or (get "severity" d) (VStr "INFO")) 24)));
    ("assessment", VStr (str_upper (clean_val (py_or (get "assessment" d) (VStr "NOTEWORTHY")) 32)));
    ("title", VStr (clean_val (first_of [get "title" d; get "event_type" d; get "kind" d; VStr "Security activity"]) 140));
    ("summary", VStr (clean_val (first_of [get "summary" d; get "detail" d; VStr "Recorded by GREYWARD."]) 280))]).

(** [_devices(device_state, current)]. *)
Definition DEVICE_FIELDS : list string :=
  ["identity_id"; "name"; "device_class"; "first_seen"; "last_seen"; "connected"; "identity_confidence"; "state"].

Definition device_row (d : dict) : val := VDict (dlit (map (fun k => (k, get k d)) DEVICE_FIELDS)).

Definition external_device (d : dict) : bool := startswith "EXTERNAL_" (str_upper (clean_val (get "device_class" d) 48)).

Definition new_unknown (cutoff : Z) (d : dict) : bool :=
  negb (truthy (get "trusted" d)) && negb (truthy (get "reviewed" d)) && (cutoff <=? event_moment (get "first_seen" d)).

Definition devices_part (device_state : val) (current : Z) : res val :=
  let value := dict_or_empty device_state in
  let source := str_upper (clean_val (get "source_state" value) 32) in
  let source := if String.eqb source "" then "UNAVAILABLE" else source in
  devices ← as_list (getd "devices" (VList []) value);
  if negb (String.eqb source "AVAILABLE")
  then Ok (VDict (dlit [("source_state", VStr source); ("connected_external", VNone); ("new_unknown", VList []); ("new_unknown_count", VNone)]))
  else
    let external := List.filter external_device (dicts_of devices) in
    let unknown := List.filter (new_unknown (current - 7 * 86400 * second)) external in
    Ok (VDict (dlit [("source_state", VStr "AVAILABLE");
      ("connected_external", VInt (Z.of_nat (length (List.filter (fun d => truthy (get "connected" d)) external))));
      ("new_unknown", VList (map device_row (take 32 unknown))); ("new_unknown_count", VInt (Z.of_nat (length unknown)))])).

(** The recorded events and those of the summary that are not recorded yet. *)
Definition merge_event (events : list dict) (item : val) : list dict :=
  match item with
  | VDict d => if truthy (get "event_id" d) && negb (existsb (fun e => py_eq (get "event_id" e) (get "event_id" d)) events)
               then events ++ [d] else events
  | _ => events
  end.

Definition all_events (recorded : list dict) (summary : val) : res (list dict) :=
  items ← match summary with VDict d => as_list (getd "recent_events" (VList []) d) | _ => Ok [] end;
  Ok (fold_left merge_event items recorded).

(** [sorted(events, key=(time, id), reverse=True)]. *)
Definition event_after (a b : dict) : bool :=
  let ta := event_moment (get "occurred_at" a) in let tb := event_moment (get "occurred_at" b) in
  (tb <? ta) || ((ta =? tb) && negb (py_str (get "event_id" a) <? py_str (get "event_id" b))%string).

Definition important_event (d : dict) : bool :=
  member (str_upper (clean_val (first_of [get "event_type" d; get "kind" d]) 96)) IMPORTANT_TYPES
  || member (str_upper (clean_val (get "assessment" d) 32)) ["DEGRADED"; "FAILED"; "POTENTIALLY_SUSPICIOUS"]
  || member (str_upper (clean_val (first_of [get "outcome" d; get "state" d]) 32)) ["FAILURE"; "FAILED"; "ERROR"].

Definition important_events (events : list dict) : list val :=
  take 16 (map event_summary (List.filter important_event (sort_by event_after events))).

Definition source_available : val := VDict (dlit [("state", VStr "AVAILABLE"); ("reason", VNone)]).
Definition source_unavailable : val :=
  VDict (dlit [("state", VStr "UNAVAILABLE"); ("reason", VStr "Telemetry history is unavailable.")]).

(** [build_security_digest(...)]: [history] and [findings] are the answers of
    the telemetry store. *)
Definition build_security_digest (summary network device_state : val) (history : option (list dict)) (findings : option (list val))
    (current : Z) : res dict :=
  events ← all_events (default [] history) summary;
  devices ← devices_part device_state current;
  let important := important_events events in
  let answered := match history with Some _ => findings | None => None end in
  let found := default [] answered in
  let opensnitch := dict_or_empty (get "opensnitch" (dict_or_empty network)) in
  let state := str_upper (clean_val (get "state" opensnitch) 24) in
  let blocked := List.filter (fun d => String.eqb (str_upper (clean_val (get "category" d) 32)) "NETWORK"
                   && String.eqb (str_upper (clean_val (get "decision" d) 24)) "BLOCKED") events in
  Ok (dlit [("schema", VStr "greyward.security.digest/v1"); ("generated_at", VStr (iso current));
    ("source_state", match answered with Some _ => source_available | None => source_unavailable end);
    ("unresolved_findings", VList (take 16 found)); ("unresolved_count", VInt (Z.of_nat (length found)));
    ("recent_activity", VList important); ("capabilities", VList (take 16 important)); ("devices", devices);
    ("network", VDict (dlit [("state", VStr (if String.eqb state "" then "UNAVAILABLE" else state));
                             ("blocked_recent", VInt (Z.of_nat (length blocked)))]))]).

(** The lists of the digest are bounded, and without a history it reports no
    finding. *)
Lemma digest_bounded summary network device_state history findings current d :
  build_security_digest summary network device_state history findings current = Ok d ->
  exists activity found, get "recent_activity" d = VList activity /\ (length activity <= 16)%nat
    /\ get "unresolved_findings" d = VList found /\ (length found <= 16)%nat
    /\ (history = None -> found = [] /\ get "source_state" d = source_unavailable).
Proof.
  unfold build_security_digest. rewrite bind_Ok. intros (events & _ & Hd). rewrite bind_Ok in Hd. destruct Hd as (devices & _ & Hd).
  assert (forall (a b : dict), Ok a = Ok b -> b = a) as Hinj by congruence. apply Hinj in Hd as ->.
  eexists _, _. split; [reflexivity|]. split; [unfold important_events; rewrite length_take; lia|].
  split; [reflexivity|]. split; [rewrite length_take; lia|]. by intros ->.
Qed.
End digest.

From S2P Require Import JsonExample.

Definition digest_event (id kind at_ : string) : dict :=
  dlit [("event_id", VStr id); ("kind", VStr kind); ("occurred_at", VStr at_)].

Example digest_example :
  match build_security_digest (VDict (dlit [("recent_events", VList [VDict (digest_event "e-2" "usb_device_blocked" "2026-03-01T09:30:00Z")])]))
      VNone VNone (Some [digest_event "e-1" "SERVICE_FAILURE" "2026-03-01T09:00:00Z"; digest_event "e-3" "NOTE" "2026-03-01T09:10:00Z"])
      None (1772359200 * second) with
  | Ok d => match get "recent_activity" d with
            | VList l => Some (map (fun v => match v with VDict e => get "event_id" e | _ => VNone end) l) | _ => None end
  | Err _ => None
  end = Some [VStr "e-2"; VStr "e-1"].
Proof. vm_compute. reflexivity. Qed.
