(* ===== verification/Commands.v ===== *)
(** * External programs

    What [subprocess.run] and [shutil.which] give the code, as operations of
    the host [P]. A program that cannot be started or exceeds its time limit
    is reported by the name and the text of the exception; the output of a
    program that cannot be decoded is an error of the action. *)
From S2P Require Import Prelude PyVal PyStr PyText.

Inductive finished :=
| Finished (returncode : Z) (stdout stderr : string)
| NotRun (kind message : string).

Class Commands (P : Type) := {
  which : string -> P -> bool;
  run : list string -> act P finished;
}.

(** [[f(x) for x in l]] for a body with effects. *)
Fixpoint collect {S A B} (f : A -> act S B) (l : list A) : act S (list B) :=
  match l with
  | [] => mret []
  | x :: l => y ← f x; ys ← collect f l; mret (y :: ys)
  end.

Lemma respects_collect {S A B} (R : S -> S -> Prop) `{!PreOrder R} (f : A -> act S B) l :
  (forall x, In x l -> respects R (f x)) -> respects R (collect f l).
Proof.
  induction l as [|x l IH]; intros Hf; cbn [collect]; [by apply respects_ret|].
  apply respects_bind; [done|apply Hf, in_eq|]. specialize (IH (fun y Hy => Hf y (in_cons x y l Hy))). intros y. apply respects_bind; [done|exact IH|]. intros ys. by apply respects_ret.
Qed.

(** What the first part returns may be used for the effects of the second. *)
Lemma respects_bind_value {S A B} (R : S -> S -> Prop) `{!PreOrder R} (m : act S A) (f : A -> act S B) :
  respects R m -> (forall s a s', m s = (Ok a, s') -> respects R (f a)) -> respects R (m ≫= f).
Proof.
  intros Hm Hf s. specialize (Hm s). unfold after, mbind, act_bind in *.
  destruct (m s) as [[a|e] s1] eqn:E; [|done]. etransitivity; [exact Hm|]. by eapply Hf.
Qed.

Lemma collect_Ok {S A B} (f : A -> act S B) l s k s' :
  collect f l s = (Ok k, s') -> Forall2 (fun x y => exists s1 s2, f x s1 = (Ok y, s2)) l k.
Proof.
  revert s k; induction l as [|x l IH]; intros s k; cbn [collect].
  - intros [= <- <-]. constructor.
  - intros Hr. apply act_bind_Ok in Hr as (y & s1 & Hy & Hr). apply act_bind_Ok in Hr as (ys & s2 & Hys & Hr).
    injection Hr as <- <-. constructor; eauto.
Qed.

(** [re.search] of a program's output, for the patterns of the code: the first
    suffix at which [p] succeeds. *)
Fixpoint search {A} (p : option ascii -> string -> option A) (before : option ascii) (s : string) : option A :=
  match p before s with
  | Some a => Some a
  | None => match s with "" => None | String c r => search p (Some c) r end
  end.

(** A word boundary between a character and what follows. *)
Definition is_word (c : option ascii) : bool := match c with Some c => word_char c | None => false end.

Definition first_char (s : string) : option ascii := match s with "" => None | String c _ => Some c end.

Definition boundary (before : option ascii) (s : string) : bool := xorb (is_word before) (is_word (first_char s)).

(** A literal pattern without regard to case, with [.] for any character of the
    line: the last character matched and what follows. *)
Fixpoint literal (pattern : string) (before : option ascii) (s : string) : option (option ascii * string) :=
  match pattern, s with
  | "", _ => Some (before, s)
  | String p ps, String c r =>
      if (if Ascii.eqb p "." then negb (ord c =? 10) else Ascii.eqb (lower_char p) (lower_char c))
      then literal ps (Some c) r else None
  | _, "" => None
  end.

(** [re.search(r"\b(w1|...|wn)\b", s, re.I)]. *)
Definition word_at (pattern : string) (before : option ascii) (s : string) : bool :=
  match literal pattern before s with Some (c, r) => boundary c r | None => false end.

Definition search_words (words : list string) (s : string) : bool :=
  match search (fun before s => if boundary before s && existsb (fun w => word_at w before s) words then Some tt else None) None s with
  | Some _ => true
  | None => false
  end.

Example search_words_examples :
  map (search_words ["updated"; "database updated"; "up.to.date"])
    ["main.cvd Updated (version 62)"; "daily is up-to-date."; "not outdated"; "updated_at"; "UP TO DATE"]
  = [true; true; false; false; true].
Proof. vm_compute. reflexivity. Qed.
