(* ===== verification/ClamAv.v ===== *)
(** * The state of the virus scanner ([clamav.py])

    The outcome of a scan, the age of the signature databases read from their
    headers, the state that is reported about them, the cached copy of that
    state and the answer of the system service. The host is the class
    [ClamHost]: the files of the database directories, the clocks and the
    programs. [scan] and [permitted], which walk the file system with
    descriptors, are not modelled. *)
From S2P Require Import Prelude PyVal PyStr IpAddr Json NetworkRules PyText PyTime Commands.

Definition DATABASE_DIRS : list string := ["/var/lib/clamav"; "/var/lib/clamav/updates"].
Definition MAX_DATABASE_AGE : Z := 7 * 24 * 60 * 60.
Definition STATUS_CACHE_SECONDS : Z := 5.
Definition FRESHCLAM_SERVICES : list string := ["clamav-freshclam.service"; "freshclam.service"].

(** ** Results of a scan *)

(** [re.search(r":\s*([^:\n]+?)\s+FOUND\s*$", s)] on a text that ends in
    [" FOUND"], stripped: what stands between the last colon and [FOUND]. Only
    blanks match when one that is not a line feed precedes the last. *)
Definition newline : ascii := ascii_of_N 10.

Fixpoint after_last_colon (s : string) : option string :=
  match s with
  | "" => None
  | String c r => match after_last_colon r with
                  | Some t => Some t
                  | None => if Ascii.eqb c ":" then Some r else None
                  end
  end.

Definition detected (output : string) : option string :=
  match after_last_colon output with
  | Some rest =>
      let middle := str_take (String.length rest - 5) rest in
      if String.eqb (strip middle) ""
      then if str_exists (fun c => negb (Ascii.eqb c newline)) (str_take (String.length middle - 1) middle) then Some "" else None
      else if has_char newline (strip middle) then None else Some (strip middle)
  | None => None
  end.

(** [result_for(result, source_present)]. *)
Definition result_for (returncode : Z) (stdout : string) (source_present : bool) : dict :=
  let output := rstrip_by isspace_char stdout in
  if negb source_present
  then dlit [("state", VStr "SOURCE_REMOVED"); ("detail", VStr "The scan source was removed before completion.")]
  else if (returncode =? 0) && endswith ": OK" output
  then dlit [("state", VStr "CLEAN"); ("detail", VStr "No known threats found; this does not prove the source is safe.")]
  else if (returncode =? 1) && endswith " FOUND" output
  then let detection := str_take 160 (default "Known threat" (detected output)) in
       dlit [("state", VStr "THREAT"); ("detail", VStr ("ClamAV detected " +:+ detection +:+ ".")); ("detection_name", VStr detection)]
  else dlit [("state", VStr "UNAVAILABLE"); ("detail", VStr "ClamAV could not complete the requested scan.")].

Example result_examples :
  get "detection_name" (result_for 1 "/proc/self/fd/7: Eicar-Test-Signature FOUND" true) = VStr "Eicar-Test-Signature"
  /\ get "detection_name" (result_for 1 "a:   FOUND" true) = VStr ""
  /\ get "detection_name" (result_for 1 "a: FOUND" true) = VStr "Known threat"
  /\ get "state" (result_for 0 "ERROR" true) = VStr "UNAVAILABLE".
Proof. vm_compute. by split_and!. Qed.

(** ** The host *)

(** A directory entry: its name, whether it is a regular file, its content and
    what [stat] returns: device, inode, size, modification and change time. *)
Record file_stat := FileStat { st_dev : Z; st_ino : Z; st_size : Z; st_mtime_ns : Z; st_ctime_ns : Z }.
Record database_file := DatabaseFile { f_name : string; f_regular : bool; f_content : res string; f_stat : res file_stat }.

#[export] Instance file_stat_eq_dec : EqDecision file_stat.
Proof. solve_decision. Defined.

(** [directory]: [None] is [FileNotFoundError]. [GetClamAvStatus] is the call
    of the system service. The clocks count microseconds. *)
Class ClamHost (P : Type) := {
  clam_commands :: Commands P;
  directory : string -> act P (option (list database_file));
  wall : P -> Z;
  monotonic : P -> Z;
  GetClamAvStatus : act P string;
}.

(** [path.stem], [path.suffix]. *)
Definition stem_suffix (name : string) : string * string :=
  match rev (split "." name) with
  | l :: ((_ :: _) as r) =>
      let stem := join "." (rev r) in
      if String.eqb stem "" || String.eqb l "" then (name, "") else (stem, "." +:+ l)
  | _ => (name, "")
  end.

Definition database_suffix (f : database_file) : bool :=
  f_regular f && member (stem_suffix (f_name f)).2 [".cvd"; ".cld"; ".cud"].

(** The order of paths is that of their parts. *)
Fixpoint parts_leb (a b : list string) : bool :=
  match a, b with
  | [], _ => true
  | _, [] => false
  | x :: a, y :: b => match String.compare x y with Lt => true | Gt => false | Eq => parts_leb a b end
  end.

Definition path_leb {A} (a b : string * A) : bool := parts_leb (split "/" a.1) (split "/" b.1).

(** ** Definitions *)

(** One database: version, time of publication, size and modification time. *)
Definition database_entry : Type := Z * Z * Z * Z.

Definition entry_version (e : database_entry) : Z := e.1.1.1.
Definition entry_published (e : database_entry) : Z := e.1.1.2.

(** The header of a database, its first 512 bytes. *)
Definition read_entry (f : database_file) : res database_entry :=
  content ← f_content f;
  let header := str_take 512 content in
  _ ← require (isascii header) (ValueError "ordinal not in range(128)");
  let fields := split ":" (strip header) in
  _ ← require ((9 <=? length fields)%nat && String.eqb (nth 0 fields "") "ClamAV-VDB") (ValueError "Invalid ClamAV database header");
  version ← int_of_text (nth 2 fields "");
  published ← int_of_text (nth 8 fields "");
  _ ← require ((0 <? version) && (0 <? published)) (ValueError "Invalid ClamAV database version");
  st ← f_stat f;
  Ok (version, published, st_size st, st_mtime_ns st).

Definition add_database (entries : list (string * database_entry)) (f : string * database_file) : res (list (string * database_entry)) :=
  let stem := (stem_suffix (f_name f.2)).1 in
  if negb (member stem ["daily"; "main"; "bytecode"]) then Ok entries
  else
    entry ← read_entry f.2;
    Ok (match dget stem entries with
        | Some old => if entry_version old <? entry_version entry then dset stem entry entries else entries
        | None => dset stem entry entries
        end).

(** [f"{name}:{value}"]. *)
Definition entry_text (ne : string * database_entry) : string :=
  let '(v, p, s, m) := ne.2 in
  ne.1 +:+ ":(" +:+ str_of_Z v +:+ ", " +:+ str_of_Z p +:+ ", " +:+ str_of_Z s +:+ ", " +:+ str_of_Z m +:+ ")".

(** [utc.fromtimestamp(n)]: years up to 9999, then the limits of the platform. *)
Definition utc_from_seconds (n : Z) : res Z :=
  if n <=? 253402300799 then Ok (n * second)
  else if n <=? 67768036191676799 then Err (ValueError "year is out of range")
  else if n <? 2 ^ 63 then Err (OSError "Value too large for defined data type")
  else Err OverflowError.

(** [max(0, int(now.timestamp() - published))]. *)
Definition age_seconds (now published : Z) : Z := Z.max 0 ((now - published) / second).

(** The fields every state has. *)
Definition unavailable_status (now : Z) (detail : string) : dict :=
  dlit [("engine_version", VNone); ("database_timestamp", VNone); ("database_age_seconds", VNone); ("last_successful_update", VNone);
        ("update_failure_state", VNone); ("database_version", VNone); ("observed_at", VStr (isoformat now));
        ("update_service_state", VStr "UNKNOWN"); ("status", VStr "UNAVAILABLE"); ("engine_state", VStr "UNKNOWN");
        ("definitions_state", VStr "UNKNOWN"); ("scanner_state", VStr "UNKNOWN"); ("scan_activity", VStr "UNKNOWN");
        ("realtime_protection", VStr "NOT_PROVIDED"); ("detail", VStr detail)].

(** The state of the definitions with its detail: they are read from their
    headers; without an engine nothing can be scanned. *)
Definition definitions_of (now : Z) (published : option Z) (engine failure : option string) (updater : string) : string * string * string :=
  let '(state, definitions, detail) :=
    match published with
    | None => ("UNAVAILABLE", "MISSING", "Definitions are missing. Automatic updating will retry; no completed scan is implied.")
    | Some n =>
        if now + 300 * second <? n * second then ("ERROR", "UNKNOWN", "Definition publication time conflicts with the system clock.")
        else if MAX_DATABASE_AGE <? age_seconds now (n * second)
        then ("OUTDATED", "OUTDATED", "Definitions are outdated. Earlier scan results require a fresh scan after updating.")
        else ("CURRENT", "CURRENT",
          if bool_decide (failure <> None) || negb (String.eqb updater "ACTIVE")
          then "Installed definitions remain current; automatic updating needs attention and will retry."
          else "Definitions are current. Selected and arriving files can be scanned; this is not real-time access blocking.")
    end in
  match engine with
  | None => ("UNAVAILABLE", definitions, "The ClamAV scanner engine could not be verified.")
  | Some _ => (state, definitions, detail)
  end.

Definition some_text (o : option string) : val := match o with Some s => VStr s | None => VNone end.

(** The answer of [status] from what was measured. *)
Definition describe_status (now : Z) (database : option (Z * string)) (engine failure : option string) (updater : string) : res dict :=
  let published := fst <$> database in
  let '(state, definitions, detail) := definitions_of now published engine failure updater in
  timestamp ← match published with None => Ok VNone | Some n => t ← utc_from_seconds n; Ok (VStr (isoformat t)) end;
  Ok (dlit [("observed_at", VStr (isoformat now)); ("engine_version", some_text engine);
    ("engine_state", VStr (match engine with Some _ => "AVAILABLE" | None => "UNKNOWN" end)); ("database_timestamp", timestamp);
    ("database_age_seconds", match published with Some n => VInt (age_seconds now (n * second)) | None => VNone end);
    ("last_successful_update", VNone); ("update_failure_state", some_text failure); ("database_version", some_text (snd <$> database));
    ("definitions_state", VStr definitions); ("update_service_state", VStr updater); ("status", VStr state); ("detail", VStr detail);
    ("scanner_state", VStr (if String.eqb state "CURRENT" then "AVAILABLE" else "UNAVAILABLE")); ("scan_activity", VStr "UNKNOWN");
    ("realtime_protection", VStr "NOT_PROVIDED")]).

(** ** Programs *)

(** The version that follows the name ClamAV and blanks: a digit and what is
    neither a blank nor a slash. *)
Definition version_char (c : ascii) : bool := negb (isspace_char c || Ascii.eqb c "/").

Definition version_at (before : option ascii) (s : string) : option string :=
  if startswith "ClamAV" s then
    let rest := str_drop 6 s in
    let version := lstrip_by isspace_char rest in
    match rest, version with
    | String b _, String d _ => if isspace_char b && digit_char d then Some (span version_char version).1 else None
    | _, _ => None
    end
  else None.

(** [_update_failure(lines)]. *)
Fixpoint since_success (recent lines : list string) : list string :=
  match lines with
  | [] => rev recent
  | l :: lines => if search_words ["updated"; "database updated"; "up.to.date"] l then since_success [] lines
                  else since_success (l :: recent) lines
  end.

Definition update_failure (lines : list string) : option string :=
  (fun l => str_last 240 (strip l)) <$> List.find (search_words ["ERROR"; "WARNING"; "FAILED"]) (rev (since_success [] lines)).

Section status.
Context {P : Type} `{ClamHost P} `{Host} `{IsoText} `{FloatText}.

Definition _version (binary : string) : act P (option string) :=
  r ← run [binary; "--version"];
  mret match r with
       | Finished 0 out err => search version_at None (out +:+ err)
       | _ => None
       end.

(** [_freshclam_service_state()]. *)
Fixpoint service_state (services : list string) : act P string :=
  match services with
  | [] => mret "INACTIVE"
  | service :: services =>
      r ← run ["systemctl"; "is-active"; "--quiet"; service];
      match r with Finished 0 _ _ => mret "ACTIVE" | _ => service_state services end
  end.

Definition _updater_failure : act P (option string) :=
  r ← run ["journalctl"; "-u"; "clamav-freshclam.service"; "-n"; "64"; "--no-pager"; "-o"; "cat"];
  mret match r with Finished 0 out _ => update_failure (splitlines out) | _ => None end.

(** [_database_files()]: path and file. *)
Fixpoint files_in (directories : list string) : act P (list (string * database_file)) :=
  match directories with
  | [] => mret []
  | d :: ds =>
      found ← directory d;
      rest ← files_in ds;
      mret (map (fun f => (d +:+ "/" +:+ f_name f, f)) (List.filter database_suffix (default [] found)) ++ rest)
  end.

Definition _database_files : act P (list (string * database_file)) := files_in DATABASE_DIRS.

(** [database_metadata()]: the time of publication of the daily database and
    the identity of all databases. *)
Definition metadata_of (files : list (string * database_file)) : res (option (Z * string)) :=
  entries ← foldM add_database [] (sort_by path_leb files);
  Ok (match dget "daily" entries, dget "main" entries with
      | Some daily, Some _ =>
          let generation := host_sha256 (join ";" (map entry_text entries)) in
          Some (entry_published daily, "daily-" +:+ str_of_Z (entry_version daily) +:+ "-" +:+ str_take 24 generation)
      | _, _ => None
      end).

Definition database_metadata : act P (option (Z * string)) :=
  files ← _database_files; lift (metadata_of files).

Definition unverified (e : exn) : bool := is_value_error e || is_os_error e.

(** [status()]: the state follows from the headers, the engine, the updater and
    its last failure, measured in this order. *)
Definition measured : act P (option (option (Z * string))) :=
  catch (m ← database_metadata; mret (Some m)) unverified (fun _ => mret None).

Definition status : act P dict :=
  now ← gets wall;
  m ← measured;
  match m with
  | None => t ← gets wall; mret (unavailable_status t "ClamAV definition metadata could not be verified.")
  | Some database =>
      _ ← lift (match database with Some (n, _) => _ ← float_of_int n; Ok tt | None => Ok tt end);
      engine ← _version "clamscan";
      updater ← service_state FRESHCLAM_SERVICES;
      failure ← _updater_failure;
      lift (describe_status now database engine failure updater)
  end.

(** ** The cached state *)

(** What identifies the installed databases. *)
Definition database_key : Type := list (string * file_stat).

Definition cache_key (files : list (string * database_file)) : res database_key :=
  sort_by (fun a b => negb (b.1 <? a.1)%string) <$> mapM_res (fun pf => st ← f_stat pf.2; Ok (pf.1, st)) files.

(** The host and [_status_cache]: monotonic time, key, value. *)
Record cached := Cached { provider : P; cache : option (Z * database_key * dict) }.

Definition on_host {A} (m : act P A) : act cached A := fun s =>
  let '(r, p) := m (provider s) in (r, Cached p (cache s)).

(** The value of the cache if it still holds at [now]: the definitions must be
    within their age now. Other states are served as they are. The time of
    publication was written by [describe_status], with an offset. *)
Definition still_valid (value : dict) (now : Z) : option dict :=
  let published := get "database_timestamp" value in
  if truthy published && is_str "CURRENT" (get "status" value) then
    match published with
    | VStr s =>
        match iso_parse s with
        | Some (t, true) =>
            let age := age_seconds now t in
            if (t <=? now + 300 * second) && (age <=? MAX_DATABASE_AGE) then Some (dset "database_age_seconds" (VInt age) value) else None
        | _ => None
        end
    | _ => None
    end
  else Some value.

Definition young (c : option (Z * database_key * dict)) (key : database_key) (current : Z) : option dict :=
  match c with
  | Some (t, k, value) =>
      if bool_decide (k = key) && (0 <=? current - t) && (current - t <? STATUS_CACHE_SECONDS * second) then Some value else None
  | None => None
  end.

Definition fill_cache (key : database_key) : act cached dict :=
  value ← on_host status;
  _ ← modify (fun s => Cached (provider s) (Some (monotonic (provider s), key, value)));
  mret value.

(** [cached_status()]. *)
Definition cached_status : act cached dict :=
  key ← catch (k ← on_host (fs ← _database_files; lift (cache_key fs)); mret (Some k)) is_os_error (fun _ => mret None);
  match key with
  | None => t ← gets (fun s => wall (provider s)); mret (unavailable_status t "ClamAV definition metadata could not be verified.")
  | Some key =>
      s ← gets id;
      match young (cache s) key (monotonic (provider s)) with
      | Some value => match still_valid value (wall (provider s)) with Some v => mret v | None => fill_cache key end
      | None => fill_cache key
      end
  end.

(** ** The answer of the system service *)

Definition refused : exn := ValueError "refused".

(** The answer if it can be relied on at [now]; every other outcome is an
    exception, which the caller turns into the unavailable state. *)
Definition accept_status (raw : string) (now : Z) : res dict :=
  _ ← require (utf8_len raw <=? 8192) refused;
  v ← loads raw;
  value ← (match v with VDict d => Ok d | _ => Err refused end);
  known ← in_set ["CURRENT"; "OUTDATED"; "UNAVAILABLE"; "ERROR"] (get "status" value);
  _ ← require (known && is_str "NOT_PROVIDED" (get "realtime_protection" value)) refused;
  _ ← require (negb (is_str "CURRENT" (get "status" value))
        || truthy (get "engine_version" value) && is_str "CURRENT" (get "definitions_state" value)
           && match get "database_age_seconds" value with VInt n => (0 <=? n) && (n <=? MAX_DATABASE_AGE) | _ => false end) refused;
  observed ← (match getd "observed_at" (VStr "") value with
              | VStr s => match iso_parse s with
                          | Some (t, true) => Ok t
                          | Some (_, false) => Err TypeError
                          | None => Err refused
                          end
              | _ => Err AttributeError
              end);
  _ ← require ((0 <=? now - observed) && (now - observed <=? 30 * second)) refused;
  Ok value.

(** [system_status()]. *)
Definition system_status : act P dict :=
  catch (raw ← GetClamAvStatus; now ← gets wall; lift (accept_status raw now)) (fun _ => true)
    (fun _ => now ← gets wall; mret (unavailable_status now "The system scanner status could not be verified.")).
End status.

#[global] Arguments cached : clear implicits.

(** * The state of the virus scanner: theorems

    Current definitions are reported only when they were read and are within
    their age at a moment of the very request, also from the cache; the answer of
    the system service is refused unless it is complete and recent. *)

Lemma result_clean returncode stdout present :
  get "state" (result_for returncode stdout present) = VStr "CLEAN" <->
  present = true /\ returncode = 0 /\ endswith ": OK" (rstrip_by isspace_char stdout) = true.
Proof.
  unfold result_for. destruct present; cbn [negb]; [|split; [discriminate|by intros (? & _)]].
  destruct (Z.eqb_spec returncode 0) as [->|Hne]; cbn [andb].
  - destruct (endswith ": OK" _) eqn:E.
    + split; [done|reflexivity].
    + cbn [Z.eqb andb]. split; [discriminate|by intros (_ & _ & ?)].
  - destruct ((returncode =? 1) && _); split; (discriminate || by intros (_ & ? & _)).
Qed.

Section claims.
Context {P : Type} `{ClamHost P} `{Host} `{IsoText} `{FloatText}.

(** ** What a current state rests on *)

Lemma definitions_current now published engine failure updater :
  (definitions_of now published engine failure updater).1.1 = "CURRENT" ->
  exists n e, published = Some n /\ engine = Some e /\ n * second <= now + 300 * second
    /\ age_seconds now (n * second) <= MAX_DATABASE_AGE
    /\ (definitions_of now published engine failure updater).1.2 = "CURRENT".
Proof.
  unfold definitions_of. destruct published as [n|]; [|by destruct engine].
  destruct (now + 300 * second <? n * second) eqn:E1; [by destruct engine|].
  destruct (MAX_DATABASE_AGE <? age_seconds now (n * second)) eqn:E2; [by destruct engine|].
  destruct engine as [e|]; [|done]. zify_bool. eauto 8.
Qed.

Lemma describe_current now database engine failure updater d :
  describe_status now database engine failure updater = Ok d -> get "status" d = VStr "CURRENT" ->
  exists n g e, database = Some (n, g) /\ engine = Some e /\ n * second <= now + 300 * second
    /\ age_seconds now (n * second) <= MAX_DATABASE_AGE
    /\ get "database_age_seconds" d = VInt (age_seconds now (n * second)) /\ get "database_version" d = VStr g
    /\ get "definitions_state" d = VStr "CURRENT" /\ get "database_timestamp" d = VStr (isoformat (n * second)).
Proof.
  unfold describe_status. pose proof (definitions_current now (fst <$> database) engine failure updater) as Hc.
  destruct (definitions_of now (fst <$> database) engine failure updater) as [[state definitions] detail] eqn:E.
  rewrite bind_Ok. intros (timestamp & Ht & Hd).
  assert (forall a b : dict, Ok a = Ok b -> b = a) as Hinj by congruence. apply Hinj in Hd as ->. clear Hinj.
  intros Hs. change (VStr state = VStr "CURRENT") in Hs.
  destruct Hc as (n & e & Hn & -> & B1 & B2 & B3); [cbn [fst]; congruence|].
  destruct database as [[n' g]|]; [|discriminate Hn]. injection Hn as ->.
  cbn [fst snd] in *. exists n, g, e. subst definitions.
  apply bind_Ok in Ht as (t & Ht & Ht'). assert (t = n * second) as ->.
  { unfold utc_from_seconds in Ht. cbn [fst] in Ht. destruct (n <=? 253402300799); [congruence|].
    destruct (n <=? 67768036191676799); [discriminate|]. destruct (n <? 2 ^ 63); discriminate. }
  assert (timestamp = VStr (isoformat (n * second))) as -> by congruence.
  split_and!; done.
Qed.

Lemma unavailable_not_current now detail : get "status" (unavailable_status now detail) <> VStr "CURRENT".
Proof. intros Hs. by change (VStr "UNAVAILABLE" = VStr "CURRENT") in Hs. Qed.

(** ** Time *)

(** No operation of the host turns the clock back. *)
Class ClamClock : Prop := {
  run_later : forall argv s, wall s <= wall (after (run argv) s);
  directory_later : forall d s, wall s <= wall (after (directory d) s);
}.

Definition later (s s' : P) : Prop := wall s <= wall s'.

#[export] Instance later_preorder : PreOrder later.
Proof. split; [intros s; unfold later; lia|intros s t u; unfold later; lia]. Qed.

Context `{!ClamClock}.

Lemma service_state_later services : respects later (service_state services).
Proof.
  induction services as [|x services IH]; cbn [service_state]; [apply respects_ret; typeclasses eauto|].
  apply respects_bind; [typeclasses eauto|intros s; apply run_later|]. intros r. effects.
Qed.

Lemma version_later binary : respects later (_version binary).
Proof. unfold _version. apply respects_bind; [typeclasses eauto|intros s; apply run_later|]. intros r. effects. Qed.

Lemma updater_failure_later : respects later _updater_failure.
Proof. apply respects_bind; [typeclasses eauto|intros s; apply run_later|]. intros r. effects. Qed.

Lemma database_files_later : respects later _database_files.
Proof.
  unfold _database_files. induction DATABASE_DIRS as [|d ds IH]; cbn [files_in]; [apply respects_ret; typeclasses eauto|].
  apply respects_bind; [typeclasses eauto|intros s; apply directory_later|]. intros r. effects.
Qed.

Lemma metadata_later : respects later database_metadata.
Proof. unfold database_metadata. apply respects_bind; [typeclasses eauto|apply database_files_later|]. intros r. effects. Qed.

Lemma measured_later : respects later measured.
Proof.
  unfold measured. apply respects_catch; [typeclasses eauto| |intros e; effects].
  apply respects_bind; [typeclasses eauto|apply metadata_later|]. intros m. effects.
Qed.

Lemma status_later : respects later status.
Proof.
  unfold status. apply respects_bind; [typeclasses eauto|apply respects_gets; typeclasses eauto|]. intros now.
  apply respects_bind; [typeclasses eauto|apply measured_later|]. intros [database|]; [|effects].
  apply respects_bind; [typeclasses eauto|apply respects_lift; typeclasses eauto|]. intros [].
  apply respects_bind; [typeclasses eauto|apply version_later|]. intros engine.
  apply respects_bind; [typeclasses eauto|apply service_state_later|]. intros updater.
  apply respects_bind; [typeclasses eauto|apply updater_failure_later|]. intros failure. effects.
Qed.

(** A successful [status] is the description of what it measured first. *)
Lemma status_described s d s' :
  status s = (Ok d, s') ->
  (exists t detail, d = unavailable_status t detail)
  \/ exists database engine failure updater, describe_status (wall s) database engine failure updater = Ok d.
Proof.
  unfold status. intros Hr. apply act_bind_Ok in Hr as (now & s0 & Hn & Hr). injection Hn as <- <-.
  apply act_bind_Ok in Hr as (m & s1 & _ & Hr). destruct m as [database|].
  - right. apply act_bind_Ok in Hr as (? & ? & _ & Hr). apply act_bind_Ok in Hr as (engine & ? & _ & Hr).
    apply act_bind_Ok in Hr as (updater & ? & _ & Hr). apply act_bind_Ok in Hr as (failure & ? & _ & Hr).
    exists database, engine, failure, updater. unfold lift in Hr. congruence.
  - left. apply act_bind_Ok in Hr as (t & ? & _ & Hr). eexists t, _.
    assert (forall (a b : dict) (x y : P), (Ok a, x) = (Ok b, y) -> b = a) as Hinj by congruence.
    exact (Hinj _ _ _ _ Hr).
Qed.

(** ** The cache *)

(** The cache holds what [status] returned. *)
Definition reported (d : dict) : Prop :=
  (exists t detail, d = unavailable_status t detail)
  \/ exists now database engine failure updater, describe_status now database engine failure updater = Ok d.

Definition cache_ok (s : cached P) : Prop :=
  match cache s with Some (_, _, value) => reported value | None => True end.

(** The moment of publication a text denotes. *)
Definition published_at (text : string) (t : Z) : Prop := iso_parse text = Some (t, true) \/ text = isoformat t.

(** A state that claims current definitions rests on a publication within the
    permitted age at the moment [w]. *)
Definition current_at (d : dict) (w : Z) : Prop :=
  exists text t, get "database_timestamp" d = VStr text /\ published_at text t /\ t <= w + 300 * second
    /\ get "database_age_seconds" d = VInt (age_seconds w t) /\ age_seconds w t <= MAX_DATABASE_AGE
    /\ get "definitions_state" d = VStr "CURRENT".

Lemma reported_current d : reported d -> get "status" d = VStr "CURRENT" ->
  get "definitions_state" d = VStr "CURRENT" /\ exists t, get "database_timestamp" d = VStr (isoformat t).
Proof.
  intros [(t & detail & ->)|(now & db & e & f & u & Hd)] Hs; [by apply unavailable_not_current in Hs|].
  destruct (describe_current _ _ _ _ _ _ Hd Hs) as (n & g & e' & ? & ? & ? & ? & ? & ? & ? & ?). eauto.
Qed.

Lemma fill_current key s d s' :
  fill_cache key s = (Ok d, s') ->
  cache_ok s' /\ (get "status" d = VStr "CURRENT" -> current_at d (wall (provider s))) /\ wall (provider s) <= wall (provider s').
Proof.
  unfold fill_cache. intros Hr. apply act_bind_Ok in Hr as (v & s1 & Hv & Hr).
  apply act_bind_Ok in Hr as (u & s2 & Hu & Hr). injection Hu as _ <-.
  assert (v = d /\ s' = Cached (provider s1) (Some (monotonic (provider s1), key, v))) as [-> ->].
  { unfold mret, act_ret in Hr. split; congruence. }
  clear Hr. unfold on_host in Hv. destruct (status (provider s)) as [r p] eqn:Es.
  assert (r = Ok d /\ s1 = Cached p (cache s)) as [-> ->] by (split; congruence). clear Hv.
  pose proof (status_later (provider s)) as Hl. unfold later, after in Hl. rewrite Es in Hl. cbn [snd] in Hl.
  pose proof (status_described _ _ _ Es) as Hd. split_and!; [|intros Hs|done].
  - cbn [cache_ok cache]. unfold cache_ok. cbn. destruct Hd as [?|(?&?&?&?&?)]; [by left|right; eauto 8].
  - destruct Hd as [(t & detail & ->)|(db & e & f & up & Hd)]; [by apply unavailable_not_current in Hs|].
    destruct (describe_current _ _ _ _ _ _ Hd Hs) as (n & g & e' & ? & ? & ? & ? & ? & ? & ? & ?).
    exists (isoformat (n * second)), (n * second). split_and!; try done. by right.
Qed.
(** A young entry is served only if its definitions are within their age now. *)
Lemma still_valid_current value now d :
  reported value -> still_valid value now = Some d -> get "status" d = VStr "CURRENT" -> current_at d now.
Proof.
  intros Hv. unfold still_valid.
  destruct (truthy (get "database_timestamp" value) && is_str "CURRENT" (get "status" value)) eqn:Ec.
  - split_bool. assert (get "status" value = VStr "CURRENT") as Hc.
    { destruct (get "status" value); try done. cbn [is_str] in *. by f_equal; apply String.eqb_eq. }
    destruct (reported_current _ Hv Hc) as [Hdef (t0 & Ht0)]. rewrite Ht0.
    destruct (iso_parse (isoformat t0)) as [[t []]|] eqn:Ep; try done. cbv zeta.
    destruct ((t <=? now + 300 * second) && (age_seconds now t <=? MAX_DATABASE_AGE)) eqn:Ea; [|done].
    intros Hd _. assert (d = dset "database_age_seconds" (VInt (age_seconds now t)) value) as -> by congruence. clear Hd.
    split_bool. zify_bool. exists (isoformat t0), t. unfold get, getd. rewrite dget_dset_eq, !dget_dset_ne by done.
    split_and!; try done. by left.
  - intros Hd Hs. assert (d = value) as -> by congruence. destruct (reported_current _ Hv Hs) as [_ (t0 & Ht0)].
    rewrite Ht0, Hs in Ec. cbn [is_str truthy] in Ec. rewrite String.eqb_refl, andb_true_r in Ec.
    unfold isoformat in Ec. by destruct (removesuffix "Z" (utc_text t0)).
Qed.

Lemma key_state s r s1 :
  on_host (fs ← _database_files; lift (cache_key fs)) s = (r, s1) -> cache s1 = cache s /\ wall (provider s) <= wall (provider s1).
Proof.
  assert (respects later (fs ← _database_files; lift (cache_key fs))) as Hr.
  { apply respects_bind; [typeclasses eauto|apply database_files_later|]. intros fs. effects. }
  specialize (Hr (provider s)). unfold on_host, later, after in *.
  destruct ((fs ← _database_files; lift (cache_key fs)) (provider s)) as [r' p]. intros [= _ <-]. by split.
Qed.

(** C31. The state served to clients claims current definitions only if the
    publication of the daily database lies within the permitted age (and not
    more than five minutes ahead) at a moment between the begin and the end of
    the very request, whether the answer is measured or cached; and the cache
    keeps holding what was measured. *)
Theorem cached_status_current s d s' :
  cache_ok s -> cached_status s = (Ok d, s') ->
  cache_ok s' /\ (get "status" d = VStr "CURRENT" ->
    exists w, wall (provider s) <= w <= wall (provider s') /\ current_at d w).
Proof.
  intros Hok. unfold cached_status. intros Hr. apply act_bind_Ok in Hr as (key & s1 & Hk & Hr).
  unfold catch in Hk. destruct ((k ← on_host _; mret (Some k)) s) as [[k|e] s0] eqn:Ek.
  - apply act_bind_Ok in Ek as (k' & s2 & Hkey & Hm). injection Hm as <- <-. injection Hk as <- <-.
    apply key_state in Hkey as [Hc Hw]. apply act_bind_Ok in Hr as (sx & s3 & Hx & Hr). injection Hx as <- <-. cbn [id] in Hr.
    assert (fill_cache k' s2 = (Ok d, s') -> cache_ok s' /\ (get "status" d = VStr "CURRENT" ->
      exists w, wall (provider s) <= w <= wall (provider s') /\ current_at d w)) as Hfill.
    { intros (H1' & H2' & H3')%fill_current. split; [done|]. intros Hs. exists (wall (provider s2)). auto. }
    destruct (young (cache s2) k' (monotonic (provider s2))) as [value|] eqn:Ey; [|exact (Hfill Hr)].
    destruct (still_valid value (wall (provider s2))) as [v|] eqn:Ev; [|exact (Hfill Hr)].
    assert (v = d /\ s' = s2) as [-> ->] by (unfold mret, act_ret in Hr; split; congruence).
    unfold cache_ok. rewrite Hc. split; [done|]. intros Hs. exists (wall (provider s2)). split; [done|].
    eapply still_valid_current; try done. unfold young in Ey. rewrite Hc in Ey. unfold cache_ok in Hok.
    destruct (cache s) as [[[t0 k0] v0]|]; [|done]. destruct (bool_decide (k0 = k') && _ && _); [|done]. congruence.
  - assert (key = None /\ s1 = s0) as [-> ->] by (destruct (is_os_error e); [unfold mret, act_ret in Hk; split; congruence|discriminate]).
    clear Hk. assert (cache s0 = cache s) as Hc.
    { apply act_bind_Err in Ek as [Ek|(? & ? & _ & Ek)]; [by apply key_state in Ek as [? _]|discriminate Ek]. }
    apply act_bind_Ok in Hr as (t & s2 & Ht & Hr). injection Ht as _ <-.
    assert (d = unavailable_status t "ClamAV definition metadata could not be verified." /\ s' = s0) as [-> ->].
    { unfold mret, act_ret in Hr. split; congruence. }
    unfold cache_ok. rewrite Hc. split; [done|]. intros Hs. by apply unavailable_not_current in Hs.
Qed.
(** What an answer of the system service must be for it to be passed on: at most
    8192 bytes of JSON with an object, one of the four states, no claim of
    real-time protection, observed within the last thirty seconds of the clock
    [now], and current only with an engine, with definitions that are current and
    with an age within the permitted one. *)
Definition reliable_answer (raw : string) (d : dict) (now : Z) : Prop :=
  utf8_len raw <= 8192 /\ loads raw = Ok (VDict d)
  /\ (exists state, get "status" d = VStr state /\ state ∈ ["CURRENT"; "OUTDATED"; "UNAVAILABLE"; "ERROR"])
  /\ get "realtime_protection" d = VStr "NOT_PROVIDED"
  /\ (exists text observed, getd "observed_at" (VStr "") d = VStr text /\ iso_parse text = Some (observed, true)
       /\ observed <= now <= observed + 30 * second)
  /\ (get "status" d = VStr "CURRENT" ->
      truthy (get "engine_version" d) = true /\ get "definitions_state" d = VStr "CURRENT"
      /\ exists n, get "database_age_seconds" d = VInt n /\ 0 <= n <= MAX_DATABASE_AGE).

Lemma current_test d :
  negb (is_str "CURRENT" (get "status" d))
    || truthy (get "engine_version" d) && is_str "CURRENT" (get "definitions_state" d)
       && match get "database_age_seconds" d with VInt n => (0 <=? n) && (n <=? MAX_DATABASE_AGE) | _ => false end = true
  <-> (get "status" d = VStr "CURRENT" ->
       truthy (get "engine_version" d) = true /\ get "definitions_state" d = VStr "CURRENT"
       /\ exists n, get "database_age_seconds" d = VInt n /\ 0 <= n <= MAX_DATABASE_AGE).
Proof.
  rewrite orb_true_iff, negb_true_iff, !andb_true_iff, <- not_true_iff_false, !is_str_eq. split.
  - intros [Hn|[[He Hs] Ha]] Hc; [done|]. split_and!; try done.
    destruct (get "database_age_seconds" d) as [| |n| | | |]; try done. exists n. split; [done|]. split_bool. lia.
  - intros Hi. destruct (is_str "CURRENT" (get "status" d)) eqn:E.
    + apply is_str_eq in E. destruct (Hi E) as (He & Hs & n & -> & Hb). right. split_and!; try done.
      apply andb_true_iff. split; lia.
    + left. by rewrite <- is_str_eq, E.
Qed.

Lemma accept_reliable raw now d : accept_status raw now = Ok d <-> reliable_answer raw d now.
Proof.
  unfold accept_status, reliable_answer. rewrite bind_Ok. split.
  - intros (u & Hlen%require_Ok%Z.leb_le & E). apply bind_Ok in E as (v & Hv & E). apply bind_Ok in E as (value & Hval & E).
    apply bind_Ok in E as (known & Hk & E). apply bind_Ok in E as (u2 & Hr & E). apply bind_Ok in E as (u3 & Hc & E).
    apply bind_Ok in E as (observed & Ho & E). apply bind_Ok in E as (u4 & Hage & E).
    assert (value = d) as -> by congruence. destruct v; try discriminate Hval. injection Hval as ->.
    apply require_Ok in Hr, Hc, Hage. rewrite current_test in Hc. apply andb_true_iff in Hr as [-> Hr]. apply is_str_eq in Hr.
    split_and!; try done.
    + unfold in_set in Hk. destruct (hashable _); [|done]. injection Hk as Hk. unfold in_strs in Hk.
      destruct (get "status" d) as [| | | |state| |] eqn:Es; try done. exists state. split; [done|].
      apply existsb_exists in Hk as (x & Hin & ->%String.eqb_eq). by apply list_elem_of_In.
    + destruct (getd "observed_at" (VStr "") d) as [| | | |text| |]; try discriminate Ho.
      destruct (iso_parse text) as [[t []]|] eqn:Ep; try discriminate Ho. injection Ho as ->.
      exists text, observed. split_bool. split_and!; try done; lia.
  - intros (Hlen & Hv & (state & Hs & Hin) & Hr & (text & observed & Ht & Ho & Hage) & Hc). exists tt.
    split; [by apply require_Ok, Z.leb_le|]. rewrite Hv. cbn [mbind res_bind]. unfold in_set. rewrite Hs. cbn [hashable in_strs].
    assert (existsb (String.eqb state) ["CURRENT"; "OUTDATED"; "UNAVAILABLE"; "ERROR"] = true) as ->.
    { apply existsb_exists. exists state. split; [by apply list_elem_of_In|apply String.eqb_refl]. }
    rewrite <- Hs, Hr. rewrite <- current_test in Hc. rewrite Hc, Ht, Ho. cbn.
    assert ((0 <=? now - observed) && (now - observed <=? 30 * second) = true) as ->.
    { apply andb_true_iff. split; lia. }
    done.
Qed.

(** C40. The question to the system service always has an answer: what the
    service sent, exactly when that is reliable (a bounded JSON object, with one
    of the known states, without a claim of real-time protection, no older than
    thirty seconds and not ahead of the clock, current only with an engine and
    with definitions within their age), and the unavailable state in every other
    case, whatever the service sends and also when it does not answer. *)
Theorem system_status_fails_closed s :
  exists d s', system_status s = (Ok d, s') /\
    ((exists raw, GetClamAvStatus s = (Ok raw, s') /\ reliable_answer raw d (wall s'))
     \/ (d = unavailable_status (wall s') "The system scanner status could not be verified."
         /\ forall raw d', GetClamAvStatus s = (Ok raw, s') -> ~ reliable_answer raw d' (wall s'))).
Proof.
  unfold system_status, catch. destruct ((raw ← GetClamAvStatus; _) s) as [[d|e] s'] eqn:E.
  - exists d, s'. split; [done|]. left. apply act_bind_Ok in E as (raw & s1 & Hraw & E).
    apply act_bind_Ok in E as (now & s2 & Hn & E). injection Hn as <- <-. unfold lift in E. injection E as E <-.
    exists raw. split; [done|]. by apply accept_reliable.
  - eexists _, s'. split; [done|]. right. split; [done|]. intros raw d' Hraw Hd%accept_reliable.
    unfold mbind, act_bind, gets, lift in E. rewrite Hraw in E. cbn in E. by rewrite Hd in E.
Qed.
End claims.

(** ** A host with two databases *)

From S2P Require Import JsonExample RuleClaims.

Record clam_lab := ClamLab { lab_now : Z; lab_databases : list database_file; lab_reply : res string }.

Definition lab_run (argv : list string) : act clam_lab finished := fun p =>
  (Ok (match argv with
       | "clamscan" :: _ => Finished 0 "ClamAV 1.4.3/27784/Mon Sep 21 08:00:00 2026" ""
       | "systemctl" :: _ => Finished 0 "" ""
       | _ => NotRun "FileNotFoundError" "No such file or directory"
       end), ClamLab (lab_now p + second) (lab_databases p) (lab_reply p)).

#[export] Instance lab_commands : Commands clam_lab := { which _ _ := true; run := lab_run }.

#[export] Instance lab_clam : ClamHost clam_lab := {
  directory d p := (Ok (if String.eqb d "/var/lib/clamav" then Some (lab_databases p) else None), p);
  wall := lab_now;
  monotonic := lab_now;
  GetClamAvStatus p := (lab_reply p, p);
}.

#[export] Instance lab_clam_clock : ClamClock.
Proof. split; [intros argv s|intros d s]; cbn; unfold second; lia. Qed.

Definition lab_database (name published : string) : database_file :=
  DatabaseFile name true (Ok ("ClamAV-VDB:21 Sep 2026 08-00 -0000:27784:2076979:90:0f3a:c1:raynman:" +:+ published))
    (Ok (FileStat 1 7 1024 1789999999000000000 1789999999000000000)).

Definition lab_of (published : string) : cached clam_lab :=
  Cached (ClamLab (1790000000 * second) [lab_database "main.cvd" published; lab_database "daily.cld" published] (Err (ProviderError "no reply"))) None.

Definition lab_answer : dict :=
  Eval vm_compute in match (cached_status (lab_of "1789990000")).1 with Ok d => d | Err _ => [] end.

Definition lab_cached : cached clam_lab := Eval vm_compute in (cached_status (lab_of "1789990000")).2.

Lemma lab_served : cached_status (lab_of "1789990000") = (Ok lab_answer, lab_cached).
Proof. vm_compute. reflexivity. Qed.

Lemma cached_status_current_witness :
  get "status" lab_answer = VStr "CURRENT"
  /\ exists w, 1790000000 * second <= w <= lab_now (provider lab_cached) /\ current_at lab_answer w.
Proof.
  split; [reflexivity|].
  exact (proj2 (cached_status_current (lab_of "1789990000") lab_answer lab_cached I lab_served) eq_refl).
Defined.

(** The same host with a system service that answers. *)
Definition lab_with (reply : res string) : clam_lab := ClamLab (1790000000 * second) [] reply.

Definition lab_current (status observed_at : string) : string :=
  dumps (VDict (dlit [("status", VStr status); ("realtime_protection", VStr "NOT_PROVIDED"); ("engine_version", VStr "1.4.3");
               ("definitions_state", VStr "CURRENT"); ("database_age_seconds", VInt 3600); ("observed_at", VStr observed_at)])).

Definition lab_told (reply : res string) : val :=
  match (system_status (lab_with reply)).1 with Ok d => get "status" d | Err _ => VNone end.

Definition lab_text : string := Eval vm_compute in lab_current "CURRENT" "2026-09-21T14:13:20Z".

Lemma lab_believed : exists d, system_status (lab_with (Ok lab_text)) = (Ok d, lab_with (Ok lab_text)) /\ get "status" d = VStr "CURRENT".
Proof. eexists. split; vm_compute; reflexivity. Qed.

Lemma system_status_fails_closed_witness :
  exists d, get "status" d = VStr "CURRENT" /\ reliable_answer lab_text d (1790000000 * second).
Proof.
  destruct (system_status_fails_closed (lab_with (Ok lab_text))) as (d & s' & E & Hd), lab_believed as (d0 & E0 & Hs).
  rewrite E0 in E. injection E as <- <-. exists d0. split; [exact Hs|].
  destruct Hd as [(raw & [= <-] & Ha)|(-> & _)]; [exact Ha|discriminate Hs].
Defined.

Example lab_refusals :
  map lab_told [Err (ProviderError "no reply"); Ok "not JSON"; Ok "[]"; Ok (lab_current "FINE" "2026-09-21T14:13:20Z");
                Ok (lab_current "OUTDATED" "2026-09-21T14:12:49Z"); Ok (lab_current "OUTDATED" "2026-09-21T14:13:21Z");
                Ok (lab_current "OUTDATED" "2026-09-21T14:12:50Z")]
  = [VStr "UNAVAILABLE"; VStr "UNAVAILABLE"; VStr "UNAVAILABLE"; VStr "UNAVAILABLE"; VStr "UNAVAILABLE"; VStr "UNAVAILABLE"; VStr "OUTDATED"].
Proof. vm_compute. reflexivity. Qed.

(** A second question is answered from the cache, with the age of the moment. *)
Example lab_cache_hit :
  match cached_status lab_cached with
  | (Ok d, s) => get "database_age_seconds" d = VInt 10003 /\ provider s = provider lab_cached
  | _ => False
  end.
Proof. vm_compute. by split. Qed.

(** A publication time beyond the year 9999, as in a header that counts
    milliseconds, makes [status] raise although a time ahead of the clock is
    meant to be reported as the state ERROR. *)
Example far_publication_raises :
  (status (provider (lab_of "1790000900"))).1 = Ok (match (status (provider (lab_of "1790000900"))).1 with Ok d => d | _ => [] end)
  /\ get "status" (match (status (provider (lab_of "1790000900"))).1 with Ok d => d | _ => [] end) = VStr "ERROR"
  /\ (status (provider (lab_of "1790000900000"))).1 = Err (ValueError "year is out of range").
Proof. vm_compute. by split_and!. Qed.
