(* ===== verification/UpdateCenter.v ===== *)
(** * The update center: system packages and drivers ([update_center.py],
      [dms_compatibility.py])

    The records of the update center, the queries of external programs, missing
    drivers of essential PCI devices, and the updates that DNF5 offers. The host
    is the class [UpdateHost]: the programs, the DNF5 daemon on the system bus,
    the PCI devices and the files of the service. *)
From S2P Require Import Prelude PyVal PyStr IpAddr Json NetworkRules PyText PyTime ShellSummary Commands ClamAv.

Definition UPDATE_SCHEMA : string := "org.greyward.update/v1".
Definition MAX_HISTORY : nat := 200.
Definition ESSENTIAL_PCI_CLASSES : list string := ["01"; "02"; "03"].
Definition DRIVER_QUERY_FORMAT : string := "%{name}|%{evr}|%{arch}|%{repoid}|%{full_nevra}" +:+ String newline "".
Definition DRIVER_PACKAGE_LIMIT : nat := 32.
Definition tab : ascii := ascii_of_N 9.

(** ** The host *)

(** A directory of [/sys/bus/pci/devices]: its name, the text of an attribute,
    whether [driver] is a link. *)
Record pci_device := PciDevice { sysfs_name : string; attribute : string -> res string; driver_bound : bool }.

(** The two files of the service. *)
Inductive state_file := HistoryFile | PreviousFile.

Class UpdateHost (P : Type) := {
  update_clam :: ClamHost P;
  open_session : act P string;
  list_upgrades : string -> act P (list dict);
  close_session : string -> act P unit;
  pci_devices : P -> res (list pci_device);
  ostree_booted : P -> bool;
  dms_release : P -> bool;
  read_state : state_file -> P -> res string;
  write_state : state_file -> string -> act P unit;
}.

(** ** Records *)

(** [stamp(now())]. *)
Definition provider_state (state reason : string) (observed : Z) (last_successful : option Z) : val :=
  VDict (dlit [("state", VStr state); ("observed_at", VStr (iso observed));
    ("last_successful_at", match last_successful with Some t => VStr (iso t) | None => VNone end); ("reason", VStr reason)]).

(** The arguments of [record] that say what a record is about. *)
Record update_item := UpdateItem {
  u_id : string; u_category : string; u_name : val; u_provider : string; u_source : val; u_current : val; u_available : val;
  u_update : val; u_reboot : string; u_rollback : string; u_signature : string; u_security : string; u_health : val; u_metadata : dict }.

(** [record(...)], at the time of the call. *)
Definition record_at (t : Z) (u : update_item) : dict :=
  dlit [("id", VStr (u_id u)); ("identity", py_or (get "identity" (u_metadata u)) (u_name u)); ("category", VStr (u_category u));
        ("name", u_name u); ("provider", VStr (u_provider u)); ("source", u_source u); ("current_version", u_current u);
        ("available_version", u_available u); ("update_available", u_update u); ("reboot_required", VStr (u_reboot u));
        ("rollback_available", VStr (u_rollback u)); ("signature_state", VStr (u_signature u));
        ("security_relevance", VStr (u_security u)); ("observed_at", VStr (iso t)); ("provider_health", u_health u);
        ("metadata", VDict (u_metadata u))].

(** ** Text of the programs *)

(** [s.split(c, n)]. *)
Fixpoint split_max (n : nat) (c : ascii) (s : string) : list string :=
  match n with
  | O => [s]
  | S n => match partition_at c s with (x, true, y) => x :: split_max n c y | (x, false, _) => [x] end
  end.

(** [installed_rpm_versions()] from the text of the query: later lines win. *)
Definition version_line (line : string) : option ((string * string) * string) :=
  match partition_at tab line with
  | (name, true, version_arch) =>
      if String.eqb name "" || negb (has_char "." version_arch) then None
      else match rev (split "." version_arch) with
           | arch :: rest => Some ((name, arch), join "." (rev rest))
           | [] => None
           end
  | _ => None
  end.

Definition versions : Type := list ((string * string) * string).

Definition rpm_versions (text : string) : versions := rev (omap version_line (splitlines text)).

(** [installed.get((name, arch))]: the last line of a package counts. *)
Definition installed_version (installed : versions) (name arch : string) : option string :=
  snd <$> List.find (fun e => String.eqb e.1.1 name && String.eqb e.1.2 arch) installed.

Record candidate := Candidate { c_name : string; c_evr : val; c_arch : string; c_repo : val; c_nevra : val }.

(** [any(token in name.lower() for token in ("debug", "debuginfo", "debugsource"))]. *)
Definition debug_package (name : string) : bool :=
  existsb (fun t => str_contains t (str_lower name)) ["debug"; "debuginfo"; "debugsource"].

Definition candidate_line (line : string) : option candidate :=
  match split_max 4 "|" line with
  | [name; evr; arch; repo; nevra] =>
      if String.eqb (strip name) "" || String.eqb (strip arch) "" then None
      else if debug_package (strip name) then None
      else Some (Candidate (strip name) (text_or_none (strip evr)) (strip arch) (text_or_none (strip repo)) (text_or_none (strip nevra)))
  | _ => None
  end.

(** ** Devices without a driver *)

Record essential_device := EssentialDevice {
  e_sysfs : string; e_class : string; e_modalias : option string; e_vendor : option string; e_device : option string; e_label : option string }.

(** [_read_sysfs(path)]. *)
Definition read_sysfs (d : pci_device) (name : string) : res (option string) :=
  match attribute d name with
  | Ok s => Ok (Some (strip s))
  | Err (OSError _) => Ok None
  | Err e => Err e
  end.

Definition essential_class (code : option string) : bool :=
  match code with
  | Some c => (4 <=? String.length c)%nat && member (str_lower (str_take 2 (str_drop 2 c))) ESSENTIAL_PCI_CLASSES
  | None => false
  end.

Definition missing_driver (d : pci_device) : res (option essential_device) :=
  class_code ← read_sysfs d "class";
  if negb (essential_class class_code) || driver_bound d then Ok None
  else
    modalias ← read_sysfs d "modalias"; vendor ← read_sysfs d "vendor"; device ← read_sysfs d "device"; label ← read_sysfs d "label";
    Ok (Some (EssentialDevice (sysfs_name d) (default "" class_code) modalias vendor device label)).

(** [essential_pci_devices()]. *)
Definition essential_pci_devices (devices : res (list pci_device)) : res (list essential_device) :=
  match devices with
  | Ok l => omap (M := list) id <$> mapM_res missing_driver (sort_by (fun a b => negb (sysfs_name b <? sysfs_name a)%string) l)
  | Err (OSError _) => Ok []
  | Err e => Err e
  end.

(** [driver_device_name(device)]. *)
Definition nonempty (o : option string) : option string :=
  match o with Some s => if String.eqb s "" then None else Some s | None => None end.

Definition driver_device_name (d : essential_device) : string :=
  match nonempty (e_label d) with
  | Some label => label
  | None => "PCI device " +:+ default "unknown-vendor" (nonempty (e_vendor d)) +:+ ":" +:+ default "unknown-device" (nonempty (e_device d))
  end.

Section update.
Context {P : Type} `{UpdateHost P} `{Host} `{IsoText} `{FloatText}.
Abbreviation M := (act P).

(** [now()]. *)
Definition clock : M Z := gets wall.

Definition record (u : update_item) : M dict := t ← clock; mret (record_at t u).

(** ** Programs *)

(** The first non-empty text, at most 240 characters of it. *)
Definition reason_of (texts : list string) : string :=
  str_take 240 (default "" (List.find (fun t => negb (String.eqb t "")) texts)).

(** [run_text(argv, accepted)]: the text or the reason. *)
Definition run_text (argv : list string) (accepted : list Z) : M (string + string) :=
  present ← gets (which (hd "" argv));
  if negb present then mret (inr "provider command is unavailable")
  else
    r ← run argv;
    mret match r with
         | NotRun kind _ => inr kind
         | Finished code out err =>
             if negb (existsb (Z.eqb code) accepted) then inr (reason_of [strip err; "provider failed"]) else inl out
         end.

(** [run_json(argv, accepted)]. *)
Definition run_json (argv : list string) (accepted : list Z) : M (val + string) :=
  present ← gets (which (hd "" argv));
  if negb present then mret (inr "provider command is unavailable")
  else
    r ← run argv;
    mret match r with
         | NotRun kind _ => inr kind
         | Finished code out err =>
             if negb (existsb (Z.eqb code) accepted)
             then inr (reason_of [strip err; strip out; "provider exited with status " +:+ str_of_Z code])
             else if String.eqb (strip out) "" then inr (reason_of [strip err; "provider returned no data"])
             else match loads out with Ok v => inl v | Err _ => inr "provider returned malformed JSON" end
         end.

(** ** The desktop tuple ([dms_compatibility.py]) *)

Definition VERIFIER : string := "/usr/libexec/greyward-dms-verify".
Definition DESKTOP_NAMES : list string := ["dms-greeter"; "labwc"; "quickshell"; "uwsm"].

Definition version_text (v : val) : bool :=
  match v with
  | VStr s => negb (String.eqb s "")
      && str_forall (fun c => digit_char c || ((65 <=? ord c) && (ord c <=? 90)) || ((97 <=? ord c) && (ord c <=? 122))
                              || has_char c ".+_:~-") s
  | _ => false
  end.

(** [str(subprocess.CalledProcessError(code, argv))]. *)
Definition SIGNALS : list (Z * string) :=
  [(1, "SIGHUP"); (2, "SIGINT"); (3, "SIGQUIT"); (4, "SIGILL"); (5, "SIGTRAP"); (6, "SIGABRT"); (7, "SIGBUS"); (8, "SIGFPE");
   (9, "SIGKILL"); (10, "SIGUSR1"); (11, "SIGSEGV"); (12, "SIGUSR2"); (13, "SIGPIPE"); (14, "SIGALRM"); (15, "SIGTERM");
   (16, "SIGSTKFLT"); (17, "SIGCHLD"); (18, "SIGCONT"); (19, "SIGSTOP"); (20, "SIGTSTP"); (21, "SIGTTIN"); (22, "SIGTTOU");
   (23, "SIGURG"); (24, "SIGXCPU"); (25, "SIGXFSZ"); (26, "SIGVTALRM"); (27, "SIGPROF"); (28, "SIGWINCH"); (29, "SIGIO");
   (30, "SIGPWR"); (31, "SIGSYS"); (34, "SIGRTMIN"); (64, "SIGRTMAX")]%Z.

Definition called_process_text (argv : list string) (code : Z) : string :=
  "Command '" +:+ py_repr (VList (map VStr argv)) +:+ "' " +:+
  (if code <? 0
   then match List.find (fun e => e.1 =? - code) SIGNALS with
        | Some (n, name) => "died with <Signals." +:+ name +:+ ": " +:+ str_of_Z n +:+ ">."
        | None => "died with unknown signal " +:+ str_of_Z (- code) +:+ "."
        end
   else "returned non-zero exit status " +:+ str_of_Z code +:+ ".").

(** [constraints()]: no constraint outside a GREYWARD desktop; else the tuple
    of the verifier, which must name exactly the four packages. *)
Definition desktop_tuple (out : string) : res (list (string * string)) :=
  values ← loads out;
  match values with
  | VDict d =>
      if bool_decide (map fst d = DESKTOP_NAMES) && forallb (fun e => version_text e.2) d
      then Ok (omap (fun e => match e.2 with VStr s => Some (e.1, s) | _ => None end) d)
      else Err (ValueError "Invalid selected DMS compatibility policy")
  | _ => Err (ValueError "Invalid selected DMS compatibility policy")
  end.

Definition constraints : M (list (string * string)) :=
  installed ← gets dms_release;
  if negb installed then mret []
  else
    let argv := [VERIFIER; "--constraints"] in
    r ← run argv;
    match r with
    | NotRun _ message => raise (ProviderError message)
    | Finished code out _ => if code =? 0 then lift (desktop_tuple out) else raise (ProviderError (called_process_text argv code))
    end.

(** [dnf_options()]. *)
Definition dnf_options : M (list string) :=
  values ← constraints;
  mret match values with [] => [] | _ => ["--exclude=" +:+ join "," (map fst values)] end.

(** ** Drivers *)

Definition installed_rpm_versions : M versions :=
  r ← run_text ["rpm"; "-qa"; "--qf"; "%{NAME}" +:+ String tab "%{EPOCHNUM}:%{VERSION}-%{RELEASE}.%{ARCH}\n"] [0; 1];
  mret match r with inl text => rpm_versions text | inr _ => [] end.

(** [dnf5_driver_candidates(modalias)]: the candidates and the error. *)
Definition dnf5_driver_candidates (modalias : option string) : M (list candidate * option string) :=
  match nonempty modalias with
  | None => mret ([], None)
  | Some alias =>
      present ← gets (which "dnf5");
      if negb present then mret ([], Some "DNF5 modalias lookup is unavailable")
      else
        r ← run_text ["dnf5"; "--assumeyes"; "repoquery"; "--available"; "--whatprovides"; "modalias(" +:+ alias +:+ ")";
                      "--latest-limit=1"; "--qf"; DRIVER_QUERY_FORMAT] [0; 1];
        mret match r with inl text => (omap candidate_line (splitlines text), None) | inr error => ([], Some error) end
  end.

(** The first candidate that is not installed. *)
Definition chosen_driver (installed : versions) (candidates : list candidate) : option candidate :=
  List.find (fun c => negb (existsb (fun e => String.eqb e.1.1 (c_name c)) installed) && negb (debug_package (c_name c))) candidates.

Definition driver_item (d : essential_device) (candidates : list candidate) (chosen : option candidate) : update_item :=
  let package := match chosen with Some c => VStr (c_name c) | None => VNone end in
  let evr := match chosen with Some c => c_evr c | None => VNone end in
  let repo := match chosen with Some c => c_repo c | None => VNone end in
  let found := bool_decide (chosen <> None) in
  let reason := if found then "A configured repository provides a matching driver package."
                else match candidates with
                     | [] => "No suitable driver package was found in configured repositories."
                     | _ => "A matching package is already installed; the unbound device may need review."
                     end in
  UpdateItem ("system.driver." +:+ (if String.eqb (e_sysfs d) "" then "unknown" else e_sysfs d)) "system" (VStr (driver_device_name d)) "DNF5"
    repo VNone evr (VBool found) (if found then "REQUIRED" else "UNKNOWN") "UNKNOWN" "UNKNOWN" "UNKNOWN" VNone
    (dlit [("driver_support", VBool true); ("device", VStr (driver_device_name d)); ("sysfs_name", VStr (e_sysfs d));
           ("class_code", VStr (e_class d)); ("modalias", some_text (e_modalias d));
           ("resolution", VStr (if found then "AVAILABLE" else "UNRESOLVED")); ("reason", VStr reason); ("package_name", package);
           ("package_version", evr); ("package_arch", match chosen with Some c => VStr (c_arch c) | None => VNone end); ("package_repo", repo)]).

(** [essential_driver_records(installed)]: the records and the errors of the
    lookups. *)
Definition driver_record (installed : versions) (d : essential_device) : M (dict * option string) :=
  found ← dnf5_driver_candidates (e_modalias d);
  r ← record (driver_item d found.1 (chosen_driver installed found.1));
  mret (r, found.2).

Definition essential_driver_records (installed : versions) : M (list dict * list string) :=
  devices ← (l ← gets pci_devices; lift (essential_pci_devices l));
  found ← collect (driver_record installed) devices;
  mret (map fst found, omap snd found).

Definition metadata_of_record (r : dict) : dict := dict_or_empty (get "metadata" r).

(** [essential_driver_package_names()]. *)
Definition essential_driver_package_names : M (list val) :=
  installed ← installed_rpm_versions;
  found ← essential_driver_records installed;
  let offered := List.filter (fun r => is_true (get "update_available" r) && truthy (get "package_name" (metadata_of_record r))) found.1 in
  mret (take DRIVER_PACKAGE_LIMIT (map (fun r => get "package_name" (metadata_of_record r)) offered)).

(** ** Updates of DNF5 *)

Definition remote_error (e : exn) : bool := match e with ProviderError _ => true | _ => false end.

(** [dnf5_daemon_upgrades()]: the session is closed in any case. *)
Definition dnf5_daemon_upgrades : M (list dict) :=
  path ← open_session;
  finally (list_upgrades path) (catch (close_session path) remote_error (fun _ => mret tt)).

(** The advisories of a version: those whose text ends with it. *)
Definition advisory_matches (suffix : string) (v : val) : res bool :=
  d ← as_dict v;
  match getd "nevra" (VStr "") d with VStr s => Ok (endswith suffix s) | _ => Err AttributeError end.

Fixpoint filter_res {A} (f : A -> res bool) (l : list A) : res (list A) :=
  match l with
  | [] => Ok []
  | x :: l => b ← f x; rest ← filter_res f l; Ok (if b : bool then x :: rest else rest)
  end.

Definition text_key (v : val) : res (option string) :=
  if hashable v then Ok (match v with VStr s => Some s | _ => None end) else Err TypeError.

(** A constrained package is held unless the version is that of the tuple. *)
Definition held_back (tuple : list (string * string)) (name available : val) : res bool :=
  key ← text_key name;
  Ok (match key ≫= (fun n => dget n tuple) with Some v => negb (py_eq available (VStr v)) | None => false end).

(** What is known besides the upgrade itself. *)
Record dnf_facts := DnfFacts {
  d_tuple : list (string * string); d_advisories : list val; d_transactions : list val; d_installed : versions; d_health : val }.

Definition upgrade_item (facts : dnf_facts) (upgrade : val) : res update_item :=
  item ← as_dict upgrade;
  let name := py_or (get "name" item) (VStr "System package") in
  let arch := py_or (get "arch" item) (VStr "unknown") in
  let available := py_or (get "evr" item) (get "available_version" item) in
  held ← held_back (d_tuple facts) name available;
  advisories ← filter_res (advisory_matches ("-" +:+ py_str available +:+ "." +:+ py_str arch)) (d_advisories facts);
  let security := existsb (fun a => match a with VDict d => is_str "security" (get "type" d) | _ => false end) advisories in
  n ← text_key name; a ← text_key arch;
  let current := match n, a with
                 | Some n, Some a => some_text (installed_version (d_installed facts) n a)
                 | _, _ => VNone
                 end in
  download ← py_int (py_or (get "download_size" item) (VInt 0));
  install ← py_int (py_or (get "install_size" item) (VInt 0));
  Ok (UpdateItem ("system.dnf5." +:+ py_str name +:+ "." +:+ py_str arch) "system" name "DNF5"
        (py_or (get "repository" item) (get "repo_id" item)) current available (VBool (negb held)) "UNKNOWN" "UNKNOWN" "UNKNOWN"
        (if security then "SECURITY_FIX" else "UNKNOWN") (d_health facts)
        (dlit [("arch", arch); ("compatibility_hold", VBool held);
               ("compatibility_reason", if held : bool then VStr "Requires a tested GREYWARD desktop tuple" else VNone);
               ("download_size", VInt download); ("install_size", VInt install); ("advisories", VList advisories);
               ("history_count", VInt (Z.of_nat (length (d_transactions facts)))); ("last_transaction", hd VNone (d_transactions facts))])).

(** Without an upgrade, the release of the system. *)
Definition system_item (facts : dnf_facts) : update_item :=
  UpdateItem "system.dnf5" "system" (VStr "Fedora system") "DNF5" VNone
    (some_text (installed_version (d_installed facts) "fedora-release" "x86_64")) VNone (VBool false)
    "UNKNOWN" "UNKNOWN" "UNKNOWN" "UNKNOWN" (d_health facts) (dlit [("history_count", VInt (Z.of_nat (length (d_transactions facts))))]).

Definition upgrade_records (facts : dnf_facts) (upgrades : list val) : M (list dict) :=
  records ← collect (fun v => u ← lift (upgrade_item facts v); record u) (take 512 upgrades);
  match records with [] => r ← record (system_item facts); mret [r] | _ => mret records end.

Definition is_held (r : dict) : bool := truthy (get "compatibility_hold" (metadata_of_record r)).

Definition dnf_health (observed : Z) (records : list dict) (lookup_errors : list string) : val :=
  let held := length (List.filter is_held records) in
  match lookup_errors with
  | [] =>
      if (0 <? held)%nat
      then provider_state "AVAILABLE" ("DNF5 metadata collected; " +:+ str_of_Z (Z.of_nat held)
             +:+ " desktop dependencies held for a tested GREYWARD tuple") observed (Some observed)
      else provider_state "AVAILABLE" "DNF5 update metadata collected" observed (Some observed)
  | _ => provider_state "DEGRADED" (str_take 240 (join "; " (sorted_set lookup_errors))) observed (Some observed)
  end.

Definition degraded (reason : string) (observed : Z) : val * list dict := (provider_state "DEGRADED" reason observed None, []).

Definition list_of (v : val + string) : list val := match v with inl (VList l) => l | _ => [] end.

(** The upgrades of the daemon or, without an answer, of the program. *)
Definition offered_upgrades : M (val + string) :=
  catch (l ← dnf5_daemon_upgrades; mret (inl (VList (map VDict l)))) (fun _ => true)
    (fun _ => r ← run_json ["dnf5"; "--assumeyes"; "check-upgrade"; "--json"] [0; 100];
              mret match r with
                   | inr e => inr e
                   | inl (VDict d) => inl (get "upgrades" d)
                   | inl _ => inl VNone
                   end).

(** The records of the upgrades: everything else is read first. *)
Definition dnf5_records (observed : Z) (tuple : list (string * string)) (upgrades : list val) : M (val * list dict) :=
  advisories ← run_json ["dnf5"; "--assumeyes"; "updateinfo"; "list"; "--json"] [0];
  history ← run_json ["dnf5"; "history"; "list"; "--json"] [0];
  installed ← installed_rpm_versions;
  drivers ← essential_driver_records installed;
  let health := provider_state "AVAILABLE" "DNF5 update metadata collected" observed (Some observed) in
  packages ← upgrade_records (DnfFacts tuple (list_of advisories) (list_of history) installed health) upgrades;
  let records := packages ++ drivers.1 in
  let health := dnf_health observed records drivers.2 in
  mret (health, map (dset "provider_health" health) records).

(** An [OSError], a [ValueError] or a [SubprocessError]. *)
Definition constraint_error (e : exn) : bool := is_value_error e || is_os_error e || remote_error e.

(** [dnf5()]. *)
Definition dnf5 : M (val * list dict) :=
  observed ← clock;
  tuple ← catch (c ← constraints; mret (inl c)) constraint_error (fun e => mret (inr (exn_text e)));
  match tuple with
  | inr text => mret (degraded ("Desktop compatibility policy unavailable: " +:+ text) observed)
  | inl tuple =>
      present ← gets (which "dnf5");
      if negb present then mret (provider_state "UNAVAILABLE" "dnf5 command is unavailable" observed None, [])
      else
        upgrades ← offered_upgrades;
        match upgrades with
        | inr error => mret (degraded error observed)
        | inl (VList upgrades) => dnf5_records observed tuple upgrades
        | inl _ => mret (degraded "DNF5 returned no upgrade list" observed)
        end
  end.
End update.
