(* ===== verification/UpdateProviders.v ===== *)
(** * The update center: the other providers ([update_center.py])

    The deployments of rpm-ostree, the applications of Flatpak, the releases of
    fwupd and the signature databases of ClamAV as records of the update center. *)
From S2P Require Import Prelude PyVal PyStr IpAddr Json NetworkRules PyText PyTime ShellSummary Commands ClamAv UpdateCenter.

(** ** Values read from the programs *)

(** The items of a [for] loop over a JSON value. *)
Fixpoint characters (s : string) : list val := match s with "" => [] | String c r => VStr (String c "") :: characters r end.

Definition iter_items (v : val) : res (list val) :=
  match v with
  | VList l => Ok l
  | VStr s => Ok (characters s)
  | VDict d => Ok (map (fun e => VStr e.1) d)
  | _ => Err TypeError
  end.

(** [v[:n]]. *)
Definition slice_items (n : nat) (v : val) : res (list val) :=
  match v with
  | VList l => Ok (take n l)
  | VStr s => Ok (characters (str_take n s))
  | VDict _ => Err (KeyError ("slice(None, " +:+ str_of_Z (Z.of_nat n) +:+ ", None)"))
  | _ => Err TypeError
  end.

(** [next((item for item in l if p(item)), None)]. *)
Fixpoint next_item (p : dict -> bool) (l : list val) : res (option dict) :=
  match l with
  | [] => Ok None
  | v :: l => d ← as_dict v; if p d then Ok (Some d) else next_item p l
  end.

(** [d.get(a) or d.get(b)]. *)
Definition either (a b : string) (d : dict) : val := py_or (get a d) (get b d).

Definition either_list (a b : string) (d : dict) : val := py_or (either a b d) (VList []).

(** ** rpm-ostree *)

Definition booted (d : dict) : bool := truthy (get "booted" d).

Definition deployment_row (v : val) : res val :=
  d ← as_dict v;
  Ok (VDict (dlit [("checksum", get "checksum" d); ("version", get "version" d); ("booted", VBool (booted d))])).

Definition deployment_item (deployments : list val) (running pending : option dict) (rows : list val) (health : val) : update_item :=
  let pick k := py_or (get k (default [] running)) (get k (default [] pending)) in
  let version d := either "version" "checksum" (default [] d) in
  let waiting := bool_decide (pending <> None) in
  UpdateItem "system.rpm-ostree" "system" (VStr "GREYWARD OS") "rpm-ostree" (pick "origin") (version running) (version pending)
    (VBool waiting) (if waiting then "REQUIRED" else "NOT_REQUIRED") (if (1 <? length deployments)%nat then "AVAILABLE" else "UNKNOWN")
    "UNKNOWN" "UNKNOWN" health
    (dlit [("deployment_count", VInt (Z.of_nat (length deployments))); ("pending_deployment", VBool waiting); ("deployments", VList rows)]).

(** The deployment that is shown as an update: one that is staged, else any one
    that is not booted. *)
Definition pending_deployment (deployments : list val) : res (option dict) :=
  staged ← next_item (fun d => negb (booted d) && truthy (get "staged" d)) deployments;
  match staged with
  | Some d => Ok (Some d)
  | None => if (1 <? length deployments)%nat then next_item (fun d => negb (booted d)) deployments else Ok None
  end.

Definition ostree_item (payload : val) (health : val) : res update_item :=
  status ← as_dict payload;
  deployments ← iter_items (py_or (get "deployments" status) (VList []));
  running ← next_item booted deployments;
  pending ← pending_deployment deployments;
  rows ← mapM_res deployment_row (take 8 deployments);
  Ok (deployment_item deployments running pending rows health).

(** ** Flatpak *)

Definition FLATPAK_COLUMNS : string := "--columns=application,name,version,origin,arch,branch,runtime".

Record flatpak_app := FlatpakApp {
  fa_id : string; fa_name : string; fa_version : val; fa_origin : val; fa_arch : val; fa_branch : val; fa_runtime : val; fa_scope : string }.

Definition field (n : nat) (fields : list string) : string := strip (nth n fields "").

Definition flatpak_line (scope line : string) : option flatpak_app :=
  let fields := split tab line in
  if (length fields <? 3)%nat || String.eqb (field 0 fields) "" then None
  else
    let optional n := text_or_none (field n fields) in
    Some (FlatpakApp (field 0 fields) (if String.eqb (field 1 fields) "" then field 0 fields else field 1 fields)
            (optional 2%nat) (optional 3%nat) (optional 4%nat) (optional 5%nat) (optional 6%nat) scope).

(** [parse_flatpak_lines(text, scope)]. *)
Definition parse_flatpak_lines (text scope : string) : list flatpak_app := omap (flatpak_line scope) (take 512 (splitlines text)).

(** [updates.get((scope, app_id))]: of two lines the last counts. *)
Definition update_of (updates : list flatpak_app) (app : flatpak_app) : option flatpak_app :=
  List.find (fun u => String.eqb (fa_scope u) (fa_scope app) && String.eqb (fa_id u) (fa_id app)) (rev updates).

Definition flatpak_item (updates : list flatpak_app) (health : val) (app : flatpak_app) : update_item :=
  let update := update_of updates app in
  UpdateItem ("application.flatpak." +:+ fa_scope app +:+ "." +:+ fa_id app) "application" (VStr (fa_name app)) "Flatpak" (fa_origin app)
    (fa_version app) (match update with Some u => fa_version u | None => VNone end) (VBool (bool_decide (is_Some update)))
    "UNKNOWN" "UNKNOWN" "UNKNOWN" "UNKNOWN" health
    (dlit [("app_id", VStr (fa_id app)); ("scope", VStr (fa_scope app)); ("arch", fa_arch app); ("branch", fa_branch app);
           ("runtime", fa_runtime app); ("remote", fa_origin app); ("publisher_verification", VStr "UNKNOWN")]).

(** What was read of the scopes so far: applications, updates and errors. *)
Record flatpak_state := FlatpakState { fs_apps : list flatpak_app; fs_updates : list flatpak_app; fs_errors : list string }.

(** ** fwupd *)

(** [explicit_reboot_requirement(release, device)]: the answer of the first key
    whose value is one of the known forms. *)
Definition REBOOT_KEYS : list string := ["NeedsReboot"; "needs_reboot"; "RequiresReboot"; "requires_reboot"].

Definition binary_number (v : val) : option bool :=
  match num_of v with
  | Some n => if num_eqb n (NFin 0 0) then Some false else if num_eqb n (NFin 1 0) then Some true else None
  | None => None
  end.

Section firmware.
Context `{FloatText}.

Definition reboot_value (v : val) : option string :=
  match binary_number v with
  | Some b => Some (if b then "REQUIRED" else "NOT_REQUIRED")
  | None =>
      let text := str_lower (strip (py_str v)) in
      if member text ["true"; "yes"; "required"; "1"] then Some "REQUIRED"
      else if member text ["false"; "no"; "not_required"; "none"; "0"] then Some "NOT_REQUIRED" else None
  end.

Definition explicit_reboot_requirement (release device : dict) : string :=
  let values := omap (fun k => dget k release) REBOOT_KEYS ++ omap (fun k => dget k device) REBOOT_KEYS in
  hd "UNKNOWN" (omap reboot_value values).

Definition RELEASE_KEYS : list string := ["CVE"; "Cves"; "Issues"; "Description"; "TrustFlags"].

Definition release_metadata (release : dict) : dict :=
  dlit (omap (fun k => match dget k release with Some v => Some (k, v) | None => None end) RELEASE_KEYS).

Definition release_item (device : dict) (health : val) (v : val) : res update_item :=
  release ← as_dict v;
  let metadata := release_metadata release in
  let id := py_or (either "DeviceId" "device_id" device) (getd "Name" (VStr "device") device) in
  let relevant := truthy (get "CVE" metadata) || truthy (get "Cves" metadata) || truthy (get "Issues" metadata) in
  Ok (UpdateItem ("firmware.fwupd." +:+ py_str id) "firmware" (py_or (either "Name" "name" device) (VStr "Firmware device")) "fwupd"
        (either "Vendor" "vendor" release) (either "Version" "version" device) (either "Version" "version" release) (VBool true)
        (explicit_reboot_requirement release device) "UNKNOWN"
        (if is_str "verified" (get "TrustFlags" release) then "VERIFIED" else "UNKNOWN") (if relevant then "SECURITY_FIX" else "UNKNOWN") health
        (dset "urgent" (getd "IsUrgent" (get "is_urgent" release) release) metadata)).

Definition firmware_item (health : val) (v : val) : res update_item :=
  device ← as_dict v;
  let id := py_or (either "DeviceId" "device_id" device) (py_or (get "Name" device) (VStr "device")) in
  Ok (UpdateItem ("firmware.fwupd.device." +:+ py_str id) "firmware" (py_or (either "Name" "name" device) (VStr "Firmware device")) "fwupd"
        (either "Vendor" "vendor" device) (either "Version" "version" device) VNone (VBool false) "UNKNOWN" "UNKNOWN" "UNKNOWN" "UNKNOWN" health
        (dlit [("device_id", id); ("plugin", either "Plugin" "plugin" device); ("flags", either_list "Flags" "flags" device)])).
End firmware.

(** ** ClamAV *)

Definition text_or (v : val) (other : string) : string := match v with VStr s => if String.eqb s "" then other else s | _ => other end.

Definition clam_health (value : dict) (observed : Z) : val :=
  let status := get "status" value in
  if is_str "UNAVAILABLE" status
  then provider_state "UNAVAILABLE" (text_or (get "detail" value) (text_or (get "update_failure_state" value) "ClamAV database unavailable"))
         observed None
  else if in_strs ["INITIALIZING"; "UPDATING"; "OUTDATED"] status
  then provider_state "DEGRADED" (text_or (get "detail" value) "ClamAV definitions are not ready") observed None
  else if truthy (get "update_failure_state" value)
  then provider_state "DEGRADED" (str_take 240 (text_or (get "update_failure_state" value) "")) observed None
  else provider_state "AVAILABLE" "ClamAV database status collected" observed (Some observed).

Definition clam_item (value : dict) (health : val) : update_item :=
  UpdateItem "security.clamav-database" "security" (VStr "ClamAV signature database") "freshclam/ClamAV" VNone (get "database_version" value)
    VNone VNone "NOT_REQUIRED" "UNKNOWN" "UNKNOWN" "UNKNOWN" health
    (dlit (map (fun k => (k, get k value))
       ["database_age_seconds"; "last_successful_update"; "engine_version"; "status"; "update_service_state"])).

Section providers.
Context {P : Type} `{UpdateHost P} `{Host} `{IsoText} `{FloatText}.
Abbreviation M := (act P).

(** [rpm_ostree()]. *)
Definition rpm_ostree : M (val * list dict) :=
  observed ← clock;
  r ← run_json ["rpm-ostree"; "status"; "--json"] [0];
  match r with
  | inr error => mret (provider_state "UNAVAILABLE" error observed None, [])
  | inl payload =>
      let health := provider_state "AVAILABLE" "rpm-ostree status collected" observed (Some observed) in
      u ← lift (ostree_item payload health);
      r ← record u;
      mret (health, [r])
  end.

(** One scope of [flatpak()]. *)
Definition flatpak_scope (state : flatpak_state) (scope : string) : M flatpak_state :=
  let flag := "--" +:+ scope in
  listing ← run_text ["flatpak"; "list"; "--app"; flag; FLATPAK_COLUMNS] [0; 1];
  let state := match listing with
               | inl text => FlatpakState (fs_apps state ++ parse_flatpak_lines text scope) (fs_updates state) (fs_errors state)
               | inr e => FlatpakState (fs_apps state) (fs_updates state) (fs_errors state ++ [scope +:+ ": " +:+ e])
               end in
  updates ← run_text ["flatpak"; "remote-ls"; "--updates"; "--app"; flag; FLATPAK_COLUMNS] [0];
  mret match updates with
       | inl text => FlatpakState (fs_apps state) (fs_updates state ++ parse_flatpak_lines text scope) (fs_errors state)
       | inr e => FlatpakState (fs_apps state) (fs_updates state) (fs_errors state ++ [scope +:+ " updates: " +:+ e])
       end.

(** [flatpak()]. *)
Definition flatpak : M (val * list dict) :=
  observed ← clock;
  present ← gets (which "flatpak");
  if negb present then mret (provider_state "UNAVAILABLE" "flatpak command is unavailable" observed None, [])
  else
    user ← flatpak_scope (FlatpakState [] [] []) "user";
    all ← flatpak_scope user "system";
    let text := str_take 240 (join "; " (fs_errors all)) in
    match fs_apps all, fs_errors all with
    | [], _ :: _ => mret (degraded text observed)
    | apps, errors =>
        let health := match errors with
                      | [] => provider_state "AVAILABLE" "Flatpak application state collected" observed (Some observed)
                      | _ => provider_state "DEGRADED" text observed (Some observed)
                      end in
        records ← collect (fun app => record (flatpak_item (fs_updates all) health app)) (take 512 apps);
        mret (health, records)
    end.

(** The releases fwupd offers, at most 16 of at most 128 devices. *)
Definition release_record (device : dict) (observed : Z) (release : val) : M dict :=
  u ← lift (release_item device (provider_state "AVAILABLE" "fwupd update metadata collected" observed (Some observed)) release);
  record u.

Definition device_releases (observed : Z) (v : val) : M (list dict) :=
  device ← lift (as_dict v);
  releases ← lift (slice_items 16 (either_list "Releases" "releases" device));
  collect (release_record device observed) releases.

Definition firmware_record (observed : Z) (device : val) : M dict :=
  u ← lift (firmware_item (provider_state "AVAILABLE" "fwupd device metadata collected" observed (Some observed)) device);
  record u.

Definition firmware_devices (observed : Z) : M (list dict * option string) :=
  r ← run_json ["fwupdmgr"; "get-devices"; "--json"] [0];
  let '(payload, error) := match r with inl v => (v, None) | inr e => (VNone, Some e) end in
  known ← lift (as_dict (py_or payload (VDict [])));
  devices ← lift (slice_items 128 (either_list "Devices" "devices" known));
  records ← collect (firmware_record observed) devices;
  mret (records, error).

(** [fwupd()]. *)
Definition fwupd : M (val * list dict) :=
  observed ← clock;
  r ← run_json ["fwupdmgr"; "get-updates"; "--json"] [0];
  match r with
  | inr error =>
      present ← gets (which "fwupdmgr");
      mret (provider_state (if present : bool then "DEGRADED" else "UNAVAILABLE") error observed None, [])
  | inl payload =>
      answer ← lift (as_dict payload);
      devices ← lift (slice_items 128 (either_list "Devices" "devices" answer));
      found ← collect (device_releases observed) devices;
      let health := provider_state "AVAILABLE" "fwupd update metadata collected" observed (Some observed) in
      match concat found with
      | [] =>
          known ← firmware_devices observed;
          match known with
          | ([], Some error) => mret (degraded error observed)
          | ([], None) =>
              r ← record (UpdateItem "firmware.fwupd" "firmware" (VStr "Firmware") "fwupd" VNone VNone VNone (VBool false) "UNKNOWN" "UNKNOWN"
                            "UNKNOWN" "UNKNOWN"
                            (provider_state "AVAILABLE" "fwupd reports no devices or available updates" observed (Some observed)) []);
              mret (health, [r])
          | (records, _) => mret (health, records)
          end
      | records => mret (health, records)
      end
  end.

(** [freshclam()]: a failure of the status becomes data. *)
Definition freshclam : M (val * list dict) :=
  observed ← clock;
  value ← catch (d ← status; mret (inl d)) (fun _ => true) (fun e => mret (inr e));
  match value with
  | inr e => mret (degraded ("ClamAV status failed: " +:+ exn_name e) observed)
  | inl value =>
      let health := clam_health value observed in
      r ← record (clam_item value health);
      mret (health, [r])
  end.
End providers.

Example flatpak_lines :
  let row l := join (String tab "") l in
  let nl := String newline "" in
  map (fun a => (fa_id a, fa_name a, fa_version a, fa_origin a))
    (parse_flatpak_lines (row ["org.example.App"; ""; "1.2"; "flathub"; "x86_64"] +:+ nl +:+ row [" "; "No id"; "3"] +:+ nl
                          +:+ row ["short"; "two"] +:+ nl +:+ row ["b"; "B"; ""]) "user")
  = [("org.example.App", "org.example.App", VStr "1.2", VStr "flathub"); ("b", "B", VNone, VNone)].
Proof. vm_compute. reflexivity. Qed.

(** * The update center: history and snapshot ([update_center.py])

    The transitions between the versions of two snapshots, the file of the last
    200 of them, and the snapshot that joins the providers. *)

Section history.
Context {P : Type} `{UpdateHost P} `{Host} `{IsoText} `{FloatText}.
Abbreviation M := (act P).

(** [normalize_history_version(value, architecture)]. *)
Definition normalize_history_version (value architecture : val) : option string :=
  match value with
  | VNone => None
  | _ =>
      let text := strip (py_str value) in
      if String.eqb text "" then None
      else Some (if truthy architecture then removesuffix ("." +:+ py_str architecture) text else text)
  end.

(** [load_history()], [load_previous_records()]. *)
Definition load_list (f : state_file) (s : P) : res (list val) :=
  match read_state f s with
  | Ok text => match loads text with Ok (VList l) => Ok l | _ => Ok [] end
  | Err (OSError _) => Ok []
  | Err e => Err e
  end.

(** [{item.get("id"): item for item in previous}]: the last of several. *)
Definition previous_entry (v : val) : res (option string * dict) :=
  d ← as_dict v; key ← text_key (get "id" d); Ok (key, d).

Definition previous_of (old : list (option string * dict)) (id : string) : option dict :=
  snd <$> List.find (fun e => bool_decide (e.1 = Some id)) (rev old).

(** [(item.get("metadata") or {})]. *)
Definition metadata_dict (item : dict) : res dict := as_dict (py_or (get "metadata" item) (VDict [])).

Definition history_result (metadata : dict) : string :=
  let result := str_upper (py_str (py_or (get "history_result" metadata) (VStr "UNKNOWN"))) in
  if member result ["SUCCESS"; "FAILURE"; "UNKNOWN"] then result else "UNKNOWN".

(** The entry of a record whose version changed since the last snapshot. *)
Definition history_entry (r metadata : dict) (previous_version new_version : string) : dict :=
  dlit [("record_id", get "id" r); ("identity", py_or (either "identity" "name" r) (get "id" r)); ("category", get "category" r);
        ("name", get "name" r); ("provider", get "provider" r); ("previous_version", VStr previous_version);
        ("new_version", VStr new_version); ("timestamp", get "observed_at" r); ("source", get "source" r);
        ("result", VStr (history_result metadata)); ("provider_transaction_id", either "transaction_id" "history_id" metadata)].

Definition transition (before : option dict) (r : dict) : res (option dict) :=
  metadata ← metadata_dict r;
  let architecture := either "arch" "architecture" metadata in
  let old := match before with Some b => normalize_history_version (get "current_version" b) architecture | None => None end in
  Ok (match nonempty old, nonempty (normalize_history_version (get "current_version" r) architecture) with
      | Some a, Some b => if String.eqb a b then None else Some (history_entry r metadata a b)
      | _, _ => None
      end).

(** [update_history(previous, records)]: a failure to write is ignored. *)
Definition write_list (f : state_file) (l : list val) : M unit :=
  catch (write_state f (dumps (VList l))) is_os_error (fun _ => mret tt).

Definition update_history (previous : list val) (records : list dict) : M (list val) :=
  history ← (l ← gets (load_list HistoryFile); lift l);
  old ← lift (mapM_res previous_entry previous);
  entries ← lift (mapM_res (fun r => transition (previous_of old (py_str (get "id" r))) r) records);
  let history := last_n MAX_HISTORY (history ++ map VDict (omap (M := list) id entries)) in
  _ ← write_list HistoryFile history;
  mret history.

(** [selected_system_provider()]. *)
Definition selected_system_provider : M (string * M (val * list dict)) :=
  ostree ← gets ostree_booted;
  mret (if ostree : bool then ("rpm-ostree", rpm_ostree) else ("DNF5", dnf5)).

(** [snapshot()]. *)
Definition providers_of (system : string * M (val * list dict)) : list (string * M (val * list dict)) :=
  [system; ("Flatpak", flatpak); ("fwupd", fwupd); ("freshclam/ClamAV", freshclam)].

Definition snapshot : M dict :=
  previous ← (l ← gets (load_list PreviousFile); lift l);
  system ← selected_system_provider;
  states ← collect (fun p => r ← p.2; mret (p.1, r)) (providers_of system);
  let records := concat (map (fun s => s.2.2) states) in
  history ← update_history previous records;
  _ ← write_list PreviousFile (map VDict records);
  generated ← clock;
  mret (dlit [("schema", VStr UPDATE_SCHEMA); ("generated_at", VStr (iso generated));
              ("providers", VDict (dlit (map (fun s => (s.1, s.2.1)) states))); ("records", VList (map VDict records));
              ("history", VList history)]).
End history.
