(* ===== verification/UpdateClaims.v ===== *)
(** * The update center: theorems

    The snapshot only runs queries; the history records the version changes
    between snapshots and nothing else; desktop packages are offered only in the
    version of their tuple; drivers are offered only if they are new. *)
From S2P Require Import Prelude PyVal PyStr IpAddr Json NetworkRules PyText PyTime ShellSummary Commands ClamAv UpdateCenter UpdateProviders.

(** ** Programs that only read *)

(** The commands of the programs that answer a question, without their
    options, and the options that ask one. *)
Definition QUERIES : list (list string) :=
  [["dnf5"; "check-upgrade"]; ["dnf5"; "repoquery"]; ["dnf5"; "updateinfo"; "list"]; ["dnf5"; "history"; "list"];
   ["rpm-ostree"; "status"]; ["flatpak"; "list"]; ["flatpak"; "remote-ls"]; ["fwupdmgr"; "get-updates"]; ["fwupdmgr"; "get-devices"];
   ["systemctl"; "is-active"]; ["/usr/bin/dnf5"; "history"; "list"]].

Definition QUERY_OPTIONS : list (string * string) :=
  [("rpm", "-qa"); ("clamscan", "--version"); ("journalctl", "-u"); (VERIFIER, "--constraints")].

Fixpoint starts_with (q l : list string) : bool :=
  match q, l with
  | [], _ => true
  | x :: q, y :: l => String.eqb x y && starts_with q l
  | _, [] => false
  end.

Definition read_only (argv : list string) : bool :=
  existsb (fun q => starts_with q (List.filter (fun w => negb (startswith "-" w)) argv)) QUERIES
  || existsb (fun q => starts_with [q.1; q.2] argv) QUERY_OPTIONS.

Section claims.
Context {P : Type} `{UpdateHost P} `{Host} `{IsoText} `{FloatText}.

(** A relation on the host that is kept by the queries, by the bus calls that
    list the upgrades and by the two files of the service. *)
Class Observing (R : P -> P -> Prop) : Prop := {
  observing_order :: PreOrder R;
  observing_run : forall argv, read_only argv = true -> respects R (run argv);
  observing_directory : forall d, respects R (directory d);
  observing_open : respects R open_session;
  observing_list : forall path, respects R (list_upgrades path);
  observing_close : forall path, respects R (close_session path);
  observing_write : forall f text, respects R (write_state f text);
}.

Section observe.
Context (R : P -> P -> Prop) `{!Observing R}.

Create HintDb observe.
#[local] Hint Extern 1 (read_only _ = true) => reflexivity : observe.
#[local] Hint Resolve observing_run observing_directory observing_open observing_list observing_close observing_write : observe.

(** Descends to the operations of the host. *)
Ltac observe :=
  repeat first
    [ match goal with |- PreOrder _ => exact observing_order | |- read_only _ = true => reflexivity end
    | solve [auto with observe nocore]
    | apply respects_ret | apply respects_lift | apply respects_raise | apply respects_gets
    | apply respects_bind; [exact observing_order | |intros ?] | apply respects_catch; [exact observing_order | |intros ?]
    | apply respects_finally; [exact observing_order | |] | apply respects_collect; [exact observing_order|intros ? ?]
    | match goal with
      | |- respects _ (match ?x with _ => _ end) => destruct x
      | |- respects _ (let '_ := ?x in _) => destruct x
      end ].

Lemma record_observes u : respects R (record u).
Proof. unfold record, clock. observe. Qed.

#[local] Hint Resolve record_observes : observe.

Lemma run_text_observes argv accepted : read_only argv = true -> respects R (run_text argv accepted).
Proof. intros Hq. unfold run_text. observe. Qed.

Lemma run_json_observes argv accepted : read_only argv = true -> respects R (run_json argv accepted).
Proof. intros Hq. unfold run_json. observe. Qed.

#[local] Hint Resolve run_text_observes run_json_observes : observe.

(** *** ClamAV *)

Lemma service_observes services : respects R (service_state services).
Proof.
  induction services as [|x services IH]; cbn [service_state]; observe; assumption.
Qed.

Lemma database_files_observe : respects R _database_files.
Proof. unfold _database_files. induction DATABASE_DIRS as [|d ds IH]; cbn [files_in]; observe; assumption. Qed.

#[local] Hint Resolve service_observes database_files_observe : observe.

Lemma status_observes : respects R status.
Proof.
  unfold status, measured, database_metadata, _version, _updater_failure. observe.
Qed.

(** *** Packages and drivers *)

Lemma constraints_observe : respects R constraints.
Proof. unfold constraints. observe. Qed.

Lemma installed_observe : respects R installed_rpm_versions.
Proof. unfold installed_rpm_versions. observe. Qed.

Lemma candidates_observe modalias : respects R (dnf5_driver_candidates modalias).
Proof. unfold dnf5_driver_candidates. observe. Qed.

#[local] Hint Resolve status_observes constraints_observe installed_observe candidates_observe : observe.

Lemma drivers_observe installed : respects R (essential_driver_records installed).
Proof. unfold essential_driver_records, driver_record. observe. Qed.

Lemma upgrades_observe : respects R offered_upgrades.
Proof. unfold offered_upgrades, dnf5_daemon_upgrades. observe. Qed.

#[local] Hint Resolve drivers_observe upgrades_observe : observe.

Lemma dnf5_records_observe observed tuple upgrades : respects R (dnf5_records observed tuple upgrades).
Proof. unfold dnf5_records, upgrade_records. observe. Qed.

#[local] Hint Resolve dnf5_records_observe : observe.

Lemma dnf5_observes : respects R dnf5.
Proof. unfold dnf5, clock. observe. Qed.

(** *** The other providers *)

Lemma ostree_observes : respects R rpm_ostree.
Proof. unfold rpm_ostree, clock. observe. Qed.

Lemma flatpak_scope_observes st scope : member scope ["user"; "system"] = true -> respects R (flatpak_scope st scope).
Proof.
  cbn [member existsb]. intros Hs.
  assert (scope = "user" \/ scope = "system") as [-> | ->].
  { destruct (String.eqb_spec scope "user"); [by left|]. destruct (String.eqb_spec scope "system"); [by right|done]. }
  all: unfold flatpak_scope; observe.
Qed.

Lemma flatpak_observes : respects R flatpak.
Proof. unfold flatpak, clock. observe; by apply flatpak_scope_observes. Qed.

Lemma fwupd_observes : respects R fwupd.
Proof.
  unfold fwupd, clock, firmware_devices, device_releases, release_record, firmware_record. observe.
Qed.

Lemma freshclam_observes : respects R freshclam.
Proof. unfold freshclam, clock. observe. Qed.

#[local] Hint Resolve dnf5_observes ostree_observes flatpak_observes fwupd_observes freshclam_observes : observe.

Lemma write_list_observes f l : respects R (write_list f l).
Proof. unfold write_list. observe. Qed.

#[local] Hint Resolve write_list_observes : observe.

Lemma history_observes previous records : respects R (update_history previous records).
Proof. unfold update_history. observe. Qed.
#[local] Hint Resolve history_observes : observe.

Lemma providers_observe s system s' p :
  selected_system_provider s = (Ok system, s') -> In p (providers_of system) -> respects R p.2.
Proof.
  unfold selected_system_provider. intros Hs. apply act_bind_Ok in Hs as (ostree & s1 & _ & Hs).
  assert (system = if ostree : bool then ("rpm-ostree", rpm_ostree) else ("DNF5", dnf5)) as ->.
  { unfold mret, act_ret in Hs. destruct ostree; congruence. }
  unfold providers_of. cbn [In]. intros [<-|[<-|[<-|[<-|[]]]]]; [destruct ostree| | |]; cbn [snd]; observe.
Qed.

Lemma snapshot_observes : respects R snapshot.
Proof.
  unfold snapshot. apply respects_bind; [exact observing_order|observe|]. intros previous.
  apply respects_bind_value; [exact observing_order|unfold selected_system_provider; observe|]. intros s system s' Hs.
  apply respects_bind; [exact observing_order| |intros states; unfold clock; observe].
  apply respects_collect; [exact observing_order|]. intros p Hp.
  apply respects_bind; [exact observing_order|by eapply providers_observe|intros r; observe].
Qed.

Lemma driver_names_observe : respects R essential_driver_package_names.
Proof. unfold essential_driver_package_names. observe. Qed.

Lemma dnf_options_observe : respects R dnf_options.
Proof. unfold dnf_options. observe. Qed.

(** The update center only observes: whatever relation between two states
    of the host is kept by every query among its programs, by listing the
    database directories and the upgrades of the daemon, and by writing its two
    files, is kept by a snapshot, however the programs answer and whatever
    fails. In particular no program that installs, removes or applies anything
    is ever run. *)
Theorem snapshot_read_only s : R s (after snapshot s).
Proof. apply snapshot_observes. Qed.
End observe.
(** ** History *)

(** [e] is the entry of a record [r] whose version differs from that of the
    last entry with its identifier in the previous snapshot. *)
Definition changed (old : list (option string * dict)) (r e : dict) : Prop :=
  exists before metadata a b, previous_of old (py_str (get "id" r)) = Some before /\ metadata_dict r = Ok metadata
    /\ let architecture := either "arch" "architecture" metadata in
       normalize_history_version (get "current_version" before) architecture = Some a
       /\ normalize_history_version (get "current_version" r) architecture = Some b
       /\ a <> "" /\ b <> "" /\ a <> b /\ e = history_entry r metadata a b.

Lemma nonempty_Some o s : nonempty o = Some s <-> o = Some s /\ s <> "".
Proof.
  unfold nonempty. destruct o as [t|]; [|split; [done|by intros []]].
  destruct (String.eqb_spec t "") as [->|Hne]; split; try done; [by intros [[= <-] ?]|by intros [= <-]|by intros [[= <-] _]].
Qed.

Lemma transition_changed old r o :
  transition (previous_of old (py_str (get "id" r))) r = Ok o -> forall e, o = Some e <-> changed old r e.
Proof.
  unfold transition. rewrite bind_Ok. intros (metadata & Hm & Ho) e.
  assert (forall x : option dict, Ok x = Ok o -> o = x) as Hinj by congruence. apply Hinj in Ho as ->. clear Hinj.
  set (arch := either "arch" "architecture" metadata). unfold changed. split.
  - destruct (previous_of old _) as [before|] eqn:Eb; [|done].
    destruct (nonempty (normalize_history_version (get "current_version" before) arch)) as [a|] eqn:Ea; [|done].
    destruct (nonempty (normalize_history_version (get "current_version" r) arch)) as [b|] eqn:Er; [|done].
    destruct (String.eqb_spec a b) as [|Hne]; [done|]. intros [= <-].
    apply nonempty_Some in Ea as [? ?], Er as [? ?]. exists before, metadata, a, b. by split_and!.
  - intros (before & metadata' & a & b & -> & Hm' & Ha & Hb & H1' & H2' & H3' & ->).
    assert (metadata' = metadata) as -> by congruence. fold arch in Ha, Hb. rewrite Ha, Hb.
    rewrite (proj2 (nonempty_Some (Some a) a)), (proj2 (nonempty_Some (Some b) b)) by done.
    by rewrite (proj2 (String.eqb_neq a b) H3').
Qed.

(** The history gains, for each record whose normalised version differs
    from that of the previous snapshot, both being known, exactly its entry, and
    nothing for any other record; the result is one of three words, and of the
    whole history the last 200 entries are kept and stored. *)
Theorem update_history_correct previous records s h s' :
  update_history previous records s = (Ok h, s') ->
  exists old kept new, mapM_res previous_entry previous = Ok old /\ load_list HistoryFile s = Ok kept
    /\ h = last_n MAX_HISTORY (kept ++ map VDict new) /\ (length h <= 200)%nat
    /\ (forall e, In e new <-> exists r, In r records /\ changed old r e)
    /\ (forall e, In e new -> exists w, get "result" e = VStr w /\ In w ["SUCCESS"; "FAILURE"; "UNKNOWN"])
    /\ s' = after (write_list HistoryFile h) s.
Proof.
  unfold update_history. intros Hr. apply act_bind_Ok in Hr as (kept & s1 & Hk & Hr).
  apply act_bind_Ok in Hk as (l & s2 & Hl & Hk). injection Hl as <- <-. unfold lift in Hk. injection Hk as Hk <-.
  apply act_bind_Ok in Hr as (old & s2 & Ho & Hr). unfold lift in Ho. injection Ho as Ho <-.
  apply act_bind_Ok in Hr as (entries & s3 & He & Hr). unfold lift in He. injection He as He <-. cbv zeta in Hr.
  set (new := omap (M := list) id entries) in *. set (all := last_n MAX_HISTORY (kept ++ map VDict new)) in *.
  apply act_bind_Ok in Hr as (u & s3 & Hst & Hr).
  assert (h = all /\ s' = s3) as [-> ->] by (unfold mret, act_ret in Hr; split; congruence).
  assert (forall e, In e new <-> exists r, In r records /\ changed old r e) as Hnew.
  { apply mapM_res_Ok in He. intros e. unfold new. rewrite <- list_elem_of_In, list_elem_of_omap. split.
    - intros (o & Hin & Hid). unfold id in Hid. subst o. apply list_elem_of_lookup in Hin as (i & Hi).
      destruct (Forall2_lookup_r _ _ _ _ _ He Hi) as (r & Hri & Ht). exists r.
      split; [by apply list_elem_of_In, list_elem_of_lookup_2 with i|]. by apply (transition_changed old r (Some e)).
    - intros (r & Hin & Hc). apply list_elem_of_In, list_elem_of_lookup in Hin as (i & Hi).
      destruct (Forall2_lookup_l _ _ _ _ _ He Hi) as (o & Hoi & Ht). exists o.
      split; [by apply list_elem_of_lookup_2 with i|]. by apply (transition_changed old r o). }
  exists old, kept, new. split_and!; try done.
  - apply last_n_length.
  - intros e (r & _ & _ & metadata & a & b & _ & _ & _ & _ & _ & _ & _ & ->)%Hnew. eexists. split; [reflexivity|].
    unfold history_result. destruct (member _ _) eqn:Em; [|right; right; by left].
    unfold member in Em. apply existsb_exists in Em as (w & Hw & ->%String.eqb_eq). exact Hw.
  - unfold after. by rewrite Hst.
Qed.
(** ** The desktop tuple *)

(** A record offers a constrained package only in the version of the tuple. *)
Definition within (tuple : list (string * string)) (r : dict) : Prop :=
  forall n v, get "name" r = VStr n -> dget n tuple = Some v -> get "update_available" r = VBool true ->
  get "available_version" r = VStr v.

Lemma upgrade_within facts v u t : upgrade_item facts v = Ok u -> within (d_tuple facts) (record_at t u).
Proof.
  unfold upgrade_item. intros Hu. apply bind_Ok in Hu as (item & _ & Hu). cbv zeta in Hu.
  apply bind_Ok in Hu as (held & Hheld & Hu). apply bind_Ok in Hu as (adv & _ & Hu). cbv zeta in Hu.
  apply bind_Ok in Hu as (n & _ & Hu). apply bind_Ok in Hu as (a & _ & Hu). apply bind_Ok in Hu as (dl & _ & Hu).
  apply bind_Ok in Hu as (ins & _ & Hu). assert (forall x y : update_item, Ok x = Ok y -> y = x) as Hinj by congruence.
  apply Hinj in Hu as ->. clear Hinj. intros name v' Hname Hv Hupd.
  match type of Hname with get _ (record_at t ?u) = _ => set (w := u) in * end.
  change (u_name w = VStr name) in Hname. change (VBool (negb held) = VBool true) in Hupd. change (u_available w = VStr v').
  assert (held = false) as -> by (destruct held; [discriminate Hupd|reflexivity]). clear Hupd. cbn [w u_name u_available] in *.
  rewrite Hname in Hheld. unfold held_back, text_key in Hheld. cbn [hashable] in Hheld.
  apply bind_Ok in Hheld as (key & Hk & Hheld). injection Hk as <-. cbn [mbind option_bind] in Hheld. rewrite Hv in Hheld.
  injection Hheld as Hheld. apply negb_false_iff in Hheld. by apply py_eq_text.
Qed.

Lemma record_Ok u s r s' : record u s = (Ok r, s') -> exists t, r = record_at t u.
Proof.
  unfold record. intros Hr. apply act_bind_Ok in Hr as (t & s1 & _ & Hr). exists t.
  unfold mret, act_ret in Hr. congruence.
Qed.

Lemma upgrade_records_within facts upgrades s records s' :
  upgrade_records facts upgrades s = (Ok records, s') -> Forall (within (d_tuple facts)) records.
Proof.
  unfold upgrade_records. intros Hr. apply act_bind_Ok in Hr as (l & s1 & Hl & Hr). apply collect_Ok in Hl.
  assert (Forall (within (d_tuple facts)) l) as Hall.
  { clear Hr. induction Hl as [|v r l k (s2 & s3 & Hu) _ IH]; [constructor|]. constructor; [|done].
    apply act_bind_Ok in Hu as (u & s4 & Hu & Hrec). unfold lift in Hu. injection Hu as Hu _.
    apply record_Ok in Hrec as (t & ->). by eapply upgrade_within. }
  destruct l as [|x l].
  - apply act_bind_Ok in Hr as (r & s2 & Hrec & Hr). apply record_Ok in Hrec as (t & ->).
    assert (records = [record_at t (system_item facts)]) as -> by (unfold mret, act_ret in Hr; injection Hr as <-; reflexivity).
    constructor; [|constructor]. intros n v _ _ Hu. by change (VBool false = VBool true) in Hu.
  - assert (records = x :: l) as -> by (unfold mret, act_ret in Hr; injection Hr as <-; reflexivity). done.
Qed.

Lemma driver_records_marked installed s l errors s' :
  essential_driver_records installed s = (Ok (l, errors), s') ->
  Forall (fun r => exists t d cs, r = record_at t (driver_item d cs (chosen_driver installed cs))) l.
Proof.
  unfold essential_driver_records. intros Hr. apply act_bind_Ok in Hr as (ds & s1 & _ & Hr).
  apply act_bind_Ok in Hr as (found & s2 & Hf & Hr). apply collect_Ok in Hf.
  assert (l = map fst found) as -> by (unfold mret, act_ret in Hr; congruence).
  clear Hr. induction Hf as [|d x ds found (s3 & s4 & Hd) _ IH]; [constructor|]. constructor; [|done]. clear IH.
  unfold driver_record in Hd. apply act_bind_Ok in Hd as (c & s5 & _ & Hd). apply act_bind_Ok in Hd as (r & s6 & Hrec & Hd).
  apply record_Ok in Hrec as (t & ->). assert (x = (record_at t (driver_item d c.1 (chosen_driver installed c.1)), c.2)) as ->
    by (unfold mret, act_ret in Hd; congruence). eauto.
Qed.

(** Whatever DNF5 reports, a package of the desktop tuple is shown as an
    available update only in the very version the tuple names; records of
    missing drivers, which carry the name of a device, are apart. *)
Theorem dnf5_keeps_tuple s tuple s1 health records s' :
  constraints s = (Ok tuple, s1) -> dnf5 s = (Ok (health, records), s') ->
  forall r, In r records -> get "driver_support" (metadata_of_record r) = VNone -> within tuple r.
Proof.
  intros Hc. unfold dnf5. intros Hr. apply act_bind_Ok in Hr as (observed & s0 & Hn & Hr). injection Hn as _ <-.
  apply act_bind_Ok in Hr as (c & s2 & Hcc & Hr). unfold catch in Hcc.
  assert ((c ← constraints; mret (inl c)) s = (Ok (inl (B := string) tuple), s1)) as Hb.
  { unfold mbind, act_bind. by rewrite Hc. }
  rewrite Hb in Hcc. injection Hcc as <- <-. clear Hb.
  apply act_bind_Ok in Hr as (present & s3 & _ & Hr).
  assert (forall (x y : val * list dict) (a b : P), (Ok x, a) = (Ok y, b) -> y = x) as Hinj by congruence.
  destruct present; cbn [negb] in Hr; [|apply Hinj in Hr; injection Hr as _ ->; by intros r []].
  apply act_bind_Ok in Hr as (ups & s4 & _ & Hr).
  destruct ups as [[]|]; try (apply Hinj in Hr; injection Hr as _ ->; by intros r []).
  unfold dnf5_records in Hr. apply act_bind_Ok in Hr as (adv & s5 & _ & Hr). apply act_bind_Ok in Hr as (hist & s6 & _ & Hr).
  apply act_bind_Ok in Hr as (installed & s7 & _ & Hr). apply act_bind_Ok in Hr as ([drivers errors] & s8 & Hdr & Hr).
  apply act_bind_Ok in Hr as (packages & s9 & Hp & Hr). apply Hinj in Hr. injection Hr as _ ->.
  apply upgrade_records_within in Hp. apply driver_records_marked in Hdr. cbn [d_tuple] in Hp.
  intros r (r0 & <- & Hin)%in_map_iff Hd. apply in_app_or in Hin as [Hin|Hin].
  - rewrite Forall_forall in Hp. apply list_elem_of_In, Hp in Hin. intros n v. unfold get, getd. rewrite !dget_dset_ne by done. apply Hin.
  - rewrite Forall_forall in Hdr. apply list_elem_of_In, Hdr in Hin as (t & d & cs & ->). exfalso.
    unfold metadata_of_record, get, getd in Hd. rewrite dget_dset_ne in Hd by done.
    by change (VBool true = VNone) in Hd.
Qed.

(** ** Drivers *)

Lemma chosen_driver_new installed cs c :
  chosen_driver installed cs = Some c -> debug_package (c_name c) = false /\ forall arch, installed_version installed (c_name c) arch = None.
Proof.
  intros Hf. apply List.find_some in Hf as [_ Hf]. split_bool. split; [done|]. intros arch. unfold installed_version.
  destruct (List.find _ installed) as [e|] eqn:E; [|done]. apply List.find_some in E as [Hin He]. split_bool.
  match goal with Hx : existsb _ installed = false |- _ => pose proof (proj1 (existsb_not_In _ _) Hx e Hin) as Hne end. congruence.
Qed.

(** The packages the service installs for devices without a driver are at
    most 32, each a repository package with a name that no installed package
    bears, and no debug package. *)
Theorem driver_packages_new s names s' :
  essential_driver_package_names s = (Ok names, s') ->
  exists installed s1, installed_rpm_versions s = (Ok installed, s1) /\ (length names <= 32)%nat
    /\ forall v, In v names -> exists n, v = VStr n /\ n <> "" /\ debug_package n = false
         /\ forall arch, installed_version installed n arch = None.
Proof.
  unfold essential_driver_package_names. intros Hr. apply act_bind_Ok in Hr as (installed & s1 & Hi & Hr).
  apply act_bind_Ok in Hr as ([l errors] & s2 & Hl & Hr). apply driver_records_marked in Hl. cbv zeta in Hr.
  assert (forall (x y : list val) (a b : P), (Ok x, a) = (Ok y, b) -> y = x) as Hinj by congruence. apply Hinj in Hr as ->.
  exists installed, s1. split_and!; [done|rewrite length_take; unfold DRIVER_PACKAGE_LIMIT; lia|].
  intros v Hv. cbn [fst] in Hv.
  assert (In v (map (fun r => get "package_name" (metadata_of_record r))
    (List.filter (fun r => is_true (get "update_available" r) && truthy (get "package_name" (metadata_of_record r))) l))) as Hm.
  { rewrite <- (take_drop DRIVER_PACKAGE_LIMIT). apply in_or_app. by left. }
  apply in_map_iff in Hm as (r & <- & Hr). apply filter_In in Hr as [Hin Hb]. split_bool.
  rewrite Forall_forall in Hl. apply list_elem_of_In, Hl in Hin as (t & d & cs & ->).
  match goal with Hx : truthy ?x = true |- _ =>
    change (truthy (match chosen_driver installed cs with Some c => VStr (c_name c) | None => VNone end) = true) in Hx end.
  destruct (chosen_driver installed cs) as [c|] eqn:Ec; [|done]. exists (c_name c).
  apply chosen_driver_new in Ec as [? ?]. split_and!; try done. by intros He; rewrite He in *.
Qed.
End claims.

(** ** A desktop *)

From S2P Require Import JsonExample RuleClaims.

(** The clock, the software that is installed, and the files of the service. *)
Record desk := Desk { k_now : Z; k_software : list string; k_history : string; k_previous : string }.

Definition obj (items : list (string * val)) : val := VDict (dlit items).

Definition desk_tuple : list (string * string) := [("dms-greeter", "1.2-1"); ("labwc", "0.9-3"); ("quickshell", "0.2-1"); ("uwsm", "0.24-1")].

Definition upgrade (name evr : string) : val := obj [("name", VStr name); ("evr", VStr evr); ("arch", VStr "x86_64")].

(** The security advisory is one for [openssl]. *)
Definition desk_answer (argv : list string) : finished :=
  let json v := Finished 0 (dumps v) "" in
  let line l := join (String tab "") l +:+ String newline "" in
  if starts_with [VERIFIER] argv then json (VDict (map (fun e => (e.1, VStr e.2)) desk_tuple))
  else if starts_with ["dnf5"; "--assumeyes"; "check-upgrade"] argv
  then json (obj [("upgrades", VList [upgrade "labwc" "0.9-4"; upgrade "quickshell" "0.2-1"; upgrade "nano" "3.5.1-2.fc44"])])
  else if starts_with ["dnf5"; "--assumeyes"; "updateinfo"] argv
  then json (VList [obj [("nevra", VStr "openssl-3.5.1-2.fc44.x86_64"); ("type", VStr "security")]])
  else if starts_with ["dnf5"; "--assumeyes"; "repoquery"] argv
  then Finished 0 ("kmod-wl-debuginfo|1|x86_64|updates|" +:+ String newline "" +:+ "kmod-wl|6.30|x86_64|updates|kmod-wl-6.30.x86_64") ""
  else if starts_with ["rpm"] argv then Finished 0 (line ["nano"; "0:8.1-1.fc44.x86_64"] +:+ line ["kmod-other"; "0:1-1.x86_64"]) ""
  else if starts_with ["clamscan"] argv then Finished 0 "ClamAV 1.4.3/27784" ""
  else if starts_with ["systemctl"] argv then Finished 0 "" ""
  else if starts_with ["fwupdmgr"] argv then json (obj [])
  else if starts_with ["flatpak"; "update"] argv then Finished 0 "Updates complete." ""
  else Finished 1 "" "not available".

(** Only the queries leave the software alone. *)
Definition desk_run (argv : list string) : act desk finished := fun p =>
  (Ok (desk_answer argv), Desk (k_now p + second) (if read_only argv then k_software p else []) (k_history p) (k_previous p)).

Definition desk_write (f : state_file) (text : string) : act desk unit :=
  modify (fun p => match f with
                   | HistoryFile => Desk (k_now p) (k_software p) text (k_previous p)
                   | PreviousFile => Desk (k_now p) (k_software p) (k_history p) text
                   end).

#[export] Instance desk_commands : Commands desk := { which name _ := negb (String.eqb name "rpm-ostree"); run := desk_run }.

#[export] Instance desk_clam : ClamHost desk := {
  directory d p := (Ok (if String.eqb d "/var/lib/clamav" then Some [lab_database "main.cvd" "1790000900"; lab_database "daily.cvd" "1790000900"]
                        else None), p);
  wall := k_now;
  monotonic := k_now;
  GetClamAvStatus := raise (ProviderError "no reply");
}.

(** A network card without a driver. *)
Definition wireless : pci_device :=
  PciDevice "0000:03:00.0" (fun name =>
    if String.eqb name "class" then Ok "0x028000" else if String.eqb name "modalias" then Ok "pci:v14e4d43a0"
    else if String.eqb name "label" then Err (OSError "No such file or directory") else Ok "0x14e4") false.

#[export] Instance desk_host : UpdateHost desk := {
  open_session := raise (ProviderError "org.freedesktop.DBus.Error.ServiceUnknown");
  list_upgrades _ := mret [];
  close_session _ := mret tt;
  pci_devices _ := Ok [wireless];
  ostree_booted _ := false;
  dms_release _ := true;
  read_state f p := Ok (match f with HistoryFile => k_history p | PreviousFile => k_previous p end);
  write_state := desk_write;
}.

Definition desk_start : desk :=
  Desk (1790000000 * second) ["nano"]
    (dumps (VList [])) (dumps (VList [obj [("id", VStr "system.dnf5.nano.x86_64"); ("current_version", VStr "0:8.0-1.fc44")]])).

Definition same_software (p q : desk) : Prop := k_software p = k_software q.

#[export] Instance desk_observing : Observing same_software.
Proof.
  split; unfold respects, after, same_software; try done.
  - split; [by intros ?|intros ? ? ?; congruence].
  - intros argv Hq s. cbn. by rewrite Hq.
  - by intros [] text s.
Qed.

Definition desk_end : desk := Eval vm_compute in (snapshot desk_start).2.

Lemma desk_snapshot : after snapshot desk_start = desk_end.
Proof. vm_compute. reflexivity. Qed.

Lemma snapshot_read_only_witness : k_software desk_start = ["nano"] /\ same_software desk_start (after snapshot desk_start).
Proof. split; [reflexivity|]. apply (snapshot_read_only same_software). Defined.

(** The version of [nano] changed since the previous snapshot. *)
Definition desk_old : list val := [obj [("id", VStr "system.dnf5.nano.x86_64"); ("current_version", VStr "0:8.0-1.fc44.x86_64")]].

Definition desk_now : list dict :=
  [dlit [("id", VStr "system.dnf5.nano.x86_64"); ("name", VStr "nano"); ("provider", VStr "DNF5"); ("observed_at", VStr "2026-09-21T14:13:20Z");
         ("current_version", VStr "0:8.1-1.fc44"); ("metadata", obj [("arch", VStr "x86_64"); ("history_result", VStr "success")])];
   dlit [("id", VStr "new"); ("provider", VStr "DNF5"); ("observed_at", VStr "now"); ("current_version", VStr "1")]].

Definition desk_history : list val :=
  Eval vm_compute in match (update_history desk_old desk_now desk_start).1 with Ok h => h | Err _ => [] end.

Definition desk_recorded : desk := Eval vm_compute in (update_history desk_old desk_now desk_start).2.

Lemma desk_records_change : update_history desk_old desk_now desk_start = (Ok desk_history, desk_recorded).
Proof. vm_compute. reflexivity. Qed.

Lemma update_history_correct_witness :
  map (fun v => match v with VDict e => (get "previous_version" e, get "new_version" e, get "result" e) | _ => (VNone, VNone, VNone) end) desk_history
  = [(VStr "0:8.0-1.fc44", VStr "0:8.1-1.fc44", VStr "SUCCESS")]
  /\ exists kept new, load_list HistoryFile desk_start = Ok kept /\ desk_history = last_n MAX_HISTORY (kept ++ map VDict new).
Proof.
  split; [reflexivity|].
  destruct (update_history_correct desk_old desk_now desk_start desk_history desk_recorded desk_records_change)
    as (old & kept & new & _ & Hk & Hh & _). eauto.
Defined.

(** The packages of the desktop: [labwc] is held, [quickshell] is offered. *)
Definition desk_packages : val * list dict := Eval vm_compute in match (dnf5 desk_start).1 with Ok r => r | Err _ => (VNone, []) end.
Definition desk_listed : desk := Eval vm_compute in (dnf5 desk_start).2.
Definition desk_verified : desk := Eval vm_compute in (constraints desk_start).2.

Lemma desk_dnf5 : dnf5 desk_start = (Ok (desk_packages.1, desk_packages.2), desk_listed).
Proof. vm_compute. reflexivity. Qed.

Lemma desk_constraints : constraints desk_start = (Ok desk_tuple, desk_verified).
Proof. vm_compute. reflexivity. Qed.

Lemma dnf5_keeps_tuple_witness :
  map (fun r => (get "name" r, get "update_available" r)) (take 2 desk_packages.2)
  = [(VStr "labwc", VBool false); (VStr "quickshell", VBool true)]
  /\ within desk_tuple (nth 1 desk_packages.2 []).
Proof.
  split; [reflexivity|].
  apply (dnf5_keeps_tuple desk_start desk_tuple desk_verified desk_packages.1 desk_packages.2 desk_listed desk_constraints desk_dnf5).
  - right. left. reflexivity.
  - reflexivity.
Defined.

Definition desk_asked : desk := Eval vm_compute in (essential_driver_package_names desk_start).2.

Lemma desk_drivers : essential_driver_package_names desk_start = (Ok [VStr "kmod-wl"], desk_asked).
Proof. vm_compute. reflexivity. Qed.

Lemma driver_packages_new_witness :
  exists installed s1, installed_rpm_versions desk_start = (Ok installed, s1) /\ installed_version installed "kmod-wl" "x86_64" = None.
Proof.
  destruct (driver_packages_new desk_start [VStr "kmod-wl"] desk_asked desk_drivers) as (installed & s1 & Hi & _ & Hall).
  exists installed, s1. split; [exact Hi|]. destruct (Hall (VStr "kmod-wl") (or_introl eq_refl)) as (n & Hn & _ & _ & Hnone).
  injection Hn as <-. apply Hnone.
Defined.

(** ** What modelling showed *)

(** The constraint is read to avoid advertising what the transaction skips, but
    the transaction excludes the package in every version: [quickshell] is
    offered in the version of the tuple and never installed. *)
Example tuple_version_never_installed :
  get "update_available" (nth 1 desk_packages.2 []) = VBool true
  /\ (dnf_options desk_start).1 = Ok ["--exclude=dms-greeter,labwc,quickshell,uwsm"].
Proof. vm_compute. by split. Qed.

(** Advisories are matched by version and architecture without the name: that
    of [openssl] makes the update of [nano] a security fix. *)
Example advisory_of_another_package :
  let r := nth 2 desk_packages.2 [] in get "name" r = VStr "nano" /\ get "security_relevance" r = VStr "SECURITY_FIX".
Proof. vm_compute. by split. Qed.

(** A deployment kept for roll back is shown as an update that needs a restart. *)
Example rollback_shown_as_update :
  let deployment version running := obj [("version", VStr version); ("booted", VBool running)] in
  match ostree_item (obj [("deployments", VList [deployment "44.2" true; deployment "44.1" false])]) VNone with
  | Ok u => u_current u = VStr "44.2" /\ u_available u = VStr "44.1" /\ u_update u = VBool true /\ u_reboot u = "REQUIRED"
  | Err _ => False
  end.
Proof. vm_compute. by split_and!. Qed.

(** The state ERROR of the definitions is none of the states [freshclam]
    knows: the provider is reported as available. *)
Example clam_error_shown_as_available :
  match (status desk_start).1, (freshclam desk_start).1 with
  | Ok d, Ok (VDict health, _) => get "status" d = VStr "ERROR" /\ get "state" health = VStr "AVAILABLE"
  | _, _ => False
  end.
Proof. vm_compute. by split. Qed.
