(* ===== verification/UpdateTransaction.v ===== *)
(** * Update transactions: the record of an operation ([update_center_bus.py])

    One dictionary describes the update operation: its phase, its progress, its
    results. It is changed under a lock by [set_transaction] only, saved to a
    file, and read again when the service starts, when what a restart left
    behind is settled. The file is kept as the value [json.loads] gives back for
    it ([JsonRound]); [None] is a file that cannot be read or parsed. *)
From S2P Require Import Prelude PyVal PyStr IpAddr Json NetworkRules PyText PyTime ShellSummary Commands ClamAv UpdateCenter UpdateProviders.

Definition TERMINAL_PHASES : list string := ["COMPLETE"; "CANCELLED"; "FAILED"; "READY_TO_RESTART"].
Definition ACTIVE_PHASES : list string :=
  ["RESOLVING"; "AUTHENTICATING"; "DOWNLOADING"; "INSTALLING"; "VERIFYING"; "CHECKPOINTING"; "PREPARING_RESTART"; "UPDATING_APPLICATIONS";
   "UPDATING_FIRMWARE"; "UPDATING_SECURITY"; "RESTARTING"].
Definition DNF_CLI : string := "/usr/bin/dnf5".

(** ** The host *)

(** An item of a resolved transaction: a dictionary of the program, or the
    structure the daemon sends, with its attributes if there are any. *)
Inductive goal_item := ItemDict (d : dict) | ItemTuple (kind action reason : string) (metadata : option dict).

(** Besides the update center: the boot, the transaction file, the session of
    the DNF5 daemon, the privileged helper with the lines it prints, and the
    login manager. [local_time] is the moment of a local time given as that of
    the same text in UTC. *)
Class CenterHost (P : Type) := {
  center_update :: UpdateHost P;
  boot_id : P -> option string;
  local_time : Z -> Z;
  tx_writable : P -> bool;
  native_open : option string -> act P string;
  native_install : list val -> act P unit;
  native_upgrade : act P unit;
  native_resolve : act P (list goal_item * Z);
  native_problems : act P val;
  native_cancel : act P unit;
  helper_present : P -> bool;
  popen : list string -> act P (list string);
  kill_process : act P unit;
  wait_process : Z -> act P Z;
  login_reboot : act P unit;
}.

(** The variables of the service. [p_refreshers] counts the refresh threads that
    were started and did not run yet. *)
Record process (P : Type) := Process {
  p_host : P; p_tx : dict; p_file : option val; p_session : option string;
  p_snapshot : option dict; p_refreshed : Z; p_refreshing : bool; p_refreshers : nat; p_events : list dict }.
Arguments Process {P}. Arguments p_host {P}. Arguments p_tx {P}. Arguments p_file {P}. Arguments p_session {P}.
Arguments p_snapshot {P}. Arguments p_refreshed {P}. Arguments p_refreshing {P}. Arguments p_refreshers {P}. Arguments p_events {P}.

(** [default_transaction()]. *)
Definition default_transaction (now : Z) : dict :=
  dlit [("id", VNone); ("provider", VStr "DNF5"); ("backend", VStr "dnf5daemon"); ("operation", VNone); ("phase", VStr "IDLE");
        ("progress", VNone); ("current_item", VNone); ("downloaded", VInt 0); ("download_total", VInt 0); ("processed", VInt 0);
        ("total", VInt 0); ("summary", VNone); ("error", VNone); ("details", VNone); ("restart_required", VStr "UNKNOWN");
        ("started_at", VNone); ("updated_at", VStr (iso now)); ("finished_at", VNone); ("provider_results", VList []);
        ("recovery_point_id", VNone); ("recovery_point_status", VNone); ("boot_id", VNone); ("cancellable", VBool false)].

(** [item_dict(item)]. *)
Definition item_dict (i : goal_item) : dict :=
  match i with
  | ItemDict d => setdefault "reason" (VStr "available") (setdefault "action" (VStr "upgrade") d)
  | ItemTuple kind action reason metadata =>
      dupdate (dlit [("type", VStr kind); ("action", VStr action); ("reason", VStr reason)]) (default [] metadata)
  end.

(** [percent(done, total)]: the true division of two integers is rounded. *)
Definition py_truediv (a b : Z) : spec_float :=
  let f z := match z with Z0 => S754_zero false | Zpos p => S754_finite false p 0 | Zneg p => S754_finite true p 0 end in
  SFdiv prec64 emax64 (f a) (f b).

Definition percent (done_ total : Z) : res val :=
  if total =? 0 then Ok VNone
  else q ← trunc_float (py_truediv (done_ * 100) total); Ok (VInt (Z.max 0 (Z.min 100 q))).

(** [package_progress_label(nevra)]. *)
Definition package_progress_label (nevra : string) : string * string :=
  let value := if String.eqb nevra "" then "package" else nevra in
  let words := split "-" value in
  let front := join "-" (take (length words - 3) words) in
  let name := if (4 <=? length words)%nat && negb (String.eqb front "") then front else value in
  ("Updating " +:+ name +:+ ".", "Package: " +:+ str_take 240 value).

(** The phases in which a stored transaction can have been interrupted. *)
Definition INTERRUPTED_PHASES : list string :=
  ["AUTHENTICATING"; "RESOLVING"; "DOWNLOADING"; "INSTALLING"; "VERIFYING"; "CHECKPOINTING"; "PREPARING_RESTART"; "RESTARTING";
   "READY_TO_RESTART"].

Section transaction.
Context {P : Type} `{CenterHost P} `{Host} `{IsoText} `{FloatText}.

(** ** After a restart *)

(** [int(datetime.fromisoformat(text).timestamp())], with an error for a
    refused text; a text without an offset is a local time. *)
Definition timestamp_of (v : val) : option Z :=
  match iso_parse (py_str v) with
  | Some (t, true) => Some t
  | Some (t, false) => Some (local_time t)
  | None => None
  end.

(** [dnf_offline_history_result(started_at)]: the newest record of an offline
    update since five minutes before the start. *)
Definition start_time (d : dict) : res Z := py_int (py_or (get "start_time" d) (VInt 0)).

Definition offline_update (d : dict) : bool :=
  let command := str_lower (text_of (get "command_line" d)) in
  str_contains "--offline" command && (str_contains " upgrade" (" " +:+ command) || str_contains " do " (" " +:+ command +:+ " ")).

Definition newest_offline (threshold : Z) (records : list val) : res (option dict) :=
  timed ← mapM_res (fun d => t ← start_time d; Ok (t, d)) (dicts_of records);
  let sorted := sort_by (fun a b => b.1 <=? a.1) timed in
  Ok (snd <$> List.find (fun e => (threshold <=? e.1) && offline_update e.2) sorted).

Definition dnf_offline_history_result (started_at : val) : act P (option dict) :=
  let threshold := match timestamp_of (py_or started_at (VStr "")) with Some t => Z.quot t second - 300 | None => 0 end in
  r ← run [DNF_CLI; "history"; "list"; "--json"];
  match r with
  | NotRun _ _ => mret None
  | Finished code out _ =>
      match (if code =? 0 then loads out else Ok (VList [])) with
      | Ok (VList records) => lift (newest_offline threshold records)
      | _ => mret None
      end
  end.

(** [reconcile_completed_restart(value)]. *)
Definition dnf_succeeded (v : val) : bool :=
  match v with
  | VDict d => String.eqb (upper_text (get "provider" d)) "DNF5" && String.eqb (upper_text (get "state" d)) "SUCCESS"
  | _ => false
  end.

Definition now_text (s : P) : val := VStr (iso (wall s)).
Definition boot_val (s : P) : val := some_text (boot_id s).

Definition unverified_restart (s : P) (status : string) : dict :=
  dlit [("phase", VStr "FAILED"); ("current_item", VStr "The prepared system update could not be verified after restart.");
        ("restart_required", VStr "UNKNOWN"); ("error", VStr "The offline system update did not produce a successful DNF5 history result.");
        ("details", VStr ("DNF5 post-restart history status: " +:+ status +:+ ".")); ("finished_at", now_text s);
        ("updated_at", now_text s); ("cancellable", VBool false); ("boot_id", boot_val s)].

Definition completed_restart (s : P) (history_id : val) : dict :=
  dlit [("phase", VStr "COMPLETE"); ("current_item", VStr "The prepared update restart completed."); ("restart_required", VStr "UNKNOWN");
        ("error", VNone); ("details", VStr (if is_none history_id then "GREYWARD observed a new boot after the prepared provider update."
          else "GREYWARD observed a new boot and matched successful DNF5 history transaction " +:+ py_str history_id +:+ "."));
        ("finished_at", now_text s); ("updated_at", now_text s); ("boot_id", boot_val s)].

Definition reconcile_completed_restart (value : dict) : act P dict :=
  results ← lift (iter_items (py_or (get "provider_results" value) (VList [])));
  let expected := existsb dnf_succeeded results in
  history ← (if expected then dnf_offline_history_result (get "started_at" value) else mret None);
  let status d := str_lower (text_of (get "status" d)) in
  s ← gets id;
  if expected && negb (match history with Some d => String.eqb (status d) "ok" | None => false end)
  then mret (dupdate value (unverified_restart s
         (str_lower (py_str (py_or (get "status" (default [] history)) (VStr "missing"))))))
  else mret (dupdate value (completed_restart s (match history with Some d => get "id" d | None => VNone end))).

(** [reconcile_transaction(value)]. *)
Definition restart_missing (s : P) : dict :=
  dlit [("phase", VStr "FAILED"); ("current_item", VStr "The requested restart did not occur."); ("restart_required", VStr "REQUIRED");
        ("error", VStr "The system did not restart to install the prepared update.");
        ("details", VStr "GREYWARD kept the prepared update available so the restart can be retried."); ("finished_at", now_text s);
        ("updated_at", now_text s); ("cancellable", VBool false); ("boot_id", boot_val s)].

Definition interrupted (s : P) : dict :=
  dlit [("phase", VStr "FAILED"); ("current_item", VStr "The interrupted update was reset after restart.");
        ("restart_required", VStr "UNKNOWN"); ("error", VStr "The update was interrupted before it completed.");
        ("details", VStr "GREYWARD found no active update worker after the system restarted and closed the stale transaction.");
        ("finished_at", now_text s); ("updated_at", now_text s); ("cancellable", VBool false); ("boot_id", boot_val s)].

Definition boot_changed (stored : val) (s : P) : bool :=
  truthy stored && match boot_id s with Some b => negb (String.eqb b "") && negb (py_eq stored (VStr b)) | None => false end.

Definition reconcile_transaction (value : dict) : act P dict :=
  let phase := get "phase" value in
  known ← lift (in_set INTERRUPTED_PHASES phase);
  if negb known then mret value
  else
    s ← gets id;
    let changed := boot_changed (get "boot_id" value) s in
    let old := match timestamp_of (getd "updated_at" (VStr "") value) with Some t => 900 * second <? wall s - t | None => false end in
    if in_strs ["RESTARTING"; "READY_TO_RESTART"] phase && changed then reconcile_completed_restart value
    else if is_str "RESTARTING" phase && old then mret (dupdate value (restart_missing s))
    else if changed then mret (dupdate value (interrupted s))
    else mret value.

(** The last corrections of [load_transaction]: an error that was recorded
    closes the transaction, and so does a check without its worker. *)
Definition close_failed (value : dict) : res dict :=
  if truthy (get "error" value) && truthy (get "finished_at" value) then
    over ← in_set TERMINAL_PHASES (get "phase" value);
    Ok (if over : bool then value else dupdate value [("phase", VStr "FAILED"); ("progress", VNone)])
  else Ok value.

Definition close_check (s : P) (value : dict) : dict :=
  if is_str "RESOLVING" (get "phase" value)
  then dupdate value (dlit [("phase", VStr "FAILED"); ("progress", VNone); ("cancellable", VBool false); ("current_item", VNone);
         ("error", VStr "The update check was interrupted. Check for updates again."); ("finished_at", now_text s);
         ("updated_at", now_text s)])
  else value.

(** [load_transaction()] with the file it leaves. *)
Definition same_marks (a b : dict) : bool :=
  forallb (fun k => py_eq (get k a) (get k b)) ["phase"; "finished_at"; "current_item"].

Definition load_transaction (file : option val) : act P (dict * option val) :=
  s ← gets id;
  match file with
  | None => mret (default_transaction (wall s), None)
  | Some value =>
      let result := match value with VDict d => dupdate (default_transaction (wall s)) d | _ => default_transaction (wall s) end in
      settled ← reconcile_transaction result;
      let file := if same_marks result settled || negb (tx_writable s) then Some value else Some (VDict settled) in
      closed ← lift (close_failed settled);
      mret (close_check s closed, file)
  end.

(** ** Changes *)

Abbreviation M := (act (process P)).

Definition on_host {A} (m : act P A) : M A := fun s =>
  let '(r, h) := m (p_host s) in
  (r, Process h (p_tx s) (p_file s) (p_session s) (p_snapshot s) (p_refreshed s) (p_refreshing s) (p_refreshers s) (p_events s)).

Definition transaction_copy : M dict := gets p_tx.

(** What [record_event] is told about a change of the phase. *)
Definition phase_event (value : dict) : dict :=
  let phase := upper_or (get "phase" value) "UNKNOWN" in
  let outcome := if String.eqb phase "FAILED" then "FAILURE" else if String.eqb phase "COMPLETE" then "SUCCESS"
                 else if String.eqb phase "CANCELLED" then "CANCELLED" else "IN_PROGRESS" in
  dlit [("event_id", VStr ("update-" +:+ py_str (get "id" value) +:+ "-" +:+ phase +:+ "-" +:+ py_str (get "updated_at" value)));
        ("occurred_at", get "updated_at" value); ("event_type", VStr "UPDATE_PHASE"); ("outcome", VStr outcome);
        ("severity", VStr (if String.eqb outcome "FAILURE" then "ERROR" else "INFO"));
        ("assessment", VStr (if String.eqb outcome "FAILURE" then "FAILED"
                             else if member outcome ["SUCCESS"; "CANCELLED"] then "NOTEWORTHY" else "NORMAL"));
        ("phase", VStr phase); ("operation_id", get "id" value); ("boot_id", get "boot_id" value);
        ("recovery_point_id", get "recovery_point_id" value); ("recovery_point_status", get "recovery_point_status" value);
        ("restart_required", get "restart_required" value)].

(** The transaction after [set_transaction(values)] at the host [h]. *)
Definition terminal (v : dict) : bool := member (upper_or (get "phase" v) "IDLE") TERMINAL_PHASES.

Definition changed_by (h : P) (values tx : dict) : dict :=
  let value := dupdate tx values in
  let value := if terminal value
               then let v := dset "cancellable" (VBool false) (dset "progress" VNone value) in
                    match dget "current_item" values with Some _ => v | None => dset "current_item" VNone v end
               else value in
  dset "updated_at" (now_text h) (dset "boot_id" (boot_val h) value).

(** [set_transaction(values)]: under the lock, then the event. *)
Definition set_transaction (values : dict) : M dict := fun s =>
  let tx := changed_by (p_host s) values (p_tx s) in
  let file := if tx_writable (p_host s) then Some (VDict tx) else p_file s in
  let events := if negb (py_eq (get "phase" tx) (get "phase" (p_tx s))) && truthy (get "id" tx)
                then p_events s ++ [phase_event tx] else p_events s in
  (Ok tx, Process (p_host s) tx file (p_session s) (p_snapshot s) (p_refreshed s) (p_refreshing s) (p_refreshers s) events).

Definition settx (values : list (string * val)) : M dict := set_transaction (dlit values).

(** [finished_at=stamp()]. *)
Definition stamped (values : list (string * val)) : M dict :=
  now ← gets (fun s => now_text (p_host s)); settx (("finished_at", now) :: values).

(** ** Signals of the daemon *)

Inductive signal :=
| DownloadAdd (description : string) (total : Z) | DownloadProgress (total downloaded : Z)
| TransactionBegin (total : Z) | ElementProgress (nevra : string) (processed total : Z)
| ActionStart (nevra : string) (total : Z) | ActionProgress (nevra : string) (processed total : Z)
| VerifyStart (total : Z) | VerifyProgress (processed total : Z)
| TransactionStart (total : Z) | TransactionProgress (processed total : Z)
| TransactionComplete (success : bool).

Definition same_session (path : string) (s : process P) : bool :=
  match p_session s with Some p => String.eqb path p | None => true end.

Definition signal_live (path : string) (s : process P) : bool :=
  same_session path s && negb (in_strs TERMINAL_PHASES (get "phase" (p_tx s))).

(** What a signal changes, with its progress. *)
Definition counted (phase : string) (processed total : Z) (progress : val) (rest : list (string * val)) : list (string * val) :=
  [("phase", VStr phase); ("processed", VInt processed); ("total", VInt total); ("progress", progress)] ++ rest.

Definition signal_values (g : signal) (session : bool) : res (list (string * val)) :=
  let fixed := [("cancellable", VBool false)] in
  let labelled nevra := [("current_item", VStr (package_progress_label nevra).1); ("details", VStr (package_progress_label nevra).2);
                         ("cancellable", VBool false)] in
  match g with
  | DownloadAdd description total =>
      Ok [("phase", VStr "DOWNLOADING"); ("current_item", VStr description); ("downloaded", VInt 0); ("download_total", VInt total);
          ("progress", VInt 0); ("cancellable", VBool session)]
  | DownloadProgress total downloaded =>
      p ← percent downloaded total;
      Ok [("phase", VStr "DOWNLOADING"); ("downloaded", VInt downloaded); ("download_total", VInt total); ("progress", p)]
  | TransactionBegin total | TransactionStart total => Ok (counted "INSTALLING" 0 total (VInt 0) fixed)
  | ElementProgress nevra processed total | ActionProgress nevra processed total =>
      p ← percent processed total; Ok (counted "INSTALLING" processed total p (labelled nevra))
  | ActionStart nevra total => Ok (counted "INSTALLING" 0 total (VInt 0) (labelled nevra))
  | VerifyStart total => Ok (counted "VERIFYING" 0 total (VInt 0) fixed)
  | VerifyProgress processed total => p ← percent processed total; Ok (counted "VERIFYING" processed total p fixed)
  | TransactionProgress processed total => p ← percent processed total; Ok (counted "INSTALLING" processed total p fixed)
  | TransactionComplete _ =>
      Ok [("phase", VStr "FAILED"); ("error", VStr "DNF5 could not complete the transaction.");
          ("details", VStr "The native DNF5 transaction reported failure.")]
  end.

(** [on_download_add(path, ...)], ..., [on_transaction_complete(path, success)]. *)
Definition on_signal (path : string) (g : signal) : M unit :=
  s ← gets id;
  match g with
  | TransactionComplete success =>
      if same_session path s && negb success
      then values ← lift (signal_values g (bool_decide (is_Some (p_session s)))); _ ← stamped values; mret tt
      else mret tt
  | _ =>
      if signal_live path s
      then values ← lift (signal_values g (bool_decide (is_Some (p_session s)))); _ ← settx values; mret tt
      else mret tt
  end.
End transaction.

Example percents :
  map (fun p => percent p.1 p.2) [(1, 3); (0, 7); (5, 0); (9, 3); (-1, 3); (99999999999999999, 100000000000000000)]
     = [Ok (VInt 33); Ok (VInt 0); Ok VNone; Ok (VInt 100); Ok (VInt 0); Ok (VInt 100)].
Proof. vm_compute. reflexivity. Qed.

(** Three dashes are cut off although a version and a release have two: a name
    without a dash is shown with its version, and a name with one is cut. *)
Example labels_miss_the_name :
  fst (package_progress_label "nano-8.1-1.fc44.x86_64") = "Updating nano-8.1-1.fc44.x86_64."
  /\ fst (package_progress_label "bash-completion-2.16-2.fc44.noarch") = "Updating bash.".
Proof. vm_compute. by split. Qed.
