(* ===== verification/UpdateWorkers.v ===== *)
(** * Update transactions: the threads and the service ([update_center_bus.py])

    A worker thread is a tree of atomic actions on the variables of the service:
    between two of them other threads, signals and requests may run. The
    configurations of the service and their steps are at the end. The lines a
    helper process prints are known when it starts; a helper that never ends is
    outside the model. *)
From S2P Require Import Prelude PyVal PyStr IpAddr Json NetworkRules PyText PyTime ShellSummary Commands ClamAv UpdateCenter UpdateProviders UpdateTransaction.

Definition UPDATE_HELPER : string := "/usr/libexec/greyward-update-action".
Definition POLKIT_EXEC : string := "/usr/bin/pkexec".
Definition SNAPSHOT_TTL : Z := 30.

(** ** Threads *)

Section thread.
Context {S : Type}.

Inductive thread (A : Type) : Type :=
| Return (a : A)
| Raise (e : exn)
| Atomic {B : Type} (m : act S B) (k : B -> thread A).
Arguments Return {A} a.
Arguments Raise {A} e.
Arguments Atomic {A B} m k.

Fixpoint thread_bind {A B} (t : thread A) (f : A -> thread B) : thread B :=
  match t with
  | Return a => f a
  | Raise e => Raise e
  | Atomic m k => Atomic m (fun b => thread_bind (k b) f)
  end.

(** [try: t  except Exception as error: h(error)], for the exceptions of [t] and
    of its actions. *)
Definition caught {B} (m : act S B) : act S (B + exn) := fun s =>
  match m s with (Ok b, s') => (Ok (inl b), s') | (Err e, s') => (Ok (inr e), s') end.

Fixpoint attempt {A} (t : thread A) (h : exn -> thread A) : thread A :=
  match t with
  | Return a => Return a
  | Raise e => h e
  | Atomic m k => Atomic (caught m) (fun r => match r with inl b => attempt (k b) h | inr e => h e end)
  end.

Definition atomic {A} (m : act S A) : thread A := Atomic m Return.

(** A run without interruption. *)
Fixpoint run_thread {A} (t : thread A) : act S A :=
  match t with
  | Return a => mret a
  | Raise e => raise e
  | Atomic m k => b ← m; run_thread (k b)
  end.
End thread.
Arguments thread S A : clear implicits.
Arguments Return {S A} a.
Arguments Raise {S A} e.
Arguments Atomic {S A B} m k.

#[export] Instance thread_ret {S} : MRet (thread S) := fun _ a => Return a.
#[export] Instance thread_mbind {S} : MBind (thread S) := fun _ _ f t => thread_bind t f.

(** [for x in l: s = f(s, x)]. *)
Fixpoint thread_fold {S A B} (f : B -> A -> thread S B) (b : B) (l : list A) : thread S B :=
  match l with
  | [] => Return b
  | x :: l => thread_bind (f b x) (fun b => thread_fold f b l)
  end.

Section workers.
Context {P : Type} `{CenterHost P} `{Host} `{IsoText} `{FloatText}.
Abbreviation T := (thread (process P)).
Abbreviation M := (act (process P)).

Definition host {A} (m : act P A) : T A := atomic (on_host m).
Definition set_ (values : list (string * val)) : T unit := atomic (_ ← settx values; mret tt).
Definition finish (values : list (string * val)) : T unit := atomic (_ ← stamped values; mret tt).
Definition copy : T dict := atomic transaction_copy.

(** ** The snapshot of the service *)

Definition cache_snapshot (value : dict) : M unit :=
  modify (fun s => Process (p_host s) (p_tx s) (p_file s) (p_session s) (Some value) (monotonic (p_host s)) false (p_refreshers s) (p_events s)).

(** [request_snapshot_refresh(force)]: starts a thread unless one is running. *)
Definition request_snapshot_refresh (force : bool) : M unit :=
  modify (fun s =>
    let stale := match p_snapshot s with
                 | None => true
                 | Some _ => SNAPSHOT_TTL * second <=? monotonic (p_host s) - p_refreshed s
                 end in
    if p_refreshing s || (negb force && negb stale) then s
    else Process (p_host s) (p_tx s) (p_file s) (p_session s) (p_snapshot s) (p_refreshed s) true (S (p_refreshers s)) (p_events s)).

(** [pending_snapshot()]. *)
Definition pending_provider (observed : Z) : val :=
  VDict (dlit [("state", VStr "CHECKING"); ("observed_at", VStr (iso observed)); ("last_successful_at", VNone);
               ("reason", VStr "Update source is being checked.")]).

Definition pending_snapshot : act P dict :=
  observed ← gets wall;
  system ← selected_system_provider;
  history ← (l ← gets (load_list HistoryFile); lift l);
  mret (dlit [("schema", VStr UPDATE_SCHEMA); ("generated_at", VStr (iso observed));
              ("providers", VDict (dlit (map (fun p => (p.1, pending_provider observed)) (providers_of system))));
              ("records", VList []); ("history", VList history)]).

(** [refresh_snapshot_worker()]. *)
Definition active (tx : dict) : res bool := in_set ACTIVE_PHASES (get "phase" tx).

Definition idle_refresh : M unit :=
  modify (fun s => Process (p_host s) (p_tx s) (p_file s) (p_session s) (p_snapshot s) (p_refreshed s) false (p_refreshers s) (p_events s)).

Definition failed_refresh (e : exn) : M unit :=
  s ← gets id;
  value ← match p_snapshot s with Some v => if truthy (VDict v) then mret v else on_host pending_snapshot | None => on_host pending_snapshot end;
  cache_snapshot (dset "snapshot_error" (VStr (str_take 240 (exn_text e))) value).

Definition refresh_snapshot_worker : T unit :=
  tx ← copy;
  busy ← atomic (lift (active tx));
  if busy : bool then atomic idle_refresh
  else
    r ← attempt (v ← host snapshot; Return (inl v)) (fun e => Return (inr e));
    match r with inl v => atomic (cache_snapshot v) | inr e => atomic (failed_refresh e) end.

(** [read_snapshot()]. *)
Definition read_snapshot : M dict :=
  tx ← transaction_copy;
  busy ← lift (active tx);
  _ ← when (negb busy) (request_snapshot_refresh false);
  s ← gets id;
  value ← match p_snapshot s with Some v => mret v | None => on_host pending_snapshot end;
  refreshing ← gets p_refreshing;
  mret (dset "snapshot_refreshing" (VBool refreshing) value).

(** ** The session of the daemon *)

Definition set_session (path : option string) : M unit :=
  modify (fun s => Process (p_host s) (p_tx s) (p_file s) path (p_snapshot s) (p_refreshed s) (p_refreshing s) (p_refreshers s) (p_events s)).

(** [native_session()]: the tuple is read even for a session that is open. *)
Definition native_session : M unit :=
  held ← on_host constraints;
  s ← gets id;
  match p_session s with
  | Some _ => mret tt
  | None =>
      path ← on_host (native_open (match held with [] => None | _ => Some (join "," (map fst held)) end));
      set_session (Some path)
  end.

(** [native_daemon_error(error)]. *)
Definition native_daemon_error (e : exn) : bool :=
  remote_error e && (str_contains "ServiceUnknown" (exn_text e) || str_contains "not activatable" (exn_text e)).

(** ** Resolution *)

(** [make_summary(items)]. *)
Definition PREVIEW_KEYS : list string := ["name"; "full_nevra"; "action"; "reason"; "download_size"; "install_size"; "repo_id"].

Definition action_of (info : dict) : res string :=
  action ← item "action" info;
  match action with
  | VStr a =>
      let a := str_lower a in
      Ok (if str_contains "remove" a then "removals" else if str_contains "downgrade" a then "downgrades"
          else if str_contains "install" a then "installs" else "upgrades")
  | _ => Err AttributeError
  end.

Definition size_of (k : string) (info : dict) : res Z := py_int (py_or (get k info) (VInt 0)).

Definition security_names (records : list val) : res (list val) :=
  items ← mapM_res as_dict records;
  let names := map (get "name") (List.filter (fun d => is_str "SECURITY_FIX" (get "security_relevance" d)) items) in
  if forallb hashable names
  then Ok (fold_left (fun acc n => if existsb (py_eq n) acc then acc else acc ++ [n]) names []) else Err TypeError.

Definition summarize_items (items : list goal_item) (security : Z) : res dict :=
  let infos := map item_dict items in
  actions ← mapM_res action_of infos;
  downloads ← mapM_res (size_of "download_size") infos;
  installs ← mapM_res (size_of "install_size") infos;
  let count a := VInt (Z.of_nat (length (List.filter (String.eqb a) actions))) in
  Ok (dlit [("packages", VInt (Z.of_nat (length items))); ("upgrades", count "upgrades"); ("installs", count "installs");
            ("removals", count "removals"); ("downgrades", count "downgrades"); ("download_size", VInt (foldr Z.add 0 downloads));
            ("install_size", VInt (foldr Z.add 0 installs)); ("security_updates", VInt security); ("restart_required", VStr "REQUIRED");
            ("preview", VList (map (fun info => VDict (dlit (map (fun k => (k, get k info)) PREVIEW_KEYS))) (take 30 infos)))]).

Definition security_updates : T Z :=
  attempt (v ← host snapshot;
           names ← atomic (lift (records ← as_list (getd "records" (VList []) v); security_names records));
           Return (Z.of_nat (length names)))
    (fun _ => Return 0).

Definition make_summary (items : list goal_item) : T dict :=
  _ ← atomic (lift (summarize_items items 0));
  n ← security_updates;
  atomic (lift (summarize_items items n)).

(** [cli_upgrade_items()]. *)
Definition cli_upgrade_items : T (list goal_item) :=
  present ← atomic (gets (fun s => which "dnf5" (p_host s)));
  if negb present then Raise (RuntimeError "dnf5 command is unavailable")
  else
    options ← attempt (host dnf_options)
      (fun e => if is_os_error e || remote_error e then Raise (RuntimeError ("dnf5 update check failed to start: " +:+ exn_name e)) else Raise e);
    r ← host (run (["dnf5"; "--assumeyes"; "check-upgrade"; "--json"] ++ options));
    match r with
    | NotRun kind _ => Raise (RuntimeError ("dnf5 update check failed to start: " +:+ kind))
    | Finished code out err =>
        if negb (existsb (Z.eqb code) [0; 100])
        then Raise (RuntimeError (str_take 240 (strip (if String.eqb err "" then (if String.eqb out "" then "dnf5 update check failed." else out)
                                                       else err))))
        else match loads out with
             | Ok (VDict d) =>
                 match get "upgrades" d with
                 | VList l =>
                     drivers ← host essential_driver_package_names;
                     Return (map ItemDict (dicts_of l) ++ map (fun p =>
                       ItemDict (dlit [("name", p); ("action", VStr "install"); ("reason", VStr "essential-driver")])) drivers)
                 | _ => Raise (RuntimeError "dnf5 returned no upgrade list")
                 end
             | Ok _ => Raise (RuntimeError "dnf5 returned no upgrade list")
             | Err _ => Raise (RuntimeError "dnf5 returned malformed update data")
             end
    end.

(** The end of a resolution, in both workers. *)
Definition unresolved (detail : string) : T unit :=
  finish [("phase", VStr "FAILED"); ("error", VStr "DNF5 could not resolve the update."); ("details", VStr detail)].

Definition resolved_values (summary : dict) : list (string * val) :=
  [("summary", VDict summary); ("current_item", VNone); ("progress", VNone); ("error", VNone)].

Definition resolved (items : list goal_item) (summary : dict) (details : val) : T unit :=
  match items with
  | [] => finish (("phase", VStr "COMPLETE") :: ("details", VNone) :: resolved_values summary)
  | _ => set_ (("phase", VStr "RESOLVED") :: ("details", details) :: resolved_values summary)
  end.

(** [resolve_cli_worker()]. *)
Definition resolve_cli_worker : T unit :=
  attempt
    (_ ← set_ [("backend", VStr "dnf5-cli"); ("current_item", VStr "Reading DNF5 update metadata."); ("progress", VNone)];
     items ← cli_upgrade_items;
     summary ← make_summary items;
     _ ← resolved items summary (VStr "Resolved through the dnf5 command-line backend.");
     atomic (request_snapshot_refresh true))
    (fun e => unresolved (exn_text e)).

(** [resolve_native_goal(session)]: the items or the problem. *)
Definition resolve_native_goal : T (list goal_item + string) :=
  drivers ← host essential_driver_package_names;
  _ ← match drivers with [] => Return tt | _ => host (native_install drivers) end;
  _ ← host native_upgrade;
  r ← host native_resolve;
  if r.2 =? 0 then Return (inl r.1)
  else
    problems ← host native_problems;
    match problems with
    | VStr s => Return (inr s)
    | _ => l ← atomic (lift (iter_items problems)); Return (inr (join "; " (map py_str l)))
    end.

(** [resolve_worker()]. *)
Definition resolve_worker : T unit :=
  attempt
    (_ ← atomic native_session;
     _ ← set_ [("backend", VStr "dnf5daemon")];
     r ← resolve_native_goal;
     match r with
     | inr detail => unresolved detail
     | inl items => summary ← make_summary items; resolved items summary VNone
     end)
    (fun e => if native_daemon_error e then resolve_cli_worker else unresolved (exn_text e)).

(** ** The privileged helper *)

Definition HELPER_PHASES : list string := ["CHECKPOINTING"; "PREPARING_RESTART"; "UPDATING_APPLICATIONS"; "UPDATING_FIRMWARE"].

Definition flag (b : bool) (name : string) : list string := if b then [name] else [].

Definition helper_command (id : val) (system system_flatpak firmware : bool) (drivers : list string) : list string :=
  [POLKIT_EXEC; UPDATE_HELPER; "apply"; "--operation-id"; py_str id] ++ flag system "--system" ++ flag system_flatpak "--system-flatpak"
  ++ flag firmware "--firmware" ++ concat (map (fun p => ["--driver-package"; p]) drivers).

(** An event of the helper, or a line of diagnostics. *)
Definition helper_event (line : string) : option dict :=
  match loads line with
  | Ok (VDict d) => if truthy (get "greyward_update_event" d) then Some d else None
  | _ => None
  end.

Definition dict_of (v : val) : res dict := as_dict (py_or v (VDict [])).

(** What was printed so far: the last diagnostics and the completion. *)
Record printed := Printed { diagnostics : list string; completion : option dict }.

Definition handle_event (out : printed) (d : dict) : T printed :=
  let event := get "greyward_update_event" d in
  if is_str "phase" event then
    known ← atomic (lift (in_set HELPER_PHASES (get "phase" d)));
    if known : bool
    then _ ← set_ [("phase", get "phase" d); ("current_item", VStr (py_str (py_or (get "message" d) (VStr "The update is in progress."))));
                   ("progress", VNone)]; Return out
    else Return out
  else if is_str "recovery" event then
    point ← atomic (lift (dict_of (get "recovery_point" d)));
    if truthy (get "id" point) && is_str "valid" (get "status" point)
    then _ ← set_ [("recovery_point_id", get "id" point); ("recovery_point_status", VStr "VALID")]; Return out
    else Return out
  else if is_str "provider" event then
    tx ← copy;
    results ← atomic (lift (iter_items (py_or (get "provider_results" tx) (VList []))));
    let row := VDict (dlit (map (fun k => (k, get k d)) ["provider"; "state"; "reason"])) in
    _ ← set_ [("provider_results", VList (results ++ [row]))]; Return out
  else if is_str "complete" event then Return (Printed (diagnostics out) (Some d))
  else Return out.

Definition handle_line (deadline : Z) (out : printed) (line : string) : T printed :=
  now ← atomic (gets (fun s => monotonic (p_host s)));
  if deadline <? now then _ ← host kill_process; Raise (RuntimeError "The privileged update action timed out.")
  else match helper_event line with
       | None => Return (Printed (last_n 40 (diagnostics out ++ [strip line])) (completion out))
       | Some d => handle_event out d
       end.

(** [run_privileged_update(...)]. *)
Definition helper_timeout : Z := 3600 * second.

Definition helper_failure (out : printed) (code : Z) : exn :=
  if (code =? 126) || (code =? 127) then RuntimeError "Authorization was cancelled or unavailable. No privileged update was started."
  else
    let detail := str_last 1000 (join " " (List.filter (fun t => negb (String.eqb t "")) (last_n 8 (diagnostics out)))) in
    RuntimeError (if String.eqb detail "" then "The native update provider exited with status " +:+ str_of_Z code +:+ "." else detail).

Definition run_privileged_update (id : val) (system system_flatpak firmware : bool) (drivers : list string) : T dict :=
  present ← atomic (gets (fun s => helper_present (p_host s)));
  if negb present then Raise (RuntimeError "The GREYWARD update transaction helper is unavailable.")
  else
    lines ← attempt (host (popen (helper_command id system system_flatpak firmware drivers)))
      (fun e => if is_os_error e then Raise (RuntimeError ("The privileged update action could not start: " +:+ exn_name e +:+ ".")) else Raise e);
    start ← atomic (gets (fun s => monotonic (p_host s)));
    let deadline := start + helper_timeout in
    out ← thread_fold (handle_line deadline) (Printed [] None) lines;
    now ← atomic (gets (fun s => monotonic (p_host s)));
    code ← host (wait_process (Z.max 1 (Z.quot (deadline - now) second)));
    if negb (code =? 0) then Raise (helper_failure out code)
    else match completion out with
         | Some d => Return d
         | None => Raise (RuntimeError "The update helper finished without a verified completion event.")
         end.

(** ** The other providers *)

(** [provider_has_actionable_update(records, category, scope)]. *)
Definition actionable_item (category : string) (scope : option string) (d : dict) : res bool :=
  if is_str category (get "category" d) && is_true (get "update_available" d)
  then match scope with
       | None => Ok true
       | Some s => metadata ← as_dict (getd "metadata" (VDict []) d); Ok (is_str s (get "scope" metadata))
       end
  else Ok false.

Definition provider_has_actionable_update (records : list val) (category : string) (scope : option string) : res bool :=
  any_res (fun v => d ← as_dict v; actionable_item category scope d) records.

Definition result_row (provider state reason : string) : val :=
  VDict (dlit [("provider", VStr provider); ("state", VStr state); ("reason", VStr reason)]).

Definition with_detail (row : val) (detail : val) : val := match row with VDict d => VDict (dset "detail" detail d) | v => v end.

(** The user's applications, updated without privileges. *)
Definition user_flatpak : list string := ["flatpak"; "update"; "--user"; "--noninteractive"].

Definition last_line (out err : string) : val :=
  match rev (splitlines (strip (out +:+ String newline "" +:+ err))) with l :: _ => VStr (str_take 240 l) | [] => VNone end.

Definition update_user_apps (records : list val) : T val :=
  let name := "Flatpak (user)" in
  wanted ← atomic (lift (provider_has_actionable_update records "application" (Some "user")));
  if negb wanted then Return (result_row name "SKIPPED" "No actionable update was reported by the provider.")
  else
    present ← atomic (gets (fun s => which "flatpak" (p_host s)));
    if negb present then Return (result_row name "UNAVAILABLE" "flatpak is unavailable.")
    else
      _ ← set_ [("phase", VStr "UPDATING_APPLICATIONS"); ("current_item", VStr "Updating Flatpak (user) through its native provider.");
                ("progress", VNone); ("error", VNone)];
      r ← host (run user_flatpak);
      match r with
      | NotRun _ _ => Return (result_row name "DEGRADED" "Flatpak (user) did not complete.")
      | Finished 0 out err =>
          Return (with_detail (result_row name "SUCCESS" "Flatpak (user) completed through its native provider.") (last_line out err))
      | Finished _ out err => Return (with_detail (result_row name "DEGRADED" "Flatpak (user) reported a failure.") (last_line out err))
      end.

(** What is said about a provider of the privileged plan. *)
Record apply_plan := ApplyPlan { plan_system : bool; plan_flatpak : bool; plan_firmware : bool }.

Definition has_result (provider : string) (results : list val) : res bool :=
  any_res (fun v => d ← as_dict v; Ok (is_str provider (get "provider" d))) results.

Definition planned_row (provider : string) (planned wanted : bool) (results : list val) : res (list val) :=
  if negb wanted then Ok (results ++ [result_row provider "SKIPPED" "No actionable update was reported by the provider."])
  else if planned then Ok results
  else
    there ← has_result provider results;
    Ok (if there : bool then results else results ++ [result_row provider "UNAVAILABLE" "The privileged provider plan was not available."]).

Definition planned_rows (plan : apply_plan) (records results : list val) : res (list val) :=
  flatpak ← provider_has_actionable_update records "application" (Some "system");
  results ← planned_row "Flatpak (system)" (plan_flatpak plan) flatpak results;
  firmware ← provider_has_actionable_update records "firmware" None;
  results ← planned_row "fwupd" (plan_firmware plan) firmware results;
  Ok (results ++ [result_row "freshclam/ClamAV" "SKIPPED" "No actionable database update was reported."]).

(** A success is kept only if the provider offers nothing any more. *)
Definition still_available (readback : list val) (provider : val) : res bool :=
  if is_str "Flatpak (user)" provider then provider_has_actionable_update readback "application" (Some "user")
  else if is_str "Flatpak (system)" provider then provider_has_actionable_update readback "application" (Some "system")
  else if is_str "fwupd" provider then provider_has_actionable_update readback "firmware" None
  else Ok false.

Definition degrade (reason : string) (d : dict) : dict := dupdate d [("state", VStr "DEGRADED"); ("reason", VStr reason)].

Definition verify_result (readback : option (list val)) (v : val) : res val :=
  d ← as_dict v;
  if negb (is_str "SUCCESS" (get "state" d)) then Ok v
  else match readback with
       | None => Ok (VDict (degrade "Provider completion could not be verified." d))
       | Some records =>
           provider ← item "provider" d;
           still ← still_available records provider;
           Ok (if still : bool then VDict (degrade "The provider still reports an available update after the operation." d) else v)
       end.

Definition requires_restart (records : list val) : res bool :=
  any_res (fun v => d ← as_dict v; Ok (is_str "REQUIRED" (get "reboot_required" d))) records.

Definition records_of (data : dict) : res (list val) := as_list (getd "records" (VList []) data).

(** The snapshot after the operation, unless it fails. *)
Definition read_back : T (option dict) := attempt (v ← host snapshot; Return (Some v)) (fun _ => Return None).

(** [run_optional_provider_updates(data, initial_results, privileged_plan)]. *)
Definition run_optional_provider_updates (data : dict) (initial : list val) (plan : apply_plan) : T unit :=
  records ← atomic (lift (records_of data));
  user ← update_user_apps records;
  results ← atomic (lift (planned_rows plan records (initial ++ [user])));
  back ← read_back;
  _ ← match back with Some v => atomic (cache_snapshot v) | None => Return tt end;
  after_records ← atomic (lift (match back with Some v => r ← records_of v; Ok (Some r) | None => Ok None end));
  verified ← atomic (lift (mapM_res (verify_result after_records) results));
  current ← copy;
  again ← atomic (lift (match after_records with Some r => requires_restart r | None => Ok false end));
  let restart := if is_str "REQUIRED" (get "restart_required" current) || again then VStr "REQUIRED"
                 else getd "restart_required" (VStr "UNKNOWN") current in
  _ ← finish [("provider_results", VList verified); ("phase", VStr (if is_str "REQUIRED" restart then "READY_TO_RESTART" else "COMPLETE"));
              ("current_item", VNone); ("progress", VNone); ("restart_required", restart)];
  atomic (request_snapshot_refresh true).

(** ** The workers *)

(** Texts of the driver packages on the command line. *)
Definition driver_texts (l : list val) : list string := omap (fun v => match v with VStr s => Some s | _ => None end) l.

Definition kept (k : string) (given : val) : T val := if truthy given then Return given else tx ← copy; Return (get k tx).

(** The privileged part: the results of its providers. *)
Definition apply_privileged (plan : apply_plan) : T (list val) :=
  if negb (plan_system plan || plan_flatpak plan || plan_firmware plan) then Return []
  else
    _ ← set_ [("phase", VStr "AUTHENTICATING");
              ("current_item", VStr "Enter your account password once to authorize the reviewed system changes.")];
    tx ← copy;
    drivers ← (if plan_system plan then host essential_driver_package_names else Return []);
    done_ ← run_privileged_update (get "id" tx) (plan_system plan) (plan_flatpak plan) (plan_firmware plan) (driver_texts drivers);
    results ← atomic (lift (iter_items (py_or (get "provider_results" done_) (VList []))));
    point ← atomic (lift (dict_of (get "recovery_point" done_)));
    id ← kept "recovery_point_id" (get "id" point);
    status ← kept "recovery_point_status" (if is_str "valid" (get "status" point) then VStr "VALID" else VNone);
    restart ← (if plan_system plan then Return (VStr "REQUIRED") else tx ← copy; Return (getd "restart_required" (VStr "UNKNOWN") tx));
    let details := "The reviewed privileged providers completed through one authenticated transaction."
      +:+ (if truthy (get "optional_repo_skipped" done_)
           then " The optional OpenH264 repository was unavailable; its codec packages were deferred." else "") in
    _ ← set_ [("provider_results", VList results); ("recovery_point_id", id); ("recovery_point_status", status);
              ("restart_required", restart); ("details", VStr details)];
    Return results.

(** [apply_all_worker()]. *)
Definition apply_all_worker : T unit :=
  attempt
    (_ ← set_ [("backend", VStr "native-provider-helper"); ("phase", VStr "RESOLVING");
               ("current_item", VStr "Confirming the reviewed provider plan."); ("error", VNone); ("details", VNone);
               ("provider_results", VList [])];
     data ← host snapshot;
     _ ← atomic (cache_snapshot data);
     records ← atomic (lift (records_of data));
     provider ← host (p ← selected_system_provider; mret p.1);
     wanted ← atomic (lift (provider_has_actionable_update records "system" None));
     if String.eqb provider "rpm-ostree" && wanted
     then finish [("phase", VStr "FAILED"); ("error", VStr "The Atomic system update could not be applied.");
                  ("details", VStr "The rpm-ostree mutation path is unavailable in this build.")]
     else
       flatpak ← atomic (lift (provider_has_actionable_update records "application" (Some "system")));
       firmware ← atomic (lift (provider_has_actionable_update records "firmware" None));
       let plan := ApplyPlan (String.eqb provider "DNF5" && wanted) flatpak firmware in
       results ← apply_privileged plan;
       run_optional_provider_updates data results plan)
    (fun e => finish [("phase", VStr "FAILED"); ("error", VStr "The update was not completed."); ("details", VStr (exn_text e))]).

(** [restart_worker()]. *)
Definition restart_worker : T unit :=
  attempt
    (_ ← set_ [("phase", VStr "RESTARTING"); ("current_item", VStr "Restarting through the desktop system service.");
               ("restart_required", VStr "REQUIRED")];
     host login_reboot)
    (fun e => finish [("phase", VStr "FAILED"); ("error", VStr "The system could not be restarted."); ("details", VStr (exn_text e))]).

(** ** Requests *)

(** The operations of the D-Bus methods. *)
Inductive operation := Resolve | Apply | ApplyAll | Cancel | Reboot.

Definition operation_name (op : operation) : string :=
  match op with Resolve => "resolve" | Apply => "apply" | ApplyAll => "apply_all" | Cancel => "cancel" | Reboot => "reboot" end.

(** The fields a new operation resets. *)
Definition fresh_operation (op : operation) (id now : val) (item : string) : list (string * val) :=
  [("id", id); ("operation", VStr (operation_name op)); ("phase", VStr "RESOLVING"); ("progress", VNone); ("current_item", VStr item);
   ("error", VNone); ("details", VNone); ("recovery_point_id", VNone); ("recovery_point_status", VNone); ("provider_results", VList []);
   ("downloaded", VInt 0); ("download_total", VInt 0); ("processed", VInt 0); ("total", VInt 0); ("restart_required", VStr "UNKNOWN");
   ("started_at", now); ("finished_at", VNone); ("cancellable", VBool false)].

(** [new_operation_id()]. *)
Definition new_operation_id (s : P) : val := VStr ("dnf5-" +:+ str_of_Z (wall s / 1000)).

(** The cancellation of an operation that may be cancelled. *)
Definition cancel_operation (current : dict) : M dict :=
  s ← gets id;
  if negb (is_true (get "cancellable" current)) then mret current
  else match p_session s with
       | None => mret current
       | Some _ =>
           cancelled ← catch (_ ← on_host native_cancel; mret true) (fun _ => true) (fun _ => mret false);
           if cancelled : bool
           then stamped [("phase", VStr "CANCELLED"); ("error", VNone); ("details", VNone); ("cancellable", VBool false)]
           else mret current
       end.

(** [start_operation(operation)]: the transaction and the worker it starts. *)
Definition begin_operation (op : operation) : M (dict * option (T unit)) :=
  s ← gets id;
  let id := new_operation_id (p_host s) in
  let now := now_text (p_host s) in
  match op with
  | Resolve =>
      v ← settx (("summary", VNone) :: fresh_operation op id now "Resolving Fedora updates."); mret (v, Some resolve_worker)
  | Apply | ApplyAll =>
      v ← settx (fresh_operation op id now "Confirming the reviewed provider plan."); mret (v, Some apply_all_worker)
  | Reboot =>
      v ← settx [("operation", VStr "reboot"); ("phase", VStr "RESTARTING"); ("current_item", VStr "Restarting through the desktop system service.");
                 ("started_at", now); ("finished_at", VNone); ("cancellable", VBool false)];
      mret (v, Some restart_worker)
  | Cancel => mret (p_tx s, None)
  end.

Definition start_operation (op : operation) : M (dict * option (T unit)) :=
  current ← transaction_copy;
  busy ← lift (active current);
  if busy : bool
  then match op with
       | Cancel => v ← cancel_operation current; mret (v, None)
       | _ => mret (current, None)
       end
  else begin_operation op.

(** What each method of the interface starts. *)
Definition method_operation (name : string) : option operation :=
  if member name ["UpdateAll"; "ResolveSystemUpdate"] then Some Resolve
  else if member name ["ApplySystemUpdate"; "PrepareSystemUpdate"] then Some ApplyAll
  else if String.eqb name "CancelUpdate" then Some Cancel
  else if String.eqb name "RestartAndApply" then Some Reboot else None.

(** The methods that read, and their answers. *)
Inductive query := GetSnapshot | GetProviderStatus | GetHistory | CheckForUpdates | GetTransactionStatus.

Definition snapshot_answer : M string :=
  value ← read_snapshot; tx ← transaction_copy; mret (dumps (VDict (dset "transaction" (VDict tx) value))).

Definition answer (q : query) : M string :=
  match q with
  | GetSnapshot => snapshot_answer
  | GetProviderStatus => value ← read_snapshot; v ← lift (item "providers" value); mret (dumps v)
  | GetHistory => value ← read_snapshot; v ← lift (item "history" value); mret (dumps v)
  | CheckForUpdates => _ ← request_snapshot_refresh true; snapshot_answer
  | GetTransactionStatus => tx ← transaction_copy; mret (dumps (VDict tx))
  end.

(** ** The service *)

(** The variables and the threads that run. *)
Record center_state := Service { sv_process : process P; sv_threads : list (T unit) }.

(** The variables when the service starts. *)
Definition started (h : P) (file : option val) : res (process P) :=
  let '(r, h) := load_transaction file h in
  loaded ← r; Ok (Process h loaded.1 loaded.2 None None 0 false 0 []).

Section steps.
Context (world : P -> P -> Prop) (allowed : operation -> Prop) (restarts : Prop).

(** One step: a request, a signal, one action of one thread, the start of a
    refresh, a read, a new start of the service after its end (if [restarts]),
    or a change of the [world] around it. *)
Inductive service_step : center_state -> center_state -> Prop :=
| step_request op s ths v w s' :
    allowed op -> start_operation op s = (Ok (v, w), s') ->
    service_step (Service s ths) (Service s' (ths ++ match w with Some t => [t] | None => [] end))
| step_signal path g s ths :
    service_step (Service s ths) (Service (after (on_signal path g) s) ths)
| step_read q s ths :
    service_step (Service s ths) (Service (after (answer q) s) ths)
| step_refresh s ths n :
    p_refreshers s = S n ->
    service_step (Service s ths)
      (Service (Process (p_host s) (p_tx s) (p_file s) (p_session s) (p_snapshot s) (p_refreshed s) (p_refreshing s) n (p_events s))
               (ths ++ [refresh_snapshot_worker]))
| step_thread s before B (m : M B) k later b s' :
    m s = (Ok b, s') -> service_step (Service s (before ++ Atomic m k :: later)) (Service s' (before ++ k b :: later))
| step_raise s before B (m : M B) (k : B -> T unit) later e s' :
    m s = (Err e, s') -> service_step (Service s (before ++ Atomic m k :: later)) (Service s' (before ++ Raise e :: later))
| step_end s before t later :
    match t with Atomic _ _ => False | _ => True end -> service_step (Service s (before ++ t :: later)) (Service s (before ++ later))
| step_start s ths s' :
    restarts -> started (p_host s) (p_file s) = Ok s' -> service_step (Service s ths) (Service (after (request_snapshot_refresh true) s') [])
| step_world s ths h :
    world (p_host s) h -> service_step (Service s ths)
      (Service (Process h (p_tx s) (p_file s) (p_session s) (p_snapshot s) (p_refreshed s) (p_refreshing s) (p_refreshers s) (p_events s)) ths).
End steps.
End workers.
