(* ===== verification/UpdateServiceClaims.v ===== *)
(** * Update transactions: theorems

    A resolution never mutates the system, whatever is interleaved; a finished
    operation is never shown as in progress; every worker settles its operation;
    a provider is reported as updated only if it offers nothing any more. *)
From S2P Require Import Prelude PyVal PyStr IpAddr Json NetworkRules PyText PyTime ShellSummary Commands ClamAv UpdateCenter UpdateProviders UpdateClaims UpdateTransaction UpdateWorkers.

(** ** Threads *)

Section threads.
Context {S : Type} (R : S -> S -> Prop) `{!PreOrder R}.

(** Every action of the thread respects [R]. *)
Inductive quiet {A} : thread S A -> Prop :=
| quiet_Return a : quiet (Return a)
| quiet_Raise e : quiet (Raise e)
| quiet_Atomic B (m : act S B) k : respects R m -> (forall b, quiet (k b)) -> quiet (Atomic m k).

Lemma quiet_Atomic_inv {A B} (m : act S B) (k : B -> thread S A) : quiet (Atomic m k) -> respects R m /\ forall b, quiet (k b).
Proof.
  intros Hq. change (match Atomic m k with Atomic m k => respects R m /\ forall b, quiet (k b) | _ => True end). by destruct Hq.
Qed.

Lemma quiet_bind {A B} (t : thread S A) (f : A -> thread S B) : quiet t -> (forall a, quiet (f a)) -> quiet (t ≫= f).
Proof.
  intros Ht Hf. change (quiet (thread_bind t f)). induction Ht as [a|e|C m k Hm _ IH]; cbn [thread_bind]; [apply Hf|constructor|].
  by constructor.
Qed.

Lemma respects_caught {A} (m : act S A) : respects R m -> respects R (caught m).
Proof. intros Hm s. specialize (Hm s). unfold after, caught in *. by destruct (m s) as [[a|e] s']. Qed.

Lemma quiet_attempt {A} (t : thread S A) h : quiet t -> (forall e, quiet (h e)) -> quiet (attempt t h).
Proof.
  intros Ht Hh. induction Ht as [a|e|C m k Hm _ IH]; cbn [attempt]; [constructor|apply Hh|].
  constructor; [by apply respects_caught|]. by intros [b|e].
Qed.

Lemma quiet_atomic {A} (m : act S A) : respects R m -> quiet (atomic m).
Proof. intros Hm. by repeat constructor. Qed.

Lemma quiet_fold {A B} (f : B -> A -> thread S B) b l : (forall b x, quiet (f b x)) -> quiet (thread_fold f b l).
Proof.
  intros Hf. revert b; induction l as [|x l IH]; intros b; cbn [thread_fold]; [constructor|].
  change (quiet (f b x ≫= fun b => thread_fold f b l)). apply quiet_bind; [apply Hf|done].
Qed.
End threads.
Create HintDb quiet.

Section runs.
Context {S : Type}.

Lemma run_bind {A B} (t : thread S A) (f : A -> thread S B) s :
  run_thread (t ≫= f) s = (run_thread t ≫= fun a => run_thread (f a)) s.
Proof.
  change (run_thread (thread_bind t f) s = (run_thread t ≫= fun a => run_thread (f a)) s). revert s.
  induction t as [a|e|C m k IH]; intros s; [done|done|]. cbn [thread_bind run_thread]. unfold mbind, act_bind.
  destruct (m s) as [[b|e] s']; [apply IH|done].
Qed.

Lemma run_atomic {A} (m : act S A) s : run_thread (atomic m) s = m s.
Proof. unfold atomic. cbn [run_thread]. unfold mbind, act_bind. by destruct (m s) as [[a|e] s']. Qed.

Lemma run_bind_Ok {A B} (t : thread S A) (f : A -> thread S B) s b s' :
  run_thread (t ≫= f) s = (Ok b, s') -> exists a s1, run_thread t s = (Ok a, s1) /\ run_thread (f a) s1 = (Ok b, s').
Proof. rewrite run_bind. apply act_bind_Ok. Qed.

Lemma run_attempt {A} (t : thread S A) h s :
  run_thread (attempt t h) s = catch (run_thread t) (fun _ => true) (fun e => run_thread (h e)) s.
Proof.
  revert s; induction t as [a|e|C m k IH]; intros s; [done|done|]. cbn [attempt run_thread]. unfold mbind, act_bind, catch, caught.
  destruct (m s) as [[b|e] s']; [apply IH|done].
Qed.
End runs.

Section claims.
Context {P : Type} `{CenterHost P} `{Host} `{IsoText} `{FloatText}.
Abbreviation T := (thread (process P)).

(** ** Resolutions do not mutate the system *)

(** The session of the daemon, its goal, and the time that passes keep the
    relation; so does what else happens in the [world]. *)
Class ObservingCenter (R : P -> P -> Prop) (world : P -> P -> Prop) : Prop := {
  center_observing :: Observing R;
  center_open : forall excluded, respects R (native_open excluded);
  center_install : forall l, respects R (native_install l);
  center_upgrade : respects R native_upgrade;
  center_resolve : respects R native_resolve;
  center_problems : respects R native_problems;
  center_cancel : respects R native_cancel;
  center_world : forall h h', world h h' -> R h h';
}.

(** A relation [Q] on the variables of the service that is kept by the
    operations of the host which keep [R], by every change of the transaction,
    and by every change of the other variables. *)
Section steps.
Context (R : P -> P -> Prop) (world : P -> P -> Prop) `{!ObservingCenter R world}.
Context (Q : process P -> process P -> Prop) `{!PreOrder Q}.
Context (Q_host : forall A (m : act P A), respects R m -> respects Q (on_host m)).
Context (Q_set : forall values, respects Q (set_transaction values)).
Context (Q_modify : forall s s' : process P, p_host s = p_host s' -> p_tx s = p_tx s' -> Q s s').

Lemma over_modify (f : process P -> process P) :
  (forall s, p_host s = p_host (f s) /\ p_tx s = p_tx (f s)) -> respects Q (modify f).
Proof. intros Hf. apply respects_modify. intros s. by apply Q_modify; apply Hf. Qed.

#[local] Hint Extern 1 (read_only _ = true) => reflexivity : quiet.
#[local] Hint Extern 0 (Observing _) => exact center_observing : quiet.
#[local] Hint Extern 2 (forall s, p_host _ = p_host _ /\ _) => intros []; split; reflexivity : quiet.
#[local] Hint Resolve Q_host Q_set over_modify : quiet.
#[local] Hint Extern 1 (respects R _) =>
  first [apply (center_open (world := world)) | apply (center_install (world := world)) | exact (center_upgrade (world := world))
        | exact (center_resolve (world := world)) | exact (center_problems (world := world)) | exact (center_cancel (world := world))] : quiet.
#[local] Hint Resolve observing_run constraints_observe installed_observe history_observes snapshot_observes driver_names_observe
  dnf_options_observe : quiet.

(** Descends to the actions and the operations of the host. *)
Ltac calm :=
  repeat first
    [ match goal with |- PreOrder Q => assumption | |- PreOrder R => exact observing_order end
    | solve [auto with quiet nocore]
    | apply quiet_Return | apply quiet_Raise | apply quiet_atomic | apply quiet_bind; [|intros ?] | apply quiet_attempt; [|intros ?]
    | apply quiet_fold; intros ? ?
    | apply respects_ret | apply respects_lift | apply respects_raise | apply respects_gets
    | apply respects_bind; [first [assumption|exact observing_order] | |intros ?]
    | apply respects_catch; [first [assumption|exact observing_order] | |intros ?]
    | match goal with
      | |- _ _ (match ?x with _ => _ end) => destruct x
      | |- _ _ (let '_ := ?x in _) => destruct x
      end ].

Lemma selected_observes : respects R selected_system_provider.
Proof. unfold selected_system_provider. calm. Qed.

#[local] Hint Resolve selected_observes : quiet.

Lemma pending_observes : respects R pending_snapshot.
Proof. unfold pending_snapshot. calm. Qed.

Lemma stamped_over values : respects Q (stamped values).
Proof. unfold stamped, settx. calm. Qed.

Lemma settx_over values : respects Q (settx values).
Proof. unfold settx. calm. Qed.

Lemma cache_over v : respects Q (cache_snapshot v).
Proof. unfold cache_snapshot. calm. Qed.

Lemma request_over force : respects Q (request_snapshot_refresh force).
Proof.
  unfold request_snapshot_refresh. apply over_modify. intros s. destruct (p_refreshing s || (negb force && _)); by split.
Qed.

#[local] Hint Resolve pending_observes stamped_over settx_over cache_over request_over : quiet.

Lemma set_quiet values : quiet Q (set_ values).
Proof. unfold set_. calm. Qed.

Lemma finish_quiet values : quiet Q (finish values).
Proof. unfold finish. calm. Qed.

Lemma copy_quiet : quiet Q (copy (P := P)).
Proof. unfold copy, transaction_copy. calm. Qed.

Lemma host_quiet {A} (m : act P A) : respects R m -> quiet Q (host m).
Proof. intros Hm. unfold host. calm. Qed.

#[local] Hint Resolve set_quiet finish_quiet copy_quiet host_quiet : quiet.

Lemma refresh_quiet : quiet Q refresh_snapshot_worker.
Proof. unfold refresh_snapshot_worker, failed_refresh, idle_refresh. calm. Qed.

Lemma read_over : respects Q read_snapshot.
Proof. unfold read_snapshot, transaction_copy, when. calm. Qed.

Lemma session_over : respects Q native_session.
Proof. unfold native_session, set_session. calm. Qed.

Lemma summary_quiet items : quiet Q (make_summary items).
Proof. unfold make_summary, security_updates. calm. Qed.

#[local] Hint Resolve refresh_quiet read_over session_over summary_quiet : quiet.

Lemma answer_over q : respects Q (answer q).
Proof. unfold answer, snapshot_answer, transaction_copy. calm. Qed.

Lemma cli_items_quiet : quiet Q cli_upgrade_items.
Proof. unfold cli_upgrade_items. calm. Qed.

Lemma resolved_quiet items summary details : quiet Q (resolved items summary details).
Proof. unfold resolved. calm. Qed.

#[local] Hint Resolve cli_items_quiet resolved_quiet : quiet.

Lemma resolve_cli_quiet : quiet Q resolve_cli_worker.
Proof. unfold resolve_cli_worker, unresolved. calm. Qed.

#[local] Hint Resolve resolve_cli_quiet : quiet.

Lemma goal_quiet : quiet Q resolve_native_goal.
Proof. unfold resolve_native_goal. calm. Qed.

#[local] Hint Resolve goal_quiet : quiet.

Lemma resolve_quiet : quiet Q resolve_worker.
Proof. unfold resolve_worker, unresolved. calm. Qed.

#[local] Hint Resolve resolve_quiet : quiet.

(** *** Signals, requests and the start of the service *)

Lemma signal_over path g : respects Q (on_signal path g).
Proof. unfold on_signal. destruct g; calm. Qed.

Lemma offline_observes v : respects R (dnf_offline_history_result v).
Proof. unfold dnf_offline_history_result. calm. Qed.

#[local] Hint Resolve offline_observes : quiet.

Lemma load_observes file : respects R (load_transaction file).
Proof. unfold load_transaction, reconcile_transaction, reconcile_completed_restart. calm. Qed.

Lemma cancel_over tx : respects Q (cancel_operation tx).
Proof. unfold cancel_operation. calm. Qed.

#[local] Hint Resolve cancel_over : quiet.

Lemma operation_over op : respects Q (start_operation op).
Proof. unfold start_operation, begin_operation, active, transaction_copy. calm. Qed.

(** The worker a request starts. *)
Definition worker_of (op : operation) : option (T unit) :=
  match op with Resolve => Some resolve_worker | Apply | ApplyAll => Some apply_all_worker | Reboot => Some restart_worker | Cancel => None end.

Lemma operation_worker op s v w s' : start_operation op s = (Ok (v, w), s') -> w = None \/ w = worker_of op.
Proof.
  assert (forall (a b : process P) (x y : dict * option (T unit)), (Ok x, a) = (Ok y, b) -> y.2 = x.2) as Hinj by (intros; congruence).
  unfold start_operation. intros Hr. apply act_bind_Ok in Hr as (current & s1 & _ & Hr). apply act_bind_Ok in Hr as (busy & s2 & _ & Hr).
  destruct busy.
  - left. destruct op; try (apply Hinj in Hr; exact Hr). apply act_bind_Ok in Hr as (x & s3 & _ & Hr). apply Hinj in Hr. exact Hr.
  - unfold begin_operation in Hr. apply act_bind_Ok in Hr as (s3 & s4 & _ & Hr). destruct op;
      try (apply act_bind_Ok in Hr as (x & s5 & _ & Hr)); apply Hinj in Hr; by right.
Qed.

Context (allowed : operation -> Prop) (restarts : Prop).
Context (Q_world : forall s s' : process P, R (p_host s) (p_host s') -> p_tx s = p_tx s' -> Q s s').
Context (Q_start : forall s s', restarts -> R (p_host s) (p_host s') -> started (p_host s) (p_file s) = Ok s' -> Q s s').
Context (workers_quiet : forall op t, allowed op -> worker_of op = Some t -> quiet Q t).

Lemma step_quiet c c' :
  service_step world allowed restarts c c' -> Forall (quiet Q) (sv_threads c) ->
  Q (sv_process c) (sv_process c') /\ Forall (quiet Q) (sv_threads c').
Proof.
  intros Hs. destruct Hs as [op s ths v w s' Hop Hw|path g s ths|q s ths|s ths n Hn|s before B m k later b s' Hm|s before B m k later e s' Hm
    |s before t later Ht|s ths s' Hr Hst|s ths h Hw]; cbn [sv_process sv_threads]; intros Hq.
  - split; [pose proof (operation_over op s) as Ho; unfold after in Ho; by rewrite Hw in Ho|].
    apply Forall_app. split; [done|]. apply operation_worker in Hw as [-> | ->]; [constructor|].
    pose proof (workers_quiet op) as Hwk. destruct (worker_of op) as [t|]; [|constructor]. constructor; [by apply Hwk|constructor].
  - split; [apply signal_over|done].
  - split; [apply answer_over|done].
  - split; [by apply Q_modify|]. apply Forall_app. split; [done|]. constructor; [apply refresh_quiet|constructor].
  - apply Forall_app in Hq as [Hb Hq]. apply Forall_cons in Hq as [Ht Hl].
    apply quiet_Atomic_inv in Ht as [Hm' Hk]. split; [pose proof (Hm' s) as Ho; unfold after in Ho; by rewrite Hm in Ho|].
    apply Forall_app. split; [done|]. by constructor.
  - apply Forall_app in Hq as [Hb Hq]. apply Forall_cons in Hq as [Ht Hl].
    apply quiet_Atomic_inv in Ht as [Hm' Hk]. split; [pose proof (Hm' s) as Ho; unfold after in Ho; by rewrite Hm in Ho|].
    apply Forall_app. split; [done|]. constructor; [constructor|done].
  - split; [reflexivity|]. apply Forall_app in Hq as [Hb Hq]. apply Forall_cons in Hq as [_ Hl]. by apply Forall_app.
  - split; [|constructor]. etransitivity; [|apply request_over]. apply Q_start; [done| |done]. unfold started in Hst.
    pose proof (load_observes (p_file s) (p_host s)) as Ho. unfold after in Ho.
    destruct (load_transaction (p_file s) (p_host s)) as [r h]. apply bind_Ok in Hst as (loaded & _ & Hst).
    assert (p_host s' = h) as -> by (injection Hst as <-; reflexivity). exact Ho.
  - split; [|done]. apply Q_world; [|done]. by apply (center_world (R := R) (world := world)).
Qed.

Lemma reach_quiet c c' :
  sv_threads c = [] -> rtc (service_step world allowed restarts) c c' -> Q (sv_process c) (sv_process c').
Proof.
  intros Hnone Hr. assert (Forall (quiet Q) (sv_threads c)) as Hq by (rewrite Hnone; constructor). clear Hnone.
  induction Hr as [c|c c1 c2 Hs _ IH]; [reflexivity|]. destruct (step_quiet _ _ Hs Hq) as [Ho Hq1].
  etransitivity; [exact Ho|]. by apply IH.
Qed.
End steps.

(** The requests that only look for updates. *)
Definition looking (op : operation) : Prop := op = Resolve \/ op = Cancel.

(** C8. As long as the requests only look for updates or cancel, nothing the
    service does, in any interleaving of its threads, with any signals, read
    requests and new starts, breaks a relation on the host that is kept by the
    queries, by the session of the daemon and its goal, and by what happens
    elsewhere: a resolution installs and removes nothing and reboots nothing. *)
Theorem resolution_never_mutates R world `{!ObservingCenter R world} restarts c c' :
  sv_threads c = [] -> rtc (service_step world looking restarts) c c' -> R (p_host (sv_process c)) (p_host (sv_process c')).
Proof.
  pose proof (observing_order (R := R)) as Ho. set (Q s s' := R (p_host s) (p_host s')).
  assert (PreOrder Q) as HQ by (split; [intros s; unfold Q; reflexivity|intros s t u; unfold Q; apply Ho]).
  assert (forall A (m : act P A), respects R m -> respects Q (on_host m)) as Hh.
  { intros A m Hm s. specialize (Hm (p_host s)). unfold after, Q, on_host in *. by destruct (m (p_host s)). }
  assert (forall values, respects Q (set_transaction values)) as Hset by (intros values s; unfold Q; cbn; reflexivity).
  assert (forall s s' : process P, p_host s = p_host s' -> p_tx s = p_tx s' -> Q s s') as Hm by (intros s s' Heq _; unfold Q; by rewrite Heq).
  intros Hnone Hr. refine (reach_quiet R world Q Hh Hset Hm looking restarts _ _ _ c c' Hnone Hr).
  - done.
  - done.
  - intros op t [-> | ->] Hw; [|done]. injection Hw as <-. by apply (resolve_quiet R world Q).
Qed.

(** ** A finished operation is not in progress *)

(** In a terminal phase there is no progress and nothing to cancel. *)
Definition settled (tx : dict) : Prop :=
  terminal tx = true -> get "progress" tx = VNone /\ get "cancellable" tx = VBool false.

Lemma terminal_phase a b : get "phase" a = get "phase" b -> terminal a = terminal b.
Proof. unfold terminal. by intros ->. Qed.

Lemma changed_settled h values tx : settled (changed_by h values tx).
Proof.
  unfold settled, changed_by. set (v := dupdate tx values). destruct (terminal v) eqn:Et.
  - intros _. set (w := dset "cancellable" (VBool false) (dset "progress" VNone v)).
    assert (forall x, get "progress" (dset "updated_at" (now_text h) (dset "boot_id" (boot_val h) x)) = get "progress" x
      /\ get "cancellable" (dset "updated_at" (now_text h) (dset "boot_id" (boot_val h) x)) = get "cancellable" x) as Hx
      by (intros x; split; unfold get, getd; by rewrite !dget_dset_ne).
    destruct (Hx (match dget "current_item" values with Some _ => w | None => dset "current_item" VNone w end)) as [-> ->].
    destruct (dget "current_item" values); subst w; unfold get, getd;
      (split; [rewrite ?(dget_dset_ne "progress" "current_item"), dget_dset_ne, dget_dset_eq by done; done
              |rewrite ?(dget_dset_ne "cancellable" "current_item"), dget_dset_eq by done; done]).
  - intros Hf. exfalso. assert (terminal (dset "updated_at" (now_text h) (dset "boot_id" (boot_val h) v)) = terminal v) as He.
    { apply terminal_phase. unfold get, getd. by rewrite !dget_dset_ne. }
    congruence.
Qed.

Definition keeps_settled (s s' : process P) : Prop := settled (p_tx s) -> settled (p_tx s').

#[local] Instance settled_order : PreOrder keeps_settled.
Proof. split; [intros s; unfold keeps_settled; done|intros s t u; unfold keeps_settled; auto]. Qed.

Lemma settled_host A (m : act P A) : respects keeps_settled (on_host m).
Proof. intros s. unfold after, keeps_settled, on_host. by destruct (m (p_host s)). Qed.

Lemma settled_set values : respects keeps_settled (set_transaction values).
Proof. intros s _. apply changed_settled. Qed.

Lemma settled_modify (s s' : process P) : p_host s = p_host s' -> p_tx s = p_tx s' -> keeps_settled s s'.
Proof. intros _ He. unfold keeps_settled. by rewrite He. Qed.

(** Every host keeps the relation that says nothing. *)
Definition anything (h h' : P) : Prop := True.

Lemma anything_center world : ObservingCenter anything world.
Proof. split; [split|..]; unfold respects, anything; done. Qed.

Ltac keep :=
  repeat first
    [ match goal with |- PreOrder _ => exact settled_order end
    | solve [auto with quiet nocore]
    | apply quiet_Return | apply quiet_Raise | apply quiet_atomic | apply quiet_bind; [|intros ?] | apply quiet_attempt; [|intros ?]
    | apply quiet_fold; intros ? ?
    | apply respects_ret | apply respects_lift | apply respects_raise | apply respects_gets
    | apply respects_bind; [exact settled_order | |intros ?] | apply respects_catch; [exact settled_order | |intros ?]
    | match goal with
      | |- _ _ (match ?x with _ => _ end) => destruct x
      | |- _ _ (let '_ := ?x in _) => destruct x
      end ].

#[local] Hint Resolve settled_host settled_set : quiet.

Lemma settled_cache v : respects keeps_settled (cache_snapshot v).
Proof. apply respects_modify. intros s. by apply settled_modify. Qed.

Lemma settled_request force : respects keeps_settled (request_snapshot_refresh force).
Proof.
  apply respects_modify. intros s. cbv zeta. destruct (_ || _); by apply settled_modify.
Qed.

#[local] Hint Resolve settled_cache settled_request : quiet.

Lemma settled_set_ values : quiet keeps_settled (set_ values).
Proof. unfold set_, settx. keep. Qed.

Lemma settled_finish values : quiet keeps_settled (finish values).
Proof. unfold finish, stamped, settx. keep. Qed.

Lemma settled_copy : quiet keeps_settled (copy (P := P)).
Proof. unfold copy, transaction_copy. keep. Qed.

Lemma settled_call {A} (m : act P A) : quiet keeps_settled (host m).
Proof. unfold host. keep. Qed.

#[local] Hint Resolve settled_set_ settled_finish settled_copy settled_call : quiet.

Lemma settled_line deadline out line : quiet keeps_settled (handle_line deadline out line).
Proof. unfold handle_line, handle_event. keep. Qed.

#[local] Hint Resolve settled_line : quiet.

Lemma settled_helper id system flatpak firmware drivers :
  quiet keeps_settled (run_privileged_update id system flatpak firmware drivers).
Proof. unfold run_privileged_update. keep. Qed.

#[local] Hint Resolve settled_helper : quiet.

Lemma settled_privileged plan : quiet keeps_settled (apply_privileged plan).
Proof. unfold apply_privileged, kept. keep. Qed.

Lemma settled_user records : quiet keeps_settled (update_user_apps records).
Proof. unfold update_user_apps. keep. Qed.

#[local] Hint Resolve settled_privileged settled_user : quiet.

Lemma settled_optional data initial plan : quiet keeps_settled (run_optional_provider_updates data initial plan).
Proof. unfold run_optional_provider_updates, read_back. keep. Qed.

#[local] Hint Resolve settled_optional : quiet.

Lemma settled_workers op t : worker_of op = Some t -> quiet keeps_settled t.
Proof.
  destruct op; intros Hw; try discriminate Hw; injection Hw as <-.
  - pose proof (anything_center anything) as Hc.
    exact (resolve_quiet anything anything keeps_settled (fun A m _ => settled_host A m) settled_set settled_modify).
  - unfold apply_all_worker. keep.
  - unfold apply_all_worker. keep.
  - unfold restart_worker. keep.
Qed.

(** In every state the service reaches, whatever is requested, signalled and
    interleaved, an operation in a terminal phase shows no progress and cannot
    be cancelled, if that holds when the service starts. *)
Theorem finished_is_settled world c c' :
  sv_threads c = [] -> settled (p_tx (sv_process c)) -> rtc (service_step world (fun _ => True) False) c c' ->
  settled (p_tx (sv_process c')).
Proof.
  intros Hnone Hs Hr. pose proof (anything_center world) as Hc.
  refine (reach_quiet anything world keeps_settled (fun A m _ => settled_host A m) settled_set settled_modify (fun _ => True) False
            _ _ _ c c' Hnone Hr Hs); try done.
  - intros s s' _ He. unfold keeps_settled. by rewrite He.
  - intros op t _. apply settled_workers.
Qed.

(** ** Workers settle their operation *)

(** The transaction satisfies [Q] whenever the thread returns. *)
Definition ends {A} (Q : dict -> Prop) (t : T A) : Prop := forall s a s', run_thread t s = (Ok a, s') -> Q (p_tx s').

Lemma ends_bind {A B} Q (t : T A) (f : A -> T B) : (forall a, ends Q (f a)) -> ends Q (t ≫= f).
Proof. intros Hf s b s' Hr. apply run_bind_Ok in Hr as (a & s1 & _ & Hr). by eapply Hf. Qed.

Lemma ends_raise {A} Q e : ends Q (Raise (A := A) e).
Proof. intros s a s' Hr. discriminate Hr. Qed.

Definition phase_in (l : list string) (tx : dict) : Prop := exists p, get "phase" tx = VStr p /\ In p l.

(** [set_transaction(phase=p, ...)]. *)
Lemma changed_phase h values tx p : dget "phase" values = Some p -> NoDup (map fst values) -> get "phase" (changed_by h values tx) = p.
Proof.
  intros Hp Hn. unfold changed_by. assert (get "phase" (dupdate tx values) = p) as He.
  { unfold get, getd. by rewrite dget_dupdate, Hp. }
  set (v := dupdate tx values) in *. destruct (terminal v); [destruct (dget "current_item" values)|];
    unfold get, getd; rewrite !dget_dset_ne by done; exact He.
Qed.

Lemma set_phase values s p :
  dget "phase" (dlit values) = Some p -> NoDup (map fst (dlit values)) ->
  exists s', run_thread (set_ values) s = (Ok tt, s') /\ get "phase" (p_tx s') = p.
Proof.
  intros Hp Hn. unfold set_. rewrite run_atomic. eexists. split; [reflexivity|]. by apply changed_phase.
Qed.

Lemma finish_phase values s p :
  (forall now, dget "phase" (dlit (("finished_at", now) :: values)) = Some p /\ NoDup (map fst (dlit (("finished_at", now) :: values)))) ->
  exists s', run_thread (finish values) s = (Ok tt, s') /\ get "phase" (p_tx s') = p.
Proof.
  intros Hv. unfold finish. rewrite run_atomic. eexists. split; [reflexivity|].
  destruct (Hv (now_text (p_host s))) as [Hp Hn]. by apply changed_phase.
Qed.

(** Evaluates a literal dictionary of fields. *)
Ltac fields := intros; split; [reflexivity|cbn; repeat constructor; set_solver].

(** The phases in which a worker leaves the transaction. *)
Definition SETTLED : list string := ["RESOLVED"; "COMPLETE"; "FAILED"; "READY_TO_RESTART"].

(** The thread always returns, and then the transaction satisfies [Q]. *)
Definition settles (Q : dict -> Prop) (t : T unit) : Prop := forall s, exists s', run_thread t s = (Ok tt, s') /\ Q (p_tx s').

Lemma phase_in_settled p tx : In p SETTLED -> get "phase" tx = VStr p -> phase_in SETTLED tx.
Proof. intros Hp Ht. by exists p. Qed.

Lemma settles_ends Q t : settles Q t -> ends Q t.
Proof. intros Ht s [] s' Hr. destruct (Ht s) as (s2 & Hr2 & Hq). rewrite Hr in Hr2. by injection Hr2 as ->. Qed.

Lemma attempt_settles Q (t : T unit) h : ends Q t -> (forall e, settles Q (h e)) -> settles Q (attempt t h).
Proof.
  intros Ht Hh s. rewrite run_attempt. unfold catch. destruct (run_thread t s) as [[[]|e] s'] eqn:E; [|apply Hh].
  exists s'. split; [done|]. by eapply Ht.
Qed.

(** A last action that leaves the transaction alone. *)
Lemma ends_then {A B} Q (t : T A) (m : act (process P) B) :
  ends Q t -> (forall s, p_tx (after m s) = p_tx s) -> ends Q (t ≫= fun _ => atomic m).
Proof.
  intros Ht Hm s b s' Hr. apply run_bind_Ok in Hr as (a & s1 & Hr & Hr'). rewrite run_atomic in Hr'.
  specialize (Hm s1). unfold after in Hm. rewrite Hr' in Hm. cbn [snd] in Hm. rewrite Hm. by eapply Ht.
Qed.

Lemma request_tx force (s : process P) : p_tx (after (request_snapshot_refresh force) s) = p_tx s.
Proof. unfold request_snapshot_refresh, modify, after. cbn [snd]. cbv zeta. by destruct (_ || _). Qed.

Lemma finish_settles values p : In p SETTLED ->
  (forall now, dget "phase" (dlit (("finished_at", now) :: values)) = Some (VStr p) /\ NoDup (map fst (dlit (("finished_at", now) :: values)))) ->
  settles (phase_in SETTLED) (finish values).
Proof.
  intros Hp Hv s. destruct (finish_phase values s (VStr p) Hv) as (s' & Hr & Hph). exists s'. split; [done|]. by exists p.
Qed.

Lemma unresolved_settles detail : settles (phase_in SETTLED) (unresolved detail).
Proof. apply (finish_settles _ "FAILED"); [cbn; tauto|fields]. Qed.

Lemma resolved_settles items summary details : settles (phase_in SETTLED) (resolved items summary details).
Proof.
  destruct items as [|i items]; [apply (finish_settles _ "COMPLETE"); [cbn; tauto|fields]|]. intros s.
  destruct (set_phase (("phase", VStr "RESOLVED") :: ("details", details) :: resolved_values summary) s (VStr "RESOLVED")) as (s' & Hr & Hp);
    [reflexivity|cbn; repeat constructor; set_solver|]. exists s'. split; [exact Hr|]. exists "RESOLVED". split; [done|by left].
Qed.

Lemma resolve_cli_settles : settles (phase_in SETTLED) resolve_cli_worker.
Proof.
  apply attempt_settles; [|intros e; apply unresolved_settles]. apply ends_bind. intros _. apply ends_bind. intros items.
  apply ends_bind. intros summary. apply ends_then; [apply settles_ends, resolved_settles|apply request_tx].
Qed.

Lemma resolve_settles : settles (phase_in SETTLED) resolve_worker.
Proof.
  apply attempt_settles.
  - apply ends_bind. intros _. apply ends_bind. intros _. apply ends_bind. intros [items|detail].
    + apply ends_bind. intros summary. apply settles_ends, resolved_settles.
    + apply settles_ends, unresolved_settles.
  - intros e. destruct (native_daemon_error e); [apply resolve_cli_settles|apply unresolved_settles].
Qed.

Lemma optional_ends data initial plan : ends (phase_in SETTLED) (run_optional_provider_updates data initial plan).
Proof.
  unfold run_optional_provider_updates. do 9 (apply ends_bind; intros ?). apply ends_then; [|apply request_tx].
  apply settles_ends. destruct (is_str "REQUIRED" (if _ : bool then _ else _));
    [apply (finish_settles _ "READY_TO_RESTART")|apply (finish_settles _ "COMPLETE")]; first [cbn; tauto|fields].
Qed.

Lemma apply_settles : settles (phase_in SETTLED) apply_all_worker.
Proof.
  apply attempt_settles; [|intros e; apply (finish_settles _ "FAILED"); [cbn; tauto|fields]].
  do 6 (apply ends_bind; intros ?). destruct (_ && _).
  - apply settles_ends, (finish_settles _ "FAILED"); [cbn; tauto|fields].
  - do 3 (apply ends_bind; intros ?). apply optional_ends.
Qed.

(** C39. Whatever the host answers and whatever fails, the worker of a resolution
    or of an application comes to its end without an exception, and left to
    itself it leaves the operation resolved, complete, failed or ready to
    restart, never in progress. *)
Theorem worker_settles op t s :
  worker_of op = Some t -> op <> Reboot -> exists s', run_thread t s = (Ok tt, s') /\ phase_in SETTLED (p_tx s').
Proof.
  destruct op; intros Hw Hne; try discriminate Hw; try done; injection Hw as <-;
    first [apply resolve_settles | apply apply_settles].
Qed.

(** ** A success is verified *)

(** The records offer an update of the category, in the scope if there is one. *)
Definition offers (records : list val) (category : string) (scope : option string) : Prop :=
  exists d, In (VDict d) records /\ get "category" d = VStr category /\ get "update_available" d = VBool true
    /\ match scope with
       | Some s => exists m, getd "metadata" (VDict []) d = VDict m /\ get "scope" m = VStr s
       | None => True
       end.

Lemma any_res_false {A} (f : A -> res bool) l x : any_res f l = Ok false -> In x l -> f x = Ok false.
Proof.
  induction l as [|y l IH]; cbn [any_res In]; [done|]. rewrite bind_Ok. intros (b & Hb & Hl) [->|Hin]; destruct b; try done. by apply IH.
Qed.

Lemma actionable_false records category scope :
  provider_has_actionable_update records category scope = Ok false -> ~ offers records category scope.
Proof.
  unfold provider_has_actionable_update. intros Hr (d & Hin & Hc & Hu & Hs). pose proof (any_res_false _ _ _ Hr Hin) as Hd.
  cbn [as_dict] in Hd. apply bind_Ok in Hd as (d' & Hd' & Hd). injection Hd' as <-. unfold actionable_item in Hd.
  rewrite Hc, Hu in Hd. cbn [is_str is_true] in Hd. rewrite String.eqb_refl in Hd. cbn [andb] in Hd.
  destruct scope as [sc|]; [|discriminate Hd]. destruct Hs as (m & Hm & Hsc). rewrite Hm in Hd. cbn [as_dict] in Hd.
  apply bind_Ok in Hd as (m' & Hm' & Hd). injection Hm' as <-. rewrite Hsc in Hd. cbn [is_str] in Hd. by rewrite String.eqb_refl in Hd.
Qed.

(** The categories the verification covers. *)
Definition COVERED : list (string * (string * option string)) :=
  [("Flatpak (user)", ("application", Some "user")); ("Flatpak (system)", ("application", Some "system")); ("fwupd", ("firmware", None))].

Lemma still_available_covered records provider cs :
  In (provider, cs) COVERED -> still_available records (VStr provider) = provider_has_actionable_update records cs.1 cs.2.
Proof. intros [[= <- <-]|[[= <- <-]|[[= <- <-]|[]]]]; reflexivity. Qed.

Lemma degraded_state reason d : get "state" (degrade reason d) = VStr "DEGRADED".
Proof. unfold degrade. by dlookup. Qed.

Lemma verify_success back v d :
  verify_result back v = Ok (VDict d) -> get "state" d = VStr "SUCCESS" ->
  exists records provider, back = Some records /\ get "provider" d = provider /\ still_available records provider = Ok false.
Proof.
  unfold verify_result. intros Hv Hs. apply bind_Ok in Hv as (d0 & Hd0 & Hv).
  assert (v = VDict d0) as -> by (destruct v; try discriminate Hd0; cbn in Hd0; congruence).
  destruct (is_str "SUCCESS" (get "state" d0)) eqn:E; cbn [negb] in Hv.
  2:{ assert (d0 = d) as -> by congruence. rewrite Hs in E. cbn in E. discriminate E. }
  destruct back as [records|].
  2:{ assert (d = degrade "Provider completion could not be verified." d0) as -> by congruence. rewrite degraded_state in Hs. discriminate Hs. }
  apply bind_Ok in Hv as (provider & Hp & Hv). apply bind_Ok in Hv as (still & Hst & Hv). destruct still.
  { assert (d = degrade "The provider still reports an available update after the operation." d0) as -> by congruence.
    rewrite degraded_state in Hs. discriminate Hs. }
  assert (d0 = d) as -> by congruence. exists records, provider. split_and!; try done.
  unfold get, getd. unfold item in Hp. by destruct (dget "provider" d); [congruence|].
Qed.

(** Runs the first action of a sequence. *)
Ltac advance Hr :=
  let a := fresh "a" in let s := fresh "s" in let Ha := fresh "Ha" in
  apply run_bind_Ok in Hr as (a & s & Ha & Hr).

Lemma results_changed h values tx l :
  dget "provider_results" values = Some l -> NoDup (map fst values) -> get "provider_results" (changed_by h values tx) = l.
Proof.
  intros Hp Hn. unfold changed_by. assert (get "provider_results" (dupdate tx values) = l) as He.
  { unfold get, getd. by rewrite dget_dupdate, Hp. }
  set (v := dupdate tx values) in *. destruct (terminal v); [destruct (dget "current_item" values)|];
    unfold get, getd; rewrite !dget_dset_ne by done; exact He.
Qed.

Lemma request_snapshot_kept force (s : process P) : p_snapshot (after (request_snapshot_refresh force) s) = p_snapshot s.
Proof. unfold request_snapshot_refresh, modify, after. cbn [snd]. cbv zeta. by destruct (_ || _). Qed.

Lemma finish_frame values s u s' :
  run_thread (finish values) s = (Ok u, s') ->
  p_snapshot s' = p_snapshot s
  /\ p_tx s' = changed_by (p_host s) (dlit (("finished_at", now_text (p_host s)) :: values)) (p_tx s) /\ p_host s' = p_host s.
Proof. unfold finish. rewrite run_atomic. intros Hf. injection Hf as _ <-. by split_and!. Qed.

(** C11. When an application ends, a provider of applications or firmware is
    listed as SUCCESS only if the snapshot that was read back afterwards, the
    one the service then serves, offers no update of that provider any more. *)
Theorem success_is_verified data initial plan s s' :
  run_thread (run_optional_provider_updates data initial plan) s = (Ok tt, s') ->
  exists rows, get "provider_results" (p_tx s') = VList rows /\
    forall d provider category scope, In (VDict d) rows -> get "state" d = VStr "SUCCESS" -> get "provider" d = VStr provider ->
      In (provider, (category, scope)) COVERED ->
      exists back records, p_snapshot s' = Some back /\ records_of back = Ok records /\ ~ offers records category scope.
Proof.
  unfold run_optional_provider_updates. intros Hr. do 3 advance Hr. apply run_bind_Ok in Hr as (back & s3 & _ & Hr).
  apply run_bind_Ok in Hr as (u & s4 & Hcache & Hr). apply run_bind_Ok in Hr as (after_records & s5 & Hback & Hr).
  rewrite run_atomic in Hback. unfold lift in Hback. injection Hback as Hback <-.
  apply run_bind_Ok in Hr as (rows & s6 & Hrows & Hr). rewrite run_atomic in Hrows. unfold lift in Hrows. injection Hrows as Hrows <-.
  apply run_bind_Ok in Hr as (current & s7 & Hcopy & Hr). unfold copy in Hcopy. rewrite run_atomic in Hcopy. injection Hcopy as _ <-.
  apply run_bind_Ok in Hr as (again & s8 & Hag & Hr). rewrite run_atomic in Hag. unfold lift in Hag. injection Hag as _ <-.
  cbv zeta in Hr. apply run_bind_Ok in Hr as (v & s9 & Hfin & Hr). rewrite run_atomic in Hr.
  exists rows. assert (p_snapshot s' = p_snapshot s4 /\ get "provider_results" (p_tx s') = VList rows) as [Hsnap Hres].
  { apply finish_frame in Hfin as [Hsn [Htx _]]. pose proof (request_tx true s9) as Hq1. pose proof (request_snapshot_kept true s9) as Hq2.
    unfold after in Hq1, Hq2. rewrite Hr in Hq1, Hq2. cbn [snd] in Hq1, Hq2. rewrite Hq1, Hq2, Htx. split; [done|].
    by apply results_changed; [reflexivity|cbn; repeat constructor; set_solver]. }
  split; [done|]. intros d provider category scope Hin Hs Hp Hcov.
  apply mapM_res_Ok in Hrows. apply list_elem_of_In, list_elem_of_lookup in Hin as (i & Hi).
  destruct (Forall2_lookup_r _ _ _ _ _ Hrows Hi) as (v0 & _ & Hv). destruct (verify_success _ _ _ Hv Hs) as (records & p & -> & Hpp & Hst).
  destruct back as [back|]; [|discriminate Hback].
  apply bind_Ok in Hback as (r & Hrec & Hr2). exists back, records. assert (r = records) as -> by congruence.
  split_and!; [|done|].
  - rewrite Hsnap. rewrite run_atomic in Hcache. by injection Hcache as _ <-.
  - rewrite Hp in Hpp. subst p. rewrite (still_available_covered records provider (category, scope)) in Hst by done. by apply actionable_false.
Qed.
End claims.

(** ** The service on the desktop *)

From S2P Require Import JsonExample RuleClaims.

#[export] Instance desk_center : CenterHost desk := {
  boot_id _ := Some "boot-2";
  local_time t := t;
  tx_writable _ := true;
  native_open _ := mret "/session/1";
  native_install _ := mret tt;
  native_upgrade := mret tt;
  native_resolve := mret ([ItemTuple "Package" "Upgrade" "User" (Some (dlit [("name", VStr "nano"); ("download_size", VInt 700000)]))], 0);
  native_problems := mret (VList []);
  native_cancel := mret tt;
  helper_present _ := true;
  popen _ := modify (fun p => Desk (k_now p) [] (k_history p) (k_previous p)) ≫= fun _ => mret [];
  kill_process := mret tt;
  wait_process _ := mret 0;
  login_reboot := modify (fun p => Desk (k_now p) [] (k_history p) (k_previous p));
}.

(** Time passes, and the software stays. *)
Definition desk_world (p q : desk) : Prop := k_now p <= k_now q /\ k_software p = k_software q.

#[export] Instance desk_center_observing : ObservingCenter same_software desk_world.
Proof. split; [exact desk_observing|..]; unfold respects, after, same_software; try done. by intros h h' [_ ?]. Qed.

Definition desk_idle : process desk := Process desk_start (default_transaction (k_now desk_start)) None None None 0 false 0 [].

(** A request starts a worker when no operation is active. *)
Lemma resolve_starts {P} `{CenterHost P} `{Host} `{IsoText} `{FloatText} (s : process P) :
  active (p_tx s) = Ok false -> exists v s', start_operation Resolve s = (Ok (v, Some resolve_worker), s').
Proof.
  intros Ha. eexists _, _. unfold start_operation, mbind, act_bind, transaction_copy, gets, lift. rewrite Ha.
  cbv beta iota zeta delta [gets begin_operation id mbind act_bind mret act_ret settx set_transaction]. reflexivity.
Qed.

Lemma desk_resolving restarts allowed : allowed Resolve ->
  exists s', rtc (service_step desk_world allowed restarts) (Service desk_idle []) (Service s' [resolve_worker]).
Proof.
  intros Ha. destruct (resolve_starts desk_idle) as (v & s' & Hs); [reflexivity|]. exists s'.
  apply rtc_once. exact (step_request desk_world allowed restarts Resolve desk_idle [] v (Some resolve_worker) s' Ha Hs).
Qed.

Lemma resolution_never_mutates_witness :
  exists s', rtc (service_step desk_world looking True) (Service desk_idle []) (Service s' [resolve_worker])
    /\ same_software desk_start (p_host s').
Proof.
  destruct (desk_resolving True looking (or_introl eq_refl)) as (s' & Hr). exists s'. split; [exact Hr|].
  exact (resolution_never_mutates same_software desk_world True (Service desk_idle []) (Service s' [resolve_worker]) eq_refl Hr).
Defined.

Lemma finished_is_settled_witness :
  exists s', rtc (service_step desk_world (fun _ => True) False) (Service desk_idle []) (Service s' [resolve_worker]) /\ settled (p_tx s').
Proof.
  destruct (desk_resolving False (fun _ => True) I) as (s' & Hr). exists s'. split; [exact Hr|].
  refine (finished_is_settled desk_world (Service desk_idle []) (Service s' [resolve_worker]) eq_refl _ Hr).
  intros Hf. discriminate Hf.
Defined.

Lemma worker_settles_witness :
  worker_of (P := desk) Resolve = Some resolve_worker
  /\ exists s', run_thread resolve_worker desk_idle = (Ok tt, s') /\ phase_in SETTLED (p_tx s').
Proof. split; [reflexivity|]. apply (worker_settles Resolve resolve_worker desk_idle); [reflexivity|discriminate]. Defined.

(** An application of the user is updated. *)
Definition desk_data : dict :=
  dlit [("records", VList [obj [("category", VStr "application"); ("update_available", VBool true); ("metadata", obj [("scope", VStr "user")])]])].

Definition desk_applied : process desk :=
  Eval vm_compute in (run_thread (run_optional_provider_updates desk_data [] (ApplyPlan false false false)) desk_idle).2.

Lemma desk_applies :
  run_thread (run_optional_provider_updates desk_data [] (ApplyPlan false false false)) desk_idle = (Ok tt, desk_applied).
Proof. vm_compute. reflexivity. Qed.

Definition desk_row : dict :=
  dlit [("provider", VStr "Flatpak (user)"); ("state", VStr "SUCCESS");
        ("reason", VStr "Flatpak (user) completed through its native provider."); ("detail", VStr "Updates complete.")].

Lemma success_is_verified_witness :
  In (VDict desk_row) (match get "provider_results" (p_tx desk_applied) with VList l => l | _ => [] end)
  /\ exists back records, p_snapshot desk_applied = Some back /\ records_of back = Ok records /\ ~ offers records "application" (Some "user").
Proof.
  split; [left; reflexivity|].
  destruct (success_is_verified desk_data [] (ApplyPlan false false false) desk_idle desk_applied desk_applies) as (rows & Hrows & Hall).
  apply (Hall desk_row "Flatpak (user)" "application" (Some "user")); [|reflexivity|reflexivity|left; reflexivity].
  injection Hrows as <-. left. reflexivity.
Defined.

(** ** What modelling showed *)

(** The phases of the applications and the firmware are not among those an
    interrupted transaction is settled from: after the end of the service, even
    after a restart of the system, the operation stays active for ever, and
    every request is answered by it without effect. *)
Definition interrupted_file (phase : string) : val :=
  VDict (dset "boot_id" (VStr "boot-1") (dset "phase" (VStr phase) (default_transaction 0))).

Example interrupted_applications_block :
  forall phase, In phase ["UPDATING_APPLICATIONS"; "UPDATING_FIRMWARE"; "UPDATING_SECURITY"] ->
  exists s, started desk_start (Some (interrupted_file phase)) = Ok s /\ get "phase" (p_tx s) = VStr phase
    /\ forall op, start_operation op s = (Ok (p_tx s, None), s).
Proof.
  intros phase [<-|[<-|[<-|[]]]]; eexists; (split; [vm_compute; reflexivity|]); (split; [reflexivity|]); intros []; reflexivity.
Qed.

(** An operation interrupted by a restart keeps the progress it had, although
    a terminal phase is meant to show none. *)
Example progress_survives_restart :
  let file := match interrupted_file "INSTALLING" with VDict d => VDict (dset "progress" (VInt 40) d) | v => v end in
  match started desk_start (Some file) with
  | Ok s => get "phase" (p_tx s) = VStr "FAILED" /\ get "progress" (p_tx s) = VInt 40
  | Err _ => False
  end.
Proof. vm_compute. by split. Qed.

(** The first [n] actions of a thread. *)
Fixpoint advance_by {A} (n : nat) (t : thread (process desk) A) (s : process desk) : thread (process desk) A * process desk :=
  match n, t with
  | S n, Atomic m k => match m s with (Ok b, s') => advance_by n (k b) s' | (Err e, s') => (Raise e, s') end
  | _, _ => (t, s)
  end.

(** A resolution whose download was cancelled goes on, and its worker replaces
    the cancellation by its own outcome. *)
Definition resolving : process desk := after (start_operation Resolve) desk_idle.
Definition in_session : thread (process desk) unit * process desk := advance_by 2 resolve_worker resolving.
Definition downloading : process desk := after (on_signal "/session/1" (DownloadAdd "updates" 700000)) in_session.2.
Definition cancelled_resolution : process desk := after (start_operation Cancel) downloading.

Example cancellation_is_replaced :
  get "phase" (p_tx downloading) = VStr "DOWNLOADING" /\ get "cancellable" (p_tx downloading) = VBool true
  /\ get "phase" (p_tx cancelled_resolution) = VStr "CANCELLED"
  /\ get "phase" (p_tx (after (run_thread in_session.1) cancelled_resolution)) = VStr "RESOLVED".
Proof. vm_compute. by split_and!. Qed.
