(* ===== verification/Sql.v ===== *)
(** * Tables

    The statements of SQL the stores use, on tables that are lists of rows in
    the order of their row identifiers. A row is the dictionary of its columns;
    a column holds NULL ([VNone]), an integer, a real or a text. ORDER BY is
    stable: rows with equal keys come in the order of the table. *)
From S2P Require Import Prelude PyVal PyStr PyText.

Abbreviation row := dict.
Abbreviation table := (list row).

(** ** Comparison *)

(** NULL comes before numbers, numbers before texts; texts compare by code
    point. *)
Definition class_rank (v : val) : Z := match v with VNone => 0 | VStr _ => 2 | _ => 1 end.

Definition sql_compare (a b : val) : comparison :=
  match a, b with
  | VStr s, VStr t => String.compare s t
  | VInt x, VInt y => Z.compare x y
  | _, _ =>
      match num_of a, num_of b with
      | Some x, Some y => default Eq (num_compare x y)
      | _, _ => Z.compare (class_rank a) (class_rank b)
      end
  end.

(** A comparison in a condition: NULL satisfies none. *)
Definition sql_lt (a b : val) : bool :=
  negb (is_none a) && negb (is_none b) && match sql_compare a b with Lt => true | _ => false end.

Definition sql_le (a b : val) : bool :=
  negb (is_none a) && negb (is_none b) && match sql_compare a b with Gt => false | _ => true end.

Definition sql_eq (a b : val) : bool :=
  negb (is_none a) && negb (is_none b) && match sql_compare a b with Eq => true | _ => false end.

(** [ORDER BY]: columns, each with whether it is descending. *)
Fixpoint rank (keys : list (string * bool)) (a b : row) : comparison :=
  match keys with
  | [] => Eq
  | (k, desc) :: keys =>
      match sql_compare (get k a) (get k b) with
      | Eq => rank keys a b
      | c => if desc : bool then CompOpp c else c
      end
  end.

Definition before_eq (keys : list (string * bool)) (a b : row) : bool := match rank keys a b with Gt => false | _ => true end.

Definition order_by (keys : list (string * bool)) (t : table) : table := sort_by (before_eq keys) t.

(** [SELECT * FROM t WHERE p]. *)
Definition select (p : row -> bool) (t : table) : table := List.filter p t.

(** [DELETE FROM t WHERE p]. *)
Definition delete_where (p : row -> bool) (t : table) : table := List.filter (fun r => negb (p r)) t.

(** [UPDATE t SET ... WHERE p]. *)
Definition update_where (p : row -> bool) (f : row -> row) (t : table) : table := map (fun r => if p r then f r else r) t.

(** The row of a key, and the row of a text key. *)
Definition same_key (pk : list string) (r r' : row) : bool := forallb (fun k => sql_eq (get k r) (get k r')) pk.

Definition find_row (k : string) (v : val) (t : table) : option row := List.find (fun r => sql_eq (get k r) v) t.

(** [INSERT OR IGNORE]: the table and the number of inserted rows. *)
Definition insert_ignore (pk : list string) (r : row) (t : table) : table * bool :=
  if existsb (same_key pk r) t then (t, false) else (t ++ [r], true).

(** [INSERT OR REPLACE]. *)
Definition insert_replace (pk : list string) (r : row) (t : table) : table := delete_where (same_key pk r) t ++ [r].

(** [INSERT ... ON CONFLICT(pk) DO UPDATE SET c=excluded.c, ...] for the columns
    [cols]. *)
Definition excluded (cols : list string) (r old : row) : row := dupdate old (map (fun c => (c, get c r)) cols).

Fixpoint upsert (pk : string) (cols : list string) (r : row) (t : table) : table :=
  match t with
  | [] => [r]
  | r' :: t => if same_key [pk] r r' then excluded cols r r' :: t else r' :: upsert pk cols r t
  end.

(** [SELECT k FROM t ORDER BY keys LIMIT n]. *)
Definition top (n : nat) (keys : list (string * bool)) (t : table) : table := take n (order_by keys t).

(** [a LIKE pattern]: [%] is any text and [_] any character; ASCII letters match
    in either case. *)
Definition ascii_lower (c : ascii) : ascii := if (65 <=? ord c) && (ord c <=? 90) then lower_char c else c.

Fixpoint like (pattern s : string) {struct pattern} : bool :=
  match pattern with
  | "" => match s with "" => true | _ => false end
  | String c p =>
      if Ascii.eqb c "%"
      then (fix any (s : string) : bool := like p s || match s with "" => false | String _ r => any r end) s
      else match s with
           | "" => false
           | String d r => (Ascii.eqb c "_" || Ascii.eqb (ascii_lower c) (ascii_lower d)) && like p r
           end
  end.

Example likes : map (like "%b_c%") ["abxcd"; "abc"; "BxC"; "bxd"]%string = [true; false; true; false].
Proof. reflexivity. Qed.

(** ** Lemmas *)

Lemma num_compare_antisym x y : default Eq (num_compare y x) = CompOpp (default Eq (num_compare x y)).
Proof.
  destruct x as [m e|[]|], y as [m' e'|[]|]; try reflexivity. cbn [num_compare default].
  rewrite (Z.min_comm e' e). apply Z.compare_antisym.
Qed.

Lemma sql_compare_antisym a b : sql_compare b a = CompOpp (sql_compare a b).
Proof.
  destruct a, b; cbn [sql_compare class_rank num_of]; try reflexivity; try apply num_compare_antisym.
  - apply Z.compare_antisym.
  - apply string_compare_antisym.
Qed.

Lemma rank_antisym keys a b : rank keys b a = CompOpp (rank keys a b).
Proof.
  induction keys as [|[k desc] keys IH]; [done|]. cbn [rank]. rewrite sql_compare_antisym, IH.
  destruct (sql_compare (get k a) (get k b)), desc; reflexivity.
Qed.

Lemma before_total keys a b : before_eq keys a b = false -> before_eq keys b a = true.
Proof. unfold before_eq. rewrite (rank_antisym keys a b). by destruct (rank keys a b). Qed.

Lemma order_by_permutation keys t : order_by keys t ≡ₚ t.
Proof. apply sort_by_Permutation. Qed.

Lemma order_by_sorted keys t : Sorted (fun a b => before_eq keys a b = true) (order_by keys t).
Proof. apply sort_by_Sorted. apply before_total. Qed.

Lemma order_by_In keys r t : In r (order_by keys t) <-> In r t.
Proof. apply sort_by_In. Qed.

Lemma top_In n keys r t : In r (top n keys t) -> In r t.
Proof.
  intros H. apply (order_by_In keys). rewrite <- (take_drop n (order_by keys t)). apply in_or_app. by left.
Qed.

Lemma top_length n keys t : (length (top n keys t) <= n)%nat.
Proof. unfold top. rewrite length_take. lia. Qed.

Lemma delete_where_In p r t : In r (delete_where p t) <-> In r t /\ p r = false.
Proof. unfold delete_where. rewrite filter_In, negb_true_iff. done. Qed.

Lemma select_In p r t : In r (select p t) <-> In r t /\ p r = true.
Proof. apply filter_In. Qed.

Lemma insert_ignore_known pk r t : existsb (same_key pk r) t = true -> insert_ignore pk r t = (t, false).
Proof. intros H. unfold insert_ignore. by rewrite H. Qed.

Lemma upsert_length pk cols r t : (length (upsert pk cols r t) <= S (length t))%nat.
Proof. induction t as [|r' t IH]; cbn; [lia|]. destruct (_ && _); cbn; lia. Qed.
