(* ===== verification/TelemetryValues.v ===== *)
(** * Telemetry values ([telemetry.py], up to [event])

    The bounded copy [_safe_value] that every stored or exported value goes
    through, with its two rules of redaction, and the normalised event. The two
    regular expressions are matched by functions: one looks for a secret word in
    a key, the other replaces what follows a secret word and a colon or an
    equals sign in a text. *)
From S2P Require Import Prelude PyVal PyStr Json PyText PyTime.

Definition SCHEMA : string := "greyward.telemetry.event/v1".
Definition QUERY_SCHEMA : string := "greyward.telemetry.query/v1".
Definition INVESTIGATION_DAYS : Z := 7.
Definition SEMANTIC_DAYS : Z := 30.
Definition MAX_DETAILS_BYTES : Z := 32 * 1024.
Definition MAX_RELATIONS : nat := 16.
Definition MAX_TEXT : nat := 240.

(** [stamp(value)]. *)
Definition stamp (t : Z) : string := iso t.

Definition day : Z := 86400 * second.

(** ** Secrets *)

(** [_SECRET_KEY.search(name)]: the words of the expression, with each
    optional separator written out. *)
Definition SECRET_WORDS : list string :=
  ["password"; "passphrase"; "token"; "apikey"; "api_key"; "api-key"; "secret"; "privatekey"; "private_key"; "private-key";
   "authorization"; "cookie"; "credential"].

Definition secret_key (name : string) : bool := existsb (fun w => str_contains w (str_lower name)) SECRET_WORDS.

(** [_SECRET_VALUE]: a word, blanks, a colon or an equals sign, blanks, and a
    value up to a blank, a comma or a semicolon. *)
Definition VALUE_WORDS : list string :=
  ["password"; "passphrase"; "token"; "apikey"; "api_key"; "api-key"; "secret"; "authorization"; "bearer"; "cookie"].

Definition value_end (c : ascii) : bool := isspace_char c || Ascii.eqb c "," || Ascii.eqb c ";".

(** The text after a non-empty value. *)
Definition after_value (s : string) : option string :=
  match span (fun c => negb (value_end c)) (lstrip_by isspace_char s) with
  | ("", _) => None
  | (_, rest) => Some rest
  end.

Definition after_sign (s : string) : option string :=
  match lstrip_by isspace_char s with
  | String c r => if Ascii.eqb c ":" || Ascii.eqb c "=" then after_value r else None
  | "" => None
  end.

Definition after_word (w s : string) : option string :=
  if startswith w (str_lower s) then after_sign (str_drop (String.length w) s) else None.

(** The matched word, as it is written, and the text after the match. *)
Fixpoint first_match (ws : list string) (s : string) : option (string * string) :=
  match ws with
  | [] => None
  | w :: ws => match after_word w s with
               | Some rest => Some (str_take (String.length w) s, rest)
               | None => first_match ws s
               end
  end.

Definition value_match : string -> option (string * string) := first_match VALUE_WORDS.

(** [_SECRET_VALUE.sub(r"\1=[REDACTED]", s)]; [word] is whether the character
    before [s] is a word character, which rules out a match at its head. *)
Definition REDACTION : string := "=[REDACTED]".

Fixpoint redact_from (fuel : nat) (word : bool) (s : string) : string :=
  match fuel, s with
  | O, _ | _, "" => s
  | S fuel, String c r =>
      match (if word then None else value_match s) with
      | Some (w, rest) => w +:+ REDACTION +:+ redact_from fuel false rest
      | None => String c (redact_from fuel (word_char c) r)
      end
  end.

Definition redact (s : string) : string := redact_from (String.length s) false s.

(** ** The bounded copy *)

Section values.
Context `{FloatText}.

(** [_text(value, maximum)]. *)
Definition _text (v : val) (maximum : nat) : string := clean_val v maximum.

Fixpoint safe_at (depth : Z) (v : val) : val :=
  if 4 <? depth then VStr "[TRUNCATED]"
  else match v with
  | VDict d =>
      VDict (dlit (take 64 (map (fun kv =>
        let name := _text (VStr kv.1) 80 in
        (name, if secret_key name then VStr "[REDACTED]" else safe_at (depth + 1) kv.2)) d)))
  | VList l => VList (take 64 (map (safe_at (depth + 1)) l))
  | VBool _ | VNone | VInt _ | VFloat _ => v
  | VStr s => VStr (redact (_text v MAX_TEXT))
  end.

(** [_safe_value(value)]. *)
Definition _safe_value (v : val) : val := safe_at 0 v.

(** ** Events *)

Context `{IsoText}.

(** The latest moment a [datetime] holds. *)
Definition TIME_MAX : Z := 253402300800 * second - 1.

(** [_retention(retention_class, occurred_at)] at the moment [now]. *)
Definition _retention (now : Z) (retention_class occurred_at : string) : res string :=
  let t := match iso_parse occurred_at with Some (t, _) => t | None => now end in
  let days := if String.eqb retention_class "semantic" then SEMANTIC_DAYS else INVESTIGATION_DAYS in
  if TIME_MAX <? t + days * day then Err OverflowError else Ok (stamp (t + days * day)).

(** The arguments of [event]. *)
Record event_args := EventArgs {
  e_id : val; e_occurred_at : val; e_observed_at : val; e_component : val; e_source : val; e_category : string;
  e_type : val; e_action : val; e_outcome : val; e_severity : val; e_assessment : val; e_session : val;
  e_application : val; e_destination : val; e_protocol : val; e_port : val; e_decision : val;
  e_correlation : val; e_details : val; e_quality : val; e_native : val; e_relations : list val; e_retention : string }.

(** What the event takes from the machine: a random identifier, the monotonic
    clock and the identifier of the boot. *)
Record event_host := EventHost { host_uuid : string; host_monotonic : Z; host_boot : val }.

(** [{key: value.get(key) for key in keys if key in value}]. *)
Definition only_keys (keys : list string) (d : dict) : dict :=
  dlit (omap (fun k => (fun v => (k, v)) <$> dget k d) keys).

Definition hex_char (c : ascii) : bool := digit_char c || ((97 <=? ord c) && (ord c <=? 102)).

(** [re.fullmatch("[0-9a-f]{40}", key)]. *)
Definition process_key_ok (v : val) : bool :=
  match v with VStr s => (String.length s =? 40)%nat && str_forall hex_char s | _ => false end.

(** [int(port) if port is not None and str(port).isdigit() else None]; the
    superscript digits are digits that [int] refuses. *)
Definition isdigit_char (c : ascii) : bool := digit_char c || existsb (Z.eqb (ord c)) [178; 179; 185].

Definition port_value (v : val) : res val :=
  if is_none v then Ok VNone
  else
    let s := py_str v in
    if negb (String.eqb s "") && str_forall isdigit_char s
    then if str_forall digit_char s then Ok (VInt (digits_val s)) else Err (ValueError "invalid literal for int()")
    else Ok VNone.

Definition or_empty (v : val) : val := py_or v (VDict []).

Definition event (now : Z) (h : event_host) (a : event_args) : res dict :=
  let occurred := _text (py_or (e_occurred_at a) (VStr (stamp now))) 64 in
  _ ← require (member (e_retention a) ["investigation"; "semantic"]) (TelemetryError "Invalid telemetry retention class");
  let network := String.eqb (str_upper (e_category a)) "NETWORK" in
  let destination := match _safe_value (or_empty (e_destination a)) with
                     | VDict d => if network then VDict (only_keys ["host"; "ip"; "port"] d) else VDict d
                     | v => v
                     end in
  let details := match _safe_value (or_empty (e_details a)) with
                 | VDict d =>
                     if network
                     then let kept := only_keys ["rule_name"; "control"; "network_event_type"] d in
                          VDict (if process_key_ok (get "process_key" d) then dset "process_key" (get "process_key" d) kept else kept)
                     else VDict d
                 | v => v
                 end in
  port ← port_value (e_port a);
  expires ← _retention now (e_retention a) occurred;
  let upper v n := VStr (str_upper (_text v n)) in
  Ok (dlit
    [("schema", VStr SCHEMA); ("event_id", VStr (_text (py_or (e_id a) (VStr ("gw-" +:+ host_uuid h))) 96));
     ("occurred_at", VStr occurred); ("observed_at", VStr (_text (py_or (e_observed_at a) (VStr (stamp now))) 64));
     ("monotonic_ns", VInt (host_monotonic h)); ("boot_id", host_boot h); ("session_id", clean_or_none (e_session a) 96);
     ("component", VStr (_text (e_component a) 96)); ("source", VStr (_text (e_source a) 128));
     ("category", upper (VStr (e_category a)) 64%nat); ("event_type", upper (e_type a) 96%nat);
     ("action", upper (e_action a) 64%nat); ("outcome", upper (e_outcome a) 64%nat); ("severity", upper (e_severity a) 32%nat);
     ("assessment", upper (e_assessment a) 48%nat); ("application", clean_or_none (e_application a) 240);
     ("destination", py_or destination VNone); ("protocol", text_or_none (str_lower (_text (e_protocol a) 24))); ("port", port);
     ("decision", text_or_none (str_upper (_text (e_decision a) 24))); ("correlation", _safe_value (or_empty (e_correlation a)));
     ("details", details);
     ("quality", _safe_value (py_or (e_quality a) (VDict (dlit [("source_state", VStr "AVAILABLE"); ("attribution", VStr "EXACT"); ("confidence", VStr "EXACT")]))));
     ("native_evidence", _safe_value (or_empty (e_native a)));
     ("relations", VList (map _safe_value (take MAX_RELATIONS (e_relations a)))); ("retention_class", VStr (e_retention a));
     ("expires_at", VStr expires)]).
End values.

Example redactions :
  map redact ["password: hunter2, next"; "Token=abc;user=x"; "the secretary: x"; "api-key = 1 api_key:2"; "mytoken=5"; "secret :"]%string
  = ["password=[REDACTED], next"; "Token=[REDACTED];user=x"; "the secretary: x"; "api-key=[REDACTED] api_key=[REDACTED]"; "mytoken=5"; "secret :"]%string.
Proof. vm_compute. reflexivity. Qed.
