(* ===== verification/RedactionProps.v ===== *)
(** * Redaction

    What the copy of a value made for storage can still hold: no value after a
    secret word in a text, no value under a secret key, at most 64 entries in a
    container and five levels of containers. *)
From S2P Require Import Prelude PyVal PyStr Json JsonRound PyText PyTime TelemetryValues.

(** ** Matches in a text *)

(** At some word boundary of [s] a secret word is followed by a value that is
    not the redaction. *)
Definition leak_here (s : string) : bool :=
  match value_match s with Some (w, rest) => negb (String.eqb s (w +:+ REDACTION +:+ rest)) | None => false end.

Fixpoint leaks (word : bool) (s : string) : bool :=
  (negb word && leak_here s) || match s with "" => false | String c r => leaks (word_char c) r end.

(** The match at the head of a text, as a condition on its characters. *)
Definition value_ok (s : string) : bool :=
  match lstrip_by isspace_char s with String c _ => negb (value_end c) | "" => false end.

Definition sign_ok (s : string) : bool :=
  match lstrip_by isspace_char s with String c r => (Ascii.eqb c ":" || Ascii.eqb c "=") && value_ok r | "" => false end.

Definition word_ok (w s : string) : bool := startswith w (str_lower s) && sign_ok (str_drop (String.length w) s).

Lemma after_value_ok s : value_ok s = true <-> is_Some (after_value s).
Proof.
  unfold value_ok, after_value. destruct (lstrip_by isspace_char s) as [|c r]; cbn [span].
  - split; [done|by intros [x Hx]].
  - destruct (value_end c); cbn [negb]; [split; [done|by intros [x Hx]]|].
    destruct (span (fun c0 => negb (value_end c0)) r). split; [by eauto|done].
Qed.

Lemma after_sign_ok s : sign_ok s = true <-> is_Some (after_sign s).
Proof.
  unfold sign_ok, after_sign. destruct (lstrip_by isspace_char s) as [|c r]; [split; [done|by intros [x Hx]]|].
  destruct (Ascii.eqb c ":" || Ascii.eqb c "="); cbn [andb]; [apply after_value_ok|]. split; [done|by intros [x Hx]].
Qed.

Lemma after_word_ok w s : word_ok w s = true <-> is_Some (after_word w s).
Proof.
  unfold word_ok, after_word. destruct (startswith w (str_lower s)); cbn [andb]; [apply after_sign_ok|].
  split; [done|by intros [x Hx]].
Qed.

Lemma first_match_Some ws s w rest :
  first_match ws s = Some (w, rest) ->
  exists v, In v ws /\ after_word v s = Some rest /\ w = str_take (String.length v) s.
Proof.
  induction ws as [|v ws IH]; [done|]. cbn [first_match].
  destruct (after_word v s) as [rest'|] eqn:E; [intros [= <- <-]; exists v; eauto with code|].
  intros (v' & Hv & ?)%IH. exists v'. eauto with code.
Qed.

Lemma first_match_None ws s : first_match ws s = None <-> forall v, In v ws -> word_ok v s = false.
Proof.
  induction ws as [|v ws IH]; cbn [first_match]; [done|].
  destruct (after_word v s) as [rest|] eqn:E.
  - split; [done|]. intros Hall. exfalso.
    assert (word_ok v s = true) as Hok by (apply after_word_ok; eauto). by rewrite Hall in Hok; [|left].
  - rewrite IH. split; intros Hall; [|intros v' Hv; apply Hall; by right].
    intros v' [<-|Hv]; [|by apply Hall]. apply not_true_iff_false. rewrite after_word_ok, E. by intros [x Hx].
Qed.

(** ** The shape of the words *)

(** No secret word begins with the first letter of [s]. *)
Definition head_free (s : string) : bool :=
  match s with "" => true | String e _ => forallb (fun w => negb (startswith (String e "") w)) VALUE_WORDS end.

(** Past a character that is no word character, the rest of a secret word
    begins with no secret word. *)
Fixpoint good (w : string) : bool :=
  match w with "" => true | String d w' => (word_char d || head_free w') && good w' end.

Lemma words_good w : In w VALUE_WORDS -> good w = true /\ exists c t, w = String c t /\ word_char c = true.
Proof. intros Hw. repeat destruct Hw as [<-|Hw]; try destruct Hw; (split; [reflexivity|by do 2 eexists]). Qed.

Lemma word_char_lower c : word_char (lower_char c) = word_char c.
Proof. destruct c as [[] [] [] [] [] [] [] []]; reflexivity. Qed.

Lemma lower_cons c s : str_lower (String c s) = String (lower_char c) (str_lower s).
Proof. done. Qed.

Lemma space_not_word c : word_char c = true -> isspace_char c = false /\ value_end c = false
  /\ Ascii.eqb c ":" || Ascii.eqb c "=" = false.
Proof. destruct c as [[] [] [] [] [] [] [] []]; vm_compute; auto. Qed.

Lemma lower_word c d : lower_char c = d -> word_char d = word_char c.
Proof. intros <-. apply word_char_lower. Qed.

(** A match is a secret word followed by more text. *)
Lemma match_head s w rest :
  value_match s = Some (w, rest) ->
  exists v c t r, In v VALUE_WORDS /\ v = String c t /\ w = str_take (String.length v) s /\ after_word v s = Some rest
    /\ s = String r (str_drop 1 s) /\ lower_char r = c /\ word_char r = true.
Proof.
  intros (v & Hv & Ha & ->)%first_match_Some.
  destruct (words_good v Hv) as (_ & c & t & -> & Hc).
  destruct s as [|r s].
  - unfold after_word in Ha. by cbn in Ha.
  - exists (String c t), c, t, r. repeat split; try done.
    + unfold after_word in Ha. rewrite lower_cons in Ha. cbn [startswith String.prefix] in Ha.
      unfold startswith in Ha. cbn [String.prefix] in Ha.
      destruct (ascii_dec c (lower_char r)) as [->|]; [done|done].
    + unfold after_word, startswith in Ha. rewrite lower_cons in Ha. cbn [String.prefix] in Ha.
      destruct (ascii_dec c (lower_char r)) as [->|]; [|done]. by rewrite word_char_lower in Hc.
Qed.

(** ** Redaction makes no new match *)

Lemma word_ok_cons d w c s : word_ok (String d w) (String c s) = Ascii.eqb d (lower_char c) && word_ok w s.
Proof.
  unfold word_ok. rewrite lower_cons. unfold startswith. cbn [String.prefix String.length str_drop].
  destruct (ascii_dec d (lower_char c)) as [->|Hd].
  - by rewrite Ascii.eqb_refl.
  - by rewrite (proj2 (Ascii.eqb_neq _ _) Hd).
Qed.

Lemma word_ok_empty s : word_ok "" s = sign_ok s.
Proof. unfold word_ok, startswith. by destruct s. Qed.

Lemma take_head v r s : (0 < String.length v)%nat -> str_take (String.length v) (String r s) = String r (str_take (String.length v - 1) s).
Proof. destruct v as [|c v]; cbn; [lia|]. by rewrite Nat.sub_0_r. Qed.

(** The cases of one step: the head begins a match, and is a letter of a word
    that is kept, or it is copied. *)
Lemma redact_step n word c s :
  (exists t, redact_from (S n) word (String c s) = String c t /\ word = false /\ word_char c = true
     /\ exists v, In v VALUE_WORDS /\ startswith (String (lower_char c) "") v = true)
  \/ (redact_from (S n) word (String c s) = String c (redact_from n (word_char c) s)
      /\ (word = true \/ value_match (String c s) = None)).
Proof.
  cbn [redact_from]. destruct word; [by right; auto|].
  destruct (value_match (String c s)) as [[w rest]|] eqn:E; [|by right; auto].
  left. apply match_head in E as (v & c' & t & r & Hv & -> & -> & _ & Hs & Hc & Hr).
  injection Hs as <-. eexists. rewrite take_head by (cbn; lia). split; [reflexivity|]. split; [done|]. split; [done|].
  exists (String c' t). split; [done|]. rewrite Hc. unfold startswith. cbn [String.prefix].
  destruct (ascii_dec c' c') as [_|]; [by destruct t|done].
Qed.

Lemma lstrip_head c s : word_char c = true -> lstrip_by isspace_char (String c s) = String c s.
Proof. intros Hc%space_not_word. cbn [lstrip_by]. by destruct Hc as [-> _]. Qed.

Lemma redact_value_ok n word s : value_ok (redact_from n word s) = true -> value_ok s = true.
Proof.
  revert word s; induction n as [|n IH]; intros word [|c s]; try done.
  destruct (redact_step n word c s) as [(t & -> & _ & Hc & _)|(-> & _)].
  - intros _. unfold value_ok. rewrite lstrip_head by done. by destruct (space_not_word c Hc) as (_ & -> & _).
  - unfold value_ok. cbn [lstrip_by]. destruct (isspace_char c); [|done]. apply IH.
Qed.

Lemma redact_sign_ok n word s : sign_ok (redact_from n word s) = true -> sign_ok s = true.
Proof.
  revert word s; induction n as [|n IH]; intros word [|c s]; try done.
  destruct (redact_step n word c s) as [(t & -> & _ & Hc & _)|(-> & _)].
  - unfold sign_ok. rewrite lstrip_head by done. by destruct (space_not_word c Hc) as (_ & _ & ->).
  - unfold sign_ok. cbn [lstrip_by]. destruct (isspace_char c); [apply IH|].
    intros [-> Hv]%andb_true_iff. by apply redact_value_ok in Hv as ->.
Qed.

Lemma redact_word_ok n word s v :
  good v = true -> word = true \/ head_free v = true -> word_ok v (redact_from n word s) = true -> word_ok v s = true.
Proof.
  revert word s v; induction n as [|n IH]; intros word s v; [done|].
  destruct v as [|d v]; [rewrite !word_ok_empty; intros _ _; apply redact_sign_ok|].
  destruct s as [|c s]; [done|]. cbn [good]. intros [Hd Hv]%andb_true_iff Hw.
  destruct (redact_step n word c s) as [(t & -> & -> & _ & u & Hu & Hs)|(-> & _)].
  - rewrite word_ok_cons. intros [->%Ascii.eqb_eq _]%andb_true_iff. exfalso.
    destruct Hw as [|Hw]; [done|]. cbn [head_free] in Hw. rewrite forallb_forall in Hw.
    specialize (Hw u Hu). by rewrite Hs in Hw.
  - rewrite !word_ok_cons. intros [Hc Hok]%andb_true_iff. rewrite Hc. cbn [andb].
    apply Ascii.eqb_eq in Hc as ->. rewrite word_char_lower in Hd.
    apply (IH (word_char c)); [done| |done]. by apply orb_true_iff in Hd.
Qed.

Lemma copied_no_match n c s :
  value_match (String c s) = None -> value_match (String c (redact_from n (word_char c) s)) = None.
Proof.
  unfold value_match. rewrite !first_match_None. intros Hnone v Hv.
  apply not_true_iff_false. intros Hok. specialize (Hnone v Hv).
  destruct (words_good v Hv) as (Hg & d & t & -> & Hd).
  rewrite word_ok_cons in Hok, Hnone. apply andb_true_iff in Hok as [Hc Hok]. rewrite Hc in Hnone. cbn [andb] in Hnone.
  cbn [good] in Hg. apply andb_true_iff in Hg as [_ Hg]. apply Ascii.eqb_eq in Hc. subst d.
  rewrite word_char_lower in Hd. apply redact_word_ok in Hok; [congruence|done|by left].
Qed.

(** ** What a match leaves *)

(** A text a value cannot continue into. *)
Definition stops (s : string) : bool := match s with "" => true | String c _ => value_end c end.

Lemma span_stops s a b : span (fun c => negb (value_end c)) s = (a, b) -> stops b = true /\ s = a +:+ b.
Proof.
  revert a b; induction s as [|c s IH]; intros a b; cbn [span]; [by intros [= <- <-]|].
  destruct (value_end c) eqn:E; cbn [negb]; [by intros [= <- <-]|].
  destruct (span _ s) as [x y]. intros [= <- <-]. destruct (IH x y eq_refl) as [? ->]. done.
Qed.

Lemma after_value_stops s rest :
  after_value s = Some rest -> stops rest = true /\ (String.length rest < String.length s)%nat.
Proof.
  unfold after_value. destruct (span _ _) as [a b] eqn:E. destruct a as [|c a]; [done|]. intros [= <-].
  apply span_stops in E as [Hb E]. split; [done|]. pose proof (length_lstrip isspace_char s) as Hl.
  rewrite E in Hl. rewrite string_app_cons in Hl. cbn [String.length] in Hl. rewrite length_app_s in Hl. lia.
Qed.

Lemma after_sign_stops s rest :
  after_sign s = Some rest -> stops rest = true /\ (String.length rest < String.length s)%nat.
Proof.
  unfold after_sign. pose proof (length_lstrip isspace_char s) as Hl. destruct (lstrip_by isspace_char s) as [|c r]; [done|].
  destruct (_ || _); [|done]. cbn [String.length] in Hl. intros [? ?]%after_value_stops. split; [done|lia].
Qed.

Lemma str_drop_length n s : (String.length (str_drop n s) <= String.length s)%nat.
Proof. revert s; induction n as [|n IH]; intros [|c s]; cbn; try lia. specialize (IH s). lia. Qed.

Lemma after_word_stops w s rest :
  after_word w s = Some rest -> stops rest = true /\ (String.length rest < String.length s)%nat.
Proof.
  unfold after_word. destruct (startswith w (str_lower s)); [|done]. intros [? ?]%after_sign_stops.
  split; [done|]. pose proof (str_drop_length (String.length w) s). lia.
Qed.

Lemma redact_stops n s : stops s = true -> stops (redact_from n false s) = true.
Proof.
  destruct n as [|n]; [done|]. destruct s as [|c s]; [done|]. intros Hc.
  destruct (redact_step n false c s) as [(t & -> & _)|(-> & _)]; done.
Qed.

Lemma after_value_redaction s : stops s = true -> after_value ("[REDACTED]" +:+ s) = Some s.
Proof.
  intros Hs. assert (span (fun c => negb (value_end c)) s = ("", s)) as Hspan.
  { destruct s as [|c s]; [done|]. cbn [span stops] in *. by rewrite Hs. }
  unfold after_value. rewrite !string_app_cons. cbn [lstrip_by]. change (isspace_char "[") with false. cbv iota. cbn [span].
  repeat (match goal with |- context [value_end ?c] => change (value_end c) with false; cbn [negb] end).
  change ("" +:+ s) with s. by rewrite Hspan.
Qed.

Lemma startswith_split w s : startswith w s = true -> exists t, s = w +:+ t.
Proof.
  revert s; induction w as [|c w IH]; intros s; [by eexists|].
  destruct s as [|d s]; [done|]. unfold startswith. cbn [String.prefix]. destruct (ascii_dec c d) as [->|]; [|done].
  intros (t & ->)%IH. by eexists.
Qed.

(** At most one word begins a text. *)
Lemma words_prefix_free v v' s :
  In v VALUE_WORDS -> In v' VALUE_WORDS -> startswith v s = true -> startswith v' s = true -> v = v'.
Proof.
  intros Hv Hv' (t & ->)%startswith_split.
  repeat destruct Hv as [<-|Hv]; try destruct Hv; repeat destruct Hv' as [<-|Hv']; try destruct Hv'; done.
Qed.

Lemma str_take_app w s : str_take (String.length w) (w +:+ s) = w.
Proof. induction w as [|c w IH]; [by destruct s|]. rewrite string_app_cons. cbn. by rewrite IH. Qed.

Lemma str_drop_app w s : str_drop (String.length w) (w +:+ s) = s.
Proof. induction w as [|c w IH]; [done|]. rewrite string_app_cons. exact IH. Qed.

Lemma str_lower_app s t : str_lower (s +:+ t) = str_lower s +:+ str_lower t.
Proof. induction s as [|c s IH]; [done|]. rewrite !string_app_cons, lower_cons, IH. done. Qed.

(** The text of a match, redacted, matches with the redaction as its value. *)
Lemma redacted_match v w s :
  In v VALUE_WORDS -> str_lower w = v -> stops s = true -> value_match (w +:+ REDACTION +:+ s) = Some (w, s).
Proof.
  intros Hv Hw Hs.
  assert (String.length v = String.length w) as Hlen by (rewrite <- Hw; clear; induction w; cbn; congruence).
  assert (startswith v (str_lower (w +:+ REDACTION +:+ s)) = true) as Hpre.
  { rewrite str_lower_app, Hw. apply startswith_app. }
  assert (after_word v (w +:+ REDACTION +:+ s) = Some s) as Hafter.
  { unfold after_word. rewrite Hpre, Hlen, str_drop_app. unfold after_sign, REDACTION.
    rewrite string_app_cons. cbn [lstrip_by]. change (isspace_char "=") with false. cbv iota.
    change (Ascii.eqb "=" ":" || Ascii.eqb "=" "=") with true. cbv iota. by apply after_value_redaction. }
  destruct (value_match (w +:+ REDACTION +:+ s)) as [[w' rest]|] eqn:E.
  - apply first_match_Some in E as (v' & Hv' & Ha & ->).
    assert (v = v') as <-.
    { eapply words_prefix_free; eauto. unfold after_word in Ha. by destruct (startswith v' _). }
    rewrite Hafter in Ha. injection Ha as <-. by rewrite Hlen, str_take_app.
  - exfalso. apply first_match_None with (v := v) in E; [|done].
    assert (word_ok v (w +:+ REDACTION +:+ s) = true) as Hok by (apply after_word_ok; eauto). congruence.
Qed.

(** ** The redacted text *)

Lemma no_leak_head c s : head_free (String (lower_char c) "") = true -> leak_here (String c s) = false.
Proof.
  intros Hfree. unfold leak_here. destruct (value_match (String c s)) as [[w rest]|] eqn:E; [|done]. exfalso.
  apply match_head in E as (v & c' & t & r & Hv & -> & _ & _ & Hs & Hc & _). injection Hs as <-.
  cbn [head_free] in Hfree. rewrite forallb_forall in Hfree. specialize (Hfree _ Hv).
  rewrite Hc in Hfree. unfold startswith in Hfree. cbn [String.prefix] in Hfree.
  destruct (ascii_dec c' c') as [_|]; [by destruct t|done].
Qed.

Lemma head_free_cons c s : head_free (String c s) = true -> head_free (String c "") = true.
Proof. done. Qed.

(** Inside a secret word no other begins. *)
Lemma leaks_in_word w word s :
  good (str_lower w) = true -> word = true \/ head_free (str_lower w) = true ->
  exists word', leaks word (w +:+ s) = leaks word' s \/ w = "".
Proof.
  revert word; induction w as [|c w IH]; intros word; [by exists word; right|].
  rewrite lower_cons. cbn [good]. intros [Hd Hg]%andb_true_iff Hw.
  assert (negb word && leak_here (String c w +:+ s) = false) as Hhead.
  { destruct Hw as [->|Hw]; [done|]. rewrite string_app_cons, no_leak_head by done. by destruct word. }
  rewrite string_app_cons. cbn [leaks]. rewrite string_app_cons in Hhead. rewrite Hhead. cbn [orb].
  rewrite word_char_lower in Hd. destruct w as [|c' w]; [exists (word_char c); by left|].
  destruct (IH (word_char c) Hg) as (word' & [Hl|?]); [by apply orb_true_iff in Hd| |done].
  exists word'. by left.
Qed.

Lemma leaks_redaction word s : leaks word (REDACTION +:+ s) = leaks false s.
Proof.
  unfold REDACTION. rewrite !string_app_cons. cbn [leaks]. change ("" +:+ s) with s.
  change (word_char "=") with false. change (word_char "[") with false. change (word_char "]") with false.
  rewrite (no_leak_head "="), (no_leak_head "["), (no_leak_head "R"), andb_false_r by reflexivity.
  repeat match goal with |- context [word_char ?c] => change (word_char c) with true end.
  cbn [negb andb orb]. reflexivity.
Qed.

(** The text of a match as it is kept: every position in it is clean. *)
Lemma leaks_match w rest s : value_match s = Some (w, rest) ->
  forall x, stops x = true -> leaks false (w +:+ REDACTION +:+ x) = leaks false x.
Proof.
  intros (v & c & t & r & Hv & -> & -> & Ha & Hs & Hc & Hr)%match_head x Hx.
  assert (str_lower (str_take (String.length (String c t)) s) = String c t) as Hlow.
  { unfold after_word in Ha. destruct (startswith (String c t) (str_lower s)) eqn:Hp; [|done].
    apply startswith_split in Hp as (u & Hu). clear -Hu. revert s Hu. generalize (String c t). intros v.
    induction v as [|a v IH]; intros [|b s] Hu; try done.
    rewrite lower_cons, string_app_cons in Hu. injection Hu as <- Hu. cbn [String.length str_take].
    rewrite lower_cons. f_equal. by apply IH. }
  pose proof (redacted_match _ _ x Hv Hlow Hx) as Hm.
  destruct (words_good _ Hv) as (Hg & _). rewrite Hs, take_head in Hlow, Hm |- * by (cbn; lia).
  cbn [String.length] in *. rewrite Nat.sub_succ, Nat.sub_0_r in *. set (k := str_take (String.length t) (str_drop 1 s)) in *.
  rewrite lower_cons in Hlow. injection Hlow as _ Hk.
  rewrite string_app_cons in Hm |- *. cbn [leaks negb andb]. unfold leak_here at 1. rewrite Hm.
  rewrite string_app_cons, String.eqb_refl. cbn [negb orb]. rewrite Hr.
  cbn [good] in Hg. apply andb_true_iff in Hg as [_ Hg].
  destruct (leaks_in_word k true (REDACTION +:+ x)) as (word' & [->| ->]); [by rewrite Hk|by left|..].
  - apply leaks_redaction.
  - apply leaks_redaction.
Qed.

Lemma redact_from_clean n word s : (String.length s <= n)%nat -> leaks word (redact_from n word s) = false.
Proof.
  revert word s; induction n as [|n IH]; intros word [|c s] Hn; cbn [String.length] in Hn; try lia.
  - by destruct word.
  - by destruct word.
  - cbn [redact_from]. destruct (if word then None else value_match (String c s)) as [[w rest]|] eqn:E.
    + destruct word; [done|]. pose proof E as Em. apply first_match_Some in E as (v & _ & [Hst Hlen]%after_word_stops & _).
      cbn [String.length] in Hlen. rewrite (leaks_match _ _ _ Em) by (by apply redact_stops). apply IH. lia.
    + cbn [leaks]. rewrite IH by lia. rewrite orb_false_r. destruct word; [done|]. cbn [negb andb].
      unfold leak_here. by rewrite (copied_no_match n c s E).
Qed.

Lemma redact_clean s : leaks false (redact s) = false.
Proof. by apply redact_from_clean. Qed.

(** ** Where a value may still stand *)

(** No word character ends [s]. *)
Fixpoint boundary (word : bool) (s : string) : bool :=
  match s with "" => negb word | String c r => boundary (word_char c) r end.

Lemma leaks_nowhere word a t :
  leaks word (a +:+ t) = false -> boundary word a = true -> leak_here t = false.
Proof.
  revert word; induction a as [|c a IH]; intros word.
  - change ("" +:+ t) with t. cbn [boundary]. destruct word; [done|]. destruct t; cbn [leaks negb andb]; intros H _; by apply orb_false_iff in H as [? _].
  - rewrite string_app_cons. cbn [leaks boundary]. intros [_ H]%orb_false_iff. by apply IH.
Qed.

(** ** Stored values *)

Section sanitized.
Context `{FloatText}.

(** What a stored value is: [room] levels of containers of at most 64 entries,
    keys of at most 80 printable characters, no value under a secret key and no
    value after a secret word. *)
Fixpoint sanitized (room : nat) (v : val) {struct v} : bool :=
  match v with
  | VStr s => negb (leaks false s)
  | VList l => match room with
               | O => false
               | S room => (length l <=? 64)%nat && forallb (sanitized room) l
               end
  | VDict d => match room with
               | O => false
               | S room => (length d <=? 64)%nat && forallb (fun kv =>
                   isprintable kv.1 && (String.length kv.1 <=? 80)%nat
                   && (if secret_key kv.1 then is_str "[REDACTED]" kv.2 else sanitized room kv.2)) d
               end
  | _ => true
  end.

Lemma forallb_take {A} (p : A -> bool) n l : forallb p l = true -> forallb p (take n l) = true.
Proof.
  revert l; induction n as [|n IH]; intros [|x l]; try done. cbn. intros [-> Hl]%andb_true_iff. by apply IH.
Qed.

Lemma dset_length {A} k (v : A) d : (length (dset k v d) <= S (length d))%nat.
Proof. induction d as [|[k' v'] d IH]; cbn; [lia|]. destruct (String.compare k k'); cbn; lia. Qed.

Lemma forallb_dset {A} (p : string * A -> bool) k v d :
  p (k, v) = true -> forallb p d = true -> forallb p (dset k v d) = true.
Proof.
  intros Hp. induction d as [|[k' v'] d IH]; cbn [forallb dset]; [by rewrite Hp|].
  intros [H1 H2]%andb_true_iff. destruct (String.compare k k'); cbn [forallb]; rewrite ?Hp, ?H1, ?H2; auto.
Qed.

Lemma dlit_bounded {A} (p : string * A -> bool) l :
  forallb p l = true -> (length (dlit l) <= length l)%nat /\ forallb p (dlit l) = true.
Proof.
  intros Hl. unfold dlit.
  cut (forall d, forallb p d = true ->
    (length (fold_left (fun d kv => dset kv.1 kv.2 d) l d) <= length l + length d)%nat
    /\ forallb p (fold_left (fun d kv => dset kv.1 kv.2 d) l d) = true).
  { intros Hcut. destruct (Hcut [] eq_refl). cbn in *. split; [lia|done]. }
  revert Hl. induction l as [|[k v] l IH]; intros Hl d Hd; [done|]. cbn [forallb fold_left fst snd length] in *.
  apply andb_true_iff in Hl as [Hk Hl]. destruct (IH Hl (dset k v d)) as [? ?]; [by apply forallb_dset|].
  pose proof (dset_length k v d). split; [lia|done].
Qed.

Lemma text_key (k : string) : isprintable (_text (VStr k) 80) = true /\ (String.length (_text (VStr k) 80) <= 80)%nat.
Proof. unfold _text, clean_val. destruct (clean_bounded (text_of (VStr k)) 80). done. Qed.

Lemma safe_at_sanitized depth v : 0 <= depth <= 5 -> sanitized (Z.to_nat (5 - depth)) (safe_at depth v) = true.
Proof.
  revert depth. induction v as [|b|z|f|s|l IH|d IH] using val_ind'; intros depth Hd; cbn [safe_at];
    destruct (Z.ltb_spec 4 depth) as [Hdeep|Hdeep]; try reflexivity.
  - cbn [sanitized]. by rewrite redact_clean.
  - replace (Z.to_nat (5 - depth)) with (S (Z.to_nat (5 - (depth + 1)))) by lia. cbn [sanitized].
    rewrite length_take. apply andb_true_iff. split; [apply Nat.leb_le; lia|]. apply forallb_take.
    apply forallb_forall. intros x (y & <- & Hy)%in_map_iff. rewrite Forall_forall in IH.
    apply IH; [by apply list_elem_of_In|lia].
  - replace (Z.to_nat (5 - depth)) with (S (Z.to_nat (5 - (depth + 1)))) by lia. cbn [sanitized].
    set (items := take 64 _).
    assert (forallb (fun kv => isprintable kv.1 && (String.length kv.1 <=? 80)%nat
      && (if secret_key kv.1 then is_str "[REDACTED]" kv.2 else sanitized (Z.to_nat (5 - (depth + 1))) kv.2)) items = true) as Hitems.
    { apply forallb_take. apply forallb_forall. intros x ([k y] & <- & Hy)%in_map_iff. cbn [fst snd].
      destruct (text_key k) as [-> Hk]. apply Nat.leb_le in Hk as ->. cbn [andb].
      destruct (secret_key _); [done|]. rewrite Forall_forall in IH. apply (IH (k, y)); [by apply list_elem_of_In|lia]. }
    destruct (dlit_bounded _ _ Hitems) as [Hlen Hall]. rewrite Hall, andb_true_r. apply Nat.leb_le.
    etransitivity; [exact Hlen|]. unfold items. rewrite length_take. lia.
Qed.

(** What [sanitized] says of a text. *)
Lemma redacted_values s a t w rest :
  redact s = a +:+ t -> boundary false a = true -> value_match t = Some (w, rest) -> t = w +:+ REDACTION +:+ rest.
Proof.
  intros Hs Ha Ht. pose proof (redact_clean s) as Hc. rewrite Hs in Hc.
  pose proof (leaks_nowhere _ _ _ Hc Ha) as Hl. unfold leak_here in Hl. rewrite Ht in Hl.
  apply negb_false_iff, String.eqb_eq in Hl. done.
Qed.

(** ** Secrets in a text *)

(** At a word boundary of [s] stands a secret word, in any case, then blanks, a
    sign and blanks, and then the value [x], up to a blank, a comma, a semicolon
    or the end. *)
Definition assigns (s x : string) : Prop :=
  exists a w blanks sign blanks' rest, s = a +:+ w +:+ blanks +:+ String sign (blanks' +:+ x +:+ rest)
    /\ boundary false a = true /\ In (str_lower w) VALUE_WORDS
    /\ str_forall isspace_char blanks = true /\ (sign = ":"%char \/ sign = "="%char) /\ str_forall isspace_char blanks' = true
    /\ x <> "" /\ str_forall (fun c => negb (value_end c)) x = true /\ stops rest = true.

Lemma length_lower s : String.length (str_lower s) = String.length s.
Proof. induction s as [|c s IH]; [done|]. cbn. by rewrite IH. Qed.

Lemma string_app_inv_l s t u : s +:+ t = s +:+ u -> t = u.
Proof. induction s as [|c s IH]; [done|]. rewrite !string_app_cons. intros [= Hs]. auto. Qed.

Lemma string_app_inv_r s t u : t +:+ s = u +:+ s -> t = u.
Proof.
  assert (forall c v, s <> String c v +:+ s) as Hne.
  { intros c v He. apply (f_equal String.length) in He. rewrite length_app_s in He. cbn in He. lia. }
  revert u; induction t as [|c t IH]; intros [|d u]; rewrite ?string_app_cons; [done|intros He|intros He|].
  - by destruct (Hne d u).
  - by destruct (Hne c t).
  - intros [= -> Ht]. f_equal. auto.
Qed.

Lemma lstrip_blanks b t : str_forall isspace_char b = true -> lstrip_by isspace_char (b +:+ t) = lstrip_by isspace_char t.
Proof. induction b as [|c b IH]; [done|]. rewrite string_app_cons. cbn [str_forall lstrip_by]. intros [-> Hb]%andb_true_iff. by apply IH. Qed.

Lemma after_value_at x rest : x <> "" -> str_forall (fun c => negb (value_end c)) x = true -> stops rest = true -> after_value (x +:+ rest) = Some rest.
Proof.
  intros Hne Hx Hr. unfold after_value. destruct x as [|c x]; [done|].
  assert (isspace_char c = false) as Hc.
  { cbn [str_forall] in Hx. apply andb_true_iff in Hx as [Hx _]. unfold value_end in Hx. by destruct (isspace_char c). }
  rewrite string_app_cons. cbn [lstrip_by]. rewrite Hc, <- string_app_cons, span_app; [done|done|].
  destruct rest as [|d rest]; [done|]. cbn in Hr |- *. by rewrite Hr.
Qed.

Lemma after_word_at w blanks sign blanks' x rest :
  str_forall isspace_char blanks = true -> sign = ":"%char \/ sign = "="%char -> str_forall isspace_char blanks' = true ->
  x <> "" -> str_forall (fun c => negb (value_end c)) x = true -> stops rest = true ->
  after_word (str_lower w) (w +:+ blanks +:+ String sign (blanks' +:+ x +:+ rest)) = Some rest.
Proof.
  intros Hb Hs Hb' Hne Hx Hr. unfold after_word. rewrite str_lower_app, startswith_app, length_lower, str_drop_app. unfold after_sign.
  rewrite (lstrip_blanks _ _ Hb). assert (lstrip_by isspace_char (String sign (blanks' +:+ x +:+ rest)) = String sign (blanks' +:+ x +:+ rest)) as -> by (by destruct Hs as [-> | ->]).
  assert (Ascii.eqb sign ":" || Ascii.eqb sign "=" = true) as -> by (by destruct Hs as [-> | ->]).
  unfold after_value. rewrite (lstrip_blanks _ _ Hb'). by apply after_value_at.
Qed.

(** No secret word begins another, so that the match is that of the word. *)
Lemma words_apart v w : In v VALUE_WORDS -> In w VALUE_WORDS -> startswith v w = true -> v = w.
Proof.
  intros Hv Hw Hs. assert (forallb (fun v => forallb (fun w => negb (startswith v w) || String.eqb v w) VALUE_WORDS) VALUE_WORDS = true) as Hall by reflexivity.
  rewrite forallb_forall in Hall. specialize (Hall v Hv). rewrite forallb_forall in Hall. specialize (Hall w Hw). rewrite Hs in Hall. by apply String.eqb_eq.
Qed.

Lemma startswith_common v w t : startswith v (w +:+ t) = true -> startswith v w = true \/ startswith w v = true.
Proof.
  revert w; induction v as [|c v IH]; intros w; [left; apply startswith_nil|]. destruct w as [|d w]; [right; apply startswith_nil|]. rewrite string_app_cons.
  destruct (decide (c = d)) as [->|Hne]; [rewrite !startswith_cons; apply IH|by rewrite startswith_head].
Qed.

Lemma match_at w t rest : In (str_lower w) VALUE_WORDS -> after_word (str_lower w) (w +:+ t) = Some rest -> value_match (w +:+ t) = Some (w, rest).
Proof.
  intros Hw Ha. unfold value_match. destruct (first_match VALUE_WORDS (w +:+ t)) as [[w' rest']|] eqn:E.
  - apply first_match_Some in E as (v & Hv & Hav & ->). assert (v = str_lower w) as ->.
    { assert (startswith v (str_lower (w +:+ t)) = true) as Hs by (unfold after_word in Hav; by destruct (startswith v _)).
      rewrite str_lower_app in Hs. apply startswith_common in Hs as [Hs|Hs]; [by apply words_apart|symmetry; by apply words_apart]. }
    rewrite length_lower, str_take_app. congruence.
  - exfalso. rewrite first_match_None in E. specialize (E _ Hw). assert (word_ok (str_lower w) (w +:+ t) = true) as Hok by (apply after_word_ok; by eexists). congruence.
Qed.

(** The value of every assignment that is left in a text is the redaction. *)
Lemma redacted_assignment s x : leaks false s = false -> assigns s x -> x = "[REDACTED]".
Proof.
  intros Hs (a & w & blanks & sign & blanks' & rest & -> & Ha & Hw & Hb & Hsign & Hb' & Hne & Hx & Hr).
  pose proof (leaks_nowhere _ _ _ Hs Ha) as Hl. unfold leak_here in Hl.
  rewrite (match_at w _ rest Hw (after_word_at _ _ _ _ _ _ Hb Hsign Hb' Hne Hx Hr)) in Hl.
  apply negb_false_iff, String.eqb_eq, string_app_inv_l in Hl.
  destruct blanks as [|c blanks].
  - cbn in Hl. injection Hl as _ Hl. change (blanks' +:+ x +:+ rest = "[REDACTED]" +:+ rest) in Hl.
    rewrite <- string_app_assoc in Hl. apply string_app_inv_r in Hl. destruct blanks' as [|c blanks']; [done|]. exfalso. cbn in Hl. injection Hl as -> _. discriminate Hb'.
  - exfalso. rewrite string_app_cons in Hl. cbn in Hl. injection Hl as -> _. discriminate Hb.
Qed.

(** ** What is inside a value *)

Inductive inside : val -> val -> Prop :=
| inside_here v : inside v v
| inside_list v x l : In x l -> inside v x -> inside v (VList l)
| inside_dict v k x d : In (k, x) d -> inside v x -> inside v (VDict d).

Lemma sanitized_inside v u n : inside u v -> sanitized n v = true -> exists m, sanitized m u = true.
Proof.
  intros Hi. revert n. induction Hi as [v|v x l Hx _ IH|v k x d Hx _ IH]; intros n; [by exists n|..]; destruct n as [|n]; try done; cbn [sanitized]; intros [_ Hall]%andb_true_iff.
  - rewrite forallb_forall in Hall. by apply (IH n), Hall.
  - rewrite forallb_forall in Hall. specialize (Hall _ Hx). cbn [fst snd] in Hall. apply andb_true_iff in Hall as [_ Hs].
    destruct (secret_key k); [|by apply (IH n)]. apply is_str_eq in Hs as ->. by apply (IH 1%nat).
Qed.

(** The name contains a secret word, in any case. *)
Definition names_secret (k : string) : Prop := exists a w b, In w SECRET_WORDS /\ str_lower k = a +:+ w +:+ b.

Lemma contains_at a w b : str_contains w (a +:+ w +:+ b) = true.
Proof.
  induction a as [|c a IH].
  - change ("" +:+ w +:+ b) with (w +:+ b). destruct (w +:+ b) eqn:E; cbn [str_contains]; rewrite <- E, startswith_app; done.
  - rewrite string_app_cons. cbn [str_contains]. by rewrite IH, orb_true_r.
Qed.

Lemma names_secret_key k : names_secret k -> secret_key k = true.
Proof. intros (a & w & b & Hw & He). apply existsb_exists. exists w. split; [done|]. rewrite He. apply contains_at. Qed.

(** C33. Whatever is stored or exported is bounded and redacted: it has at most five
    levels of containers of at most 64 entries with keys of at most 80 printable
    characters; in every text in it, wherever a secret word stands at a word
    boundary and is followed by a colon or an equals sign and a value, the value is
    the redaction; and in every dictionary in it, under a key whose name contains a
    secret word stands the redaction. The keys themselves are not searched for such
    assignments. *)
Theorem safe_value_sanitized (v : val) :
  sanitized 5 (_safe_value v) = true
  /\ (forall s x, inside (VStr s) (_safe_value v) -> assigns s x -> x = "[REDACTED]")
  /\ (forall d k u, inside (VDict d) (_safe_value v) -> In (k, u) d -> names_secret k -> u = VStr "[REDACTED]").
Proof.
  assert (sanitized 5 (_safe_value v) = true) as Hs by (apply (safe_at_sanitized 0); lia). split; [done|]. split.
  - intros s x Hi. destruct (sanitized_inside _ _ _ Hi Hs) as [m Hm]. apply redacted_assignment. cbn in Hm. by apply negb_true_iff.
  - intros d k u Hi Hin Hk. destruct (sanitized_inside _ _ _ Hi Hs) as [[|m] Hm]; [done|]. cbn [sanitized] in Hm. apply andb_true_iff in Hm as [_ Hm].
    rewrite forallb_forall in Hm. specialize (Hm _ Hin). cbn [fst snd] in Hm. rewrite (names_secret_key k Hk) in Hm. apply andb_true_iff in Hm as [_ Hm]. by apply is_str_eq.
Qed.

(** Keys are kept as they are: a key that holds an assignment is stored with it. *)
Lemma assignment_in_key_is_kept :
  _safe_value (VDict [("bearer: abc", VInt 1); ("password=hunter2", VInt 2)]) = VDict [("bearer: abc", VInt 1); ("password=hunter2", VStr "[REDACTED]")].
Proof. vm_compute. reflexivity. Qed.

(** The value ends at the first blank: of an authorization header with a scheme
    only the scheme is redacted, and the credential is kept. *)
Lemma authorization_is_kept :
  _safe_value (VStr "Authorization: Bearer abc123") = VStr "Authorization=[REDACTED] abc123".
Proof. reflexivity. Qed.
End sanitized.

From S2P Require Import JsonExample.

(** ** An instance *)

Definition noted : val := VDict [("note", VList [VStr "see Password : hunter2, later"]); ("session_cookie", VInt 7)].

Lemma safe_value_sanitized_witness :
  inside (VStr "see Password=[REDACTED], later") (_safe_value noted)
  /\ (exists x, assigns "see Password=[REDACTED], later" x /\ x = "[REDACTED]")
  /\ names_secret "session_cookie" /\ get "session_cookie" (match _safe_value noted with VDict d => d | _ => [] end) = VStr "[REDACTED]".
Proof.
  destruct (safe_value_sanitized noted) as (_ & Htext & Hkey).
  assert (inside (VStr "see Password=[REDACTED], later") (_safe_value noted)) as Hi.
  { vm_compute. eapply inside_dict; [left; reflexivity|]. eapply inside_list; [left; reflexivity|]. apply inside_here. }
  assert (names_secret "session_cookie") as Hn by (exists "session_", "cookie", ""; split; [vm_compute; tauto|reflexivity]).
  split; [exact Hi|]. split; [|split; [exact Hn|]].
  - exists "[REDACTED]". assert (assigns "see Password=[REDACTED], later" "[REDACTED]") as Ha.
    { exists "see ", "Password", "", "="%char, "", ", later". split_and!; try reflexivity; [vm_compute; tauto|by right|discriminate]. }
    split; [exact Ha|]. exact (Htext _ _ Hi Ha).
  - assert (In ("session_cookie", get "session_cookie" (match _safe_value noted with VDict d => d | _ => [] end)) (match _safe_value noted with VDict d => d | _ => [] end)) as Hin by (vm_compute; tauto).
    refine (Hkey _ _ _ _ Hin Hn). apply inside_here.
Defined.
