(* ===== verification/Findings.v ===== *)
(** * Findings ([findings.py])

    The rules that derive a finding from an event that reports a failure and
    from the record of an external device. *)
From S2P Require Import Prelude PyVal PyStr Json PyText.

(** [s.title()]: the first letter of a run of letters is upper case, the others
    lower case. *)
Definition cased_char (c : ascii) : bool :=
  let n := ord c in
  ((65 <=? n) && (n <=? 90)) || ((97 <=? n) && (n <=? 122)) || existsb (Z.eqb n) [170; 181; 186]
  || ((192 <=? n) && negb ((n =? 215) || (n =? 247))).

Fixpoint title_from (inside : bool) (s : string) : string :=
  match s with
  | "" => ""
  | String c s =>
      (if inside then String (lower_char c) "" else if ord c =? 223 then "Ss" else upper_char c)
      +:+ title_from (cased_char c) s
  end.

Definition str_title : string -> string := title_from false.

Example title_text : str_title "UPDATE 3RD step_ok" = "Update 3Rd Step_Ok".
Proof. reflexivity. Qed.

Section findings.
Context `{FloatText}.

(** [value if isinstance(value, Mapping) else {}]. *)
Definition mapping (v : val) : dict := match v with VDict d => d | _ => [] end.

Definition failed_kind (category : string) : string :=
  if String.eqb category "UPDATE" then "UPDATE_FAILURE" else if String.eqb category "RECOVERY" then "RECOVERY_FAILURE"
  else if String.eqb category "SERVICE" then "SERVICE_FAILURE" else "CAPABILITY_FAILURE".

Definition event_finding (value : dict) : option dict :=
  let outcome := str_upper (clean_val (py_or (get "outcome" value) (get "state" value)) 32) in
  let category := str_upper (clean_val (get "category" value) 48) in
  let event_type := str_upper (clean_val (py_or (get "event_type" value) (get "kind" value)) 96) in
  if negb (member outcome ["FAILURE"; "FAILED"; "ERROR"])
     || negb (member category ["SERVICE"; "UPDATE"; "RECOVERY"; "CAPABILITY"; "CONFIGURATION"])
  then None
  else
    let correlation := mapping (get "correlation" value) in
    let named := clean_val (py_or (get "unit" correlation) (py_or (get "operation_id" correlation)
                              (py_or (get "transaction_id" correlation) (get "component" value)))) 160 in
    let subject := if String.eqb named "" then "unknown" else named in
    let kind := failed_kind category in
    let error := clean_val (get "error" (mapping (get "details" value))) 240 in
    Some (dlit
      [("finding_id", VStr (str_lower kind +:+ ":" +:+ subject)); ("kind", VStr kind); ("subject_key", VStr subject);
       ("state", VStr "UNRESOLVED"); ("severity", VStr "ERROR");
       ("title", VStr (str_title (str_map (fun c => if Ascii.eqb c "_" then " "%char else c) event_type)));
       ("summary", VStr (if String.eqb error "" then "A security operation failed." else error));
       ("destination", VStr (if String.eqb category "UPDATE" then "updates" else if String.eqb category "RECOVERY" then "devices" else "overview"));
       ("last_seen", VStr (clean_val (get "occurred_at" value) 64));
       ("evidence", VList [VStr (clean_val (get "event_id" value) 96)])]).

Definition device_finding (value : dict) : option dict :=
  if negb (startswith "EXTERNAL_" (str_upper (clean_val (get "device_class" value) 48))) then None
  else
    let identity := clean_val (get "identity_id" value) 96 in
    if String.eqb identity "" then None
    else
      let trusted := truthy (py_or (get "trusted" value) (get "reviewed" value)) in
      let connected := truthy (get "connected" value) in
      let last_seen := VStr (clean_val (get "last_seen" value) 64) in
      Some (dlit
        [("finding_id", VStr ("device-unknown:" +:+ identity)); ("kind", VStr "UNKNOWN_EXTERNAL_DEVICE"); ("subject_key", VStr identity);
         ("state", VStr (if trusted then "RESOLVED" else if connected then "UNRESOLVED" else "HISTORY_ONLY")); ("severity", VStr "WARNING");
         ("title", VStr "Unknown external device");
         ("summary", VStr (if connected && negb trusted then "Review this connected external device." else "The device is retained as recent history."));
         ("destination", VStr "devices"); ("first_seen", VStr (clean_val (get "first_seen" value) 64)); ("last_seen", last_seen);
         ("resolved_at", if trusted then last_seen else VNone);
         ("evidence", if truthy (get "last_event_id" value) then VList [VStr (clean_val (get "last_event_id" value) 96)] else VList [])]).
End findings.
