(* ===== verification/KeyedTables.v ===== *)
(** * Tables with a key

    A table is keyed when its primary key is a text or an integer in every row
    and differs between rows. The lemmas say what the statements of [Sql] do to
    such a table: which rows a deletion by key removes, how many rows a bound
    leaves, and that insertion keeps the key. *)
From S2P Require Import Prelude PyVal PyStr PyText Sql.

Definition is_key (v : val) : bool := match v with VStr _ | VInt _ => true | _ => false end.

Definition keyed (k : string) (t : table) : Prop :=
  Forall (fun r => is_key (get k r) = true) t /\ NoDup (map (get k) t).

Lemma sql_eq_key a b : is_key a = true -> is_key b = true -> sql_eq a b = true <-> a = b.
Proof.
  unfold sql_eq. destruct a as [| |x| |x| |], b as [| |y| |y| |]; try done; intros _ _; cbn.
  - destruct (Z.compare_spec x y); (split; intros Hx; [try done|]); simplify_eq; done || lia.
  - destruct (String.compare x y) eqn:E; (split; intros Hx; [try done|]).
    + by apply string_compare_Eq in E as ->.
    + done.
    + injection Hx as ->. by rewrite string_compare_refl in E.
    + injection Hx as ->. by rewrite string_compare_refl in E.
Qed.

Lemma keyed_nil k : keyed k [].
Proof. split; constructor. Qed.

Lemma keyed_key k t r : keyed k t -> In r t -> is_key (get k r) = true.
Proof. intros [Hk _] Hr. rewrite Forall_forall in Hk. apply Hk. by apply list_elem_of_In. Qed.

Lemma keyed_inj k t r r' : keyed k t -> In r t -> In r' t -> get k r = get k r' -> r = r'.
Proof.
  intros [_ Hnd] Hr Hr' Heq. induction t as [|x t IH]; [done|].
  cbn [map] in Hnd. apply NoDup_cons in Hnd as [Hx Hnd].
  assert (forall y, In y t -> get k y = get k x -> False) as Hout.
  { intros y Hy Hk. apply Hx. rewrite list_elem_of_In, in_map_iff. eauto. }
  destruct Hr as [->|Hr], Hr' as [->|Hr']; eauto; exfalso; [by eapply Hout|by eapply (Hout r)].
Qed.

Lemma keyed_NoDup k t : keyed k t -> NoDup t.
Proof. intros [_ Hnd]. by eapply NoDup_fmap_1. Qed.

(** Removing rows keeps the key. *)
Lemma keyed_filter k (p : row -> bool) t : keyed k t -> keyed k (List.filter p t).
Proof.
  intros [Hk Hnd]. induction t as [|x t IH]; [done|]. cbn [map List.filter] in *.
  apply Forall_cons in Hk as [Hx Hk]. apply NoDup_cons in Hnd as [Hout Hnd].
  destruct (IH Hk Hnd) as [Hk' Hnd']. destruct (p x); [|done]. split; [by constructor|].
  cbn [map]. constructor; [|done]. rewrite list_elem_of_In, in_map_iff in *.
  intros (y & Hy & [Hin _]%filter_In). apply Hout. eauto.
Qed.

Lemma keyed_delete k p t : keyed k t -> keyed k (delete_where p t).
Proof. apply keyed_filter. Qed.

Lemma keyed_map k (f : row -> row) t : (forall r, get k (f r) = get k r) -> keyed k t -> keyed k (map f t).
Proof.
  intros Hf [Hk Hnd]. split.
  - apply Forall_map. eapply Forall_impl; [exact Hk|]. intros r. cbn. by rewrite Hf.
  - rewrite map_map. by rewrite (map_ext _ _ Hf).
Qed.

Lemma keyed_update k p f t : (forall r, get k (f r) = get k r) -> keyed k t -> keyed k (update_where p f t).
Proof. intros Hf. apply keyed_map. intros r. by destruct (p r). Qed.

Lemma keyed_snoc k r t : is_key (get k r) = true -> (forall r', In r' t -> get k r' <> get k r) -> keyed k t -> keyed k (t ++ [r]).
Proof.
  intros Hr Hout [Hk Hnd]. split; [by apply Forall_app_2; [|constructor]|].
  rewrite map_app. apply NoDup_app. split; [done|]. split; [|by repeat constructor; apply not_elem_of_nil].
  intros v (r' & Hv & Hr')%list_elem_of_In%in_map_iff Hr2. apply list_elem_of_singleton in Hr2.
  apply (Hout r' Hr'). congruence.
Qed.

Lemma same_key_one k r r' : same_key [k] r r' = sql_eq (get k r) (get k r').
Proof. cbn. by rewrite andb_true_r. Qed.

Lemma keyed_insert_ignore k r t : is_key (get k r) = true -> keyed k t -> keyed k (insert_ignore [k] r t).1.
Proof.
  intros Hr Ht. unfold insert_ignore. destruct (existsb (same_key [k] r) t) eqn:E; [done|].
  apply keyed_snoc; [done| |done]. intros r' Hr' Heq. rewrite existsb_not_In in E. specialize (E r' Hr').
  rewrite same_key_one, Heq in E. apply not_true_iff_false in E. by apply E, sql_eq_key.
Qed.

Lemma get_excluded k cols r old : ~ In k cols -> get k (excluded cols r old) = get k old.
Proof.
  intros Hk. unfold get, getd, excluded, dupdate.
  enough (forall old, dget k (fold_left (fun d kv => dset kv.1 kv.2 d) (map (fun c => (c, get c r)) cols) old) = dget k old) as ->; [done|].
  induction cols as [|c cols IH]; intros d; [done|]. cbn [map fold_left fst snd].
  rewrite IH by (intros ?; apply Hk; by right). apply dget_dset_ne. intros ->. apply Hk. by left.
Qed.

Lemma keyed_upsert k cols r t : is_key (get k r) = true -> ~ In k cols -> keyed k t -> keyed k (upsert k cols r t).
Proof.
  intros Hr Hc. induction t as [|x t IH]; intros Ht.
  - cbn [upsert]. split; [by constructor|]. cbn. by repeat constructor; apply not_elem_of_nil.
  - cbn [upsert]. rewrite same_key_one. destruct (sql_eq (get k r) (get k x)) eqn:E.
    + destruct Ht as [Hk Hnd]. split.
      * apply Forall_cons in Hk as [Hx Hk]. constructor; [by rewrite get_excluded|done].
      * cbn [map]. by rewrite get_excluded.
    + destruct Ht as [Hk Hnd]. cbn [map] in Hnd. apply Forall_cons in Hk as [Hx Hk]. apply NoDup_cons in Hnd as [Hout Hnd].
      destruct (IH (conj Hk Hnd)) as [Hk' Hnd']. split; [by constructor|]. cbn [map]. constructor; [|done].
      rewrite list_elem_of_In, in_map_iff in *. intros (y & Hy & Hin).
      assert (get k y = get k r \/ In y t \/ exists z, In z t /\ get k y = get k z) as Hcases.
      { clear -Hin Hc. induction t as [|z t IHt]; cbn [upsert] in Hin.
        - destruct Hin as [<-|[]]. by left.
        - rewrite same_key_one in Hin. destruct (sql_eq (get k r) (get k z)).
          + destruct Hin as [<-|Hin]; [|by right; left; right]. right. right. exists z. rewrite get_excluded; [eauto with code|done].
          + destruct Hin as [<-|Hin]; [by right; left; left|]. destruct (IHt Hin) as [|[|(z' & ? & ?)]]; auto with code.
            right. right. exists z'. auto with code. }
      destruct Hcases as [He|[Hi|(z & Hz & He)]].
      * apply not_true_iff_false in E. apply E. apply sql_eq_key; [done..|]. congruence.
      * apply Hout. eauto.
      * apply Hout. exists z. split; [congruence|done].
Qed.

(** [row] of an upsert is found under its key. *)
Lemma upsert_In k cols r t x : In x (upsert k cols r t) -> x = r \/ In x t \/ exists old, In old t /\ sql_eq (get k r) (get k old) = true /\ x = excluded cols r old.
Proof.
  induction t as [|z t IH]; cbn [upsert]; [intros [<-|[]]; auto|].
  rewrite same_key_one. destruct (sql_eq (get k r) (get k z)) eqn:E.
  - intros [<-|Hin]; [|right; left; by right]. right. right. exists z. auto with code.
  - intros [<-|Hin]; [right; left; by left|]. destruct (IH Hin) as [->|[|(old & ? & ? & ->)]]; auto with code.
    right. right. exists old. auto with code.
Qed.

(** A deletion by key removes exactly the rows given. *)
Lemma delete_rows_In k rows t r :
  keyed k t -> (forall x, In x rows -> In x t) ->
  In r (delete_where (fun r => existsb (fun r' => sql_eq (get k r') (get k r)) rows) t) <-> In r t /\ ~ In r rows.
Proof.
  intros Ht Hsub. rewrite delete_where_In. split; intros [Hr Hout]; (split; [done|]).
  - intros Hin. rewrite existsb_not_In in Hout. specialize (Hout r Hin). apply not_true_iff_false in Hout.
    apply Hout, sql_eq_key; [by eapply keyed_key..|done].
  - apply existsb_not_In. intros r' Hr'. apply not_true_iff_false. intros Heq. apply Hout.
    apply sql_eq_key in Heq; [|by eapply keyed_key; [|apply Hsub]|by eapply keyed_key].
    by rewrite <- (keyed_inj k t r' r Ht (Hsub r' Hr') Hr Heq).
Qed.

Lemma filter_shorter {A} (p : A -> bool) l x : In x l -> p x = false -> (length (List.filter p l) < length l)%nat.
Proof.
  induction l as [|y l IH]; [done|]. intros [->|Hx] Hp; cbn [List.filter].
  - rewrite Hp. pose proof (filter_length_le p l). cbn. lia.
  - specialize (IH Hx Hp). destruct (p y); cbn; lia.
Qed.

Lemma delete_rows_shorter k r rows t :
  keyed k t -> In r t -> (length (delete_where (fun x => existsb (fun r' => sql_eq (get k r') (get k x)) (r :: rows)) t) < length t)%nat.
Proof.
  intros Ht Hr. apply (filter_shorter _ _ r Hr). apply negb_false_iff. cbn [existsb].
  by rewrite (proj2 (sql_eq_key _ _ (keyed_key k t r Ht Hr) (keyed_key k t r Ht Hr)) eq_refl).
Qed.

(** The rows within a bound are at most that many. *)
Lemma within_bounded k n keys (t : table) :
  keyed k t ->
  (length (List.filter (fun r => existsb (fun r' => sql_eq (get k r') (get k r)) (top n keys t)) t) <= n)%nat.
Proof.
  intros Ht. etransitivity; [|apply (top_length n keys t)]. apply NoDup_incl_length.
  - apply NoDup_ListNoDup. eapply keyed_NoDup, keyed_filter, Ht.
  - intros r [Hr Hin]%filter_In. apply existsb_In in Hin as (r' & Hr' & Heq).
    apply sql_eq_key in Heq; [|eapply keyed_key; [exact Ht|by eapply top_In]|by eapply keyed_key].
    rewrite <- (keyed_inj k t r' r Ht); [done|by eapply top_In|done|done].
Qed.

(** The keys a page is ordered by, as the store writes them. *)
Definition page_key (r : row) : Prop :=
  exists t i, get "occurred_at" r = VStr t /\ get "event_id" r = VStr i /\ clean t 64 = t /\ clean i 96 = i.

Lemma Forall_delete_where (P : row -> Prop) p t : Forall P t -> Forall P (delete_where p t).
Proof.
  intros Ht. apply Forall_forall. intros r Hr. rewrite Forall_forall in Ht. apply Ht.
  rewrite list_elem_of_In in *. by apply delete_where_In in Hr as [? _].
Qed.

Lemma get_excluded_in k cols r old : In k cols -> get k (excluded cols r old) = get k r.
Proof.
  intros Hk. unfold excluded, dupdate.
  enough (forall d, In k cols \/ dget k d = Some (get k r) ->
    dget k (fold_left (fun d kv => dset kv.1 kv.2 d) (map (fun c => (c, get c r)) cols) d) = Some (get k r)) as Hall.
  { unfold get at 1. unfold getd. rewrite Hall; auto. }
  clear Hk. induction cols as [|c cols IH]; intros d Hor; cbn [map fold_left fst snd]; [by destruct Hor|].
  apply IH. destruct (String.eqb_spec k c) as [->|Hne]; [right; apply dget_dset_eq|].
  destruct Hor as [[->|Hin]|Hd]; [done|by left|right]. by rewrite dget_dset_ne.
Qed.

(** An upsert changes the row of its key and no other. *)
Lemma upsert_keyed_In k cols r t x :
  keyed k t -> is_key (get k r) = true -> ~ In k cols ->
  In x (upsert k cols r t) <->
  (In x t /\ get k x <> get k r) \/ (x = r /\ forall old, In old t -> get k old <> get k r)
  \/ exists old, In old t /\ get k old = get k r /\ x = excluded cols r old.
Proof.
  intros Ht Hr Hc. induction t as [|z t IH]; cbn [upsert].
  - split; [intros [<-|[]]; right; left; auto|]. by intros [[[] _]|[[-> _]|(? & [] & _)]]; left.
  - pose proof (keyed_key k (z :: t) z Ht (in_eq _ _)) as Hz.
    assert (keyed k t) as Ht' by (destruct Ht as [Hk Hnd]; apply Forall_cons in Hk as [_ Hk]; cbn [map] in Hnd; by apply NoDup_cons in Hnd as [_ Hnd]).
    specialize (IH Ht'). rewrite same_key_one. destruct (sql_eq (get k r) (get k z)) eqn:E.
    + apply sql_eq_key in E; [|done..].
      assert (forall y, In y t -> get k y <> get k r) as Hout.
      { intros y Hy Heq. destruct Ht as [_ Hnd]. cbn [map] in Hnd. apply NoDup_cons in Hnd as [Hnz _]. apply Hnz.
        rewrite list_elem_of_In, in_map_iff. exists y. split; [congruence|done]. }
      split.
      * intros [<-|Hx]; [right; right; exists z; auto with code|]. left. split; [by right|by apply Hout].
      * intros [[[<-|Hx] Hne]|[[-> Hall]|(old & [<-|Hold] & Heq & ->)]].
        -- by rewrite E in Hne.
        -- by right.
        -- exfalso. by apply (Hall z (in_eq _ _)).
        -- by left.
        -- exfalso. by apply (Hout old).
    + assert (get k z <> get k r) as Hne by (intros Heq; apply not_true_iff_false in E; by apply E, sql_eq_key).
      cbn [In]. rewrite IH. split.
      * intros [<-|[[Hx Hnx]|[[-> Hall]|(old & Ho & Heq & ->)]]]; [left; auto|left; auto| |right; right; exists old; auto].
        right. left. split; [done|]. intros old [<-|Ho]; auto.
      * intros [[[<-|Hx] Hnx]|[[-> Hall]|(old & [<-|Ho] & Heq & ->)]]; [by left|by right; left; auto| |done|].
        -- right. right. left. split; [done|]. intros old Ho. apply Hall. by right.
        -- right. right. right. eauto.
Qed.

Lemma key_dec k t x r : keyed k t -> In x t -> is_key (get k r) = true -> get k x = get k r \/ get k x <> get k r.
Proof.
  intros Ht Hx Hr. pose proof (sql_eq_key (get k x) (get k r) (keyed_key k t x Ht Hx) Hr) as Heq.
  destruct (sql_eq (get k x) (get k r)); [left; by apply Heq|right; by intros ?%Heq].
Qed.
