(* ===== verification/TelemetryStore.v ===== *)
(** * The telemetry store ([telemetry.py], [TelemetryStore])

    The database of events, devices, findings, file scans and detections: its
    tables, the transactions that write them and the reads of single records.
    A transaction that raises leaves the database as it was. SQLite is the
    class [Sqlite]: the size of its files, the value a column of integer affinity
    stores and its date function. *)
From S2P Require Import Prelude PyVal PyStr Json PyText PyTime TelemetryValues Sql Findings.

(** [next_action] is the next value of AUTOINCREMENT; [fault] is the exception
    that opening the database raises, when it cannot be opened. *)
Record db := Db {
  metadata : list (string * string); events : table; relations : table; devices : table; findings : table;
  scans : table; detections : table; actions : table; receipts : table; next_action : Z; fault : option string }.

Definition with_metadata m (d : db) := Db m (events d) (relations d) (devices d) (findings d) (scans d) (detections d) (actions d) (receipts d) (next_action d) (fault d).
Definition with_events t (d : db) := Db (metadata d) t (relations d) (devices d) (findings d) (scans d) (detections d) (actions d) (receipts d) (next_action d) (fault d).
Definition with_relations t (d : db) := Db (metadata d) (events d) t (devices d) (findings d) (scans d) (detections d) (actions d) (receipts d) (next_action d) (fault d).
Definition with_devices t (d : db) := Db (metadata d) (events d) (relations d) t (findings d) (scans d) (detections d) (actions d) (receipts d) (next_action d) (fault d).
Definition with_findings t (d : db) := Db (metadata d) (events d) (relations d) (devices d) t (scans d) (detections d) (actions d) (receipts d) (next_action d) (fault d).
Definition with_scans t (d : db) := Db (metadata d) (events d) (relations d) (devices d) (findings d) t (detections d) (actions d) (receipts d) (next_action d) (fault d).
Definition with_detections t (d : db) := Db (metadata d) (events d) (relations d) (devices d) (findings d) (scans d) t (actions d) (receipts d) (next_action d) (fault d).
Definition with_actions t n (d : db) := Db (metadata d) (events d) (relations d) (devices d) (findings d) (scans d) (detections d) t (receipts d) n (fault d).
Definition with_receipts t (d : db) := Db (metadata d) (events d) (relations d) (devices d) (findings d) (scans d) (detections d) (actions d) t (next_action d) (fault d).

Definition empty_db : db := Db [] [] [] [] [] [] [] [] [] 1 None.

(** The size of the database files at a measurement, which depends on pages that
    are free as well as on the rows; the value an INTEGER column stores for a
    bound parameter; [datetime(x)] in seconds. *)
Class Sqlite := {
  size_bytes : nat -> db -> Z;
  integer_column : val -> res val;
  sql_datetime : string -> option Z;
}.

Section store.
Context `{FloatText} `{Sqlite}.

(** [self._connect()]. *)
Definition _connect : act db unit := fun d =>
  match fault d with
  | Some t => (Err (TelemetryError ("Telemetry storage is unavailable: " +:+ t)), d)
  | None => (Ok tt, d)
  end.

(** [with connection:]. *)
Definition transaction {A} (m : act db A) : act db A := fun d =>
  match m d with (Ok a, d') => (Ok a, d') | (Err e, _) => (Err e, d) end.

(** ** Events *)

Definition json_text (v : val) : string := dumps (_safe_value v).
Definition json_column (v : val) : val := VStr (json_text v).

(** [_text(value, maximum) or None]. *)
Definition column (v : val) (maximum : nat) : val := text_or_none (_text v maximum).

Definition event_row (now : Z) (value : dict) : res row :=
  let details := json_text (getd "details" (VDict []) value) in
  id ← item "event_id" value; schema ← item "schema" value; occurred ← item "occurred_at" value;
  observed ← item "observed_at" value; component ← item "component" value; source ← item "source" value;
  category ← item "category" value; event_type ← item "event_type" value; action ← item "action" value;
  outcome ← item "outcome" value; severity ← item "severity" value; assessment ← item "assessment" value;
  correlation ← as_dict (or_empty (get "correlation" value));
  retention ← item "retention_class" value; expires ← item "expires_at" value;
  monotonic ← integer_column (get "monotonic_ns" value);
  port ← integer_column (get "port" value);
  Ok (dlit
    [("event_id", VStr (_text id 96)); ("schema", schema); ("occurred_at", VStr (_text occurred 64)); ("observed_at", VStr (_text observed 64));
     ("monotonic_ns", monotonic); ("boot_id", column (get "boot_id" value) 64); ("session_id", column (get "session_id" value) 96);
     ("component", VStr (_text component 96)); ("source", VStr (_text source 128)); ("category", VStr (_text category 64));
     ("event_type", VStr (_text event_type 96)); ("action", VStr (_text action 64)); ("outcome", VStr (_text outcome 64));
     ("severity", VStr (_text severity 32)); ("assessment", VStr (_text assessment 48)); ("application", column (get "application" value) 240);
     ("operation_id", column (get "operation_id" correlation) 160); ("transaction_id", column (get "transaction_id" correlation) 160);
     ("unit", column (get "unit" correlation) 160); ("rule_id", column (get "rule_id" correlation) 160);
     ("destination_json", json_column (or_empty (get "destination" value))); ("protocol", column (get "protocol" value) 24); ("port", port);
     ("decision", text_or_none (str_upper (_text (get "decision" value) 24))); ("correlation_json", json_column (or_empty (get "correlation" value)));
     ("details_json", VStr details); ("quality_json", json_column (or_empty (get "quality" value)));
     ("native_evidence_json", json_column (or_empty (get "native_evidence" value))); ("retention_class", VStr (_text retention 24));
     ("expires_at", VStr (_text expires 64)); ("inserted_at", VStr (stamp now))]).

(** [_upsert_finding(connection, value)]. *)
Definition FINDING_UPDATES : list string :=
  ["state"; "severity"; "title"; "summary"; "destination"; "last_seen"; "resolved_at"; "evidence_json"].

Definition nonempty (s other : string) : string := if String.eqb s "" then other else s.

Definition finding_row (now : Z) (value : dict) (existing : option row) : row :=
  let last := nonempty (_text (get "last_seen" value) 64) (stamp now) in
  let first := _text (get "first_seen" value) 64 in
  dlit
    [("finding_id", VStr (_text (get "finding_id" value) 128)); ("kind", VStr (_text (get "kind" value) 64));
     ("subject_key", VStr (_text (get "subject_key" value) 160)); ("state", VStr (_text (get "state" value) 24));
     ("severity", VStr (_text (get "severity" value) 24)); ("title", VStr (_text (get "title" value) 160));
     ("summary", VStr (_text (get "summary" value) 320)); ("destination", VStr (nonempty (_text (get "destination" value) 64) "overview"));
     ("first_seen", if String.eqb first "" then match existing with Some r => get "first_seen" r | None => VStr last end else VStr first);
     ("last_seen", VStr last); ("resolved_at", column (get "resolved_at" value) 64);
     ("evidence_json", json_column (getd "evidence" (VList []) value))].

Definition _upsert_finding (now : Z) (value : dict) : act db dict :=
  value ← lift (as_dict (_safe_value (VDict value)));
  let finding_id := _text (get "finding_id" value) 128 in
  _ ← lift (require (negb (String.eqb finding_id "")) (TelemetryError "Finding ID is required"));
  existing ← gets (fun d => find_row "finding_id" (VStr finding_id) (findings d));
  _ ← modify (fun d => with_findings (upsert "finding_id" FINDING_UPDATES (finding_row now value existing) (findings d)) d);
  gets (fun d => default [] (find_row "finding_id" (VStr finding_id) (findings d))).

Definition upsert_finding (now : Z) (value : dict) : act db dict :=
  _ ← _connect; transaction (_upsert_finding now value).

(** Whether a failure is newer than what is recorded of it: one that was
    resolved is opened again only by a later failure. *)
Definition newer (last_seen : val) (existing : option row) : bool :=
  match existing with
  | None => true
  | Some r => sql_lt (py_or (get "resolved_at" r) (get "last_seen" r)) last_seen
  end.

Definition record_finding (now : Z) (value : dict) : act db unit :=
  match event_finding value with
  | None => mret tt
  | Some finding =>
      existing ← gets (fun d => find_row "finding_id" (get "finding_id" finding) (findings d));
      if newer (get "last_seen" finding) existing then _ ← _upsert_finding now finding; mret tt else mret tt
  end.

Definition relation_row (id : val) (relation : dict) : row :=
  dlit [("event_id", VStr (_text id 96)); ("related_event_id", VStr (_text (get "event_id" relation) 96));
        ("relation", VStr (_text (get "relation" relation) 48)); ("confidence", VStr (_text (get "confidence" relation) 24));
        ("basis", VStr (_text (get "basis" relation) 160))].

Definition record_relation (id relation : val) : act db unit :=
  match relation with
  | VDict r =>
      if truthy (get "event_id" r)
      then modify (fun d => with_relations (insert_ignore ["event_id"; "related_event_id"; "relation"] (relation_row id r) (relations d)).1 d)
      else mret tt
  | _ => mret tt
  end.

Definition insert_event (r : row) : act db bool := fun d =>
  let '(t, inserted) := insert_ignore ["event_id"] r (events d) in (Ok inserted, with_events t d).

(** [value.get("relations", [])[:MAX_RELATIONS]]: the characters of a text are no
    relations. *)
Definition related_items (v : val) : res (list val) :=
  match v with VList l => Ok (take MAX_RELATIONS l) | VStr _ => Ok [] | _ => Err TypeError end.

Definition _record_value (now : Z) (value : dict) : act db unit :=
  r ← lift (event_row now value);
  inserted ← insert_event r;
  expires ← lift (item "expires_at" value);
  current ← lift (if inserted : bool then py_ge expires (VStr (stamp now)) else Ok false);
  _ ← (if current : bool then record_finding now value else mret tt);
  related ← lift (related_items (getd "relations" (VList []) value));
  id ← lift (item "event_id" value);
  each (record_relation id) related.

(** The checks before the transaction. *)
Definition details_size (value : dict) : Z := utf8_len (json_text (getd "details" (VDict []) value)).

Definition prepared (v : val) : res dict :=
  value ← as_dict v;
  _ ← require (is_str SCHEMA (get "schema" value) && truthy (get "event_id" value)) (TelemetryError "Invalid telemetry event");
  _ ← require (details_size value <=? MAX_DETAILS_BYTES) (TelemetryError "Telemetry event details are too large");
  Ok value.

(** ** File scans and detections *)

(** [int(value or 0)] of a counter, which is an integer. *)
Definition count_of (v : val) : val := match v with VInt z => VInt z | VBool true => VInt 1 | _ => VInt 0 end.

Definition SCAN_COLUMNS : list string :=
  ["state"; "phase"; "ended_at"; "files_inspected"; "detection_count"; "error_count"; "skipped_count"; "total_files";
   "total_known"; "detail"; "scanner_version"; "database_version"].

Definition scan_row (now : Z) (value : dict) : row :=
  dlit
    [("operation_id", VStr (_text (get "operation_id" value) 96)); ("mode", VStr (_text (get "mode" value) 24));
     ("scope_json", json_column (or_empty (get "scope" value))); ("state", VStr (nonempty (_text (get "state" value) 24) "QUEUED"));
     ("phase", VStr (nonempty (_text (get "phase" value) 48) "QUEUED")); ("started_at", VStr (nonempty (_text (get "started_at" value) 64) (stamp now)));
     ("ended_at", VNone); ("files_inspected", count_of (get "files_inspected" value)); ("detection_count", count_of (get "detection_count" value));
     ("error_count", count_of (get "error_count" value)); ("skipped_count", count_of (get "skipped_count" value));
     ("total_files", get "total_files" value); ("total_known", VInt (if truthy (get "total_known" value) then 1 else 0));
     ("detail", column (get "detail" value) 320); ("scanner_version", column (get "scanner_version" value) 48);
     ("database_version", column (get "database_version" value) 96); ("owner_uid", get "owner_uid" value)].

(** The scope of a row is read back from its text. *)
Definition scan_value (r : row) : dict :=
  let scope := match loads (match get "scope_json" r with VStr s => s | _ => "" end) with Ok v => v | Err _ => VDict [] end in
  dset "total_known" (VBool (truthy (get "total_known" r))) (dset "scope" scope (ddel "scope_json" r)).

Definition scan_of (id : string) (d : db) : option dict :=
  scan_value <$> find_row "operation_id" (VStr (_text (VStr id) 96)) (scans d).

Definition get_file_scan (id : string) : act db (option dict) := _ ← _connect; gets (scan_of id).

(** A primary key that exists is an [IntegrityError]. *)
Definition create_file_scan (now : Z) (value : dict) : act db dict :=
  _ ← _connect;
  let r := scan_row now value in
  _ ← transaction (fun d => if existsb (same_key ["operation_id"] r) (scans d)
                            then (Err (ProviderError "IntegrityError"), d) else (Ok tt, with_scans (scans d ++ [r]) d));
  found ← get_file_scan (_text (get "operation_id" value) 96);
  mret (default [] found).

Definition stored_change (kv : string * val) : string * val :=
  if String.eqb kv.1 "total_known" then (kv.1, VInt (if truthy kv.2 then 1 else 0)) else kv.

Definition update_file_scan (id : string) (changes : list (string * val)) : act db (option dict) :=
  let changes := List.filter (fun kv => member kv.1 SCAN_COLUMNS) changes in
  if (length changes =? 0)%nat then get_file_scan id
  else
    _ ← _connect;
    _ ← transaction (modify (fun d =>
      with_scans (update_where (fun r => sql_eq (get "operation_id" r) (VStr (_text (VStr id) 96)))
                    (fun r => dupdate r (map stored_change changes)) (scans d)) d));
    get_file_scan id.

Definition text_val (v : val) : string := match v with VStr s => s | _ => "" end.

(** [max(1, min(bound, limit))]. *)
Definition bounded (bound limit : Z) : nat := Z.to_nat (Z.max 1 (Z.min bound limit)).

Definition owned_by (owner : option Z) (r : row) : bool :=
  match owner with Some uid => sql_eq (get "owner_uid" r) (VInt uid) | None => true end.

Definition list_file_scans (limit : Z) (owner : option Z) : act db (list dict) :=
  _ ← _connect;
  gets (fun d => omap (fun r => scan_of (text_val (get "operation_id" r)) d)
                   (top (bounded 128 limit) [("started_at", true)] (select (owned_by owner) (scans d)))).

(** A detection that exists keeps what was observed: only its state and where
    its content went change. *)
Definition DETECTION_UPDATES : list string := ["state"; "quarantine_id"; "restore_staging_path"; "last_error"; "updated_at"].

Definition detection_row (now : Z) (value : dict) : row :=
  dlit
    [("detection_id", VStr (_text (get "detection_id" value) 128)); ("operation_id", VStr (_text (get "operation_id" value) 96));
     ("original_path", VStr (_text (get "original_path" value) 4096)); ("file_ref", VStr (_text (get "file_ref" value) 96));
     ("detection_name", VStr (nonempty (_text (get "detection_name" value) 160) "Known threat"));
     ("detected_at", VStr (nonempty (_text (get "detected_at" value) 64) (stamp now))); ("scanner_version", column (get "scanner_version" value) 48);
     ("database_version", column (get "database_version" value) 96); ("file_size", get "file_size" value);
     ("file_hash", column (get "file_hash" value) 128); ("state", VStr (nonempty (_text (get "state" value) 32) "DETECTED"));
     ("quarantine_id", column (get "quarantine_id" value) 128); ("restore_staging_path", column (get "restore_staging_path" value) 4096);
     ("last_error", column (get "last_error" value) 320); ("updated_at", VStr (nonempty (_text (get "updated_at" value) 64) (stamp now)))].

Definition action_value (r : row) : val :=
  VDict (dlit (map (fun k => (k, get k r)) ["action"; "outcome"; "occurred_at"; "detail"]%string)).

(** The record of a detection, with the actions on it, latest first. *)
Definition detection_of (id : string) (d : db) : option dict :=
  let key := VStr (_text (VStr id) 128) in
  (fun r => dset "actions" (VList (map action_value
     (order_by [("occurred_at", true)] (select (fun a => sql_eq (get "detection_id" a) key) (actions d))))) r)
  <$> find_row "detection_id" key (detections d).

Definition get_file_detection (id : string) : act db (option dict) := _ ← _connect; gets (detection_of id).

Definition upsert_file_detection (now : Z) (value : dict) : act db dict :=
  let id := _text (get "detection_id" value) 128 in
  _ ← lift (require (negb (String.eqb id "")) (TelemetryError "Detection ID is required"));
  _ ← _connect;
  _ ← transaction (modify (fun d => with_detections (upsert "detection_id" DETECTION_UPDATES (detection_row now value) (detections d)) d));
  found ← get_file_detection id;
  mret (default [] found).

(** The scan a detection was made by is joined for its owner. *)
Definition detection_owned (owner : option Z) (d : db) (r : row) : bool :=
  match owner with
  | None => true
  | Some _ => match find_row "operation_id" (get "operation_id" r) (scans d) with
              | Some o => owned_by owner o
              | None => false
              end
  end.

Definition matches_text (column : string) (v : val) (n : nat) (r : row) : bool :=
  if truthy v then sql_eq (get column r) (VStr (_text v n)) else true.

Definition list_file_detections (state operation : val) (limit : Z) (owner : option Z) : act db (list dict) :=
  _ ← _connect;
  gets (fun d =>
    omap (fun r => detection_of (text_val (get "detection_id" r)) d)
      (top (bounded 256 limit) [("updated_at", true)]
         (select (fun r => detection_owned owner d r && matches_text "state" state 96 r && matches_text "operation_id" operation 96 r)
            (detections d)))).

Definition action_row (now : Z) (n : Z) (id action outcome detail : string) : row :=
  dlit [("action_id", VInt n); ("detection_id", VStr (_text (VStr id) 128)); ("action", VStr (_text (VStr action) 48));
        ("outcome", VStr (_text (VStr outcome) 32)); ("occurred_at", VStr (stamp now)); ("detail", column (VStr detail) 320)].

Definition record_file_action (now : Z) (id action outcome detail : string) : act db bool :=
  _ ← _connect;
  _ ← transaction (modify (fun d =>
        with_actions (actions d ++ [action_row now (next_action d) id action outcome detail]) (next_action d + 1) d));
  mret true.
End store.
