(* ===== verification/TelemetryRetention.v ===== *)
(** * Retention ([telemetry.py], [prune], [record_many])

    What the store forgets: expired events, old history of file security, rows
    beyond the bounds of the tables and, while the files are too large, the
    oldest rows. Detections that are held in quarantine ([HELD]) and active scans are
    never among them. The inventory of devices and the backfill of findings
    follow. *)
From Stdlib Require Import DecimalString.
From S2P Require Import Prelude PyVal PyStr Json JsonRound NetworkRules RuleTexts PyText PyTime TelemetryValues Sql Findings TelemetryStore KeyedTables.

Definition MAX_DB_BYTES : Z := 128 * 1024 * 1024.
Definition MAX_FILE_OPERATIONS : nat := 256.
Definition MAX_FILE_DETECTIONS : nat := 512.
Definition MAX_FILE_ACTIONS : nat := 2048.
Definition EVICTION_BATCH : nat := 64.
Definition HISTORY_SECONDS : Z := 30 * 86400.

Definition ACTIVE : list string := ["QUEUED"; "SCANNING"; "FINALIZING"].
Definition HELD : list string := ["QUARANTINED"; "QUARANTINE_FAILED"].

Definition in_state (states : list string) (r : row) : bool := in_strs states (get "state" r).

(** [k NOT IN (SELECT k FROM t ORDER BY keys LIMIT n)]. *)
Definition beyond (n : nat) (keys : list (string * bool)) (k : string) (t : table) (r : row) : bool :=
  negb (existsb (fun r' => sql_eq (get k r') (get k r)) (top n keys t)).

(** [DELETE FROM t WHERE k = ?] for each of [rows]. *)
Definition delete_rows (k : string) (rows t : table) : table :=
  delete_where (fun r => existsb (fun r' => sql_eq (get k r') (get k r)) rows) t.

(** The order of eviction of events: investigation records before semantic
    ones, then the oldest. *)
Definition class_of (r : row) : Z := if is_str "investigation" (get "retention_class" r) then 0 else 1.

Definition evicted_before (a b : row) : bool :=
  match Z.compare (class_of a) (class_of b) with
  | Lt => true
  | Gt => false
  | Eq => before_eq [("occurred_at", false); ("event_id", false)] a b
  end.

Section retention.
Context `{FloatText} `{Sqlite} (max_bytes : Z).

(** [datetime(column) < datetime(cutoff)]; NULL satisfies no condition. *)
Definition older (column : string) (cutoff : option Z) (r : row) : bool :=
  match get column r, cutoff with
  | VStr s, Some c => match sql_datetime s with Some t => t <? c | None => false end
  | _, _ => false
  end.

Definition expired (now : string) (r : row) : bool := sql_lt (get "expires_at" r) (VStr now).

(** The first transaction, and the number of expired events. *)
Definition age_out (now : string) (d : db) : db :=
  let cutoff := (fun t => t - HISTORY_SECONDS) <$> sql_datetime now in
  let evs := delete_where (expired now) (events d) in
  let acts := delete_where (older "occurred_at" cutoff) (actions d) in
  let dets := delete_where (fun r => in_state ["RESTORED"; "DELETED"] r && older "updated_at" cutoff r) (detections d) in
  let scs := delete_where (fun r => negb (is_none (get "ended_at" r)) && older "ended_at" cutoff r) (scans d) in
  let acts := delete_where (beyond MAX_FILE_ACTIONS [("occurred_at", true); ("action_id", true)] "action_id" acts) acts in
  let scs := delete_where (fun r => beyond MAX_FILE_OPERATIONS [("started_at", true)] "operation_id" scs r && negb (in_state ACTIVE r)) scs in
  let dets := delete_where (fun r => beyond MAX_FILE_DETECTIONS [("updated_at", true)] "detection_id" dets r && negb (in_state HELD r)) dets in
  with_detections dets (with_scans scs (with_actions acts (next_action d) (with_events evs d))).

(** One batch of evictions; [None] when nothing more may go. *)
Definition evict (d : db) : option (db * nat) :=
  match take EVICTION_BATCH (sort_by evicted_before (events d)) with
  | (_ :: _) as rows => Some (with_events (delete_rows "event_id" rows (events d)) d, length rows)
  | [] =>
      match top EVICTION_BATCH [("updated_at", false); ("detection_id", false)] (select (fun r => negb (in_state HELD r)) (detections d)) with
      | (_ :: _) as rows => Some (with_detections (delete_rows "detection_id" rows (detections d)) d, length rows)
      | [] =>
          match top EVICTION_BATCH [("started_at", false); ("operation_id", false)] (select (fun r => negb (in_state ACTIVE r)) (scans d)) with
          | (_ :: _) as rows => Some (with_scans (delete_rows "operation_id" rows (scans d)) d, length rows)
          | [] => None
          end
      end
  end.

(** [while self._size_bytes() > self.max_bytes:]; [n] counts the measurements. *)
Fixpoint evict_loop (fuel n : nat) (d : db) : option (db * nat) :=
  match fuel with
  | O => None
  | S fuel =>
      if size_bytes n d <=? max_bytes then Some (d, O)
      else match evict d with
           | None => Some (d, O)
           | Some (d', k) => (fun r => (r.1, (k + r.2)%nat)) <$> evict_loop fuel (S n) d'
           end
  end.

(** Every batch removes a row, so the number of rows is fuel enough. *)
Definition rows_left (d : db) : nat := (length (events d) + length (detections d) + length (scans d))%nat.

Definition evict_all (d : db) : db * nat := default (d, O) (evict_loop (S (rows_left d)) 0 d).

Definition note_prune (now : string) (removed_expired removed_for_size : nat) (d : db) : db :=
  with_metadata
    (put "last_size_evictions" (str_of_Z (Z.of_nat removed_for_size))
      (put "last_expired_deletions" (str_of_Z (Z.of_nat removed_expired)) (put "last_prune_at" now (metadata d)))) d.

(** [prune(now=now)]: what is left and the two numbers. *)
Definition prune_db (now : string) (d : db) : db * (nat * nat) :=
  let removed := length (select (expired now) (events d)) in
  let '(d2, evicted) := evict_all (age_out now d) in
  (note_prune now removed evicted d2, (removed, evicted)).

Definition pruned (now : string) : act db dict := fun d =>
  let '(d', (removed, evicted)) := prune_db now d in
  (Ok (dlit [("expired", VInt (Z.of_nat removed)); ("size", VInt (Z.of_nat evicted))]), d').

Definition prune (now : string) : act db dict := _ ← _connect; pruned now.

(** [record_many(values)] and [record(value)]. *)
Definition record_many (now : Z) (values : list val) : act db Z :=
  ready ← lift (mapM_res prepared values);
  if (length ready =? 0)%nat then mret 0
  else
    _ ← _connect;
    _ ← transaction (each (_record_value now) ready);
    _ ← prune (stamp now);
    mret (Z.of_nat (length ready)).

Definition record (now : Z) (value : val) : act db bool :=
  n ← record_many now [value]; mret (negb (n =? 0)).
End retention.

(** * What retention keeps

    The wait of the size loop ends, the tables are bounded afterwards, and
    neither a detection that is held in quarantine nor an active scan is lost. *)

(** The number [status] reads back. *)
Definition readable_counter (m : list (string * string)) : Prop :=
  exists n, int_of_text (nonempty (default "0" (dget "last_size_evictions" m)) "0") = Ok n.

Lemma digits_readable s b acc : str_forall digit_char s = true -> s <> "" \/ b = true -> is_Some (int_digits b acc s).
Proof.
  revert b acc; induction s as [|c s IH]; intros b acc; cbn [str_forall int_digits]; [by intros _ [| ->]|].
  intros [-> Hs]%andb_true_iff _. by apply IH; [|right].
Qed.

Lemma number_readable n : exists z, int_of_text (str_of_Z n) = Ok z.
Proof.
  assert (strip (str_of_Z n) = str_of_Z n) as Hs.
  { apply strip_no_space. apply (str_forall_impl number_char); [|apply str_of_Z_chars]. by intros [[] [] [] [] [] [] [] []]. }
  unfold int_of_text. rewrite Hs. destruct (str_of_Z_parts n) as [(d & -> & Hd)|(d & -> & Hd)].
  - destruct (natural_ok_head _ Hd) as (c & r & Hr & Hc). apply natural_ok_digits in Hd.
    destruct (digits_readable (NilZero.string_of_uint d) false 0 Hd) as [z Hz]; [left; by rewrite Hr|]. exists z. rewrite Hr in *.
    destruct c as [[] [] [] [] [] [] [] []]; try discriminate Hc; by rewrite Hz.
  - destruct (natural_ok_head _ Hd) as (c & r & Hr & _). apply natural_ok_digits in Hd.
    destruct (digits_readable (NilZero.string_of_uint d) false 0 Hd) as [z Hz]; [left; by rewrite Hr|]. exists (- z). cbn [option_map]. by rewrite Hz.
Qed.

Lemma counter_written n m : readable_counter (put "last_size_evictions" (str_of_Z n) m).
Proof.
  unfold readable_counter. rewrite dget_put, String.eqb_refl. destruct (number_readable n) as [z Hz]. exists z. unfold nonempty. cbn [default from_option id].
  destruct (String.eqb_spec (str_of_Z n) "") as [He|]; [by rewrite He in Hz|done].
Qed.

Lemma counter_kept k v m : k <> "last_size_evictions" -> readable_counter m -> readable_counter (put k v m).
Proof. intros Hk. unfold readable_counter. rewrite dget_put. by destruct (String.eqb_spec "last_size_evictions" k). Qed.

(** The primary keys of the tables, and the counter. *)
Record store_keyed (d : db) : Prop := {
  events_keyed : keyed "event_id" (events d);
  events_ordered : Forall page_key (events d);
  devices_keyed : keyed "identity_id" (devices d);
  findings_keyed : keyed "finding_id" (findings d);
  scans_keyed : keyed "operation_id" (scans d);
  detections_keyed : keyed "detection_id" (detections d);
  actions_keyed : keyed "action_id" (actions d);
  next_fresh : Forall (fun r => exists n, get "action_id" r = VInt n /\ n < next_action d) (actions d);
  counter_readable : readable_counter (metadata d) }.

Lemma empty_keyed : store_keyed empty_db.
Proof. split; try apply keyed_nil; try constructor. by exists 0. Qed.

Section retention_props.
Context `{FloatText} `{Sqlite} (max_bytes : Z).

(** ** The eviction of rows *)

Lemma sort_evicted_In r t : In r (sort_by evicted_before t) <-> In r t.
Proof. apply sort_by_In. Qed.

Lemma take_In {A} n (x : A) l : In x (take n l) -> In x l.
Proof. intros Hx. rewrite <- (take_drop n l). apply in_or_app. by left. Qed.

Lemma delete_rows_keyed k rows t : keyed k t -> keyed k (delete_rows k rows t).
Proof. apply keyed_delete. Qed.

Local Ltac evicted :=
  repeat match goal with
  | |- _ /\ _ => split
  | |- forall r, In r _ -> _ => let H := fresh in intros ? H; try apply delete_where_In in H as [H _]
  end; try done.

(** What a batch removes: rows of one table, none of them held or active. *)
Lemma evict_spec d d' n :
  store_keyed d -> evict d = Some (d', n) ->
  store_keyed d' /\ (rows_left d' < rows_left d)%nat
  /\ (forall r, In r (detections d) -> in_state HELD r = true -> In r (detections d'))
  /\ (forall r, In r (scans d) -> in_state ACTIVE r = true -> In r (scans d'))
  /\ (forall r, In r (events d') -> In r (events d)) /\ (forall r, In r (detections d') -> In r (detections d))
  /\ (forall r, In r (scans d') -> In r (scans d))
  /\ actions d' = actions d /\ relations d' = relations d /\ findings d' = findings d.
Proof.
  intros [He Hp Hv Hf Hs Hd Ha Hn Hm] Hev. unfold evict, rows_left in *.
  destruct (take EVICTION_BATCH (sort_by evicted_before (events d))) as [|r rows] eqn:E1.
  - destruct (top _ _ (select (fun r => negb (in_state HELD r)) (detections d))) as [|r rows] eqn:E2.
    + destruct (top _ _ (select (fun r => negb (in_state ACTIVE r)) (scans d))) as [|r rows] eqn:E3; [done|].
      injection Hev as <- <-. cbn [events scans detections with_scans actions relations findings devices next_action].
      assert (forall x, In x (r :: rows) -> In x (scans d) /\ in_state ACTIVE x = false) as Hsub.
      { intros x Hx. rewrite <- E3 in Hx. apply top_In, select_In in Hx as [? ?%negb_true_iff]. done. }
      split; [by split; try done; (apply delete_rows_keyed || apply Forall_delete_where)|].
      pose proof (delete_rows_shorter "operation_id" r rows (scans d) Hs (proj1 (Hsub r (or_introl eq_refl)))).
      split; [unfold delete_rows; lia|]. split; [done|]. split; [|by evicted].
      intros x Hx Hact. apply delete_rows_In; [done|by intros y Hy; apply Hsub|]. split; [done|]. intros Hin%Hsub. destruct Hin; congruence.
    + injection Hev as <- <-. cbn [events scans detections with_detections actions relations findings devices next_action].
      assert (forall x, In x (r :: rows) -> In x (detections d) /\ in_state HELD x = false) as Hsub.
      { intros x Hx. rewrite <- E2 in Hx. apply top_In, select_In in Hx as [? ?%negb_true_iff]. done. }
      split; [by split; try done; (apply delete_rows_keyed || apply Forall_delete_where)|].
      pose proof (delete_rows_shorter "detection_id" r rows (detections d) Hd (proj1 (Hsub r (or_introl eq_refl)))).
      split; [unfold delete_rows; lia|]. split; [|by evicted].
      intros x Hx Hact. apply delete_rows_In; [done|by intros y Hy; apply Hsub|]. split; [done|]. intros Hin%Hsub. destruct Hin; congruence.
  - injection Hev as <- <-. cbn [events scans detections with_events actions relations findings devices next_action].
    assert (forall x, In x (r :: rows) -> In x (events d)) as Hsub.
    { intros x Hx. rewrite <- E1 in Hx. by apply take_In, (proj1 (sort_evicted_In _ _)) in Hx. }
    split; [by split; try done; (apply delete_rows_keyed || apply Forall_delete_where)|].
    pose proof (delete_rows_shorter "event_id" r rows (events d) He (Hsub r (or_introl eq_refl))).
    split; [unfold delete_rows; lia|]. by evicted.
Qed.

(** Rule induction for the loop: what every batch keeps holds at the end, where
    the files are small enough or nothing more may go. *)
Lemma evict_loop_ends (P : db -> Prop) fuel n d :
  (forall d d' k, P d -> store_keyed d -> evict d = Some (d', k) -> P d') ->
  P d -> store_keyed d -> (rows_left d < fuel)%nat ->
  exists d' k m, evict_loop max_bytes fuel n d = Some (d', k) /\ P d' /\ store_keyed d'
    /\ (size_bytes m d' <= max_bytes \/ evict d' = None).
Proof.
  intros HP. revert n d. induction fuel as [|fuel IH]; intros n d Hd Hk Hfuel; [lia|]. cbn [evict_loop].
  destruct (Z.leb_spec (size_bytes n d) max_bytes) as [Hsize|Hsize]; [exists d, O, n; auto|].
  destruct (evict d) as [[d1 k1]|] eqn:E; [|exists d, O, n; auto].
  destruct (evict_spec d d1 k1 Hk E) as (Hk1 & Hlt & _).
  destruct (IH (S n) d1 (HP _ _ _ Hd Hk E) Hk1 ltac:(lia)) as (d' & k & m & -> & Hrest).
  exists d', (k1 + k)%nat, m. by split.
Qed.

(** More fuel changes nothing. *)
Lemma evict_loop_fuel fuel fuel' n d r :
  evict_loop max_bytes fuel n d = Some r -> (fuel <= fuel')%nat -> evict_loop max_bytes fuel' n d = Some r.
Proof.
  revert fuel' n d r; induction fuel as [|fuel IH]; intros [|fuel'] n d r; try done; [lia|]. cbn [evict_loop].
  destruct (size_bytes n d <=? max_bytes); [done|]. destruct (evict d) as [[d1 k1]|]; [|done].
  destruct (evict_loop max_bytes fuel (S n) d1) as [x|] eqn:E; [|done]. intros Hr Hle.
  by rewrite (IH fuel' _ _ _ E ltac:(lia)).
Qed.

(** ** The first transaction *)

Lemma age_out_keyed now d : store_keyed d -> store_keyed (age_out now d).
Proof.
  intros [He Hp Hv Hf Hs Hd Ha Hn Hm]. split; cbn; try done; [repeat apply keyed_delete; done|by apply Forall_delete_where|repeat apply keyed_delete; done..|].
  apply Forall_forall. intros r Hr. rewrite Forall_forall in Hn. apply Hn.
  rewrite list_elem_of_In in *. by apply delete_where_In in Hr as [Hr _]; apply delete_where_In in Hr as [Hr _].
Qed.

Lemma in_state_disjoint s t r : forallb (fun x => negb (member x t)) s = true -> in_state s r = true -> in_state t r = false.
Proof.
  unfold in_state, in_strs. destruct (get "state" r) as [| | | |x| |]; try done. intros Hst Hin.
  apply existsb_exists in Hin as (y & Hy & ->%String.eqb_eq). rewrite forallb_forall in Hst.
  specialize (Hst y Hy). by apply negb_true_iff in Hst.
Qed.

(** A scan that has not ended. *)
Definition running (r : row) : bool := in_state ACTIVE r && is_none (get "ended_at" r).

Lemma age_out_keeps now d :
  (forall r, In r (detections d) -> in_state HELD r = true -> In r (detections (age_out now d)))
  /\ (forall r, In r (scans d) -> running r = true -> In r (scans (age_out now d))).
Proof.
  split; intros r Hr Hst; unfold age_out; cbn [detections scans with_detections with_scans].
  - apply delete_where_In. rewrite Hst, andb_false_r. split; [|done]. apply delete_where_In. split; [done|].
    by rewrite (in_state_disjoint HELD ["RESTORED"; "DELETED"] r eq_refl Hst).
  - apply andb_true_iff in Hst as [Hst Hend]. apply delete_where_In. rewrite Hst, andb_false_r. split; [|done].
    apply delete_where_In. by rewrite Hend.
Qed.

Definition bounds (now : string) (d : db) : Prop :=
  (length (actions d) <= MAX_FILE_ACTIONS)%nat
  /\ (length (select (fun r => negb (in_state ACTIVE r)) (scans d)) <= MAX_FILE_OPERATIONS)%nat
  /\ (length (select (fun r => negb (in_state HELD r)) (detections d)) <= MAX_FILE_DETECTIONS)%nat
  /\ (forall r, In r (events d) -> expired now r = false).

Lemma filter_incl_length {A} (p q : A -> bool) l :
  (forall x, In x l -> p x = true -> q x = true) -> (length (List.filter p l) <= length (List.filter q l))%nat.
Proof.
  intros Hpq. induction l as [|x l IH]; [done|]. cbn [List.filter].
  assert (length (List.filter p l) <= length (List.filter q l))%nat by (apply IH; auto with code).
  destruct (p x) eqn:E; [rewrite (Hpq x (in_eq _ _) E); cbn; lia|]. destruct (q x); cbn; lia.
Qed.

Lemma filter_twice {A} (p q : A -> bool) l : List.filter p (List.filter q l) = List.filter (fun x => q x && p x) l.
Proof.
  induction l as [|x l IH]; [done|]. cbn [List.filter]. destruct (q x); cbn [List.filter andb]; [by rewrite IH|done].
Qed.

(** The rows a bound leaves outside the kept states. *)
Lemma beyond_bounded k n keys (keep : row -> bool) t :
  keyed k t -> (length (select (fun r => negb (keep r)) (delete_where (fun r => beyond n keys k t r && negb (keep r)) t)) <= n)%nat.
Proof.
  intros Ht. etransitivity; [|apply (within_bounded k n keys t Ht)].
  unfold select, delete_where. rewrite filter_twice. apply filter_incl_length. intros r _.
  unfold beyond. destruct (keep r), (existsb _ _); cbn; done.
Qed.

Lemma age_out_bounds now d : store_keyed d -> bounds now (age_out now d).
Proof.
  intros [He Hp Hv Hf Hs Hd Ha Hn Hm]. unfold bounds, age_out.
  cbn [actions scans detections events with_actions with_scans with_detections with_events]. split; [|split; [|split]].
  - set (t := delete_where _ (actions d)). assert (keyed "action_id" t) as Ht by by apply keyed_delete.
    etransitivity; [|apply (within_bounded _ MAX_FILE_ACTIONS [("occurred_at", true); ("action_id", true)] t Ht)].
    unfold delete_where, beyond. apply Nat.eq_le_incl. f_equal. apply filter_ext. intros r. by rewrite negb_involutive.
  - apply beyond_bounded. by apply keyed_delete.
  - apply beyond_bounded. by apply keyed_delete.
  - intros r Hr. by apply delete_where_In in Hr as [_ ?].
Qed.

Lemma filter_sub_length {A} (p : A -> bool) l l' : NoDup l' -> (forall x, In x l' -> In x l) -> (length (List.filter p l') <= length (List.filter p l))%nat.
Proof.
  intros Hnd Hsub. apply NoDup_incl_length; [by apply List.NoDup_filter, NoDup_ListNoDup|].
  intros x [Hx Hp]%filter_In. apply filter_In. auto.
Qed.

Lemma evict_bounds now d d' k : bounds now d -> store_keyed d -> evict d = Some (d', k) -> bounds now d'.
Proof.
  intros (Ha & Hs & Hd & He) Hk Hev. destruct (evict_spec d d' k Hk Hev) as (Hk' & _ & _ & _ & Hes & Hds & Hss & Hae & _).
  unfold bounds. rewrite Hae. split; [done|].
  split; [etransitivity; [|exact Hs]; apply filter_sub_length; [by eapply keyed_NoDup, scans_keyed|done]|].
  split; [etransitivity; [|exact Hd]; apply filter_sub_length; [by eapply keyed_NoDup, detections_keyed|done]|].
  intros r Hr. auto.
Qed.

(** ** The whole of [prune] *)

Definition kept (d0 d : db) : Prop :=
  (forall r, In r (detections d0) -> in_state HELD r = true -> In r (detections d))
  /\ (forall r, In r (scans d0) -> running r = true -> In r (scans d)).

Lemma evict_kept d0 d d' k : kept d0 d -> store_keyed d -> evict d = Some (d', k) -> kept d0 d'.
Proof.
  intros [Hd Hs] Hk Hev. destruct (evict_spec d d' k Hk Hev) as (_ & _ & Hd' & Hs' & _).
  split; intros r Hr Hst; [auto|]. apply Hs'; [auto|]. by apply andb_true_iff in Hst as [? _].
Qed.

(** Events are only removed, and findings and relations stay. *)
Definition shrinks (d0 d : db) : Prop :=
  (forall r, In r (events d) -> In r (events d0)) /\ relations d = relations d0 /\ findings d = findings d0.

Lemma evict_shrinks d0 d d' k : shrinks d0 d -> store_keyed d -> evict d = Some (d', k) -> shrinks d0 d'.
Proof.
  intros (He & Hr & Hf) Hk Hev. destruct (evict_spec d d' k Hk Hev) as (_ & _ & _ & _ & He' & _ & _ & _ & Hr' & Hf').
  split; [auto|]. split; congruence.
Qed.

Lemma age_out_events now d r : In r (events (age_out now d)) <-> In r (events d) /\ expired now r = false.
Proof. apply delete_where_In. Qed.

Lemma prune_spec now d :
  store_keyed d ->
  let d' := (prune_db max_bytes now d).1 in
  store_keyed d' /\ bounds now d' /\ kept d d' /\ shrinks d d'
  /\ (size_bytes 0 (age_out now d) <= max_bytes -> forall r, In r (events d') <-> In r (events d) /\ expired now r = false)
  /\ exists m x, events x = events d' /\ detections x = detections d' /\ scans x = scans d'
    /\ (size_bytes m x <= max_bytes \/ evict x = None).
Proof.
  intros Hk. set (P := fun x => bounds now x /\ kept d x /\ shrinks d x).
  destruct (evict_loop_ends P (S (rows_left (age_out now d))) 0 (age_out now d)) as (d' & k & m & Hloop & (Hb & Hkept & Hsh) & Hk' & Hend).
  - intros x x' j (Hb & Hkept & Hsh) Hx Hev. split; [by eapply evict_bounds|]. split; [by eapply evict_kept|by eapply evict_shrinks].
  - split; [by apply age_out_bounds|]. split; [apply age_out_keeps|]. split; [by intros r [? _]%age_out_events|done].
  - by apply age_out_keyed.
  - lia.
  - unfold prune_db, evict_all. rewrite Hloop. cbn [default from_option fst id]. split; [destruct Hk'; split; try done; apply counter_written|].
    split; [done|]. split; [done|]. split; [done|]. split; [|exists m, d'; auto]. intros Hsize r. cbn [evict_loop] in Hloop.
    rewrite (proj2 (Z.leb_le _ _) Hsize) in Hloop. injection Hloop as <- _. apply age_out_events.
Qed.
End retention_props.

(** * Devices and findings in the store ([telemetry.py])

    The inventory of external devices, reconciled with each scan, the list of
    findings and the bounded backfill of findings from the events. The source
    visits the affected devices in the order of a set; here they come in the
    order of the table and of the scan. *)

Definition MAX_DEVICES : nat := 128.

Definition connected_row (r : row) : bool := sql_eq (get "connected" r) (VInt 1).

(** [_device_row(row)]. *)
Definition _device_row (r : row) : dict :=
  let flag k := VBool (truthy (get k r)) in
  dset "connected" (flag "connected") (dset "trusted" (flag "trusted") (dset "reviewed" (flag "reviewed") r)).

Definition DEVICE_UPDATES : list string :=
  ["identity_confidence"; "name"; "device_class"; "last_seen"; "connected"; "trusted"; "state"; "source_quality"; "last_event_id"].

Fixpoint dedup (l : list string) : list string :=
  match l with [] => [] | s :: l => s :: List.filter (fun t => negb (String.eqb s t)) (dedup l) end.

Section devices.
Context `{FloatText} `{Sqlite}.

Definition identity_of (o : dict) : string := _text (get "identity_id" o) 96.

Definition device_row_of (current source_quality : string) (o : dict) (existing : option row) : row :=
  let seen := nonempty (_text (get "observed_at" o) 64) current in
  dlit
    [("identity_id", VStr (identity_of o)); ("identity_confidence", VStr (nonempty (_text (get "identity_confidence" o) 24) "LOW"));
     ("name", VStr (nonempty (_text (get "name" o) 120) "External device")); ("device_class", VStr (nonempty (_text (get "device_class" o) 48) "UNKNOWN"));
     ("first_seen", match existing with Some r => get "first_seen" r | None => VStr seen end); ("last_seen", VStr seen); ("connected", VInt 1);
     ("trusted", VInt (if truthy (get "trusted" o) then 1 else 0)); ("state", VStr (nonempty (_text (get "state" o) 24) "UNKNOWN"));
     ("source_quality", VStr (_text (VStr source_quality) 32)); ("last_event_id", column (get "event_id" o) 96);
     ("reviewed", match existing with Some r => count_of (get "reviewed" r) | None => VInt 0 end)].

Definition observe (current source_quality : string) (v : val) : act db unit :=
  o ← lift (as_dict v);
  let identity := identity_of o in
  if String.eqb identity "" then mret tt
  else
    modify (fun d => with_devices (upsert "identity_id" DEVICE_UPDATES
      (device_row_of current source_quality o (find_row "identity_id" (VStr identity) (devices d))) (devices d)) d).

(** The finding of a device, written again. *)
Definition refresh_finding (now : Z) (identity : string) : act db unit :=
  r ← gets (fun d => find_row "identity_id" (VStr identity) (devices d));
  match r ≫= fun r => device_finding (_device_row r) with
  | Some finding => _ ← _upsert_finding now finding; mret tt
  | None => mret tt
  end.

Definition listed (rows : table) : val := VList (map (fun r => VDict (_device_row r)) rows).

Definition observed_ids (observations : list val) : list string :=
  map (fun v => match v with VDict o => identity_of o | _ => "" end) observations.

Definition synced (now : Z) (observations : list val) (source_quality : string) : act db unit :=
  previous ← gets (fun d => take 129 (select connected_row (devices d)));
  _ ← lift (require (length previous <=? MAX_DEVICES)%nat (TelemetryError "Device reconciliation exceeds the bounded inventory"));
  _ ← modify (fun d => with_devices (update_where connected_row (dset "connected" (VInt 0)) (devices d)) d);
  _ ← each (observe (stamp now) source_quality) (take MAX_DEVICES observations);
  each (refresh_finding now) (dedup (map (fun r => text_val (get "identity_id" r)) previous ++ observed_ids (take MAX_DEVICES observations))).

(** [sync_devices(observations, source_quality=...)]. *)
Definition sync_devices (now : Z) (observations : list val) (source_quality : string) : act db dict :=
  _ ← _connect;
  if negb (String.eqb source_quality "AVAILABLE")
  then mret (dlit [("source_state", VStr source_quality); ("devices", VList []); ("changed", VBool false)])
  else
    _ ← transaction (synced now observations source_quality);
    rows ← gets (fun d => top MAX_DEVICES [("last_seen", true); ("identity_id", true)] (devices d));
    mret (dlit [("source_state", VStr "AVAILABLE"); ("devices", listed rows); ("changed", VBool true)]).

Definition list_devices (since : val) (unknown_only : bool) (limit : Z) : act db dict :=
  _ ← _connect;
  gets (fun d =>
    let rows := select (fun r => (if truthy since then sql_le (VStr (_text since 64)) (get "first_seen" r) else true)
                                 && (if unknown_only then sql_eq (get "trusted" r) (VInt 0) && sql_eq (get "reviewed" r) (VInt 0) else true)) (devices d) in
    dlit [("source_state", VStr "AVAILABLE"); ("devices", listed (top (bounded 128 limit) [("first_seen", true); ("identity_id", true)] rows))]).

Definition set_device_reviewed (now : Z) (identity : string) : act db bool :=
  let id := _text (VStr identity) 96 in
  _ ← _connect;
  transaction
    (n ← gets (fun d => length (select (fun r => sql_eq (get "identity_id" r) (VStr id)) (devices d)));
     _ ← modify (fun d => with_devices (update_where (fun r => sql_eq (get "identity_id" r) (VStr id)) (dset "reviewed" (VInt 1)) (devices d)) d);
     _ ← refresh_finding now id;
     mret (n =? 1)%nat).

(** ** Findings *)

(** [CASE severity WHEN 'CRITICAL' THEN 0 WHEN 'WARNING' THEN 1 ELSE 2 END]. *)
Definition severity_rank (r : row) : Z :=
  if is_str "CRITICAL" (get "severity" r) then 0 else if is_str "WARNING" (get "severity" r) then 1 else 2.

Definition finding_before (a b : row) : bool :=
  match Z.compare (severity_rank a) (severity_rank b) with
  | Lt => true
  | Gt => false
  | Eq => before_eq [("last_seen", true)] a b
  end.

(** [json.loads(value.pop(key))], or [other] when it is no JSON. *)
Definition json_value (key : string) (other : val) (r : row) : val :=
  match get key r with
  | VStr s => match loads s with Ok v => v | Err _ => other end
  | _ => other
  end.

Definition finding_value (r : row) : dict := dset "evidence" (json_value "evidence_json" (VList []) r) (ddel "evidence_json" r).

(** [list_findings]; a reader that may not write opens the same tables. *)
Definition list_findings (unresolved_only : bool) (limit : Z) : act db (list dict) :=
  _ ← _connect;
  gets (fun d =>
    map finding_value (take (bounded 64 limit) (sort_by finding_before
      (select (fun r => if unresolved_only then sql_eq (get "state" r) (VStr "UNRESOLVED") else true) (findings d))))).

(** [_row_value(row)]. *)
Definition JSON_COLUMNS : list (string * string) :=
  [("destination_json", "destination"); ("correlation_json", "correlation"); ("details_json", "details");
   ("quality_json", "quality"); ("native_evidence_json", "native_evidence")].

Definition _row_value (r : row) : dict :=
  fold_left (fun value kt => dset kt.2 (json_value kt.1 (VDict []) value) (ddel kt.1 value)) JSON_COLUMNS r.

(** ** The backfill of findings *)

Definition MIGRATION : string := "finding-event-migration/v1".

(** The saved cursor and whether the backfill is complete. *)
Definition progress_of (saved : option string) : res (string * bool) :=
  match saved with
  | None => Ok ("", false)
  | Some s =>
      match loads s with
      | Ok (VDict [("complete", VBool complete); ("cursor", VStr cursor)]) =>
          if (String.length cursor <=? 96)%nat then Ok (cursor, complete) else Err (TelemetryError "Finding migration state is invalid")
      | _ => Err (TelemetryError "Finding migration state is invalid")
      end
  end.

Definition progress_text (cursor : string) (complete : bool) : string :=
  dumps (VDict (dlit [("cursor", VStr cursor); ("complete", VBool complete)])).

Definition backfill (now : Z) (r : row) : act db unit :=
  match (if sql_le (VStr (stamp now)) (get "expires_at" r) then event_finding (_row_value r) else None) with
  | None => mret tt
  | Some finding =>
      existing ← gets (fun d => find_row "finding_id" (get "finding_id" finding) (findings d));
      if match existing with
         | None => true
         | Some e => is_str "UNRESOLVED" (get "state" e) && sql_lt (get "last_seen" e) (get "last_seen" finding)
         end
      then _ ← _upsert_finding now finding; mret tt
      else mret tt
  end.

(** The next rows in the order of their identifiers. *)
Definition next_rows (cursor : string) (limit : nat) (d : db) : table :=
  top limit [("event_id", false)] (select (fun r => sql_lt (VStr cursor) (get "event_id" r)) (events d)).

Definition backfill_step (now : Z) (limit : nat) : act db (bool * nat) :=
  saved ← gets (fun d => dget MIGRATION (metadata d));
  progress ← lift (progress_of saved);
  let '(cursor, complete) := progress in
  if complete : bool then mret (true, O)
  else
    rows ← gets (next_rows cursor limit);
    _ ← each (backfill now) rows;
    let done := (length rows <? limit)%nat in
    let cursor := match last rows with Some r => text_val (get "event_id" r) | None => cursor end in
    _ ← modify (fun d => with_metadata (put MIGRATION (progress_text cursor done) (metadata d)) d);
    mret (done, length rows).

Definition reconcile_findings (now : Z) (limit : Z) : act db dict :=
  _ ← _connect;
  progress ← transaction (backfill_step now (bounded 64 limit));
  mret (dlit [("complete", VBool progress.1); ("processed", VInt (Z.of_nat progress.2))]).
End devices.
