(* ===== verification/StoreInvariant.v ===== *)
(** * The invariant of the store

    Every operation keeps the keys of the tables: each record stands once under
    its identifier, whatever is recorded, replayed, updated, reconciled or
    pruned, and also when a transaction is rolled back. *)
From S2P Require Import Prelude PyVal PyStr Json PyText PyTime TelemetryValues Sql KeyedTables Findings TelemetryStore TelemetryRetention.

Definition kept_keys (d d' : db) : Prop := store_keyed d -> store_keyed d'.

#[export] Instance kept_keys_preorder : PreOrder kept_keys.
Proof. split; unfold kept_keys; [intros d|intros d d1 d2]; auto. Qed.

(** What is written through one table. *)
Lemma set_metadata m d : readable_counter m -> store_keyed d -> store_keyed (with_metadata m d).
Proof. by intros ? []; split. Qed.
Lemma set_events t d : keyed "event_id" t -> Forall page_key t -> store_keyed d -> store_keyed (with_events t d).
Proof. by intros ? ? []; split. Qed.
Lemma set_relations t d : store_keyed d -> store_keyed (with_relations t d).
Proof. by intros []; split. Qed.
Lemma set_devices t d : keyed "identity_id" t -> store_keyed d -> store_keyed (with_devices t d).
Proof. by intros ? []; split. Qed.
Lemma set_findings t d : keyed "finding_id" t -> store_keyed d -> store_keyed (with_findings t d).
Proof. by intros ? []; split. Qed.
Lemma set_scans t d : keyed "operation_id" t -> store_keyed d -> store_keyed (with_scans t d).
Proof. by intros ? []; split. Qed.
Lemma set_detections t d : keyed "detection_id" t -> store_keyed d -> store_keyed (with_detections t d).
Proof. by intros ? []; split. Qed.

Section invariant.
Context `{FloatText} `{Sqlite} (max_bytes : Z).

Lemma respects_connect : respects kept_keys _connect.
Proof. intros d. unfold after, _connect. by destruct (fault d). Qed.

Lemma respects_transaction {A} (m : act db A) : respects kept_keys m -> respects kept_keys (transaction m).
Proof. intros Hm d Hd. specialize (Hm d Hd). unfold after, transaction in *. by destruct (m d) as [[a|e] d']. Qed.

#[local] Opaque _connect transaction.

Lemma event_row_key now value r : event_row now value = Ok r -> page_key r.
Proof.
  unfold event_row. intros Hr. inv_ok. subst r. unfold page_key. do 2 eexists.
  split; [reflexivity|]. split; [reflexivity|]. unfold _text, clean_val. by rewrite !clean_idemp.
Qed.

Lemma finding_row_key now value existing : is_key (get "finding_id" (finding_row now value existing)) = true.
Proof. done. Qed.

Lemma upsert_finding_keeps now value : respects kept_keys (_upsert_finding now value).
Proof.
  unfold _upsert_finding. effects. apply respects_modify. intros ? ?.
  apply set_findings; [|done]. apply keyed_upsert; [done| |by apply findings_keyed].
  intros Hin. by repeat destruct Hin as [Hin|Hin].
Qed.

#[local] Opaque _upsert_finding.

Lemma record_finding_keeps now value : respects kept_keys (record_finding now value).
Proof. unfold record_finding. effects; apply upsert_finding_keeps. Qed.

Lemma record_relation_keeps id relation : respects kept_keys (record_relation id relation).
Proof. unfold record_relation. effects. apply respects_modify. intros ? ?. by apply set_relations. Qed.

Lemma insert_event_keeps r : page_key r -> respects kept_keys (insert_event r).
Proof.
  intros Hr d Hd. unfold after, insert_event.
  assert (is_key (get "event_id" r) = true) as Hkey by (by destruct Hr as (t & i & _ & -> & _)).
  pose proof (keyed_insert_ignore "event_id" r (events d) Hkey (events_keyed _ Hd)) as Hk.
  pose proof (events_ordered _ Hd) as Ho. unfold insert_ignore in *.
  destruct (existsb _ _); apply set_events; try done. apply Forall_app_2; [done|by constructor].
Qed.

Lemma respects_lift_then {A B} (m : res A) (f : A -> act db B) :
  (forall a, m = Ok a -> respects kept_keys (f a)) -> respects kept_keys (lift m ≫= f).
Proof.
  intros Hf d. unfold after, mbind, act_bind, lift. destruct m as [a|e]; [|by intros Hd]. by apply (Hf a).
Qed.

Lemma record_value_keeps now value : respects kept_keys (_record_value now value).
Proof.
  unfold _record_value. apply respects_lift_then. intros r Hr.
  apply respects_bind; [typeclasses eauto|by eapply insert_event_keeps, event_row_key|intros inserted].
  effects; [apply record_finding_keeps|].
  apply respects_each; [typeclasses eauto|]. intros x. apply record_relation_keeps.
Qed.

Lemma prune_keeps_keys now : respects kept_keys (prune max_bytes now).
Proof.
  unfold prune. apply respects_bind; [typeclasses eauto|apply respects_connect|intros _].
  intros d Hd. unfold after, pruned. pose proof (prune_spec max_bytes now d Hd) as (Hk & _).
  by destruct (prune_db max_bytes now d) as [d' [r e]].
Qed.

#[local] Opaque prune.

Lemma record_many_keeps now values : respects kept_keys (record_many max_bytes now values).
Proof.
  unfold record_many. effects; try apply respects_connect; try apply prune_keeps_keys.
  apply respects_transaction. apply respects_each; [typeclasses eauto|]. apply record_value_keeps.
Qed.

Lemma get_file_scan_keeps id : respects kept_keys (get_file_scan id).
Proof. unfold get_file_scan. effects. apply respects_connect. Qed.

#[local] Opaque get_file_scan.

Lemma create_file_scan_keeps now value : respects kept_keys (create_file_scan now value).
Proof.
  unfold create_file_scan. effects; try apply respects_connect; try apply get_file_scan_keeps.
  apply respects_transaction. intros d Hd. unfold after. destruct (existsb _ _) eqn:E; [done|]. cbn [snd].
  apply set_scans; [|done]. pose proof (keyed_insert_ignore "operation_id" (scan_row now value) (scans d) eq_refl (scans_keyed _ Hd)) as Hk.
  unfold insert_ignore in Hk. by rewrite E in Hk.
Qed.

Lemma get_dupdate_other k r items : ~ In k (map fst items) -> get k (dupdate r items) = get k r.
Proof.
  intros Hk. unfold get, getd, dupdate.
  enough (forall d, dget k (fold_left (fun d kv => dset kv.1 kv.2 d) items d) = dget k d) as ->; [done|].
  induction items as [|[c v] items IH]; intros d; [done|]. cbn [map fold_left fst snd] in *.
  rewrite IH by (intros ?; apply Hk; by right). apply dget_dset_ne. intros ->. apply Hk. by left.
Qed.

Lemma stored_keys changes : map fst (map stored_change changes) = map fst changes.
Proof. rewrite map_map. apply map_ext. intros [k v]. unfold stored_change. by destruct (String.eqb _ _). Qed.

Lemma update_file_scan_keeps id changes : respects kept_keys (update_file_scan id changes).
Proof.
  unfold update_file_scan. effects; try apply respects_connect; try apply get_file_scan_keeps.
  apply respects_transaction, respects_modify. intros d Hd. apply set_scans; [|done].
  apply keyed_update; [|by apply scans_keyed]. intros r. apply get_dupdate_other. rewrite stored_keys.
  intros (x & Hx & [_ Hin]%filter_In)%in_map_iff. rewrite Hx in Hin. by vm_compute in Hin.
Qed.

Lemma get_file_detection_keeps id : respects kept_keys (get_file_detection id).
Proof. unfold get_file_detection. effects. apply respects_connect. Qed.

#[local] Opaque get_file_detection.

Lemma upsert_file_detection_keeps now value : respects kept_keys (upsert_file_detection now value).
Proof.
  unfold upsert_file_detection. effects; try apply respects_connect; try apply get_file_detection_keeps.
  apply respects_transaction, respects_modify. intros d Hd. apply set_detections; [|done].
  apply keyed_upsert; [done| |by apply detections_keyed]. intros Hin. by repeat destruct Hin as [Hin|Hin].
Qed.

Lemma record_file_action_keeps now id action outcome detail : respects kept_keys (record_file_action now id action outcome detail).
Proof.
  unfold record_file_action. effects; try apply respects_connect.
  apply respects_transaction, respects_modify. intros d Hd. destruct Hd as [He Hp Hv Hf Hs Hdt Ha Hn].
  split; cbn [events devices findings scans detections actions next_action with_actions]; try done.
  - apply keyed_snoc; [done| |done]. intros r Hr. rewrite Forall_forall in Hn.
    destruct (Hn r) as (n & -> & Hlt); [by apply list_elem_of_In|].
    change (get "action_id" (action_row now (next_action d) id action outcome detail)) with (VInt (next_action d)).
    intros [= ?]. lia.
  - apply Forall_app_2; [|constructor; [|done]].
    + eapply Forall_impl; [exact Hn|]. intros r (n & ? & ?). exists n. split; [done|lia].
    + exists (next_action d). split; [done|lia].
Qed.

Lemma observe_keeps current quality v : respects kept_keys (observe current quality v).
Proof.
  unfold observe. effects. apply respects_modify. intros ? ?. apply set_devices; [|done].
  apply keyed_upsert; [done| |by apply devices_keyed]. intros Hin. by repeat destruct Hin as [Hin|Hin].
Qed.

Lemma refresh_finding_keeps now identity : respects kept_keys (refresh_finding now identity).
Proof. unfold refresh_finding. effects. apply upsert_finding_keeps. Qed.

#[local] Opaque refresh_finding.

Lemma sync_devices_keeps now observations quality : respects kept_keys (sync_devices now observations quality).
Proof.
  unfold sync_devices. effects; try apply respects_connect. apply respects_transaction. unfold synced. effects.
  - apply respects_modify. intros d Hd. apply set_devices; [|done]. apply keyed_update; [|by apply devices_keyed].
    intros r. by apply get_dset_ne.
  - apply respects_each; [typeclasses eauto|]. apply observe_keeps.
  - apply respects_each; [typeclasses eauto|]. apply refresh_finding_keeps.
Qed.

Lemma set_device_reviewed_keeps now identity : respects kept_keys (set_device_reviewed now identity).
Proof.
  unfold set_device_reviewed. effects; try apply respects_connect. apply respects_transaction. effects.
  - apply respects_modify. intros d Hd. apply set_devices; [|done]. apply keyed_update; [|by apply devices_keyed].
    intros r. by apply get_dset_ne.
  - apply refresh_finding_keeps.
Qed.

Lemma reconcile_findings_keeps now limit : respects kept_keys (reconcile_findings now limit).
Proof.
  unfold reconcile_findings. effects; try apply respects_connect. apply respects_transaction. unfold backfill_step. effects.
  - apply respects_each; [typeclasses eauto|]. intros r. unfold backfill. effects; apply upsert_finding_keeps.
  - apply respects_modify. intros d Hd. apply set_metadata; [|done]. apply counter_kept; [done|apply Hd].
Qed.

(** ** The operations of the store *)

Inductive store_step : db -> db -> Prop :=
| step_record now values d : store_step d (after (record_many max_bytes now values) d)
| step_prune now d : store_step d (after (prune max_bytes now) d)
| step_finding now value d : store_step d (after (upsert_finding now value) d)
| step_reconcile now limit d : store_step d (after (reconcile_findings now limit) d)
| step_create_scan now value d : store_step d (after (create_file_scan now value) d)
| step_update_scan id changes d : store_step d (after (update_file_scan id changes) d)
| step_detection now value d : store_step d (after (upsert_file_detection now value) d)
| step_action now id action outcome detail d : store_step d (after (record_file_action now id action outcome detail) d)
| step_sync now observations quality d : store_step d (after (sync_devices now observations quality) d)
| step_reviewed now identity d : store_step d (after (set_device_reviewed now identity) d)
(** The storage becomes unavailable or available. *)
| step_fault f d : store_step d (Db (metadata d) (events d) (relations d) (devices d) (findings d) (scans d) (detections d) (actions d) (receipts d) (next_action d) f).

Lemma store_step_keeps d d' : store_step d d' -> store_keyed d -> store_keyed d'.
Proof.
  intros Hstep. destruct Hstep.
  - apply record_many_keeps.
  - apply prune_keeps_keys.
  - unfold upsert_finding. revert d. change (respects kept_keys (_ ← _connect; transaction (_upsert_finding now value))).
    apply respects_bind; [typeclasses eauto|apply respects_connect|intros _; apply respects_transaction, upsert_finding_keeps].
  - apply reconcile_findings_keeps.
  - apply create_file_scan_keeps.
  - apply update_file_scan_keeps.
  - apply upsert_file_detection_keeps.
  - apply record_file_action_keeps.
  - apply sync_devices_keeps.
  - apply set_device_reviewed_keeps.
  - by intros []; split.
Qed.

Lemma reachable_keyed d : rtc store_step empty_db d -> store_keyed d.
Proof.
  intros Hr. remember empty_db as d0 eqn:E. pose proof empty_keyed as Hk. rewrite <- E in Hk. clear E.
  induction Hr as [|d0 d1 d2 Hs _ IH]; [done|]. by eapply IH, store_step_keeps.
Qed.
End invariant.

(** * Replay and reconciliation

    What recording an event leaves known, so that recording it again changes
    nothing, and what a scan of the devices leaves connected. *)

(** Rows are only added. *)
Definition grows (d d' : db) : Prop :=
  (forall r, In r (events d) -> In r (events d')) /\ (forall r, In r (relations d) -> In r (relations d')).

#[export] Instance grows_preorder : PreOrder grows.
Proof. split; [by intros d; split|]. intros d d1 d2 [H1 H2] [H3 H4]. split; auto. Qed.

Lemma existsb_same_key_mono pk r t t' : (forall x, In x t -> In x t') -> existsb (same_key pk r) t = true -> existsb (same_key pk r) t' = true.
Proof. rewrite !existsb_In. intros Hsub (x & Hx & Hk). eauto. Qed.

Lemma existsb_pointwise {A} (f g : A -> bool) l : (forall x, f x = g x) -> existsb f l = existsb g l.
Proof. intros Hfg. induction l as [|x l IH]; [done|]. cbn. by rewrite Hfg, IH. Qed.

Section replay.
Context `{FloatText} `{Sqlite}.

Definition known_event (value : dict) (d : db) : Prop :=
  forall now r, event_row now value = Ok r -> existsb (same_key ["event_id"] r) (events d) = true.

Definition RELATION_KEY : list string := ["event_id"; "related_event_id"; "relation"].

Definition known_relation (id v : val) (d : db) : Prop :=
  match v with
  | VDict r => truthy (get "event_id" r) = true -> existsb (same_key RELATION_KEY (relation_row id r)) (relations d) = true
  | _ => True
  end.

(** The keys of the row do not depend on the moment. *)
Lemma event_row_moment now now' value r :
  event_row now value = Ok r -> exists r', event_row now' value = Ok r' /\ get "event_id" r' = get "event_id" r.
Proof. unfold event_row. intros Hr. inv_ok. subst r. repeat match goal with Hx : _ = Ok _ |- _ => rewrite Hx; cbn [mbind res_bind] end. eexists. split; reflexivity. Qed.

Lemma same_key_event now now' value r r' x :
  event_row now value = Ok r -> event_row now' value = Ok r' -> same_key ["event_id"] r x = same_key ["event_id"] r' x.
Proof.
  intros Hr Hr'. destruct (event_row_moment now now' value r Hr) as (r2 & H2 & Heq). rewrite Hr' in H2. injection H2 as <-.
  by rewrite !same_key_one, Heq.
Qed.

Lemma upsert_finding_grows now value : respects grows (_upsert_finding now value).
Proof. unfold _upsert_finding. effects. apply respects_modify. by intros d. Qed.

#[local] Opaque _upsert_finding.

Lemma record_finding_grows now value : respects grows (record_finding now value).
Proof. unfold record_finding. effects; apply upsert_finding_grows. Qed.

Lemma insert_ignore_grows pk r t x : In x t -> In x (insert_ignore pk r t).1.
Proof. unfold insert_ignore. intros Hx. destruct (existsb _ _); [done|]. apply in_or_app. by left. Qed.

Lemma insert_event_grows r : respects grows (insert_event r).
Proof.
  intros d. unfold after, insert_event. pose proof (insert_ignore_grows ["event_id"] r (events d)) as Hg.
  destruct (insert_ignore _ r (events d)) as [t b]. by split.
Qed.

Lemma record_relation_grows id v : respects grows (record_relation id v).
Proof. unfold record_relation. effects. apply respects_modify. intros ?. split; [done|]. apply insert_ignore_grows. Qed.

Lemma relations_grow id items : respects grows (each (record_relation id) items).
Proof. apply respects_each; [typeclasses eauto|]. apply record_relation_grows. Qed.

Lemma sql_eq_refl_text s : sql_eq (VStr s) (VStr s) = true.
Proof. by apply sql_eq_key. Qed.

Lemma inserted_known pk r t : same_key pk r r = true -> existsb (same_key pk r) (insert_ignore pk r t).1 = true.
Proof.
  intros Hr. unfold insert_ignore. destruct (existsb (same_key pk r) t) eqn:E; [done|]. cbn [fst].
  apply existsb_In. exists r. split; [apply in_or_app; right; by left|done].
Qed.

Lemma relation_row_key id r : same_key RELATION_KEY (relation_row id r) (relation_row id r) = true.
Proof.
  unfold same_key, RELATION_KEY, forallb.
  change (get "event_id" (relation_row id r)) with (VStr (_text id 96)).
  change (get "related_event_id" (relation_row id r)) with (VStr (_text (get "event_id" r) 96)).
  change (get "relation" (relation_row id r)) with (VStr (_text (get "relation" r) 48)). by rewrite !sql_eq_refl_text.
Qed.

Lemma known_relation_grows id v d d' : grows d d' -> known_relation id v d -> known_relation id v d'.
Proof. intros [_ Hg]. destruct v; try done. unfold known_relation. intros Hk Ht. eapply existsb_same_key_mono; eauto. Qed.

Lemma known_event_grows value d d' : grows d d' -> known_event value d -> known_event value d'.
Proof. intros [Hg _] Hk now r Hr. eapply existsb_same_key_mono; eauto. Qed.

Lemma record_relation_known id v d : exists d', record_relation id v d = (Ok tt, d') /\ known_relation id v d'.
Proof.
  destruct v as [| | | | | |r]; try by eexists. unfold record_relation. destruct (truthy (get "event_id" r)) eqn:E.
  - eexists. split; [reflexivity|]. intros _. apply inserted_known, relation_row_key.
  - exists d. split; [done|]. intros Ht. congruence.
Qed.

(** Every relation of a list is known after it is recorded. *)
Lemma relations_known id items d :
  exists d', each (record_relation id) items d = (Ok tt, d') /\ Forall (fun v => known_relation id v d') items.
Proof.
  revert d; induction items as [|v items IH]; intros d; [by exists d|]. cbn [each].
  destruct (record_relation_known id v d) as (d1 & H1 & Hk). destruct (IH d1) as (d2 & H2 & Hall).
  exists d2. split; [apply act_bind_Ok; eauto|]. constructor; [|done].
  eapply known_relation_grows; [|exact Hk]. pose proof (relations_grow id items d1) as Hg. unfold after in Hg. by rewrite H2 in Hg.
Qed.

Lemma known_relation_again id v d : known_relation id v d -> record_relation id v d = (Ok tt, d).
Proof.
  destruct v as [| | | | | |r]; try done. unfold known_relation, record_relation.
  destruct (truthy (get "event_id" r)); [|done]. intros Hk. unfold modify, RELATION_KEY in *. rewrite (insert_ignore_known _ _ _ (Hk eq_refl)). by destruct d.
Qed.

(** What is known of an event: its row and its relations. *)
Definition known (value : dict) (d : db) : Prop :=
  exists now r items id, event_row now value = Ok r /\ related_items (getd "relations" (VList []) value) = Ok items
    /\ item "event_id" value = Ok id /\ is_Ok (item "expires_at" value)
    /\ known_event value d /\ Forall (fun v => known_relation id v d) items.

Lemma known_grows value d d' : grows d d' -> known value d -> known value d'.
Proof.
  intros Hg (now & r & items & id & Hr & Hi & Hid & He & Hk & Hall). exists now, r, items, id.
  repeat split; try done; [by eapply known_event_grows|]. eapply Forall_impl; [exact Hall|]. intros v. by apply known_relation_grows.
Qed.

Lemma recorded_known now value d d' : _record_value now value d = (Ok tt, d') -> known value d' /\ grows d d'.
Proof.
  unfold _record_value. intros H1.
  apply act_bind_Ok in H1 as (r & s1 & Hr & H1). injection Hr as Hr <-.
  apply act_bind_Ok in H1 as (inserted & s2 & Hins & H1).
  apply act_bind_Ok in H1 as (expires & s3 & Hexp & H1). injection Hexp as Hexp <-.
  apply act_bind_Ok in H1 as (current & s4 & Hcur & H1). injection Hcur as Hcur <-.
  apply act_bind_Ok in H1 as ([] & s5 & Hfind & H1).
  apply act_bind_Ok in H1 as (items & s6 & Hitems & H1). injection Hitems as Hitems <-.
  apply act_bind_Ok in H1 as (id & s7 & Hid & H1). injection Hid as Hid <-.
  assert (grows d s2) as G1 by (pose proof (insert_event_grows r d) as G; unfold after in G; by rewrite Hins in G).
  assert (grows s2 s5) as G2.
  { destruct current; [|by injection Hfind as <-]. pose proof (record_finding_grows now value s2) as G. unfold after in G. by rewrite Hfind in G. }
  assert (grows s5 d') as G3 by (pose proof (relations_grow id items s5) as G; unfold after in G; by rewrite H1 in G).
  destruct (relations_known id items s5) as (d2 & Hd2 & Hall). rewrite H1 in Hd2. injection Hd2 as <-.
  split; [|by do 2 (etransitivity; [eassumption|])]. exists now, r, items, id. repeat split; try done; [by eexists|].
  apply (known_event_grows value s2); [by etransitivity|]. intros now' r' Hr'.
  unfold insert_event in Hins. destruct (insert_ignore ["event_id"] r (events d)) as [t b] eqn:E. injection Hins as <- <-.
  cbn [events with_events]. assert (same_key ["event_id"] r r = true) as Hself.
  { unfold event_row in Hr. inv_ok. subst r. rewrite same_key_one. apply sql_eq_refl_text. }
  pose proof (inserted_known ["event_id"] r (events d) Hself) as Hin. rewrite E in Hin. cbn [fst] in Hin.
  etransitivity; [|exact Hin]. apply existsb_pointwise. intros x. by eapply same_key_event.
Qed.

Lemma known_again now value d : known value d -> _record_value now value d = (Ok tt, d).
Proof.
  intros (now0 & r & items & id & Hr & Hi & Hid & (e & He) & Hk & Hall).
  destruct (event_row_moment now0 now value r Hr) as (r' & Hr' & _). unfold _record_value.
  apply act_bind_Ok. exists r', d. split; [unfold lift; by rewrite Hr'|].
  apply act_bind_Ok. exists false, d. split.
  { unfold insert_event. rewrite (insert_ignore_known _ _ _ (Hk now r' Hr')). by destruct d. }
  rewrite He, Hi, Hid. change (each (record_relation id) items d = (Ok tt, d)).
  clear Hi. induction Hall as [|v items Hv _ IH]; [done|]. cbn [each]. apply act_bind_Ok. exists tt, d.
  split; [by apply known_relation_again|exact IH].
Qed.

(** Events recorded once are known: recording them again changes nothing. *)
Lemma replay_nothing now now' values d d' :
  each (_record_value now) values d = (Ok tt, d') -> each (_record_value now') values d' = (Ok tt, d').
Proof.
  intros H1. assert (Forall (fun v => known v d') values /\ grows d d') as [Hall _].
  { revert d H1. induction values as [|v values IH]; intros d H1; cbn [each] in H1; [by injection H1 as <-|].
    apply act_bind_Ok in H1 as ([] & d1 & Hv & H1). apply recorded_known in Hv as [Hk Hg].
    destruct (IH d1 H1) as [Hall Hg']. split; [constructor; [by eapply known_grows|done]|by etransitivity]. }
  clear H1. induction Hall as [|v values Hv _ IH]; [done|]. cbn [each]. apply act_bind_Ok. exists tt, d'.
  split; [by apply known_again|done].
Qed.
End replay.

(** * What a scan of the devices leaves

    After a synchronisation exactly the observed devices are connected, and a
    device that was known keeps when it was first seen and whether it was
    reviewed. *)

Section devices_props.
Context `{FloatText} `{Sqlite}.

(** The devices [t] after the identities [seen] were observed, from [t0]. *)
Record observed (t0 : table) (seen : list string) (t : table) : Prop := {
  obs_keyed : keyed "identity_id" t;
  obs_connected : forall r, In r t -> connected_row r = true <-> exists i, In i seen /\ get "identity_id" r = VStr i;
  obs_present : forall i, In i seen -> exists r, In r t /\ get "identity_id" r = VStr i;
  obs_kept : forall r, In r t0 -> exists r', In r' t /\ get "identity_id" r' = get "identity_id" r
    /\ get "first_seen" r' = get "first_seen" r /\ get "reviewed" r' = get "reviewed" r }.

(** Before anything is observed nothing is connected. *)
Lemma observed_none t : keyed "identity_id" t -> observed t [] (update_where connected_row (dset "connected" (VInt 0)) t).
Proof.
  intros Ht. split.
  - apply keyed_update; [|done]. intros r. by apply get_dset_ne.
  - intros r (x & <- & _)%in_map_iff. split; [|by intros (i & [] & _)].
    destruct (connected_row x) eqn:E; [|by rewrite E]. unfold connected_row. by rewrite get_dset_eq.
  - done.
  - intros r Hr. eexists. split; [apply in_map_iff; eauto|]. destruct (connected_row r); [|done].
    by rewrite !get_dset_ne.
Qed.

Lemma observe_step t0 seen t r i :
  observed t0 seen t -> get "identity_id" r = VStr i -> connected_row r = true ->
  observed t0 (i :: seen) (upsert "identity_id" DEVICE_UPDATES r t).
Proof.
  intros [Hk Hc Hp Hkept] Hid Hconn.
  assert (~ In "identity_id"%string DEVICE_UPDATES) as Hout by (intros Hin; by repeat destruct Hin as [Hin|Hin]).
  assert (is_key (get "identity_id" r) = true) as Hkey by by rewrite Hid.
  assert (forall old, get "identity_id" old = get "identity_id" r -> connected_row (excluded DEVICE_UPDATES r old) = true) as Hex.
  { intros old _. unfold connected_row. rewrite get_excluded_in by (vm_compute; tauto). exact Hconn. }
  split.
  - by apply keyed_upsert.
  - intros x Hx. apply upsert_keyed_In in Hx; [|done..]. destruct Hx as [[Hx Hne]|[[-> Hnew]|(old & Hold & Heq & ->)]].
    + rewrite (Hc x Hx). split; intros (j & Hj & Hjx); exists j; [split; [by right|done]|].
      destruct Hj as [<-|Hj]; [|done]. rewrite Hid in Hne. congruence.
    + rewrite Hconn. split; [|done]. intros _. exists i. auto with code.
    + rewrite Hex by done. split; [|done]. intros _. exists i. split; [by left|]. rewrite get_excluded by done. congruence.
  - intros j [<-|Hj].
    + destruct (existsb (fun x => sql_eq (get "identity_id" x) (get "identity_id" r)) t) eqn:E.
      * apply existsb_In in E as (old & Hold & Heq). apply sql_eq_key in Heq; [|by eapply keyed_key|done].
        exists (excluded DEVICE_UPDATES r old). split; [|by rewrite get_excluded, Heq].
        apply upsert_keyed_In; [done..|]. right. right. eauto.
      * exists r. split; [|done]. apply upsert_keyed_In; [done..|]. right. left. split; [done|].
        intros old Hold Heq. rewrite existsb_not_In in E. specialize (E old Hold). apply not_true_iff_false in E. apply E.
        apply sql_eq_key; [by eapply keyed_key|done..].
    + destruct (Hp j Hj) as (x & Hx & Hxj).
      destruct (key_dec _ t x r Hk Hx Hkey) as [Heq|Hne].
      * exists (excluded DEVICE_UPDATES r x). split; [|by rewrite get_excluded]. apply upsert_keyed_In; [done..|]. right. right. eauto.
      * exists x. split; [|done]. apply upsert_keyed_In; [done..|]. by left.
  - intros x Hx. destruct (Hkept x Hx) as (x' & Hx' & Hi & Hf & Hr).
    destruct (key_dec _ t x' r Hk Hx' Hkey) as [Heq|Hne].
    + exists (excluded DEVICE_UPDATES r x'). rewrite !get_excluded by (intros Hin; by repeat destruct Hin as [Hin|Hin]).
      split; [|done]. apply upsert_keyed_In; [done..|]. right. right. eauto.
    + exists x'. split; [|done]. apply upsert_keyed_In; [done..|]. by left.
Qed.

(** The identities of the observations that have one. *)
Definition identities (observations : list val) : list string :=
  List.filter (fun i => negb (String.eqb i "")) (observed_ids observations).

Lemma observe_all current quality l : forall t0 seen d d',
  observed t0 seen (devices d) -> each (observe current quality) l d = (Ok tt, d') ->
  observed t0 (rev (identities l) ++ seen) (devices d').
Proof.
  induction l as [|v l IH]; intros t0 seen d d' Hobs Hrun; cbn [each] in Hrun; [by injection Hrun as <-|].
  apply act_bind_Ok in Hrun as ([] & d1 & Hv & Hrun).
  unfold observe in Hv. apply act_bind_Ok in Hv as (o & s1 & Ho & Hv). injection Ho as Ho <-.
  destruct v as [| | | | | |o']; try done. injection Ho as ->.
  assert (identities (VDict o :: l) = (if String.eqb (identity_of o) "" then [] else [identity_of o]) ++ identities l) as ->.
  { unfold identities. cbn [observed_ids map List.filter]. by destruct (String.eqb (identity_of o) ""). }
  destruct (String.eqb_spec (identity_of o) "") as [E|E].
  - injection Hv as <-. by eapply IH.
  - injection Hv as <-. rewrite rev_app_distr. cbn [rev app]. rewrite <- app_assoc. cbn [app].
    eapply IH; [|exact Hrun]. cbn [devices with_devices]. by apply observe_step.
Qed.

Definition same_devices (d d' : db) : Prop := devices d = devices d'.

#[local] Instance same_devices_preorder : PreOrder same_devices.
Proof. split; [by intros d|]. intros d d1 d2 H1 H2. unfold same_devices in *. congruence. Qed.

Lemma refresh_finding_devices now i : respects same_devices (refresh_finding now i).
Proof. unfold refresh_finding, _upsert_finding. effects; try (apply respects_modify; by intros). Qed.

Lemma synced_devices now observations quality d d' :
  keyed "identity_id" (devices d) -> synced now observations quality d = (Ok tt, d') ->
  observed (devices d) (rev (identities (take MAX_DEVICES observations))) (devices d').
Proof.
  intros Hk. unfold synced. intros Hrun.
  apply act_bind_Ok in Hrun as (previous & s0 & Hp & Hrun). injection Hp as Hp <-.
  apply act_bind_Ok in Hrun as ([] & s1 & Hreq & Hrun). injection Hreq as _ <-.
  apply act_bind_Ok in Hrun as ([] & s2 & Hmod & Hrun). injection Hmod as <-.
  apply act_bind_Ok in Hrun as ([] & s3 & Hobs & Hrun).
  pose proof (observe_all _ _ _ (devices d) [] _ _ (observed_none (devices d) Hk : observed _ _ (devices (with_devices _ d))) Hobs) as Hall.
  rewrite app_nil_r in Hall.
  assert (same_devices s3 d') as <-; [|exact Hall].
  match type of Hrun with each _ ?l _ = _ =>
    pose proof (respects_each same_devices (refresh_finding now) l (refresh_finding_devices now) s3) as Heach end.
  unfold after in Heach. by rewrite Hrun in Heach.
Qed.
End devices_props.
