(* ===== verification/Base64.v ===== *)
(** * Base64

    [base64.urlsafe_b64encode] and [base64.urlsafe_b64decode] on texts of bytes.
    The decoder is that of [binascii]: it skips characters outside the alphabet,
    stops after the padding of a quad, and refuses an incomplete quad. *)
From S2P Require Import Prelude PyVal PyStr.

Definition byte_char (n : Z) : ascii := ascii_of_N (Z.to_N n).

Definition sextet_char (n : Z) : ascii :=
  byte_char (if n <? 26 then 65 + n else if n <? 52 then 71 + n else if n <? 62 then n - 4 else if n =? 62 then 45 else 95).

(** The characters of both alphabets: [-] and [_] are translated before. *)
Definition sextet_value (c : ascii) : option Z :=
  let n := ord c in
  if (65 <=? n) && (n <=? 90) then Some (n - 65)
  else if (97 <=? n) && (n <=? 122) then Some (n - 71)
  else if (48 <=? n) && (n <=? 57) then Some (n + 4)
  else if (n =? 43) || (n =? 45) then Some 62
  else if (n =? 47) || (n =? 95) then Some 63
  else None.

Fixpoint urlsafe_b64encode (s : string) : string :=
  let sextet n := sextet_char (Z.land n 63) in
  match s with
  | "" => ""
  | String a "" => String (sextet (Z.shiftr (ord a) 2)) (String (sextet (Z.shiftl (ord a) 4)) "==")
  | String a (String b "") =>
      String (sextet (Z.shiftr (ord a) 2))
        (String (sextet (Z.lor (Z.shiftl (ord a) 4) (Z.shiftr (ord b) 4))) (String (sextet (Z.shiftl (ord b) 2)) "="))
  | String a (String b (String c r)) =>
      String (sextet (Z.shiftr (ord a) 2))
        (String (sextet (Z.lor (Z.shiftl (ord a) 4) (Z.shiftr (ord b) 4)))
          (String (sextet (Z.lor (Z.shiftl (ord b) 2) (Z.shiftr (ord c) 6))) (String (sextet (ord c)) (urlsafe_b64encode r))))
  end.

Definition incorrect_padding : exn := ValueError "Incorrect padding".

(** [quad] is the position in the quad, [left] the bits read of the next byte. *)
Fixpoint a2b (quad left pads : Z) (s : string) : res string :=
  match s with
  | "" => if quad =? 0 then Ok "" else Err incorrect_padding
  | String c r =>
      if Ascii.eqb c "="
      then if (2 <=? quad) && (4 <=? quad + pads + 1) then Ok ""
           else a2b quad left (if 2 <=? quad then pads + 1 else pads) r
      else match sextet_value c with
           | None => a2b quad left pads r
           | Some v =>
               if quad =? 0 then a2b 1 v 0 r
               else if quad =? 1 then t ← a2b 2 (Z.land v 15) 0 r; Ok (String (byte_char (Z.lor (Z.shiftl left 2) (Z.shiftr v 4))) t)
               else if quad =? 2 then t ← a2b 3 (Z.land v 3) 0 r; Ok (String (byte_char (Z.lor (Z.shiftl left 4) (Z.shiftr v 2))) t)
               else t ← a2b 0 0 0 r; Ok (String (byte_char (Z.lor (Z.shiftl left 6) v)) t)
           end
  end.

Definition urlsafe_b64decode (s : string) : res string := a2b 0 0 0 s.

Example base64_text :
  (urlsafe_b64encode "a>b?c~", urlsafe_b64decode "YT5iP2N-", urlsafe_b64decode "YQ==x", urlsafe_b64decode "YQ")
  = ("YT5iP2N-"%string, Ok "a>b?c~"%string, Ok "a"%string, Err incorrect_padding).
Proof. reflexivity. Qed.

(** ** The round trip *)

Lemma ord_range c : 0 <= ord c < 256.
Proof. destruct c as [[] [] [] [] [] [] [] []]; vm_compute; split; congruence. Qed.

Lemma byte_char_ord c : byte_char (ord c) = c.
Proof. unfold byte_char, ord. by rewrite N2Z.id, ascii_N_embedding. Qed.

Definition sextets : list Z := map Z.of_nat (seq 0 64).

Lemma in_sextets n : 0 <= n < 64 -> In n sextets.
Proof. intros Hn. apply in_map_iff. exists (Z.to_nat n). rewrite in_seq. lia. Qed.

Lemma land_63 n : 0 <= Z.land n 63 < 64.
Proof. change 63 with (Z.ones 6). rewrite Z.land_ones by lia. by apply Z.mod_pos_bound. Qed.

Lemma sextet_round n : 0 <= n < 64 -> sextet_value (sextet_char n) = Some n /\ Ascii.eqb (sextet_char n) "=" = false.
Proof.
  intros Hn%in_sextets.
  assert (forallb (fun n => match sextet_value (sextet_char n) with Some m => m =? n | None => false end
    && negb (Ascii.eqb (sextet_char n) "=")) sextets = true) as Hall by (vm_compute; reflexivity).
  rewrite forallb_forall in Hall. specialize (Hall n Hn). apply andb_true_iff in Hall as [H1 H2%negb_true_iff].
  destruct (sextet_value (sextet_char n)); [|done]. by apply Z.eqb_eq in H1 as ->.
Qed.

(** A sextet read at each position of a quad. *)
Lemma a2b_sextet quad left pads n r :
  a2b quad left pads (String (sextet_char (Z.land n 63)) r)
  = let v := Z.land n 63 in
    if quad =? 0 then a2b 1 v 0 r
    else if quad =? 1 then t ← a2b 2 (Z.land v 15) 0 r; Ok (String (byte_char (Z.lor (Z.shiftl left 2) (Z.shiftr v 4))) t)
    else if quad =? 2 then t ← a2b 3 (Z.land v 3) 0 r; Ok (String (byte_char (Z.lor (Z.shiftl left 4) (Z.shiftr v 2))) t)
    else t ← a2b 0 0 0 r; Ok (String (byte_char (Z.lor (Z.shiftl left 6) v)) t).
Proof. destruct (sextet_round _ (land_63 n)) as [Hv He]. cbn [a2b]. by rewrite He, Hv. Qed.

Lemma ord_high c i : 8 <= i -> Z.testbit (ord c) i = false.
Proof.
  intros Hi. pose proof (ord_range c). destruct (Z.eq_dec (ord c) 0) as [->|Hn]; [apply Z.bits_0|].
  apply Z.bits_above_log2; [lia|]. assert (Z.log2 (ord c) < 8) by (apply Z.log2_lt_pow2; lia). lia.
Qed.

Lemma testbit_63 i : 0 <= i -> Z.testbit 63 i = (i <? 6).
Proof. intros Hi. change 63 with (Z.ones 6). by apply Z.testbit_ones_nonneg. Qed.
Lemma testbit_15 i : 0 <= i -> Z.testbit 15 i = (i <? 4).
Proof. intros Hi. change 15 with (Z.ones 4). by apply Z.testbit_ones_nonneg. Qed.
Lemma testbit_3 i : 0 <= i -> Z.testbit 3 i = (i <? 2).
Proof. intros Hi. change 3 with (Z.ones 2). by apply Z.testbit_ones_nonneg. Qed.

Ltac simp_bits :=
  repeat first
    [ rewrite Z.lor_spec | rewrite Z.land_spec | rewrite Z.shiftl_spec by lia | rewrite Z.shiftr_spec by lia
    | rewrite testbit_63 by lia | rewrite testbit_15 by lia | rewrite testbit_3 by lia
    | match goal with
      | |- context [Z.testbit ?x ?i] => rewrite (Z.testbit_neg_r x i) by lia
      | |- context [Z.testbit (ord ?c) ?i] => rewrite (ord_high c i) by lia
      end ].

(** The index of a bit, and a bound on it, as numerals. *)
Ltac numerals :=
  repeat match goal with
  | |- context [Z.testbit ?x ?k] =>
      lazymatch k with Z0 => fail | Zpos _ => fail | Zneg _ => fail | _ => let n := eval vm_compute in k in change (Z.testbit x k) with (Z.testbit x n) end
  | |- context [?a <? ?b] => let n := eval vm_compute in (a <? b) in change (a <? b) with n
  end.

(** Compares two bytes bit by bit. *)
Ltac byte_bits :=
  apply Z.bits_inj'; intros i Hi; destruct (Z.le_gt_cases 8 i);
  [simp_bits; repeat match goal with |- context [?a <? ?b] => rewrite (proj2 (Z.ltb_ge a b)) by lia end;
   rewrite ?andb_false_r, ?andb_false_l; try reflexivity
  |assert (i = 0 \/ i = 1 \/ i = 2 \/ i = 3 \/ i = 4 \/ i = 5 \/ i = 6 \/ i = 7) as Hcases by lia;
   repeat destruct Hcases as [Hcases|Hcases]; subst i; simp_bits; numerals; simp_bits;
   rewrite ?andb_true_r, ?andb_false_r, ?orb_false_r; cbn [orb andb]; try reflexivity].

Lemma high_byte a b :
  Z.lor (Z.shiftl (Z.land (Z.shiftr (ord a) 2) 63) 2) (Z.shiftr (Z.land (Z.lor (Z.shiftl (ord a) 4) (Z.shiftr (ord b) 4)) 63) 4) = ord a.
Proof. byte_bits. Qed.

Lemma middle_byte a b c :
  Z.lor (Z.shiftl (Z.land (Z.land (Z.lor (Z.shiftl (ord a) 4) (Z.shiftr (ord b) 4)) 63) 15) 4)
    (Z.shiftr (Z.land (Z.lor (Z.shiftl (ord b) 2) (Z.shiftr (ord c) 6)) 63) 2) = ord b.
Proof. byte_bits. Qed.

Lemma low_byte b c :
  Z.lor (Z.shiftl (Z.land (Z.land (Z.lor (Z.shiftl (ord b) 2) (Z.shiftr (ord c) 6)) 63) 3) 6) (Z.land (ord c) 63) = ord c.
Proof. byte_bits. Qed.

Lemma single_byte a :
  Z.lor (Z.shiftl (Z.land (Z.shiftr (ord a) 2) 63) 2) (Z.shiftr (Z.land (Z.shiftl (ord a) 4) 63) 4) = ord a.
Proof. byte_bits. Qed.

Lemma last_byte a b :
  Z.lor (Z.shiftl (Z.land (Z.land (Z.lor (Z.shiftl (ord a) 4) (Z.shiftr (ord b) 4)) 63) 15) 4)
    (Z.shiftr (Z.land (Z.shiftl (ord b) 2) 63) 2) = ord b.
Proof. byte_bits. Qed.

(** Three bytes at a time. *)
Lemma triple_ind (P : string -> Prop) :
  P "" -> (forall a, P (String a "")) -> (forall a b, P (String a (String b ""))) ->
  (forall a b c s, P s -> P (String a (String b (String c s)))) -> forall s, P s.
Proof.
  intros H0 H1 H2 H3. fix IH 1. intros [|a [|b [|c s]]]; [exact H0|apply H1|apply H2|apply H3, IH].
Qed.

Lemma a2b_first left pads n r : a2b 0 left pads (String (sextet_char (Z.land n 63)) r) = a2b 1 (Z.land n 63) 0 r.
Proof. by rewrite a2b_sextet. Qed.
Lemma a2b_second left pads n r :
  a2b 1 left pads (String (sextet_char (Z.land n 63)) r)
  = (t ← a2b 2 (Z.land (Z.land n 63) 15) 0 r; Ok (String (byte_char (Z.lor (Z.shiftl left 2) (Z.shiftr (Z.land n 63) 4))) t)).
Proof. by rewrite a2b_sextet. Qed.
Lemma a2b_third left pads n r :
  a2b 2 left pads (String (sextet_char (Z.land n 63)) r)
  = (t ← a2b 3 (Z.land (Z.land n 63) 3) 0 r; Ok (String (byte_char (Z.lor (Z.shiftl left 4) (Z.shiftr (Z.land n 63) 2))) t)).
Proof. by rewrite a2b_sextet. Qed.
Lemma a2b_fourth left pads n r :
  a2b 3 left pads (String (sextet_char (Z.land n 63)) r)
  = (t ← a2b 0 0 0 r; Ok (String (byte_char (Z.lor (Z.shiftl left 6) (Z.land n 63))) t)).
Proof. by rewrite a2b_sextet. Qed.

Lemma decode_encode s : urlsafe_b64decode (urlsafe_b64encode s) = Ok s.
Proof.
  unfold urlsafe_b64decode. induction s as [|a|a b|a b c s IH] using triple_ind; [done|..];
    cbn [urlsafe_b64encode]; rewrite a2b_first, a2b_second.
  - change (a2b 2 _ 0 "==") with (Ok (A := string) ""). cbn [mbind res_bind]. by rewrite single_byte, byte_char_ord.
  - rewrite a2b_third. change (a2b 3 _ 0 "=") with (Ok (A := string) ""). cbn [mbind res_bind].
    by rewrite high_byte, last_byte, !byte_char_ord.
  - rewrite a2b_third, a2b_fourth, IH. cbn [mbind res_bind]. by rewrite high_byte, middle_byte, low_byte, !byte_char_ord.
Qed.

(** [value + "=" * (-len(value) % 4)]. *)
Definition with_padding (s : string) : string := s +:+ String.concat "" (repeat "="%string (Z.to_nat ((- str_len s) mod 4))).

Definition unpadded (s : string) : string := rstrip_char "=" s.

Lemma rstrip_kept c s : Ascii.eqb c "=" = false -> unpadded (String c s) = String c (unpadded s).
Proof.
  intros Hc. unfold unpadded, rstrip_char. cbn [rstrip_by]. rewrite Ascii.eqb_sym, Hc.
  by destruct (rstrip_by (Ascii.eqb "=") s).
Qed.

Lemma sextet_kept n s : unpadded (String (sextet_char (Z.land n 63)) s) = String (sextet_char (Z.land n 63)) (unpadded s).
Proof. apply rstrip_kept. by apply sextet_round, land_63. Qed.

Lemma with_padding_quad a b c d s :
  with_padding (String a (String b (String c (String d s)))) = String a (String b (String c (String d (with_padding s)))).
Proof.
  unfold with_padding. replace ((- str_len (String a (String b (String c (String d s))))) mod 4) with ((- str_len s) mod 4); [done|].
  unfold str_len. cbn [String.length]. rewrite !Nat2Z.inj_succ.
  replace (- Z.succ (Z.succ (Z.succ (Z.succ (Z.of_nat (String.length s)))))) with (- Z.of_nat (String.length s) + (-1) * 4) by lia.
  by rewrite Z.mod_add by lia.
Qed.

Lemma padding_restored s : with_padding (unpadded (urlsafe_b64encode s)) = urlsafe_b64encode s.
Proof.
  induction s as [|a|a b|a b c s IH] using triple_ind; [done|..]; cbn [urlsafe_b64encode]; rewrite !sextet_kept; [done|done|].
  by rewrite with_padding_quad, IH.
Qed.
