(* ===== verification/TelemetryQuery.v ===== *)
(** * Queries of the event history ([telemetry.py], [query], [related], [status])

    The filters of a query as a condition on rows, the cursor that a page ends
    with, the page itself with its relations, and the state of the source. *)
From S2P Require Import Prelude PyVal PyStr IpAddr Json NetworkRules PyText PyTime TelemetryValues Sql Findings TelemetryStore TelemetryRetention Base64 JsonRound KeyedTables.

Definition MAX_QUERY_EVENTS : Z := 512.
Definition MAX_QUERY_BYTES : Z := 2 * 1024 * 1024.

(** ** The cursor *)

(** [s.decode("utf-8")]: two bytes make a character of Latin-1; the others the
    text of the model cannot hold. *)
Fixpoint utf8_decode (s : string) : res string :=
  match s with
  | "" => Ok ""
  | String a r =>
      if ord a <? 128 then t ← utf8_decode r; Ok (String a t)
      else match r with
           | String b r =>
               if ((ord a =? 194) || (ord a =? 195)) && (128 <=? ord b) && (ord b <? 192)
               then t ← utf8_decode r; Ok (String (byte_char (Z.lor (Z.shiftl (Z.land (ord a) 3) 6) (Z.land (ord b) 63))) t)
               else Err (ValueError "invalid start byte")
           | "" => Err (ValueError "unexpected end of data")
           end
  end.

Section query.
Context `{FloatText} `{Sqlite} (max_bytes : Z).

Definition invalid_cursor : exn := TelemetryError "Invalid telemetry cursor".

Definition cursor_items (s : string) : res (list val) :=
  if negb (isascii s) then Err invalid_cursor
  else
    raw ← urlsafe_b64decode (with_padding s);
    text ← utf8_decode raw;
    v ← loads text;
    match v with VList [a; b] => Ok [a; b] | _ => Err invalid_cursor end.

(** [_cursor(value)]: any failure is an invalid cursor. *)
Definition _cursor (v : val) : res (option (string * string)) :=
  if negb (truthy v) then Ok None
  else match v with
       | VStr s => match cursor_items s with
                   | Ok [a; b] => Ok (Some (_text a 64, _text b 96))
                   | _ => Err invalid_cursor
                   end
       | _ => Err invalid_cursor
       end.

Definition _make_cursor (r : row) : string :=
  unpadded (urlsafe_b64encode (dumps (VList [get "occurred_at" r; get "event_id" r]))).

(** ** Filters *)

Definition TEXT_FILTERS : list string :=
  ["component"; "source"; "category"; "event_type"; "severity"; "assessment"; "application"; "boot_id"].
Definition OBJECT_FILTERS : list string := ["operation_id"; "transaction_id"; "unit"; "rule_id"].

Definition condition : Type := row -> bool.

(** [key = ?] when the filter is given. *)
Definition equals_filter (filters : dict) (maximum : nat) (key : string) : condition := fun r =>
  let v := get key filters in if truthy v then sql_eq (get key r) (VStr (_text v maximum)) else true.

Definition column_text (k : string) (r : row) : string := match get k r with VStr s => s | _ => "" end.

(** [lower(x)] of SQL. *)
Definition sql_lower (s : string) : string := str_map ascii_lower s.

Definition no_percent (s : string) : string := str_filter (fun c => negb (Ascii.eqb c "%")) s.

Definition destination_filter (filters : dict) : condition := fun r =>
  let v := get "destination" filters in
  if truthy v
  then like ("%" +:+ dump_string "host" +:+ ":" +:+ String quote (no_percent (str_lower (_text v 240)) +:+ "%")) (sql_lower (column_text "destination_json" r))
  else true.

Definition search_filter (filters : dict) : condition := fun r =>
  let v := get "search" filters in
  if truthy v
  then let pattern := "%" +:+ no_percent (str_lower (_text v 160)) +:+ "%" in
       like pattern (sql_lower (column_text "application" r)) || like pattern (sql_lower (column_text "destination_json" r))
  else true.

Definition time_filter (filters : dict) : condition := fun r =>
  (let v := get "from" filters in if truthy v then sql_le (VStr (_text v 64)) (get "occurred_at" r) else true)
  && (let v := get "to" filters in if truthy v then sql_le (get "occurred_at" r) (VStr (_text v 64)) else true).

Definition invalid_port : exn := TelemetryError "Invalid telemetry port".

Definition port_filter (filters : dict) : res condition :=
  let v := get "port" filters in
  if is_none v || is_str "" v then Ok (fun _ => true)
  else
    p ← try_with (py_int v) (fun e => is_value_error e || match e with TypeError => true | _ => false end) (fun _ => Err invalid_port);
    q ← integer_column (VInt p);
    Ok (fun r => sql_eq (get "port" r) q).

Definition scope_filter (filters : dict) : res condition :=
  let v := get "scope" filters in
  if is_none v then Ok (fun _ => true)
  else if is_str "SECURITY" v then Ok (fun r => negb (is_str "NETWORK" (get "category" r)))
  else Err (TelemetryError "Invalid telemetry scope").

Definition decision_filter (filters : dict) : condition := fun r =>
  (let v := get "decision" filters in if truthy v then sql_eq (get "decision" r) (VStr (str_upper (_text v 32))) else true)
  && (let v := get "protocol" filters in if truthy v then sql_eq (get "protocol" r) (VStr (str_lower (_text v 24))) else true).

(** The rows that come after the cursor in the order of the pages. *)
Definition after_cursor (cursor : option (string * string)) : condition := fun r =>
  match cursor with
  | None => true
  | Some (t, i) => sql_lt (get "occurred_at" r) (VStr t)
                   || (sql_eq (get "occurred_at" r) (VStr t) && sql_lt (get "event_id" r) (VStr i))
  end.

(** Everything but the cursor. *)
Definition where_clause (filters : dict) : res condition :=
  scope ← scope_filter filters;
  port ← port_filter filters;
  Ok (fun r =>
    scope r && forallb (fun k => equals_filter filters 160 k r) TEXT_FILTERS && equals_filter filters 96 "session_id" r
    && forallb (fun k => equals_filter filters 160 k r) OBJECT_FILTERS && decision_filter filters r && port r
    && destination_filter filters r && search_filter filters r && time_filter filters r).

(** ** Pages *)

Definition PAGE_ORDER : list (string * bool) := [("occurred_at", true); ("event_id", true)].

(** The rows of a page and whether there are more. *)
Definition page (p : condition) (cursor : option (string * string)) (limit : nat) (t : table) : table * bool :=
  let rows := top (S limit) PAGE_ORDER (select (fun r => p r && after_cursor cursor r) t) in
  (take limit rows, (limit <? length rows)%nat).

Definition next_cursor (rows : table) (truncated : bool) : val :=
  match truncated, last rows with true, Some r => VStr (_make_cursor r) | _, _ => VNone end.

(** [_attach_relations]: each event with the relations that name it. *)
Definition relation_value (k : string) (r : row) : val :=
  VDict (dlit [("event_id", get k r); ("relation", get "relation" r); ("confidence", get "confidence" r); ("basis", get "basis" r)]).

Definition relations_of (id : val) (t : table) : list val :=
  concat (map (fun r =>
    (if sql_eq (get "event_id" r) id then [relation_value "related_event_id" r] else [])
    ++ (if sql_eq (get "related_event_id" r) id then [relation_value "event_id" r] else [])) t).

Definition attach (t : table) (value : dict) : dict :=
  match relations_of (get "event_id" value) t with [] => value | l => dset "relations" (VList l) value end.

(** ** The state of the source *)

Definition extreme (better : val -> val -> bool) (l : list val) : val :=
  match l with [] => VNone | v :: l => fold_left (fun a b => if better b a then b else a) l v end.

Definition status_of (d : db) : res dict :=
  let times := map (get "occurred_at") (events d) in
  evictions ← int_of_text (nonempty (default "0" (dget "last_size_evictions" (metadata d))) "0");
  Ok (dlit
    [("source", VStr "greyward-sqlite-history"); ("state", VStr "AVAILABLE"); ("count", VInt (Z.of_nat (length (events d))));
     ("oldest", extreme sql_lt times); ("newest", extreme (fun a b => sql_lt b a) times); ("max_bytes", VInt max_bytes);
     ("retention_days", VDict (dlit [("investigation", VInt INVESTIGATION_DAYS); ("semantic", VInt SEMANTIC_DAYS)]));
     ("last_prune_at", match dget "last_prune_at" (metadata d) with Some t => VStr t | None => VNone end);
     ("last_size_evictions", VInt evictions); ("size_bytes", VInt (size_bytes 0 d))]).

Definition status : act db dict := _ ← _connect; state ← gets status_of; lift state.

(** ** The query *)

(** The answer of a page, cut in half when its text is too large. *)
Definition page_answer (now : Z) (rows : table) (truncated : bool) (d : db) : res dict :=
  let values := map (fun r => attach (relations d) (_row_value r)) rows in
  source ← status_of d;
  let result := dlit
    [("schema", VStr QUERY_SCHEMA); ("generated_at", VStr (stamp now)); ("events", VList (map VDict values)); ("truncated", VBool truncated);
     ("next_cursor", next_cursor rows truncated); ("source_state", VDict source)] in
  Ok (if MAX_QUERY_BYTES <? utf8_len (dumps (VDict result))
      then dset "size_limited" (VBool true) (dset "truncated" (VBool true)
             (dset "events" (VList (map VDict (take (Nat.max 1 (length values / 2)) values))) result))
      else result).

Definition query_limit (filters : dict) : res nat :=
  n ← py_int (getd "limit" (VInt 128) filters); Ok (bounded MAX_QUERY_EVENTS n).

Definition query (now : Z) (filters : dict) : act db dict :=
  limit ← lift (query_limit filters);
  p ← lift (where_clause filters);
  cursor ← lift (_cursor (get "cursor" filters));
  _ ← _connect;
  answer ← gets (fun d => let '(rows, truncated) := page p cursor limit (events d) in page_answer now rows truncated d);
  lift answer.

(** [file_scan_activity(owner_uid, limit)]: the events of the scans of an owner. *)
Definition file_scan_activity (owner limit : Z) : act db (list dict) :=
  _ ← _connect;
  gets (fun d => map _row_value (top (bounded 128 limit) PAGE_ORDER (select (fun e =>
    is_str "FILE_SECURITY" (get "category" e)
    && match find_row "operation_id" (get "operation_id" e) (scans d) with Some o => owned_by (Some owner) o | None => false end) (events d)))).

(** [related(event_id, limit)]. *)
Definition related_rows (id : string) (limit : nat) (d : db) : table :=
  let joined := concat (map (fun e => map (fun _ => e)
    (select (fun r => (sql_eq (get "related_event_id" r) (get "event_id" e) && sql_eq (get "event_id" r) (VStr id))
                      || (sql_eq (get "event_id" r) (get "event_id" e) && sql_eq (get "related_event_id" r) (VStr id))) (relations d))) (events d)) in
  top limit [("occurred_at", true)] joined.

Definition related (now : Z) (event_id : string) (limit : Z) : act db dict :=
  let id := _text (VStr event_id) 96 in
  _ ← _connect;
  answer ← gets (fun d =>
    source ← status_of d;
    let base := [("schema", VStr QUERY_SCHEMA); ("generated_at", VStr (stamp now)); ("source_state", VDict source)] in
    match find_row "event_id" (VStr id) (events d) with
    | None => Ok (dlit (("events", VList []) :: base))
    | Some root =>
        let others := List.filter (fun r => negb (sql_eq (get "event_id" r) (get "event_id" root))) (related_rows id (bounded MAX_QUERY_EVENTS limit) d) in
        let values := map (fun r => attach (relations d) (_row_value r)) (root :: others) in
        Ok (dlit (("seed_event_id", VStr event_id) :: ("events", VList (map VDict (take (Z.to_nat MAX_QUERY_EVENTS) values))) :: base))
    end);
  lift answer.
End query.

(** * The pages of a query

    The cursor of a row is read back as the keys of the row, and the pages that
    follow one another are the matching events in their order. *)

(** ** The cursor *)

Lemma isascii_app s t : isascii s = true -> isascii t = true -> isascii (s +:+ t) = true.
Proof.
  induction s as [|c s IH]; [done|]. rewrite string_app_cons. unfold isascii in *. cbn [str_forall].
  intros [-> Hs]%andb_true_iff Ht. cbn [andb]. by apply IH.
Qed.

Lemma escape_ascii s : isascii (escape s) = true.
Proof.
  induction s as [|c s IH]; [done|]. cbn [escape]. apply isascii_app; [|exact IH].
  clear. destruct c as [[] [] [] [] [] [] [] []]; reflexivity.
Qed.

Lemma dump_string_ascii s : isascii (dump_string s) = true.
Proof. unfold dump_string. change (isascii (String quote "" +:+ (escape s +:+ String quote "")) = true). repeat apply isascii_app; done || apply escape_ascii. Qed.

Lemma utf8_ascii s : isascii s = true -> utf8_decode s = Ok s.
Proof.
  induction s as [|c s IH]; [done|]. unfold isascii. cbn [str_forall utf8_decode].
  intros [Hc Hs]%andb_true_iff. unfold isascii_char in Hc. rewrite Hc, IH by done. done.
Qed.

Lemma sextet_ascii n : 0 <= n < 64 -> isascii_char (sextet_char n) = true.
Proof.
  intros Hn%in_sextets. assert (forallb (fun n => isascii_char (sextet_char n)) sextets = true) as Hall by (vm_compute; reflexivity).
  rewrite forallb_forall in Hall. by apply Hall.
Qed.

Lemma base64_ascii s : isascii (unpadded (urlsafe_b64encode s)) = true.
Proof.
  induction s as [|a|a b|a b c s IH] using triple_ind; [done|..]; cbn [urlsafe_b64encode]; rewrite !sextet_kept;
    unfold isascii in *; cbn [str_forall]; rewrite !sextet_ascii by apply land_63; done.
Qed.

Lemma unpadded_nonempty s : s <> "" -> unpadded (urlsafe_b64encode s) <> "".
Proof. destruct s as [|a [|b [|c s]]]; [done|..]; cbn [urlsafe_b64encode]; by rewrite !sextet_kept. Qed.

Section cursor.
Context `{FloatTextOk}.

Lemma loads_dumps_plain v : json_ok v = true -> loads (dumps v) = Ok v.
Proof.
  intros Hv. unfold loads. rewrite <- (string_app_nil_r (dumps v)), skip_space_dumps.
  rewrite dumps_parses; [done|done| |done]. rewrite string_app_nil_r. lia.
Qed.

(** A cursor is read back as the keys of the row it was made of. *)
Lemma cursor_round r : page_key r -> exists t i,
  get "occurred_at" r = VStr t /\ get "event_id" r = VStr i /\ _cursor (VStr (_make_cursor r)) = Ok (Some (t, i)).
Proof.
  intros (t & i & Ht & Hi & Hct & Hci). exists t, i. split; [done|]. split; [done|].
  unfold _make_cursor. rewrite Ht, Hi. set (v := VList [VStr t; VStr i]).
  assert (isascii (dumps v) = true) as Hascii.
  { change (isascii (String "[" (join "," [dump_string t; dump_string i] +:+ String "]" "")) = true).
    change (isascii (String "[" "" +:+ ((dump_string t +:+ "," +:+ dump_string i) +:+ String "]" "")) = true).
    apply isascii_app; [done|]. apply isascii_app; [|done].
    apply isascii_app; [apply dump_string_ascii|]. apply isascii_app; [done|apply dump_string_ascii]. }
  unfold _cursor. cbn [truthy].
  destruct (String.eqb_spec (unpadded (urlsafe_b64encode (dumps v))) "") as [He|_].
  { exfalso. revert He. apply unpadded_nonempty. destruct (dumps_ascii_head v) as (c & u & ->). done. }
  cbn [negb]. unfold cursor_items. rewrite base64_ascii, padding_restored, decode_encode. cbn [negb mbind res_bind].
  rewrite utf8_ascii by done. cbn [mbind res_bind]. rewrite loads_dumps_plain by done. cbn [mbind res_bind v].
  unfold _text, clean_val.
  assert (forall s, text_of (VStr s) = s) as Htext by (intros s; unfold text_of; cbn [truthy py_str]; by destruct (String.eqb_spec s "") as [->|]).
  by rewrite !Htext, Hct, Hci.
Qed.
End cursor.

(** ** The order of the pages *)

Definition text_key (r : row) : option (string * string) :=
  match get "occurred_at" r, get "event_id" r with VStr t, VStr i => Some (t, i) | _, _ => None end.

(** The keys of [a] come before those of [b], later events first. *)
Definition later (a b : row) : Prop :=
  match text_key a, text_key b with
  | Some (t, i), Some (t', i') => String.compare t' t = Lt \/ (t = t' /\ String.compare i' i = Lt)
  | _, _ => False
  end.

Lemma text_key_page r : page_key r -> exists t i, text_key r = Some (t, i) /\ get "occurred_at" r = VStr t /\ get "event_id" r = VStr i.
Proof. intros (t & i & Ht & Hi & _). exists t, i. unfold text_key. by rewrite Ht, Hi. Qed.

#[export] Instance later_transitive : Transitive later.
Proof.
  intros a b c. unfold later. destruct (text_key a) as [[t i]|], (text_key b) as [[t1 i1]|], (text_key c) as [[t2 i2]|]; try done.
  intros [Hab|[-> Hab]] [Hbc|[-> Hbc]]; [left; eapply string_compare_trans; [exact Hbc|exact Hab]|by left|by left|].
  right. split; [done|]. eapply string_compare_trans; [exact Hbc|exact Hab].
Qed.

Lemma later_irreflexive a : ~ later a a.
Proof.
  unfold later. destruct (text_key a) as [[t i]|]; [|by intros []]. rewrite !string_compare_refl. by intros [?|[_ ?]].
Qed.

Lemma later_before a b : page_key a -> page_key b -> a = b \/ get "event_id" a <> get "event_id" b ->
  before_eq PAGE_ORDER a b = true -> a = b \/ later a b.
Proof.
  intros (t & i & Ha & Hka)%text_key_page (t' & i' & Hb & Hkb)%text_key_page Hne.
  unfold before_eq, later. rewrite Ha, Hb. cbn [rank PAGE_ORDER].
  destruct Hka as [-> Hia], Hkb as [-> Hib]. rewrite Hia, Hib in *. cbn [sql_compare].
  rewrite (string_compare_antisym t t'), (string_compare_antisym i i').
  destruct (String.compare t' t) eqn:E; cbn [CompOpp]; [|by auto|done].
  apply string_compare_Eq in E as ->. destruct (String.compare i' i) eqn:E'; cbn [CompOpp]; [|by auto|done].
  apply string_compare_Eq in E' as ->. intros _. left. by destruct Hne.
Qed.

(** ** The pages *)

Lemma Sorted_in_mono {A} (R R' : A -> A -> Prop) l :
  (forall x y, In x l -> In y l -> R x y -> R' x y) -> Sorted R l -> Sorted R' l.
Proof.
  intros HR Hs. induction Hs as [|x l Hs IH Hhd]; constructor; [apply IH; auto with code|].
  destruct Hhd; constructor. apply HR; auto with code.
Qed.

Section pages.
Context `{FloatTextOk} (t : table) (Ht : keyed "event_id" t) (Hkeys : Forall page_key t).

Lemma select_page p r : In r (order_by PAGE_ORDER (select p t)) <-> In r t /\ p r = true.
Proof. rewrite order_by_In. apply select_In. Qed.

(** The matching rows, strictly in the order of the pages. *)
Lemma ordered p : StronglySorted later (order_by PAGE_ORDER (select p t)).
Proof.
  apply Sorted_StronglySorted; [exact later_transitive|]. set (l := order_by PAGE_ORDER (select p t)).
  assert (NoDup l) as Hnd.
  { unfold l. rewrite order_by_permutation. eapply keyed_NoDup, keyed_filter, Ht. }
  assert (Sorted (fun a b => before_eq PAGE_ORDER a b = true) l) as Hs by apply order_by_sorted.
  assert (forall r, In r l -> In r t) as Hin by (intros r Hr; by apply select_page in Hr as [? _]).
  clearbody l. induction Hs as [|a l Hs IH Hhd]; [constructor|]. apply NoDup_cons in Hnd as [Ha Hnd].
  constructor; [apply IH; [done|intros r Hr; apply Hin; by right]|]. destruct Hhd as [|b l Hab]; constructor.
  rewrite Forall_forall in Hkeys.
  assert (In a t /\ In b t) as [Hat Hbt] by (split; apply Hin; [by left|by right; left]).
  assert (a <> b) as Hneq by (intros ->; apply Ha; left).
  destruct (later_before a b) as [|]; try done; [apply Hkeys; by apply list_elem_of_In..|].
  right. intros Heq. apply Hneq. by eapply keyed_inj.
Qed.

(** The cursor of a row selects the rows after it. *)
Lemma after_cursor_later r x t0 i0 : page_key r -> page_key x ->
  get "occurred_at" x = VStr t0 -> get "event_id" x = VStr i0 -> after_cursor (Some (t0, i0)) r = true <-> later x r.
Proof.
  intros (tr & ir & Hr & Hkr & Hir)%text_key_page (tx & ix & Hx & _)%text_key_page Ht0 Hi0.
  unfold later, after_cursor. rewrite Hr. unfold text_key. rewrite Ht0, Hi0, Hkr, Hir.
  unfold sql_lt, sql_eq. cbn [is_none negb andb sql_compare]. rewrite orb_true_iff, andb_true_iff.
  destruct (String.compare tr t0) eqn:E; (split; [intros [?|[? ?]]; try done|intros [?|[-> ?]]; try done]).
  - right. split; [by apply string_compare_Eq in E|]. by destruct (String.compare ir i0).
  - right. split; [done|]. by destruct (String.compare ir i0).
  - by left.
  - by left.
  - by rewrite string_compare_refl in E.
  - by rewrite string_compare_refl in E.
Qed.

(** Two strictly ordered lists of the same rows are equal. *)
Lemma sorted_same (l l' : table) :
  StronglySorted later l -> StronglySorted later l' -> (forall r, In r l <-> In r l') -> l = l'.
Proof.
  intros Hl. revert l'. induction Hl as [|a l Hl IH Ha]; intros l' Hl' Hsame.
  - destruct l' as [|b l']; [done|]. by destruct (proj2 (Hsame b) (in_eq _ _)).
  - destruct Hl' as [|b l' Hl' Hb]; [by destruct (proj1 (Hsame a) (in_eq _ _))|].
    rewrite Forall_forall in Ha, Hb.
    assert (a = b) as ->.
    { destruct (proj1 (Hsame a) (in_eq _ _)) as [|Hina]; [done|]. destruct (proj2 (Hsame b) (in_eq _ _)) as [|Hinb]; [done|].
      exfalso. apply (later_irreflexive a). etransitivity; [apply Ha|apply Hb]; by apply list_elem_of_In. }
    f_equal. apply IH; [done|]. intros r. split; intros Hr.
    + destruct (proj1 (Hsame r) (in_cons _ _ _ Hr)) as [<-|]; [|done]. exfalso. apply (later_irreflexive b), Ha. by apply list_elem_of_In.
    + destruct (proj2 (Hsame r) (in_cons _ _ _ Hr)) as [<-|]; [|done]. exfalso. apply (later_irreflexive b), Hb. by apply list_elem_of_In.
Qed.

Lemma StronglySorted_app_r {A} (R : A -> A -> Prop) l k : StronglySorted R (l ++ k) -> StronglySorted R k.
Proof. induction l as [|x l IH]; [done|]. cbn. inversion 1; subst. by apply IH. Qed.

Lemma StronglySorted_split {A} (R : A -> A -> Prop) l x k : StronglySorted R (l ++ x :: k) -> (forall y, In y l -> R y x) /\ (forall y, In y k -> R x y).
Proof.
  induction l as [|z l IH]; cbn.
  - inversion 1 as [|? ? _ Hall]; subst. rewrite Forall_forall in Hall. split; [done|]. intros y Hy. apply Hall. by apply list_elem_of_In.
  - inversion 1 as [|? ? Hs Hall]; subst. destruct (IH Hs) as [Hl Hk]. split; [|done]. intros y [<-|Hy]; [|auto].
    rewrite Forall_forall in Hall. apply Hall. apply list_elem_of_In, in_or_app. right. by left.
Qed.

(** After the last row of a page comes the rest. *)
Lemma rest_of_pages p l x k t0 i0 :
  order_by PAGE_ORDER (select p t) = l ++ x :: k -> get "occurred_at" x = VStr t0 -> get "event_id" x = VStr i0 ->
  order_by PAGE_ORDER (select (fun r => p r && after_cursor (Some (t0, i0)) r) t) = k.
Proof.
  intros Hl Ht0 Hi0. pose proof (ordered p) as Hs. rewrite Hl in Hs.
  destruct (StronglySorted_split _ _ _ _ Hs) as [Hbefore Hafter].
  assert (forall r, In r (l ++ x :: k) <-> In r t /\ p r = true) as Hin by (intros r; rewrite <- Hl; apply select_page).
  assert (forall r, In r t -> page_key r) as Hkey.
  { intros r Hr. rewrite Forall_forall in Hkeys. apply Hkeys. by apply list_elem_of_In. }
  assert (In x t) as Hx by (apply Hin, in_or_app; right; by left).
  apply sorted_same; [apply ordered|by apply StronglySorted_app_r in Hs; inversion Hs|].
  intros r. rewrite select_page, andb_true_iff. split.
  - intros (Hr & Hp & Ha). apply (after_cursor_later r x) in Ha; [|by auto..].
    assert (In r (l ++ x :: k)) as [Hr'|[->|Hr']]%in_app_or by (by apply Hin).
    + exfalso. apply (later_irreflexive r). etransitivity; [by apply Hbefore|exact Ha].
    + by apply later_irreflexive in Ha.
    + done.
  - intros Hr. assert (In r t /\ p r = true) as [Hr' Hp] by (apply Hin, in_or_app; right; by right).
    split; [done|]. split; [done|]. apply (after_cursor_later r x); auto.
Qed.

(** A client that follows the cursors; [None] when it is refused or runs out of
    fuel. *)
Fixpoint follow (fuel : nat) (p : condition) (limit : nat) (c : val) : option (list table) :=
  match fuel with
  | O => None
  | S fuel =>
      match _cursor c with
      | Err _ => None
      | Ok cursor =>
          let '(rows, truncated) := page p cursor limit t in
          match next_cursor rows truncated with
          | VNone => Some [rows]
          | c => (fun rest => rows :: rest) <$> follow fuel p limit c
          end
      end
  end.

(** The pages from a cursor on, where the rows that remain are a suffix of all. *)
Lemma follow_from p limit fuel c cursor k :
  (1 <= limit)%nat -> (length k < fuel)%nat -> _cursor c = Ok cursor ->
  order_by PAGE_ORDER (select (fun r => p r && after_cursor cursor r) t) = k ->
  (exists l, order_by PAGE_ORDER (select p t) = l ++ k) ->
  exists pages, follow fuel p limit c = Some pages /\ concat pages = k /\ Forall (fun l => length l <= limit)%nat pages.
Proof.
  intros Hlimit. revert c cursor k. induction fuel as [|fuel IH]; intros c cursor k Hfuel Hc Hk (l & Hl); [lia|].
  cbn [follow]. rewrite Hc. unfold page, top. rewrite Hk.
  rewrite take_take, length_take. replace (limit `min` S limit)%nat with limit by lia.
  destruct (Nat.ltb_spec limit (S limit `min` length k)) as [Hmore|Hless].
  - assert (limit < length k)%nat as Hlen by lia.
    destruct (last (take limit k)) as [x|] eqn:Hlast; [|by apply last_None, (f_equal length) in Hlast; rewrite length_take in Hlast; cbn in Hlast; lia].
    unfold next_cursor. rewrite Hlast. apply last_Some in Hlast as (rows & Hrows).
    assert (k = rows ++ x :: drop limit k) as Hsplit.
    { rewrite <- (take_drop limit k) at 1. rewrite Hrows. by rewrite <- app_assoc. }
    assert (order_by PAGE_ORDER (select p t) = (l ++ rows) ++ x :: drop limit k) as Hall.
    { rewrite Hl, <- app_assoc. f_equal. exact Hsplit. }
    assert (page_key x) as Hx.
    { rewrite Forall_forall in Hkeys. apply Hkeys. apply list_elem_of_In. apply (select_page p). rewrite Hall.
      apply in_or_app. right. by left. }
    destruct (cursor_round x Hx) as (t0 & i0 & Ht0 & Hi0 & Hround).
    destruct (IH (VStr (_make_cursor x)) (Some (t0, i0)) (drop limit k)) as (pages & -> & Hpages & Hsizes).
    + rewrite length_drop. lia.
    + done.
    + by eapply rest_of_pages.
    + exists (l ++ rows ++ [x]). rewrite Hall, <- !app_assoc. done.
    + exists (take limit k :: pages). split; [done|]. split; [cbn; by rewrite Hpages, take_drop|].
      constructor; [rewrite length_take; lia|done].
  - unfold next_cursor. exists [take limit k]. split; [done|]. cbn. rewrite app_nil_r.
    split; [apply take_ge; lia|]. constructor; [rewrite length_take; lia|done].
Qed.

Lemma select_all p : select (fun r => p r && after_cursor None r) t = select p t.
Proof. unfold select. apply filter_ext. intros r. apply andb_true_r. Qed.

Lemma follow_all p limit :
  (1 <= limit)%nat ->
  exists pages, follow (S (length t)) p limit VNone = Some pages
    /\ concat pages = order_by PAGE_ORDER (select p t) /\ Forall (fun l => length l <= limit)%nat pages.
Proof.
  intros Hlimit. apply (follow_from p limit _ VNone None); [done| |done|by rewrite select_all|by exists []].
  rewrite order_by_permutation. pose proof (filter_length_le p t). unfold select. lia.
Qed.
End pages.

(** ** The answers a client is given *)

Section client.
Context `{FloatTextOk} `{Sqlite} (max_bytes : Z) (clock : val -> Z) (filters : dict) (d : db).

(** A client that asks with the cursor of the last answer, each time at some
    moment, while the store does not change. *)
Fixpoint browse (fuel : nat) (c : val) : option (list dict) :=
  match fuel with
  | O => None
  | S fuel =>
      match outcome (query max_bytes (clock c) (dset "cursor" c filters)) d with
      | Err _ => None
      | Ok answer =>
          match get "next_cursor" answer with
          | VNone => Some [answer]
          | c => (fun rest => answer :: rest) <$> browse fuel c
          end
      end
  end.

Definition served (r : row) : val := VDict (attach (relations d) (_row_value r)).

Definition events_of (answer : dict) : list val := match get "events" answer with VList l => l | _ => [] end.

Definition complete (answer : dict) : Prop := get "size_limited" answer = VNone.

(** An answer shows a page, or the first half of it when its text is too large. *)
Definition shows (answer : dict) (rows : table) : Prop :=
  (complete answer /\ events_of answer = map served rows)
  \/ (get "size_limited" answer = VBool true /\ events_of answer = map served (take (Nat.max 1 (length rows / 2)) rows)).

Lemma page_answered now rows truncated source :
  status_of max_bytes d = Ok source ->
  exists answer, page_answer max_bytes now rows truncated d = Ok answer /\ get "next_cursor" answer = next_cursor rows truncated /\ shows answer rows.
Proof.
  intros Hs. unfold page_answer. rewrite Hs. cbn [mbind res_bind]. eexists. split; [reflexivity|].
  destruct (_ <? _); (split; [reflexivity|]); [right|left]; (split; [reflexivity|]).
  - unfold events_of, served. rewrite get_dset_ne, get_dset_ne, get_dset_eq by done. rewrite length_map, firstn_map, map_map. reflexivity.
  - exact (map_map (fun r => attach (relations d) (_row_value r)) VDict rows).
Qed.

Lemma limit_uncursored c : query_limit (dset "cursor" c filters) = query_limit filters.
Proof. unfold query_limit, getd. by rewrite dget_dset_ne. Qed.

Lemma where_uncursored c p :
  where_clause filters = Ok p -> exists p', where_clause (dset "cursor" c filters) = Ok p' /\ forall r, p' r = p r.
Proof.
  assert (forall k, k <> "cursor" -> get k (dset "cursor" c filters) = get k filters) as Hg by (intros k Hk; by apply get_dset_ne).
  unfold where_clause, scope_filter, port_filter. rewrite !Hg by done. intros Hrun. inv_ok. subst p.
  rewrite Ha. cbn [mbind res_bind]. rewrite Ha0. cbn [mbind res_bind]. eexists. split; [reflexivity|]. intros r.
  unfold TEXT_FILTERS, OBJECT_FILTERS, equals_filter, decision_filter, destination_filter, search_filter, time_filter. cbn [forallb]. rewrite !Hg by done. reflexivity.
Qed.

Lemma page_ext p p' cursor limit t : (forall r, p' r = p r) -> page p' cursor limit t = page p cursor limit t.
Proof. intros Hp. unfold page, select. rewrite (filter_ext _ (fun r => p r && after_cursor cursor r)); [done|]. intros r. by rewrite Hp. Qed.

Lemma browse_follows p limit source fuel c pages :
  fault d = None -> status_of max_bytes d = Ok source -> where_clause filters = Ok p -> query_limit filters = Ok limit ->
  follow (events d) fuel p limit c = Some pages -> exists answers, browse fuel c = Some answers /\ Forall2 shows answers pages.
Proof.
  intros Hf Hs Hp Hl. revert c pages. induction fuel as [|fuel IH]; intros c pages; [done|]. cbn [follow browse].
  destruct (_cursor c) as [cursor|] eqn:Ec; [|done]. destruct (page p cursor limit (events d)) as [rows truncated] eqn:Epage.
  destruct (where_uncursored c p Hp) as (p' & Hp' & Hext). destruct (page_answered (clock c) rows truncated source Hs) as (answer & Ha & Hnext & Hshow).
  assert (outcome (query max_bytes (clock c) (dset "cursor" c filters)) d = Ok answer) as ->.
  { unfold query. rewrite limit_uncursored, Hl, Hp', get_dset_eq, Ec. unfold outcome, mbind, act_bind, lift, gets, _connect. rewrite Hf. cbn [fst].
    rewrite (page_ext p p') by done. by rewrite Epage, Ha. }
  rewrite Hnext. destruct (next_cursor rows truncated) eqn:En.
  all: try (destruct (follow _ fuel p limit _) as [rest|] eqn:Er; [|done]; intros [= <-];
            destruct (IH _ _ Er) as (answers & -> & Hall); exists (answer :: answers); by split; [|constructor]).
  intros [= <-]. exists [answer]. split; [done|]. constructor; [done|constructor].
Qed.

(** Where no answer was cut, together they show all pages. *)
Lemma complete_answers answers pages :
  Forall2 shows answers pages -> Forall complete answers -> concat (map events_of answers) = map served (concat pages).
Proof.
  induction 1 as [|a rows l k Hs _ IH]; [done|]. intros Hc. inversion Hc as [|? ? Ha Hl]; subst. cbn [map concat]. rewrite map_app, <- IH by done.
  destruct Hs as [[_ ->]|[Hlim _]]; [done|]. unfold complete in Ha. congruence.
Qed.
End client.
