(* ===== verification/TelemetrySpool.v ===== *)
(** * The handoff spool ([telemetry.py], [spool_event], [import_root_spool])

    The bounded file through which the root collector hands events to the
    session service, their import, the best-effort recording, and the opaque
    identity of a device. The spool holds ASCII text, which is all that
    [spool_event] writes. *)
From S2P Require Import Prelude PyVal PyStr Json PyText PyTime TelemetryValues Sql Findings TelemetryStore TelemetryRetention.

Definition MAX_ROOT_SPOOL_BYTES : Z := 2 * 1024 * 1024.
Definition MAX_ROOT_SPOOL_EVENTS : nat := 4096.

(** The machine: the store, the spool file, and whether writing to the spool
    directory fails. *)
Record machine := Machine { store : db; spool : option string; spool_broken : bool }.

Definition line_feed : ascii := ascii_of_N 10.

(** The newest lines, from the newest back, while they fit. *)
Fixpoint retain (started : bool) (size : Z) (lines : list string) : list string :=
  match lines with
  | [] => []
  | line :: lines =>
      let line_size := utf8_len line + 1 in
      if started && (MAX_ROOT_SPOOL_BYTES <? size + line_size) then []
      else line :: retain true (size + line_size) lines
  end.

Definition spool_lines (text : option string) : list string :=
  List.filter (fun line => negb (String.eqb line ""))
    (splitlines (str_last (Z.to_nat MAX_ROOT_SPOOL_BYTES) (default "" text))).

Definition retained (text : option string) (payload : string) : list string :=
  rev (retain false 0 (rev (last_n MAX_ROOT_SPOOL_EVENTS (spool_lines text ++ [payload])))).

Definition spool_text (lines : list string) : string := join (String line_feed "") lines +:+ String line_feed "".

Section spool.
Context `{FloatText} `{Sqlite} (max_bytes : Z).

Definition on_store {A} (m : act db A) : act machine A := fun s =>
  let '(r, d) := m (store s) in (r, Machine d (spool s) (spool_broken s)).

(** [spool_event(value)]. *)
Definition spool_event (value : dict) : act machine bool := fun s =>
  if negb (is_str SCHEMA (get "schema" value) && truthy (get "event_id" value)) then (Ok false, s)
  else
    let payload := json_text (VDict value) in
    if MAX_DETAILS_BYTES * 2 <? utf8_len payload then (Ok false, s)
    else if spool_broken s then (Ok false, s)
    else (Ok true, Machine (store s) (Some (spool_text (retained (spool s) payload))) (spool_broken s)).

(** One line of the spool: [None] when it is invalid. *)
Definition import_line (line : string) : option val :=
  match loads line with
  | Ok (VDict value) =>
      if is_str SCHEMA (get "schema" value) && truthy (get "event_id" value) && (details_size value <=? MAX_DETAILS_BYTES)
      then Some (VDict value) else None
  | _ => None
  end.

(** [except (TypeError, ValueError, TelemetryError, OSError, sqlite3.Error)]. *)
Definition import_caught (e : exn) : bool :=
  is_value_error e || is_os_error e
  || match e with TypeError | TelemetryError _ | ProviderError _ => true | _ => false end.

Definition import_answer (imported invalid : Z) : dict :=
  dlit [("state", VStr "AVAILABLE"); ("imported", VInt imported); ("invalid", VInt invalid)].

Definition import_values (now : Z) (lines : list string) : act db dict :=
  let values := omap import_line lines in
  let invalid := Z.of_nat (length lines - length values) in
  ((n ← record_many max_bytes now values; mret (import_answer n invalid))
    except import_caught => (fun _ => mret (import_answer 0 (invalid + Z.of_nat (length values)))))%act.

Definition import_root_spool (now : Z) : act machine dict := fun s =>
  let lines := last_n MAX_ROOT_SPOOL_EVENTS (splitlines (str_last (Z.to_nat MAX_ROOT_SPOOL_BYTES) (default "" (spool s)))) in
  on_store (import_values now lines) s.

(** [record_event(value, store)]: [root] is whether the caller is the root
    collector without a store of its own. The copy for the journal is left
    out. *)
Definition record_event (now : Z) (root : bool) (value : dict) : act machine bool :=
  ((if root then spool_event value else on_store (record max_bytes now (VDict value)))
    except (fun e => is_os_error e || match e with TelemetryError _ | ProviderError _ => true | _ => false end)
    => (fun _ => mret false))%act.
End spool.

(** ** Identity of a device *)

Section identity.
Context `{FloatText} (hmac_hex : string -> string -> string).

Definition STABLE_KEYS : list string := ["stable_id"; "serial"; "hash"].
Definition IDENTITY_KEYS : list string :=
  ["stable_id"; "serial"; "hash"; "via_port"; "vendor_id"; "product_id"; "interface"; "device_class"].

(** What the identity is derived from: without a stable identifier there is
    none. *)
Definition identity_material (metadata : dict) : option string :=
  if existsb (fun k => truthy (get k metadata)) STABLE_KEYS
  then let material := join "|" (map (fun k => _text (get k metadata) 160) (List.filter (fun k => truthy (get k metadata)) IDENTITY_KEYS)) in
       if String.eqb material "" then None else Some material
  else None.

(** [derive_device_identity(metadata)], given the key that is read or created,
    or the failure to. *)
Definition derive_device_identity (metadata : dict) (key : res string) : option string * string :=
  match identity_material metadata with
  | None => (None, "LOW"%string)
  | Some material =>
      match key with
      | Ok k => if (String.length k <? 16)%nat then (None, "LOW"%string) else (Some ("usb-hmac-" +:+ str_take 48 (hmac_hex k material)), "HIGH"%string)
      | Err _ => (None, "LOW"%string)
      end
  end.
End identity.
