(* ===== verification/TelemetryClaims.v ===== *)
(** * Properties of the telemetry store

    Pages without gaps or repetitions, retention that keeps what is held,
    replay that changes nothing, the inventory of devices, the bounds of the
    spool, and what the model showed about relations, the import of a malformed
    line and the order of findings. *)
From S2P Require Import Prelude PyVal PyStr IpAddr Json JsonRound JsonExample NetworkRules PyText PyTime TelemetryValues RedactionProps Sql KeyedTables Findings TelemetryStore TelemetryRetention StoreInvariant Base64 TelemetryQuery TelemetrySpool.

(** ** An instance *)

#[local] Instance small_sqlite : Sqlite := {
  size_bytes n d := 1000 * Z.of_nat (rows_left d);
  integer_column v := match v with VInt _ | VNone => Ok v | VBool b => Ok (VInt (if b then 1 else 0)) | _ => Err (ProviderError "InterfaceError") end;
  sql_datetime s := (fun t => t / second) <$> canonical_time s;
}.

Definition sample_event (id occurred outcome : string) (relations : list val) : dict :=
  dlit
    [("schema", VStr SCHEMA); ("event_id", VStr id); ("occurred_at", VStr occurred); ("observed_at", VStr occurred);
     ("component", VStr "greyward"); ("source", VStr "systemd"); ("category", VStr "SERVICE"); ("event_type", VStr "UNIT_FAILED");
     ("action", VStr "OBSERVE"); ("outcome", VStr outcome); ("severity", VStr "WARNING"); ("assessment", VStr "NOTEWORTHY");
     ("correlation", VDict [("unit", VStr "demo.service")]); ("details", VDict [("error", VStr "token=abc")]);
     ("relations", VList relations); ("retention_class", VStr "investigation"); ("expires_at", VStr "2026-09-28T00:00:00Z")].

Definition sample_now : Z := 1790000000 * second.

Definition recorded_values : list val :=
  [VDict (sample_event "e1" "2026-09-20T10:00:00Z" "FAILURE" []); VDict (sample_event "e2" "2026-09-20T10:00:00Z" "SUCCESS" [VDict [("event_id", VStr "e1"); ("relation", VStr "CAUSED_BY")]]);
   VDict (sample_event "e3" "2026-09-20T11:00:00Z" "SUCCESS" [])].

Definition sample_store : db := after (record_many MAX_DB_BYTES sample_now recorded_values) empty_db.

Lemma sample_reachable : rtc (store_step MAX_DB_BYTES) empty_db sample_store.
Proof. exact (rtc_once _ _ (step_record MAX_DB_BYTES sample_now recorded_values empty_db)). Qed.

(** ** The store *)

Section store_claims.
Context `{FloatTextOk} `{Sqlite} (max_bytes : Z).

(** C9. A client that asks a query with any filters, and again with the cursor of
    each answer, while the store does not change, is answered until an answer has
    no cursor. The answers go through pages of at most the limit that hold every
    matching event exactly once, the latest first; each shows the events of its
    page, or is marked as limited by size and shows the first half of them. So
    where no answer is limited by size, every matching event is shown exactly
    once. *)
Theorem pages_complete (clock : val -> Z) (d : db) (filters : dict) (p : condition) (limit : nat) :
  rtc (store_step max_bytes) empty_db d -> fault d = None -> where_clause filters = Ok p -> query_limit filters = Ok limit ->
  exists answers pages, browse max_bytes clock filters d (S (length (events d))) VNone = Some answers /\ Forall2 (shows d) answers pages
    /\ concat pages ≡ₚ select p (events d) /\ StronglySorted later (concat pages)
    /\ Forall (fun rows => length rows <= limit)%nat pages
    /\ (Forall complete answers -> concat (map events_of answers) = map (served d) (concat pages)).
Proof.
  intros Hr%reachable_keyed Hf Hp Hlimit. destruct (counter_readable d Hr) as [n Hn].
  assert (exists source, status_of max_bytes d = Ok source) as [source Hs] by (unfold status_of; rewrite Hn; by eexists).
  destruct Hr as [He Ho _ _ _ _ _ _ _].
  assert (1 <= limit)%nat as Hl.
  { unfold query_limit in Hlimit. inv_ok. subst limit. unfold bounded. lia. }
  destruct (follow_all (events d) He Ho p limit Hl) as (pages & Hfol & Hc & Hsizes).
  destruct (browse_follows max_bytes clock filters d p limit source _ _ _ Hf Hs Hp Hlimit Hfol) as (answers & Hb & Hshow).
  exists answers, pages. split; [done|]. split; [done|]. rewrite Hc at 1 2. split; [apply order_by_permutation|]. split; [by apply ordered|]. split; [done|].
  by apply complete_answers.
Qed.

(** C23. Pruning ends, and afterwards no event is expired, the tables of file
    security are within their bounds, and the files are small enough or nothing
    more may be removed. It adds no event, keeps the relations, the findings and
    the keys of the tables, and loses neither a detection in a state in which its
    content is held (QUARANTINED, QUARANTINE_FAILED) nor a running scan; and where
    the files are small enough without the expired rows, exactly the expired events
    are removed. *)
Theorem prune_keeps_evidence (d : db) (now : string) :
  rtc (store_step max_bytes) empty_db d -> fault d = None ->
  exists answer d', prune max_bytes now d = (Ok answer, d') /\ store_keyed d' /\ bounds now d' /\ kept d d' /\ shrinks d d'
    /\ (size_bytes 0 (age_out now d) <= max_bytes -> forall r, In r (events d') <-> In r (events d) /\ expired now r = false)
    /\ exists m x, events x = events d' /\ detections x = detections d' /\ scans x = scans d'
       /\ (size_bytes m x <= max_bytes \/ evict x = None).
Proof.
  intros Hr%reachable_keyed Hfault. pose proof (prune_spec max_bytes now d Hr) as Hp.
  unfold prune, pruned, mbind, act_bind, _connect. rewrite Hfault.
  destruct (prune_db max_bytes now d) as [d' [removed evicted]]. by do 2 eexists.
Qed.

(** Recording events again, at any later moment, changes nothing: no second
    row, no second relation, and no finding that was resolved is opened again. *)
Theorem replay_changes_nothing (now now' : Z) (values : list dict) (d d' : db) :
  each (_record_value now) values d = (Ok tt, d') -> each (_record_value now') values d' = (Ok tt, d').
Proof. apply replay_nothing. Qed.

(** A scan that was not available changes nothing; after one that was,
    exactly the devices it observed are connected, and every device keeps when
    it was first seen and whether it was reviewed. *)
Theorem sync_observed (now : Z) (observations : list val) (quality : string) (d d' : db) (answer : dict) :
  rtc (store_step max_bytes) empty_db d -> sync_devices now observations quality d = (Ok answer, d') ->
  if String.eqb quality "AVAILABLE"
  then (forall r, In r (devices d') ->
          connected_row r = true <-> exists i, In i (identities (take MAX_DEVICES observations)) /\ get "identity_id" r = VStr i)
       /\ (forall i, In i (identities (take MAX_DEVICES observations)) -> exists r, In r (devices d') /\ get "identity_id" r = VStr i)
       /\ (forall r, In r (devices d) -> exists r', In r' (devices d') /\ get "identity_id" r' = get "identity_id" r
            /\ get "first_seen" r' = get "first_seen" r /\ get "reviewed" r' = get "reviewed" r)
  else d' = d.
Proof.
  intros Hr%reachable_keyed Hrun. unfold sync_devices in Hrun.
  apply act_bind_Ok in Hrun as ([] & d0 & Hc & Hrun). unfold _connect in Hc. destruct (fault d); [done|]. injection Hc as <-.
  destruct (String.eqb quality "AVAILABLE"); [|by injection Hrun as _ <-]. cbn [negb] in Hrun.
  apply act_bind_Ok in Hrun as ([] & d1 & Hs & Hrun). injection Hrun as _ <-.
  unfold transaction in Hs. destruct (synced now observations quality d) as [[[]|e] d2] eqn:E; [|done]. injection Hs as ->.
  destruct (synced_devices now observations quality d d1 (devices_keyed _ Hr) E) as [_ Hconn Hpres Hkept].
  split; [|split; [|done]].
  - intros r Hin. rewrite (Hconn r Hin). by setoid_rewrite <- in_rev.
  - intros i Hi. apply Hpres. by rewrite <- in_rev.
Qed.
End store_claims.

(** ** The spool *)

Definition text_size (lines : list string) : Z := fold_right (fun line n => utf8_len line + 1 + n) 0 lines.

Lemma text_size_cons line lines : text_size (line :: lines) = utf8_len line + 1 + text_size lines.
Proof. done. Qed.

Lemma str_len_app s t : str_len (s +:+ t) = str_len s + str_len t.
Proof. unfold str_len. rewrite length_app_s. lia. Qed.

Lemma str_filter_app p s t : str_filter p (s +:+ t) = str_filter p s +:+ str_filter p t.
Proof.
  induction s as [|c s IH]; [done|]. rewrite string_app_cons. cbn [str_filter].
  destruct (p c); [by rewrite string_app_cons, IH|exact IH].
Qed.

Lemma utf8_len_app s t : utf8_len (s +:+ t) = utf8_len s + utf8_len t.
Proof. unfold utf8_len. rewrite str_filter_app, !str_len_app. lia. Qed.

Lemma spool_text_size lines : lines <> [] -> utf8_len (spool_text lines) = text_size lines.
Proof.
  intros Hl. unfold spool_text. rewrite utf8_len_app. change (utf8_len (String line_feed "")) with 1.
  destruct lines as [|line lines]; [done|]. clear Hl. revert line; induction lines as [|line' lines IH]; intros line.
  - cbn. lia.
  - rewrite join_cons2, !utf8_len_app. change (utf8_len (String line_feed "")) with 1.
    specialize (IH line'). change (text_size (line :: line' :: lines)) with (utf8_len line + 1 + text_size (line' :: lines)). lia.
Qed.

Lemma text_size_rev lines : text_size (rev lines) = text_size lines.
Proof.
  assert (forall l k, text_size (l ++ k) = text_size l + text_size k) as Happ.
  { intros l k. induction l as [|x l IH]; [done|]. cbn [app]. rewrite !text_size_cons. lia. }
  induction lines as [|line lines IH]; [done|]. cbn [rev]. rewrite Happ, IH, !text_size_cons. change (text_size []) with 0. lia.
Qed.

Lemma retain_prefix started size lines : exists k, lines = retain started size lines ++ k.
Proof.
  revert started size; induction lines as [|line lines IH]; intros started size; [by exists []|]. cbn [retain].
  destruct (_ && _); [by exists (line :: lines)|]. destruct (IH true (size + (utf8_len line + 1))) as (k & Hk).
  exists k. cbn. by rewrite <- Hk.
Qed.

Lemma retain_size size lines : size <= MAX_ROOT_SPOOL_BYTES -> size + text_size (retain true size lines) <= MAX_ROOT_SPOOL_BYTES.
Proof.
  revert size; induction lines as [|line lines IH]; intros size Hs; cbn [retain]; [cbn; lia|]. cbn [andb].
  destruct (Z.ltb_spec MAX_ROOT_SPOOL_BYTES (size + (utf8_len line + 1))) as [|Hle]; [cbn; lia|].
  specialize (IH _ Hle). rewrite text_size_cons. lia.
Qed.

Lemma last_n_snoc {A} n (l : list A) x : last_n (S n) (l ++ [x]) = last_n n l ++ [x].
Proof.
  unfold last_n. rewrite length_app. cbn [length]. rewrite drop_app_le by lia.
  by replace (length l + 1 - S n)%nat with (length l - n)%nat by lia.
Qed.

Lemma retained_spec text payload :
  utf8_len payload <= MAX_DETAILS_BYTES * 2 ->
  exists lines, retained text payload = lines ++ [payload] /\ text_size (retained text payload) <= MAX_ROOT_SPOOL_BYTES
    /\ (length (retained text payload) <= MAX_ROOT_SPOOL_EVENTS)%nat
    /\ exists dropped, spool_lines text ++ [payload] = dropped ++ retained text payload.
Proof.
  intros Hp. unfold retained. set (old := spool_lines text). change MAX_ROOT_SPOOL_EVENTS with (S 4095).
  rewrite last_n_snoc, rev_app_distr. cbn [rev app retain andb].
  set (kept := retain true (0 + (utf8_len payload + 1)) (rev (last_n 4095 old))).
  assert (0 + (utf8_len payload + 1) <= MAX_ROOT_SPOOL_BYTES) as Hfit.
  { assert (MAX_DETAILS_BYTES * 2 + 1 <= MAX_ROOT_SPOOL_BYTES) by (unfold MAX_DETAILS_BYTES, MAX_ROOT_SPOOL_BYTES; lia). lia. }
  pose proof (retain_size _ (rev (last_n 4095 old)) Hfit) as Hsize. fold kept in Hsize.
  destruct (retain_prefix true (0 + (utf8_len payload + 1)) (rev (last_n 4095 old))) as (k & Hk). fold kept in Hk.
  exists (rev kept). split; [done|]. split; [|split].
  - change (rev kept ++ [payload]) with (rev (payload :: kept)). rewrite text_size_rev, text_size_cons. lia.
  - rewrite length_app, length_rev. cbn [length]. assert (length kept <= length (last_n 4095 old))%nat.
    { apply (f_equal length) in Hk. rewrite length_rev, length_app in Hk. lia. }
    pose proof (last_n_length 4095 old). lia.
  - destruct (last_n_suffix 4095 old) as (pre & Hpre). exists (pre ++ rev k). rewrite Hpre at 1. rewrite <- !app_assoc. f_equal.
    apply (f_equal (@rev _)) in Hk. rewrite rev_involutive, rev_app_distr in Hk. by rewrite Hk, <- app_assoc.
Qed.

(** The spool stays within its size and its number of lines: it ends with the
    recorded event and keeps the newest of the events before it. *)
Theorem spool_bounded `{FloatText} `{Sqlite} (value : dict) (s s' : machine) :
  spool_event value s = (Ok true, s') ->
  exists lines dropped, spool s' = Some (spool_text (lines ++ [json_text (VDict value)]))
    /\ utf8_len (spool_text (lines ++ [json_text (VDict value)])) <= MAX_ROOT_SPOOL_BYTES
    /\ (length (lines ++ [json_text (VDict value)]) <= MAX_ROOT_SPOOL_EVENTS)%nat
    /\ spool_lines (spool s) = dropped ++ lines /\ store s' = store s.
Proof.
  unfold spool_event. destruct (negb _); [done|].
  destruct (Z.ltb_spec (MAX_DETAILS_BYTES * 2) (utf8_len (json_text (VDict value)))) as [|Hp]; [done|].
  destruct (spool_broken s); [done|]. intros [= <-]. cbn [spool store].
  destruct (retained_spec (spool s) (json_text (VDict value)) Hp) as (lines & -> & Hsize & Hlen & dropped & Hd).
  exists lines, dropped. split; [done|]. split; [|split; [done|split; [|done]]].
  - rewrite spool_text_size; [done|]. by destruct lines.
  - rewrite app_assoc in Hd. by apply app_inj_tail in Hd as [? _].
Qed.

(** ** What the model showed *)

(** Relations name events that are gone: no statement deletes them, and the
    foreign keys that would are not enforced. *)
Lemma prune_keeps_relations `{FloatText} `{Sqlite} max_bytes now d :
  store_keyed d -> relations (prune_db max_bytes now d).1 = relations d.
Proof.
  intros Hk. destruct (evict_loop_ends max_bytes (fun x => relations x = relations d) (S (rows_left (age_out now d))) 0 (age_out now d))
    as (d' & k & m & Hloop & Hrel & _).
  - intros x x' j Hx Hkx Hev. destruct (evict_spec x x' j Hkx Hev) as (_ & _ & _ & _ & _ & _ & _ & _ & -> & _). done.
  - done.
  - by apply age_out_keyed.
  - lia.
  - unfold prune_db, evict_all. by rewrite Hloop.
Qed.

Lemma relations_outlive_events :
  let d := after (prune MAX_DB_BYTES "2027-01-01T00:00:00Z") sample_store in events d = [] /\ length (relations d) = 1%nat.
Proof. vm_compute. split; reflexivity. Qed.

(** One event without a component stops the import of every event of the
    spool: the missing key raises an exception the import does not catch. *)
Definition malformed_spool : machine :=
  Machine empty_db (Some (spool_text [dumps (VDict (sample_event "e1" "2026-09-20T10:00:00Z" "SUCCESS" []));
                                      dumps (VDict (ddel "component" (sample_event "e2" "2026-09-20T10:00:00Z" "SUCCESS" [])))])) false.

Lemma malformed_event_stops_import :
  import_root_spool MAX_DB_BYTES sample_now malformed_spool = (Err (KeyError "component"), malformed_spool).
Proof. vm_compute. reflexivity. Qed.

(** A failure, whose severity is ERROR, is listed after a warning. *)
Definition unknown_device : dict :=
  dlit [("identity_id", VStr "usb-1"); ("device_class", VStr "EXTERNAL_STORAGE"); ("observed_at", VStr "2026-09-20T09:00:00Z")].

Lemma failures_are_listed_last :
  match outcome (list_findings true 64) (after (sync_devices sample_now [VDict unknown_device] "AVAILABLE") sample_store) with
  | Ok l => map (get "severity") l = [VStr "WARNING"; VStr "ERROR"]
  | Err _ => False
  end.
Proof. vm_compute. reflexivity. Qed.

(** A detection whose restoration failed has its content in quarantine, and its
    record is evicted. *)
Definition failed_restore : dict :=
  dlit [("detection_id", VStr "det-1"); ("operation_id", VStr "scan-1"); ("original_path", VStr "/home/u/f"); ("state", VStr "RESTORE_FAILED");
        ("quarantine_id", VStr "q-00000000000000000000000000000000")].

Lemma failed_restore_is_evicted :
  let d := after (prune 0 "2026-09-21T14:13:20Z") (after (upsert_file_detection sample_now failed_restore) empty_db) in
  detections (after (upsert_file_detection sample_now failed_restore) empty_db) <> [] /\ detections d = [].
Proof. vm_compute. split; [discriminate|reflexivity]. Qed.

(** A page that is cut in half keeps the cursor of the whole page, so that the
    next page does not begin with the events that were cut off. *)
Lemma size_limited_page_loses_events `{FloatText} `{Sqlite} max_bytes now rows truncated d answer :
  page_answer max_bytes now rows truncated d = Ok answer -> get "size_limited" answer = VBool true ->
  get "next_cursor" answer = next_cursor rows truncated
  /\ exists l, get "events" answer = VList l /\ length l = Nat.min (Nat.max 1 (length rows / 2)) (length rows).
Proof.
  unfold page_answer. intros Hok Hlimited. inv_ok. destruct (_ <? _); [|subst answer; by vm_compute in Hlimited].
  subst answer. split; [reflexivity|]. eexists. split; [reflexivity|].
  rewrite length_map, length_take, length_map. done.
Qed.

(** ** Witnesses *)

Definition two_a_page : dict := [("limit", VInt 2)].
Definition no_filter : condition := Eval cbv beta delta [where_clause scope_filter port_filter two_a_page] in
  match where_clause two_a_page with Ok p => p | Err _ => fun _ => true end.

Definition at_noon (c : val) : Z := sample_now.

Definition three_answers : option (list dict) := Eval vm_compute in browse MAX_DB_BYTES at_noon two_a_page sample_store 4 VNone.

Lemma three_answered : browse MAX_DB_BYTES at_noon two_a_page sample_store (S (length (events sample_store))) VNone = three_answers.
Proof. vm_compute. reflexivity. Qed.

Lemma pages_complete_witness :
  exists answers, three_answers = Some answers /\ length answers = 2%nat /\ length (concat (map events_of answers)) = 3%nat.
Proof.
  destruct (pages_complete MAX_DB_BYTES at_noon sample_store two_a_page no_filter 2 sample_reachable ltac:(vm_compute; reflexivity) eq_refl eq_refl)
    as (answers & pages & Hb & _ & Hp & _ & _ & He).
  rewrite three_answered in Hb. exists answers. split; [exact Hb|]. unfold three_answers in Hb. injection Hb as <-. split; [reflexivity|].
  rewrite He by (repeat constructor). rewrite length_map, (Permutation_length Hp). vm_compute. reflexivity.
Defined.

Lemma prune_keeps_evidence_witness :
  exists answer d', prune MAX_DB_BYTES "2026-09-21T14:13:20Z" sample_store = (Ok answer, d') /\ bounds "2026-09-21T14:13:20Z" d'
    /\ forall r, In r (events d') <-> In r (events sample_store) /\ expired "2026-09-21T14:13:20Z" r = false.
Proof.
  destruct (prune_keeps_evidence MAX_DB_BYTES sample_store "2026-09-21T14:13:20Z" sample_reachable ltac:(vm_compute; reflexivity))
    as (answer & d' & Hp & _ & Hb & _ & _ & He & _). exists answer, d'. split; [exact Hp|]. split; [exact Hb|]. apply He. vm_compute. discriminate.
Defined.

Definition sample_values : list dict :=
  [sample_event "e1" "2026-09-20T10:00:00Z" "FAILURE" []; sample_event "e2" "2026-09-20T10:00:00Z" "SUCCESS" [VDict [("event_id", VStr "e1")]]].

Definition sample_recorded : db := Eval vm_compute in after (each (_record_value sample_now) sample_values) empty_db.

Lemma sample_run : each (_record_value sample_now) sample_values empty_db = (Ok tt, sample_recorded).
Proof. vm_compute. reflexivity. Qed.

Lemma replay_changes_nothing_witness :
  each (_record_value (sample_now + 5)) sample_values sample_recorded = (Ok tt, sample_recorded) /\ length (events sample_recorded) = 2%nat.
Proof.
  split; [exact (replay_changes_nothing sample_now (sample_now + 5) sample_values empty_db sample_recorded sample_run)|reflexivity].
Defined.

Definition synced_store : db := Eval vm_compute in after (sync_devices sample_now [VDict unknown_device] "AVAILABLE") empty_db.
Definition sync_answer : dict := Eval vm_compute in
  match outcome (sync_devices sample_now [VDict unknown_device] "AVAILABLE") empty_db with Ok a => a | Err _ => [] end.

Lemma sync_run : sync_devices sample_now [VDict unknown_device] "AVAILABLE" empty_db = (Ok sync_answer, synced_store).
Proof. vm_compute. reflexivity. Qed.

Lemma sync_observed_witness : exists r, In r (devices synced_store) /\ get "identity_id" r = VStr "usb-1" /\ connected_row r = true.
Proof.
  destruct (sync_observed MAX_DB_BYTES sample_now [VDict unknown_device] "AVAILABLE" empty_db synced_store sync_answer
    (rtc_refl _ _) sync_run) as (Hc & Hp & _).
  destruct (Hp "usb-1"%string ltac:(vm_compute; left; reflexivity)) as (r & Hr & Hid). exists r.
  split; [exact Hr|]. split; [exact Hid|]. apply Hc; [exact Hr|]. exists "usb-1"%string. split; [vm_compute; left; reflexivity|exact Hid].
Defined.

Definition spooled : machine := Eval vm_compute in
  after (spool_event (sample_event "e1" "2026-09-20T10:00:00Z" "SUCCESS" [])) (Machine empty_db None false).

Lemma spool_run :
  spool_event (sample_event "e1" "2026-09-20T10:00:00Z" "SUCCESS" []) (Machine empty_db None false) = (Ok true, spooled).
Proof. vm_compute. reflexivity. Qed.

Lemma spool_bounded_witness : exists text, spool spooled = Some text /\ utf8_len text <= MAX_ROOT_SPOOL_BYTES.
Proof.
  destruct (spool_bounded _ _ _ spool_run) as (lines & dropped & Hs & Hsize & _). eexists. split; [exact Hs|exact Hsize].
Defined.
