(* ===== verification/Files.v ===== *)
(** * Files

    The file system as the modelled services use it: a map from the components
    of a path to a node, the walk of a path that follows symbolic links, [lstat],
    [stat], the component-wise open that follows none, and the changes of the
    directory tree. A path is a list of components below the root; a path given
    as text is split at its slashes. *)
From S2P Require Import Prelude PyVal PyStr PyText.

Inductive kind := Regular | Directory | Symlink (target : string) | Special.

#[export] Instance kind_eq_dec : EqDecision kind.
Proof. solve_decision. Defined.

(** A node, with the extended attributes the scanner reads: the label and the
    access list, or the failure to read them. *)
Record node := Node {
  n_kind : kind; n_mode : Z; n_uid : Z; n_gid : Z; n_ino : Z; n_data : string; n_mtime : Z; n_ctime : Z;
  n_label : res (option string); n_acl : res (option string) }.

Abbreviation path := (list string).
Abbreviation fs := (gmap path node).

(** [Path(raw).parts[1:]] of an absolute path, and [str(path)]. *)
Definition parts_of (raw : string) : path :=
  List.filter (fun c => negb (String.eqb c "" || String.eqb c ".")) (split "/" raw).

Definition path_text (p : path) : string := "/" +:+ join "/" p.

Definition is_absolute (raw : string) : bool := startswith "/" raw.

(** [p == root or root in p.parents]. *)
Fixpoint under (root p : path) : bool :=
  match root, p with
  | [], _ => true
  | c :: root, d :: p => String.eqb c d && under root p
  | _, [] => false
  end.

Definition is_dir_node (n : node) : bool := match n_kind n with Directory => true | _ => false end.
Definition is_reg_node (n : node) : bool := match n_kind n with Regular => true | _ => false end.
Definition is_link_node (n : node) : bool := match n_kind n with Symlink _ => true | _ => false end.

Definition no_entry (p : path) : exn := FileNotFoundError ("No such file or directory: " +:+ path_text p).
Definition not_a_directory (p : path) : exn := OSError ("Not a directory: " +:+ path_text p).
Definition too_many_links : exn := OSError "Too many levels of symbolic links".

(** The root directory is always there. *)
Definition root_node : node := Node Directory 493 0 0 2 "" 0 0 (Ok None) (Ok None).

Definition node_at (f : fs) (p : path) : option node := match p with [] => Some (default root_node (f !! p)) | _ => f !! p end.

(** The walk of the components [todo] from the directory [here]: the path of the
    node it leads to, which need not exist when it is the last. A walk of more
    than [WALK] steps fails, as a loop of links does. *)
Definition WALK : nat := Z.to_nat 4200.

Fixpoint walk (fuel : nat) (f : fs) (follow : bool) (here : path) (todo : list string) : res path :=
  match fuel with
  | O => Err too_many_links
  | S fuel =>
      match todo with
      | [] => Ok here
      | c :: rest =>
          if String.eqb c ".." then walk fuel f follow (removelast here) rest
          else
            let p := here ++ [c] in
            match f !! p with
            | None => if (length rest =? 0)%nat then Ok p else Err (no_entry p)
            | Some n =>
                match n_kind n with
                | Symlink target =>
                    if (length rest =? 0)%nat && negb follow then Ok p
                    else walk fuel f follow (if is_absolute target then [] else here) (parts_of target ++ rest)
                | Directory => walk fuel f follow p rest
                | _ => if (length rest =? 0)%nat then Ok p else Err (not_a_directory p)
                end
            end
      end
  end.

(** [path.lstat()], [path.stat()]. *)
Definition lstat (f : fs) (p : path) : res node :=
  q ← walk WALK f false [] p;
  match node_at f q with Some n => Ok n | None => Err (no_entry q) end.

Definition stat (f : fs) (p : path) : res node :=
  q ← walk WALK f true [] p;
  match node_at f q with Some n => Ok n | None => Err (no_entry q) end.

(** [path.resolve(strict=True)]. *)
Definition resolve_strict (f : fs) (p : path) : res path :=
  q ← walk WALK f true [] p;
  match node_at f q with Some _ => Ok q | None => Err (no_entry q) end.

(** [path.resolve(strict=False)]: what does not exist is kept as it is, and so is
    what is left in a loop of links. *)
Fixpoint walk_lax (fuel : nat) (f : fs) (here : path) (todo : list string) : path :=
  match fuel with
  | O => here ++ todo
  | S fuel =>
      match todo with
      | [] => here
      | c :: rest =>
          if String.eqb c ".." then walk_lax fuel f (removelast here) rest
          else
            let p := here ++ [c] in
            match f !! p with
            | Some n =>
                match n_kind n with
                | Symlink target => walk_lax fuel f (if is_absolute target then [] else here) (parts_of target ++ rest)
                | _ => walk_lax fuel f p rest
                end
            | None => walk_lax fuel f p rest
            end
      end
  end.

Definition resolve_lax (f : fs) (p : path) : path := walk_lax WALK f [] p.

(** [exists], [is_symlink], [is_file]: an error is the answer no. *)
Definition path_exists (f : fs) (p : path) : bool := match stat f p with Ok _ => true | Err _ => false end.
Definition path_is_link (f : fs) (p : path) : bool := match lstat f p with Ok n => is_link_node n | Err _ => false end.
Definition path_is_file (f : fs) (p : path) : bool := match stat f p with Ok n => is_reg_node n | Err _ => false end.

(** The open of one component of a descriptor's directory, without following a
    link. *)
Definition open_dir_at (f : fs) (here : path) (c : string) : res path :=
  if String.eqb c ".." then Ok (removelast here)
  else
    let p := here ++ [c] in
    match f !! p with
    | None => Err (no_entry p)
    | Some n => if is_dir_node n then Ok p else Err (not_a_directory p)
    end.

Definition open_at (f : fs) (here : path) (c : string) : res path :=
  if String.eqb c ".." then Ok (removelast here)
  else
    let p := here ++ [c] in
    match f !! p with
    | None => Err (no_entry p)
    | Some n => if is_link_node n then Err too_many_links else Ok p
    end.

(** [check] is made on every directory before its entry is opened. *)
Fixpoint open_nofollow (check : path -> res unit) (f : fs) (here : path) (todo : list string) : res path :=
  match todo with
  | [] => Err IndexError
  | [c] => _ ← check here; open_at f here c
  | c :: rest => _ ← check here; next ← open_dir_at f here c; open_nofollow check f next rest
  end.

Definition no_check (p : path) : res unit := Ok tt.

(** [_open_readonly_nofollow(path)]: the path of the opened inode. *)
Definition open_readonly (f : fs) (p : path) : res path := open_nofollow no_check f [] p.

(** ** Lemmas *)

Lemma under_refl p : under p p = true.
Proof. induction p as [|c p IH]; [done|]. cbn. by rewrite String.eqb_refl. Qed.

Lemma under_app root p : under root (root ++ p) = true.
Proof. induction root as [|c root IH]; [done|]. cbn. by rewrite String.eqb_refl. Qed.

Lemma under_spec root p : under root p = true <-> exists q, p = root ++ q.
Proof.
  split; [|intros (q & ->); apply under_app].
  revert p; induction root as [|c root IH]; intros p; [by exists p|]. destruct p as [|d p]; [done|]. cbn.
  intros [->%String.eqb_eq (q & ->)%IH]%andb_true_iff. by exists q.
Qed.

(** No component goes up. *)
Definition plain (p : path) : bool := forallb (fun c => negb (String.eqb c "..")) p.

(** Every proper prefix of [here ++ todo] below [here] is a directory, and the
    whole is no link. *)
Fixpoint direct (f : fs) (here : path) (todo : list string) : bool :=
  match todo with
  | [] => true
  | c :: rest =>
      match f !! (here ++ [c]) with
      | Some n => (if (length rest =? 0)%nat then negb (is_link_node n) else is_dir_node n) && direct f (here ++ [c]) rest
      | None => false
      end
  end.

(** A path opened without following links is where it says. *)
Lemma open_nofollow_direct check f here todo p :
  plain todo = true -> open_nofollow check f here todo = Ok p -> p = here ++ todo /\ direct f here todo = true.
Proof.
  revert here; induction todo as [|c rest IH]; intros here; [done|]. cbn [plain forallb].
  intros [Hc Hplain]%andb_true_iff. apply negb_true_iff in Hc. cbn [open_nofollow direct].
  destruct rest as [|c' rest].
  - intros Hrun. inv_ok. unfold open_at in Hrun. rewrite Hc in Hrun.
    destruct (f !! (here ++ [c])) as [n|]; [|done]. destruct (is_link_node n); [done|]. by injection Hrun as <-.
  - intros Hrun. inv_ok. unfold open_dir_at in Ha0. rewrite Hc in Ha0.
    destruct (f !! (here ++ [c])) as [n|]; [|done]. destruct (is_dir_node n) eqn:E; [|done]. injection Ha0 as <-.
    destruct (IH (here ++ [c]) Hplain Hrun) as [-> Hd]. cbn [length Nat.eqb]. rewrite <- app_assoc. split; [done|]. exact Hd.
Qed.

(** A direct path is walked to itself. *)
Lemma walk_direct fuel f follow here todo :
  plain todo = true -> direct f here todo = true -> (length todo < fuel)%nat -> walk fuel f follow here todo = Ok (here ++ todo).
Proof.
  revert here fuel; induction todo as [|c rest IH]; intros here fuel Hplain Hd Hfuel; destruct fuel as [|fuel]; cbn in Hfuel; try lia.
  - cbn. by rewrite app_nil_r.
  - cbn [plain forallb] in Hplain. apply andb_true_iff in Hplain as [Hc Hplain]. apply negb_true_iff in Hc.
    cbn [walk direct] in *. rewrite Hc. destruct (f !! (here ++ [c])) as [n|] eqn:E; [|done].
    apply andb_true_iff in Hd as [Hn Hd]. unfold is_link_node, is_dir_node in Hn.
    destruct rest as [|c' rest].
    + cbn [length Nat.eqb andb] in *. destruct (n_kind n); try done.
      destruct fuel as [|fuel]; [lia|]. done.
    + cbn [length Nat.eqb] in *. destruct (n_kind n); try done.
      rewrite (IH (here ++ [c]) fuel Hplain Hd) by (cbn; lia). by rewrite <- app_assoc.
Qed.

(** What [lstat] and [resolve_strict] walk to. *)
Lemma lstat_walk f p n : lstat f p = Ok n <-> exists q, walk WALK f false [] p = Ok q /\ node_at f q = Some n.
Proof.
  unfold lstat. generalize WALK. intros w. rewrite bind_Ok. split; intros (q & Hq & Hn); exists q; (split; [done|]).
  - destruct (node_at f q); [by injection Hn as ->|done].
  - by rewrite Hn.
Qed.

Lemma resolve_walk f p q : resolve_strict f p = Ok q <-> walk WALK f true [] p = Ok q /\ is_Some (node_at f q).
Proof.
  unfold resolve_strict. generalize WALK. intros w. rewrite bind_Ok. split.
  - intros (x & Hx & Hn). destruct (node_at f x) eqn:E; [|done]. injection Hn as <-. split; [done|by rewrite E].
  - intros [Hw [n Hn]]. exists q. by rewrite Hn.
Qed.
