(* ===== verification/ScanAccess.v ===== *)
(** * What a scan may read ([file_security.py])

    The access control of the scanner, which runs as root for an unprivileged
    caller: the search permission of a directory with its POSIX access list, the
    refusal of protected data, the checks of a selected path and of a path the
    scanner reported, and the pinning of the selected files by descriptors. The
    groups of an account are an argument. *)
From S2P Require Import Prelude PyVal PyStr PyText Files.

Definition PRIVATE_TMP_ROOTS : list path := [["tmp"]; ["var"; "tmp"]].

(** [_scan_xattr(source, name)]. *)
Definition _scan_xattr (attribute : res (option string)) : res (option string) :=
  match attribute with
  | Ok v => Ok v
  | Err _ => Err (PermissionError "The source access metadata could not be verified.")
  end.

(** [_reject_protected_scan(source)]: the type field of the label. *)
Definition protected_type (t : string) : bool :=
  startswith "greyward_as_resource_" t || member t ["greyward_as_auth_runtime_t"; "greyward_as_auth_shm_t"].

Definition protected (context : option string) : bool :=
  match context with
  | Some c => negb (String.eqb c "") && match split ":" c with _ :: _ :: t :: _ => protected_type t | _ => false end
  | None => false
  end.

Definition _reject_protected_scan (n : node) : res unit :=
  context ← _scan_xattr (n_label n);
  require (negb (protected context)) (PermissionError "Ordinary scanning does not read Protected Data resources.").

(** ** Access lists *)

(** [struct.unpack('<I', ...)] and [struct.iter_unpack('<HHI', ...)]. *)
Definition le16 (a b : ascii) : Z := ord a + 256 * ord b.
Definition le32 (a b c d : ascii) : Z := le16 a b + 65536 * le16 c d.

Record entry := Entry { tag : Z; perm : Z; identity : Z }.

Fixpoint unpack_entries (s : string) : list entry :=
  match s with
  | String a (String b (String c (String d (String e (String f (String g (String h r))))))) =>
      Entry (le16 a b) (le16 c d) (le32 e f g h) :: unpack_entries r
  | _ => []
  end.

Definition acl_version (s : string) : option Z :=
  match s with String a (String b (String c (String d _))) => Some (le32 a b c d) | _ => None end.

Definition first_perm (p : entry -> bool) (l : list entry) : option Z := perm <$> List.find p l.

Definition tagged (t : Z) (e : entry) : bool := tag e =? t.

Definition execute (perms : Z) : bool := negb (Z.land perms 1 =? 0).

(** The last part: the entries of the groups, then the others. *)
Definition group_search (entries : list entry) (mask : Z) (owner_group : Z) (groups : list Z) : bool :=
  let mine g := existsb (Z.eqb g) groups in
  let matched := map perm (List.filter (fun e => (tagged 4 e && mine owner_group) || (tagged 8 e && mine (identity e))) entries) in
  match matched with
  | [] => execute (default 0 (first_perm (tagged 32) entries))
  | _ => execute mask && existsb execute matched
  end.

(** [_caller_can_search(path, metadata, uid)]. *)
Definition _caller_can_search (groups : Z -> list Z) (uid : option Z) (n : node) : res bool :=
  match uid with
  | None => Ok true
  | Some uid =>
      if uid =? 0 then Ok true else
      acl ← _scan_xattr (n_acl n);
      match (match acl with Some "" => None | a => a end) with
      | Some a =>
          if (str_len a <? 4) || negb ((str_len a - 4) mod 8 =? 0) || negb (match acl_version a with Some v => v =? 2 | None => false end)
          then Ok false
          else
            let entries := unpack_entries (str_drop 4 a) in
            let mask := default 7 (first_perm (tagged 16) entries) in
            if n_uid n =? uid then Ok (execute (default 0 (first_perm (tagged 1) entries)))
            else match first_perm (fun e => tagged 2 e && (identity e =? uid)) entries with
                 | Some named => Ok (execute (Z.land named mask))
                 | None => Ok (group_search entries mask (n_gid n) (groups uid))
                 end
      | None =>
          if n_uid n =? uid then Ok (Z.testbit (n_mode n) 6)
          else Ok (group_search [Entry 4 (Z.land (Z.shiftr (n_mode n) 3) 7) 0; Entry 32 (Z.land (n_mode n) 7) 0] 7 (n_gid n) (groups uid))
      end
  end.

(** ** Selected paths *)

Definition LINKS_REFUSED : string := "Symlinks and empty paths are not valid scan sources.".
Definition TMP_REFUSED : string := "The selected source is not visible to the scanning service; /tmp and /var/tmp are private to it.".
Definition not_accessible : exn := PermissionError "The selected source is not accessible to the requesting user.".

Definition usable_text (raw : string) : bool :=
  negb (String.eqb (strip raw) "") && (str_len raw <=? 4096) && negb (has_char "000" raw).

Definition private_tmp (p : path) : bool := existsb (fun root => under root p) PRIVATE_TMP_ROOTS.

(** Two leading slashes are a root of their own. *)
Definition double_slash (raw : string) : bool := startswith "//" raw && negb (startswith "///" raw).

Section access.
Context (groups : Z -> list Z).

(** [_reject_protected_scan] and [_caller_can_search] on a directory. *)
Definition check_search (owner_uid : option Z) (n : node) : res unit :=
  _ ← _reject_protected_scan n;
  if is_dir_node n
  then ok ← _caller_can_search groups owner_uid n; require ok not_accessible
  else Ok tt.

(** The loop over the components of the selected path. *)
Fixpoint check_components (f : fs) (owner_uid : option Z) (here : path) (todo : list string) : res unit :=
  match todo with
  | [] => Ok tt
  | c :: rest =>
      let current := here ++ [c] in
      n ← lstat f current;
      _ ← require (negb (is_link_node n)) (ValueError LINKS_REFUSED);
      _ ← check_search owner_uid n;
      check_components f owner_uid current rest
  end.

Definition owner_bits (n : node) : bool := Z.testbit (n_mode n) 8 && (if is_dir_node n then Z.testbit (n_mode n) 6 else true).

Definition check_owner (f : fs) (owner_uid : option Z) (p : path) : res unit :=
  match owner_uid with
  | None => Ok tt
  | Some uid =>
      n ← stat f p;
      _ ← require (n_uid n =? uid) (PermissionError "The selected source is not owned by the requesting user.");
      require (owner_bits n) (PermissionError "The selected source is not readable by the requesting user.")
  end.

(** [_safe_path(raw, owner_uid=..., directory=...)]. *)
Definition _safe_path (f : fs) (owner_uid : option Z) (directory : bool) (raw : val) : res path :=
  match raw with
  | VStr raw =>
      _ ← require (usable_text raw) (ValueError LINKS_REFUSED);
      _ ← require (is_absolute raw) (ValueError "The selected source must be an absolute path.");
      let candidate := parts_of raw in
      _ ← require (double_slash raw || negb (private_tmp candidate)) (ValueError TMP_REFUSED);
      _ ← check_components f owner_uid [] candidate;
      resolved ← try_with (resolve_strict f candidate) is_os_error (fun _ => Err (ValueError "The selected source does not exist or is unavailable."));
      _ ← require (negb (private_tmp resolved)) (ValueError TMP_REFUSED);
      _ ← require (if directory then match stat f resolved with Ok n => is_dir_node n | Err _ => false end else path_exists f resolved)
            (ValueError (if directory then "The selected source is not a directory." else "The selected source does not exist."));
      _ ← check_owner f owner_uid resolved;
      Ok resolved
  | _ => Err (ValueError LINKS_REFUSED)
  end.

(** ** Detected paths *)

Definition detected_gone : exn := ValueError "The detected source is unavailable.".

(** The prefixes of a path, shortest first. *)
Fixpoint prefixes (here : path) (todo : list string) : list path :=
  match todo with [] => [] | c :: rest => (here ++ [c]) :: prefixes (here ++ [c]) rest end.

(** [_safe_detected_file(raw)]. *)
Definition _safe_detected_file (f : fs) (raw : string) : res path :=
  _ ← require (usable_text raw) detected_gone;
  _ ← require (is_absolute raw) (ValueError "The detected source must be an absolute path.");
  let candidate := parts_of raw in
  _ ← require (negb (existsb (path_is_link f) (prefixes [] candidate))) (ValueError "The detected source path contains a symlink.");
  resolved ← try_with (resolve_strict f candidate) is_os_error (fun _ => Err detected_gone);
  _ ← require (path_is_file f resolved && negb (path_is_link f resolved)) (ValueError "The detected source is no longer a regular file.");
  Ok resolved.

(** ** Descriptors *)

(** The check of every directory on the way to a scanned file. *)
Definition scan_check (f : fs) (uid : option Z) (here : path) : res unit :=
  match node_at f here with
  | Some n => check_search uid n
  | None => Err (no_entry here)
  end.

(** [_open_readonly_nofollow(source, scan_uid=..., scan_access=True)]. *)
Definition open_scanned (f : fs) (uid : option Z) (p : path) : res path := open_nofollow (scan_check f uid) f [] p.

(** Names in a directory, in the order of the map. *)
Definition children (f : fs) (p : path) : list path :=
  omap (fun kn => if bool_decide (removelast kn.1 = p) && negb (bool_decide (kn.1 = [])) then Some kn.1 else None) (map_to_list f).

(** What the collection of handles has so far: the pinned files, the skipped
    entries and the number of visited ones. *)
Record pinned := Pinned { handles : list path; skipped : nat; visited : nat }.

Definition skip_one (s : pinned) : pinned := Pinned (handles s) (S (skipped s)) (visited s).

(** The body of the loop on one source: the state and the children to visit.
    The walk of the children stops where the bound is reached. *)
Definition MAX_VISITED : nat := 8192.
Definition MAX_HANDLES : nat := 4096.

Definition pin_file (f : fs) (owner_uid : option Z) (source : path) : res bool :=
  descriptor ← open_scanned f owner_uid source;
  match node_at f descriptor with
  | None => Err (no_entry descriptor)
  | Some n =>
      _ ← _reject_protected_scan n;
      Ok (is_reg_node n && match owner_uid with Some uid => n_uid n =? uid | None => true end)
  end.

Definition visit (f : fs) (owner_uid : option Z) (folder : bool) (pending : nat) (source : path) (s : pinned) : res (pinned * list path) :=
  n ← lstat f source;
  _ ← _safe_path f owner_uid (is_dir_node n) (VStr (path_text source));
  if is_dir_node n && folder
  then
    let all := children f source in
    let room := (S MAX_VISITED - (pending + visited s))%nat in
    let added := take room all in
    Ok (if (length added <? length all)%nat then skip_one s else s, added)
  else if negb (is_reg_node n) then Ok (skip_one s, [])
  else
    pinned ← pin_file f owner_uid source;
    Ok (if pinned : bool then Pinned (handles s ++ [source]) (skipped s) (visited s) else skip_one s, []).

(** [_scan_handles(sources, owner_uid, folder)]; the last of [pending] is taken
    first. *)
Definition scan_caught (e : exn) : bool := is_os_error e || is_value_error e.

Fixpoint pin_loop (fuel : nat) (f : fs) (owner_uid : option Z) (folder : bool) (pending : list path) (s : pinned) : option (res pinned) :=
  match fuel with
  | O => None
  | S fuel =>
      match last pending with
      | None => Some (Ok s)
      | Some source =>
          let pending := removelast pending in
          let s := Pinned (handles s) (skipped s) (S (visited s)) in
          if (MAX_VISITED <? visited s)%nat || (MAX_HANDLES <=? length (handles s))%nat
          then Some (Ok (Pinned (handles s) (skipped s + length pending + 1) (visited s)))
          else
            match visit f owner_uid folder (length pending) source s with
            | Ok (s, more) => pin_loop fuel f owner_uid folder (pending ++ more) s
            | Err e => if scan_caught e then pin_loop fuel f owner_uid folder pending (skip_one s) else Some (Err e)
            end
      end
  end.

Definition _scan_handles (f : fs) (sources : list path) (owner_uid : option Z) (folder : bool) : res pinned :=
  default (Ok (Pinned [] 0 0)) (pin_loop (2 + MAX_VISITED) f owner_uid folder sources (Pinned [] 0 0)).
End access.
