(* ===== verification/ScanAccessProps.v ===== *)
(** * What a scan may read: properties

    The evaluation of an access list is that of POSIX.1e, an accepted path leads
    through directories the caller may search to a file he owns, and only such
    files are pinned. *)
From S2P Require Import Prelude PyVal PyStr Json JsonRound PyText Base64 Files ScanAccess.

(** ** Access lists *)

(** The permissions of an access list, by the class they are for. *)
Record acl := Acl {
  acl_owner : Z; acl_users : list (Z * Z); acl_group : Z; acl_groups : list (Z * Z); acl_mask : option Z; acl_other : Z }.

(** The binary form of the kernel: little-endian entries in the order of their
    tags, with -1 for the entries that name nobody. *)
Definition byte_string (n : nat) (z : Z) : string :=
  fold_right (fun i s => String (byte_char (Z.land (Z.shiftr z (8 * Z.of_nat i)) 255)) s) "" (seq 0 n).

Definition entry_bytes (e : entry) : string := byte_string 2 (tag e) +:+ byte_string 2 (perm e) +:+ byte_string 4 (identity e).

Definition NOBODY : Z := 4294967295.

Definition acl_entries (a : acl) : list entry :=
  [Entry 1 (acl_owner a) NOBODY] ++ map (fun up => Entry 2 up.2 up.1) (acl_users a)
  ++ [Entry 4 (acl_group a) NOBODY] ++ map (fun gp => Entry 8 gp.2 gp.1) (acl_groups a)
  ++ match acl_mask a with Some m => [Entry 16 m NOBODY] | None => [] end ++ [Entry 32 (acl_other a) NOBODY].

Definition acl_bytes (a : acl) : string := byte_string 4 2 +:+ fold_right (fun e s => entry_bytes e +:+ s) "" (acl_entries a).

(** The access check algorithm of POSIX.1e for the search permission of a process
    with user [uid] and groups [gs] on a directory of [owner] and [group]: the
    first class that applies decides, and the mask limits all but the owner and
    the others. *)
Definition posix_search (a : acl) (owner group : Z) (uid : Z) (gs : list Z) : bool :=
  let mask := default 7 (acl_mask a) in
  let member g := existsb (Z.eqb g) gs in
  if owner =? uid then execute (acl_owner a)
  else match List.find (fun up => up.1 =? uid) (acl_users a) with
       | Some up => execute (Z.land up.2 mask)
       | None =>
           let applicable := (if member group then [acl_group a] else []) ++ map snd (List.filter (fun gp => member gp.1) (acl_groups a)) in
           match applicable with
           | [] => execute (acl_other a)
           | _ => execute mask && existsb execute applicable
           end
       end.

Definition word32 (z : Z) : Prop := 0 <= z < 4294967296.
Definition bits3 (z : Z) : Prop := 0 <= z < 8.

Record acl_ok (a : acl) : Prop := {
  ok_owner : bits3 (acl_owner a); ok_users : Forall (fun up => word32 up.1 /\ bits3 up.2) (acl_users a);
  ok_group : bits3 (acl_group a); ok_groups : Forall (fun gp => word32 gp.1 /\ bits3 gp.2) (acl_groups a);
  ok_mask : match acl_mask a with Some m => bits3 m | None => True end; ok_other : bits3 (acl_other a) }.

Lemma ord_byte z : ord (byte_char (Z.land z 255)) = Z.land z 255.
Proof.
  unfold ord, byte_char. assert (0 <= Z.land z 255 < 256).
  { change 255 with (Z.ones 8). rewrite Z.land_ones by lia. by apply Z.mod_pos_bound. }
  rewrite N_ascii_embedding by lia. lia.
Qed.

Lemma byte_of z k : Z.land (Z.shiftr z (8 * Z.of_nat k)) 255 = (z / 2 ^ (8 * Z.of_nat k)) mod 256.
Proof. change 255 with (Z.ones 8). rewrite Z.land_ones by lia. by rewrite Z.shiftr_div_pow2 by lia. Qed.

Lemma le16_bytes z : 0 <= z < 65536 ->
  le16 (byte_char (Z.land (Z.shiftr z (8 * Z.of_nat 0)) 255)) (byte_char (Z.land (Z.shiftr z (8 * Z.of_nat 1)) 255)) = z.
Proof.
  intros Hz. unfold le16. rewrite !ord_byte, !byte_of. change (2 ^ (8 * Z.of_nat 0)) with 1. change (2 ^ (8 * Z.of_nat 1)) with 256.
  rewrite Z.div_1_r. pose proof (Z.div_mod z 256). rewrite (Z.mod_small (z / 256)); [lia|]. split; [apply Z.div_pos; lia|apply Z.div_lt_upper_bound; lia].
Qed.

Lemma le32_bytes z : word32 z ->
  le32 (byte_char (Z.land (Z.shiftr z (8 * Z.of_nat 0)) 255)) (byte_char (Z.land (Z.shiftr z (8 * Z.of_nat 1)) 255))
    (byte_char (Z.land (Z.shiftr z (8 * Z.of_nat 2)) 255)) (byte_char (Z.land (Z.shiftr z (8 * Z.of_nat 3)) 255)) = z.
Proof.
  unfold word32. intros Hz. unfold le32, le16. rewrite !ord_byte, !byte_of.
  change (2 ^ (8 * Z.of_nat 0)) with 1. change (2 ^ (8 * Z.of_nat 1)) with 256.
  change (2 ^ (8 * Z.of_nat 2)) with 65536. change (2 ^ (8 * Z.of_nat 3)) with 16777216. rewrite Z.div_1_r.
  assert (z / 65536 = z / 256 / 256) as -> by (by rewrite Z.div_div by lia).
  assert (z / 16777216 = z / 256 / 256 / 256) as -> by (by rewrite !Z.div_div by lia).
  pose proof (Z.div_mod z 256). pose proof (Z.div_mod (z / 256) 256). pose proof (Z.div_mod (z / 256 / 256) 256).
  assert (0 <= z / 256 / 256 / 256 < 256).
  { rewrite !Z.div_div by lia. split; [apply Z.div_pos; lia|apply Z.div_lt_upper_bound; lia]. }
  rewrite (Z.mod_small (z / 256 / 256 / 256)) by done. lia.
Qed.

Definition entry_ok (e : entry) : Prop := 0 <= tag e < 65536 /\ 0 <= perm e < 65536 /\ word32 (identity e).

Lemma string_app_empty s : "" +:+ s = s.
Proof. done. Qed.

Lemma unpack_entry e r : entry_ok e -> unpack_entries (entry_bytes e +:+ r) = e :: unpack_entries r.
Proof.
  destruct e as [t p i]. intros (Ht & Hp & Hi). unfold entry_bytes, byte_string. cbn [seq fold_right tag perm identity] in *.
  rewrite !string_app_assoc. repeat (rewrite string_app_cons || rewrite string_app_empty). cbn [unpack_entries]. by rewrite (le16_bytes t), (le16_bytes p), (le32_bytes i).
Qed.

Lemma unpack_bytes l : Forall entry_ok l -> unpack_entries (fold_right (fun e s => entry_bytes e +:+ s) "" l) = l.
Proof. induction 1 as [|e l He _ IH]; [done|]. cbn [fold_right]. by rewrite unpack_entry, IH. Qed.

Lemma acl_entries_ok a : acl_ok a -> Forall entry_ok (acl_entries a).
Proof.
  intros [Ho Hu Hg Hgs Hm Hot]. unfold acl_entries, bits3 in *.
  assert (forall t p i, 0 <= t < 65536 -> 0 <= p < 8 -> word32 i -> entry_ok (Entry t p i)) as Hentry.
  { intros t p i Ht Hp Hi. repeat split; cbn; try lia; apply Hi. }
  assert (word32 NOBODY) by (unfold word32, NOBODY; lia).
  repeat apply Forall_app_2; try (constructor; [by apply Hentry; try lia|constructor]).
  - apply Forall_map. eapply Forall_impl; [exact Hu|]. intros [u p] [? ?]. by apply Hentry; try lia.
  - apply Forall_map. eapply Forall_impl; [exact Hgs|]. intros [g p] [? ?]. by apply Hentry; try lia.
  - destruct (acl_mask a) as [m|]; [|constructor]. constructor; [by apply Hentry; try lia|constructor].
Qed.

Lemma entry_length e : String.length (entry_bytes e) = 8%nat.
Proof. done. Qed.

Lemma entries_length l : String.length (fold_right (fun e s => entry_bytes e +:+ s) "" l) = (8 * length l)%nat.
Proof.
  induction l as [|e l IH]; [done|]. cbn [fold_right]. rewrite length_app_s, entry_length, IH. cbn [length]. lia.
Qed.

(** Looking for an entry in the list of an access list. *)
Lemma find_app {A} (p : A -> bool) l k : List.find p (l ++ k) = match List.find p l with Some x => Some x | None => List.find p k end.
Proof. induction l as [|x l IH]; [done|]. cbn. destruct (p x); [done|apply IH]. Qed.

Lemma find_map {A B} (p : B -> bool) (f : A -> B) l : List.find p (map f l) = f <$> List.find (fun x => p (f x)) l.
Proof. induction l as [|x l IH]; [done|]. cbn. destruct (p (f x)); [done|apply IH]. Qed.

Lemma find_none {A} (p : A -> bool) l : (forall x, p x = false) -> List.find p l = None.
Proof. intros Hp. induction l as [|x l IH]; [done|]. cbn. by rewrite Hp. Qed.

Lemma filter_all_out {A} (p : A -> bool) l : (forall x, p x = false) -> List.filter p l = [].
Proof. intros Hp. induction l as [|x l IH]; [done|]. cbn. by rewrite Hp. Qed.

Lemma filter_map_entries {A} (p : entry -> bool) (f : A -> entry) l :
  List.filter p (map f l) = map f (List.filter (fun x => p (f x)) l).
Proof. induction l as [|x l IH]; [done|]. cbn. destruct (p (f x)); cbn; by rewrite IH. Qed.

Lemma mask_entry a : first_perm (tagged 16) (acl_entries a) = acl_mask a.
Proof.
  unfold first_perm, acl_entries. rewrite !find_app, !find_map. cbn [List.find tagged tag Z.eqb Pos.eqb].
  rewrite (find_none _ (acl_users a)), (find_none _ (acl_groups a)) by done. cbn. by destruct (acl_mask a).
Qed.

Lemma owner_entry a : first_perm (tagged 1) (acl_entries a) = Some (acl_owner a).
Proof. done. Qed.

Lemma other_entry a : first_perm (tagged 32) (acl_entries a) = Some (acl_other a).
Proof.
  unfold first_perm, acl_entries. rewrite !find_app, !find_map. cbn [List.find tagged tag Z.eqb Pos.eqb].
  rewrite (find_none _ (acl_users a)), (find_none _ (acl_groups a)) by done. cbn. by destruct (acl_mask a).
Qed.

Lemma named_entry a uid :
  first_perm (fun e => tagged 2 e && (identity e =? uid)) (acl_entries a) = snd <$> List.find (fun up => up.1 =? uid) (acl_users a).
Proof.
  unfold first_perm, acl_entries. rewrite !find_app, !find_map. cbn [List.find tagged tag identity Z.eqb Pos.eqb andb].
  destruct (List.find (fun up => up.1 =? uid) (acl_users a)) as [[u p]|] eqn:E; cbn; rewrite ?E; [done|].
  rewrite (find_none _ (acl_groups a)) by done. cbn. by destruct (acl_mask a).
Qed.

Lemma group_entries a group (gs : list Z) :
  let mine g := existsb (Z.eqb g) gs in
  map perm (List.filter (fun e => (tagged 4 e && mine group) || (tagged 8 e && mine (identity e))) (acl_entries a))
  = (if mine group then [acl_group a] else []) ++ map snd (List.filter (fun gp => mine gp.1) (acl_groups a)).
Proof.
  intros mine. unfold acl_entries. set (p := fun e => _). rewrite !List.filter_app, !filter_map_entries, !map_app.
  rewrite (filter_all_out _ (acl_users a)) by done. cbn [map app].
  assert (List.filter p [Entry 1 (acl_owner a) NOBODY] = []) as -> by done.
  assert (List.filter p [Entry 4 (acl_group a) NOBODY] = if mine group then [Entry 4 (acl_group a) NOBODY] else []) as ->.
  { unfold p. cbn. fold (mine group). rewrite orb_false_r. done. }
  assert (List.filter p (match acl_mask a with Some m => [Entry 16 m NOBODY] | None => [] end) = []) as -> by (by destruct (acl_mask a)).
  assert (List.filter p [Entry 32 (acl_other a) NOBODY] = []) as -> by done. cbn [map app]. rewrite app_nil_r, map_map.
  f_equal. by destruct (mine group).
Qed.

(** The access list a node has: its attribute, or the one its mode stands for. *)
Definition mode_acl (mode : Z) : acl :=
  Acl (Z.land (Z.shiftr mode 6) 7) [] (Z.land (Z.shiftr mode 3) 7) [] None (Z.land mode 7).

Definition has_acl (n : node) (a : acl) : Prop :=
  match n_acl n with
  | Ok (Some bytes) => acl_ok a /\ bytes = acl_bytes a
  | Ok None => a = mode_acl (n_mode n)
  | Err _ => False
  end.

Lemma execute_bit z : execute z = Z.testbit z 0.
Proof.
  unfold execute. change 1 with (Z.ones 1). rewrite Z.land_ones by lia. change (2 ^ 1) with 2.
  rewrite Z.bit0_odd, Zmod_odd. by destruct (Z.odd z).
Qed.

Lemma execute_owner mode : execute (Z.land (Z.shiftr mode 6) 7) = Z.testbit mode 6.
Proof. rewrite execute_bit, Z.land_spec, Z.shiftr_spec by lia. by rewrite andb_true_r. Qed.

Lemma acl_bytes_parts a :
  acl_version (acl_bytes a) = Some 2 /\ str_drop 4 (acl_bytes a) = fold_right (fun e s => entry_bytes e +:+ s) "" (acl_entries a)
  /\ str_len (acl_bytes a) = 4 + 8 * Z.of_nat (length (acl_entries a)) /\ exists c t, acl_bytes a = String c t.
Proof.
  unfold acl_bytes. set (rest := fold_right _ _ _). assert (String.length rest = (8 * length (acl_entries a))%nat) as Hlen by apply entries_length.
  clearbody rest. change (byte_string 4 2 +:+ rest) with (String "002" (String "000" (String "000" (String "000" rest)))).
  split; [done|]. split; [by destruct rest|]. split; [|by do 2 eexists]. unfold str_len. cbn [String.length]. lia.
Qed.

(** C19. The search permission the scanner grants a caller is the one the access
    check algorithm of POSIX.1e gives: the class of the owner, then a named
    user, then the groups, then the others, limited by the mask, read from the
    binary form of the list or from the mode. *)
Theorem search_is_posix (groups : Z -> list Z) (uid : Z) (n : node) (a : acl) :
  uid <> 0 -> has_acl n a ->
  _caller_can_search groups (Some uid) n = Ok (posix_search a (n_uid n) (n_gid n) uid (groups uid)).
Proof.
  intros Huid%Z.eqb_neq Hacl. unfold has_acl in Hacl. unfold _caller_can_search, _scan_xattr. rewrite Huid.
  destruct (n_acl n) as [[bytes|]|e]; [|subst a|done].
  - destruct Hacl as [Hok ->]. destruct (acl_bytes_parts a) as (Hv & Hd & Hl & c & t & Hc). cbn [mbind res_bind].
    assert ((match acl_bytes a with "" => None | String _ _ => Some (acl_bytes a) end) = Some (acl_bytes a)) as -> by (by rewrite Hc).
    rewrite Hv, Hd. assert ((str_len (acl_bytes a) <? 4) = false) as -> by (apply Z.ltb_ge; lia).
    assert ((str_len (acl_bytes a) - 4) mod 8 = 0) as ->.
    { rewrite Hl. replace (4 + 8 * Z.of_nat (length (acl_entries a)) - 4) with (Z.of_nat (length (acl_entries a)) * 8) by lia. by apply Z.mod_mul. }
    cbn [orb negb Z.eqb Pos.eqb]. rewrite unpack_bytes by by apply acl_entries_ok.
    rewrite mask_entry, owner_entry, named_entry. cbn [default from_option]. unfold posix_search.
    destruct (n_uid n =? uid); [done|]. destruct (List.find _ (acl_users a)) as [[u p]|]; [done|]. cbn [fmap option_fmap option_map].
    unfold group_search. rewrite (group_entries a), other_entry. cbn [default from_option]. by destruct (_ ++ _).
  - cbn [mbind res_bind]. unfold posix_search, group_search, mode_acl. cbn [acl_owner acl_users acl_group acl_groups acl_mask acl_other List.find].
    rewrite execute_owner. destruct (n_uid n =? uid); [done|].
    cbn [List.filter tagged tag Z.eqb Pos.eqb andb orb map default from_option first_perm List.find].
    destruct (existsb (Z.eqb (n_gid n)) _); cbn; done.
Qed.

(** * Selected paths and pinned files

    The walk of an accepted path is the lexical one through directories that
    were all checked, and a pinned file is the caller's own. *)

(** The path after one more component. *)
Definition step_to (q : path) (c : string) : path := if String.eqb c ".." then removelast q else q ++ [c].

Lemma under_snoc x q c : under x (q ++ [c]) = true -> x = q ++ [c] \/ under x q = true.
Proof.
  intros (r & Hr)%under_spec. destruct r as [|d r _] using rev_ind.
  - left. by rewrite app_nil_r in Hr.
  - right. rewrite app_assoc in Hr. apply app_inj_tail in Hr as [-> _]. apply under_app.
Qed.

Lemma under_removelast x q : under x (removelast q) = true -> under x q = true.
Proof.
  destruct q as [|c q _] using rev_ind; [done|]. rewrite removelast_last. intros (r & ->)%under_spec.
  rewrite <- app_assoc. apply under_app.
Qed.

Lemma node_at_below f p : p <> [] -> node_at f p = f !! p.
Proof. by destruct p. Qed.

Lemma snoc_nonempty {A} (q : list A) c : q ++ [c] <> [].
Proof. by destruct q. Qed.

Lemma cons_middle {A} (x : A) l k : l ++ x :: k = (l ++ [x]) ++ k.
Proof. by rewrite <- app_assoc. Qed.

Section paths.
Context (groups : Z -> list Z) (f : fs) (Hroot : forall n, node_at f [] = Some n -> is_dir_node n = true).

Lemma root_node_at : exists n, node_at f [] = Some n /\ is_dir_node n = true.
Proof. cbn. eexists. split; [reflexivity|]. by apply Hroot. Qed.

(** Every directory of [q], and [q] itself, was checked. *)
Definition checked (uid : option Z) (x : path) (n : node) : Prop :=
  node_at f x = Some n /\ is_link_node n = false /\ (x <> [] -> check_search groups uid n = Ok tt).

Definition clear_dir (uid : option Z) (q : path) : Prop :=
  forall x, under x q = true -> exists n, checked uid x n /\ is_dir_node n = true.

(** The walk of the components [here] leads to [q], whatever comes after. *)
Definition reaches (here q : path) : Prop :=
  forall fuel follow rest, rest <> [] -> walk fuel f follow [] (here ++ rest) = walk (fuel - length here) f follow q rest.

Lemma dir_no_link n : is_dir_node n = true -> is_link_node n = false.
Proof. unfold is_dir_node, is_link_node. by destruct (n_kind n). Qed.

Lemma clear_root uid : clear_dir uid [].
Proof.
  intros x Hx. destruct x; [|done]. destruct root_node_at as (n & Hn & Hd). exists n.
  split; [split; [done|split; [by apply dir_no_link|done]]|done].
Qed.

Lemma reaches_root : reaches [] [].
Proof. intros fuel follow rest _. by rewrite Nat.sub_0_r. Qed.

(** The walk of the last component. *)
Lemma walk_last fuel follow q c p :
  walk fuel f follow q [c] = Ok p -> follow = false \/ (forall n, node_at f (step_to q c) = Some n -> is_link_node n = false) -> p = step_to q c.
Proof.
  unfold step_to. destruct fuel as [|fuel]; [done|]. cbn [walk]. destruct (String.eqb c "..").
  - destruct fuel; [done|]. by intros [= <-] _.
  - rewrite node_at_below by apply snoc_nonempty. destruct (f !! (q ++ [c])) as [n|] eqn:E.
    + cbn [length Nat.eqb andb]. destruct (n_kind n) as [| |target|] eqn:Hk.
      * by intros [= <-] _.
      * destruct fuel; [done|]. by intros [= <-] _.
      * intros Hw [->|Hn]; [by injection Hw as <-|]. specialize (Hn n eq_refl). unfold is_link_node in Hn. by rewrite Hk in Hn.
      * by intros [= <-] _.
    + by intros [= <-] _.
Qed.

(** One step of the loop over the components. *)
Lemma component_step uid here q c n :
  reaches here q -> clear_dir uid q -> lstat f (here ++ [c]) = Ok n -> is_link_node n = false -> check_search groups uid n = Ok tt ->
  checked uid (step_to q c) n /\ (is_dir_node n = true -> clear_dir uid (step_to q c) /\ reaches (here ++ [c]) (step_to q c))
  /\ (is_dir_node n = false -> forall fuel follow rest, rest <> [] -> exists e, walk fuel f follow [] ((here ++ [c]) ++ rest) = Err e).
Proof.
  intros Hreach Hclear Hl Hlink Hcheck. apply lstat_walk in Hl as (a & Ha & Hm). revert Ha. generalize WALK. intros w Ha.
  rewrite (Hreach _ _ [c]) in Ha by done. apply walk_last in Ha; [|by left]. subst a.
  split; [done|]. unfold step_to in *. split.
  - intros Hdir. destruct (String.eqb c "..") eqn:Ec.
    + split; [intros x Hx; apply Hclear; by apply under_removelast|].
      intros fuel follow rest Hrest. rewrite <- app_assoc, Hreach by done. cbn [app]. rewrite length_app. cbn [length].
      destruct (fuel - length here)%nat as [|k] eqn:Ek; [by replace (fuel - (length here + 1))%nat with 0%nat by lia|].
      cbn [walk]. rewrite Ec. by replace (fuel - (length here + 1))%nat with k by lia.
    + split.
      * intros x [->|Hx]%under_snoc; [|by apply Hclear]. by exists n.
      * intros fuel follow rest Hrest. rewrite <- app_assoc, Hreach by done. cbn [app]. rewrite length_app. cbn [length].
        destruct (fuel - length here)%nat as [|k] eqn:Ek; [by replace (fuel - (length here + 1))%nat with 0%nat by lia|].
        cbn [walk]. rewrite Ec. rewrite node_at_below in Hm by apply snoc_nonempty. rewrite Hm.
        unfold is_dir_node in Hdir. destruct (n_kind n); try done. by replace (fuel - (length here + 1))%nat with k by lia.
  - intros Hdir fuel follow rest Hrest. rewrite <- app_assoc, Hreach by done. cbn [app].
    destruct (fuel - length here)%nat as [|k]; [by eexists|]. cbn [walk]. destruct (String.eqb c "..") eqn:Ec.
    + exfalso. destruct (Hclear (removelast q)) as (m & (Hm' & _) & Hdm).
      { apply under_removelast, under_refl. } congruence.
    + rewrite node_at_below in Hm by apply snoc_nonempty. rewrite Hm. unfold is_dir_node, is_link_node in *.
      destruct rest; [done|]. cbn [length Nat.eqb]. destruct (n_kind n); try done; by eexists.
Qed.

Lemma check_cons uid here c rest :
  check_components groups f uid here (c :: rest) = Ok tt <->
  exists n, lstat f (here ++ [c]) = Ok n /\ is_link_node n = false /\ check_search groups uid n = Ok tt
    /\ check_components groups f uid (here ++ [c]) rest = Ok tt.
Proof.
  cbn [check_components]. generalize (lstat f (here ++ [c])). intros l. split.
  - intros Hcheck. inv_ok. apply negb_true_iff in Ha0. destruct a1. eauto.
  - intros (n & -> & Hl & Hs & Hc). cbn. rewrite Hl, Hs. exact Hc.
Qed.

(** What the loop establishes of the whole path. *)
Lemma components_checked uid here q todo p :
  reaches here q -> clear_dir uid q -> todo <> [] -> check_components groups f uid here todo = Ok tt ->
  resolve_strict f (here ++ todo) = Ok p ->
  (exists n, checked uid p n) /\ (p = [] \/ clear_dir uid (removelast p)) /\ (length p <= length q + length todo)%nat
  /\ (plain q = true -> plain p = true).
Proof.
  revert here q; induction todo as [|c rest IH]; intros here q Hreach Hclear Hne Hcheck Hres; [done|].
  apply check_cons in Hcheck as (a & Ha & Ha0 & Ha1 & Hcheck).
  destruct (component_step uid here q c a Hreach Hclear Ha Ha0 Ha1) as (Hn & Hdir & Hnodir).
  assert (length (step_to q c) <= S (length q))%nat as Hlen.
  { unfold step_to. destruct (String.eqb c ".."); [|rewrite length_app; cbn; lia].
    destruct q as [|d q _] using rev_ind; [cbn; lia|]. rewrite removelast_last, length_app. lia. }
  assert (plain q = true -> plain (step_to q c) = true) as Hplain.
  { unfold step_to, plain. intros Hq. destruct (String.eqb c "..") eqn:Ec.
    - destruct q as [|d q _] using rev_ind; [done|]. rewrite removelast_last. rewrite forallb_app in Hq. by apply andb_true_iff in Hq as [? _].
    - rewrite forallb_app, Hq. cbn. by rewrite Ec. }
  destruct rest as [|c' rest].
  - apply resolve_walk in Hres as [Hres _]. revert Hres. generalize WALK. intros w Hres.
    rewrite (Hreach _ _ [c]) in Hres by done.
    assert (p = step_to q c) as ->.
    { eapply walk_last; [exact Hres|]. right. intros m Hm. destruct Hn as (Hn & Hl & _). congruence. }
    split; [eauto|].
    split; [|split; [cbn; lia|done]].
    unfold step_to. destruct (String.eqb c "..").
    + right. intros x Hx. apply Hclear. by do 2 apply under_removelast.
    + right. by rewrite removelast_last.
  - destruct (is_dir_node a) eqn:Ed.
    + destruct (Hdir eq_refl) as [Hc Hr]. rewrite (cons_middle c here) in Hres.
      destruct (IH (here ++ [c]) (step_to q c) Hr Hc ltac:(done) Hcheck Hres) as (H1 & H2 & H3 & H4).
      split; [done|]. split; [done|]. split; [cbn in *; lia|auto].
    + exfalso. apply check_cons in Hcheck as (m & Hm & _).
      apply lstat_walk in Hm as (x & Hx & _). revert Hx. generalize WALK. intros w Hx.
      destruct (Hnodir eq_refl w false [c'] ltac:(done)) as (e & He). rewrite He in Hx. discriminate Hx.
Qed.

(** A path below checked directories is direct. *)
Lemma clear_direct uid here todo :
  (todo = [] \/ clear_dir uid (here ++ removelast todo)) -> (exists n, checked uid (here ++ todo) n) -> direct f here todo = true.
Proof.
  revert here; induction todo as [|c rest IH]; intros here Hclear (n & Hn); [done|]. destruct Hclear as [|Hclear]; [done|].
  cbn [direct]. destruct rest as [|c' rest].
  - destruct Hn as (Hn & Hl & _). rewrite node_at_below in Hn by apply snoc_nonempty. rewrite Hn. cbn. by rewrite Hl.
  - change (removelast (c :: c' :: rest)) with (c :: removelast (c' :: rest)) in Hclear. rewrite cons_middle in Hclear.
    destruct (Hclear (here ++ [c]) (under_app _ _)) as (m & (Hm & _) & Hd). rewrite node_at_below in Hm by apply snoc_nonempty.
    rewrite Hm. cbn [length Nat.eqb]. rewrite Hd. apply IH; [by right|]. exists n. by rewrite cons_middle in Hn.
Qed.
End paths.

Lemma split_length c s : (length (split c s) <= S (String.length s))%nat.
Proof. induction s as [|a s IH]; [done|]. cbn. destruct (Ascii.eqb a c); cbn; [lia|]. destruct (split c s); cbn in *; lia. Qed.

Lemma parts_of_length raw : (length (parts_of raw) <= S (String.length raw))%nat.
Proof. unfold parts_of. etrans; [apply List.filter_length_le|apply split_length]. Qed.

Lemma walk_bound : WALK = Z.to_nat 4200.
Proof. done. Qed.

Lemma walk_nothing f follow : walk WALK f follow [] [] = Ok [].
Proof.
  assert (exists k, WALK = S k) as (k & ->); [|done]. exists (Nat.pred WALK). rewrite walk_bound. lia.
Qed.

Lemma walk_room n : (n <= 4097)%nat -> (n < WALK)%nat.
Proof. rewrite walk_bound. lia. Qed.

Lemma stat_direct f p n :
  plain p = true -> direct f [] p = true -> (length p <= 4097)%nat -> node_at f p = Some n -> stat f p = Ok n.
Proof.
  intros Hplain Hd Hlen%walk_room Hn. unfold stat. revert Hlen. generalize WALK. intros w Hlen.
  rewrite (walk_direct w f true [] p Hplain Hd Hlen). cbn [mbind res_bind app]. by rewrite Hn.
Qed.

Lemma owner_checked f uid p n : stat f p = Ok n -> check_owner f (Some uid) p = Ok tt -> n_uid n = uid /\ owner_bits n = true.
Proof.
  unfold check_owner. generalize (stat f p). intros st ->. cbn [mbind res_bind]. intros Hown. inv_ok. by rewrite Z.eqb_eq in Ha.
Qed.

(** The ancestors of [p] are directories the caller may search. *)
Definition ancestors_searchable (groups : Z -> list Z) (f : fs) (uid : option Z) (p : path) : Prop :=
  p = [] \/ clear_dir groups f uid (removelast p).

Definition root_is_directory (f : fs) : Prop := forall n, node_at f [] = Some n -> is_dir_node n = true.

Lemma safe_path_parts (groups : Z -> list Z) f owner directory raw p :
  _safe_path groups f owner directory (VStr raw) = Ok p ->
  str_len raw <= 4096 /\ check_components groups f owner [] (parts_of raw) = Ok tt /\ resolve_strict f (parts_of raw) = Ok p
  /\ private_tmp p = false /\ check_owner f owner p = Ok tt.
Proof.
  unfold _safe_path. generalize (resolve_strict f (parts_of raw)), (stat f p), (path_exists f p). intros r st ex Hrun.
  inv_ok. unfold usable_text in Ha. rewrite !andb_true_iff in Ha. apply try_with_Ok in Ha3 as [Ha3|(e & _ & _ & Ha3)]; [|done].
  subst a3. destruct a2, a6.
  split; [lia|]. repeat split; [exact Ha2|exact Ha3|by apply negb_true_iff|exact Ha6].
Qed.

Lemma safe_path_checked (groups : Z -> list Z) f owner directory raw p :
  root_is_directory f -> _safe_path groups f owner directory (VStr raw) = Ok p ->
  (exists n, checked groups f owner p n) /\ ancestors_searchable groups f owner p /\ plain p = true /\ (length p <= 4097)%nat.
Proof.
  intros Hroot (Hlen & Hcheck & Hres & _)%safe_path_parts. pose proof (parts_of_length raw) as Hparts.
  destruct (parts_of raw) as [|c rest] eqn:E.
  - apply resolve_walk in Hres as [Hres _]. rewrite walk_nothing in Hres. injection Hres as <-.
    split; [|split; [by left|split; [done|cbn; lia]]]. destruct (clear_root groups f Hroot owner [] eq_refl) as (n & Hn & _). by exists n.
  - destruct (components_checked groups f owner [] [] (c :: rest) p) as (Hn & Hclear & Hl & Hplain);
      [apply reaches_root|by apply clear_root|done|exact Hcheck|exact Hres|].
    split; [done|]. split; [done|]. split; [by apply Hplain|]. unfold str_len in Hlen. cbn [length] in *. lia.
Qed.

(** C17. A path the scanner accepts from a caller is not in the private temporary
    directories and names an entry he owns and can read, no link, with no label
    of protected data, and every directory on the way to it is one he may search
    and no link either. *)
Theorem safe_path_sound (groups : Z -> list Z) (f : fs) (uid : Z) (directory : bool) (raw : string) (p : path) :
  root_is_directory f -> _safe_path groups f (Some uid) directory (VStr raw) = Ok p ->
  private_tmp p = false /\ ancestors_searchable groups f (Some uid) p
  /\ exists n, node_at f p = Some n /\ is_link_node n = false /\ n_uid n = uid /\ owner_bits n = true
       /\ (p <> [] -> protected match n_label n with Ok c => c | Err _ => None end = false).
Proof.
  intros Hroot Hrun. destruct (safe_path_checked _ _ _ _ _ _ Hroot Hrun) as ((n & Hn & Hl & Hc) & Hanc & Hplain & Hlen).
  apply safe_path_parts in Hrun as (_ & _ & _ & Htmp & Hown). split; [done|]. split; [done|]. exists n.
  assert (stat f p = Ok n) as Hstat.
  { apply stat_direct; [done| |done|done]. apply (clear_direct groups f (Some uid) [] p); [exact Hanc|by exists n]. }
  destruct (owner_checked _ _ _ _ Hstat Hown) as [Hu Hb]. split; [done|]. split; [done|]. split; [done|]. split; [done|]. intros Hne. specialize (Hc Hne). unfold check_search, _reject_protected_scan, _scan_xattr in Hc.
  destruct (n_label n); [|done]. cbn in Hc. apply bind_Ok in Hc as (u & Hc & _). apply require_Ok in Hc. by apply negb_true_iff in Hc.
Qed.

(** ** Pinned files *)

(** The walk without links checks every directory it goes through. *)
Lemma open_nofollow_checks check f here todo p x y :
  plain todo = true -> open_nofollow check f here todo = Ok p -> todo = x ++ y -> y <> [] -> check (here ++ x) = Ok tt.
Proof.
  revert here x; induction todo as [|c rest IH]; intros here x Hplain Hrun Htodo Hy; [done|].
  cbn [plain forallb] in Hplain. apply andb_true_iff in Hplain as [Hc Hplain]. apply negb_true_iff in Hc.
  destruct x as [|d x].
  - rewrite app_nil_r. cbn [open_nofollow] in Hrun. destruct rest; inv_ok; by destruct a.
  - injection Htodo as <- Hrest. destruct rest as [|c' rest]; [by destruct x, y|]. cbn [open_nofollow] in Hrun. inv_ok.
    assert (a0 = here ++ [c]) as ->.
    { unfold open_dir_at in Ha0. rewrite Hc in Ha0. destruct (f !! (here ++ [c])) as [n|]; [|done]. destruct (is_dir_node n); [|done]. by injection Ha0. }
    rewrite cons_middle. by apply IH.
Qed.

(** A file of the caller, reached through directories he may search. *)
Definition own_file (groups : Z -> list Z) (f : fs) (uid : Z) (h : path) : Prop :=
  direct f [] h = true
  /\ (exists n, node_at f h = Some n /\ is_reg_node n = true /\ n_uid n = uid /\ protected match n_label n with Ok c => c | Err _ => None end = false)
  /\ forall x y, h = x ++ y -> y <> [] -> scan_check groups f (Some uid) x = Ok tt.

Definition well_named (f : fs) : Prop := forall p n, f !! p = Some n -> plain p = true.

Section pin.
Context (groups : Z -> list Z) (f : fs) (uid : Z) (folder : bool) (Hnamed : well_named f).

Lemma pinned_own source : plain source = true -> pin_file groups f (Some uid) source = Ok true -> own_file groups f uid source.
Proof.
  intros Hplain. unfold pin_file, open_scanned. intros Hrun. apply bind_Ok in Hrun as (d & Hd & Hrun).
  destruct (open_nofollow_direct _ _ _ _ _ Hplain Hd) as [-> Hdir]. cbn [app] in Hrun.
  destruct (node_at f source) as [n|] eqn:En; [|done]. inv_ok. apply andb_true_iff in Hrun as [Hreg Hown].
  split; [done|]. split.
  - exists n. split; [done|]. split; [done|]. split; [lia|]. unfold _reject_protected_scan, _scan_xattr in Ha.
    destruct (n_label n); [|done]. cbn in Ha. apply require_Ok in Ha. by apply negb_true_iff in Ha.
  - intros x y -> Hy. apply (open_nofollow_checks _ _ _ _ _ x y Hplain Hd eq_refl Hy).
Qed.

Lemma children_plain p : Forall (fun q => plain q = true) (children f p).
Proof.
  apply List.Forall_forall. intros q Hq. apply list_elem_of_In, list_elem_of_omap in Hq as ([k n] & Hk & Hq).
  apply elem_of_map_to_list in Hk. cbn in Hq. destruct (_ && _); [|done]. injection Hq as <-. by apply (Hnamed k n).
Qed.

(** What one source adds: itself, where it is the caller's file. *)
Lemma visit_own pending source s s' more :
  plain source = true -> visit groups f (Some uid) folder pending source s = Ok (s', more) ->
  visited s' = visited s /\ Forall (fun q => plain q = true) more
  /\ (handles s' = handles s \/ (handles s' = handles s ++ [source] /\ own_file groups f uid source)).
Proof.
  intros Hplain. unfold visit. generalize (lstat f source). intros l Hrun. apply bind_Ok in Hrun as (n & _ & Hrun).
  apply bind_Ok in Hrun as (p & _ & Hrun). destruct (is_dir_node n && folder).
  - injection Hrun as <- <-. split; [by destruct (_ <? _)%nat|]. split; [|left; by destruct (_ <? _)%nat].
    apply Forall_take, children_plain.
  - destruct (negb (is_reg_node n)); [injection Hrun as <- <-; by auto|].
    apply bind_Ok in Hrun as (pinned & Hpin & Hrun). injection Hrun as <- <-. destruct pinned; [|by auto].
    split; [done|]. split; [done|]. right. split; [done|]. by apply pinned_own.
Qed.

Definition all_own (s : pinned) : Prop := Forall (own_file groups f uid) (handles s) /\ (length (handles s) <= MAX_HANDLES)%nat.

Lemma pin_loop_own fuel pending s s' :
  Forall (fun q => plain q = true) pending -> all_own s -> pin_loop groups fuel f (Some uid) folder pending s = Some (Ok s') -> all_own s'.
Proof.
  revert pending s; induction fuel as [|fuel IH]; intros pending s Hpend Hs; [done|]. cbn [pin_loop].
  destruct pending as [|source pending _] using rev_ind; [by intros [= <-]|]. rewrite last_snoc, removelast_last.
  apply Forall_app in Hpend as [Hpend Hsource]. apply Forall_cons in Hsource as [Hsource _].
  destruct ((_ <? _)%nat || _) eqn:Ebound; [by intros [= <-]|]. apply orb_false_iff in Ebound as [_ Ebound%Nat.leb_gt]. cbn [handles] in Ebound.
  destruct (visit _ _ _ _ _ _ _) as [[s1 more]|e] eqn:Ev.
  - apply visit_own in Ev as (_ & Hmore & Hh); [|done]. apply IH; [by apply Forall_app_2|]. cbn [handles] in Hh.
    destruct Hs as [Hf Hlen]. destruct Hh as [Hh|[Hh Hown]]; unfold all_own; rewrite Hh; [done|]. split; [by apply Forall_app_2, Forall_singleton|].
    rewrite length_app. cbn [length]. lia.
  - destruct (scan_caught e); [|done]. by apply IH.
Qed.

Lemma pin_loop_ends fuel pending s :
  (1 <= fuel)%nat -> (MAX_VISITED + 1 <= fuel + visited s)%nat -> exists r, pin_loop groups fuel f (Some uid) folder pending s = Some r.
Proof.
  revert pending s; induction fuel as [|fuel IH]; intros pending s Hpos Hfuel; [lia|]. cbn [pin_loop].
  destruct (last pending) as [source|]; [|by eexists]. cbn [visited handles skipped].
  destruct ((_ <? _)%nat || _) eqn:Ebound; [by eexists|]. apply orb_false_iff in Ebound as [Ebound%Nat.ltb_ge _].
  destruct (visit _ _ _ _ _ _ _) as [[s1 more]|e] eqn:Ev.
  - assert (visited s1 = S (visited s)) as Hv.
    { revert Ev. unfold visit. generalize (lstat f source). intros l Hrun. apply bind_Ok in Hrun as (n & _ & Hrun).
      apply bind_Ok in Hrun as (p & _ & Hrun). destruct (is_dir_node n && folder).
      - injection Hrun as <- _. by destruct (_ <? _)%nat.
      - destruct (negb (is_reg_node n)); [by injection Hrun as <- _|]. apply bind_Ok in Hrun as (b & _ & Hrun). injection Hrun as <- _. by destruct b. }
    apply IH; lia.
  - destruct (scan_caught e); [|by eexists]. apply IH; cbn [visited skip_one]; lia.
Qed.
End pin.

(** C18. The collection of the files to scan ends, and hands the scanner at most
    4096 descriptors, each of a regular file of the caller with no label of
    protected data, opened without following a link through directories the
    caller may search. *)
Theorem pinned_files (groups : Z -> list Z) (f : fs) (uid : Z) (folder : bool) (sources : list path) :
  well_named f -> Forall (fun q => plain q = true) sources ->
  exists r, pin_loop groups (2 + MAX_VISITED) f (Some uid) folder sources (Pinned [] 0 0) = Some r
  /\ _scan_handles groups f sources (Some uid) folder = r
  /\ forall s, r = Ok s -> Forall (own_file groups f uid) (handles s) /\ (length (handles s) <= MAX_HANDLES)%nat.
Proof.
  intros Hnamed Hsources. unfold _scan_handles. destruct (pin_loop_ends groups f uid folder (2 + MAX_VISITED) sources (Pinned [] 0 0)) as (r & Hr).
  { lia. } { cbn [visited]. lia. }
  exists r. rewrite Hr. split; [done|]. split; [done|]. intros s ->. eapply pin_loop_own; [exact Hnamed|exact Hsources| |exact Hr].
  split; [constructor|cbn [handles length]; lia].
Qed.

(** ** Examples *)

(** A home directory another account may search through its access list, with a
    file of its owner in it. *)
Definition shared_acl : acl := Acl 7 [(1001, 7); (1002, 6)] 0 [(50, 5)] (Some 5) 0.

Definition home : fs :=
  list_to_map
    [(["home"], Node Directory 493 0 0 10 "" 0 0 (Ok (Some "system_u:object_r:home_root_t:s0")) (Ok None));
     (["home"; "ann"], Node Directory 448 1000 1000 11 "" 0 0 (Ok None) (Ok (Some (acl_bytes shared_acl))));
     (["home"; "ann"; "notes.txt"], Node Regular 420 1000 1000 12 "text" 0 0 (Ok None) (Ok None));
     (["home"; "ann"; "bob.txt"], Node Regular 420 1001 1001 13 "text" 0 0 (Ok None) (Ok None));
     (["home"; "ann"; "link"], Node (Symlink "notes.txt") 511 1000 1000 14 "" 0 0 (Ok None) (Ok None))].

Definition memberships (uid : Z) : list Z := if uid =? 1003 then [50] else [uid].

Lemma shared_acl_ok : acl_ok shared_acl.
Proof. unfold shared_acl. split; cbn; unfold bits3, word32; repeat constructor; cbn; lia. Qed.

(** The mask takes the search permission of no one here but the named user whose
    entry has none. *)
Lemma search_is_posix_witness :
  exists n, home !! ["home"; "ann"] = Some n
  /\ map (fun uid => _caller_can_search memberships (Some uid) n) [1000; 1001; 1002; 1003; 1004]
     = [Ok true; Ok true; Ok false; Ok true; Ok false]
  /\ _caller_can_search memberships (Some 1003) n = Ok (posix_search shared_acl (n_uid n) (n_gid n) 1003 [50]).
Proof.
  eexists. split; [reflexivity|]. split; [vm_compute; reflexivity|].
  apply (search_is_posix memberships 1003); [lia|]. split; [exact shared_acl_ok|reflexivity].
Defined.

Lemma home_root : root_is_directory home.
Proof. intros n Hn. vm_compute in Hn. by injection Hn as <-. Qed.

Lemma safe_path_sound_witness :
  _safe_path memberships home (Some 1000) false (VStr "/home/ann/./notes.txt") = Ok ["home"; "ann"; "notes.txt"]
  /\ private_tmp ["home"; "ann"; "notes.txt"] = false
  /\ ancestors_searchable memberships home (Some 1000) ["home"; "ann"; "notes.txt"]
  /\ map (fun raw => match _safe_path memberships home (Some 1000) false (VStr raw) with Ok _ => "" | Err e => exn_text e end)
       ["/home/ann/bob.txt"; "/home/ann/link"; "/tmp/notes.txt"; "notes.txt"; "/home/ann/none"]
     = ["The selected source is not owned by the requesting user."; LINKS_REFUSED; TMP_REFUSED;
        "The selected source must be an absolute path."; "No such file or directory: /home/ann/none"].
Proof.
  assert (_safe_path memberships home (Some 1000) false (VStr "/home/ann/./notes.txt") = Ok ["home"; "ann"; "notes.txt"]) as Hrun by (vm_compute; reflexivity).
  destruct (safe_path_sound memberships home 1000 false "/home/ann/./notes.txt" _ home_root Hrun) as (Htmp & Hanc & _).
  split; [exact Hrun|]. split; [exact Htmp|]. split; [exact Hanc|]. vm_compute. reflexivity.
Defined.

Lemma home_named : well_named home.
Proof.
  intros p n Hp. unfold home in Hp. apply elem_of_list_to_map_2 in Hp. repeat (apply elem_of_cons in Hp as [[= -> _]|Hp]; [reflexivity|]).
  by apply elem_of_nil in Hp.
Qed.

Lemma pinned_files_witness :
  exists s, _scan_handles memberships home [["home"; "ann"]] (Some 1000) true = Ok s
  /\ handles s = [["home"; "ann"; "notes.txt"]] /\ skipped s = 2%nat /\ visited s = 4%nat
  /\ Forall (own_file memberships home 1000) (handles s).
Proof.
  destruct (pinned_files memberships home 1000 true [["home"; "ann"]] home_named) as (r & _ & Hr & Hown).
  { repeat constructor. }
  assert (_scan_handles memberships home [["home"; "ann"]] (Some 1000) true = Ok (Pinned [["home"; "ann"; "notes.txt"]] 2 4)) as Hrun by (vm_compute; reflexivity).
  rewrite Hrun in Hr. exists (Pinned [["home"; "ann"; "notes.txt"]] 2 4). split; [exact Hrun|]. repeat (split; [reflexivity|]).
  by apply Hown.
Defined.
