(* ===== verification/ScanReceipts.v ===== *)
(** * Scan receipts ([scan_cache.py])

    What is kept of a finished scan: the fingerprint of the scanned tree, the
    generation of the definitions and the result, and what may be said of the
    same path later. The digest is an argument. *)
From S2P Require Import Prelude PyVal PyStr Json PyText TelemetryValues Sql TelemetryStore Files ScanAccess JsonRound KeyedTables ScanAccessProps.

Class Sha256 := { sha256 : string -> string }.

Definition MAX_TREE_ENTRIES : nat := Z.to_nat 4096.
Definition POLICY_GENERATION : string := "scope-1".

(** ** Fingerprints *)

(** [metadata.st_mode]: the type of the node and its permissions; the size of a
    file is that of its content. All nodes are on one device. *)
Definition type_bits (k : kind) : Z :=
  match k with Regular => 32768 | Directory => 16384 | Symlink _ => 40960 | Special => 4096 end.

Definition st_mode (n : node) : Z := type_bits (n_kind n) + n_mode n.
Definition st_size (n : node) : Z := str_len (n_data n).
Definition ST_DEV : Z := 1.

(** [str(current.relative_to(path.parent))]. *)
Definition relative_text (base current : path) : string :=
  match drop (length (removelast base)) current with [] => "." | p => join "/" p end.

(** What the fingerprint takes of an entry. *)
Record stamped := Stamped { s_name : string; s_ino : Z; s_mode : Z; s_size : Z; s_mtime : Z; s_ctime : Z }.

Definition stamp_of (base : path) (e : path * node) : stamped :=
  Stamped (relative_text base e.1) (n_ino e.2) (st_mode e.2) (st_size e.2) (n_mtime e.2) (n_ctime e.2).

(** [json.dumps(...)] of the tuple, with the default separators. *)
Definition stamp_text (s : stamped) : string :=
  "[" +:+ join ", " (dump_string (s_name s) :: map str_of_Z [ST_DEV; s_ino s; s_mode s; s_size s; s_mtime s; s_ctime s]) +:+ "]".

Definition tree_text (base : path) (l : list (path * node)) : string :=
  fold_right (fun e s => stamp_text (stamp_of base e) +:+ s) "" l.

(** The names in a directory, as [os.scandir] lists them. *)
Definition scandir (f : fs) (p : path) : res (list string) :=
  q ← walk WALK f true [] p;
  match node_at f q with
  | Some n => if is_dir_node n then Ok (map (fun c => List.last c "") (children f q)) else Err (not_a_directory q)
  | None => Err (no_entry q)
  end.

Definition sort_names (names : list string) : list string :=
  sort_by (fun a b => match String.compare a b with Gt => false | _ => true end) names.

(** The loop of [fingerprint]: the head of [pending] is the end of the list of
    the code. The outer option is the fuel; [None] inside is a tree of unknown
    validity. *)
Fixpoint tree_loop (fuel : nat) (f : fs) (pending : list path) (seen : nat) (acc : list (path * node)) : option (option (list (path * node))) :=
  match fuel with
  | O => None
  | S fuel =>
      match pending with
      | [] => Some (Some acc)
      | current :: pending =>
          match lstat f current with
          | Err _ => Some None
          | Ok n =>
              if is_link_node n then Some None
              else if negb (is_reg_node n || is_dir_node n) then Some None
              else
                let seen := S seen in
                if (MAX_TREE_ENTRIES <? seen)%nat then Some None
                else
                  let acc := acc ++ [(current, n)] in
                  if is_dir_node n
                  then match scandir f current with
                       | Err _ => Some None
                       | Ok names =>
                           if negb (length names =? 0)%nat && (MAX_TREE_ENTRIES <? length names + seen)%nat then Some None
                           else tree_loop fuel f (map (fun name => current ++ [name]) (sort_names names) ++ pending) seen acc
                       end
                  else tree_loop fuel f pending seen acc
          end
      end
  end.

(** The entries of a tree, when all are files and directories and not too many. *)
Definition tree (f : fs) (p : path) : option (list (path * node)) := default None (tree_loop (2 + MAX_TREE_ENTRIES) f [p] 0 []).

Section receipts.
Context `{FloatText} `{Sqlite} `{Sha256}.

(** [generation(info)]. *)
Definition generation (info : dict) : option string :=
  if truthy (get "engine_version" info) && truthy (get "database_version" info)
  then Some (join "|" [POLICY_GENERATION; py_str (get "engine_version" info); py_str (get "database_version" info)])
  else None.

(** [fingerprint(path)]. *)
Definition fingerprint (f : fs) (p : path) : option string := (fun l => sha256 (tree_text p l)) <$> tree f p.

(** ** The table *)

Definition MAX_RECEIPTS : nat := Z.to_nat 8192.

Definition opt_text (o : option string) : val := match o with Some s => VStr s | None => VNone end.

Definition receipt_row (owner : Z) (p : path) (after generation : option string) (state timestamp operation : string) : row :=
  dlit [("owner_uid", VInt owner); ("path", VStr (path_text p)); ("fingerprint", opt_text after);
        ("database_version", opt_text generation); ("state", VStr state); ("scanned_at", VStr timestamp); ("operation_id", VStr operation)].

Definition nonempty_text (o : option string) : bool := match o with Some s => negb (String.eqb s "") | None => false end.

(** [save(store, owner_uid, path, before, after, generation, state, operation_id,
    timestamp, reason=...)]. *)
Definition stored_state (before after : option string) (state : string) (limit : bool) : string :=
  if nonempty_text before && bool_decide (before = after)
  then (if limit && String.eqb state "PARTIAL" then "PARTIAL_LIMIT" else state)
  else "PARTIAL".

Definition trim_receipts (t : table) : table :=
  let newest := top MAX_RECEIPTS [("scanned_at", true)] t in
  select (fun r => existsb (same_key ["owner_uid"; "path"] r) newest) t.

Definition save (owner : option Z) (p : path) (before after generation : option string) (state operation timestamp : string) (limit : bool) : act db unit :=
  match owner with
  | None => mret tt
  | Some uid =>
      _ ← _connect;
      transaction (modify (fun d => with_receipts (trim_receipts
        (insert_replace ["owner_uid"; "path"] (receipt_row uid p after generation (stored_state before after state limit) timestamp operation) (receipts d))) d))
  end.

(** ** Lookups *)

Definition never_scanned : dict :=
  dlit [("state", VStr "NOT_SCANNED"); ("validity", VStr "UNKNOWN"); ("detail", VStr "No scan recorded for this selection.")].

(** [previous and current == previous]. *)
Definition same_print (previous : val) (current : option string) : bool :=
  truthy previous && match current with Some h => is_str h previous | None => false end.

Definition validity (state version previous : val) (current generation : option string) (definitions_current : bool) : string :=
  if negb (nonempty_text current) || negb (truthy previous) || is_str "PARTIAL" state then "UNKNOWN"
  else if negb (same_print previous current) then "CHANGED"
  else if negb definitions_current || negb (py_eq (opt_text generation) version) then "DEFINITIONS_CHANGED"
  else if in_strs ["CLEAN"; "THREAT"] state then "VALID" else "UNKNOWN".

Definition result_detail (state : val) (valid : string) : string :=
  (if is_str "CLEAN" state then "No known threats found in the recorded scan."
   else if is_str "THREAT" state then "A known threat was detected." else "The scan did not fully complete.")
  +:+ (if String.eqb valid "VALID" then "" else " A new scan is required.").

Definition RETRY_DETAIL : string :=
  "An engine limit prevented a complete scan. Automatic retry waits for changed content or definitions; a manual scan remains available.".

Definition looked_up (f : fs) (p : path) (generation : option string) (definitions_current : bool) (r : row) : dict :=
  let limited := is_str "PARTIAL_LIMIT" (get "state" r) in
  let value := if limited then dset "incomplete_reason" (VStr "ENGINE_LIMIT") (dset "state" (VStr "PARTIAL") r) else r in
  let value := ddel "owner_uid" (ddel "path" value) in
  let previous := get "fingerprint" value in
  let value := ddel "fingerprint" value in
  let current := fingerprint f p in
  let valid := validity (get "state" value) (get "database_version" value) previous current generation definitions_current in
  let value := dset "detail" (VStr (result_detail (get "state" value) valid)) (dset "validity" (VStr valid) value) in
  if is_str "ENGINE_LIMIT" (get "incomplete_reason" value) && same_print previous current && definitions_current
     && py_eq (opt_text generation) (get "database_version" value)
  then dset "detail" (VStr RETRY_DETAIL) (dset "retry_policy" (VStr "ON_CHANGE") value)
  else value.

Definition receipt_of (owner : Z) (p : path) (d : db) : option row :=
  List.find (fun r => sql_eq (get "owner_uid" r) (VInt owner) && sql_eq (get "path" r) (VStr (path_text p))) (receipts d).

(** [lookup(store, owner_uid, path, generation, definitions_current)]. *)
Definition lookup (f : fs) (owner : Z) (p : path) (generation : option string) (definitions_current : bool) : act db dict :=
  _ ← _connect;
  gets (fun d => match receipt_of owner p d with
                 | None => never_scanned
                 | Some r => looked_up f p generation definitions_current r
                 end).
End receipts.

#[global] Arguments tree : simpl never.
#[global] Arguments fingerprint : simpl never.

(** * Scan receipts: properties

    The text a fingerprint is made from determines the tree, the walk of a tree
    ends and lists all of it, and a receipt is valid only for what was scanned. *)

(** ** The text of a tree *)

Lemma dump_string_inj s s' r r' : dump_string s +:+ r = dump_string s' +:+ r' -> s = s' /\ r = r'.
Proof.
  intros He. pose proof (parse_dump_string s r) as Hs. pose proof (parse_dump_string s' r') as Hs'. rewrite <- He in Hs'.
  rewrite !dump_string_app in He. injection He as He. rewrite <- He in Hs'. rewrite Hs in Hs'. by injection Hs'.
Qed.

Lemma str_of_Z_app_inj z z' r r' : delimited r -> delimited r' -> str_of_Z z +:+ r = str_of_Z z' +:+ r' -> z = z' /\ r = r'.
Proof.
  intros Hr Hr' He. pose proof (span_app number_char (str_of_Z z) r (str_of_Z_chars z) (delimited_number r Hr)) as Hs.
  pose proof (span_app number_char (str_of_Z z') r' (str_of_Z_chars z') (delimited_number r' Hr')) as Hs'.
  rewrite He, Hs' in Hs. injection Hs as Hz ->. split; [|done].
  pose proof (int_of_str_of_Z z) as Hi. rewrite <- Hz, int_of_str_of_Z in Hi. by injection Hi.
Qed.

Lemma after_comma z z' r r' :
  delimited r -> delimited r' -> ", " +:+ str_of_Z z +:+ r = ", " +:+ str_of_Z z' +:+ r' -> z = z' /\ r = r'.
Proof. intros Hr Hr' He. apply (inj (String.append ", ")) in He. by apply str_of_Z_app_inj. Qed.

Lemma stamp_text_inj a b x y : stamp_text a +:+ x = stamp_text b +:+ y -> a = b /\ x = y.
Proof.
  destruct a as [an a1 a2 a3 a4 a5], b as [bn b1 b2 b3 b4 b5]. unfold stamp_text. cbn [s_name s_ino s_mode s_size s_mtime s_ctime map join].
  rewrite !string_app_assoc. intros He. apply (inj (String.append "[")) in He. apply dump_string_inj in He as [-> He].
  apply after_comma in He as [_ He]; [|done|done]. apply after_comma in He as [-> He]; [|done|done].
  apply after_comma in He as [-> He]; [|done|done]. apply after_comma in He as [-> He]; [|done|done].
  apply after_comma in He as [-> He]; [|done|done]. apply after_comma in He as [-> He]; [|done|done].
  apply (inj (String.append "]")) in He. done.
Qed.

(** The text is that of one list of entries. *)
Lemma tree_text_inj base l l' : tree_text base l = tree_text base l' -> map (stamp_of base) l = map (stamp_of base) l'.
Proof.
  revert l'; induction l as [|e l IH]; intros [|e' l'] He; [done|by destruct l'|by destruct l|].
  cbn [tree_text fold_right] in He. apply stamp_text_inj in He as [Hs He]. cbn [map]. f_equal; [exact Hs|]. by apply IH.
Qed.

(** ** The walk of a tree *)

(** The walk ends: every round counts an entry, and there are no more than
    [MAX_TREE_ENTRIES]. *)
Lemma tree_loop_ends fuel f pending seen acc :
  (1 <= fuel)%nat -> (MAX_TREE_ENTRIES + 2 <= fuel + seen)%nat -> tree_loop fuel f pending seen acc <> None.
Proof.
  revert pending seen acc; induction fuel as [|fuel IH]; intros pending seen acc Hpos Hfuel; [lia|]. cbn [tree_loop].
  destruct pending as [|current pending]; [done|]. destruct (lstat f current) as [n|]; [|done].
  destruct (is_link_node n); [done|]. destruct (negb _); [done|].
  destruct (Nat.ltb_spec MAX_TREE_ENTRIES (S seen)); [done|]. destruct (is_dir_node n); [|apply IH; lia].
  destruct (scandir f current) as [names|]; [|done]. destruct (_ && _); [done|]. apply IH; lia.
Qed.

(** What is listed are entries as they are. *)
Lemma tree_loop_real fuel f pending seen acc l :
  tree_loop fuel f pending seen acc = Some (Some l) ->
  (forall e, In e acc -> lstat f e.1 = Ok e.2) -> forall e, In e l -> lstat f e.1 = Ok e.2.
Proof.
  revert pending seen acc; induction fuel as [|fuel IH]; intros pending seen acc; [done|]. cbn [tree_loop].
  destruct pending as [|current pending]; [by intros [= <-]|]. destruct (lstat f current) as [n|] eqn:El; [|done].
  destruct (is_link_node n); [done|]. destruct (negb _); [done|]. destruct (_ <? _)%nat; [done|]. intros Hrun Hacc.
  assert (forall e, In e (acc ++ [(current, n)]) -> lstat f e.1 = Ok e.2) as Hacc'.
  { intros e [He|[<-|[]]]%in_app_or; [by apply Hacc|done]. }
  destruct (is_dir_node n); [|by apply (IH _ _ _ Hrun)].
  destruct (scandir f current) as [names|]; [|done]. destruct (_ && _); [done|]. by apply (IH _ _ _ Hrun).
Qed.

Lemma tree_loop_acc fuel f pending seen acc l e :
  tree_loop fuel f pending seen acc = Some (Some l) -> In e acc -> In e l.
Proof.
  revert pending seen acc; induction fuel as [|fuel IH]; intros pending seen acc; [done|]. cbn [tree_loop].
  destruct pending as [|current pending]; [by intros [= <-]|]. destruct (lstat f current) as [n|]; [|done].
  destruct (is_link_node n); [done|]. destruct (negb _); [done|]. destruct (_ <? _)%nat; [done|]. intros Hrun Hacc.
  assert (In e (acc ++ [(current, n)])) as Hacc' by (apply in_or_app; by left).
  destruct (is_dir_node n); [|by apply (IH _ _ _ Hrun)].
  destruct (scandir f current) as [names|]; [|done]. destruct (_ && _); [done|]. by apply (IH _ _ _ Hrun).
Qed.

(** Everything above [c] is a directory. *)
Definition below_dirs (f : fs) (c : path) : Prop :=
  forall x y, c = x ++ y -> x <> [] -> y <> [] -> exists n, f !! x = Some n /\ is_dir_node n = true.

Lemma walk_below fuel f follow here todo q :
  plain todo = true ->
  (forall x y, todo = x ++ y -> x <> [] -> y <> [] -> exists n, f !! (here ++ x) = Some n /\ is_dir_node n = true) ->
  (follow = false \/ forall n, node_at f (here ++ todo) = Some n -> is_link_node n = false) ->
  walk fuel f follow here todo = Ok q -> q = here ++ todo.
Proof.
  revert here fuel; induction todo as [|c rest IH]; intros here fuel Hplain Hdirs Hlast Hwalk; (destruct fuel as [|fuel]; [done|]).
  - injection Hwalk as <-. by rewrite app_nil_r.
  - cbn [plain forallb] in Hplain. apply andb_true_iff in Hplain as [Hc Hplain]. apply negb_true_iff in Hc. destruct rest as [|c' rest].
    + apply walk_last in Hwalk; unfold step_to in *; rewrite Hc in *; done.
    + cbn [walk] in Hwalk. rewrite Hc in Hwalk.
      destruct (Hdirs [c] (c' :: rest) eq_refl ltac:(done) ltac:(done)) as (n & Hn & Hd). rewrite Hn in Hwalk.
      assert (walk fuel f follow (here ++ [c]) (c' :: rest) = Ok q) as Hw.
      { unfold is_dir_node in Hd. by destruct (n_kind n). }
      rewrite (cons_middle c here). apply (IH (here ++ [c]) fuel Hplain); [|by rewrite <- cons_middle|exact Hw].
      intros x y Hxy Hx Hy. destruct (Hdirs (c :: x) y) as (m & Hm); [by rewrite Hxy|done|done|]. exists m. by rewrite <- app_assoc.
Qed.

Lemma below_child f c name n : below_dirs f c -> node_at f c = Some n -> is_dir_node n = true -> below_dirs f (c ++ [name]).
Proof.
  intros Hc Hn Hd x y Hxy Hx Hy. destruct y as [|d y _] using rev_ind; [done|].
  rewrite app_assoc in Hxy. apply app_inj_tail in Hxy as [-> _]. destruct y as [|d' y].
  - rewrite app_nil_r in Hn. exists n. rewrite node_at_below in Hn by done. by split.
  - by apply (Hc x (d' :: y)).
Qed.

Lemma lstat_below f c n : plain c = true -> below_dirs f c -> lstat f c = Ok n -> node_at f c = Some n.
Proof.
  intros Hplain Hc (q & Hq & Hn)%lstat_walk. revert Hq. generalize WALK. intros w Hq.
  apply walk_below in Hq; [by subst q|done|exact Hc|by left].
Qed.

Lemma scandir_below f c n names :
  plain c = true -> below_dirs f c -> node_at f c = Some n -> is_link_node n = false -> scandir f c = Ok names ->
  names = map (fun p => List.last p "") (children f c).
Proof.
  intros Hplain Hc Hn Hl. unfold scandir. generalize WALK. intros w Hrun. apply bind_Ok in Hrun as (q & Hq & Hrun).
  apply walk_below in Hq; [|done|exact Hc|]; [|right; intros m Hm; cbn [app] in Hm; congruence]. cbn [app] in Hq. subst q.
  rewrite Hn in Hrun. destruct (is_dir_node n); [|done]. by injection Hrun.
Qed.

Lemma children_In f c name n : f !! (c ++ [name]) = Some n -> In (c ++ [name]) (children f c).
Proof.
  intros Hn. apply list_elem_of_In, list_elem_of_omap. exists (c ++ [name], n). split; [by apply elem_of_map_to_list|].
  cbn. rewrite removelast_last, !bool_decide_true by done. rewrite bool_decide_false by apply snoc_nonempty. done.
Qed.

Lemma sort_names_In name names : In name (sort_names names) <-> In name names.
Proof. apply sort_by_In. Qed.

Definition names_of (f : fs) (c : path) : list string := map (fun p => List.last p "") (children f c).
Definition child_paths (f : fs) (c : path) : list path := map (fun name => c ++ [name]) (sort_names (names_of f c)).

Lemma child_listed f c name n : f !! (c ++ [name]) = Some n -> In (c ++ [name]) (child_paths f c).
Proof.
  intros Hn. apply in_map_iff. exists name. split; [done|]. apply sort_names_In, in_map_iff.
  exists (c ++ [name]). split; [apply last_last|]. by apply (children_In f c name n).
Qed.

Lemma child_below f c n x :
  well_named f -> below_dirs f c -> node_at f c = Some n -> is_dir_node n = true -> In x (child_paths f c) -> plain x = true /\ below_dirs f x.
Proof.
  intros Hnamed Hc Hn Hd (name & <- & Hname)%in_map_iff. apply sort_names_In, in_map_iff in Hname as (k & <- & Hk).
  apply list_elem_of_In in Hk. pose proof (proj1 (Forall_forall _ _) (children_plain f Hnamed c) k Hk) as Hplain. cbn in Hplain.
  apply list_elem_of_omap in Hk as ([k' kn] & _ & Hk). cbn in Hk. destruct (bool_decide (removelast k' = c)) eqn:Ek; [|done].
  apply bool_decide_eq_true in Ek. destruct (bool_decide (k' = [])) eqn:Ek'; [done|]. apply bool_decide_eq_false in Ek'. injection Hk as <-.
  destruct k' as [|d k' _] using rev_ind; [done|]. rewrite removelast_last in Ek. subst k'. rewrite last_last.
  split; [done|]. by apply (below_child f c d n).
Qed.

(** Every entry is in a directory. *)
Definition in_directories (f : fs) : Prop :=
  forall p c n, f !! (p ++ [c]) = Some n -> exists m, node_at f p = Some m /\ is_dir_node m = true.

(** The check of every entry decides it. *)
Definition in_directory (f : fs) (e : path * node) : bool := match node_at f (removelast e.1) with Some m => is_dir_node m | None => false end.

Lemma in_directories_check f : forallb (in_directory f) (map_to_list f) = true -> in_directories f.
Proof.
  intros Hall p c n Hn%elem_of_map_to_list%list_elem_of_In. rewrite forallb_forall in Hall. specialize (Hall _ Hn). unfold in_directory in Hall. cbn [fst] in Hall.
  rewrite removelast_last in Hall. destruct (node_at f p) as [m|]; [by exists m|done].
Qed.

(** What is below a listed directory is listed. *)
Lemma tree_loop_complete fuel f pending seen acc l :
  well_named f -> in_directories f -> tree_loop fuel f pending seen acc = Some (Some l) ->
  (forall c, In c pending -> plain c = true /\ below_dirs f c) ->
  forall c r n, In c pending -> direct f c r = true -> node_at f (c ++ r) = Some n -> In (c ++ r, n) l.
Proof.
  intros Hnamed Hdirs. revert pending seen acc; induction fuel as [|fuel IH]; intros pending seen acc; [done|]. cbn [tree_loop].
  destruct pending as [|current pending]; [done|]. destruct (lstat f current) as [n0|] eqn:El; [|done].
  destruct (is_link_node n0) eqn:Elink; [done|]. destruct (negb _); [done|]. destruct (_ <? _)%nat; [done|]. intros Hrun Hpend c r n Hc Hd Hn.
  destruct (Hpend current ltac:(by left)) as [Hplain Hbelow]. pose proof (lstat_below _ _ _ Hplain Hbelow El) as Hn0.
  assert (forall c, In c pending -> plain c = true /\ below_dirs f c) as Hrest by (intros; apply Hpend; by right).
  assert (c = current -> r = [] -> In (c ++ r, n) (acc ++ [(current, n0)])) as Hself.
  { intros -> ->. rewrite app_nil_r in *. apply in_or_app. right. left. congruence. }
  destruct (is_dir_node n0) eqn:Edir.
  - destruct (scandir f current) as [names|] eqn:Es; [|done]. destruct (_ && _); [done|].
    apply (scandir_below _ _ _ _ Hplain Hbelow Hn0 Elink) in Es. subst names. fold (names_of f current) in Hrun. fold (child_paths f current) in Hrun.
    assert (forall c, In c (child_paths f current ++ pending) -> plain c = true /\ below_dirs f c) as Hnext.
    { intros x [Hx|Hx]%in_app_or; [by apply (child_below f current n0)|by apply Hrest]. }
    destruct Hc as [<-|Hc]; [|apply (IH _ _ _ Hrun Hnext); [apply in_or_app; by right|done|done]].
    destruct r as [|name r]; [apply (tree_loop_acc _ _ _ _ _ _ _ Hrun); by apply Hself|].
    cbn [direct] in Hd. destruct (f !! (current ++ [name])) as [m|] eqn:Em; [|done]. apply andb_true_iff in Hd as [_ Hd].
    rewrite (cons_middle name current r) in Hn |- *. apply (IH _ _ _ Hrun Hnext); [|done|done].
    apply in_or_app. left. by apply (child_listed f current name m).
  - destruct Hc as [<-|Hc]; [|by apply (IH _ _ _ Hrun Hrest)]. destruct r as [|name r]; [apply (tree_loop_acc _ _ _ _ _ _ _ Hrun); by apply Hself|].
    exfalso. cbn [direct] in Hd. destruct (f !! (current ++ [name])) as [m|] eqn:Em; [|done].
    apply Hdirs in Em as (x & Hx & Hxd). congruence.
Qed.

Lemma tree_fuel f p : exists r, tree_loop (2 + MAX_TREE_ENTRIES) f [p] 0 [] = Some r /\ tree f p = r.
Proof.
  unfold tree. destruct (tree_loop (2 + MAX_TREE_ENTRIES) f [p] 0 []) as [r|] eqn:E; [by exists r|].
  exfalso. revert E. apply tree_loop_ends; lia.
Qed.

Lemma tree_real f p l e : tree f p = Some l -> In e l -> lstat f e.1 = Ok e.2.
Proof.
  destruct (tree_fuel f p) as (r & Hr & ->). intros ->. by apply (tree_loop_real _ _ _ _ _ _ Hr).
Qed.

(** A listed tree has all that is below its root. *)
Lemma tree_complete f p l r n :
  well_named f -> in_directories f -> plain p = true -> below_dirs f p -> tree f p = Some l -> direct f p r = true ->
  node_at f (p ++ r) = Some n -> In (p ++ r, n) l.
Proof.
  intros Hnamed Hdirs Hplain Hbelow. destruct (tree_fuel f p) as (x & Hx & ->). intros ->.
  apply (tree_loop_complete _ _ _ _ _ _ Hnamed Hdirs Hx); [|by left]. by intros c [<-|[]].
Qed.

(** ** Receipts *)

Lemma sql_eq_sym a b : sql_eq a b = sql_eq b a.
Proof. unfold sql_eq. rewrite (sql_compare_antisym b a), (andb_comm (negb (is_none a))). by destruct (sql_compare b a). Qed.

Lemma find_app_none {A} (p : A -> bool) l k : (forall x, In x l -> p x = false) -> List.find p (l ++ k) = List.find p k.
Proof. induction l as [|x l IH]; [done|]. intros Hl. cbn. rewrite Hl by by left. apply IH. intros y Hy. apply Hl. by right. Qed.

Lemma find_filter_snoc {A} (p q : A -> bool) l x :
  (forall y, In y l -> p y = false) -> p x = true -> List.find p (List.filter q (l ++ [x])) = if q x then Some x else None.
Proof.
  intros Hl Hx. rewrite List.filter_app, find_app_none.
  - cbn. destruct (q x); cbn; [by rewrite Hx|done].
  - intros y [Hy _]%filter_In. by apply Hl.
Qed.

Section receipts.
Context `{FloatText} `{Sqlite} `{Sha256}.

(** The texts of the trees at two moments differ and have the same digest. *)
Definition trees_collide (f f' : fs) (p : path) : Prop :=
  exists l l', tree f p = Some l /\ tree f' p = Some l' /\ tree_text p l <> tree_text p l' /\ sha256 (tree_text p l) = sha256 (tree_text p l').

(** Equal fingerprints are those of equal trees, or those collide. *)
Lemma fingerprint_detects f f' p h :
  fingerprint f p = Some h -> fingerprint f' p = Some h ->
  exists l l', tree f p = Some l /\ tree f' p = Some l'
    /\ (map (stamp_of p) l = map (stamp_of p) l' \/ trees_collide f f' p).
Proof.
  unfold fingerprint, trees_collide. destruct (tree f p) as [l|]; [|done]. destruct (tree f' p) as [l'|]; [|done]. cbn. intros [= Hh] [= Hh'].
  exists l, l'. split; [done|]. split; [done|]. destruct (String.eqb_spec (tree_text p l) (tree_text p l')) as [He|Hne].
  - left. by apply tree_text_inj.
  - right. exists l, l'. split; [done|]. split; [done|]. split; [done|]. congruence.
Qed.

(** The receipt that is found after a save is the saved one. *)
Lemma saved_receipt owner p before after gen state operation timestamp limit d d' :
  save (Some owner) p before after gen state operation timestamp limit d = (Ok tt, d') ->
  receipt_of owner p d' = None
  \/ receipt_of owner p d' = Some (receipt_row owner p after gen (stored_state before after state limit) timestamp operation).
Proof.
  unfold save. generalize (stored_state before after state limit). intros st. unfold mbind, act_bind, _connect. destruct (fault d); [done|].
  unfold transaction, modify. intros [= <-]. unfold receipt_of. cbn [receipts with_receipts]. unfold trim_receipts, insert_replace, select.
  set (new := receipt_row _ _ _ _ _ _ _). rewrite find_filter_snoc.
  - destruct (existsb _ _); [by right|by left].
  - intros r [_ Hr]%delete_where_In. cbn [same_key forallb] in Hr. rewrite andb_true_r in Hr.
    rewrite (sql_eq_sym (get "owner_uid" r)), (sql_eq_sym (get "path" r)). exact Hr.
  - assert (get "owner_uid" new = VInt owner) as -> by done. assert (get "path" new = VStr (path_text p)) as -> by done.
    cbn. rewrite Z.compare_refl. unfold sql_eq. cbn. by rewrite string_compare_refl.
Qed.

Lemma looked_up_validity f p gen gen' current owner after st timestamp operation :
  let state := if String.eqb st "PARTIAL_LIMIT" then "PARTIAL" else st in
  let value := looked_up f p gen' current (receipt_row owner p after gen st timestamp operation) in
  get "validity" value = VStr (validity (VStr state) (opt_text gen) (opt_text after) (fingerprint f p) gen' current)
  /\ get "state" value = VStr state.
Proof.
  cbv zeta. unfold looked_up. change (get "state" (receipt_row owner p after gen st timestamp operation)) with (VStr st).
  cbn [is_str]. destruct (String.eqb st "PARTIAL_LIMIT"); (destruct (_ && _ && _ && _); split; reflexivity).
Qed.

Lemma validity_valid st gen after print gen' current :
  validity (VStr st) (opt_text gen) (opt_text after) print gen' current = "VALID" ->
  current = true /\ py_eq (opt_text gen') (opt_text gen) = true /\ (st = "CLEAN" \/ st = "THREAT")
  /\ exists h, after = Some h /\ print = Some h.
Proof.
  unfold validity. destruct (_ || _) eqn:E1; [done|]. destruct (negb (same_print _ _)) eqn:E2; [done|].
  destruct (negb current || _) eqn:E3; [done|]. destruct (in_strs _ _) eqn:E4; [|done]. intros _.
  apply orb_false_iff in E3 as [->%negb_false_iff E3%negb_false_iff]. split; [done|]. split; [done|].
  split; [unfold in_strs, member in E4; cbn in E4; revert E4; destruct (String.eqb_spec st "CLEAN"); [by left|]; destruct (String.eqb_spec st "THREAT"); [by right|done]|].
  apply negb_false_iff, andb_true_iff in E2 as [_ E2]. destruct print as [h|]; [|done]. destruct after as [a|]; [|done].
  exists h. cbn in E2. apply String.eqb_eq in E2. by subst.
Qed.

Lemma lookup_saved f owner p before after gen gen' state operation timestamp limit current d d' value :
  save (Some owner) p before after gen state operation timestamp limit d = (Ok tt, d') ->
  outcome (lookup f owner p gen' current) d' = Ok value ->
  value = never_scanned
  \/ value = looked_up f p gen' current (receipt_row owner p after gen (stored_state before after state limit) timestamp operation).
Proof.
  intros Hsave%saved_receipt. revert Hsave. unfold lookup, outcome, mbind, act_bind, _connect. destruct (fault d'); [done|]. cbn [fst gets].
  generalize (receipt_of owner p d'), (stored_state before after state limit). intros o st Ho [= <-].
  destruct Ho as [Ho|Ho]; rewrite Ho; [by left|by right].
Qed.

(** The shown state of a saved receipt is that of the scan where it is a result. *)
Lemma shown_state before after state limit :
  let st := stored_state before after state limit in
  let shown := if String.eqb st "PARTIAL_LIMIT" then "PARTIAL" else st in
  shown = "CLEAN" \/ shown = "THREAT" -> before = after /\ shown = state.
Proof.
  cbv zeta. unfold stored_state. destruct (nonempty_text before); [|by intros []]. destruct (bool_decide (before = after)) eqn:E; [|by intros []].
  apply bool_decide_eq_true in E. cbn [andb]. destruct (limit && _); [by intros []|].
  destruct (String.eqb_spec state "PARTIAL_LIMIT"); [by intros []|done].
Qed.

Lemma opt_text_py_eq a b : py_eq (opt_text a) (opt_text b) = true -> opt_text a = opt_text b.
Proof. destruct a, b; cbn; try done. by intros ->%String.eqb_eq. Qed.

(** C15. A receipt is shown as valid only where the scan that wrote it found the tree
    unchanged while it ran and completed with the shown result, the definitions
    are the current ones and those of the scan, and every entry that is now in
    the tree has the name, inode, type, mode, size and times of one that was
    there when the scan began; or else the texts of these two trees differ and
    have the same digest. *)
Theorem valid_receipt_unchanged (f0 f1 f2 : fs) (owner : Z) (p : path) (gen gen' : option string) (state operation timestamp : string)
    (limit current : bool) (d d' : db) (value : dict) :
  well_named f2 -> in_directories f2 -> plain p = true -> below_dirs f2 p ->
  save (Some owner) p (fingerprint f0 p) (fingerprint f1 p) gen state operation timestamp limit d = (Ok tt, d') ->
  outcome (lookup f2 owner p gen' current) d' = Ok value -> get "validity" value = VStr "VALID" ->
  get "state" value = VStr state /\ (state = "CLEAN" \/ state = "THREAT") /\ current = true /\ opt_text gen' = opt_text gen
  /\ fingerprint f0 p = fingerprint f1 p
  /\ ((forall r n, direct f2 p r = true -> node_at f2 (p ++ r) = Some n ->
         exists q m, lstat f0 q = Ok m /\ stamp_of p (q, m) = stamp_of p (p ++ r, n))
      \/ trees_collide f0 f2 p).
Proof.
  intros Hnamed Hdirs Hplain Hbelow Hsave Hlookup Hvalid. destruct (lookup_saved _ _ _ _ _ _ _ _ _ _ _ _ _ _ _ Hsave Hlookup) as [Hv|Hv]; subst value; [done|].
  clear Hsave Hlookup. destruct (looked_up_validity f2 p gen gen' current owner (fingerprint f1 p) (stored_state (fingerprint f0 p) (fingerprint f1 p) state limit) timestamp operation) as [Hv Hs].
  rewrite Hvalid in Hv. injection Hv as Hv. symmetry in Hv. apply validity_valid in Hv as (-> & Hgen & Hstate & h & Hafter & Hnow).
  rewrite Hs. apply shown_state in Hstate as Hst. destruct Hst as [Hsame Hshown]. rewrite Hshown in Hstate |- *. clear Hs Hvalid Hshown.
  split; [done|]. split; [done|]. split; [done|]. split; [by apply opt_text_py_eq|]. split; [done|].
  assert (fingerprint f0 p = Some h) as Hbefore by congruence. destruct (fingerprint_detects _ _ _ _ Hbefore Hnow) as (l & l' & Hl & Hl' & Hd).
  destruct Hd as [Hd|Hd]; [left|by right]. intros r n Hr Hn.
  pose proof (tree_complete _ _ _ _ _ Hnamed Hdirs Hplain Hbelow Hl' Hr Hn) as Hin.
  apply (in_map (stamp_of p)) in Hin. rewrite <- Hd in Hin. apply in_map_iff in Hin as ([q m] & Hqm & Hin).
  exists q, m. split; [by apply (tree_real _ _ _ _ Hl) in Hin|done].
Qed.
End receipts.
