(* ===== verification/ScanOutput.v ===== *)
(** * The output of the scanner ([file_security.py], [_parse_found], [_run])

    What the worker of a scan makes of the lines of [clamscan]: the report a
    line stands for, the counters and results it adds to, and the verdict when
    the scanner has ended. A line holds no line feed. *)
From S2P Require Import Prelude PyVal PyStr PyText.

(** ** Lines *)

(** What follows the colon of [FOUND_RE]: blanks, a name, blanks and FOUND at
    the end of the text. A name of a single blank needs two blanks. *)
Definition threat_name (rest : string) : option string :=
  if negb (endswith "FOUND" rest) then None
  else
    let body := str_take (String.length rest - 5)%nat rest in
    let named := rstrip_by isspace_char body in
    if String.eqb named body then None
    else match lstrip_by isspace_char named with
         | "" => if (2 <=? String.length body)%nat then Some (str_take 1 (str_drop (String.length body - 2)%nat body)) else None
         | name => Some name
         end.

(** The first colon after which the rest matches. *)
Fixpoint parse_at (s : string) : option (string * string) :=
  match s with
  | "" => None
  | String c r =>
      match (if Ascii.eqb c ":" then threat_name r else None) with
      | Some name => Some ("", name)
      | None => (fun x => (String c x.1, x.2)) <$> parse_at r
      end
  end.

(** [_parse_found(line)]. *)
Definition _parse_found (line : string) : option (string * string) :=
  (fun x => (str_take 4096 x.1, str_take 160 x.2)) <$> parse_at (strip line).

(** [ERROR_RE.search(line)]; [word] is whether the character before is a word
    character. *)
Definition ERROR_WORDS : list string := ["error"; "warning"; "access denied"; "permission denied"; "cannot open"].

Definition ends_word (s : string) : bool := match s with String c _ => negb (word_char c) | "" => true end.

Fixpoint error_from (word : bool) (s : string) : bool :=
  (negb word && existsb (fun w => startswith w (str_lower s) && ends_word (str_drop (String.length w) s)) ERROR_WORDS)
  || match s with "" => false | String c r => error_from (word_char c) r end.

Definition error_line (line : string) : bool := error_from false line.

(** What a line says: a threat in a file, a limit reached in it, a file without
    threat, a failure on a file, nothing, or something about a file that was not
    handed over. *)
Inductive report :=
| Threat (descriptor file name : string)
| Limit (file : string)
| Clean (file : string)
| Failure (file : string)
| Silent
| Foreign.

Definition LIMITS : string := "Heuristics.Limits.Exceeded".

(** [aliases]: the descriptor path of each source; a system scan has none. *)
Definition source_of (aliases : list (string * string)) (original : string) : option string :=
  match aliases with [] => Some original | _ => dget original aliases end.

Definition clean_suffix (t : string) : option string :=
  if endswith ": OK" t then Some (str_take (String.length t - 4)%nat t)
  else if endswith ": Empty file" t then Some (str_take (String.length t - 12)%nat t) else None.

Definition classify (aliases : list (string * string)) (line : string) : report :=
  match _parse_found line with
  | Some (original, name) =>
      match source_of aliases original with
      | None => Foreign
      | Some file => if startswith LIMITS name then Limit file else Threat original file name
      end
  | None =>
      match clean_suffix (strip line) with
      | Some original => match source_of aliases original with Some file => Clean file | None => Foreign end
      | None => if error_line line then Failure (hd "" (split ":" (strip line))) else Silent
      end
  end.

(** ** Counters *)

Record progress := Progress {
  inspected : nat; errors : nat; skipped_files : nat; detected : nat;
  inspected_paths : list string; results : list (string * string); reasons : list (string * string);
  detection_paths : list string; error_paths : list string }.

Definition no_progress (skipped : nat) : progress := Progress 0 0 skipped 0 [] [] [] [] [].

Definition set_result (file state : string) (p : progress) : progress :=
  Progress (inspected p) (errors p) (skipped_files p) (detected p) (inspected_paths p) (dset file state (results p)) (reasons p) (detection_paths p) (error_paths p).

Definition see (file : string) (p : progress) : progress :=
  if member file (inspected_paths p) then p
  else Progress (S (inspected p)) (errors p) (skipped_files p) (detected p) (inspected_paths p ++ [file]) (results p) (reasons p) (detection_paths p) (error_paths p).

Definition note_limit (file : string) (p : progress) : progress :=
  Progress (inspected p) (errors p) (S (skipped_files p)) (detected p) (inspected_paths p) (dset file "PARTIAL" (results p))
    (dset file "ENGINE_LIMIT" (reasons p)) (detection_paths p) (error_paths p).

Definition note_threat (file : string) (p : progress) : progress :=
  Progress (inspected p) (errors p) (skipped_files p) (detected p) (inspected_paths p) (results p) (reasons p) (detection_paths p ++ [file]) (error_paths p).

Definition count_detection (p : progress) : progress :=
  Progress (inspected p) (errors p) (skipped_files p) (S (detected p)) (inspected_paths p) (results p) (reasons p) (detection_paths p) (error_paths p).

Definition note_clean (file : string) (p : progress) : progress :=
  let p := match dget file (results p) with Some _ => p | None => set_result file "CLEAN" p end in
  if String.eqb file "" then p else see file p.

Definition note_failure (file : string) (p : progress) : progress :=
  let p := Progress (inspected p) (S (errors p)) (skipped_files p) (detected p) (inspected_paths p) (results p) (reasons p) (detection_paths p) (error_paths p) in
  if String.eqb file "" || member file (error_paths p) then p
  else Progress (inspected p) (errors p) (S (skipped_files p)) (detected p) (inspected_paths p) (results p) (reasons p) (detection_paths p) (error_paths p ++ [file]).

(** What a report adds, once the detection of a new threat is stored. *)
Definition advance (r : report) (p : progress) : progress :=
  match r with
  | Threat _ file _ =>
      let p := see file (set_result file "THREAT" p) in
      if member file (detection_paths p) then p else count_detection (note_threat file p)
  | Limit file => note_limit file p
  | Clean file => note_clean file p
  | Failure file => note_failure file p
  | Silent | Foreign => p
  end.

(** ** The verdict *)

Record outcome_of := Outcome { o_state : string; o_phase : string; o_detail : string }.

Definition both (state detail : string) : outcome_of := Outcome state state detail.

Definition incomplete (p : progress) : bool := (0 <? errors p)%nat || (0 <? skipped_files p)%nat.
Definition productive (p : progress) : bool := (0 <? inspected p)%nat || (0 <? detected p)%nat.

Definition verdict (cancelled expired : bool) (code : Z) (p : progress) : outcome_of :=
  if cancelled then both "CANCELLED" "The scan was cancelled before completion."
  else if expired then both (if productive p then "PARTIAL" else "FAILED") "ClamAV did not complete the scan within the allowed time."
  else if code =? 0 then
    both (if incomplete p then "PARTIAL" else "COMPLETED")
      (if incomplete p then "Some files could not be fully inspected."
       else if (0 <? detected p)%nat then "Scan completed with detections." else "No known threats were found.")
  else if code =? 1 then
    both (if incomplete p || negb (0 <? detected p)%nat then "PARTIAL" else "COMPLETED")
      (if (0 <? skipped_files p)%nat then "Some sources exceeded scanner or scope limits and were not fully inspected."
       else if (0 <? detected p)%nat && negb (0 <? errors p)%nat then "Scan completed with detections."
       else if negb (0 <? errors p)%nat then "ClamAV reported a detection, but no actionable detection record could be created."
       else "Scan completed with errors.")
  else Outcome (if productive p then "PARTIAL" else "FAILED") "FAILED" "ClamAV could not complete the scan.".

(** A changed selection or changed definitions. *)
Definition changed_selection : outcome_of := both "PARTIAL" "The selection or definitions changed during scanning; scan again.".

Example reports :
  map (classify [("/proc/self/fd/9", "/home/a/x")]) ["/proc/self/fd/9: Eicar-Test FOUND"; "/proc/self/fd/9: OK"; "/proc/self/fd/8: OK"; "LibClamAV Warning: x"; "Scanning"]
  = [Threat "/proc/self/fd/9" "/home/a/x" "Eicar-Test"; Clean "/home/a/x"; Foreign; Failure "LibClamAV Warning"; Silent].
Proof. vm_compute. reflexivity. Qed.
