(* ===== verification/ScanRuns.v ===== *)
(** * Scans ([file_security.py], [FileSecurityManager])

    The manager of scans: the worker of a scan with what it stores, the start, the
    cancellation and the status of scans and the reconciliation of scans whose
    worker is gone. What the machine answers while a worker runs is its argument:
    the state of the scanner, the file system at the start and at the end, and the
    lines of the scanner, each with what is seen when it is read. The two events
    of a run are never cleared: [r_cancelled] and [r_expired] say that one was
    set after the last line. *)
From S2P Require Import Prelude PyVal PyStr Json PyText PyTime TelemetryValues Sql TelemetryStore TelemetryRetention Files ScanAccess ScanReceipts ScanOutput.

(** A line of the scanner: whether a cancellation or the watchdog has been seen,
    the moment, the file system, what the pinned descriptors read and the random
    identifiers drawn. *)
Record tick := Tick {
  t_line : string; t_cancelled : bool; t_expired : bool; t_now : Z; t_disk : fs; t_read : string -> res string;
  t_uuid : string; t_event : event_host }.

(** One run: the start, how the scanner could be started and how it ended, and
    the end. [r_descriptor] is the number of the first pinned descriptor. *)
Record run := Run {
  r_now : Z; r_info : dict; r_disk : fs; r_descriptor : Z; r_popen : option exn; r_event : event_host; r_ticks : list tick;
  r_code : res Z; r_cancelled : bool; r_expired : bool; r_end : Z; r_end_info : dict; r_end_disk : fs; r_end_event : event_host }.

(** The manager with the local variables of the worker: the store, the
    cancellation tokens of the running scans, with whether they are set, and the
    counters. *)
Record worker := Worker { w_store : db; w_tokens : list (string * bool); w_progress : progress }.

Definition on_db {A} (m : act db A) : act worker A := fun s =>
  let '(r, d) := m (w_store s) in (r, Worker d (w_tokens s) (w_progress s)).

Definition set_progress (f : progress -> progress) : act worker unit := fun s =>
  (Ok tt, Worker (w_store s) (w_tokens s) (f (w_progress s))).

Definition set_tokens (f : list (string * bool) -> list (string * bool)) : act worker unit := fun s =>
  (Ok tt, Worker (w_store s) (f (w_tokens s)) (w_progress s)).

(** [except (OSError, subprocess.SubprocessError)]. *)
Definition is_subprocess_error (e : exn) : bool := match e with ProviderError n => String.eqb n "TimeoutExpired" | _ => false end.
Definition run_caught (e : exn) : bool := is_os_error e || is_subprocess_error e.

Definition owner_of (operation : dict) : option Z := match get "owner_uid" operation with VInt z => Some z | _ => None end.

Definition alias_text (n : Z) : string := "/proc/self/fd/" +:+ str_of_Z n.

Section runs.
Context `{FloatText} `{IsoText} `{Sqlite} `{Sha256} (max_bytes : Z) (groups : Z -> list Z).

(** [_file_ref(path)]. *)
Definition _file_ref (p : string) : string := "file-" +:+ str_take 24 (sha256 p).

(** [_hash_file(path)] and [_hash_descriptor(descriptor)]. *)
Definition content_hash (content : string) : val * val := (VInt (str_len content), VStr (sha256 content)).

Definition _hash_file (f : fs) (p : path) : val * val :=
  match open_readonly f p with
  | Ok q => match node_at f q with
            | Some n => if is_reg_node n then content_hash (n_data n) else (VNone, VNone)
            | None => (VNone, VNone)
            end
  | Err _ => (VNone, VNone)
  end.

(** [_emit(operation_id, event_type, outcome, detail, severity, details=...)]. *)
Definition emit_action (event_type : string) : string :=
  if startswith "FILE_SCAN" event_type then "SCAN" else if String.eqb event_type "FILE_DETECTION" then "DETECT" else "REMEDIATE".

Definition emit_args (h : event_host) (operation_id event_type result detail severity : string) (details : list (string * val)) : event_args :=
  EventArgs (VStr (operation_id +:+ "-" +:+ str_lower event_type +:+ "-" +:+ str_take 12 (host_uuid h))) VNone VNone
    (VStr "greyward-file-security") (VStr "clamav") "FILE_SECURITY" (VStr event_type) (VStr (emit_action event_type)) (VStr result)
    (VStr severity) (VStr (if String.eqb severity "ERROR" then "FAILED" else if String.eqb severity "WARNING" then "NOTEWORTHY" else "NORMAL"))
    VNone VNone VNone VNone VNone VNone (VDict [("operation_id", VStr operation_id)])
    (VDict (dupdate [("message", VStr detail)] details)) VNone VNone [] "semantic".

Definition record_caught (e : exn) : bool := is_os_error e || match e with TelemetryError _ | ProviderError _ => true | _ => false end.

Definition _emit (now : Z) (h : event_host) (operation_id event_type result detail severity : string) (details : list (string * val)) : act db unit :=
  value ← lift (event now h (emit_args h operation_id event_type result detail severity details));
  _ ← (record max_bytes now (VDict value) except record_caught => (fun _ => mret false))%act;
  mret tt.

(** [_finish(operation_id)]. *)
Definition _finish (now : Z) (operation_id : string) : act worker unit :=
  _ ← set_tokens (ddel operation_id);
  on_db ((_ ← prune max_bytes (stamp now); mret tt)
    except (fun e => is_os_error e || match e with TelemetryError _ => true | _ => false end) => (fun _ => mret tt))%act.

Definition set_scan (operation_id : string) (changes : list (string * val)) : act worker unit :=
  _ ← on_db (update_file_scan operation_id changes); mret tt.

Definition versions (info : dict) : list (string * val) :=
  [("scanner_version", get "engine_version" info); ("database_version", get "database_version" info)].

Definition count (n : nat) : val := VInt (Z.of_nat n).

(** ** A line *)

(** An unresolved detection of the same content at the same path. *)
Definition same_detection (original : string) (file_hash : val) (item : dict) : bool :=
  truthy file_hash && py_eq (get "file_ref" item) (VStr (_file_ref original)) && py_eq (get "file_hash" item) file_hash
  && in_strs ["DETECTED"; "QUARANTINE_FAILED"] (get "state" item).

Definition detection_fields (operation_id original name : string) (info : dict) (now : Z) (id : string) (hash : val * val) : dict :=
  dlit [("detection_id", VStr id); ("operation_id", VStr operation_id); ("original_path", VStr original);
        ("file_ref", VStr (_file_ref original)); ("detection_name", VStr name); ("detected_at", VStr (stamp now));
        ("scanner_version", get "engine_version" info); ("database_version", get "database_version" info);
        ("file_size", hash.1); ("file_hash", hash.2); ("state", VStr "DETECTED")].

(** The handling of a new threat: whether the loop goes on to its end. *)
Definition store_threat (operation_id : string) (owner : option Z) (info : dict) (pinned : bool) (t : tick) (descriptor file name : string) : act worker bool :=
  hash ← lift (if pinned then content ← t_read t descriptor; Ok (content_hash content) else Ok (_hash_file (t_disk t) (parts_of file)));
  items ← on_db (list_file_detections VNone VNone 256 owner);
  if existsb (same_detection file hash.2) items
  then _ ← set_progress count_detection; mret false
  else
    let id := "det-" +:+ t_uuid t in
    _ ← on_db (upsert_file_detection (t_now t) (detection_fields operation_id file name info (t_now t) id hash));
    _ ← set_progress count_detection;
    _ ← on_db (_emit (t_now t) (t_event t) operation_id "FILE_DETECTION" "DETECTED" name "WARNING"
                 [("detection_id", VStr id); ("file_ref", VStr (_file_ref file))]);
    mret true.

Definition handle_report (operation_id : string) (owner : option Z) (info : dict) (pinned : bool) (t : tick) (r : report) : act worker bool :=
  match r with
  | Threat descriptor file name =>
      _ ← set_progress (fun p => see file (set_result file "THREAT" p));
      known ← gets (fun s => member file (detection_paths (w_progress s)));
      if known : bool then mret false
      else _ ← set_progress (note_threat file); store_threat operation_id owner info pinned t descriptor file name
  | Limit file => _ ← set_progress (note_limit file); mret false
  | Clean file => _ ← set_progress (note_clean file); mret true
  | Failure file => _ ← set_progress (note_failure file); mret true
  | Silent => mret true
  | Foreign => mret false
  end.

(** Every 32 files the counters are stored. *)
Definition counters (p : progress) : list (string * val) :=
  [("files_inspected", count (inspected p)); ("detection_count", count (detected p)); ("error_count", count (errors p)); ("skipped_count", count (skipped_files p))].

Definition store_counters (operation_id : string) : act worker unit :=
  p ← gets w_progress;
  when ((0 <? inspected p)%nat && (inspected p mod 32 =? 0)%nat)
    (set_scan operation_id (counters p ++ [("detail", VStr "Scanning selected files.")])).

(** The loop over the lines; it stops at a cancellation or when the time is up. *)
Fixpoint read_lines (operation_id : string) (owner : option Z) (info : dict) (aliases : list (string * string)) (ticks : list tick) : act worker unit :=
  match ticks with
  | [] => mret tt
  | t :: ticks =>
      if t_cancelled t || t_expired t then mret tt
      else
        ended ← handle_report operation_id owner info (negb (length aliases =? 0)%nat) t (classify aliases (t_line t));
        _ ← when ended (store_counters operation_id);
        read_lines operation_id owner info aliases ticks
  end.
End runs.

(** * The worker of a scan ([file_security.py], [_run])

    The whole of [_run]: the start of the scanner on the pinned files, the lines,
    the verdict, the receipts and the end, whatever exception comes between. *)

(** Fingerprints by path, in the order of insertion. *)
Abbreviation prints := (list (path * option string)).

Fixpoint unique (sources : list path) : list path :=
  match sources with [] => [] | p :: sources => p :: List.filter (fun q => negb (bool_decide (q = p))) (unique sources) end.

Section worker.
Context `{FloatText} `{IsoText} `{Sqlite} `{Sha256} (max_bytes : Z) (groups : Z -> list Z).

Definition prints_of (f : fs) (sources : list path) : prints := map (fun p => (p, fingerprint f p)) (unique sources).

Definition before_of (p : path) (before : prints) : option string :=
  match List.find (fun e => bool_decide (e.1 = p)) before with Some (_, h) => h | None => None end.

(** [incomplete_reasons.get(raw)] is the engine limit. *)
Definition limited (file : string) (p : progress) : bool := match dget file (reasons p) with Some _ => true | None => false end.

Definition result_of (file : string) (p : progress) : string := default "PARTIAL" (dget file (results p)).

(** The receipts of the pinned files. *)
Definition save_file (operation_id : string) (owner : option Z) (info : dict) (r : run) (p : progress) (same : bool) (entry : path * option string) : act worker unit :=
  let '(source, before) := entry in
  let raw := path_text source in
  on_db (save owner source before (fingerprint (r_end_disk r) source) (generation info)
    (if same then result_of raw p else "PARTIAL") operation_id (stamp (r_end r)) (same && limited raw p)).

(** What a selected source is recorded with, and the verdict after it. *)
Definition receipt_state (file_mode : bool) (raw : string) (o : outcome_of) (p : progress) : string :=
  if file_mode then result_of raw p
  else if String.eqb (o_state o) "COMPLETED" then (if (0 <? detected p)%nat then "THREAT" else "CLEAN") else "PARTIAL".

Definition unchanged (before : prints) (r : run) (same : bool) (source : path) : bool :=
  bool_decide (before_of source before = fingerprint (r_end_disk r) source) && same.

Definition after_source (before : prints) (r : run) (same : bool) (o : outcome_of) (source : path) : outcome_of :=
  if unchanged before r same source then o else changed_selection.

Definition save_source (file_mode : bool) (operation_id : string) (owner : option Z) (info : dict) (r : run) (p : progress) (same : bool)
    (before : prints) (o : outcome_of) (source : path) : act worker unit :=
  let raw := path_text source in
  on_db (save owner source (before_of source before) (fingerprint (r_end_disk r) source) (generation info)
    (if unchanged before r same source then receipt_state file_mode raw o p else "PARTIAL") operation_id (stamp (r_end r)) (same && limited raw p)).

Fixpoint save_sources (file_mode : bool) (operation_id : string) (owner : option Z) (info : dict) (r : run) (p : progress) (same : bool)
    (before : prints) (o : outcome_of) (sources : list path) : act worker outcome_of :=
  match sources with
  | [] => mret o
  | source :: sources =>
      let o' := after_source before r same o source in
      _ ← save_source file_mode operation_id owner info r p same before o source;
      save_sources file_mode operation_id owner info r p same before o' sources
  end.

Definition final_event (o : outcome_of) : string :=
  if String.eqb (o_state o) "COMPLETED" then "FILE_SCAN_COMPLETED"
  else if String.eqb (o_state o) "CANCELLED" then "FILE_SCAN_CANCELLED"
  else if String.eqb (o_state o) "PARTIAL" then "FILE_SCAN_PARTIAL" else "FILE_SCAN_FAILED".

Definition finished (o : outcome_of) (r : run) (p : progress) : list (string * val) :=
  [("state", VStr (o_state o)); ("phase", VStr (o_phase o)); ("ended_at", VStr (stamp (r_end r)))] ++ counters p ++ [("detail", VStr (o_detail o))].

(** An event that was set stays set. *)
Definition any_cancelled (r : run) : bool := existsb t_cancelled (r_ticks r) || r_cancelled r.
Definition any_expired (r : run) : bool := existsb t_expired (r_ticks r) || r_expired r.

(** From the end of the scanner to the last event. *)
Definition conclude (mode operation_id : string) (owner : option Z) (r : run) (sources : list path) (before file_before : prints) : act worker unit :=
  let info := r_info r in
  code ← lift (r_code r);
  p ← gets w_progress;
  let o := verdict (any_cancelled r) (any_expired r) code p in
  o ← (if String.eqb mode "SYSTEM" then mret o
       else
         let same := bool_decide (generation (r_end_info r) = generation info) in
         _ ← each (save_file operation_id owner info r p same) file_before;
         save_sources (String.eqb mode "FILE") operation_id owner info r p same before o sources);
  _ ← set_scan operation_id (finished o r p);
  on_db (_emit max_bytes (r_end r) (r_end_event r) operation_id (final_event o)
           (if String.eqb (o_state o) "COMPLETED" then "SUCCESS" else o_state o) (o_detail o)
           (if String.eqb (o_state o) "COMPLETED" then "INFO" else "WARNING") []).

(** An empty folder is a complete observation of no file. *)
Definition conclude_empty (operation_id : string) (owner : option Z) (r : run) (sources : list path) (before : prints) : act worker unit :=
  _ ← set_scan operation_id [("state", VStr "COMPLETED"); ("phase", VStr "COMPLETED"); ("ended_at", VStr (stamp (r_end r))); ("files_inspected", VInt 0);
                             ("detail", VStr "The selected folder contains no regular files.")];
  each (fun source => on_db (save owner source (before_of source before) (fingerprint (r_end_disk r) source) (generation (r_info r)) "CLEAN" operation_id (stamp (r_end r)) false))
    sources.

Definition aliases_of (first : Z) (handles : list path) : list (string * string) :=
  imap (fun i p => (alias_text (first + Z.of_nat i), path_text p)) handles.

(** From the start of the scanner on the pinned files. *)
Definition scan_pinned (mode operation_id : string) (owner : option Z) (r : run) (sources : list path) (before : prints) (pinned : list path) : act worker unit :=
  _ ← match r_popen r with Some e => raise e | None => mret tt end;
  _ ← read_lines max_bytes operation_id owner (r_info r) (aliases_of (r_descriptor r) pinned) (r_ticks r);
  conclude mode operation_id owner r sources before (prints_of (r_disk r) pinned).

(** [try:]. *)
Definition scan_body (mode operation_id : string) (owner : option Z) (r : run) (sources : list path) (before : prints) : act worker unit :=
  pins ← (if String.eqb mode "SYSTEM" then mret None
          else pins ← lift (_scan_handles groups (r_disk r) sources owner (String.eqb mode "FOLDER"));
               _ ← set_progress (fun _ => no_progress (skipped pins)); mret (Some pins));
  match pins with
  | Some (Pinned [] O _) => conclude_empty operation_id owner r sources before
  | Some (Pinned [] _ _) => raise (OSError "The selection contains no readable, caller-owned regular files.")
  | Some pins => scan_pinned mode operation_id owner r sources before (handles pins)
  | None => scan_pinned mode operation_id owner r sources before []
  end.

(** [except (OSError, subprocess.SubprocessError) as error:]. *)
Definition scan_failed (operation_id : string) (r : run) (e : exn) : act worker unit :=
  p ← gets w_progress;
  _ ← set_scan operation_id ([("state", VStr "FAILED"); ("phase", VStr "FAILED"); ("ended_at", VStr (stamp (r_end r))); ("files_inspected", count (inspected p));
                              ("detection_count", count (detected p)); ("error_count", count (S (errors p))); ("skipped_count", count (skipped_files p));
                              ("detail", VStr "ClamAV is unavailable or stopped.")]);
  on_db (_emit max_bytes (r_end r) (r_end_event r) operation_id "FILE_SCAN_FAILED" "FAILURE" (exn_name e) "ERROR" []).

Definition not_ready (info : dict) : bool := in_strs ["UNAVAILABLE"; "OUTDATED"; "INITIALIZING"; "UPDATING"] (get "status" info).

Definition refuse_scan (operation_id : string) (r : run) : act worker unit :=
  _ ← set_scan operation_id ([("state", VStr "FAILED"); ("phase", VStr "FAILED"); ("ended_at", VStr (stamp (r_now r)));
                              ("detail", VStr "Threat definitions are unavailable or outdated.")] ++ versions (r_info r));
  _ ← on_db (_emit max_bytes (r_now r) (r_event r) operation_id "FILE_SCAN_FAILED" "FAILURE" "Definitions are unavailable or outdated." "ERROR" []);
  _finish max_bytes (r_now r) operation_id.

(** The record and the event of the start; no handler is around it. *)
Definition announce (operation_id : string) (r : run) : act worker dict :=
  operation ← on_db (get_file_scan operation_id);
  _ ← set_scan operation_id ([("state", VStr "SCANNING"); ("phase", VStr "SCANNING"); ("detail", VStr "Scanning selected files.")] ++ versions (r_info r));
  _ ← on_db (_emit max_bytes (r_now r) (r_event r) operation_id "FILE_SCAN_STARTED" "IN_PROGRESS" "File scan started." "INFO" []);
  mret (default [] operation).

(** [_run(operation_id, mode, scope, cancel)]; [sources] are the paths of the
    scope. *)
Definition _run (operation_id mode : string) (sources : list path) (r : run) : act worker unit :=
  if not_ready (r_info r) then refuse_scan operation_id r
  else
    let before := if String.eqb mode "SYSTEM" then [] else prints_of (r_disk r) sources in
    operation ← announce operation_id r;
    _ ← set_progress (fun _ => no_progress 0);
    ((scan_body mode operation_id (owner_of operation) r sources before except run_caught => scan_failed operation_id r)
     always (_finish max_bytes (r_end r) operation_id))%act.
End worker.
