(* ===== verification/ScanManager.v ===== *)
(** * The manager of scans ([file_security.py], [FileSecurityManager])

    The requests: the start of a scan, its cancellation and status, the
    reconciliation of scans without a worker, the receipts and results of the
    synchronous entry point, and the detections with the state of their source.
    A started worker is returned to be run beside the requests. *)
From S2P Require Import Prelude PyVal PyStr Json PyText PyTime TelemetryValues Sql TelemetryStore TelemetryRetention TelemetryQuery Files ScanAccess ScanReceipts ScanOutput ScanRuns.

Definition ACTIVE_STATES : list string := ["QUEUED"; "SCANNING"; "FINALIZING"].
Definition MODES : list string := ["FILE"; "FOLDER"; "SYSTEM"].

Definition active_row (value : dict) : bool := in_strs ACTIVE_STATES (get "state" value).

(** A worker that has been started: the operation, its mode and its sources. *)
Record started := Started { st_operation : string; st_mode : string; st_sources : list path }.

(** ** Activity *)

Definition FILE_ACTIVITY_TITLES : list (string * (string * string)) := [
  ("FILE_SCAN_STARTED", ("Scan started", "GREYWARD started inspecting the selected scope."));
  ("FILE_SCAN_COMPLETED", ("Scan completed", "The selected scope was inspected without a scan error."));
  ("FILE_SCAN_CANCELLED", ("Scan cancelled", "The scan was cancelled before completion; this is not a clean result."));
  ("FILE_SCAN_PARTIAL", ("Scan incomplete", "The scan completed with errors; some files may not have been inspected."));
  ("FILE_SCAN_FAILED", ("Scan failed", "The scanner could not complete the selected operation."));
  ("FILE_DETECTION", ("Threat detected", "ClamAV identified a known threat in an inspected file."));
  ("FILE_QUARANTINED", ("File quarantined", "The detected file was moved to protected GREYWARD quarantine."));
  ("FILE_QUARANTINE_FAILED", ("Quarantine failed", "The detected file was not removed from its original location."));
  ("FILE_RESTORED", ("File restored for review", "The quarantined content was restored to a collision-safe review location."));
  ("FILE_RESTORE_FAILED", ("Restore failed", "The quarantined content was not restored."));
  ("FILE_DELETED", ("Quarantined file deleted", "The quarantined object was permanently deleted."));
  ("FILE_DELETE_FAILED", ("Permanent deletion failed", "The quarantined object could not be permanently deleted."));
  ("SAFE_OPEN_RESULT", ("Safe Open", "The selected file was handled by the restricted no-network context."));
  ("SANITIZATION_RESULT", ("Sanitized copy", "A separate metadata-sanitized copy operation was recorded."))].

(** The entry of an event, if its type has a title. *)
Definition activity_detail `{FloatText} (event_type outcome default_detail : string) (message : val) : string :=
  if String.eqb event_type "FILE_DETECTION" then
    let name := strip (text_of message) in
    if String.eqb name "" then default_detail else "ClamAV identified " +:+ str_take 160 name +:+ "."
  else if member event_type ["SAFE_OPEN_RESULT"; "SANITIZATION_RESULT"] || member outcome ["FAILURE"; "FAILED"; "PARTIAL"]
  then str_take 320 (py_str (py_or message (VStr default_detail)))
  else default_detail.

Definition activity_item `{FloatText} (item : dict) : option dict :=
  let event_type := str_upper (text_of (get "event_type" item)) in
  match dget event_type FILE_ACTIVITY_TITLES with
  | None => None
  | Some (title, default_detail) =>
      let details := match get "details" item with VDict d => d | _ => [] end in
      let outcome := str_upper (text_of (get "outcome" item)) in
      Some (dlit
        [("event_id", VStr (str_take 96 (text_of (get "event_id" item)))); ("title", VStr title);
         ("detail", VStr (str_take 320 (activity_detail event_type outcome default_detail (get "message" details)))); ("category", VStr "FILE_SECURITY");
         ("severity", VStr (if member outcome ["FAILURE"; "FAILED"] then "IMPORTANT" else if member outcome ["DETECTED"; "PARTIAL"] then "REVIEW" else "INFORMATION"));
         ("occurred_at", VStr (text_of (py_or (get "occurred_at" item) (get "observed_at" item))))])
  end.

Definition later_item (a b : dict) : bool :=
  let key k d := text_val (get k d) in
  match String.compare (key "occurred_at" a) (key "occurred_at" b) with
  | Gt => true
  | Lt => false
  | Eq => match String.compare (key "event_id" a) (key "event_id" b) with Lt => false | _ => true end
  end.

(** [file_activity_items(values, limit)]. *)
Definition file_activity_items `{FloatText} (values : list dict) (limit : Z) : list dict :=
  take (bounded 128 limit) (sort_by later_item (omap activity_item values)).

Section manager.
Context `{FloatText} `{IsoText} `{Sqlite} `{Sha256} (max_bytes : Z) (groups : Z -> list Z).

(** [_owned_scan(operation_id, owner_uid)]. *)
Definition owned_value (owner : option Z) (value : dict) : bool :=
  match owner with None => true | Some uid => py_eq (get "owner_uid" value) (VInt uid) end.

Definition _owned_scan (operation_id : string) (owner : option Z) : act worker (option dict) :=
  value ← on_db (get_file_scan operation_id);
  mret (match value with Some v => if owned_value owner v then Some v else None | None => None end).

(** [_mark_interrupted_if_orphaned(operation_id)]. *)
Definition _mark_interrupted_if_orphaned (now : Z) (operation_id : string) : act worker bool :=
  running ← gets (fun s => match dget operation_id (w_tokens s) with Some _ => true | None => false end);
  if running : bool then mret false
  else
    value ← on_db (get_file_scan operation_id);
    if match value with Some v => active_row v | None => false end
    then _ ← set_scan operation_id [("state", VStr "INTERRUPTED"); ("phase", VStr "INTERRUPTED"); ("ended_at", VStr (stamp now));
                                    ("detail", VStr "The scan stopped before Security Context could finish it.")];
         mret true
    else mret false.

(** [_active()]. *)
Fixpoint first_active (now : Z) (items : list dict) : act worker (option string) :=
  match items with
  | [] => mret None
  | item :: items =>
      if active_row item
      then let operation_id := py_str (get "operation_id" item) in
           orphaned ← _mark_interrupted_if_orphaned now operation_id;
           if orphaned : bool then first_active now items else mret (Some operation_id)
      else first_active now items
  end.

Definition _active (now : Z) : act worker (option string) :=
  items ← on_db (list_file_scans 64 None); first_active now items.

(** [reconcile_interrupted_scans(limit, owner_uid=...)]. *)
Definition reconcile_interrupted_scans (now limit : Z) (owner : option Z) : act worker (list dict) :=
  items ← on_db (list_file_scans limit owner);
  _ ← each (fun item => when (active_row item) (_ ← _mark_interrupted_if_orphaned now (py_str (get "operation_id" item)); mret tt)) items;
  on_db (list_file_scans limit owner).

(** [cancel(operation_id, owner_uid=...)]; the signal to the scanner is left
    out. *)
Definition cancel (operation_id : string) (owner : option Z) : act worker (option dict) :=
  value ← _owned_scan operation_id owner;
  match value with
  | None => mret None
  | Some _ =>
      _ ← set_tokens (map (fun t => if String.eqb t.1 operation_id then (t.1, true) else t));
      on_db (get_file_scan operation_id)
  end.

(** ** Start *)

Definition name_of (p : path) : string := List.last p "".

(** The selection of a scan of files or of a folder. *)
Definition selection_error : exn := ValueError "Select one folder or up to 64 files.".

Definition select_paths (f : fs) (mode : string) (paths : val) (owner : option Z) : res (dict * list path) :=
  match paths with
  | VList (first :: _ as l) =>
      _ ← require (length l <=? if String.eqb mode "FILE" then 64 else 1)%nat selection_error;
      selected ← _safe_path groups f owner (String.eqb mode "FOLDER") first;
      _ ← require (negb (String.eqb mode "FILE") || path_is_file f selected) (ValueError "The selected source is not a regular file.");
      chosen ← (if String.eqb mode "FILE" then mapM_res (_safe_path groups f owner false) l else Ok [selected]);
      _ ← require (negb (String.eqb mode "FILE") || forallb (path_is_file f) chosen) (ValueError "Select regular files only.");
      let label := if (length chosen =? 1)%nat then name_of selected else str_of_Z (Z.of_nat (length chosen)) +:+ " files" in
      Ok (dlit [("label", VStr label); ("path", VStr (path_text selected)); ("paths", VList (map (fun p => VStr (path_text p)) chosen));
                ("kind", VStr (str_lower mode))], chosen)
  | _ => Err selection_error
  end.

Definition system_scope : dict := dlit [("label", VStr "Local system files"); ("roots", VList [VStr "/"])].

Definition scope_of (f : fs) (mode : string) (paths : val) (owner : option Z) (authorized : bool) : res (dict * list path) :=
  if String.eqb mode "SYSTEM"
  then _ ← require authorized (PermissionError "System scanning requires authorization."); Ok (system_scope, [[]])
  else select_paths f mode paths owner.

Definition queued (now : Z) (operation_id mode : string) (owner : option Z) (scope info : dict) : dict :=
  dlit [("operation_id", VStr operation_id); ("owner_uid", match owner with Some uid => VInt uid | None => VNone end); ("mode", VStr mode);
        ("scope", VDict scope); ("state", VStr "QUEUED"); ("phase", VStr "QUEUED"); ("started_at", VStr (stamp now));
        ("scanner_version", get "engine_version" info); ("database_version", get "database_version" info); ("detail", VStr "Waiting for the scanner.")].

Definition already_running : exn := RuntimeError "A file security scan is already running.".

(** The background scan of the caller gives way to the next request. *)
Definition give_way (active : string) (owner : option Z) (background : bool) : act worker unit :=
  previous ← _owned_scan active owner;
  let in_background := match previous with Some v => truthy (get "background" (match get "scope" v with VDict s => s | _ => [] end)) | None => false end in
  when (negb background && in_background) (_ ← cancel active owner; mret tt).

(** [start(mode, paths, ...)]: [fresh] is the random part of the identifier. *)
Definition start (now : Z) (f : fs) (info : dict) (fresh : string) (mode : val) (paths : val) (owner : option Z) (authorized background : bool)
  : act worker (dict * started) :=
  let mode := str_upper (py_str (py_or mode (VStr ""))) in
  let paths := py_or paths (VList []) in
  _ ← lift (require (member mode MODES) (ValueError "Unsupported scan mode."));
  active ← _active now;
  match active with
  | Some operation_id => _ ← give_way operation_id owner background; raise already_running
  | None =>
      scope ← lift (scope_of f mode paths owner authorized);
      _ ← lift (require (is_str "CURRENT" (get "status" info) && truthy (get "engine_version" info))
                  (RuntimeError "ClamAV scanning is unavailable until its engine and current security database are available."));
      let operation_id := "scan-" +:+ fresh in
      _ ← on_db (create_file_scan now (queued now operation_id mode owner (dset "background" (VBool background) scope.1) info));
      _ ← set_tokens (dset operation_id false);
      value ← on_db (get_file_scan operation_id);
      mret (default (dlit [("operation_id", VStr operation_id); ("state", VStr "QUEUED")]) value, Started operation_id mode scope.2)
  end.

(** ** Status *)

(** [status(operation_id, owner_uid=...)]. *)
Definition status (now : Z) (operation_id : string) (owner : option Z) : act worker (option dict) :=
  value ← _owned_scan operation_id owner;
  match value with
  | None => mret None
  | Some _ =>
      _ ← _mark_interrupted_if_orphaned now operation_id;
      value ← on_db (get_file_scan operation_id);
      match value with
      | None => mret None
      | Some v => detections ← on_db (list_file_detections VNone (VStr operation_id) 128 owner);
                  mret (Some (dset "detections" (VList (map VDict detections)) v))
      end
  end.

(** The source of a detection: walked without following a link. *)
Fixpoint source_walk (f : fs) (here : path) (todo : list string) : string :=
  match todo with
  | [] => "UNKNOWN"
  | c :: rest =>
      match lstat f (here ++ [c]) with
      | Err (FileNotFoundError _) => "MISSING"
      | Err _ => "UNKNOWN"
      | Ok n =>
          if is_link_node n then "UNKNOWN"
          else if (length rest =? 0)%nat then (if is_reg_node n then "PRESENT" else "UNKNOWN")
          else source_walk f (here ++ [c]) rest
      end
  end.

Definition with_source (f : fs) (record : dict) : dict :=
  if is_str "DETECTED" (get "state" record)
  then
    let raw := py_str (py_or (get "original_path" record) (VStr "")) in
    dset "source_status" (VStr (if is_absolute raw then source_walk f [] (parts_of raw) else "UNKNOWN")) record
  else record.

(** [detections(state=..., limit=..., owner_uid=...)]. *)
Definition detections (f : fs) (state : val) (limit : Z) (owner : option Z) : act worker (list dict) :=
  records ← on_db (list_file_detections state VNone limit owner); mret (map (with_source f) records).

(** [activity(limit, owner_uid=...)]: an error is an empty list. *)
Definition activity_caught (e : exn) : bool := is_os_error e || is_value_error e || match e with TelemetryError _ | TypeError => true | _ => false end.

Definition activity (now limit : Z) (owner : option Z) : act worker (list dict) :=
  (match owner with
   | Some uid => items ← on_db (file_scan_activity uid limit); mret (file_activity_items items limit)
   | None =>
       values ← on_db (query max_bytes now (dlit [("category", VStr "FILE_SECURITY"); ("limit", VInt (Z.of_nat (bounded 128 limit)))]));
       mret (file_activity_items (match get "events" values with VList l => omap (fun v => match v with VDict d => Some d | _ => None end) l | _ => [] end) limit)
   end except activity_caught => (fun _ => mret []))%act.

(** ** Receipts *)

(** [scan_info(raw, owner_uid=...)]. *)
Definition scan_info (f : fs) (info : dict) (raw : val) (owner : Z) : act worker dict :=
  p ← lift (_safe_path groups f (Some owner) false raw);
  let key := generation info in
  value ← on_db (lookup f owner p key (is_str "CURRENT" (get "status" info) && match key with Some k => negb (String.eqb k "") | None => false end));
  let value := match dget "database_version" value with
               | Some v => dset "scan_generation" v (ddel "database_version" value)
               | None => value
               end in
  mret (dset "scanner_version" (get "engine_version" info) (dset "database_version" (get "database_version" info) value)).

Definition no_info : dict := dlit [("state", VStr "UNAVAILABLE"); ("validity", VStr "UNKNOWN")].

Definition short_path (v : val) : bool := match v with VStr s => str_len s <=? 4096 | _ => false end.

(** [scan_infos(paths, owner_uid=...)]. *)
Fixpoint infos_of (f : fs) (info : dict) (paths : list val) (owner : Z) : act worker (list val) :=
  match paths with
  | [] => mret []
  | raw :: paths =>
      value ← (scan_info f info raw owner except (fun e => is_os_error e || is_value_error e) => (fun _ => mret no_info))%act;
      rest ← infos_of f info paths owner;
      mret (VDict (dlit [("path", raw); ("info", VDict value)]) :: rest)
  end.

Definition scan_infos (f : fs) (info : dict) (paths : val) (owner : Z) : act worker (list val) :=
  match paths with
  | VList l =>
      _ ← lift (require ((1 <=? length l)%nat && (length l <=? 32)%nat && forallb short_path l) (ValueError "Select up to 32 file paths."));
      infos_of f info l owner
  | _ => raise (ValueError "Select up to 32 file paths.")
  end.

(** ** The synchronous entry point *)

(** The receipt of a synchronous scan: the fingerprint before, the generation,
    and the digest of what was scanned. *)
Record sync_receipt := SyncReceipt { sr_fingerprint : option string; sr_generation : option string; sr_size : val; sr_hash : val }.

Definition legacy_row (now : Z) (operation_id : string) (owner : option Z) (p : path) (threat clean : bool) (detail : val) : dict :=
  let done := threat || clean in
  let state := VStr (if done then "COMPLETED" else "FAILED") in
  dlit [("operation_id", VStr operation_id); ("owner_uid", match owner with Some uid => VInt uid | None => VNone end); ("mode", VStr "FILE");
        ("scope", VDict [("label", VStr (name_of p))]); ("state", state); ("phase", state); ("started_at", VStr (stamp now)); ("ended_at", VStr (stamp now));
        ("files_inspected", VInt (if done then 1 else 0)); ("detection_count", VInt (if threat then 1 else 0)); ("detail", detail)].

(** [record_legacy_result(path, result, owner_uid=...)]: [state], [name] and
    [detail] are those of the result. *)
Definition record_legacy_result (now : Z) (f : fs) (fresh fresh' : string) (p : path) (state name : val) (detail : val) (receipt : option sync_receipt) (owner : option Z)
  : act worker unit :=
  let operation_id := "scan-" +:+ fresh in
  let threat := is_str "THREAT" state in
  let clean := is_str "CLEAN" state in
  _ ← on_db (create_file_scan now (legacy_row now operation_id owner p threat clean detail));
  _ ← set_scan operation_id [("ended_at", VStr (stamp now))];
  _ ← match receipt with
      | Some x => on_db (save owner p (sr_fingerprint x) (fingerprint f p) (sr_generation x)
                           (if threat then "THREAT" else if clean then "CLEAN" else "PARTIAL") operation_id (stamp now) false)
      | None => mret tt
      end;
  if negb threat then mret tt
  else
    let original := path_text p in
    let hash := match receipt with Some x => (sr_size x, sr_hash x) | None => _hash_file f p end in
    items ← detections f VNone 128 owner;
    if existsb (fun item => py_eq (get "file_ref" item) (VStr (_file_ref original)) && py_eq (get "file_hash" item) hash.2
                            && in_strs ["DETECTED"; "QUARANTINE_FAILED"] (get "state" item)) items
    then mret tt
    else
      _ ← on_db (upsert_file_detection now (dlit
            [("detection_id", VStr ("det-" +:+ fresh')); ("operation_id", VStr operation_id); ("original_path", VStr original);
             ("file_ref", VStr (_file_ref original)); ("detection_name", py_or name (VStr "Known threat")); ("detected_at", VStr (stamp now));
             ("file_size", hash.1); ("file_hash", hash.2); ("state", VStr "DETECTED")]));
      mret tt.
End manager.
