(* ===== verification/ScanRunClaims.v ===== *)
(** * Scans: properties of a run

    What the events of a scan leave alone, what the loop over the lines makes of
    them, and what a verdict and a receipt say of the lines that were read. *)
From S2P Require Import Prelude PyVal PyStr Json PyText PyTime TelemetryValues Sql KeyedTables Findings TelemetryStore TelemetryRetention StoreInvariant Files ScanAccess ScanReceipts ScanOutput ScanRuns ScanManager.

(** ** What recording leaves alone *)

(** Receipts are as they were, and scans at most fewer. *)
Definition log_only (d d' : db) : Prop :=
  receipts d' = receipts d /\ fault d' = fault d /\ forall r, In r (scans d') -> In r (scans d).

#[export] Instance log_only_preorder : PreOrder log_only.
Proof. split; [by intros d|]. intros d1 d2 d3 (H1 & H2 & H3) (H4 & H5 & H6). repeat split; [congruence|congruence|auto]. Qed.

Section log.
Context `{FloatText} `{Sqlite} (max_bytes : Z).

Lemma connect_log : respects log_only _connect.
Proof. intros d. unfold after, _connect. by destruct (fault d). Qed.

Lemma transaction_respects (R : db -> db -> Prop) `{!PreOrder R} {A} (m : act db A) : respects R m -> respects R (transaction m).
Proof. intros Hm d. specialize (Hm d). unfold after, transaction in *. by destruct (m d) as [[a|e] d']. Qed.

#[local] Opaque _connect transaction.

Lemma upsert_finding_log now value : respects log_only (_upsert_finding now value).
Proof. unfold _upsert_finding. effects. by apply respects_modify. Qed.

#[local] Opaque _upsert_finding.

Lemma insert_event_log r : respects log_only (insert_event r).
Proof. intros d. unfold after, insert_event. by destruct (insert_ignore _ _ _). Qed.

#[local] Opaque insert_event.

Lemma record_value_log now value : respects log_only (_record_value now value).
Proof.
  unfold _record_value. effects; try apply insert_event_log.
  - unfold record_finding. effects; apply upsert_finding_log.
  - apply respects_each; [typeclasses eauto|]. intros v. unfold record_relation. effects. by apply respects_modify.
Qed.

#[local] Opaque _record_value.

Lemma evict_log d d' n : evict d = Some (d', n) -> log_only d d'.
Proof.
  unfold evict. destruct (take _ _); [destruct (top _ _ _); [destruct (top _ _ _); [done|]|]|]; intros [= <- <-]; repeat split; try done.
  intros r. unfold delete_rows. cbn. by intros [? _]%delete_where_In.
Qed.

Lemma evict_loop_log fuel n d d' k : evict_loop max_bytes fuel n d = Some (d', k) -> log_only d d'.
Proof.
  revert n d k; induction fuel as [|fuel IH]; intros n d k; [done|]. cbn [evict_loop]. destruct (_ <=? _); [by intros [= <- _]|].
  destruct (evict d) as [[d1 k1]|] eqn:E; [|by intros [= <- _]]. destruct (evict_loop max_bytes fuel (S n) d1) as [[d2 k2]|] eqn:E2; [|done].
  intros [= <- _]. etrans; [by eapply evict_log|by eapply IH].
Qed.

Lemma age_out_log now d : log_only d (age_out now d).
Proof.
  split; [done|]. split; [done|]. intros r. unfold age_out. cbn [scans with_detections with_scans with_actions with_events].
  intros [Hr _]%delete_where_In. by apply delete_where_In in Hr as [? _].
Qed.

Lemma prune_log now : respects log_only (prune max_bytes now).
Proof.
  unfold prune. effects; [apply connect_log|]. intros d. unfold after, pruned, prune_db. destruct (evict_all max_bytes (age_out now d)) as [d2 k] eqn:E. cbn [fst snd].
  pose proof (age_out_log now d) as Ha.
  unfold evict_all in E. destruct (evict_loop max_bytes (S (rows_left (age_out now d))) 0 (age_out now d)) as [[d3 k3]|] eqn:E3; cbn in E; injection E as <- _.
  - apply evict_loop_log in E3. etrans; [exact Ha|]. etrans; [exact E3|done].
  - etrans; [exact Ha|done].
Qed.

#[local] Opaque prune.

Lemma record_log now value : respects log_only (record max_bytes now value).
Proof.
  unfold record, record_many. effects; try apply connect_log; try apply prune_log. apply (transaction_respects _).
  apply respects_each; [typeclasses eauto|]. apply record_value_log.
Qed.
End log.

(** ** The lines *)

(** The lines that are read, and what they report. *)
Fixpoint read_ticks (ticks : list tick) : list tick :=
  match ticks with [] => [] | t :: ticks => if t_cancelled t || t_expired t then [] else t :: read_ticks ticks end.

Definition reported (aliases : list (string * string)) (ticks : list tick) : list report := map (fun t => classify aliases (t_line t)) (read_ticks ticks).

Definition tally (l : list report) (p : progress) : progress := fold_left (fun p r => advance r p) l p.

Lemma on_db_Ok {A} (m : act db A) s a s' : on_db m s = (Ok a, s') -> w_progress s' = w_progress s /\ m (w_store s) = (Ok a, w_store s').
Proof. unfold on_db. destruct (m (w_store s)) as [r d]. by intros [= -> <-]. Qed.

Section lines.
Context `{FloatText} `{IsoText} `{Sqlite} `{Sha256} (max_bytes : Z) (groups : Z -> list Z).

Lemma set_scan_progress operation_id changes s u s' : set_scan operation_id changes s = (Ok u, s') -> w_progress s' = w_progress s.
Proof. unfold set_scan. intros (a & s1 & Hm & [= _ <-])%act_bind_Ok. by apply on_db_Ok in Hm as [? _]. Qed.

Lemma store_threat_progress operation_id owner info pinned t descriptor file name s b s' :
  store_threat max_bytes operation_id owner info pinned t descriptor file name s = (Ok b, s') -> w_progress s' = count_detection (w_progress s).
Proof.
  unfold store_threat. intros (hash & s1 & Hh & Hrun)%act_bind_Ok. injection Hh as _ <-.
  apply act_bind_Ok in Hrun as (items & s2 & Hl & Hrun). apply on_db_Ok in Hl as [Hl _]. rewrite <- Hl.
  destruct (existsb _ items).
  - apply act_bind_Ok in Hrun as (u & s3 & [= _ <-] & [= _ <-]). done.
  - apply act_bind_Ok in Hrun as (u & s3 & Hu & Hrun). apply on_db_Ok in Hu as [Hu _]. rewrite <- Hu.
    apply act_bind_Ok in Hrun as (v & s4 & [= _ <-] & Hrun). apply act_bind_Ok in Hrun as (w & s5 & He & [= _ <-]).
    apply on_db_Ok in He as [-> _]. done.
Qed.

Lemma handle_report_progress operation_id owner info pinned t r s b s' :
  handle_report max_bytes operation_id owner info pinned t r s = (Ok b, s') -> w_progress s' = advance r (w_progress s).
Proof.
  destruct r; cbn [handle_report advance]; intros Hrun.
  - apply act_bind_Ok in Hrun as (u & s1 & [= _ <-] & Hrun). apply act_bind_Ok in Hrun as (known & s2 & [= Hk <-] & Hrun).
    cbn [w_progress] in Hk. rewrite Hk. destruct known; [by injection Hrun as _ <-|].
    apply act_bind_Ok in Hrun as (v & s3 & [= _ <-] & Hrun). by apply store_threat_progress in Hrun.
  - by apply act_bind_Ok in Hrun as (u & s1 & [= _ <-] & [= _ <-]).
  - by apply act_bind_Ok in Hrun as (u & s1 & [= _ <-] & [= _ <-]).
  - by apply act_bind_Ok in Hrun as (u & s1 & [= _ <-] & [= _ <-]).
  - by injection Hrun as _ <-.
  - by injection Hrun as _ <-.
Qed.

Lemma read_lines_progress operation_id owner info aliases ticks s u s' :
  read_lines max_bytes operation_id owner info aliases ticks s = (Ok u, s') -> w_progress s' = tally (reported aliases ticks) (w_progress s).
Proof.
  revert s; induction ticks as [|t ticks IH]; intros s; cbn [read_lines reported read_ticks map]; [by intros [= _ <-]|].
  destruct (t_cancelled t || t_expired t); [by intros [= _ <-]|].
  intros (b & s1 & Hh & Hrun)%act_bind_Ok. apply handle_report_progress in Hh.
  apply act_bind_Ok in Hrun as (v & s2 & Hs & Hrun). apply IH in Hrun. rewrite Hrun. cbn [map]. unfold tally. cbn [fold_left]. f_equal. rewrite <- Hh.
  destruct b; [|by injection Hs as _ <-]. cbn [when] in Hs. unfold store_counters in Hs.
  apply act_bind_Ok in Hs as (p & s3 & [= _ <-] & Hs). unfold when in Hs. destruct (_ && _); [|by injection Hs as _ <-].
  by apply set_scan_progress in Hs.
Qed.
End lines.

(** ** What the counters and the results tell *)

Lemma note_clean_kept f p :
  let p' := note_clean f p in
  detected p' = detected p /\ detection_paths p' = detection_paths p /\ errors p' = errors p /\ skipped_files p' = skipped_files p.
Proof. unfold note_clean, see. by destruct (dget f (results p)); destruct (String.eqb f ""); [|destruct (member f _)|..|destruct (member f _)]. Qed.

Lemma note_failure_kept f p :
  let p' := note_failure f p in detected p' = detected p /\ detection_paths p' = detection_paths p /\ errors p' = S (errors p).
Proof. unfold note_failure. by destruct (String.eqb f "" || _). Qed.

Lemma see_kept f p :
  let p' := see f p in
  detected p' = detected p /\ detection_paths p' = detection_paths p /\ errors p' = errors p /\ skipped_files p' = skipped_files p /\ results p' = results p.
Proof. unfold see. by destruct (member f _). Qed.

Lemma advance_detected r p : detected p = length (detection_paths p) -> detected (advance r p) = length (detection_paths (advance r p)).
Proof.
  destruct r as [d file name|file|file|file| |]; cbn [advance]; intros Hp; try done.
  - set (p1 := see file (set_result file "THREAT" p)).
    destruct (see_kept file (set_result file "THREAT" p)) as (Hd & Hl & _). fold p1 in Hd, Hl. cbn in Hd, Hl.
    destruct (member file (detection_paths p1)); [congruence|]. cbn. rewrite length_app. cbn. rewrite Hl. lia.
  - by destruct (note_clean_kept file p) as (-> & -> & _).
  - by destruct (note_failure_kept file p) as (-> & -> & _).
Qed.

Lemma tally_snoc l r p : tally (l ++ [r]) p = advance r (tally l p).
Proof. unfold tally. by rewrite fold_left_app. Qed.

Lemma tally_detected l n : detected (tally l (no_progress n)) = length (detection_paths (tally l (no_progress n))).
Proof. induction l as [|r l IH] using rev_ind; [done|]. rewrite tally_snoc. by apply advance_detected. Qed.

(** A threat is counted, and only threats are. *)
Lemma advance_paths r p :
  length (detection_paths (advance r p)) = length (detection_paths p) \/ exists d f n, r = Threat d f n.
Proof.
  destruct r as [d file name|file|file|file| |]; cbn [advance]; [right; by do 3 eexists|by left| | |by left|by left]; left.
  - by destruct (note_clean_kept file p) as (_ & -> & _).
  - by destruct (note_failure_kept file p) as (_ & -> & _).
Qed.

Lemma tally_threat l n : (0 < detected (tally l (no_progress n)))%nat <-> exists d f m, In (Threat d f m) l.
Proof.
  rewrite tally_detected. induction l as [|r l IH] using rev_ind.
  - cbn. split; [lia|by intros (? & ? & ? & [])].
  - rewrite tally_snoc. split.
    + intros Hlen. destruct (advance_paths r (tally l (no_progress n))) as [He|(d & f & m & ->)].
      * rewrite He in Hlen. apply IH in Hlen as (d & f & m & Hin). exists d, f, m. apply in_or_app. by left.
      * exists d, f, m. apply in_or_app. right. by left.
    + intros (d & f & m & [Hin|[->|[]]]%in_app_or).
      * destruct (advance_paths r (tally l (no_progress n))) as [He|(d' & f' & m' & ->)]; [rewrite He; apply IH; by exists d, f, m|].
        assert (0 < length (detection_paths (tally l (no_progress n))))%nat as Hpos by (apply IH; by exists d, f, m).
        cbn [advance]. set (p1 := see f' (set_result f' "THREAT" _)).
        assert (detection_paths p1 = detection_paths (tally l (no_progress n))) as Hl
          by exact (proj1 (proj2 (see_kept f' (set_result f' "THREAT" (tally l (no_progress n)))))).
        destruct (member f' (detection_paths p1)); [by rewrite Hl|]. cbn. rewrite length_app. cbn. lia.
      * cbn [advance]. set (p1 := see f (set_result f "THREAT" _)). destruct (member f (detection_paths p1)) eqn:Em.
        -- destruct (detection_paths p1); [done|cbn; lia].
        -- cbn. rewrite length_app. cbn. lia.
Qed.

(** Nothing was incomplete: no failure and no limit was reported, and nothing was
    skipped before. *)
Definition troubled (r : report) : bool := match r with Limit _ | Failure _ => true | _ => false end.

Lemma advance_incomplete r p : incomplete (advance r p) = incomplete p || troubled r.
Proof.
  unfold incomplete. destruct r as [d file name|file|file|file| |]; cbn [advance troubled]; try by rewrite orb_false_r.
  - rewrite orb_false_r. set (p1 := see _ _). destruct (see_kept file (set_result file "THREAT" p)) as (_ & _ & He & Hs & _). fold p1 in He, Hs. cbn in He, Hs.
    destruct (member file (detection_paths p1)); cbn; by rewrite He, Hs.
  - cbn [skipped_files errors note_limit]. by rewrite !orb_true_r.
  - rewrite orb_false_r. by destruct (note_clean_kept file p) as (_ & _ & -> & ->).
  - rewrite orb_true_r. by destruct (note_failure_kept file p) as (_ & _ & ->).
Qed.

Lemma tally_incomplete l p : incomplete (tally l p) = incomplete p || existsb troubled l.
Proof.
  revert p; induction l as [|r l IH]; intros p; [by rewrite orb_false_r|]. change (tally (r :: l) p) with (tally l (advance r p)).
  rewrite IH, advance_incomplete. cbn. by rewrite orb_assoc.
Qed.

(** The verdict that a scan is complete. *)
Lemma verdict_completed cancelled expired code p :
  o_state (verdict cancelled expired code p) = "COMPLETED" ->
  cancelled = false /\ expired = false /\ incomplete p = false /\ (code = 0 \/ code = 1 /\ (0 < detected p)%nat).
Proof.
  unfold verdict. destruct cancelled; [done|]. destruct expired; [by destruct (productive p)|]. destruct (Z.eqb_spec code 0) as [->|_].
  - cbn [o_state both]. destruct (incomplete p); [done|]. intros _. repeat split. by left.
  - destruct (Z.eqb_spec code 1) as [->|_]; [|by cbn; destruct (productive p)]. cbn [o_state both]. destruct (incomplete p); [done|]. cbn [orb].
    destruct (Nat.ltb_spec 0 (detected p)); [|done]. intros _. repeat split. by right.
Qed.

(** The result of a file is clean where a line reports it clean and no line
    reports a threat or a limit in it. *)
Definition spoils (file : string) (r : report) : bool :=
  match r with Threat _ f _ | Limit f => String.eqb f file | _ => false end.
Definition vouches (file : string) (r : report) : bool := match r with Clean f => String.eqb f file | _ => false end.

Lemma results_see file p : results (see file p) = results p.
Proof. apply see_kept. Qed.

Definition new_result (file : string) (r : report) (old : option string) : option string :=
  match r with
  | Threat _ f _ => if String.eqb f file then Some "THREAT" else old
  | Limit f => if String.eqb f file then Some "PARTIAL" else old
  | Clean f => if String.eqb f file then Some (default "CLEAN" old) else old
  | _ => old
  end.

Lemma dget_dset_eqb file f v (d : list (string * string)) : dget file (dset f v d) = if String.eqb f file then Some v else dget file d.
Proof. destruct (String.eqb_spec f file) as [->|Hne]; [apply dget_dset_eq|]. by apply dget_dset_ne. Qed.

Lemma advance_result file r p : dget file (results (advance r p)) = new_result file r (dget file (results p)).
Proof.
  destruct r as [d f name|f|f|f| |]; cbn [advance new_result]; try done.
  - set (p1 := see f (set_result f "THREAT" p)). rewrite <- (dget_dset_eqb file f "THREAT").
    assert (results p1 = dset f "THREAT" (results p)) as <- by (unfold p1; by rewrite results_see).
    by destruct (member f (detection_paths p1)).
  - cbn. apply dget_dset_eqb.
  - unfold note_clean. destruct (dget f (results p)) as [x|] eqn:E.
    + assert (dget file (results p) = if String.eqb f file then Some (default "CLEAN" (dget file (results p))) else dget file (results p)) as <-.
      { destruct (String.eqb_spec f file) as [<-|]; [by rewrite E|done]. }
      by destruct (String.eqb f ""); rewrite ?results_see.
    + assert (dget file (dset f "CLEAN" (results p)) = if String.eqb f file then Some (default "CLEAN" (dget file (results p))) else dget file (results p)) as <-.
      { rewrite dget_dset_eqb. destruct (String.eqb_spec f file) as [<-|]; [by rewrite E|done]. }
      by destruct (String.eqb f ""); rewrite ?results_see.
  - unfold note_failure. by destruct (_ || _).
Qed.

Lemma tally_clean file l n :
  (dget file (results (tally l (no_progress n))) = None -> existsb (spoils file) l = false)
  /\ (dget file (results (tally l (no_progress n))) = Some "CLEAN" -> existsb (vouches file) l = true /\ existsb (spoils file) l = false).
Proof.
  induction l as [|r l [IHn IHc]] using rev_ind; [done|]. rewrite tally_snoc, advance_result, !existsb_app. cbn. rewrite !orb_false_r.
  set (o := dget file (results (tally l (no_progress n)))) in *.
  destruct r as [d f name|f|f|f| |]; cbn [new_result spoils vouches]; rewrite ?orb_false_r; try (by split); destruct (String.eqb f file); rewrite ?orb_false_r; try (by split).
  split; [done|]. rewrite orb_true_r. destruct o; cbn; [intros Hc; by destruct (IHc Hc)|]. intros _. by rewrite IHn.
Qed.

(** * Scans: claims

    A scan is complete only where nothing was left out, a receipt calls clean only
    what was seen to be clean, and no worker leaves its scan running. *)

Section claims.
Context `{FloatText} `{IsoText} `{Sqlite} `{Sha256} (max_bytes : Z) (groups : Z -> list Z).

#[local] Opaque fingerprint _scan_handles.

(** ** The row of a scan *)

(** The rows of an operation have this state. *)
Definition in_rows (operation_id state : string) (d : db) : Prop :=
  forall row, In row (scans d) -> sql_eq (get "operation_id" row) (VStr (_text (VStr operation_id) 96)) = true -> get "state" row = VStr state.

Lemma in_rows_log operation_id state d d' : log_only d d' -> in_rows operation_id state d -> in_rows operation_id state d'.
Proof. intros (_ & _ & Hsub) Hd row Hrow. by apply Hd, Hsub. Qed.

Lemma set_state operation_id state changes d v d' :
  ~ In "state" (map fst changes) ->
  update_file_scan operation_id (("state", VStr state) :: changes) d = (Ok v, d') -> in_rows operation_id state d'.
Proof.
  intros Hchanges. unfold update_file_scan. cbn [List.filter member fst String.eqb Ascii.eqb Bool.eqb orb]. 
  set (kept := List.filter _ changes). change (member "state" SCAN_COLUMNS) with true. cbn [length Nat.eqb].
  intros (u & d1 & Hc & Hrun)%act_bind_Ok. apply act_bind_Ok in Hrun as (u2 & d2 & Ht & Hrun).
  assert (d' = d2) as ->.
  { unfold get_file_scan in Hrun. apply act_bind_Ok in Hrun as (u3 & d3 & Hc3 & [= _ <-]). unfold _connect in Hc3. destruct (fault d2); [done|]. by injection Hc3. }
  unfold transaction, modify in Ht. injection Ht as _ <-. intros row Hrow Hid. cbn [scans with_scans] in Hrow. unfold update_where in Hrow.
  apply in_map_iff in Hrow as (old & <- & _). destruct (sql_eq (get "operation_id" old) _) eqn:E; [|congruence].
  cbn [map stored_change fst String.eqb]. unfold dupdate. cbn [fold_left fst snd]. fold (dupdate (dset "state" (VStr state) old) (map stored_change kept)).
  rewrite get_dupdate_other; [apply get_dset_eq|]. rewrite stored_keys. intros Hin. apply Hchanges. apply in_map_iff in Hin as (x & <- & Hx).
  apply in_map. by apply filter_In in Hx as [? _].
Qed.

Lemma set_scan_state operation_id state changes s u s' :
  ~ In "state" (map fst changes) -> set_scan operation_id (("state", VStr state) :: changes) s = (Ok u, s') ->
  in_rows operation_id state (w_store s').
Proof.
  intros Hch. unfold set_scan. intros (v & s1 & Hu & [= _ <-])%act_bind_Ok. apply on_db_Ok in Hu as [_ Hu]. by apply set_state in Hu.
Qed.

#[local] Opaque record prune.

Lemma emit_log now h operation_id event_type result detail severity details :
  respects log_only (_emit max_bytes now h operation_id event_type result detail severity details).
Proof. unfold _emit. effects. apply record_log. Qed.

Lemma on_db_after {A} (m : act db A) (R : db -> db -> Prop) s r s' : respects R m -> on_db m s = (r, s') -> R (w_store s) (w_store s').
Proof. intros Hm. specialize (Hm (w_store s)). unfold on_db, after in *. destruct (m (w_store s)) as [x d]. by intros [= _ <-]. Qed.

Lemma finish_log now operation_id s r s' : _finish max_bytes now operation_id s = (r, s') -> log_only (w_store s) (w_store s').
Proof.
  unfold _finish, mbind at 1, act_bind at 1, set_tokens. intros Hrun. apply (on_db_after _ log_only) in Hrun; [exact Hrun|].
  effects. apply prune_log.
Qed.
(** ** The verdict that is stored *)

Lemma save_sources_Ok file_mode operation_id owner info r p same before o sources s o' s' :
  save_sources file_mode operation_id owner info r p same before o sources s = (Ok o', s') ->
  o' = fold_left (after_source before r same) sources o.
Proof.
  revert s o; induction sources as [|source sources IH]; intros s o; cbn [save_sources fold_left]; [by intros [= <- _]|].
  intros (u & s1 & _ & Hrun)%act_bind_Ok. by apply IH in Hrun.
Qed.

Lemma after_sources_completed before r same sources o :
  o_state (fold_left (after_source before r same) sources o) = "COMPLETED" ->
  o_state o = "COMPLETED" /\ forall source, In source sources -> unchanged before r same source = true.
Proof.
  revert o; induction sources as [|source sources IH]; intros o; [by split|]. cbn [fold_left]. intros Hc. apply IH in Hc as [Ho Hall].
  unfold after_source in Ho. destruct (unchanged before r same source) eqn:E; [|done]. split; [done|]. by intros x [<-|Hx]; auto.
Qed.

Definition concluded (mode : string) (r : run) (sources : list path) (before : prints) (code : Z) (p : progress) : outcome_of :=
  let o := verdict (any_cancelled r) (any_expired r) code p in
  if String.eqb mode "SYSTEM" then o
  else fold_left (after_source before r (bool_decide (generation (r_end_info r) = generation (r_info r)))) sources o.

Lemma conclude_Ok mode operation_id owner r sources before file_before s u s' :
  conclude max_bytes mode operation_id owner r sources before file_before s = (Ok u, s') ->
  exists code, r_code r = Ok code /\ in_rows operation_id (o_state (concluded mode r sources before code (w_progress s))) (w_store s').
Proof.
  unfold conclude. intros (code & s1 & Hcode & Hrun)%act_bind_Ok. injection Hcode as Hcode <-. exists code. split; [done|].
  apply act_bind_Ok in Hrun as (p & s2 & [= <- <-] & Hrun). apply act_bind_Ok in Hrun as (o & s3 & Ho & Hrun).
  assert (o = concluded mode r sources before code (w_progress s)) as <-.
  { unfold concluded. destruct (String.eqb mode "SYSTEM"); [by injection Ho as <- _|]. apply act_bind_Ok in Ho as (v & s4 & _ & Ho).
    by apply save_sources_Ok in Ho. }
  apply act_bind_Ok in Hrun as (v & s4 & Hs & He). apply set_scan_state in Hs; [|by intros Hin; repeat destruct Hin as [Hin|Hin]].
  apply (on_db_after _ log_only) in He; [|apply emit_log]. by eapply in_rows_log.
Qed.

(** ** Complete scans *)

(** The scanner ended by itself, and no line tells of something left out. *)
Definition nothing_left_out (aliases : list (string * string)) (r : run) : Prop :=
  any_cancelled r = false /\ any_expired r = false /\ (forall t, In t (r_ticks r) -> troubled (classify aliases (t_line t)) = false)
  /\ exists code, r_code r = Ok code
     /\ (code = 0 \/ code = 1 /\ exists t d f n, In t (r_ticks r) /\ classify aliases (t_line t) = Threat d f n).

Definition sources_unchanged (r : run) (sources : list path) : Prop :=
  forall p, In p sources -> generation (r_end_info r) = generation (r_info r) /\ fingerprint (r_disk r) p = fingerprint (r_end_disk r) p.

(** Nothing of the selection was skipped when its files were pinned, and either
    there was nothing to pin or the scanner went through without trouble and the
    selection is unchanged. A scan of the system pins nothing. Whether the scanner
    said a word about a file is not asked. *)
Definition thorough (mode : string) (owner : option Z) (sources : list path) (r : run) : Prop :=
  if String.eqb mode "SYSTEM" then nothing_left_out [] r
  else exists pins n, _scan_handles groups (r_disk r) sources owner (String.eqb mode "FOLDER") = Ok (Pinned pins 0 n)
       /\ (pins = [] \/ nothing_left_out (aliases_of (r_descriptor r) pins) r /\ sources_unchanged r sources).

Lemma read_all r : any_cancelled r = false -> any_expired r = false -> read_ticks (r_ticks r) = r_ticks r.
Proof.
  unfold any_cancelled, any_expired. intros [Hc _]%orb_false_iff [He _]%orb_false_iff. induction (r_ticks r) as [|t l IH]; [done|].
  cbn in Hc, He. apply orb_false_iff in Hc as [Hc Hc']. apply orb_false_iff in He as [He He']. cbn. rewrite Hc, He. cbn. by rewrite IH.
Qed.

Lemma unique_In (p : path) sources : In p (unique sources) <-> In p sources.
Proof.
  induction sources as [|q sources IH]; [done|]. cbn. rewrite filter_In, IH. destruct (decide (p = q)) as [->|Hne].
  - split; by left.
  - rewrite bool_decide_false by done. cbn. naive_solver.
Qed.

Lemma before_of_prints f p sources : In p sources -> before_of p (prints_of f sources) = fingerprint f p.
Proof.
  intros Hp%unique_In. unfold before_of, prints_of. generalize (fingerprint f). intros h. induction (unique sources) as [|q l IH]; [done|]. cbn.
  destruct (decide (q = p)) as [->|Hne]; [by rewrite bool_decide_true|]. rewrite bool_decide_false by done. apply IH. by destruct Hp.
Qed.

Lemma before_of_other f p sources : ~ In p sources -> before_of p (prints_of f sources) = None.
Proof.
  intros Hp. rewrite <- unique_In in Hp. unfold before_of, prints_of. generalize (fingerprint f). intros h. induction (unique sources) as [|q l IH]; [done|]. cbn.
  rewrite bool_decide_false by (intros ->; apply Hp; by left). apply IH. intros Hin. apply Hp. by right.
Qed.

Lemma concluded_thorough mode r sources aliases skipped code :
  let p := tally (reported aliases (r_ticks r)) (no_progress skipped) in
  r_code r = Ok code -> o_state (concluded mode r sources (prints_of (r_disk r) sources) code p) = "COMPLETED" ->
  skipped = O /\ nothing_left_out aliases r /\ (mode <> "SYSTEM" -> sources_unchanged r sources).
Proof.
  intros p Hcode Hdone. unfold concluded in Hdone. set (o := verdict _ _ _ _) in Hdone.
  assert (o_state o = "COMPLETED" /\ (mode <> "SYSTEM" -> sources_unchanged r sources)) as [Ho Hsame].
  { destruct (String.eqb_spec mode "SYSTEM"); [by split|]. apply after_sources_completed in Hdone as [Ho Hall]. split; [done|]. intros _ q Hq.
    apply Hall in Hq as Hu. unfold unchanged in Hu. rewrite (before_of_prints _ _ _ Hq) in Hu. apply andb_true_iff in Hu as [Hf Hg].
    split; [exact (bool_decide_eq_true_1 _ Hg)|exact (bool_decide_eq_true_1 _ Hf)]. }
  apply verdict_completed in Ho as (Hcan & Hexp & Hinc & Hc). unfold p in Hinc, Hc. unfold reported in *. rewrite (read_all r Hcan Hexp) in *.
  rewrite tally_incomplete in Hinc. apply orb_false_iff in Hinc as [Hskip Htr].
  split; [by destruct skipped|]. split; [|done]. split; [done|]. split; [done|]. split.
  - intros t Ht. apply not_true_is_false. intros Hbad. rewrite <- not_true_iff_false in Htr. apply Htr. apply existsb_exists.
    exists (classify aliases (t_line t)). split; [|done]. by apply (in_map (fun t => classify aliases (t_line t))).
  - exists code. split; [done|]. destruct Hc as [Hc|[Hc Hd]]; [by left|right]. split; [done|].
    apply tally_threat in Hd as (d & f & n & Hin). apply in_map_iff in Hin as (t & Ht & Hin). by exists t, d, f, n.
Qed.

Lemma scan_pinned_Ok mode operation_id owner r sources before pinned s u s' n :
  scan_pinned max_bytes mode operation_id owner r sources before pinned s = (Ok u, s') -> w_progress s = no_progress n ->
  exists code, r_code r = Ok code
    /\ in_rows operation_id (o_state (concluded mode r sources before code (tally (reported (aliases_of (r_descriptor r) pinned) (r_ticks r)) (no_progress n)))) (w_store s').
Proof.
  unfold scan_pinned. intros (v & s1 & Hv & Hrun)%act_bind_Ok Hn. assert (s1 = s) as -> by (destruct (r_popen r); [done|by injection Hv]).
  apply act_bind_Ok in Hrun as (w & s2 & Hl & Hrun). apply read_lines_progress in Hl. rewrite Hn in Hl. apply conclude_Ok in Hrun. by rewrite Hl in Hrun.
Qed.

Lemma scan_body_Ok mode operation_id owner r sources s u s' :
  scan_body max_bytes groups mode operation_id owner r sources (if String.eqb mode "SYSTEM" then [] else prints_of (r_disk r) sources) s = (Ok u, s') ->
  w_progress s = no_progress 0 ->
  thorough mode owner sources r \/ exists state, state <> "COMPLETED" /\ in_rows operation_id state (w_store s').
Proof.
  unfold scan_body, thorough. intros (pins & s1 & Hpins & Hrun)%act_bind_Ok Hp.
  destruct (String.eqb_spec mode "SYSTEM") as [->|Hmode].
  - injection Hpins as <- <-. apply (scan_pinned_Ok _ _ _ _ _ _ _ _ _ _ 0) in Hrun as (code & Hcode & Hrows); [|done].
    destruct (decide (o_state (concluded "SYSTEM" r sources [] code (tally (reported [] (r_ticks r)) (no_progress 0))) = "COMPLETED")) as [Hc|Hc]; [|right; by eexists].
    left. apply (concluded_thorough "SYSTEM" r sources [] 0 code Hcode). exact Hc.
  - apply act_bind_Ok in Hpins as (p & s2 & Hl & Hpins). injection Hl as Hl <-. apply act_bind_Ok in Hpins as (x & s3 & [= _ <-] & [= <- <-]).
    rewrite Hl. destruct p as [hs n v]. destruct hs as [|h hs]; [destruct n; [left; exists [], v; by auto|done]|].
    apply (scan_pinned_Ok _ _ _ _ _ _ _ _ _ _ n) in Hrun as (code & Hcode & Hrows); [|done]. cbn [handles] in Hrows.
    match type of Hrows with in_rows _ (o_state ?o) _ => destruct (decide (o_state o = "COMPLETED")) as [Hc|Hc] end; [|right; by eexists].
    left. apply (concluded_thorough mode r sources _ n code Hcode) in Hc as (-> & Hno & Hsame). exists (h :: hs), v. auto.
Qed.

Lemma finally_Ok {S A} (m : act S A) f s a s' : finally m f s = (Ok a, s') -> exists s1 u, m s = (Ok a, s1) /\ f s1 = (Ok u, s').
Proof. unfold finally. destruct (m s) as [r s1]. destruct (f s1) as [[u|e] s2] eqn:E; [|done]. intros [= -> <-]. by exists s1, u. Qed.

Lemma scan_found operation_id s o s' : on_db (get_file_scan operation_id) s = (Ok o, s') -> o = scan_of operation_id (w_store s).
Proof.
  intros [_ Hg]%on_db_Ok. unfold get_file_scan in Hg. apply act_bind_Ok in Hg as (u & d & Hc & [= <- _]).
  unfold _connect in Hc. destruct (fault (w_store s)); [done|]. by injection Hc as _ <-.
Qed.

Lemma announced operation_id r s o s' : announce max_bytes operation_id r s = (Ok o, s') -> o = default [] (scan_of operation_id (w_store s)).
Proof.
  unfold announce. intros (operation & s1 & ->%scan_found & Hrun)%act_bind_Ok. apply act_bind_Ok in Hrun as (u & s2 & _ & Hrun).
  by apply act_bind_Ok in Hrun as (u2 & s3 & _ & [= <- _]).
Qed.

End claims.
