(* ===== verification/ScanReceiptClaims.v ===== *)
(** * Receipts of a scan: claims

    Which receipts a run of the worker writes, however it ends. *)
From S2P Require Import Prelude PyVal PyStr Json PyText PyTime TelemetryValues Sql KeyedTables TelemetryStore TelemetryRetention StoreInvariant Files ScanAccess ScanReceipts ScanOutput ScanRuns ScanManager ScanRunClaims.

(** Receipts that are added satisfy [P]. *)
Definition adds (P : row -> Prop) (d d' : db) : Prop := forall row, In row (receipts d') -> In row (receipts d) \/ P row.
Definition worker_adds (P : row -> Prop) (s s' : worker) : Prop := adds P (w_store s) (w_store s').

#[export] Instance adds_preorder P : PreOrder (adds P).
Proof. split; [by left|]. intros d1 d2 d3 H12 H23 row Hrow. destruct (H23 row Hrow) as [H2|H2]; [by apply H12|by right]. Qed.

#[export] Instance worker_adds_preorder P : PreOrder (worker_adds P).
Proof. split; [by left|]. intros s1 s2 s3 H12 H23. unfold worker_adds in *. by etrans. Qed.

Lemma same_adds P d d' : receipts d' = receipts d -> adds P d d'.
Proof. intros He row. rewrite He. by left. Qed.

Lemma log_adds P d d' : log_only d d' -> adds P d d'.
Proof. intros [He _]. by apply same_adds. Qed.

Lemma after_bind_Ok {S A B} (m : act S A) (f : A -> act S B) s a s1 : m s = (Ok a, s1) -> after (m ≫= f) s = after (f a) s1.
Proof. unfold after, mbind, act_bind. by intros ->. Qed.

Lemma after_bind_Err {S A B} (m : act S A) (f : A -> act S B) s e s1 : m s = (Err e, s1) -> after (m ≫= f) s = s1.
Proof. unfold after, mbind, act_bind. by intros ->. Qed.

(** The final state of a computation from one state. *)
Section after.
Context {S : Type} (R : S -> S -> Prop) `{!PreOrder R}.

Lemma after_bind {A B} (m : act S A) (f : A -> act S B) s :
  R s (after m s) -> (forall a s1, m s = (Ok a, s1) -> R s1 (after (f a) s1)) -> R s (after (m ≫= f) s).
Proof.
  unfold after, mbind, act_bind. destruct (m s) as [[a|e] s1]; [|done]. intros Hm Hf. etrans; [exact Hm|]. by apply Hf.
Qed.

Lemma after_catch {A} (m : act S A) p h s : R s (after m s) -> (forall e, respects R (h e)) -> R s (after (catch m p h) s).
Proof.
  unfold after, catch. destruct (m s) as [[a|e] s1]; [done|]. intros Hm Hh. destruct (p e); [|done]. etrans; [exact Hm|]. apply Hh.
Qed.

Lemma after_finally {A} (m : act S A) f s : R s (after m s) -> respects R f -> R s (after (finally m f) s).
Proof.
  unfold after, finally. destruct (m s) as [a s1]. intros Hm Hf. specialize (Hf s1). unfold after in Hf.
  destruct (f s1) as [[u|e] s2]; etrans; [exact Hm|exact Hf|exact Hm|exact Hf].
Qed.
End after.

Lemma respects_at {S A} (R : S -> S -> Prop) (m : act S A) s : respects R m -> R s (after m s).
Proof. intros Hm. apply Hm. Qed.

Section adds.
Context `{FloatText} `{IsoText} `{Sqlite} `{Sha256} (max_bytes : Z) (groups : Z -> list Z).

#[local] Opaque fingerprint _scan_handles.

Lemma respects_weaken {S A} (R R' : S -> S -> Prop) (m : act S A) : (forall s s', R s s' -> R' s s') -> respects R m -> respects R' m.
Proof. intros Hw Hm s. by apply Hw, Hm. Qed.

Lemma on_db_adds {A} P (m : act db A) : respects (adds P) m -> respects (worker_adds P) (on_db m).
Proof. intros Hm s. specialize (Hm (w_store s)). unfold worker_adds, after, on_db in *. by destruct (m (w_store s)). Qed.

Lemma connect_adds P : respects (adds P) _connect.
Proof. intros d. apply same_adds. unfold after, _connect. by destruct (fault d). Qed.

Lemma transaction_adds {A} P (m : act db A) : respects (adds P) m -> respects (adds P) (transaction m).
Proof. apply (transaction_respects _). Qed.

#[local] Opaque _connect transaction.

Lemma get_file_scan_adds P id : respects (adds P) (get_file_scan id).
Proof. unfold get_file_scan. effects. apply connect_adds. Qed.

#[local] Opaque get_file_scan.

Lemma update_file_scan_adds P id changes : respects (adds P) (update_file_scan id changes).
Proof.
  unfold update_file_scan. effects; try apply connect_adds; try apply get_file_scan_adds.
  apply transaction_adds, respects_modify. intros d. by apply same_adds.
Qed.

#[local] Opaque update_file_scan.

Lemma set_scan_adds P id changes : respects (worker_adds P) (set_scan id changes).
Proof. unfold set_scan. effects. apply on_db_adds, update_file_scan_adds. Qed.

Lemma list_detections_adds P state operation limit owner : respects (adds P) (list_file_detections state operation limit owner).
Proof. unfold list_file_detections. effects. apply connect_adds. Qed.

Lemma upsert_detection_adds P now value : respects (adds P) (upsert_file_detection now value).
Proof.
  unfold upsert_file_detection, get_file_detection. effects; try apply connect_adds. apply transaction_adds, respects_modify. intros d. by apply same_adds.
Qed.

#[local] Opaque set_scan list_file_detections upsert_file_detection.

Lemma emit_adds P now h operation_id event_type result detail severity details :
  respects (adds P) (_emit max_bytes now h operation_id event_type result detail severity details).
Proof. eapply respects_weaken; [apply log_adds|apply emit_log]. Qed.

#[local] Opaque _emit.

Lemma set_progress_adds P f : respects (worker_adds P) (set_progress f).
Proof. intros s. by left. Qed.

Lemma set_tokens_adds P f : respects (worker_adds P) (set_tokens f).
Proof. intros s. by left. Qed.

Lemma set_progress_value p u s s' : set_progress (fun _ => p) s = (Ok u, s') -> w_progress s' = p.
Proof. by intros [= _ <-]. Qed.

#[local] Opaque set_progress set_tokens.

Lemma handle_report_adds P operation_id owner info pinned t r : respects (worker_adds P) (handle_report max_bytes operation_id owner info pinned t r).
Proof.
  unfold handle_report, store_threat. effects; try apply set_progress_adds; apply on_db_adds; first [apply list_detections_adds|apply upsert_detection_adds|apply emit_adds].
Qed.

Lemma read_lines_adds P operation_id owner info aliases ticks : respects (worker_adds P) (read_lines max_bytes operation_id owner info aliases ticks).
Proof.
  induction ticks as [|t ticks IH]; [apply respects_ret; typeclasses eauto|]. cbn [read_lines]. effects; try apply handle_report_adds; try apply set_scan_adds.
  unfold store_counters, when. effects. apply set_scan_adds.
Qed.

Lemma finish_adds P now operation_id : respects (worker_adds P) (_finish max_bytes now operation_id).
Proof. intros s. apply log_adds. unfold after. destruct (_finish max_bytes now operation_id s) as [r s'] eqn:E. by apply finish_log in E. Qed.

#[local] Opaque _finish.

(** ** Saved rows *)

Lemma save_adds P owner source before after generation state operation timestamp limit :
  (forall uid, owner = Some uid -> P (receipt_row uid source after generation (stored_state before after state limit) timestamp operation)) ->
  respects (adds P) (save owner source before after generation state operation timestamp limit).
Proof.
  intros HP. unfold save. destruct owner as [uid|]; [|apply respects_ret; typeclasses eauto]. effects; [apply connect_adds|].
  apply transaction_adds, respects_modify. intros d row Hrow. cbn [receipts with_receipts] in Hrow. unfold trim_receipts, insert_replace in Hrow.
  apply select_In in Hrow as [Hrow _]. apply in_app_or in Hrow as [Hrow|[<-|[]]]; [left|right; by apply HP].
  by apply delete_where_In in Hrow as [? _].
Qed.

(** A clean receipt is of a state, a fingerprint that did not change, and [Q]. *)
Definition clean_of (r : run) (Q : path -> Prop) (row : row) : Prop :=
  get "state" row = VStr "CLEAN" ->
  exists source h, get "path" row = VStr (path_text source) /\ fingerprint (r_disk r) source = Some h /\ fingerprint (r_end_disk r) source = Some h /\ Q source.

Lemma stored_clean before after state limit : stored_state before after state limit = "CLEAN" -> state = "CLEAN" /\ before = after /\ exists h, before = Some h.
Proof.
  unfold stored_state. destruct before as [h|]; [|done]. destruct (nonempty_text _); [|done]. destruct (bool_decide (Some h = after)) eqn:E; [|done].
  apply bool_decide_eq_true in E. cbn [andb]. destruct (limit && _); [done|]. eauto.
Qed.

Lemma save_clean (Q : path -> Prop) r owner source before state operation timestamp limit :
  (before = None \/ before = fingerprint (r_disk r) source) -> (state = "CLEAN" -> Q source) ->
  respects (adds (clean_of r Q)) (save owner source before (fingerprint (r_end_disk r) source) (generation (r_info r)) state operation timestamp limit).
Proof.
  intros Hbefore HQ. apply save_adds. intros uid _ Hclean. change (get "state" _) with (VStr (stored_state before (fingerprint (r_end_disk r) source) state limit)) in Hclean.
  injection Hclean as Hclean. apply stored_clean in Hclean as (Hst & He & h & Hh). destruct Hbefore as [->| ->]; [done|].
  exists source, h. split; [done|]. split; [done|]. split; [congruence|by apply HQ].
Qed.

(** ** What a run calls clean *)

(** Some line calls the file clean, and none reports a threat or a limit in it. *)
Definition seen_clean (reports : list report) (source : path) : Prop :=
  existsb (vouches (path_text source)) reports = true /\ existsb (spoils (path_text source)) reports = false.

Definition no_threat (reports : list report) : Prop := forall d f n, ~ In (Threat d f n) reports.

(** The definitions did not change, and the file was seen to be clean or is the
    folder of a complete scan without threats. *)
Definition vouched (mode : string) (r : run) (aliases : list (string * string)) (n : nat) (source : path) : Prop :=
  generation (r_end_info r) = generation (r_info r)
  /\ (seen_clean (reported aliases (r_ticks r)) source
      \/ mode <> "FILE" /\ n = O /\ nothing_left_out aliases r /\ no_threat (reported aliases (r_ticks r))).

Lemma clean_result_seen aliases r n source :
  result_of (path_text source) (tally (reported aliases (r_ticks r)) (no_progress n)) = "CLEAN" -> seen_clean (reported aliases (r_ticks r)) source.
Proof.
  unfold result_of. destruct (dget _ _) as [x|] eqn:E; [|done]. cbn. intros ->. by apply tally_clean in E.
Qed.

Lemma save_file_adds mode operation_id owner r aliases n entry :
  snd entry = None \/ snd entry = fingerprint (r_disk r) (fst entry) ->
  respects (worker_adds (clean_of r (vouched mode r aliases n)))
    (save_file operation_id owner (r_info r) r (tally (reported aliases (r_ticks r)) (no_progress n)) (bool_decide (generation (r_end_info r) = generation (r_info r))) entry).
Proof.
  destruct entry as [source before]. cbn [fst snd]. intros Hbefore. unfold save_file. apply on_db_adds, save_clean; [done|].
  destruct (bool_decide _) eqn:Eg; [|done]. apply bool_decide_eq_true_1 in Eg. intros Hres. split; [done|left]. by apply (clean_result_seen _ _ n).
Qed.

Lemma verdict_thorough r aliases n code :
  r_code r = Ok code -> o_state (verdict (any_cancelled r) (any_expired r) code (tally (reported aliases (r_ticks r)) (no_progress n))) = "COMPLETED" ->
  n = O /\ nothing_left_out aliases r.
Proof.
  intros Hcode Hdone. apply (concluded_thorough max_bytes groups "SYSTEM" r [] aliases n code Hcode) in Hdone as (Hn & Hno & _). done.
Qed.

Lemma not_detected_no_threat l n : (0 <? detected (tally l (no_progress n)))%nat = false -> no_threat l.
Proof.
  intros Hd%Nat.ltb_ge d f m Hin. assert (0 < detected (tally l (no_progress n)))%nat by (apply tally_threat; by exists d, f, m). lia.
Qed.

Lemma save_source_adds mode operation_id owner r aliases n before o source :
  (forall p, before_of p before = None \/ before_of p before = fingerprint (r_disk r) p) ->
  (o_state o = "COMPLETED" -> n = O /\ nothing_left_out aliases r) ->
  respects (worker_adds (clean_of r (vouched mode r aliases n)))
    (save_source (String.eqb mode "FILE") operation_id owner (r_info r) r (tally (reported aliases (r_ticks r)) (no_progress n))
      (bool_decide (generation (r_end_info r) = generation (r_info r))) before o source).
Proof.
  intros Hbefore Ho. unfold save_source. apply on_db_adds, save_clean; [apply Hbefore|].
  destruct (unchanged before r _ source) eqn:Eu; [|done]. unfold unchanged in Eu. apply andb_true_iff in Eu as [_ Eg]. apply bool_decide_eq_true_1 in Eg.
  unfold receipt_state. intros Hst. split; [done|]. destruct (String.eqb_spec mode "FILE"); [left; by apply (clean_result_seen _ _ n)|right].
  destruct (String.eqb_spec (o_state o) "COMPLETED") as [Hc|]; [|done]. destruct (Ho Hc) as [-> Hno].
  destruct (0 <? detected _)%nat eqn:Ed; [done|]. split; [done|]. split; [done|]. split; [done|]. by apply not_detected_no_threat in Ed.
Qed.

Lemma save_sources_adds mode operation_id owner r aliases n before o sources :
  (forall p, before_of p before = None \/ before_of p before = fingerprint (r_disk r) p) ->
  (o_state o = "COMPLETED" -> n = O /\ nothing_left_out aliases r) ->
  respects (worker_adds (clean_of r (vouched mode r aliases n)))
    (save_sources (String.eqb mode "FILE") operation_id owner (r_info r) r (tally (reported aliases (r_ticks r)) (no_progress n))
      (bool_decide (generation (r_end_info r) = generation (r_info r))) before o sources).
Proof.
  intros Hbefore. revert o; induction sources as [|source sources IH]; intros o Ho; [apply respects_ret; typeclasses eauto|]. cbn [save_sources].
  apply respects_bind; [typeclasses eauto|by apply save_source_adds|]. intros _. apply IH. unfold after_source.
  by destruct (unchanged _ _ _ _).
Qed.

Lemma prints_of_entry f sources entry : In entry (prints_of f sources) -> snd entry = None \/ snd entry = fingerprint f (fst entry).
Proof. unfold prints_of. intros (p & <- & _)%in_map_iff. by right. Qed.

Lemma prints_before f sources p : before_of p (prints_of f sources) = None \/ before_of p (prints_of f sources) = fingerprint f p.
Proof.
  destruct (in_dec (fun x y : path => decide (x = y)) p sources) as [Hin|Hin]; [right; by apply before_of_prints|left; by apply before_of_other].
Qed.

Lemma respects_each_In {S A} (R : S -> S -> Prop) `{!PreOrder R} (f : A -> act S unit) l :
  (forall x, In x l -> respects R (f x)) -> respects R (each f l).
Proof.
  induction l as [|x l IH]; intros Hf; [apply respects_ret; typeclasses eauto|]. cbn [each]. apply respects_bind; [typeclasses eauto|apply Hf; by left|].
  intros _. apply IH. intros y Hy. apply Hf. by right.
Qed.

Lemma conclude_adds mode operation_id owner r sources pinned aliases n s :
  mode <> "SYSTEM" -> w_progress s = tally (reported aliases (r_ticks r)) (no_progress n) ->
  worker_adds (clean_of r (vouched mode r aliases n)) s
    (after (conclude max_bytes mode operation_id owner r sources (prints_of (r_disk r) sources) (prints_of (r_disk r) pinned)) s).
Proof.
  intros Hmode Hp. unfold conclude. destruct (r_code r) as [code|e] eqn:Ecode; [|by left].
  rewrite (after_bind_Ok (lift (Ok code)) _ s code s), (after_bind_Ok (gets w_progress) _ s _ s eq_refl), Hp by done. rewrite (proj2 (String.eqb_neq mode "SYSTEM") Hmode).
  apply (respects_at _).
  effects; try apply set_scan_adds; try (apply on_db_adds, emit_adds).
  - apply respects_each_In; [typeclasses eauto|]. intros entry Hin. by apply save_file_adds, (prints_of_entry _ pinned).
  - apply save_sources_adds; [apply prints_before|]. by apply verdict_thorough.
Qed.

(** The run pinned its files, and there was none, or the source is vouched for. *)
Definition vouched_run (mode : string) (owner : option Z) (sources : list path) (r : run) (source : path) : Prop :=
  exists pins n v, _scan_handles groups (r_disk r) sources owner (String.eqb mode "FOLDER") = Ok (Pinned pins n v)
  /\ (pins = [] /\ n = O \/ vouched mode r (aliases_of (r_descriptor r) pins) n source).

Lemma clean_of_weaken r (Q Q' : path -> Prop) row : (forall p, Q p -> Q' p) -> clean_of r Q row -> clean_of r Q' row.
Proof. intros HQ Hc Hs. destruct (Hc Hs) as (source & h & ? & ? & ? & ?). exists source, h. auto. Qed.

Lemma adds_weaken (P P' : row -> Prop) s s' : (forall row, P row -> P' row) -> worker_adds P s s' -> worker_adds P' s s'.
Proof. intros HP Ha row Hrow. destruct (Ha row Hrow); [by left|right; by apply HP]. Qed.

Lemma scan_pinned_adds mode operation_id owner r sources pins n s :
  mode <> "SYSTEM" -> w_progress s = no_progress n ->
  worker_adds (clean_of r (vouched mode r (aliases_of (r_descriptor r) pins) n)) s
    (after (scan_pinned max_bytes mode operation_id owner r sources (prints_of (r_disk r) sources) pins) s).
Proof.
  intros Hmode Hp. unfold scan_pinned. destruct (r_popen r) as [e|]; [by left|]. rewrite (after_bind_Ok (mret tt) _ s tt s) by done.
  set (P := clean_of r _). pose proof (read_lines_adds P operation_id owner (r_info r) (aliases_of (r_descriptor r) pins) (r_ticks r) s) as Hl.
  unfold after in Hl. destruct (read_lines _ _ _ _ _ _ s) as [[u|e] s1] eqn:El; [|rewrite (after_bind_Err _ _ _ _ _ El); exact Hl].
  rewrite (after_bind_Ok _ _ _ _ _ El). apply read_lines_progress in El. rewrite Hp in El. etrans; [exact Hl|]. by apply conclude_adds.
Qed.

Lemma scan_body_adds mode operation_id owner r sources s :
  w_progress s = no_progress 0 ->
  worker_adds (clean_of r (vouched_run mode owner sources r)) s
    (after (scan_body max_bytes groups mode operation_id owner r sources (if String.eqb mode "SYSTEM" then [] else prints_of (r_disk r) sources)) s).
Proof.
  intros Hp. unfold scan_body. destruct (String.eqb_spec mode "SYSTEM") as [->|Hmode].
  - change (worker_adds (clean_of r (vouched_run "SYSTEM" owner sources r)) s (after (scan_pinned max_bytes "SYSTEM" operation_id owner r sources [] []) s)).
    apply (respects_at _). unfold scan_pinned, conclude. cbn [String.eqb]. effects; try apply read_lines_adds; try apply set_scan_adds.
    apply on_db_adds, emit_adds.
  - destruct (_scan_handles groups (r_disk r) sources owner (String.eqb mode "FOLDER")) as [[pins n v]|e] eqn:Eh;
      [|by left].
    set (s1 := Worker (w_store s) (w_tokens s) (no_progress n)). rewrite (after_bind_Ok _ _ s (Some (Pinned pins n v)) s1) by done.
    change (w_store s) with (w_store s1). assert (forall P m, worker_adds P s1 (after m s1) -> worker_adds P s (after (A := unit) m s1)) as Hs1 by done. apply Hs1.
    destruct pins as [|p pins].
    + destruct n as [|n]; [|by left]. apply (respects_at _). unfold conclude_empty. effects; [apply set_scan_adds|].
      apply respects_each; [typeclasses eauto|]. intros source. apply on_db_adds, save_clean; [apply prints_before|]. intros _. exists [], O, v. by auto.
    + eapply adds_weaken; [|by apply (scan_pinned_adds mode operation_id owner r sources (p :: pins) n s1 Hmode)].
      intros row. apply clean_of_weaken. intros source Hv. exists (p :: pins), n, v. auto.
Qed.

Lemma announce_adds P operation_id r : respects (worker_adds P) (announce max_bytes operation_id r).
Proof. unfold announce. effects; [apply on_db_adds, get_file_scan_adds|apply set_scan_adds|apply on_db_adds, emit_adds]. Qed.

#[local] Opaque announce.

(** C14. However a run of the worker ends, each receipt it writes that calls its path
    clean is for a path whose fingerprint was the same before and after; and
    unless the selected folder had no file, the definitions did not change, and
    either a line called the file clean and no line reported a threat or a limit
    in it, or the path is the folder of a scan that left nothing out and reported
    no threat. *)
Theorem clean_receipts_are_vouched (operation_id mode : string) (sources : list path) (r : run) (s : worker) (row : row) :
  In row (receipts (w_store (after (_run max_bytes groups operation_id mode sources r) s))) ->
  In row (receipts (w_store s))
  \/ clean_of r (vouched_run mode (owner_of (default [] (scan_of operation_id (w_store s)))) sources r) row.
Proof.
  revert row. change (worker_adds (clean_of r (vouched_run mode (owner_of (default [] (scan_of operation_id (w_store s)))) sources r)) s
    (after (_run max_bytes groups operation_id mode sources r) s)).
  set (P := clean_of r _). unfold _run. destruct (not_ready (r_info r)).
  - apply (respects_at _). unfold refuse_scan. effects; first [apply set_scan_adds|apply on_db_adds, emit_adds|apply finish_adds].
  - apply after_bind; [typeclasses eauto|apply (respects_at _), announce_adds|]. intros o s3 ->%announced.
    apply after_bind; [typeclasses eauto|apply (respects_at _), set_progress_adds|]. intros u s4 Hs4. apply set_progress_value in Hs4.
    apply after_finally; [typeclasses eauto| |apply finish_adds]. apply after_catch; [typeclasses eauto|by apply scan_body_adds|].
    intros e. unfold scan_failed. effects; [apply set_scan_adds|apply on_db_adds, emit_adds].
Qed.
End adds.
