(* ===== verification/ScanSettleClaims.v ===== *)
(** * Scans that end, and examples

    No scan whose worker is gone is shown as running; the witnesses of the claims
    on scans; and what the model showed about the start of scans and the lines of
    the scanner. *)
From S2P Require Import Prelude PyVal PyStr Json JsonRound JsonExample PyText PyTime Sql TelemetryValues KeyedTables TelemetryStore TelemetryRetention StoreInvariant TelemetryQuery TelemetryClaims Files ScanAccess ScanAccessProps ScanReceipts ScanOutput ScanRuns ScanManager ScanRunClaims ScanReceiptClaims.

Section settle.
Context `{FloatText} `{IsoText} `{Sqlite} `{Sha256} (max_bytes : Z) (groups : Z -> list Z).

#[local] Opaque fingerprint _scan_handles.

Lemma dget_ddel k {A} (d : list (string * A)) : NoDup (map fst d) -> dget k (ddel k d) = None.
Proof.
  induction d as [|[k' v] d IH]; [done|]. cbn [map fst]. intros Hnd. apply NoDup_cons in Hnd as [Hk Hnd]. cbn [ddel].
  destruct (String.eqb_spec k k') as [<-|Hne].
  - destruct (dget k d) as [x|] eqn:E; [|done]. exfalso. apply Hk, list_elem_of_In. apply dget_In in E. exact (in_map fst d (k, x) E).
  - cbn [dget]. rewrite (proj2 (String.eqb_neq k k') Hne). by apply IH.
Qed.

(** ** The tokens *)

Definition same_tokens (s s' : worker) : Prop := w_tokens s' = w_tokens s.

#[local] Instance same_tokens_preorder : PreOrder same_tokens.
Proof. split; [done|]. intros s1 s2 s3. unfold same_tokens. congruence. Qed.

Lemma on_db_tokens {A} (m : act db A) : respects same_tokens (on_db m).
Proof. intros s. unfold same_tokens, after, on_db. by destruct (m (w_store s)). Qed.

Lemma set_progress_tokens f : respects same_tokens (set_progress f).
Proof. done. Qed.

Lemma set_scan_tokens id changes : respects same_tokens (set_scan id changes).
Proof. unfold set_scan. effects. apply on_db_tokens. Qed.

Lemma set_progress_eq f s : set_progress f s = (Ok tt, Worker (w_store s) (w_tokens s) (f (w_progress s))).
Proof. done. Qed.

#[local] Opaque on_db set_progress set_scan.

Lemma read_lines_tokens operation_id owner info aliases ticks : respects same_tokens (read_lines max_bytes operation_id owner info aliases ticks).
Proof.
  induction ticks as [|t ticks IH]; [apply respects_ret; typeclasses eauto|]. cbn [read_lines].
  unfold handle_report, store_threat, store_counters, when. effects; first [apply on_db_tokens|apply set_progress_tokens|apply set_scan_tokens].
Qed.

#[local] Opaque read_lines.

Lemma save_sources_tokens file_mode operation_id owner info r p same before o sources :
  respects same_tokens (save_sources file_mode operation_id owner info r p same before o sources).
Proof.
  revert o; induction sources as [|source sources IH]; intros o; [apply respects_ret; typeclasses eauto|]. cbn [save_sources].
  apply respects_bind; [typeclasses eauto|apply on_db_tokens|]. intros _. apply IH.
Qed.

Lemma conclude_tokens mode operation_id owner r sources before file_before : respects same_tokens (conclude max_bytes mode operation_id owner r sources before file_before).
Proof.
  unfold conclude. effects; try apply on_db_tokens; try apply set_scan_tokens; [|apply save_sources_tokens].
  apply respects_each; [typeclasses eauto|]. intros [source print]. apply on_db_tokens.
Qed.

Lemma conclude_empty_tokens operation_id owner r sources before : respects same_tokens (conclude_empty operation_id owner r sources before).
Proof.
  unfold conclude_empty. effects; [apply set_scan_tokens|]. apply respects_each; [typeclasses eauto|]. intros source. apply on_db_tokens.
Qed.

#[local] Opaque conclude conclude_empty.

Lemma scan_body_tokens mode operation_id owner r sources before : respects same_tokens (scan_body max_bytes groups mode operation_id owner r sources before).
Proof.
  unfold scan_body, scan_pinned. effects; first [apply set_progress_tokens|apply conclude_empty_tokens|apply conclude_tokens|apply read_lines_tokens].
Qed.

Lemma scan_failed_tokens operation_id r e : respects same_tokens (scan_failed max_bytes operation_id r e).
Proof. unfold scan_failed. effects; [apply set_scan_tokens|apply on_db_tokens]. Qed.

#[local] Opaque scan_body scan_failed.

Lemma announce_tokens operation_id r : respects same_tokens (announce max_bytes operation_id r).
Proof. unfold announce. effects; first [apply on_db_tokens|apply set_scan_tokens]. Qed.

Lemma finish_tokens now operation_id s : w_tokens (after (_finish max_bytes now operation_id) s) = ddel operation_id (w_tokens s).
Proof.
  unfold _finish. rewrite (after_bind_Ok (set_tokens (ddel operation_id)) _ s tt (Worker (w_store s) (ddel operation_id (w_tokens s)) (w_progress s))) by done.
  match goal with |- w_tokens (after (on_db ?m) ?s1) = _ => exact (on_db_tokens m s1) end.
Qed.

Lemma run_tokens operation_id mode sources r s res s' o s1 :
  not_ready (r_info r) = false -> announce max_bytes operation_id r s = (Ok o, s1) ->
  _run max_bytes groups operation_id mode sources r s = (res, s') -> w_tokens s' = ddel operation_id (w_tokens s).
Proof.
  intros Hready Hann Hrun. change s' with (snd (res, s')). rewrite <- Hrun. clear Hrun. unfold _run. rewrite Hready.
  change (w_tokens (after (announce max_bytes operation_id r ≫= (fun operation => set_progress (fun _ => no_progress 0) ≫= (fun _ =>
    finally (catch (scan_body max_bytes groups mode operation_id (owner_of operation) r sources (if String.eqb mode "SYSTEM" then [] else prints_of (r_disk r) sources)) run_caught
      (scan_failed max_bytes operation_id r)) (_finish max_bytes (r_end r) operation_id)))) s) = ddel operation_id (w_tokens s)).
  rewrite (after_bind_Ok _ _ _ _ _ Hann). pose proof (announce_tokens operation_id r s) as Ht. unfold after in Ht. rewrite Hann in Ht. cbn in Ht. rewrite <- Ht.
  rewrite (after_bind_Ok (set_progress (fun _ => no_progress 0)) _ s1 tt (Worker (w_store s1) (w_tokens s1) (no_progress 0))) by exact (set_progress_eq _ s1).
  set (s2 := Worker _ _ (no_progress 0)). change (w_tokens s1) with (w_tokens s2).
  set (m := catch _ _ _). assert (respects same_tokens m) as Hm by (apply respects_catch; [typeclasses eauto|apply scan_body_tokens|intros e; apply scan_failed_tokens]).
  specialize (Hm s2). unfold same_tokens, after in *. unfold finally. destruct (m s2) as [x s3]. cbn [snd] in Hm. rewrite <- Hm.
  rewrite <- (finish_tokens (r_end r)). unfold after. by destruct (_finish max_bytes (r_end r) operation_id s3) as [[u|e] s4].
Qed.

(** ** The status of a scan *)

#[local] Transparent on_db set_scan.

Lemma found_scan operation_id s : fault (w_store s) = None -> on_db (get_file_scan operation_id) s = (Ok (scan_of operation_id (w_store s)), s).
Proof. intros Hf. unfold on_db, get_file_scan, mbind, act_bind, _connect. rewrite Hf. cbn. by destruct s. Qed.

Lemma listed_detections state operation limit owner s : fault (w_store s) = None -> exists l, on_db (list_file_detections state operation limit owner) s = (Ok l, s).
Proof. intros Hf. unfold on_db, list_file_detections, mbind, act_bind, _connect. rewrite Hf. cbn. eexists. by destruct s. Qed.

Lemma stored_scan operation_id state changes s :
  fault (w_store s) = None -> exists s', set_scan operation_id (("state", VStr state) :: changes) s = (Ok tt, s') /\ fault (w_store s') = None.
Proof.
  intros Hf. unfold set_scan, on_db, update_file_scan. cbn [List.filter member fst String.eqb Ascii.eqb Bool.eqb orb]. change (member "state" SCAN_COLUMNS) with true. cbn [length Nat.eqb].
  unfold get_file_scan, mbind, act_bind, _connect, transaction, modify. rewrite Hf. cbn. rewrite Hf. by eexists.
Qed.

#[local] Opaque on_db set_scan.

Lemma scan_of_state operation_id d v : scan_of operation_id d = Some v ->
  exists row, In row (scans d) /\ sql_eq (get "operation_id" row) (VStr (_text (VStr operation_id) 96)) = true /\ get "state" v = get "state" row.
Proof.
  unfold scan_of, find_row. intros (row & Hrow & ->)%fmap_Some. apply List.find_some in Hrow as [Hin Hid]. exists row. split; [done|]. split; [done|].
  unfold scan_value. rewrite !get_dset_ne by done. unfold get, getd. by rewrite dget_ddel_ne.
Qed.

Lemma run_seq {S A B} (m : act S A) (f : A -> act S B) s a s1 : m s = (Ok a, s1) -> (m ≫= f) s = f a s1.
Proof. unfold mbind, act_bind. by intros ->. Qed.

(** A scan without a worker is marked, if it is shown as active. *)
Lemma orphan_marked now operation_id s :
  dget operation_id (w_tokens s) = None -> fault (w_store s) = None ->
  exists b s', _mark_interrupted_if_orphaned now operation_id s = (Ok b, s') /\ fault (w_store s') = None
    /\ forall v, scan_of operation_id (w_store s') = Some v -> active_row v = false.
Proof.
  intros Htoken Hf. unfold _mark_interrupted_if_orphaned. rewrite (run_seq (gets _) _ s _ s eq_refl), Htoken, (run_seq _ _ _ _ _ (found_scan operation_id s Hf)).
  destruct (scan_of operation_id (w_store s)) as [v|] eqn:Ev; cbv iota beta; [|exists false, s; split; [done|]; split; [done|congruence]].
  destruct (active_row v) eqn:Ea; [|exists false, s; split; [done|]; split; [done|congruence]].
  match goal with |- context [set_scan _ (_ :: ?c)] => destruct (stored_scan operation_id "INTERRUPTED" c s Hf) as (s1 & Hs & Hf1) end.
  exists true, s1. rewrite (run_seq _ _ _ _ _ Hs). split; [done|]. split; [done|]. intros v1 (row & Hin & Hid & Hstate)%scan_of_state.
  apply set_scan_state in Hs; [|by intros [|[|[|]]]]. unfold active_row. by rewrite Hstate, (Hs _ Hin Hid).
Qed.

Lemma status_settled now operation_id owner s :
  dget operation_id (w_tokens s) = None -> fault (w_store s) = None ->
  exists answer s', status now operation_id owner s = (Ok answer, s') /\ forall value, answer = Some value -> active_row value = false.
Proof.
  intros Htoken Hf. unfold status.
  assert (_owned_scan operation_id owner s = (Ok (match scan_of operation_id (w_store s) with Some v => if owned_value owner v then Some v else None | None => None end), s)) as Ho
    by (unfold _owned_scan; by rewrite (run_seq _ _ _ _ _ (found_scan operation_id s Hf))).
  rewrite (run_seq _ _ _ _ _ Ho). destruct (match scan_of _ _ with Some v => _ | None => None end); [|by exists None, s].
  destruct (orphan_marked now operation_id s Htoken Hf) as (b & s1 & Hm & Hf1 & Hv). rewrite (run_seq _ _ _ _ _ Hm), (run_seq _ _ _ _ _ (found_scan operation_id s1 Hf1)).
  destruct (scan_of operation_id (w_store s1)) as [v1|]; [|by exists None, s1].
  destruct (listed_detections VNone (VStr operation_id) 128 owner s1 Hf1) as [found Hl]. rewrite (run_seq _ _ _ _ _ Hl). eexists _, s1. split; [done|].
  intros value [= <-]. unfold active_row in *. rewrite get_dset_ne by done. by apply Hv.
Qed.

(** C25. Whatever the scanner does, and whatever error stops a worker whose start
    could be recorded, its token is gone when the worker ends; from then on the
    status of its scan is answered and is no longer an active one. *)
Theorem no_scan_left_running (operation_id mode : string) (sources : list path) (r : run) (s s1 s' : worker) (o : dict) (res : res unit) (now : Z) (owner : option Z) :
  NoDup (map fst (w_tokens s)) -> not_ready (r_info r) = false -> announce max_bytes operation_id r s = (Ok o, s1) ->
  _run max_bytes groups operation_id mode sources r s = (res, s') -> fault (w_store s') = None ->
  exists answer s'', status now operation_id owner s' = (Ok answer, s'') /\ forall value, answer = Some value -> active_row value = false.
Proof.
  intros Hnd Hready Hann Hrun Hf. apply status_settled; [|done]. rewrite (run_tokens _ _ _ _ _ _ _ _ _ Hready Hann Hrun). by apply dget_ddel.
Qed.
End settle.

(** * Scans: examples

    A scan of one file from its start to its receipt, the witnesses of the claims
    on scans, and what the model showed about the lines of the scanner, the start
    of a worker and the search for an active scan. *)

#[local] Existing Instance small_sqlite.
#[local] Instance text_digest : Sha256 := {| sha256 := fun s => s |}.

Definition ready_info : dict := dlit [("status", VStr "CURRENT"); ("engine_version", VStr "1.4.2"); ("database_version", VStr "27700")].

Definition notes : path := ["home"; "ann"; "notes.txt"].
Definition idle : worker := Worker empty_db [] (no_progress 0).
Definition sample_host : event_host := EventHost "0123456789abcdef" 5 (VStr "boot").

Definition started_scan : res (dict * started) * worker :=
  start memberships sample_now home ready_info "1" (VStr "file") (VList [VStr "/home/ann/notes.txt"]) (Some 1000) false false idle.

Definition begun : worker := snd started_scan.

(** The scanner reads the pinned file and says [line]. *)
Definition sample_tick (line : string) : tick :=
  Tick line false false (sample_now + second) home (fun _ => Ok "text") "77" sample_host.

Definition sample_run (line : string) (code : res Z) : run :=
  Run sample_now ready_info home 7 None sample_host [sample_tick line] code false false (sample_now + 2 * second) ready_info home sample_host.

Definition ended (line : string) (code : res Z) : res unit * worker :=
  _run MAX_DB_BYTES memberships "scan-1" "FILE" [notes] (sample_run line code) begun.

Example clean_scan :
  map (fun row => (get "state" row, get "files_inspected" row)) (scans (w_store (snd (ended "/proc/self/fd/7: OK" (Ok 0))))) = [(VStr "COMPLETED", VInt 1)]
  /\ map (fun row => (get "state" row, get "path" row)) (receipts (w_store (snd (ended "/proc/self/fd/7: OK" (Ok 0))))) = [(VStr "CLEAN", VStr "/home/ann/notes.txt")]
  /\ w_tokens begun = [("scan-1", false)] /\ w_tokens (snd (ended "/proc/self/fd/7: OK" (Ok 0))) = [].
Proof. vm_compute. done. Qed.

(** A scanner that ends with 0 without a line about any file is believed: the scan
    is completed with no file inspected, and only its receipt says otherwise. *)
Definition silent : run := Run sample_now ready_info home 7 None sample_host [] (Ok 0) false false (sample_now + 2 * second) ready_info home sample_host.

Lemma silent_scan_completes :
  let s := w_store (after (_run MAX_DB_BYTES memberships "scan-1" "FILE" [notes] silent) begun) in
  map (fun row => (get "state" row, get "files_inspected" row)) (scans s) = [(VStr "COMPLETED", VInt 0)]
  /\ map (get "state") (receipts s) = [VStr "PARTIAL"].
Proof. vm_compute. done. Qed.

(** ** Witnesses *)

Lemma home_in_directories : in_directories home.
Proof. apply in_directories_check. vm_compute. reflexivity. Qed.

Lemma notes_below : below_dirs home notes.
Proof.
  intros x y Hxy Hx Hy. unfold notes in Hxy. destruct x as [|a [|b [|c x]]]; [done| | |].
  - injection Hxy as <- _. eexists. split; reflexivity.
  - injection Hxy as <- <- _. eexists. split; reflexivity.
  - injection Hxy as _ _ _ Hxy. symmetry in Hxy. apply app_eq_nil in Hxy as [_ ->]. done.
Qed.

Definition kept_store : db :=
  after (save (Some 1000) notes (fingerprint home notes) (fingerprint home notes) (generation ready_info) "CLEAN" "scan-1" "2026-09-20T10:00:00Z" false) empty_db.

Definition looked : dict := match outcome (lookup home 1000 notes (generation ready_info) true) kept_store with Ok v => v | Err _ => [] end.

Lemma valid_receipt_unchanged_witness :
  get "validity" looked = VStr "VALID" /\ get "state" looked = VStr "CLEAN"
  /\ exists q m, lstat home q = Ok m /\ n_ino m = 12.
Proof.
  assert (get "validity" looked = VStr "VALID") as Hv by (vm_compute; reflexivity).
  destruct (valid_receipt_unchanged home home home 1000 notes (generation ready_info) (generation ready_info) "CLEAN" "scan-1" "2026-09-20T10:00:00Z" false true
              empty_db kept_store looked home_named home_in_directories eq_refl notes_below) as (Hs & _ & _ & _ & _ & [Hd|(x & y & Hx & Hy & Hne & He)]).
  - vm_compute. reflexivity.
  - vm_compute. reflexivity.
  - exact Hv.
  - split; [exact Hv|]. split; [exact Hs|]. exists notes. eexists. split; vm_compute; reflexivity.
  - congruence.
Defined.


Lemma clean_receipts_are_vouched_witness :
  let r := sample_run "/proc/self/fd/7: OK" (Ok 0) in
  exists row, In row (receipts (w_store (snd (ended "/proc/self/fd/7: OK" (Ok 0)))))
  /\ get "state" row = VStr "CLEAN" /\ clean_of r (vouched_run memberships "FILE" (Some 1000) [notes] r) row.
Proof.
  intros r. exists (hd [] (receipts (w_store (snd (ended "/proc/self/fd/7: OK" (Ok 0)))))).
  assert (In (hd [] (receipts (w_store (snd (ended "/proc/self/fd/7: OK" (Ok 0)))))) (receipts (w_store (snd (ended "/proc/self/fd/7: OK" (Ok 0)))))) as Hin
    by (vm_compute; left; reflexivity).
  split; [exact Hin|]. split; [vm_compute; reflexivity|].
  destruct (clean_receipts_are_vouched MAX_DB_BYTES memberships "scan-1" "FILE" [notes] r begun _ Hin) as [Hold|Hnew].
  - exfalso. vm_compute in Hold. exact Hold.
  - exact Hnew.
Defined.

Definition failing : run :=
  Run sample_now ready_info home 7 (Some (FileNotFoundError "clamscan")) sample_host [] (Ok 0) false false (sample_now + second) ready_info home sample_host.

Lemma no_scan_left_running_witness :
  let s' := snd (_run MAX_DB_BYTES memberships "scan-1" "FILE" [notes] failing begun) in
  map (fun row => get "state" row) (scans (w_store begun)) = [VStr "QUEUED"]
  /\ exists answer s'', status sample_now "scan-1" (Some 1000) s' = (Ok answer, s'') /\ forall value, answer = Some value -> active_row value = false.
Proof.
  intros s'. split; [vm_compute; reflexivity|].
  destruct (announce MAX_DB_BYTES "scan-1" failing begun) as [[o|e] s1] eqn:Ha; [|vm_compute in Ha; discriminate Ha].
  apply (no_scan_left_running MAX_DB_BYTES memberships "scan-1" "FILE" [notes] failing begun s1 s' o
           (fst (_run MAX_DB_BYTES memberships "scan-1" "FILE" [notes] failing begun)) sample_now (Some 1000)).
  - vm_compute. constructor; [by intros ?%elem_of_nil|constructor].
  - reflexivity.
  - exact Ha.
  - apply surjective_pairing.
  - vm_compute. reflexivity.
Defined.

(** ** What the model showed *)

(** A colon followed by a blank ends the path, so a threat in a file whose name
    has one, which a scan of the system hands over by its name, is recorded for
    another path. *)
Lemma colon_ends_the_path :
  _parse_found "/home/ann/a: b.txt: Eicar FOUND" = Some ("/home/ann/a", "b.txt: Eicar").
Proof. reflexivity. Qed.

Definition with_store_fault (e : option string) (s : worker) : worker :=
  let d := w_store s in
  Worker (Db (metadata d) (events d) (relations d) (devices d) (findings d) (scans d) (TelemetryStore.detections d) (actions d) (receipts d) (next_action d) e) (w_tokens s) (w_progress s).

(** The record of the start is outside the handler: a store that cannot be opened
    there leaves the token, so the scan stays active and every other is refused. *)
Lemma lost_start_blocks :
  let stuck := snd (_run MAX_DB_BYTES memberships "scan-1" "FILE" [notes] (sample_run "" (Ok 0)) (with_store_fault (Some "disk I/O error") begun)) in
  let later := with_store_fault None stuck in
  (exists value, outcome (status sample_now "scan-1" (Some 1000)) later = Ok (Some value) /\ active_row value = true)
  /\ outcome (start memberships sample_now home ready_info "2" (VStr "FILE") (VList [VStr "/home/ann/notes.txt"]) (Some 1000) false false) later = Err already_running.
Proof. split; [eexists; split|]; vm_compute; reflexivity. Qed.

(** Only the 64 latest scans are searched for an active one: results of the
    synchronous entry point that came after it hide it, and a second scan
    starts beside it. *)
Definition synchronous (n : nat) : act worker unit :=
  record_legacy_result (sample_now + (Z.of_nat n + 1) * second) home ("s" +:+ str_of_Z (Z.of_nat n)) "x" notes (VStr "CLEAN") VNone (VStr "No known threat found.") None (Some 1000).

Definition started_beside (results : nat) : bool :=
  match outcome (start memberships (sample_now + 100 * second) home ready_info "2" (VStr "FILE") (VList [VStr "/home/ann/notes.txt"]) (Some 1000) false false)
          (after (each synchronous (seq 0 results)) begun) with Ok _ => true | Err _ => false end.

Lemma active_scan_hidden : started_beside 63 = false /\ started_beside 64 = true.
Proof. vm_compute. done. Qed.
