(* ===== verification/Quarantine.v ===== *)
(** * The vault and the quarantine ([file_security.py])

    The file system as the remediation changes it: directories, temporary files,
    renames and removals, each of which may fail, and the verified copy and
    removal of a file. The service runs as root; a new entry is its own. *)
From S2P Require Import Prelude PyVal PyStr Json PyText PyTime TelemetryValues Sql TelemetryStore Files ScanAccess ScanReceipts ScanRuns TelemetryRetention ScanManager.

(** The state of the remediation: the store, the file system, the operations
    between preparation and completion, and how the next changes of the file
    system end. *)
Record vault := Vault {
  v_store : db; v_disk : fs; v_pending : list (string * dict); v_restores : list (string * dict); v_faults : list (option exn) }.

Definition in_store {A} (m : act db A) : act vault A := fun s =>
  let '(r, d) := m (v_store s) in (r, Vault d (v_disk s) (v_pending s) (v_restores s) (v_faults s)).

Definition set_pending (f : list (string * dict) -> list (string * dict)) : act vault unit := fun s =>
  (Ok tt, Vault (v_store s) (v_disk s) (f (v_pending s)) (v_restores s) (v_faults s)).

Definition set_restores (f : list (string * dict) -> list (string * dict)) : act vault unit := fun s =>
  (Ok tt, Vault (v_store s) (v_disk s) (v_pending s) (f (v_restores s)) (v_faults s)).

(** What the file system answers, and a change of it, which may fail. *)
Definition on_disk {A} (f : fs -> res A) : act vault A := fun s => (f (v_disk s), s).

Definition change (f : fs -> res fs) : act vault unit := fun s =>
  let rest := tl (v_faults s) in
  let failed e := (Err e, Vault (v_store s) (v_disk s) (v_pending s) (v_restores s) rest) in
  match v_faults s with
  | Some e :: _ => failed e
  | _ => match f (v_disk s) with
         | Ok d => (Ok tt, Vault (v_store s) d (v_pending s) (v_restores s) rest)
         | Err e => failed e
         end
  end.

(** ** Changes *)

Definition next_ino (f : fs) : Z := 1 + map_fold (fun _ n z => Z.max (n_ino n) z) 2 f.

Definition new_node (f : fs) (k : kind) (mode now : Z) : node := Node k mode 0 0 (next_ino f) "" now now (Ok None) (Ok None).

Definition entry_exists (p : path) : exn := FileExistsError ("File exists: " +:+ path_text p).
Definition is_a_directory (p : path) : exn := OSError ("Is a directory: " +:+ path_text p).

Definition make_entry (k : kind) (mode now : Z) (p : path) (f : fs) : res fs :=
  q ← walk WALK f false [] p;
  match node_at f q with Some _ => Err (entry_exists p) | None => Ok (<[q := new_node f k mode now]> f) end.

(** The node behind an open descriptor or a path, changed. *)
Definition edit_entry (g : node -> node) (p : path) (f : fs) : res fs :=
  q ← walk WALK f true [] p;
  match node_at f q with Some n => Ok (<[q := g n]> f) | None => Err (no_entry p) end.

Definition set_data (text : string) (now : Z) (n : node) : node := Node (n_kind n) (n_mode n) (n_uid n) (n_gid n) (n_ino n) text now now (n_label n) (n_acl n).
Definition set_mode (mode now : Z) (n : node) : node := Node (n_kind n) mode (n_uid n) (n_gid n) (n_ino n) (n_data n) (n_mtime n) now (n_label n) (n_acl n).
Definition set_uid (uid now : Z) (n : node) : node := Node (n_kind n) (n_mode n) uid (n_gid n) (n_ino n) (n_data n) (n_mtime n) now (n_label n) (n_acl n).

(** [os.replace] of a file and [unlink]. *)
Definition move_entry (source destination : path) (f : fs) : res fs :=
  p ← walk WALK f false [] source;
  match node_at f p with
  | None => Err (no_entry source)
  | Some n =>
      q ← walk WALK f false [] destination;
      match node_at f q with
      | Some m => if is_dir_node m then Err (is_a_directory destination) else Ok (<[q := n]> (delete p f))
      | None => Ok (<[q := n]> (delete p f))
      end
  end.

Definition remove_entry (p : path) (f : fs) : res fs :=
  q ← walk WALK f false [] p;
  match node_at f q with
  | Some n => if is_dir_node n then Err (is_a_directory p) else Ok (delete q f)
  | None => Err (no_entry p)
  end.

(** [path.unlink(missing_ok=True)]. *)
Definition is_missing (e : exn) : bool := match e with FileNotFoundError _ => true | _ => false end.

Definition unlink_quiet (p : path) : act vault unit := (change (remove_entry p) except is_missing => (fun _ => mret tt))%act.

Definition path_is_dir (f : fs) (p : path) : bool := match stat f p with Ok n => is_dir_node n | Err _ => false end.

(** [path.mkdir(mode, exist_ok=True)] and, with parents, of the missing ones. *)
Definition mkdir_one (mode now : Z) (p : path) : act vault unit :=
  (change (make_entry Directory mode now p) except is_os_error => (fun e =>
    there ← on_disk (fun f => Ok (path_is_dir f p)); if there : bool then mret tt else raise e))%act.

Fixpoint mkdir_parents (fuel : nat) (mode now : Z) (p : path) : act vault unit :=
  (change (make_entry Directory mode now p) except is_os_error => (fun e =>
    match fuel with
    | S fuel => if is_missing e then _ ← mkdir_parents fuel 493 now (removelast p); mkdir_one mode now p
                else there ← on_disk (fun f => Ok (path_is_dir f p)); if there : bool then mret tt else raise e
    | O => raise e
    end))%act.

Definition mkdir (mode now : Z) (p : path) : act vault unit := mkdir_parents (length p) mode now p.

(** ** Verified copies *)

Section copies.
Context `{Sha256}.

(** The content behind a descriptor opened without following a link. *)
Definition read_source (gone stranger : exn) (owner : option Z) (p : path) (f : fs) : res node :=
  q ← open_readonly f p;
  match node_at f q with
  | None => Err (no_entry q)
  | Some n =>
      _ ← require (is_reg_node n) gone;
      _ ← require (match owner with Some uid => n_uid n =? uid | None => true end) stranger;
      Ok n
  end.

Definition expected_ok (expected : val) (hash : string) : bool := negb (truthy expected) || py_eq expected (VStr hash).

Definition not_regular : exn := ValueError "The source is no longer a regular file.".

(** [tempfile.mkstemp(prefix, dir)] draws [suffix]. *)
Definition temporary (destination : path) (prefix suffix : string) : path := removelast destination ++ [prefix +:+ suffix].

(** A new file with this content in place of [destination]. *)
Definition publish (now : Z) (file destination : path) : act vault unit :=
  _ ← change (edit_entry (set_mode 384 now) file); change (move_entry file destination).

(** [_copy_verified(source, destination, expected_hash, owner_uid)]. *)
Definition copy_body (now : Z) (source destination : path) (expected : val) (owner : option Z) (file : path) : act vault (Z * string) :=
  n ← on_disk (read_source not_regular (PermissionError "The source is no longer owned by the requesting user.") owner source);
  let hash := sha256 (n_data n) in
  _ ← change (edit_entry (set_data (n_data n) now) file);
  _ ← lift (require (expected_ok expected hash) (ValueError "The source changed while it was being quarantined."));
  _ ← publish now file destination;
  mret (str_len (n_data n), hash).

Definition _copy_verified (now : Z) (suffix : string) (source destination : path) (expected : val) (owner : option Z) : act vault (Z * string) :=
  let file := temporary destination ".pending-" suffix in
  _ ← mkdir 448 now (removelast destination);
  _ ← change (make_entry Regular 384 now file);
  (copy_body now source destination expected owner file always unlink_quiet file)%act.

(** [_unlink_verified_source(source, expected_hash, owner_uid)]. *)
Definition changed_before_removal : exn := ValueError "The source changed before it could be removed.".

Definition check_removal (source : path) (expected : val) (owner : option Z) (f : fs) : res unit :=
  n ← read_source not_regular (PermissionError "The source is not owned by the requesting user.") owner source f;
  _ ← require (expected_ok expected (sha256 (n_data n))) changed_before_removal;
  current ← lstat f source;
  require (n_ino current =? n_ino n) changed_before_removal.

Definition _unlink_verified_source (source : path) (expected : val) (owner : option Z) : act vault unit :=
  _ ← on_disk (check_removal source expected owner); change (remove_entry source).
End copies.

(** * Quarantine ([file_security.py], [FileSecurityManager])

    The remediation of a detection, in two halves around what the session of the
    user does with his own file: the object in quarantine is published before the
    source is removed, and a restored file is checked before the detection is
    called restored; and the removal of an object. *)

Definition QUARANTINE : path := ["var"; "lib"; "greyward"; "quarantine"].
Definition TRANSFERS : path := ["run"; "greyward-file-security"].
Definition STAGING : path := ["var"; "lib"; "greyward"; "restore-staging"].

(** [_quarantine_root(owner_uid)]. *)
Definition _quarantine_root (owner : Z) : path := QUARANTINE ++ [str_of_Z owner].

(** [QUARANTINE_ID_RE.fullmatch(quarantine_id)]. *)
Definition quarantine_ref (s : string) : bool :=
  startswith "q-" s && (String.length s =? 34)%nat && str_forall hex_char (str_drop 2 s).

Definition object_name (id : string) : string := id +:+ ".object".
Definition manifest_name (id : string) : string := id +:+ ".json".

(** What one request meets: the clock, the random identifier, the suffixes of the
    two temporary files, and the host of events. *)
Record moment := Moment { at_now : Z; at_uuid : string; at_suffix : string; at_suffix' : string; at_event : event_host }.

Definition detection_gone : exn := ValueError "The detection is no longer available.".

Definition file_error (e : exn) : bool := is_os_error e || is_value_error e.

Definition short_text (e : exn) : string := str_take 320 (exn_text e).

Section quarantine.
Context `{FloatText} `{IsoText} `{Sqlite} `{Sha256} (max_bytes : Z) (home_of : Z -> option path).

(** [_owned_detection(detection_id, actor_uid)]. *)
Definition _owned_detection (id : string) (actor : Z) : act vault dict :=
  value ← in_store (get_file_detection id);
  match value with
  | None => raise detection_gone
  | Some d =>
      scan ← (if actor =? 0 then mret None else in_store (get_file_scan (text_val (get "operation_id" d))));
      let owned := match scan with Some v => owned_value (Some actor) v | None => false end in
      if (actor =? 0) || owned then mret d else raise detection_gone
  end.

(** What is stored, recorded and published about an outcome. *)
Definition set_detection (now : Z) (d : dict) (changes : list (string * val)) : act vault dict := in_store (upsert_file_detection now (dupdate d changes)).

Definition report_remedy (m : moment) (d : dict) (id event_type result detail severity : string) : act vault unit :=
  in_store (_emit max_bytes (at_now m) (at_event m) (py_str (get "operation_id" d)) event_type result detail severity
              [("detection_id", VStr id); ("file_ref", get "file_ref" d)]).

Definition note_action (m : moment) (id action outcome detail : string) : act vault unit :=
  _ ← in_store (record_file_action (at_now m) id action outcome detail); mret tt.

(** ** Objects *)

Definition plain_file (f : fs) (p : path) : bool := path_is_file f p && negb (path_is_link f p).

(** [_find_quarantine_object(quarantine_id, owner_uid)]. *)
Definition object_places (f : fs) (id : string) (owner : option Z) : list path :=
  (_quarantine_root (default 0 owner) ++ [object_name id]) :: (QUARANTINE ++ [object_name id])
  :: match owner with None => map (fun d => d ++ [object_name id]) (children f QUARANTINE) | Some _ => [] end.

Definition _find_quarantine_object (id : val) (owner : option Z) (f : fs) : res (option path) :=
  match id with
  | VStr s =>
      _ ← require (quarantine_ref s) (ValueError "The quarantine reference is invalid.");
      Ok (List.find (plain_file f) (object_places f s owner))
  | _ => Err TypeError
  end.

(** [_write_manifest(path, manifest)]. *)
Definition _write_manifest (now : Z) (suffix : string) (p : path) (manifest : dict) : act vault unit :=
  let file := temporary p ".manifest-" suffix in
  _ ← change (make_entry Regular 384 now file);
  ((_ ← change (edit_entry (set_data (dumps (VDict manifest)) now) file); publish now file p) always unlink_quiet file)%act.

(** ** Into quarantine *)

Definition manifest_of (now : Z) (qid id : string) (owner : Z) (source : path) (size : Z) (digest : string) : dict :=
  dlit [("quarantine_id", VStr qid); ("detection_id", VStr id); ("owner_uid", VInt owner); ("original_path", VStr (path_text source));
        ("file_hash", VStr digest); ("file_size", VInt size); ("created_at", VStr (stamp now))].

Definition pending_of (qid id : string) (owner : Z) (source : path) (size : Z) (digest : string) : dict :=
  dlit [("state", VStr "QUARANTINE_PENDING"); ("detection_id", VStr id); ("quarantine_id", VStr qid); ("source_path", VStr (path_text source));
        ("owner_uid", VInt owner); ("file_hash", VStr digest); ("file_size", VInt size)].

Definition publish_object (m : moment) (d : dict) (id qid : string) (owner : Z) (source : path) : act vault dict :=
  let root := _quarantine_root owner in
  copied ← _copy_verified (at_now m) (at_suffix m) source (root ++ [object_name qid]) (get "file_hash" d) (Some owner);
  _ ← _write_manifest (at_now m) (at_suffix' m) (root ++ [manifest_name qid]) (manifest_of (at_now m) qid id owner source copied.1 copied.2);
  let pending := pending_of qid id owner source copied.1 copied.2 in
  _ ← set_pending (dset id pending);
  mret pending.

Definition withdraw_object (root : path) (qid : string) (e : exn) : act vault dict :=
  there ← on_disk (fun f => Ok (path_exists f (root ++ [manifest_name qid])));
  _ ← (if there : bool then mret tt else unlink_quiet (root ++ [object_name qid]));
  raise e.

(** [prepare_quarantine(detection_id, actor_uid=...)]. *)
Definition foreign_source (actor owner : Z) : bool := negb (actor =? 0) && negb ((owner =? actor) || (owner =? 0)).

Definition prepare_quarantine (m : moment) (id : string) (actor : Z) : act vault dict :=
  d ← _owned_detection id actor;
  if is_str "QUARANTINED" (get "state" d) then mret d
  else
    source ← on_disk (fun f => _safe_detected_file f (text_of (get "original_path" d)));
    n ← on_disk (fun f => stat f source);
    _ ← lift (require (negb (foreign_source actor (n_uid n))) (PermissionError "The detection is not owned by the requesting user."));
    let root := _quarantine_root (n_uid n) in
    _ ← mkdir 448 (at_now m) root;
    _ ← change (edit_entry (set_mode 448 (at_now m)) root);
    let qid := "q-" +:+ at_uuid m in
    (publish_object m d id qid (n_uid n) source except file_error => withdraw_object root qid)%act.

(** [_find_pending_quarantine(detection_id)]: what is remembered, what the row
    says, or a manifest of the detection. *)
Fixpoint find_manifest (f : fs) (id : string) (files : list path) : res (option dict) :=
  match files with
  | [] => Ok None
  | p :: files =>
      match match stat f p with Ok n => if is_reg_node n then loads (n_data n) else Err (is_a_directory p) | Err e => Err e end with
      | Ok (VDict manifest) => if py_eq (get "detection_id" manifest) (VStr id) then Ok (Some manifest) else find_manifest f id files
      | Ok _ => Err AttributeError
      | Err _ => find_manifest f id files
      end
  end.

Definition manifests (f : fs) : list path :=
  List.filter (fun p => endswith ".json" (List.last p "")) (mjoin (map (children f) (children f QUARANTINE))).

Definition _find_pending_quarantine (id : string) : act vault (option dict) :=
  known ← gets (fun s => dget id (v_pending s));
  match known with
  | Some pending => mret (Some pending)
  | None =>
      row ← in_store (get_file_detection id);
      let d := default [] row in
      let qid := text_of (get "quarantine_id" d) in
      if quarantine_ref qid then mret (Some (dlit [("quarantine_id", VStr qid); ("file_hash", get "file_hash" d)]))
      else on_disk (fun f => find_manifest f id (manifests f))
  end.

(** [int(owner_value) if owner_value is not None else None]: it is an integer. *)
Definition owner_value (pending : dict) : option Z := match get "owner_uid" pending with VInt z => Some z | _ => None end.

Definition completed_fields (qid : val) (size digest : val) : list (string * val) :=
  [("state", VStr "QUARANTINED"); ("quarantine_id", qid); ("file_hash", digest); ("file_size", size); ("last_error", VNone)].

(** The checks of [complete_quarantine]: the object, its size and digest. *)
Definition source_present (f : fs) (d : dict) : bool :=
  let source := parts_of (text_of (get "original_path" d)) in path_exists f source || path_is_link f source.

Definition verify_object (f : fs) (d : dict) (pending : dict) : res (val * (val * val)) :=
  let qid := getd "quarantine_id" (VStr (text_of (get "quarantine_id" d))) pending in
  found ← _find_quarantine_object qid (owner_value pending) f;
  match found with
  | None => Err (FileNotFoundError "The verified quarantine object is unavailable.")
  | Some p =>
      let hash := _hash_file f p in
      _ ← require (truthy hash.2) (OSError "The verified quarantine object cannot be read.");
      let expected := py_or (get "file_hash" pending) (py_or (get "file_hash" d) hash.2) in
      _ ← require (py_eq hash.2 (VStr (py_str expected))) (ValueError "The quarantine object failed integrity verification.");
      Ok (qid, hash)
  end.

(** [complete_quarantine(detection_id, actor_uid=...)]. *)
Definition complete_quarantine (m : moment) (id : string) (actor : Z) : act vault dict :=
  d ← _owned_detection id actor;
  if is_str "QUARANTINED" (get "state" d) then mret d
  else
    present ← on_disk (fun f => Ok (source_present f d));
    _ ← lift (require (negb present) (ValueError "The original file is still present; quarantine was not completed."));
    pending ← _find_pending_quarantine id;
    checked ← on_disk (fun f => verify_object f d (default [] pending));
    result ← set_detection (at_now m) d (completed_fields checked.1 checked.2.1 checked.2.2);
    _ ← note_action m id "QUARANTINE" "SUCCESS" "Threat moved to GREYWARD quarantine.";
    _ ← report_remedy m d id "FILE_QUARANTINED" "SUCCESS" "Threat moved to quarantine." "WARNING";
    _ ← set_pending (ddel id);
    mret result.

(** [fail_quarantine(detection_id, detail, actor_uid=...)]. *)
Definition fail_quarantine (m : moment) (id detail : string) (actor : Z) : act vault dict :=
  d ← _owned_detection id actor;
  pending ← _find_pending_quarantine id;
  let either k := py_or (get k (default [] pending)) (get k d) in
  result ← set_detection (at_now m) d
    [("state", VStr "QUARANTINE_FAILED"); ("quarantine_id", either "quarantine_id"); ("file_hash", either "file_hash"); ("file_size", either "file_size");
     ("last_error", VStr (str_take 320 detail))];
  _ ← note_action m id "QUARANTINE" "FAILED" (str_take 320 detail);
  _ ← report_remedy m d id "FILE_QUARANTINE_FAILED" "FAILURE" (str_take 320 detail) "ERROR";
  mret result.

(** [quarantine_detection(detection_id, actor_uid=...)]. *)
Definition source_of_pending (pending : dict) : res path :=
  match dget "source_path" pending with Some v => Ok (parts_of (py_str v)) | None => Err (KeyError "source_path") end.

Definition failed_quarantine (m : moment) (id : string) (actor : Z) (e : exn) : act vault dict :=
  _ ← ((_ ← fail_quarantine m id (exn_text e) actor; mret tt) except (fun e => file_error e || match e with TelemetryError _ => true | _ => false end) => (fun _ => mret tt))%act;
  raise e.

Definition quarantine_detection (m : moment) (id : string) (actor : Z) : act vault dict :=
  ((pending ← prepare_quarantine m id actor;
    source ← lift (source_of_pending pending);
    _ ← _unlink_verified_source source (get "file_hash" pending) (if actor =? 0 then None else Some actor);
    complete_quarantine m id actor) except file_error => failed_quarantine m id actor)%act.
End quarantine.

(** * Restoration and removal ([file_security.py], [FileSecurityManager])

    The way back out of quarantine: a verified copy in a directory of the caller,
    from which his session creates the file, the check of that file; the direct
    restoration of the administrator; and the permanent removal of an object. *)

Section restore.
Context `{FloatText} `{IsoText} `{Sqlite} `{Sha256} (max_bytes : Z) (home_of : Z -> option path).

Definition RESTORABLE : list string := ["QUARANTINED"; "QUARANTINE_FAILED"].

Definition not_restorable : exn := ValueError "Only a quarantined detection can be restored.".
Definition target_exists : exn := FileExistsError "The restore destination already exists.".
Definition outside_home : exn := PermissionError "Restore destinations must be inside the requesting user's home.".

Definition last_name (p : path) : string := List.last p "".

(** The home directory of the caller; an account without one is a [KeyError]. *)
Definition resolved_home (f : fs) (actor : Z) : option path := resolve_lax f <$> home_of actor.

Definition inside_home (f : fs) (actor : Z) (target : path) : bool :=
  match resolved_home f actor with Some home => under home (resolve_lax f target) | None => false end.

(** [_restore_target(detection, destination, actor_uid)]. *)
Definition default_target (f : fs) (d : dict) (actor : Z) : res path :=
  if actor =? 0 then Ok (STAGING ++ [py_str (get "detection_id" d)])
  else match resolved_home f actor with
       | None => Err (PermissionError "The requesting user's home is unavailable.")
       | Some home => Ok (home ++ [".local"; "share"; "greyward"; "restore-staging";
                                   nonempty (last_name (parts_of (text_of (get "original_path" d)))) (py_str (get "detection_id" d))])
       end.

Definition _restore_target (f : fs) (d : dict) (destination : string) (actor : Z) : res path :=
  target ← (if String.eqb destination "" then default_target f d actor
            else _ ← require (is_absolute destination) (PermissionError "Restore destinations must be absolute paths."); Ok (parts_of destination));
  _ ← require ((actor =? 0) || inside_home f actor target) outside_home;
  _ ← require (negb (path_exists f target || path_is_link f target)) target_exists;
  Ok target.

Definition transfer_path (id : string) (actor : Z) : path := TRANSFERS ++ [str_of_Z actor; id +:+ ".transfer"].

Definition restore_pending (id : string) (transfer target : path) (digest : string) (size actor : Z) : dict :=
  dlit [("state", VStr "RESTORE_PENDING"); ("detection_id", VStr id); ("transfer_path", VStr (path_text transfer)); ("destination", VStr (path_text target));
        ("file_hash", VStr digest); ("file_size", VInt size); ("actor_uid", VInt actor)].

Definition give_to (actor now : Z) (p : path) : act vault unit := if actor =? 0 then mret tt else change (edit_entry (set_uid actor now) p).

Definition stage (m : moment) (d : dict) (id : string) (source transfer target : path) (actor : Z) : act vault dict :=
  copied ← _copy_verified (at_now m) (at_suffix m) source transfer (get "file_hash" d) None;
  _ ← give_to actor (at_now m) transfer;
  let pending := restore_pending id transfer target copied.2 copied.1 actor in
  _ ← set_restores (dset id pending);
  mret pending.

(** [prepare_restore(detection_id, destination, actor_uid=...)]. *)
Definition actor_option (actor : Z) : option Z := if actor =? 0 then None else Some actor.

Definition prepare_restore (m : moment) (id destination : string) (actor : Z) : act vault dict :=
  d ← _owned_detection id actor;
  _ ← lift (require (in_strs RESTORABLE (get "state" d)) not_restorable);
  found ← on_disk (_find_quarantine_object (VStr (text_of (get "quarantine_id" d))) (actor_option actor));
  match found with
  | None => raise (FileNotFoundError "The quarantined object is unavailable.")
  | Some source =>
      target ← on_disk (fun f => _restore_target f d destination actor);
      let transfer := transfer_path id actor in
      _ ← mkdir 448 (at_now m) (removelast transfer);
      _ ← change (edit_entry (set_mode 448 (at_now m)) (removelast transfer));
      _ ← give_to actor (at_now m) (removelast transfer);
      staged ← on_disk (fun f => Ok (path_exists f transfer || path_is_link f transfer));
      _ ← lift (require (negb staged) (FileExistsError "A restore operation is already staged for this detection."));
      (stage m d id source transfer target actor except file_error => (fun e => _ ← unlink_quiet transfer; raise e))%act
  end.

(** [complete_restore(detection_id, destination, actor_uid=...)]. *)
Definition check_restored (f : fs) (pending : dict) (destination : string) (actor : Z) : res (val * val) :=
  let target := parts_of destination in
  _ ← require (is_absolute destination && String.eqb (path_text target) (py_str (get "destination" pending))) (ValueError "The restore destination does not match the prepared operation.");
  _ ← require (negb (path_is_link f target) && path_is_file f target) (FileNotFoundError "The restored file was not created in the requested location.");
  _ ← (if actor =? 0 then Ok tt else n ← stat f target; require (n_uid n =? actor) (PermissionError "The restored file is not owned by the requesting user."));
  let hash := _hash_file f target in
  _ ← require (py_eq hash.2 (get "file_hash" pending)) (ValueError "The restored file failed integrity verification.");
  Ok hash.

Definition restored_fields (hash : val * val) (target : path) : list (string * val) :=
  [("state", VStr "RESTORED"); ("last_error", VNone); ("file_size", hash.1); ("file_hash", hash.2); ("restore_staging_path", VStr (path_text target))].

Definition report_restored (m : moment) (d : dict) (id : string) : act vault unit :=
  report_remedy max_bytes m d id "FILE_RESTORED" "SUCCESS" "Quarantined file restored to a review location." "WARNING".

Definition complete_restore (m : moment) (id destination : string) (actor : Z) : act vault dict :=
  d ← _owned_detection id actor;
  known ← gets (fun s => dget id (v_restores s));
  match known with
  | None => raise (ValueError "The restore operation is no longer pending.")
  | Some pending =>
      hash ← on_disk (fun f => check_restored f pending destination actor);
      _ ← unlink_quiet (parts_of (text_of (get "transfer_path" pending)));
      result ← set_detection (at_now m) d (restored_fields hash (parts_of destination));
      _ ← note_action m id "RESTORE" "SUCCESS" "Restored to review location.";
      _ ← report_restored m d id;
      _ ← set_restores (ddel id);
      mret (dset "staging_path" (VStr (path_text (parts_of destination))) result)
  end.

(** [fail_restore(detection_id, detail, actor_uid=...)]. *)
Definition fail_restore (m : moment) (id detail : string) (actor : Z) : act vault dict :=
  d ← _owned_detection id actor;
  result ← set_detection (at_now m) d [("state", VStr "RESTORE_FAILED"); ("last_error", VStr (str_take 320 detail))];
  _ ← note_action m id "RESTORE" "FAILED" (str_take 320 detail);
  _ ← report_remedy max_bytes m d id "FILE_RESTORE_FAILED" "FAILURE" (str_take 320 detail) "ERROR";
  mret result.

(** [restore_detection(detection_id, destination, actor_uid=...)]. *)
Definition direct_source (f : fs) (qid : string) (actor : Z) : res path :=
  let first := _quarantine_root actor ++ [object_name qid] in
  let source := if path_is_file f first then first
                else match List.filter (path_exists f) (map (fun d => d ++ [object_name qid]) (children f QUARANTINE)) with p :: _ => p | [] => first end in
  _ ← require (path_is_file f source) (FileNotFoundError "The quarantined object is unavailable.");
  Ok source.

Definition direct_target (f : fs) (d : dict) (id destination : string) (source : path) (actor : Z) : res path :=
  target ← (if String.eqb destination "" then
              base ← (if actor =? 0 then Ok (STAGING ++ [last_name (removelast source)])
                      else match resolved_home f actor with
                           | Some home => Ok (home ++ [".local"; "share"; "greyward"; "restore-staging"])
                           | None => Err (PermissionError "The requesting user's home is unavailable.")
                           end);
              Ok (base ++ [nonempty (last_name (parts_of (text_of (get "original_path" d)))) id])
            else
              let target := resolve_lax f (parts_of destination) in
              _ ← require ((actor =? 0) || match resolved_home f actor with Some home => under home target | None => false end) outside_home;
              Ok target);
  _ ← require (negb (path_exists f target || path_is_link f target)) target_exists;
  Ok target.

Definition assign (actor now : Z) (target : path) : act vault unit :=
  (give_to actor now target except is_os_error => (fun _ =>
    _ ← unlink_quiet target; raise (PermissionError "The restored file could not be assigned to the requesting user.")))%act.

Definition restore_copy (m : moment) (d : dict) (id : string) (source target : path) (actor : Z) : act vault dict :=
  copied ← _copy_verified (at_now m) (at_suffix m) source target (get "file_hash" d) None;
  _ ← assign actor (at_now m) target;
  result ← set_detection (at_now m) d (restored_fields (VInt copied.1, VStr copied.2) target);
  _ ← note_action m id "RESTORE" "SUCCESS" ("Restored to review location: " +:+ path_text target);
  _ ← report_restored m d id;
  mret (dset "staging_path" (VStr (path_text target)) result).

Definition restore_detection (m : moment) (id destination : string) (actor : Z) : act vault dict :=
  d ← _owned_detection id actor;
  _ ← lift (require (in_strs RESTORABLE (get "state" d)) not_restorable);
  source ← on_disk (fun f => direct_source f (py_str (get "quarantine_id" d)) actor);
  target ← on_disk (fun f => direct_target f d id destination source actor);
  (restore_copy m d id source target actor except file_error => (fun e =>
    _ ← set_detection (at_now m) d [("state", VStr "RESTORE_FAILED"); ("last_error", VStr (short_text e))];
    _ ← note_action m id "RESTORE" "FAILED" (short_text e);
    raise e))%act.

(** [delete_detection(detection_id, actor_uid=...)]. *)
Definition report_delete_failed (m : moment) (d : dict) (id : string) (detail : string) : act vault unit :=
  _ ← set_detection (at_now m) d [("state", VStr "DELETE_FAILED"); ("last_error", VStr detail)];
  _ ← note_action m id "DELETE" "FAILED" detail;
  report_remedy max_bytes m d id "FILE_DELETE_FAILED" "FAILURE" detail "ERROR".

Definition manifest_beside (object : path) : path :=
  let name := last_name object in removelast object ++ [str_take (String.length name - 7)%nat name +:+ ".json"].

Definition delete_object (m : moment) (d : dict) (id : string) (object : path) : act vault dict :=
  _ ← unlink_quiet object;
  _ ← unlink_quiet (manifest_beside object);
  result ← set_detection (at_now m) d [("state", VStr "DELETED"); ("last_error", VNone)];
  _ ← note_action m id "DELETE" "SUCCESS" "Quarantined object permanently deleted.";
  _ ← report_remedy max_bytes m d id "FILE_DELETED" "SUCCESS" "Quarantined object permanently deleted." "WARNING";
  mret result.

Definition delete_detection (m : moment) (id : string) (actor : Z) : act vault dict :=
  d ← _owned_detection id actor;
  _ ← lift (require (truthy (get "quarantine_id" d)) (ValueError "Move the detection to quarantine before deleting it."));
  found ← on_disk (_find_quarantine_object (VStr (py_str (get "quarantine_id" d))) (actor_option actor));
  match found with
  | None =>
      let detail := "The quarantined object is unavailable; it was not marked deleted." in
      _ ← report_delete_failed m d id detail; raise (FileNotFoundError detail)
  | Some object =>
      (delete_object m d id object except is_os_error => (fun e => _ ← report_delete_failed m d id (short_text e); raise e))%act
  end.

(** ** The service ([clamav_service.py]) *)

(** What the methods answer: an error of a completion is recorded as the failure
    of the operation. *)
Definition answered (e : exn) : bool := file_error e || match e with TelemetryError _ => true | _ => false end.

Definition failure_value (state : string) (e : exn) : dict := dlit [("state", VStr state); ("detail", VStr (short_text e))].

Definition QuarantineDetection (m : moment) (id : string) (actor : Z) : act vault dict :=
  (prepare_quarantine m id actor except answered => (fun e => mret (failure_value "QUARANTINE_FAILED" e)))%act.

Definition CompleteQuarantine (m : moment) (id : string) (actor : Z) : act vault dict :=
  (complete_quarantine max_bytes m id actor except answered => (fun e => fail_quarantine max_bytes m id (exn_text e) actor))%act.

Definition FailQuarantine (m : moment) (id detail : string) (actor : Z) : act vault dict :=
  (fail_quarantine max_bytes m id detail actor except answered => (fun e => mret (failure_value "QUARANTINE_FAILED" e)))%act.

Definition RestoreDetection (m : moment) (id destination : string) (actor : Z) : act vault dict :=
  (prepare_restore m id destination actor except answered => (fun e => mret (failure_value "RESTORE_FAILED" e)))%act.

Definition CompleteRestore (m : moment) (id destination : string) (actor : Z) : act vault dict :=
  (complete_restore m id destination actor except answered => (fun e => fail_restore m id (exn_text e) actor))%act.

Definition FailRestore (m : moment) (id detail : string) (actor : Z) : act vault dict :=
  (fail_restore m id detail actor except answered => (fun e => mret (failure_value "RESTORE_FAILED" e)))%act.

Definition DeleteDetection (m : moment) (id : string) (actor : Z) : act vault dict :=
  (delete_detection m id actor except answered => (fun e => mret (failure_value "DELETE_FAILED" e)))%act.
End restore.
