(* ===== verification/QuarantineClaims.v ===== *)
(** * Quarantine: properties

    Where a path is without links, what a change of the file system touches, and
    what a verified copy leaves. *)
From S2P Require Import Prelude PyVal PyStr Json PyText PyTime TelemetryValues Sql TelemetryStore TelemetryRetention Files ScanAccess ScanAccessProps ScanReceipts ScanRuns ScanManager ScanRunClaims ScanReceiptClaims Quarantine IpAddr JsonRound Commands.

(** ** Walks without links *)

Lemma walk_clear fuel f follow here todo q :
  plain todo = true ->
  (forall x y n, todo = x ++ y -> x <> [] -> y <> [] \/ follow = true -> f !! (here ++ x) = Some n -> is_link_node n = false) ->
  walk fuel f follow here todo = Ok q -> q = here ++ todo.
Proof.
  revert here fuel; induction todo as [|c rest IH]; intros here fuel Hplain Hclear; (destruct fuel as [|fuel]; [done|]).
  - intros [= <-]. by rewrite app_nil_r.
  - cbn [plain forallb] in Hplain. apply andb_true_iff in Hplain as [Hc Hplain]. apply negb_true_iff in Hc. cbn [walk]. rewrite Hc.
    assert (walk fuel f follow (here ++ [c]) rest = Ok q -> q = here ++ c :: rest) as Hrest.
    { intros Hw. rewrite (cons_middle c here). apply (IH (here ++ [c]) fuel Hplain); [|exact Hw].
      intros x y n Hxy Hx Hy Hn. apply (Hclear (c :: x) y n); [by rewrite Hxy|done|done|]. by rewrite <- app_assoc in Hn. }
    destruct (f !! (here ++ [c])) as [n|] eqn:En.
    + pose proof (Hclear [c] rest n eq_refl ltac:(done)) as Hn. unfold is_link_node in Hn. destruct (n_kind n) eqn:Ek.
      * destruct rest; [by intros [= <-]|done].
      * exact Hrest.
      * destruct rest; [|by discriminate Hn; auto]. destruct follow; [by discriminate Hn; auto|]. by intros [= <-].
      * destruct rest; [by intros [= <-]|done].
    + destruct rest; [by intros [= <-]|done].
Qed.

Lemma plain_app p q : plain (p ++ q) = plain p && plain q.
Proof. apply forallb_app. Qed.

Lemma plain_removelast p : plain p = true -> plain (removelast p) = true.
Proof. destruct p as [|c p _] using rev_ind; [done|]. rewrite removelast_last, plain_app. by intros [? _]%andb_true_iff. Qed.

(** ** Around a directory of the service *)

Section base.
Variable B : path.

(** The paths above, at and below the directory. *)
Definition near (p : path) : Prop := under B p = true \/ under p B = true.

(** No link at the paths of [G]. *)
Definition free (G : path -> Prop) (f : fs) : Prop := forall x n, G x -> f !! x = Some n -> is_link_node n = false.

Definition clear (f : fs) : Prop := free near f.

Lemma near_prefix x y : near (x ++ y) -> near x.
Proof.
  intros [(q & Hq)%under_spec|(q & Hq)%under_spec]; unfold near; rewrite !under_spec.
  - apply app_eq_app in Hq as (l & [[-> _]|[-> _]]); [left|right]; by eexists.
  - right. exists (y ++ q). by rewrite Hq, app_assoc.
Qed.

Lemma near_below p q : under B p = true -> near (p ++ q).
Proof. intros (x & ->)%under_spec. left. rewrite <- app_assoc. apply under_app. Qed.

Lemma near_removelast p : near p -> near (removelast p).
Proof. destruct p as [|c p _] using rev_ind; [done|]. rewrite removelast_last. apply near_prefix. Qed.

(** ** Walks along paths that are free of links *)

Variable G : path -> Prop.

Definition prefix_closed : Prop := forall x y, G (x ++ y) -> G x.

Hypothesis G_prefix : prefix_closed.

Lemma free_walk fuel f p q : free G f -> G p -> plain p = true -> walk fuel f true [] p = Ok q -> q = p.
Proof.
  intros Hfree HG Hplain Hw. apply walk_clear in Hw; [done|done|]. intros x y n -> _ _ Hn. apply (Hfree x n); [by eapply G_prefix|exact Hn].
Qed.

(** The last name of a walk that does not follow it may be a link. *)
Lemma free_walk_last fuel f p q : free G f -> G (removelast p) -> plain p = true -> walk fuel f false [] p = Ok q -> q = p.
Proof.
  intros Hfree HG Hplain Hw. apply walk_clear in Hw; [done|done|]. intros x y n -> _ [Hy|[=]] Hn. apply (Hfree x n); [|exact Hn].
  rewrite removelast_app in HG by exact Hy. by eapply G_prefix.
Qed.

(** What differs is in [W], no link is new at the paths of [G], and outside of the
    directory nothing that was there changed. *)
Record touches (W : path -> Prop) (f f' : fs) : Prop := {
  touches_only : forall p, ~ W p -> f' !! p = f !! p;
  touches_links : forall p n, G p -> f' !! p = Some n -> is_link_node n = true -> exists m, f !! p = Some m /\ is_link_node m = true;
  touches_outside : forall p n, under B p = false -> f !! p = Some n -> f' !! p = Some n }.

Lemma touches_refl W f : touches W f f.
Proof. split; [done| |done]. intros p n _ Hp Hn. by exists n. Qed.

Lemma touches_free W f f' : touches W f f' -> free G f -> free G f'.
Proof.
  intros Ht Hclear x n Hx Hn. destruct (is_link_node n) eqn:El; [|done]. destruct (touches_links _ _ _ Ht x n Hx Hn El) as (m & Hm & Hl).
  by rewrite (Hclear x m Hx Hm) in Hl.
Qed.

Lemma touches_trans W f1 f2 f3 : touches W f1 f2 -> touches W f2 f3 -> touches W f1 f3.
Proof.
  intros [O1 L1 U1] [O2 L2 U2]. split.
  - intros p Hp. by rewrite O2, O1.
  - intros p n HG Hn Hl. destruct (L2 p n HG Hn Hl) as (m & Hm & Hl'). by eapply L1.
  - intros p n Hp Hn. by apply U2, U1.
Qed.

Lemma touches_weaken (W W' : path -> Prop) f f' : (forall p, W p -> W' p) -> touches W f f' -> touches W' f f'.
Proof. intros HW [O L U]. split; [|done|done]. intros p Hp. apply O. intros Hw. by apply Hp, HW. Qed.

#[export] Instance touches_preorder W : PreOrder (fun s s' : vault => touches W (v_disk s) (v_disk s')).
Proof. split; [intros s; apply touches_refl|]. intros s1 s2 s3. apply touches_trans. Qed.

(** Pending restorations stay as they are. *)
Definition moves (W : path -> Prop) (s s' : vault) : Prop :=
  v_restores s' = v_restores s /\ (free G (v_disk s) -> touches W (v_disk s) (v_disk s')).

#[export] Instance moves_preorder W : PreOrder (moves W).
Proof.
  split; [intros s; split; [done|intros _; apply touches_refl]|]. intros s1 s2 s3 [R12 H12] [R23 H23]. split; [congruence|]. intros Hc. pose proof (H12 Hc) as Ht. apply (touches_trans _ _ _ _ Ht), H23. by eapply touches_free.
Qed.

Lemma moves_weaken (W W' : path -> Prop) {A} (m : act vault A) : (forall p, W p -> W' p) -> respects (moves W) m -> respects (moves W') m.
Proof. intros HW. apply respects_weaken. intros s s' [Hr Hm]. split; [done|]. intros Hc. eapply touches_weaken; [exact HW|by apply Hm]. Qed.

Lemma same_disk_moves (W : path -> Prop) {A} (m : act vault A) :
  (forall s, v_restores (after m s) = v_restores s /\ v_disk (after m s) = v_disk s) -> respects (moves W) m.
Proof. intros Hm s. destruct (Hm s) as [Hr Hd]. split; [exact Hr|]. intros _. rewrite Hd. apply touches_refl. Qed.

Lemma in_store_moves (W : path -> Prop) {A} (m : act db A) : respects (moves W) (in_store m).
Proof. apply same_disk_moves. intros s. unfold after, in_store. by destruct (m (v_store s)). Qed.

Lemma on_disk_moves (W : path -> Prop) {A} (f : fs -> res A) : respects (moves W) (on_disk f).
Proof. by apply same_disk_moves. Qed.

Lemma set_pending_moves (W : path -> Prop) f : respects (moves W) (set_pending f).
Proof. by apply same_disk_moves. Qed.

(** ** Changes *)

Lemma change_moves (W : path -> Prop) (g : fs -> res fs) : (forall f f', free G f -> g f = Ok f' -> touches W f f') -> respects (moves W) (change g).
Proof.
  intros Hg s. unfold after, change. destruct (v_faults s) as [|[e|] l]; cbn; [|split; [done|intros _; apply touches_refl]|];
    (destruct (g (v_disk s)) as [d|e'] eqn:Eg; cbn; split; try done; intros Hc; [by apply Hg|apply touches_refl]).
Qed.

Lemma absent_entry f p : node_at f p = None -> f !! p = None.
Proof. by destruct p. Qed.

Lemma touches_insert (W : path -> Prop) f p n :
  W p -> is_link_node n = false \/ ~ G p -> under B p = true \/ f !! p = None -> touches W f (<[p := n]> f).
Proof.
  intros HW Hl Hp. split.
  - intros x Hx. apply lookup_insert_ne. intros <-. by apply Hx.
  - intros x m HG Hm Hml. destruct (decide (p = x)) as [<-|Hne]; [rewrite lookup_insert_eq in Hm; destruct Hl; congruence|]. rewrite lookup_insert_ne in Hm by done. by exists m.
  - intros x m Hx Hm. rewrite lookup_insert_ne; [done|]. intros <-. destruct Hp; congruence.
Qed.

Lemma touches_delete (W : path -> Prop) f p : W p -> under B p = true -> touches W f (delete p f).
Proof.
  intros HW Hp. split.
  - intros x Hx. apply lookup_delete_ne. intros <-. by apply Hx.
  - intros x m _ Hm Hml. apply lookup_delete_Some in Hm as [_ Hm]. by exists m.
  - intros x m Hx Hm. rewrite lookup_delete_ne; [done|]. intros <-. congruence.
Qed.

Lemma make_entry_at k mode now p f f' : free G f -> G (removelast p) -> plain p = true -> make_entry k mode now p f = Ok f' -> f !! p = None /\ f' = <[p := new_node f k mode now]> f.
Proof.
  unfold make_entry. generalize WALK. intros w Hc Hn Hp (q & Hq & Hrun)%bind_Ok. apply (free_walk_last _ _ _ _ Hc Hn Hp) in Hq as ->. destruct (node_at f p) eqn:E; [done|].
  split; [by apply absent_entry|]. by injection Hrun.
Qed.

Lemma edit_entry_at g p f f' : free G f -> G p -> plain p = true -> edit_entry g p f = Ok f' -> exists n, node_at f p = Some n /\ f' = <[p := g n]> f.
Proof.
  unfold edit_entry. generalize WALK. intros w Hc Hn Hp (q & Hq & Hrun)%bind_Ok. apply (free_walk _ _ _ _ Hc Hn Hp) in Hq as ->. destruct (node_at f p) as [n|]; [|done]. exists n. by injection Hrun.
Qed.

Lemma remove_entry_at p f f' : free G f -> G (removelast p) -> plain p = true -> remove_entry p f = Ok f' -> exists n, node_at f p = Some n /\ is_dir_node n = false /\ f' = delete p f.
Proof.
  unfold remove_entry. generalize WALK. intros w Hc Hn Hp (q & Hq & Hrun)%bind_Ok. apply (free_walk_last _ _ _ _ Hc Hn Hp) in Hq as ->. destruct (node_at f p) as [n|]; [|done].
  exists n. destruct (is_dir_node n); [done|]. by injection Hrun.
Qed.

Lemma move_entry_at source p f f' :
  free G f -> G (removelast source) -> plain source = true -> G (removelast p) -> plain p = true ->
  move_entry source p f = Ok f' -> exists n, node_at f source = Some n /\ f' = <[p := n]> (delete source f).
Proof.
  unfold move_entry. generalize WALK. intros w Hc Hn Hs Hn' Hp (q & Hq & Hrun)%bind_Ok. apply (free_walk_last _ _ _ _ Hc Hn Hs) in Hq as ->. destruct (node_at f source) as [n|]; [|done].
  apply bind_Ok in Hrun as (q & Hq & Hrun). apply (free_walk_last _ _ _ _ Hc Hn' Hp) in Hq as ->. exists n. split; [done|].
  destruct (node_at f p) as [m|]; [destruct (is_dir_node m); [done|]|]; by injection Hrun.
Qed.
End base.

#[local] Opaque make_entry edit_entry move_entry remove_entry.

(** One more path, in a directory of [G]. *)
Definition also (G : path -> Prop) (p : path) : path -> Prop := fun x => G x \/ x = p.

Lemma also_prefix G d name : prefix_closed G -> G d -> prefix_closed (also G (d ++ [name])).
Proof.
  intros HG Hd x y [Hx|Hx]; [left; by eapply HG|]. destruct y as [|c y _] using rev_ind; [right; by rewrite app_nil_r in Hx|left].
  rewrite app_assoc in Hx. apply app_inj_tail in Hx as [Hx _]. rewrite <- Hx in Hd. by eapply HG.
Qed.

Lemma also_free G p n f : free G f -> is_link_node n = false -> free (also G p) (<[p := n]> f).
Proof.
  intros Hf Hn x m Hx Hm. destruct (decide (p = x)) as [<-|Hne]; [rewrite lookup_insert_eq in Hm; congruence|]. rewrite lookup_insert_ne in Hm by done.
  destruct Hx as [Hx| ->]; [by apply (Hf x)|done].
Qed.

Lemma touches_less B (G G' W : path -> Prop) f f' : (forall p, G p -> G' p) -> touches B G' W f f' -> touches B G W f f'.
Proof. intros HG [O L U]. split; [done| |done]. intros p n Hp. by apply L, HG. Qed.

Lemma near_closed B : prefix_closed (near B).
Proof. intros x y. apply near_prefix. Qed.

Section acts.
Variable B : path.
Hypothesis B_plain : plain B = true.

Section moves.
Variable G : path -> Prop.
Hypothesis G_prefix : prefix_closed G.

Abbreviation free := (free G).
Abbreviation moves := (moves B G).
Abbreviation touches := (touches B G).

Lemma make_entry_moves (W : path -> Prop) k mode now p :
  W p -> G (removelast p) -> plain p = true -> is_link_node (new_node ∅ k mode now) = false -> respects (moves W) (change (make_entry k mode now p)).
Proof.
  intros HW Hn Hp Hk. apply change_moves. intros f f' Hc Hrun. apply (make_entry_at G G_prefix) in Hrun as [Ha ->]; [|done|done|done].
  apply touches_insert; [done|left; exact Hk|by right].
Qed.

Definition keeps_kind (g : node -> node) : Prop := forall n, n_kind (g n) = n_kind n.

Lemma edit_entry_moves (W : path -> Prop) g p : W p -> under B p = true -> G p -> plain p = true -> keeps_kind g -> respects (moves W) (change (edit_entry g p)).
Proof.
  intros HW Hp HG Hplain Hg. apply change_moves. intros f f' Hc Hrun.
  apply (edit_entry_at G G_prefix) in Hrun as (n & Ha & ->); [|done|done|done]. apply touches_insert; [done|left|by left].
  unfold is_link_node. rewrite Hg. destruct p as [|c p]; [|by apply (Hc (c :: p))]. cbn in Ha. injection Ha as <-. destruct (f !! []) as [n|] eqn:E; [|done]. by apply (Hc []).
Qed.

Lemma remove_entry_moves (W : path -> Prop) p : W p -> under B p = true -> G (removelast p) -> plain p = true -> respects (moves W) (change (remove_entry p)).
Proof.
  intros HW Hp HG Hplain. apply change_moves. intros f f' Hc Hrun. apply (remove_entry_at G G_prefix) in Hrun as (n & _ & _ & ->); [|done|done|done]. by apply touches_delete.
Qed.

Lemma move_entry_moves (W : path -> Prop) source p :
  W source -> W p -> under B source = true -> under B p = true -> G source -> G (removelast p) -> plain source = true -> plain p = true -> source <> [] ->
  respects (moves W) (change (move_entry source p)).
Proof.
  intros HW HW' Hs Hp HG HG' Hps Hpp Hne. apply change_moves. intros f f' Hc Hrun.
  assert (G (removelast source)) as HG2.
  { destruct source as [|c x _] using rev_ind; [done|]. rewrite removelast_last. by eapply G_prefix. }
  apply (move_entry_at G G_prefix) in Hrun as (n & Hn & ->); [|done..].
  apply (touches_trans _ _ _ _ (delete source f)); [by apply touches_delete|]. apply touches_insert; [done|left|by left].
  destruct source as [|c source]; [done|]. by apply (Hc (c :: source)).
Qed.

Lemma unlink_quiet_moves (W : path -> Prop) p : W p -> under B p = true -> G (removelast p) -> plain p = true -> respects (moves W) (unlink_quiet p).
Proof. intros HW Hp HG Hplain. unfold unlink_quiet. effects. by apply remove_entry_moves. Qed.

Lemma mkdir_one_moves (W : path -> Prop) mode now p : W p -> G (removelast p) -> plain p = true -> respects (moves W) (mkdir_one mode now p).
Proof. intros HW Hn Hp. unfold mkdir_one. effects. by apply make_entry_moves. Qed.

Lemma mkdir_parents_moves (W : path -> Prop) fuel mode now p :
  (forall x y, p = x ++ y -> W x) -> G p -> plain p = true -> respects (moves W) (mkdir_parents fuel mode now p).
Proof.
  assert (forall x, G x -> G (removelast x)) as Hup.
  { intros x Hx. destruct x as [|c x _] using rev_ind; [done|]. rewrite removelast_last. by eapply G_prefix. }
  revert mode p; induction fuel as [|fuel IH]; intros mode p HW Hn Hp; cbn [mkdir_parents].
  - apply respects_catch; [typeclasses eauto|apply make_entry_moves; [by apply (HW p []); rewrite app_nil_r|by apply Hup|done|done]|]. intros e. apply respects_raise. typeclasses eauto.
  - assert (W p) as HWp by (apply (HW p []); by rewrite app_nil_r).
    apply respects_catch; [typeclasses eauto|apply make_entry_moves; auto|]. intros e. destruct (is_missing e).
    + apply respects_bind; [typeclasses eauto| |intros _; apply mkdir_one_moves; auto]. apply IH; [|by apply Hup|by apply plain_removelast].
      intros x y Hxy. destruct p as [|c p _] using rev_ind; [apply (HW x y Hxy)|]. rewrite removelast_last in Hxy. apply (HW x (y ++ [c])). by rewrite Hxy, app_assoc.
    + effects.
Qed.

Lemma mkdir_moves (W : path -> Prop) mode now p : (forall x y, p = x ++ y -> W x) -> G p -> plain p = true -> respects (moves W) (mkdir mode now p).
Proof. apply mkdir_parents_moves. Qed.

Lemma ran (W : path -> Prop) {A} (m : act vault A) s r s' : respects (moves W) m -> m s = (r, s') -> free (v_disk s) -> touches W (v_disk s) (v_disk s').
Proof. intros Hm Hrun Hc. destruct (Hm s) as [_ Ht]. specialize (Ht Hc). unfold after in Ht. by rewrite Hrun in Ht. Qed.

Lemma ran_free (W : path -> Prop) {A} (m : act vault A) s r s' : respects (moves W) m -> m s = (r, s') -> free (v_disk s) -> free (v_disk s').
Proof. intros Hm Hrun Hc. eapply touches_free; [by eapply ran|exact Hc]. Qed.

(** ** Publication *)

Lemma below_dir d name : under B d = true -> under B (d ++ [name]) = true.
Proof. intros (q & ->)%under_spec. rewrite <- app_assoc. apply under_app. Qed.

Lemma plain_snoc d name : plain (d ++ [name]) = plain d && negb (String.eqb name "..").
Proof. rewrite plain_app. cbn. by rewrite andb_true_r. Qed.

Lemma change_Ok g s u s' : change g s = (Ok u, s') -> g (v_disk s) = Ok (v_disk s').
Proof. unfold change. destruct (v_faults s) as [|[e|] l]; [|done|]; (destruct (g (v_disk s)); [by intros [= _ <-]|done]). Qed.

Lemma change_Err g s e s' : change g s = (Err e, s') -> v_disk s' = v_disk s.
Proof. unfold change. destruct (v_faults s) as [|[x|] l]; [|by intros [= _ <-]|]; (destruct (g (v_disk s)); [done|by intros [= _ <-]]). Qed.

Lemma on_disk_Ok {A} (f : fs -> res A) s a s' : on_disk f s = (Ok a, s') -> f (v_disk s) = Ok a /\ s' = s.
Proof. unfold on_disk. by intros [= -> <-]. Qed.

(** A file of the directory, which is no link, is published under a name. *)
Section publication.
Variables (d : path) (file name : string).
Hypotheses (d_under : under B d = true) (d_G : G d) (file_G : G (d ++ [file])).
Hypotheses (file_plain : plain (d ++ [file]) = true) (name_plain : plain (d ++ [name]) = true).

Lemma publish_moves (W : path -> Prop) now : W (d ++ [file]) -> W (d ++ [name]) -> respects (moves W) (publish now (d ++ [file]) (d ++ [name])).
Proof.
  intros HW HW'. unfold publish. effects; [apply edit_entry_moves|apply move_entry_moves]; rewrite ?removelast_last; first [done|by apply below_dir|apply snoc_nonempty].
Qed.

(** The content of [file] is published as it is. *)
Lemma publish_Ok now s u s' n :
  free (v_disk s) -> v_disk s !! (d ++ [file]) = Some n -> publish now (d ++ [file]) (d ++ [name]) s = (Ok u, s') ->
  v_disk s' !! (d ++ [name]) = Some (set_mode 384 now n).
Proof.
  intros Hc Hn. unfold publish. intros (v & s1 & He & Hm)%act_bind_Ok.
  assert (free (v_disk s1)) as Hc1.
  { eapply (ran_free (eq (d ++ [file]))); [|exact He|exact Hc]. apply edit_entry_moves; [done|by apply below_dir|done|done|done]. }
  apply change_Ok, (edit_entry_at G G_prefix) in He as (n1 & Hn1 & He); [|done..]. rewrite node_at_below in Hn1 by apply snoc_nonempty.
  apply change_Ok, (move_entry_at G G_prefix) in Hm as (n2 & Hn2 & Hm); [|rewrite ?removelast_last; done..]. rewrite node_at_below in Hn2 by apply snoc_nonempty.
  rewrite Hm, lookup_insert_eq. rewrite He, lookup_insert_eq in Hn2. congruence.
Qed.

(** A file that was written with [text] and published. *)
Lemma written_Ok now text s u s' s1 v :
  free (v_disk s) -> change (edit_entry (set_data text now) (d ++ [file])) s = (Ok v, s1) -> publish now (d ++ [file]) (d ++ [name]) s1 = (Ok u, s') ->
  exists o, v_disk s' !! (d ++ [name]) = Some o /\ n_data o = text /\ is_link_node o = false.
Proof.
  intros Hc He Hrun.
  assert (free (v_disk s1)) as Hc1.
  { eapply (ran_free (eq (d ++ [file]))); [|exact He|exact Hc]. apply edit_entry_moves; [done|by apply below_dir|done|done|done]. }
  apply change_Ok, (edit_entry_at G G_prefix) in He as (n1 & Hn1 & He); [|done..]. rewrite node_at_below in Hn1 by apply snoc_nonempty.
  eapply publish_Ok in Hrun as Ho; [|exact Hc1|rewrite He; by apply lookup_insert_eq]. eexists. split; [exact Ho|]. split; [done|].
  exact (Hc (d ++ [file]) n1 file_G Hn1).
Qed.
End publication.
End moves.

#[local] Opaque mkdir unlink_quiet publish.

(** ** Copies *)

Section copies.
Variable G : path -> Prop.
Hypothesis G_prefix : prefix_closed G.
Context `{FloatText} `{Sha256}.

Lemma temporary_at d name prefix suffix : temporary (d ++ [name]) prefix suffix = d ++ [prefix +:+ suffix].
Proof. unfold temporary. by rewrite removelast_last. Qed.

Lemma write_manifest_moves (W : path -> Prop) now suffix d name manifest :
  W (d ++ [name]) -> W (d ++ [".manifest-" +:+ suffix]) -> under B d = true -> G d -> G (d ++ [".manifest-" +:+ suffix]) -> plain d = true -> name <> ".." ->
  respects (moves B G W) (_write_manifest now suffix (d ++ [name]) manifest).
Proof.
  intros HW HW' Hd HG HG' Hp Hn. unfold _write_manifest. rewrite temporary_at.
  assert (plain (d ++ [".manifest-" +:+ suffix]) = true) as Hpf by by rewrite plain_snoc, Hp.
  assert (plain (d ++ [name]) = true) as Hpn by (rewrite plain_snoc, Hp; by apply negb_true_iff, String.eqb_neq).
  effects; first [apply make_entry_moves; rewrite ?removelast_last; done
    | apply edit_entry_moves; [done|done|by apply below_dir|done|done|done] | apply publish_moves; done
    | apply unlink_quiet_moves; rewrite ?removelast_last; [done|done|by apply below_dir|done|done] | apply on_disk_moves].
Qed.

(** The temporary file is new, so that it is no link; nothing is assumed of the
    name it is published under. *)
Section copy.
Variables (d : path) (name suffix : string) (now : Z) (source : path) (expected : val) (owner : option Z).
Hypotheses (d_under : under B d = true) (d_G : G d) (d_plain : plain d = true) (name_ok : name <> "..").

Let file : string := ".pending-" +:+ suffix.

Let G' : path -> Prop := also G (d ++ [file]).

Lemma file_plain : plain (d ++ [file]) = true.
Proof. by rewrite plain_snoc, d_plain. Qed.

Lemma name_plain : plain (d ++ [name]) = true.
Proof. rewrite plain_snoc, d_plain. by apply negb_true_iff, String.eqb_neq. Qed.

Lemma G'_prefix : prefix_closed G'.
Proof. by apply also_prefix. Qed.

Lemma G'_more p : G p -> G' p.
Proof. by left. Qed.

#[local] Hint Resolve file_plain name_plain G'_prefix : core.

Lemma body_moves (W : path -> Prop) :
  W (d ++ [name]) -> W (d ++ [file]) ->
  respects (moves B G' W) (copy_body now source (d ++ [name]) expected owner (d ++ [file]) always unlink_quiet (d ++ [file]))%act.
Proof.
  intros HW HW'. unfold copy_body. assert (G' d) by by left. assert (G' (d ++ [file])) by by right.
  effects; first [apply edit_entry_moves; first [done|by apply below_dir|auto] | apply publish_moves; auto
    | apply unlink_quiet_moves; rewrite ?removelast_last; first [done|by apply below_dir|auto] | apply on_disk_moves].
Qed.

Lemma temporary_made s u s' :
  free G (v_disk s) -> change (make_entry Regular 384 now (d ++ [file])) s = (Ok u, s') -> free G' (v_disk s').
Proof.
  intros Hc Hrun. apply change_Ok, (make_entry_at G G_prefix) in Hrun as [_ ->]; [|done|by rewrite removelast_last|by apply file_plain]. by apply also_free.
Qed.

Lemma copy_restores : respects (fun s s' => v_restores s' = v_restores s) (_copy_verified now suffix source (d ++ [name]) expected owner).
Proof.
  assert (PreOrder (fun s s' : vault => v_restores s' = v_restores s)) as Hpre by (split; [done|]; intros x y z; congruence).
  assert (forall g, respects (fun s s' : vault => v_restores s' = v_restores s) (change g)) as Hch.
  { intros g s. unfold after, change. destruct (v_faults s) as [|[e|] l]; cbn; try done; by destruct (g (v_disk s)). }
  assert (forall A (g : fs -> res A), respects (fun s s' : vault => v_restores s' = v_restores s) (on_disk g)) as Hon by by intros A g s.
  assert (forall fuel mode p, respects (fun s s' : vault => v_restores s' = v_restores s) (mkdir_parents fuel mode now p)) as Hmk.
  { induction fuel as [|fuel IH]; intros mode p; cbn [mkdir_parents]; unfold mkdir_one; effects; auto. }
  #[local] Transparent mkdir unlink_quiet publish.
  unfold _copy_verified, copy_body, publish, unlink_quiet, mkdir. effects; auto.
Qed.
#[local] Opaque mkdir unlink_quiet publish.

Lemma copy_moves (W : path -> Prop) :
  (forall x y, d = x ++ y -> W x) -> W (d ++ [name]) -> W (d ++ [file]) ->
  respects (moves B G W) (_copy_verified now suffix source (d ++ [name]) expected owner).
Proof.
  intros HW HW' HW'' s. split; [apply copy_restores|]. intros Hc. unfold _copy_verified. rewrite temporary_at, removelast_last. fold file.
  assert (respects (moves B G W) (mkdir 448 now d)) as Hmk by by apply mkdir_moves.
  assert (respects (moves B G W) (change (make_entry Regular 384 now (d ++ [file])))) as Hmake.
  { apply make_entry_moves; [done|done|by rewrite removelast_last|apply file_plain|done]. }
  apply (after_bind (fun s s' => touches B G W (v_disk s) (v_disk s'))); [by apply Hmk|]. intros u1 s1 H1.
  pose proof (ran_free _ _ _ _ _ _ Hmk H1 Hc) as Hc1.
  apply (after_bind (fun s s' => touches B G W (v_disk s) (v_disk s'))); [by apply Hmake|]. intros u2 s2 H2.
  apply (touches_less _ _ G'); [apply G'_more|]. apply body_moves; [done|done|]. by eapply temporary_made.
Qed.

(** What a copy leaves. *)
Lemma copy_Ok s size h s' :
  free G (v_disk s) -> _copy_verified now suffix source (d ++ [name]) expected owner s = (Ok (size, h), s') ->
  exists f n (f' : fs) o, touches B G (fun p => p = d ++ [file] \/ exists y, d = p ++ y) (v_disk s) f
    /\ read_source not_regular (PermissionError "The source is no longer owned by the requesting user.") owner source f = Ok n
    /\ f' !! (d ++ [name]) = Some o /\ is_link_node o = false /\ n_data o = n_data n
    /\ (forall p, p <> d ++ [file] -> v_disk s' !! p = f' !! p)
    /\ (forall p m, v_disk s' !! p = Some m -> f' !! p = Some m)
    /\ h = sha256 (n_data n) /\ size = str_len (n_data n) /\ expected_ok expected h = true.
Proof.
  intros Hc. unfold _copy_verified. rewrite temporary_at, removelast_last. fold file. set (W := fun p => p = d ++ [file] \/ exists y, d = p ++ y).
  intros (u1 & s1 & Hmk & Hrun)%act_bind_Ok. apply act_bind_Ok in Hrun as (u2 & s2 & Hmake & Hrun). apply finally_Ok in Hrun as (s3 & u3 & Hbody & Hun).
  assert (respects (moves B G W) (mkdir 448 now d)) as Mmk by (apply mkdir_moves; [done|intros x y Hxy; right; by exists y|done|done]).
  assert (respects (moves B G W) (change (make_entry Regular 384 now (d ++ [file])))) as Mmake.
  { apply make_entry_moves; [done|by left|by rewrite removelast_last|apply file_plain|done]. }
  pose proof (ran_free _ _ _ _ _ _ Mmk Hmk Hc) as Hc1. pose proof (temporary_made _ _ _ Hc1 Hmake) as Hc2.
  unfold copy_body in Hbody. apply act_bind_Ok in Hbody as (n & s4 & [Hread ->]%on_disk_Ok & Hbody).
  apply act_bind_Ok in Hbody as (u4 & s5 & Hedit & Hbody). apply act_bind_Ok in Hbody as (u5 & s6 & Hreq & Hbody). injection Hreq as Hreq <-.
  apply act_bind_Ok in Hbody as (u6 & s7 & Hpub & Hret). injection Hret as Hsize Hh <-.
  assert (G' d) as Gd by by left. assert (G' (d ++ [file])) as Gf by by right.
  destruct (written_Ok G' G'_prefix d file name d_under Gd Gf file_plain name_plain _ _ _ _ _ _ _ Hc2 Hedit Hpub) as (o & Ho & Hdata & Hlink).
  exists (v_disk s2), n, (v_disk s7), o. split; [exact (touches_trans _ _ _ _ _ _ (ran _ _ _ _ _ _ Mmk Hmk Hc) (ran _ _ _ _ _ _ Mmake Hmake Hc1))|].
  split; [exact Hread|]. split; [exact Ho|]. split; [exact Hlink|]. split; [exact Hdata|].
  assert (free G' (v_disk s7)) as Hc7.
  { assert (respects (moves B G' (fun _ => True)) (publish now (d ++ [file]) (d ++ [name]))) as Mpub by (apply publish_moves; auto).
    assert (respects (moves B G' (fun _ => True)) (change (edit_entry (set_data (n_data n) now) (d ++ [file])))) as Medit.
    { apply edit_entry_moves; [auto|done|by apply below_dir|done|apply file_plain|done]. }
    exact (ran_free _ _ _ _ _ _ Mpub Hpub (ran_free _ _ _ _ _ _ Medit Hedit Hc2)). }
  #[local] Transparent unlink_quiet.
  assert (v_disk s' = v_disk s7 \/ v_disk s' = delete (d ++ [file]) (v_disk s7)) as Hend.
  { revert Hun. unfold unlink_quiet, catch. destruct (change _ s7) as [[v|e] s8] eqn:Er.
    - intros [= <- <-]. apply change_Ok, (remove_entry_at G' G'_prefix) in Er as (m & _ & _ & ->); [by right|done|by rewrite removelast_last|apply file_plain].
    - destruct (is_missing e); [|done]. intros [= _ <-]. left. by apply change_Err in Er. }
  split; [intros p Hp; destruct Hend as [-> | ->]; [done|rewrite lookup_delete_ne; congruence]|].
  split; [intros p m; destruct Hend as [-> | ->]; [tauto|intros Hm; by apply lookup_delete_Some in Hm as [_ Hm]]|].
  split; [done|]. split; [done|]. subst h. by apply require_Ok in Hreq.
Qed.
#[local] Opaque unlink_quiet.

Lemma copy_content s size h s' :
  name <> file -> free G (v_disk s) -> _copy_verified now suffix source (d ++ [name]) expected owner s = (Ok (size, h), s') ->
  exists f n o, touches B G (fun p => p = d ++ [file] \/ exists y, d = p ++ y) (v_disk s) f
    /\ read_source not_regular (PermissionError "The source is no longer owned by the requesting user.") owner source f = Ok n
    /\ v_disk s' !! (d ++ [name]) = Some o /\ n_data o = n_data n /\ h = sha256 (n_data n) /\ size = str_len (n_data n)
    /\ expected_ok expected h = true.
Proof.
  intros Hne Hc (f & n & f' & o & Ht & Hread & Ho & _ & Hdata & Hsame & _ & Hh & Hsize & Hexp)%copy_Ok; [|done].
  exists f, n, o. split_and!; try done. rewrite Hsame; [exact Ho|]. intros [_ ?]%app_inj_tail. by apply Hne.
Qed.

(** The published name is no link afterwards. *)
Lemma copy_free s r s' :
  free G (v_disk s) -> _copy_verified now suffix source (d ++ [name]) expected owner s = (Ok r, s') -> free (also G (d ++ [name])) (v_disk s').
Proof.
  intros Hc Hrun x m [Hx| ->] Hm.
  - eapply (ran_free _ (fun _ => True)); [by apply copy_moves|exact Hrun|exact Hc|exact Hx|exact Hm].
  - destruct r as [size h]. apply copy_Ok in Hrun as (f & n & f' & o & _ & _ & Ho & Hl & _ & _ & Hsub & _); [|done]. apply Hsub in Hm. congruence.
Qed.
End copy.
End copies.
End acts.

(** * Quarantine: claims

    The service changes no file of a user; what a session removes is in
    quarantine; and what comes out of it is what went in. *)

(** ** Names *)

Lemma str_of_Z_plain z : str_of_Z z <> ".." /\ str_of_Z z <> "." /\ str_of_Z z <> "".
Proof. pose proof (int_of_str_of_Z z) as Hz. split; [|split]; intros He; by rewrite He in Hz. Qed.

Definition no_slash (s : string) : bool := str_forall (fun c => negb (Ascii.eqb c "/")) s.

Lemma str_of_Z_no_slash z : no_slash (str_of_Z z) = true.
Proof.
  unfold no_slash. apply (str_forall_impl number_char); [|apply str_of_Z_chars]. intros c. by destruct (Ascii.eqb_spec c "/") as [->|].
Qed.

Definition entry_name (c : string) : bool := negb (String.eqb c "" || String.eqb c ".") && no_slash c.

Lemma parts_of_text p : p <> [] -> forallb entry_name p = true -> parts_of (path_text p) = p.
Proof.
  intros Hne Hp. unfold parts_of, path_text. change ("/" +:+ join "/" p) with (String "/" (join "/" p)). cbn [split]. rewrite Ascii.eqb_refl, split_join; [|done|].
  - cbn. clear Hne. induction p as [|c p IH]; [done|]. cbn [forallb] in Hp. apply andb_true_iff in Hp as [Hc Hp]. apply andb_true_iff in Hc as [Hc _].
    cbn [List.filter]. rewrite Hc. by rewrite IH.
  - apply Forall_forall. intros c Hc. rewrite forallb_forall in Hp. apply list_elem_of_In in Hc. apply Hp, andb_true_iff in Hc as [_ Hc]. exact Hc.
Qed.

Lemma dset_In {A} k v (d : list (string * A)) x : In x (dset k v d) -> x = (k, v) \/ In x d.
Proof.
  induction d as [|[k' w] d IH]; cbn; [by intros [->|[]]; left|]. destruct (k ?= k')%string; cbn; intros Hx; naive_solver.
Qed.

Lemma ddel_In {A} k (d : list (string * A)) x : In x (ddel k d) -> In x d.
Proof. induction d as [|[k' w] d IH]; cbn; [done|]. destruct (k =? k')%string; cbn; naive_solver. Qed.

(** ** The directories of the service *)

(** The directory of the transfers, those above it and the one of each user in
    it: their names are in directories of root, while what is in the last belongs
    to the user. *)
Definition passage (p : path) : Prop := near TRANSFERS p /\ (length p <= 3)%nat.

(** The paths at which no user can make an entry. *)
Definition fixed (p : path) : Prop := near QUARANTINE p \/ passage p.

Lemma passage_closed : prefix_closed passage.
Proof. intros x y [Hx Hl]. rewrite length_app in Hl. split; [by apply near_prefix in Hx|lia]. Qed.

Lemma fixed_closed : prefix_closed fixed.
Proof. intros x y [Hx|Hx]; [left; by apply near_prefix in Hx|right; by apply passage_closed in Hx]. Qed.

(** Entries outside of both are as they were, and no link is new at a fixed path. *)
Definition guarded (f f' : fs) : Prop :=
  (forall p n, under QUARANTINE p = false -> under TRANSFERS p = false -> f !! p = Some n -> f' !! p = Some n) /\ (free fixed f -> free fixed f').

Lemma touches_guarded B W f f' : B = QUARANTINE \/ B = TRANSFERS -> touches B fixed W f f' -> guarded f f'.
Proof. intros HB Ht. split; [|by apply (touches_free _ _ _ _ _ Ht)]. intros p n Hq Htr Hn. destruct HB; subst B; by apply (touches_outside _ _ _ _ _ Ht). Qed.

Section service.
Context `{FloatText} `{IsoText} `{Sqlite} `{Sha256} (max_bytes : Z) (home_of : Z -> option path).

(** Pending restorations name a transfer file of the service. *)
Definition transfers_ok (s : vault) : Prop :=
  forall id pending, In (id, pending) (v_restores s) ->
  exists actor name, name <> ".." /\ parts_of (text_of (get "transfer_path" pending)) = TRANSFERS ++ [str_of_Z actor; name].

Definition guards (s s' : vault) : Prop := free fixed (v_disk s) -> transfers_ok s -> guarded (v_disk s) (v_disk s') /\ transfers_ok s'.

#[local] Instance guards_preorder : PreOrder guards.
Proof.
  split; [intros s Hs Ht; by split|]. intros s1 s2 s3 H12 H23 Hs Ht. destruct (H12 Hs Ht) as [[G L] Ht2], (H23 (L Hs) Ht2) as [[G' L'] Ht3]; split; [|done].
  split; auto.
Qed.

Lemma moves_guards B W {A} (m : act vault A) : B = QUARANTINE \/ B = TRANSFERS -> respects (moves B fixed W) m -> respects guards m.
Proof.
  intros HB Hm s Hs Ht. destruct (Hm s) as [Hr Hd]. split; [|unfold transfers_ok; rewrite Hr; exact Ht]. by eapply touches_guarded, Hd.
Qed.

(** ** The requests *)

Section requests.
Variables (B : path) (G W : path -> Prop).

Lemma owned_moves id actor : respects (moves B G W) (_owned_detection id actor).
Proof. unfold _owned_detection. effects; apply in_store_moves. Qed.

Lemma set_detection_moves now d changes : respects (moves B G W) (set_detection now d changes).
Proof. apply in_store_moves. Qed.

Lemma note_action_moves m id action outcome detail : respects (moves B G W) (note_action m id action outcome detail).
Proof. unfold note_action. effects. apply in_store_moves. Qed.

Lemma report_remedy_moves m d id event_type outcome detail severity : respects (moves B G W) (report_remedy max_bytes m d id event_type outcome detail severity).
Proof. apply in_store_moves. Qed.

Lemma find_pending_moves id : respects (moves B G W) (_find_pending_quarantine id).
Proof. unfold _find_pending_quarantine. effects; first [apply in_store_moves|apply on_disk_moves]. Qed.
End requests.

#[local] Opaque set_detection note_action report_remedy _find_pending_quarantine _owned_detection _copy_verified _write_manifest unlink_quiet mkdir.

Ltac moved := first [apply owned_moves|apply set_detection_moves|apply note_action_moves|apply report_remedy_moves|apply find_pending_moves|apply on_disk_moves|apply in_store_moves|apply set_pending_moves].

Definition anywhere (p : path) : Prop := True.

Lemma root_under owner : under QUARANTINE (_quarantine_root owner) = true.
Proof. apply under_app. Qed.

Lemma root_plain owner : plain (_quarantine_root owner) = true.
Proof. unfold _quarantine_root. rewrite plain_snoc. apply negb_true_iff, String.eqb_neq, str_of_Z_plain. Qed.

Lemma fixed_under p : under QUARANTINE p = true -> fixed p.
Proof. intros Hp. left. by left. Qed.

Lemma root_fixed owner : fixed (_quarantine_root owner).
Proof. apply fixed_under, root_under. Qed.

Lemma prepare_quarantine_moves m id actor : respects (moves QUARANTINE fixed anywhere) (prepare_quarantine m id actor).
Proof.
  unfold prepare_quarantine, publish_object, withdraw_object. pose proof root_under as Hu. pose proof root_plain as Hp. pose proof root_fixed as Hf.
  effects; first [moved | apply mkdir_moves; auto using fixed_closed; done | apply edit_entry_moves; auto using fixed_closed; done
    | apply copy_moves; auto using fixed_closed; done | apply write_manifest_moves; auto using fixed_closed, fixed_under, below_dir; done
    | apply unlink_quiet_moves; rewrite ?removelast_last, ?plain_snoc, ?Hp; auto using fixed_closed, below_dir; done | idtac].
Qed.

Lemma complete_quarantine_moves m id actor : respects (moves QUARANTINE fixed anywhere) (complete_quarantine max_bytes m id actor).
Proof. unfold complete_quarantine. effects; moved. Qed.

Lemma fail_quarantine_moves m id detail actor : respects (moves QUARANTINE fixed anywhere) (fail_quarantine max_bytes m id detail actor).
Proof. unfold fail_quarantine. effects; moved. Qed.

Lemma report_delete_failed_moves m d id detail : respects (moves QUARANTINE fixed anywhere) (report_delete_failed max_bytes m d id detail).
Proof. unfold report_delete_failed. effects; moved. Qed.

(** ** Removal of an object *)

Lemma longer_name s t : (2 < String.length t)%nat -> s +:+ t <> "..".
Proof. intros Hl He. apply (f_equal String.length) in He. rewrite length_app_s in He. cbn in He. lia. Qed.

Lemma found_object id actor f p :
  _find_quarantine_object (VStr id) (Some actor) f = Ok (Some p) -> exists d, p = d ++ [object_name id] /\ under QUARANTINE d = true /\ plain d = true.
Proof.
  cbn [_find_quarantine_object]. intros (u & _ & Hrun)%bind_Ok. assert (List.find (plain_file f) (object_places f id (Some actor)) = Some p) as Hf by congruence.
  apply List.find_some in Hf as [[Hp|[Hp|[]]] _]; subst p.
  - exists (_quarantine_root actor). split; [done|]. split; [apply root_under|apply root_plain].
  - exists QUARANTINE. done.
Qed.

Lemma delete_object_moves m d id dir qid :
  under QUARANTINE dir = true -> plain dir = true -> respects (moves QUARANTINE fixed anywhere) (delete_object max_bytes m d id (dir ++ [object_name qid])).
Proof.
  intros Hu Hp. unfold delete_object, manifest_beside, last_name. rewrite removelast_last, last_last.
  assert (forall name, name <> ".." -> respects (moves QUARANTINE fixed anywhere) (unlink_quiet (dir ++ [name]))) as Hun.
  { intros name Hn. apply unlink_quiet_moves; rewrite ?removelast_last; [apply fixed_closed|done|by apply below_dir|by apply fixed_under|]. rewrite plain_snoc, Hp. by apply negb_true_iff, String.eqb_neq. }
  effects; first [apply Hun, longer_name; cbn; lia|moved].
Qed.

#[local] Opaque delete_object report_delete_failed _find_quarantine_object.

Lemma delete_detection_moves m id actor : actor <> 0 -> respects (moves QUARANTINE fixed anywhere) (delete_detection max_bytes m id actor).
Proof.
  intros Ha. unfold delete_detection, actor_option. rewrite (proj2 (Z.eqb_neq actor 0) Ha).
  apply respects_bind; [typeclasses eauto|apply owned_moves|]. intros d. apply respects_bind; [typeclasses eauto|apply respects_lift; typeclasses eauto|]. intros u.
  apply respects_bind_value; [typeclasses eauto|apply on_disk_moves|]. intros s found s' [Hf _]%on_disk_Ok. destruct found as [object|].
  - apply found_object in Hf as (dir & -> & Hu & Hp). effects; [by apply delete_object_moves|apply report_delete_failed_moves].
  - effects. apply report_delete_failed_moves.
Qed.

(** ** Restoration *)

Lemma transfers_under actor : under TRANSFERS (TRANSFERS ++ [str_of_Z actor]) = true.
Proof. apply under_app. Qed.

Lemma transfers_plain actor : plain (TRANSFERS ++ [str_of_Z actor]) = true.
Proof. rewrite plain_snoc. apply negb_true_iff, String.eqb_neq, str_of_Z_plain. Qed.

Lemma transfers_fixed actor : fixed (TRANSFERS ++ [str_of_Z actor]).
Proof. right. split; [left; apply transfers_under|cbn; lia]. Qed.

Lemma give_to_moves G actor now p : prefix_closed G -> under TRANSFERS p = true -> G p -> plain p = true -> respects (moves TRANSFERS G anywhere) (give_to actor now p).
Proof. intros HG Hu Hp Hplain. unfold give_to. effects. by apply edit_entry_moves. Qed.

#[local] Opaque give_to.

Lemma transfer_text id actor : no_slash id = true -> parts_of (path_text (transfer_path id actor)) = TRANSFERS ++ [str_of_Z actor; id +:+ ".transfer"].
Proof.
  intros Hid. apply parts_of_text; [done|]. cbn [transfer_path TRANSFERS app forallb]. rewrite !andb_true_iff. repeat (split; [done|]).
  unfold entry_name. rewrite !andb_true_iff, !negb_true_iff, !orb_false_iff, !String.eqb_neq. split; [split; [split; apply str_of_Z_plain|apply str_of_Z_no_slash]|].
  split; [|done]. split; [|unfold no_slash in *; by rewrite str_forall_app, Hid]. split; intros He; apply (f_equal String.length) in He; rewrite length_app_s in He; cbn in He; lia.
Qed.

Lemma set_restores_guards id pending actor :
  no_slash id = true -> get "transfer_path" pending = VStr (path_text (transfer_path id actor)) -> respects guards (set_restores (dset id pending)).
Proof.
  intros Hid Hp s Hs Ht. split; [by split|]. intros id' pending'. intros [[= -> ->]|Hin]%dset_In; [|by apply (Ht id')].
  - exists actor, (id +:+ ".transfer"). split; [apply longer_name; cbn; lia|]. rewrite Hp.
    change (parts_of (path_text (transfer_path id actor)) = TRANSFERS ++ [str_of_Z actor; id +:+ ".transfer"]). by apply transfer_text.
Qed.

(** The owner of the transfer file is changed by its path; the copy has just
    replaced whatever was there, which may have been a link of the user. *)
Lemma stage_guards m d id source target actor : no_slash id = true -> respects guards (stage m d id source (transfer_path id actor) target actor).
Proof.
  intros Hid s Hs. refine ((_ : guards s _) Hs). unfold stage. change (transfer_path id actor) with ((TRANSFERS ++ [str_of_Z actor]) ++ [id +:+ ".transfer"]).
  pose proof (transfers_under actor) as Hu. pose proof (transfers_plain actor) as Hp. pose proof (transfers_fixed actor) as Hf.
  assert (id +:+ ".transfer" <> "..") as Hn by (apply longer_name; cbn; lia).
  assert (plain ((TRANSFERS ++ [str_of_Z actor]) ++ [id +:+ ".transfer"]) = true) as Hpn by (rewrite plain_snoc, Hp; by apply negb_true_iff, String.eqb_neq).
  set (transfer := (TRANSFERS ++ [str_of_Z actor]) ++ [id +:+ ".transfer"]) in *. set (copy := _copy_verified _ _ _ _ _ _).
  assert (respects guards copy) as Hcopy by (apply (moves_guards TRANSFERS anywhere); [by right|apply copy_moves; auto using fixed_closed; done]).
  pose proof (Hcopy s) as Hs1. destruct (copy s) as [[r|e] s1] eqn:E; unfold after in Hs1; rewrite E in Hs1; [|by rewrite (after_bind_Err copy _ s e s1 E)].
  rewrite (after_bind_Ok copy _ s r s1 E). etrans; [exact Hs1|]. apply (after_bind guards).
  - intros _ Ht. destruct (give_to_moves (also fixed transfer) actor (at_now m) transfer) with s1 as [Hr Hd]; [by apply also_prefix; [apply fixed_closed|]|by apply below_dir|by right|done|].
    split; [|unfold transfers_ok; rewrite Hr; exact Ht]. eapply touches_guarded; [by right|]. apply (touches_less _ _ (also fixed transfer)); [by left|].
    apply Hd. eapply (copy_free TRANSFERS); eauto using fixed_closed.
  - intros u s2 _. apply (respects_at guards). effects. by eapply set_restores_guards.
Qed.

#[local] Opaque stage.

Lemma prepare_restore_guards m id destination actor : no_slash id = true -> respects guards (prepare_restore home_of m id destination actor).
Proof.
  intros Hid. unfold prepare_restore. pose proof (transfers_under actor) as Hu. pose proof (transfers_plain actor) as Hp. pose proof (transfers_fixed actor) as Hf.
  pose proof (removelast_last (TRANSFERS ++ [str_of_Z actor]) (id +:+ ".transfer") : removelast (transfer_path id actor) = _) as ->.
  assert (respects (moves TRANSFERS fixed anywhere) (unlink_quiet (transfer_path id actor))) as Hun.
  { apply (unlink_quiet_moves TRANSFERS fixed fixed_closed anywhere ((TRANSFERS ++ [str_of_Z actor]) ++ [id +:+ ".transfer"])); rewrite ?removelast_last; auto using below_dir; [done|].
    rewrite plain_snoc, Hp. apply negb_true_iff, String.eqb_neq, longer_name. cbn. lia. }
  effects; first [by apply stage_guards | apply (moves_guards TRANSFERS anywhere); [by right|]; first [exact Hun | moved | apply mkdir_moves; auto using fixed_closed; done
    | apply edit_entry_moves; auto using fixed_closed; done | apply give_to_moves; auto using fixed_closed; done]].
Qed.

(** The transfer file of a pending restoration is the only entry a completion
    removes. *)
Lemma complete_restore_guards m id destination actor : respects guards (complete_restore max_bytes m id destination actor).
Proof.
  intros s. unfold complete_restore. apply after_bind; [typeclasses eauto|apply (moves_guards TRANSFERS anywhere); [by right|apply owned_moves]|].
  intros d s1 _. rewrite (after_bind_Ok (gets _) _ s1 _ s1 eq_refl). destruct (dget id (v_restores s1)) as [pending|] eqn:Ep; [|by apply guards_preorder].
  intros Hs Ht. destruct (Ht id pending (dget_In _ _ _ Ep)) as (owner & name & Hn & Hpath). revert Hs Ht. rewrite Hpath.
  change (TRANSFERS ++ [str_of_Z owner; name]) with ((TRANSFERS ++ [str_of_Z owner]) ++ [name]).
  assert (plain ((TRANSFERS ++ [str_of_Z owner]) ++ [name]) = true) as Hpn by (rewrite plain_snoc, transfers_plain; by apply negb_true_iff, String.eqb_neq).
  assert (respects guards (set_restores (ddel id))) as Hdel.
  { intros s2 Hs2 Ht2. split; [by split|]. intros id' pending' Hd. apply (Ht2 id' pending'). by apply ddel_In in Hd. }
  apply (respects_at guards). unfold report_restored.
  effects; first [exact Hdel | apply (moves_guards TRANSFERS anywhere); [by right|]; first [moved|apply unlink_quiet_moves; rewrite ?removelast_last; [apply fixed_closed|done|apply below_dir, transfers_under|apply transfers_fixed|done]]].
Qed.

Lemma fail_restore_moves m id detail actor : respects (moves TRANSFERS fixed anywhere) (fail_restore max_bytes m id detail actor).
Proof. unfold fail_restore. effects; moved. Qed.

#[local] Opaque prepare_quarantine complete_quarantine fail_quarantine prepare_restore complete_restore fail_restore delete_detection.

(** ** The service *)

(** A call of a method by an account other than root, for an identifier without a
    slash, as those of detections are. *)
Inductive call : vault -> vault -> Prop :=
| call_quarantine m id actor s : actor <> 0 -> call s (after (QuarantineDetection m id actor) s)
| call_complete_quarantine m id actor s : actor <> 0 -> call s (after (CompleteQuarantine max_bytes m id actor) s)
| call_fail_quarantine m id detail actor s : actor <> 0 -> call s (after (FailQuarantine max_bytes m id detail actor) s)
| call_restore m id destination actor s : actor <> 0 -> no_slash id = true -> call s (after (RestoreDetection home_of m id destination actor) s)
| call_complete_restore m id destination actor s : actor <> 0 -> call s (after (CompleteRestore max_bytes m id destination actor) s)
| call_fail_restore m id detail actor s : actor <> 0 -> call s (after (FailRestore max_bytes m id detail actor) s)
| call_delete m id actor s : actor <> 0 -> call s (after (DeleteDetection max_bytes m id actor) s).

Lemma call_guards s s' : call s s' -> guards s s'.
Proof.
  assert (forall A (m : act vault A) (s : vault), respects (moves QUARANTINE fixed anywhere) m -> guards s (after m s)) as Hq by (intros A m s1 Hm; apply (moves_guards QUARANTINE anywhere); [by left|exact Hm]).
  assert (forall A (m : act vault A) (s : vault), respects (moves TRANSFERS fixed anywhere) m -> guards s (after m s)) as Ht by (intros A m s1 Hm; apply (moves_guards TRANSFERS anywhere); [by right|exact Hm]).
  intros []; [apply Hq|apply Hq|apply Hq|apply (respects_at guards)|apply (respects_at guards)|apply Ht|apply Hq];
    unfold QuarantineDetection, CompleteQuarantine, FailQuarantine, RestoreDetection, CompleteRestore, FailRestore, DeleteDetection.
  - effects. apply prepare_quarantine_moves.
  - effects; [apply complete_quarantine_moves|apply fail_quarantine_moves].
  - effects. apply fail_quarantine_moves.
  - effects. by apply prepare_restore_guards.
  - effects; [apply complete_restore_guards|apply (moves_guards TRANSFERS anywhere); [by right|apply fail_restore_moves]].
  - effects. apply fail_restore_moves.
  - effects. by apply delete_detection_moves.
Qed.

(** Between the calls anything becomes of the files, but no link stands where no
    user can make an entry: in the quarantine, at the directories above it, and at
    the directory of the transfers, those above it and those of the users in it.
    What is in the last is up to the user, who owns them. *)
Inductive step : vault -> vault -> Prop :=
| step_call s s' : call s s' -> step s s'
| step_users f s : free fixed f -> step s (Vault (v_store s) f (v_pending s) (v_restores s) (v_faults s)).

Lemma reachable_fixed s s' : rtc step s s' -> free fixed (v_disk s) -> transfers_ok s -> free fixed (v_disk s') /\ transfers_ok s'.
Proof.
  induction 1 as [|s1 s2 s3 Hs _ IH]; [done|]. intros Hd Ht. destruct Hs as [s1 s2 Hc|f s1 Hf].
  - destruct (call_guards _ _ Hc Hd Ht) as [[_ Hg] Ht2]. by apply IH; [apply Hg|].
  - by apply IH.
Qed.

(** C1. Between the calls of the service the users do what they want with the
    files, also with those in the transfer directory that is given to them, where
    they may put links: only where root alone can make an entry (in the
    quarantine, and at the directories on the way to it and to the transfers of a
    user, [fixed]) no link stands. Then, whatever fails during it, a call of the
    service by an account other than root, which runs as root and is not
    interrupted by a user, changes no entry that was there outside of its two
    directories: it never removes, overwrites or takes over a file of a user. *)
Theorem service_changes_no_user_file (s s1 s' : vault) :
  free fixed (v_disk s) -> v_restores s = [] -> rtc step s s1 -> call s1 s' ->
  forall p n, under QUARANTINE p = false -> under TRANSFERS p = false -> v_disk s1 !! p = Some n -> v_disk s' !! p = Some n.
Proof.
  intros Hf Hr Hsteps Hc. apply reachable_fixed in Hsteps as [Hs Htr]; [|done|intros id pending; by rewrite Hr].
  destruct (call_guards _ _ Hc Hs Htr) as [[Hg _] _]. exact Hg.
Qed.
End service.
