(* ===== verification/QuarantineContent.v ===== *)
(** * Quarantine: content

    What a session removes is in quarantine, and what is restored is what was in
    quarantine, unless two contents have the same digest. *)
From S2P Require Import Prelude PyVal PyStr IpAddr Json JsonRound PyText PyTime Commands TelemetryValues Sql TelemetryStore TelemetryRetention Files ScanAccess ScanAccessProps ScanReceipts ScanRuns ScanManager ScanRunClaims ScanReceiptClaims Quarantine QuarantineClaims.

(** ** Resolved paths *)

Definition proper_name (c : string) : bool := entry_name c && negb (String.eqb c "..").

Lemma parts_of_names raw : forallb entry_name (parts_of raw) = true.
Proof.
  unfold parts_of. apply forallb_forall. intros c [Hc Hf]%filter_In. unfold entry_name. rewrite Hf. cbn.
  pose proof (split_no_sep "/" raw) as Hs. rewrite Forall_forall in Hs. apply list_elem_of_In in Hc. by apply Hs.
Qed.

Lemma walk_names fuel f follow here todo q :
  forallb proper_name here = true -> forallb entry_name todo = true -> walk fuel f follow here todo = Ok q -> forallb proper_name q = true.
Proof.
  revert here todo; induction fuel as [|fuel IH]; intros here todo Hh Ht; [done|]. cbn [walk].
  destruct todo as [|c rest]; [by intros [= <-]|]. cbn [forallb] in Ht. apply andb_true_iff in Ht as [Hc Ht].
  destruct (String.eqb c "..") eqn:Ed.
  - intros Hw. apply IH in Hw; [done| |done]. destruct here as [|d here _] using rev_ind; [done|]. rewrite removelast_last, forallb_app in *. by apply andb_true_iff in Hh as [? _].
  - assert (forallb proper_name (here ++ [c]) = true) as Hp by (rewrite forallb_app, Hh; cbn; unfold proper_name; by rewrite Hc, Ed).
    destruct (f !! (here ++ [c])) as [n|]; [|destruct (_ =? _)%nat; [by intros [= <-]|done]].
    destruct (n_kind n); [destruct (_ =? _)%nat; [by intros [= <-]|done]|by apply IH| |destruct (_ =? _)%nat; [by intros [= <-]|done]].
    destruct (_ && _); [by intros [= <-]|]. apply IH; [by destruct (is_absolute target)|]. by rewrite forallb_app, parts_of_names.
Qed.

Lemma proper_plain p : forallb proper_name p = true -> plain p = true.
Proof. unfold plain. rewrite !forallb_forall. intros Hp c Hc. by apply Hp, andb_true_iff in Hc as [_ ?]. Qed.

Lemma proper_parts p : forallb proper_name p = true -> parts_of (path_text p) = p.
Proof.
  intros Hp. destruct p as [|c p]; [done|]. apply parts_of_text; [done|]. revert Hp. rewrite !forallb_forall. intros Hp x Hx. by apply Hp, andb_true_iff in Hx as [? _].
Qed.

Lemma direct_prefix f here x y : x <> [] -> direct f here (x ++ y) = true -> exists n, f !! (here ++ x) = Some n /\ is_link_node n = false.
Proof.
  revert here; induction x as [|c x IH]; intros here Hx; [done|]. cbn [direct app]. destruct (f !! (here ++ [c])) as [n|] eqn:E; [|done].
  intros [Hn Hd]%andb_true_iff. destruct x as [|c' x].
  - exists n. split; [done|]. destruct (_ =? _)%nat; [by apply negb_true_iff|]. unfold is_link_node, is_dir_node in *. by destruct (n_kind n).
  - rewrite (cons_middle c here). apply (IH (here ++ [c])); [done|exact Hd].
Qed.

(** ** The removal of a verified source *)

Section content.
Context `{FloatText} `{IsoText} `{Sqlite} `{Sha256} (max_bytes : Z) (home_of : Z -> option path).

Lemma read_source_direct gone stranger owner p f n :
  plain p = true -> read_source gone stranger owner p f = Ok n -> f !! p = Some n /\ direct f [] p = true /\ p <> [].
Proof.
  intros Hp (q & Hq & Hrun)%bind_Ok. unfold open_readonly in Hq. assert (p <> []) as Hne by (intros ->; discriminate Hq).
  apply open_nofollow_direct in Hq as [-> Hd]; [|done]. cbn [app] in Hrun. destruct (node_at f p) as [m|] eqn:En; [|done]. inv_ok. subst m.
  by rewrite node_at_below in En.
Qed.

Lemma removal_checked source expected owner s s' :
  plain source = true -> _unlink_verified_source source expected owner s = (Ok tt, s') ->
  exists n, v_disk s !! source = Some n /\ expected_ok expected (sha256 (n_data n)) = true /\ v_disk s' = delete source (v_disk s).
Proof.
  intros Hp. unfold _unlink_verified_source. intros (u & s1 & [Hcheck ->]%on_disk_Ok & Hrun)%act_bind_Ok. apply change_Ok in Hrun.
  unfold check_removal in Hcheck. apply bind_Ok in Hcheck as (n & Hread & Hcheck). apply bind_Ok in Hcheck as (u2 & Hexp & _).
  apply read_source_direct in Hread as (Hn & Hd & Hne); [|done]. apply require_Ok in Hexp. exists n. split; [done|]. split; [done|].
  revert Hrun. unfold remove_entry. generalize WALK. intros w (q & Hw & Hrun)%bind_Ok. apply walk_clear in Hw; [|done|].
  - cbn in Hw. subst q. destruct (node_at _ _) as [m|]; [|done]. destruct (is_dir_node m); [done|]. by injection Hrun.
  - intros x y m -> Hx _ Hm. destruct (direct_prefix _ _ _ _ Hx Hd) as (m' & Hm' & Hl). cbn in Hm, Hm'. congruence.
Qed.

(** ** The published object *)

Lemma detected_proper f raw p : _safe_detected_file f raw = Ok p -> forallb proper_name p = true /\ path_is_file f p = true /\ is_Some (node_at f p).
Proof.
  unfold _safe_detected_file. intros Hrun. inv_ok. subst. apply try_with_Ok in Ha2 as [Ha2|(e & _ & _ & Ha2)]; [|done].
  apply andb_true_iff in Ha3 as [Ha3 _]. apply resolve_walk in Ha2 as [Hw Hn]. split; [|done].
  revert Hw. generalize WALK. intros w. by apply walk_names; [|apply parts_of_names].
Qed.

#[local] Opaque _copy_verified _write_manifest mkdir unlink_quiet.

Definition object_path (owner : Z) (qid : string) : path := _quarantine_root owner ++ [object_name qid].

Lemma json_object_names qid : manifest_name qid <> object_name qid.
Proof. intros He. apply (f_equal String.length) in He. unfold manifest_name, object_name in He. rewrite !length_app_s in He. cbn in He. lia. Qed.

Lemma root_near owner : near QUARANTINE (_quarantine_root owner).
Proof. left. apply root_under. Qed.

Lemma publish_object_Ok m d id uuid owner source s pending s' :
  let qid := "q-" +:+ uuid in
  clear QUARANTINE (v_disk s) -> publish_object m d id qid owner source s = (Ok pending, s') ->
  exists size o, pending = pending_of qid id owner source size (sha256 (n_data o)) /\ v_disk s' !! object_path owner qid = Some o.
Proof.
  intros qid Hc. unfold publish_object, object_path. intros ([size h] & s1 & Hcopy & Hrun)%act_bind_Ok.
  assert (clear QUARANTINE (v_disk s1)) as Hc1.
  { eapply (ran_free QUARANTINE _ anywhere); [|exact Hcopy|exact Hc]. apply copy_moves; auto using near_closed, root_under, root_plain, root_near; done. }
  eapply copy_content in Hcopy as (f & n & o & _ & _ & Ho & Hdata & -> & _ & _); [|apply near_closed|apply root_under|apply root_near|apply root_plain|done|done|exact Hc].
  apply act_bind_Ok in Hrun as (u & s2 & Hman & Hrun). apply act_bind_Ok in Hrun as (u2 & s3 & Hset & Hret). injection Hset as _ <-. injection Hret as <- <-.
  exists size, o. cbn [fst snd v_disk]. rewrite <- Hdata. split; [done|].
  set (W := fun p => p = _quarantine_root owner ++ [manifest_name qid] \/ p = _quarantine_root owner ++ [".manifest-" +:+ at_suffix' m]).
  assert (touches QUARANTINE (near QUARANTINE) W (v_disk s1) (v_disk s2)) as Ht.
  { eapply ran; [|exact Hman|exact Hc1]. apply write_manifest_moves; [apply near_closed|by left|by right|apply root_under|apply root_near|left; apply below_dir, root_under|apply root_plain|done]. }
  rewrite (touches_only _ _ _ _ _ Ht); [exact Ho|]. intros [[_ He]%app_inj_tail|[_ He]%app_inj_tail]; [by symmetry in He; apply json_object_names in He|discriminate He].
Qed.

Lemma owned_disk id actor s r s' : _owned_detection id actor s = (r, s') -> v_disk s' = v_disk s.
Proof.
  intros Hrun.
  assert (PreOrder (fun x y : vault => v_disk y = v_disk x)) by (split; [done|]; intros x y z; congruence).
  assert (forall A (q : act db A), respects (fun x y => v_disk y = v_disk x) (in_store q)) as Hin by (intros A q x; unfold after, in_store; by destruct (q (v_store x))).
  assert (respects (fun x y => v_disk y = v_disk x) (_owned_detection id actor)) as Hm by (unfold _owned_detection; effects; apply Hin).
  specialize (Hm s). unfold after in Hm. by rewrite Hrun in Hm.
Qed.

Lemma prepare_Ok m id actor s pending s' :
  clear QUARANTINE (v_disk s) -> prepare_quarantine m id actor s = (Ok pending, s') ->
  is_str "QUARANTINED" (get "state" pending) = true
  \/ exists source owner size o, let qid := "q-" +:+ at_uuid m in
       pending = pending_of qid id owner source size (sha256 (n_data o)) /\ v_disk s' !! object_path owner qid = Some o
       /\ forallb proper_name source = true /\ is_Some (node_at (v_disk s) source).
Proof.
  intros Hc. unfold prepare_quarantine. intros (d & s1 & Hown & Hrun)%act_bind_Ok.
  pose proof (owned_disk _ _ _ _ _ Hown) as Hd.
  destruct (is_str "QUARANTINED" (get "state" d)) eqn:Es; [left; by injection Hrun as <- _|right].
  apply act_bind_Ok in Hrun as (source & s2 & [Hsource ->]%on_disk_Ok & Hrun). apply act_bind_Ok in Hrun as (n & s3 & [Hn ->]%on_disk_Ok & Hrun).
  apply act_bind_Ok in Hrun as (u & s4 & Hreq & Hrun). injection Hreq as _ <-. apply act_bind_Ok in Hrun as (u2 & s5 & Hmk & Hrun).
  apply act_bind_Ok in Hrun as (u3 & s6 & Hmode & Hrun). rewrite Hd in *.
  pose proof (root_under (n_uid n)) as Hu. pose proof (root_plain (n_uid n)) as Hp.
  assert (clear QUARANTINE (v_disk s5)) as Hc5.
  { eapply (ran_free QUARANTINE _ anywhere); [|exact Hmk|by rewrite Hd]. apply mkdir_moves; auto using near_closed, root_near; done. }
  assert (clear QUARANTINE (v_disk s6)) as Hc6.
  { eapply (ran_free QUARANTINE _ anywhere); [|exact Hmode|exact Hc5]. apply edit_entry_moves; auto using near_closed, root_near; done. }
  apply detected_proper in Hsource as (Hproper & _ & Hsome). exists source, (n_uid n).
  unfold catch in Hrun. destruct (publish_object _ _ _ _ _ _ s6) as [[x|e] s7] eqn:Ep.
  - injection Hrun as -> ->. apply publish_object_Ok in Ep as (size & o & Hpend & Ho); [|done]. by exists size, o.
  - exfalso. destruct (file_error e); [|done]. unfold withdraw_object in Hrun. apply act_bind_Ok in Hrun as (there & s8 & _ & Hrun). by apply act_bind_Ok in Hrun as (u4 & s9 & _ & [=]).
Qed.

Definition with_disk (f : fs) (s : vault) : vault := Vault (v_store s) f (v_pending s) (v_restores s) (v_faults s).

(** C5. When a quarantine was prepared, and the verified removal of its source
    succeeds later, whatever happened meanwhile outside of the quarantine, then
    the one file that is removed has the content of the published object, which
    stays, or the two contents differ and have the same digest. *)
Theorem removed_is_in_quarantine (m : moment) (id : string) (actor : Z) (s s1 s2 : vault) (f : fs) (pending : dict) (source : path) (owner : option Z) :
  clear QUARANTINE (v_disk s) ->
  (forall p, v_disk s !! (QUARANTINE ++ p ++ [object_name ("q-" +:+ at_uuid m)]) = None) ->
  (forall x, sha256 x <> "") ->
  prepare_quarantine m id actor s = (Ok pending, s1) -> source_of_pending pending = Ok source -> is_str "QUARANTINE_PENDING" (get "state" pending) = true ->
  (forall p, under QUARANTINE p = true -> f !! p = v_disk s1 !! p) ->
  _unlink_verified_source source (get "file_hash" pending) owner (with_disk f s1) = (Ok tt, s2) ->
  exists n object o, f !! source = Some n /\ v_disk s2 = delete source f /\ under QUARANTINE object = true /\ v_disk s2 !! object = Some o
    /\ (n_data o = n_data n \/ n_data o <> n_data n /\ sha256 (n_data o) = sha256 (n_data n)).
Proof.
  intros Hc Hfresh Hsha Hprep Hsource Hstate Hf Hun.
  apply prepare_Ok in Hprep as [Hq|(source0 & uid & size & o & -> & Ho & Hproper & Hsome)]; [| |done].
  { unfold is_str in *. destruct (get "state" pending) as [| | | |x| |]; try done. by apply String.eqb_eq in Hq as ->. }
  injection Hsource as Hsource. change (parts_of (path_text source0) = source) in Hsource. rewrite (proper_parts source0 Hproper) in Hsource. subst source0.
  apply removal_checked in Hun as (n & Hn & Hexp & Hdisk); [|by apply proper_plain]. cbn [v_disk with_disk] in *.
  set (object := object_path uid ("q-" +:+ at_uuid m)) in *. exists n, object, o. split; [exact Hn|]. split; [exact Hdisk|].
  assert (under QUARANTINE object = true) as Hu by (unfold object, object_path, _quarantine_root; rewrite <- app_assoc; apply under_app).
  split; [exact Hu|]. split.
  - rewrite Hdisk, lookup_delete_ne; [by rewrite Hf|]. intros ->. destruct Hsome as [x Hx].
    rewrite node_at_below in Hx by apply snoc_nonempty. specialize (Hfresh [str_of_Z uid]). unfold object, object_path, _quarantine_root in Hx. rewrite <- app_assoc in Hx. congruence.
  - change (expected_ok (VStr (sha256 (n_data o))) (sha256 (n_data n)) = true) in Hexp. unfold expected_ok in Hexp. cbn [truthy] in Hexp.
    rewrite (proj2 (String.eqb_neq _ _) (Hsha (n_data o))) in Hexp. cbn in Hexp. apply String.eqb_eq in Hexp.
    destruct (decide (n_data o = n_data n)) as [He|Hne]; [by left|by right].
Qed.

(** ** The restored file *)

Lemma found_under id owner f p : _find_quarantine_object (VStr id) owner f = Ok (Some p) -> owner <> None -> under QUARANTINE p = true /\ plain p = true.
Proof.
  destruct owner as [uid|]; [|done]. intros (d & -> & Hd & Hp)%found_object _. split; [by apply below_dir|]. rewrite plain_snoc, Hp.
  apply negb_true_iff, String.eqb_neq, longer_name. cbn. lia.
Qed.

(** What is staged is the object. *)
Lemma staged_object m id destination actor s pending s' :
  actor <> 0 -> startswith "det-" id = true -> free passage (v_disk s) -> prepare_restore home_of m id destination actor s = (Ok pending, s') ->
  exists object n target size, under QUARANTINE object = true /\ v_disk s !! object = Some n
    /\ pending = restore_pending id (transfer_path id actor) target (sha256 (n_data n)) size actor /\ dget id (v_restores s') = Some pending.
Proof.
  intros Ha Hid Hc. unfold prepare_restore, actor_option. rewrite (proj2 (Z.eqb_neq actor 0) Ha).
  intros (d & s1 & Hown & Hrun)%act_bind_Ok. apply owned_disk in Hown as Hd. apply act_bind_Ok in Hrun as (u & s2 & Hreq & Hrun). injection Hreq as _ <-.
  apply act_bind_Ok in Hrun as (found & s3 & [Hfound ->]%on_disk_Ok & Hrun). destruct found as [object|]; [|done].
  apply found_under in Hfound as [Hu Hplain]; [|done]. apply act_bind_Ok in Hrun as (target & s4 & [_ ->]%on_disk_Ok & Hrun).
  change (transfer_path id actor) with ((TRANSFERS ++ [str_of_Z actor]) ++ [id +:+ ".transfer"]) in *. set (dir := TRANSFERS ++ [str_of_Z actor]) in *. rewrite removelast_last in Hrun.
  pose proof (transfers_under actor) as Hut. pose proof (transfers_plain actor) as Hpt. fold dir in Hut, Hpt.
  assert (id +:+ ".transfer" <> "..") as Hn by (apply longer_name; cbn; lia).
  apply act_bind_Ok in Hrun as (u1 & s5 & Hmk & Hrun). apply act_bind_Ok in Hrun as (u2 & s6 & Hmode & Hrun). apply act_bind_Ok in Hrun as (u3 & s7 & Hgive & Hrun).
  apply act_bind_Ok in Hrun as (staged & s8 & [_ ->]%on_disk_Ok & Hrun). apply act_bind_Ok in Hrun as (u4 & s9 & Hreq & Hrun). injection Hreq as _ <-.
  set (W := fun p => near TRANSFERS p). assert (passage dir) as Hdir by (split; [by left|cbn; lia]). pose proof passage_closed as Hpc.
  assert (touches TRANSFERS passage W (v_disk s) (v_disk s7)) as Ht.
  { rewrite <- Hd in Hc |- *. 
    assert (touches TRANSFERS passage W (v_disk s1) (v_disk s5)) as T1.
    { eapply ran; [|exact Hmk|exact Hc]. apply mkdir_moves; [done| |done|done]. intros x y Hxy. apply (near_prefix TRANSFERS x y). rewrite <- Hxy. by left. }
    pose proof (touches_free _ _ _ _ _ T1 Hc) as Hc5.
    assert (touches TRANSFERS passage W (v_disk s5) (v_disk s6)) as T2 by (eapply ran; [|exact Hmode|exact Hc5]; apply edit_entry_moves; [done|by left|done..]).
    pose proof (touches_free _ _ _ _ _ T2 Hc5) as Hc6.
    assert (touches TRANSFERS passage W (v_disk s6) (v_disk s7)) as T3.
    { eapply ran; [|exact Hgive|exact Hc6]. unfold give_to. effects. apply edit_entry_moves; [done|by left|done..]. }
    eapply touches_trans; [exact T1|]. by eapply touches_trans. }
  pose proof (touches_free _ _ _ _ _ Ht Hc) as Hc7.
  unfold catch in Hrun. destruct (stage _ _ _ _ _ _ _ s7) as [[x|e] s10] eqn:Es.
  - injection Hrun as -> ->. unfold stage in Es. apply act_bind_Ok in Es as ([size h] & s11 & Hcopy & Es). apply act_bind_Ok in Es as (u5 & s12 & _ & Es).
    apply act_bind_Ok in Es as (u6 & s13 & Hset & Hret). injection Hset as _ <-. injection Hret as Hpend <-. cbn [fst snd] in Hpend.
    assert (id +:+ ".transfer" <> ".pending-" +:+ at_suffix m) as Hne by (intros He; destruct id as [|c id]; [done|]; injection He as -> _; discriminate Hid).
    eapply copy_content in Hcopy as (f & n & o & Hf & Hread & Ho & Hdata & Hh & Hsize & _); [|exact passage_closed|done|done|done|done|exact Hne|done]. subst h.
    exists object, n, target, size. split; [exact Hu|]. split; [|split; [by symmetry|cbn [v_restores]; by rewrite Hpend, dget_dset_eq]].
    apply read_source_direct in Hread as (Hn' & _ & _); [|exact Hplain].
    assert (~ near TRANSFERS object) as Hfar.
    { apply under_spec in Hu as (q & ->). by intros [Hx|Hx]. }
    rewrite (touches_only _ _ _ _ _ Hf) in Hn'; [rewrite (touches_only _ _ _ _ _ Ht) in Hn'; [exact Hn'|exact Hfar]|].
    intros [->|(y & Hy)]; apply Hfar; [left; by apply below_dir|]. apply (near_prefix TRANSFERS object y). rewrite <- Hy. by left.
  - exfalso. destruct (file_error e); [|done]. by apply act_bind_Ok in Hrun as (u5 & s11 & _ & Hrun).
Qed.

Lemma restored_checked f pending destination actor hash :
  check_restored f pending destination actor = Ok hash -> (exists h, get "file_hash" pending = VStr h) ->
  py_str (get "destination" pending) = path_text (parts_of destination)
  /\ exists p t, open_readonly f (parts_of destination) = Ok p /\ node_at f p = Some t /\ is_reg_node t = true /\ get "file_hash" pending = VStr (sha256 (n_data t)).
Proof.
  intros Hrun [h Hh]. unfold check_restored in Hrun. inv_ok. subst. split; [by apply andb_true_iff in Ha as [_ Ha%String.eqb_eq]|].
  rewrite Hh in *. unfold _hash_file in Ha2. destruct (open_readonly f (parts_of destination)) as [p|] eqn:Eo; [|done]. destruct (node_at f p) as [t|] eqn:Et; [|done].
  destruct (is_reg_node t) eqn:Er; [|done]. cbn in Ha2. apply String.eqb_eq in Ha2. exists p, t. rewrite Ha2. auto.
Qed.

Lemma completed_restore m id destination actor s result s' pending :
  complete_restore max_bytes m id destination actor s = (Ok result, s') -> dget id (v_restores s) = Some pending ->
  exists hash, check_restored (v_disk s) pending destination actor = Ok hash.
Proof.
  unfold complete_restore. intros (d & s1 & Hown & Hrun)%act_bind_Ok Hp. apply owned_disk in Hown as Hd.
  assert (v_restores s1 = v_restores s) as Hr by (destruct (owned_moves QUARANTINE (fun _ => True) (fun _ => True) id actor s) as [Hr _]; unfold after in Hr; by rewrite Hown in Hr).
  apply act_bind_Ok in Hrun as (known & s2 & [= <- <-] & Hrun). rewrite Hr, Hp in Hrun. apply act_bind_Ok in Hrun as (hash & s3 & [Hcheck _]%on_disk_Ok & _).
  exists hash. by rewrite <- Hd.
Qed.

(** C24. When a restoration was prepared, while no link stood on the way to the
    directory of the transfers of the user, and its completion succeeds later,
    whatever happened to the files meanwhile, the file at the announced
    destination is a regular one with the content of the object that was in
    quarantine at the preparation, or the two contents differ and have the same
    digest. *)
Theorem restored_is_quarantined (m m' : moment) (id destination destination' : string) (actor : Z) (s s1 s2 : vault) (f : fs) (pending result : dict) :
  actor <> 0 -> startswith "det-" id = true -> free passage (v_disk s) ->
  prepare_restore home_of m id destination actor s = (Ok pending, s1) ->
  complete_restore max_bytes m' id destination' actor (with_disk f s1) = (Ok result, s2) ->
  exists object n p t, under QUARANTINE object = true /\ v_disk s !! object = Some n
    /\ get "destination" pending = VStr (path_text (parts_of destination')) /\ open_readonly f (parts_of destination') = Ok p
    /\ node_at f p = Some t /\ is_reg_node t = true /\ (n_data t = n_data n \/ n_data t <> n_data n /\ sha256 (n_data t) = sha256 (n_data n)).
Proof.
  intros Ha Hid Hc Hprep Hdone. apply staged_object in Hprep as (object & n & target & size & Hu & Hn & -> & Hknown); [|done|done|done].
  apply (completed_restore _ _ _ _ _ _ _ _) with (1 := Hdone) in Hknown as (hash & Hcheck).
  apply restored_checked in Hcheck as (Hdest & p & t & Hp & Ht & Hreg & Hhash); [|by eexists].
  change (path_text target = path_text (parts_of destination')) in Hdest. change (VStr (sha256 (n_data n)) = VStr (sha256 (n_data t))) in Hhash.
  exists object, n, p, t. split; [exact Hu|]. split; [exact Hn|]. split; [by rewrite <- Hdest|]. split; [exact Hp|]. split; [exact Ht|]. split; [exact Hreg|].
  injection Hhash as Hhash. destruct (decide (n_data t = n_data n)) as [He|Hne]; [by left|by right].
Qed.
End content.
