(* ===== verification/QuarantineExamples.v ===== *)
(** * Quarantine: examples

    A file that is quarantined and restored, the witnesses of the claims, and
    what the model showed about the remediation. *)
From S2P Require Import Prelude PyVal PyStr IpAddr Json JsonRound JsonExample PyText PyTime TelemetryValues Sql TelemetryStore TelemetryRetention TelemetryClaims Files ScanAccess ScanAccessProps ScanReceipts ScanOutput ScanRuns ScanManager ScanSettleClaims Quarantine QuarantineClaims QuarantineContent.

#[local] Existing Instance small_sqlite.
#[local] Instance tagged_digest : Sha256 := {| sha256 := fun s => "#" +:+ s |}.

Definition own_dir (inode : Z) : node := Node Directory 493 0 0 inode "" 0 0 (Ok None) (Ok None).

(** The home of [ScanAccessProps] with the directories of the service. *)
Definition machine_disk : fs :=
  list_to_map
    [(["var"], own_dir 20); (["var"; "lib"], own_dir 21); (["var"; "lib"; "greyward"], own_dir 22); (QUARANTINE, own_dir 23); (["run"], own_dir 24);
     (["etc"], own_dir 25); (["etc"; "shadow"], Node Regular 256 0 0 26 "secret" 0 0 (Ok None) (Ok None));
     (["home"; "ann"; "rooted"], Node Regular 420 0 0 27 "text" 0 0 (Ok None) (Ok None))] ∪ home.

Definition detected_at (p : path) (hash : val) : db :=
  after (upsert_file_detection sample_now (detection_fields "scan-1" (path_text p) "Eicar" ready_info sample_now "det-1" (VInt 4, hash))) (w_store begun).

Definition found_in (p : path) (hash : val) : vault := Vault (detected_at p hash) machine_disk [] [] [].

Definition request (n : Z) : moment := Moment (sample_now + n * second) "0123456789abcdef0123456789abcdef" "aaaa" "bbbb" (EventHost ("uuid" +:+ str_of_Z n) 5 (VStr "boot")).

Definition home_path (uid : Z) : option path := if uid =? 1000 then Some ["home"; "ann"] else None.

Definition state_of (s : vault) : list val := map (get "state") (TelemetryStore.detections (v_store s)).

(** The quarantine of the file of the user, and what his session does. *)
Definition before : vault := found_in notes (VStr "#text").
Definition prepared_q : res dict * vault := prepare_quarantine (request 1) "det-1" 1000 before.
Definition removed_q : res unit * vault := _unlink_verified_source notes (VStr "#text") (Some 1000) (snd prepared_q).
Definition quarantined : vault := after (complete_quarantine MAX_DB_BYTES (request 2) "det-1" 1000) (snd removed_q).

Definition restored_to : path := ["home"; "ann"; "back.txt"].
Definition prepared_r : res dict * vault := prepare_restore home_path (request 3) "det-1" (path_text restored_to) 1000 quarantined.

(** The session copies the transfer file. *)
Definition session_copy (s : vault) : fs :=
  match v_disk s !! transfer_path "det-1" 1000 with Some n => <[restored_to := n]> (v_disk s) | None => v_disk s end.

Definition completed_r : res dict * vault :=
  complete_restore MAX_DB_BYTES (request 4) "det-1" (path_text restored_to) 1000 (with_disk (session_copy (snd prepared_r)) (snd prepared_r)).

Example round_trip :
  state_of quarantined = [VStr "QUARANTINED"] /\ v_disk quarantined !! notes = None
  /\ n_data <$> v_disk quarantined !! object_path 1000 ("q-" +:+ at_uuid (request 1)) = Some "text"
  /\ state_of (snd completed_r) = [VStr "RESTORED"] /\ n_data <$> v_disk (snd completed_r) !! restored_to = Some "text".
Proof. vm_compute. done. Qed.

(** ** Witnesses *)

Definition clear_entry (B : path) (e : path * node) : bool := negb (is_link_node e.2) || negb (under B e.1 || under e.1 B).

Lemma clear_check B f : forallb (clear_entry B) (map_to_list f) = true -> clear B f.
Proof.
  intros Hall x n Hx Hn%elem_of_map_to_list%list_elem_of_In. rewrite forallb_forall in Hall. specialize (Hall _ Hn). unfold clear_entry in Hall. cbn [fst snd] in Hall.
  destruct (is_link_node n); [|done]. cbn in Hall. apply negb_true_iff, orb_false_iff in Hall as [H1 H2]. destruct Hx; congruence.
Qed.

Lemma free_less (G G' : path -> Prop) f : (forall x, G' x -> G x) -> free G f -> free G' f.
Proof. intros HG Hf x n Hx. apply Hf, HG, Hx. Qed.

Lemma machine_clear : clear QUARANTINE machine_disk.
Proof. apply clear_check. vm_compute. reflexivity. Qed.

Lemma fresh_check (f : fs) (p : path) name : forallb (fun e => negb (String.eqb (List.last e.1 "") name)) (map_to_list f) = true -> f !! (p ++ [name]) = None.
Proof.
  intros Hall. destruct (f !! (p ++ [name])) as [n|] eqn:E; [|done]. apply elem_of_map_to_list, list_elem_of_In in E. rewrite forallb_forall in Hall.
  specialize (Hall _ E). cbn [fst] in Hall. by rewrite last_last, String.eqb_refl in Hall.
Qed.

Definition value_of {A} (d : A) (r : res A) : A := match r with Ok a => a | Err _ => d end.

Definition is_ok {A} (r : res A) : bool := match r with Ok _ => true | Err _ => false end.

Lemma went_well {A} (d : A) (m : act vault A) (s : vault) : is_ok (m s).1 = true -> m s = (Ok (value_of d (m s).1), (m s).2).
Proof. by destruct (m s) as [[a|e] s']. Qed.

Lemma with_disk_same s : with_disk (v_disk s) s = s.
Proof. by destruct s. Qed.

Lemma removed_ok : removed_q = (Ok tt, removed_q.2).
Proof. assert (removed_q.1 = Ok tt) as He by (vm_compute; reflexivity). rewrite <- He. apply surjective_pairing. Qed.

Lemma removed_is_in_quarantine_witness :
  exists n object o, v_disk (snd prepared_q) !! notes = Some n /\ v_disk (snd removed_q) = delete notes (v_disk (snd prepared_q))
    /\ under QUARANTINE object = true /\ v_disk (snd removed_q) !! object = Some o
    /\ (n_data o = n_data n \/ n_data o <> n_data n /\ sha256 (n_data o) = sha256 (n_data n)).
Proof.
  apply (removed_is_in_quarantine (request 1) "det-1" 1000 before (snd prepared_q) (snd removed_q) (v_disk (snd prepared_q)) (value_of [] (fst prepared_q)) notes (Some 1000)).
  - exact machine_clear.
  - intros p. rewrite app_assoc. apply fresh_check. vm_compute. reflexivity.
  - intros x. discriminate.
  - unfold prepared_q. apply went_well. vm_compute. reflexivity.
  - vm_compute. reflexivity.
  - vm_compute. reflexivity.
  - reflexivity.
  - assert (get "file_hash" (value_of [] prepared_q.1) = VStr "#text") as -> by (vm_compute; reflexivity).
    refine (eq_trans _ removed_ok). unfold removed_q. by rewrite with_disk_same.
Defined.

Lemma restored_is_quarantined_witness :
  exists object n p t, under QUARANTINE object = true /\ v_disk quarantined !! object = Some n
    /\ get "destination" (value_of [] (fst prepared_r)) = VStr (path_text restored_to)
    /\ open_readonly (session_copy (snd prepared_r)) restored_to = Ok p /\ node_at (session_copy (snd prepared_r)) p = Some t /\ is_reg_node t = true
    /\ (n_data t = n_data n \/ n_data t <> n_data n /\ sha256 (n_data t) = sha256 (n_data n)).
Proof.
  apply (restored_is_quarantined MAX_DB_BYTES home_path (request 3) (request 4) "det-1" (path_text restored_to) (path_text restored_to) 1000
           quarantined (snd prepared_r) (snd completed_r) (session_copy (snd prepared_r)) (value_of [] (fst prepared_r)) (value_of [] (fst completed_r))).
  - lia.
  - reflexivity.
  - apply (free_less (near TRANSFERS)); [by intros x []|]. apply clear_check. vm_compute. reflexivity.
  - unfold prepared_r. apply went_well. vm_compute. reflexivity.
  - unfold completed_r. apply went_well. vm_compute. reflexivity.
Defined.

(** The user has prepared a restoration and puts links to a file of root into the
    transfer directory, one of them in place of the transfer file. *)
Definition link_to (target : string) : node := Node (Symlink target) 511 1000 1000 90 "" 0 0 (Ok None) (Ok None).

Definition with_link (s : vault) : vault :=
  with_disk (<[transfer_path "det-1" 1000 := link_to "/etc/shadow"]> (<[transfer_path "det-2" 1000 := link_to "../../../etc"]> (v_disk s))) s.

Definition fixed_entry (e : path * node) : bool :=
  negb (is_link_node e.2) || negb (under QUARANTINE e.1 || under e.1 QUARANTINE) && negb ((under TRANSFERS e.1 || under e.1 TRANSFERS) && (length e.1 <=? 3)%nat).

Lemma fixed_check f : forallb fixed_entry (map_to_list f) = true -> free fixed f.
Proof.
  intros Hall x n Hx Hn%elem_of_map_to_list%list_elem_of_In. rewrite forallb_forall in Hall. specialize (Hall _ Hn). unfold fixed_entry in Hall. cbn [fst snd] in Hall.
  destruct (is_link_node n); [|done]. cbn [negb orb] in Hall. apply andb_true_iff in Hall as [H1 H2]. apply negb_true_iff in H1, H2. apply orb_false_iff in H1 as [H1 H1'].
  destruct Hx as [[Hx|Hx]|[Hx Hl%Nat.leb_le]]; [congruence..|]. rewrite Hl, andb_true_r in H2. apply orb_false_iff in H2 as [H2 H2']. destruct Hx; congruence.
Qed.

Lemma with_link_step s : free fixed (v_disk (with_link s)) -> step MAX_DB_BYTES home_path s (with_link s).
Proof. intros Hf. exact (step_users MAX_DB_BYTES home_path (v_disk (with_link s)) s Hf). Qed.

Lemma with_link_fixed : free fixed (v_disk (with_link (snd prepared_r))).
Proof. apply fixed_check. vm_compute. reflexivity. Qed.

Lemma restoring_step s : step MAX_DB_BYTES home_path s (after (RestoreDetection home_path (request 3) "det-1" (path_text restored_to) 1000) s).
Proof. by apply step_call, call_restore. Qed.

Lemma restoring : after (RestoreDetection home_path (request 3) "det-1" (path_text restored_to) 1000) quarantined = snd prepared_r.
Proof. vm_compute. reflexivity. Qed.

Lemma service_changes_no_user_file_witness :
  let s' := after (CompleteRestore MAX_DB_BYTES (request 4) "det-1" (path_text restored_to) 1000) (with_link (snd prepared_r)) in
  v_disk (with_link (snd prepared_r)) !! transfer_path "det-1" 1000 = Some (link_to "/etc/shadow")
  /\ (exists n, v_disk (with_link (snd prepared_r)) !! ["etc"; "shadow"] = Some n /\ v_disk s' !! ["etc"; "shadow"] = Some n).
Proof.
  intros s'. split; [vm_compute; reflexivity|].
  assert (is_Some (v_disk (with_link (snd prepared_r)) !! ["etc"; "shadow"])) as [n Hn] by (vm_compute; by eexists).
  exists n. split; [exact Hn|].
  apply (service_changes_no_user_file MAX_DB_BYTES home_path quarantined (with_link (snd prepared_r)) s').
  - apply fixed_check. vm_compute. reflexivity.
  - vm_compute. reflexivity.
  - eapply rtc_l; [apply restoring_step|]. rewrite restoring. apply rtc_once, with_link_step, with_link_fixed.
  - apply call_complete_restore. lia.
  - reflexivity.
  - reflexivity.
  - exact Hn.
Defined.

(** ** What the model showed *)

(** The digest found at the quarantine is not stored when the detection exists: an
    object of a detection without one is restored whatever it holds now. *)
Definition unhashed : vault :=
  let s := after (complete_quarantine MAX_DB_BYTES (request 2) "det-1" 1000)
             (after (_unlink_verified_source notes (VStr "#text") (Some 1000)) (after (prepare_quarantine (request 1) "det-1" 1000) (found_in notes VNone))) in
  Vault (v_store s) (alter (set_data "other" 0) (object_path 1000 ("q-" +:+ at_uuid (request 1))) (v_disk s)) [] [] [].

Lemma altered_object_is_restored :
  state_of unhashed = [VStr "QUARANTINED"]
  /\ exists pending, outcome (prepare_restore home_path (request 3) "det-1" "" 1000) unhashed = Ok pending /\ get "file_hash" pending = VStr "#other".
Proof. split; [vm_compute; reflexivity|]. eexists. split; vm_compute; reflexivity. Qed.

(** A failed restoration cannot be tried again. *)
Lemma failed_restore_is_final :
  let s := after (FailRestore MAX_DB_BYTES (request 4) "det-1" "cancelled" 1000) (snd prepared_r) in
  outcome (prepare_restore home_path (request 5) "det-1" "" 1000) s = Err not_restorable
  /\ is_Some (v_disk s !! object_path 1000 ("q-" +:+ at_uuid (request 1))).
Proof. split; [vm_compute; reflexivity|vm_compute; by eexists]. Qed.

(** The completion of a restoration that was never prepared is recorded as its
    failure: a detection whose file is still in place is no longer shown as
    detected. *)
Lemma stray_completion_hides_threat :
  let s := after (CompleteRestore MAX_DB_BYTES (request 1) "det-1" "/home/ann/x" 1000) before in
  state_of before = [VStr "DETECTED"] /\ state_of s = [VStr "RESTORE_FAILED"] /\ is_Some (v_disk s !! notes).
Proof. split; [vm_compute; reflexivity|]. split; [vm_compute; reflexivity|vm_compute; by eexists]. Qed.

(** The object of a file of root, which a user may quarantine, is kept where only
    root looks for it: its user can neither restore nor delete it. *)
Definition rooted : vault :=
  let s := after (prepare_quarantine (request 1) "det-1" 1000) (found_in ["home"; "ann"; "rooted"] (VStr "#text")) in
  after (complete_quarantine MAX_DB_BYTES (request 2) "det-1" 1000) (with_disk (delete ["home"; "ann"; "rooted"] (v_disk s)) s).

Lemma object_of_root_is_lost :
  state_of rooted = [VStr "QUARANTINED"]
  /\ outcome (prepare_restore home_path (request 3) "det-1" "" 1000) rooted = Err (FileNotFoundError "The quarantined object is unavailable.")
  /\ state_of (after (DeleteDetection MAX_DB_BYTES (request 3) "det-1" 1000) rooted) = [VStr "DELETE_FAILED"].
Proof. split; [vm_compute; reflexivity|]. split; vm_compute; reflexivity. Qed.

(** The transfer directory belongs to the user, and the change of the owner of the
    transfer file follows a link he puts in its place meanwhile. *)
Lemma change_of_owner_follows_links :
  n_uid <$> v_disk (after (give_to 1000 0 (transfer_path "det-1" 1000)) (with_link (snd prepared_r))) !! ["etc"; "shadow"] = Some 1000.
Proof. vm_compute. reflexivity. Qed.
