(* ===== verification/ArrivalQueue.v ===== *)
(** * The queue of arriving files ([arrival_scanner.py], [ArrivalQueue])

    The identity of a file, the durable queue of arrivals with its watermarks and
    the scan in flight. The connection is kept open and each method writes in
    transactions of its own. Times are in nanoseconds, as [st_mtime_ns] is: the
    rounding of float times is left out. The list of paths in flight is stored as
    JSON text and read back, which loses nothing ([JsonRound]). The second part
    shows what each method does to the rows. *)
From S2P Require Import Prelude PyVal PyStr PyText Files ScanReceipts.

Definition PARTIAL_SUFFIXES : list string := [".part"; ".partial"; ".crdownload"; ".download"; ".tmp"; ".swp"; "~"].
Definition MAX_FILE_BYTES : Z := 256 * 1024 * 1024.
Definition MAX_QUEUE : Z := 8192.
Definition SECOND : Z := 1000000000.
Definition SETTLE_SECONDS : Z := 8.

(** A row of [arrivals]; the table is in the order of the row identifiers. *)
Record arrival := Arrival {
  a_path : string; a_signature : string; a_observed : Z; a_generation : string;
  a_done : Z; a_retry_at : Z; a_attempts : Z; a_priority : Z }.

(** The database: the arrivals, the scan in flight and the watermarks. *)
Record queue := Queue {
  arrivals : list arrival; in_flight : list (string * list string); watermarks : list (string * Z) }.

Definition with_arrivals (l : list arrival) (q : queue) : queue := Queue l (in_flight q) (watermarks q).
Definition with_in_flight (l : list (string * list string)) (q : queue) : queue := Queue (arrivals q) l (watermarks q).
Definition with_watermarks (l : list (string * Z)) (q : queue) : queue := Queue (arrivals q) (in_flight q) l.

Definition new_database : queue := Queue [] [] [].

(** [path.name], [path.is_relative_to(root)] for one of the roots. *)
Definition last_name (p : path) : string := List.last p "".
Definition allowed (roots : list path) (p : path) : bool := existsb (fun root => under root p) roots.

Definition partial_name (name : string) : bool :=
  startswith "." name || existsb (fun s => endswith s (str_lower name)) PARTIAL_SUFFIXES.

(** The paths [/c1], [/c1/c2], ... of the loop over [path.parts[1:]]. *)
Definition steps_of (p : path) : list path := map (fun n => take (S n) p) (seq 0 (length p)).

(** [str((st_dev, st_ino, st_size, st_mtime_ns, st_ctime_ns))]. *)
Definition stat_text (n : node) : string :=
  "(" +:+ join ", " (map str_of_Z [ST_DEV; n_ino n; st_size n; n_mtime n; n_ctime n]) +:+ ")".

Section queue.
Context `{Sha256} (uid : Z).

(** [identity(path, uid)]. *)
Definition identity (f : fs) (p : path) : option string :=
  if partial_name (last_name p) then None
  else if existsb (path_is_link f) (steps_of p) then None
  else
    match lstat f p with
    | Err _ => None
    | Ok n =>
        if negb (n_uid n =? uid) || negb (is_reg_node n) || (MAX_FILE_BYTES <? st_size n) then None
        else Some (sha256 (stat_text n))
    end.

(** [ArrivalQueue(path, uid)] on the database there is. *)
Definition opened (now : Z) (q : queue) : queue :=
  match dget "@first-start" (watermarks q) with
  | Some _ => q
  | None => with_watermarks (watermarks q ++ [("@first-start"%string, now)]) q
  end.

(** [since(root, home)]. *)
Definition since (root : path) (home : bool) : act queue Z := fun q =>
  match dget (path_text root) (watermarks q) with
  | Some t => (Ok t, q)
  | None =>
      if home then (match dget "@first-start" (watermarks q) with Some t => Ok t | None => Err TypeError end, q)
      else (Ok 0, q)
  end.

(** [walked(root, started)]. *)
Definition walked (root : path) (started : Z) : act queue unit :=
  modify (fun q => with_watermarks (dset (path_text root) (started - SECOND) (watermarks q)) q).

(** [definitions_changed(generation)]. *)
Definition renewed (generation : string) (r : arrival) : arrival :=
  if String.eqb (a_generation r) generation then r
  else Arrival (a_path r) (a_signature r) (a_observed r) generation 0 0 0 (a_priority r).

Definition definitions_changed (generation : string) : act queue unit :=
  modify (fun q => with_arrivals (map (renewed generation) (arrivals q)) q).

(** ** Observation *)

Definition is_at (raw : string) (r : arrival) : bool := String.eqb (a_path r) raw.
Definition row_at (raw : string) (l : list arrival) : option arrival := List.find (is_at raw) l.
Definition remove_at (raw : string) (l : list arrival) : list arrival := List.filter (fun r => negb (is_at raw r)) l.

Definition priority_count (priority : Z) (l : list arrival) : Z :=
  Z.of_nat (length (List.filter (fun r => a_priority r =? priority) l)).

(** The completed row of the priority that was observed first. *)
Definition finished_row (priority : Z) (r : arrival) : bool := negb (a_done r =? 0) && (a_priority r =? priority).
Definition observed_before (a b : arrival) : bool := a_observed a <=? a_observed b.

Definition oldest_finished (priority : Z) (l : list arrival) : option arrival :=
  head (sort_by observed_before (List.filter (finished_row priority) l)).

(** The room for a row that comes to the priority: [None] when there is none. *)
Definition make_room (moved : bool) (priority : Z) (l : list arrival) : option (list arrival) :=
  if moved && (MAX_QUEUE <=? priority_count priority l)
  then (fun old => remove_at (a_path old) l) <$> oldest_finished priority l
  else Some l.

(** [INSERT ... ON CONFLICT(path) DO UPDATE SET ... WHERE ...]. *)
Definition differs (r old : arrival) : bool :=
  negb (String.eqb (a_signature old) (a_signature r)) || negb (String.eqb (a_generation old) (a_generation r))
  || negb (a_priority old =? a_priority r).

Fixpoint put_arrival (r : arrival) (l : list arrival) : list arrival :=
  match l with
  | [] => [r]
  | old :: l => if is_at (a_path r) old then (if differs r old then r else old) :: l else old :: put_arrival r l
  end.

(** [observe(path, generation, now, priority)]. *)
Definition observe (f : fs) (p : path) (generation : string) (now priority : Z) : act queue bool := fun q =>
  match identity f p with
  | None | Some "" => (Ok true, q)
  | Some signature =>
      let raw := path_text p in
      let row := row_at raw (arrivals q) in
      let priority := match row with Some r => Z.max priority (a_priority r) | None => priority end in
      let moved := match row with Some r => negb (a_priority r =? priority) | None => true end in
      match make_room moved priority (arrivals q) with
      | None => (Ok false, q)
      | Some l => (Ok true, with_arrivals (put_arrival (Arrival raw signature now generation 0 0 0 priority) l) q)
      end
  end.

(** ** The next batch *)

Definition settled (now : Z) (r : arrival) : bool :=
  (a_done r =? 0) && (a_observed r <=? now - SETTLE_SECONDS * SECOND) && (a_retry_at r <=? now).

(** [ORDER BY priority DESC,observed]. *)
Definition served_before (a b : arrival) : bool :=
  if a_priority a =? a_priority b then a_observed a <=? a_observed b else a_priority b <? a_priority a.

Definition due_rows (now : Z) (limit : nat) (l : list arrival) : list arrival :=
  take limit (sort_by served_before (List.filter (settled now) l)).

Definition delete_arrival (raw : string) : act queue unit := modify (fun q => with_arrivals (remove_at raw (arrivals q)) q).

(** The body of the loop of [ready] on one row of the selection. *)
Definition ready_row (f : fs) (now : Z) (roots : list path) (row : arrival) : act queue (list string) :=
  let raw := a_path row in
  let p := parts_of raw in
  if negb (allowed roots p) then _ ← delete_arrival raw; mret []
  else
    match identity f p with
    | None => _ ← delete_arrival raw; mret []
    | Some current =>
        if String.eqb current (a_signature row) then mret [raw]
        else
          found ← gets (fun q => row_at raw (arrivals q));
          match found with
          | None => raise TypeError
          | Some r => _ ← observe f p (a_generation r) now (a_priority r); mret []
          end
    end.

Fixpoint ready_rows (f : fs) (now : Z) (roots : list path) (rows : list arrival) : act queue (list string) :=
  match rows with
  | [] => mret []
  | row :: rows => l ← ready_row f now roots row; k ← ready_rows f now roots rows; mret (l ++ k)
  end.

(** [ready(now, roots, limit)]. *)
Definition READY_LIMIT : nat := 32.

Definition ready (f : fs) (now : Z) (roots : list path) : act queue (list string) :=
  rows ← gets (fun q => due_rows now READY_LIMIT (arrivals q)); ready_rows f now roots rows.

(** ** Results *)

(** [SET done=?, attempts=attempts+1, retry_at=? + min(1800,60*(attempts+1)*(attempts+1))]:
    the expressions read the old row. *)
Definition retry_delay (attempts : Z) : Z := Z.min 1800 (60 * (attempts + 1) * (attempts + 1)).

Definition attempted (done now : Z) (r : arrival) : arrival :=
  Arrival (a_path r) (a_signature r) (a_observed r) (a_generation r) done (now + retry_delay (a_attempts r) * SECOND) (a_attempts r + 1) (a_priority r).

Definition done_code (complete terminal : bool) : Z := if complete then 1 else if terminal then 2 else 0.

(** [finished(paths, complete, now, terminal=...)]. *)
Definition finished (paths : list string) (complete : bool) (now : Z) (terminal : bool) : act queue unit :=
  modify (fun q => with_arrivals
    (fold_left (fun l raw => map (fun r => if is_at raw r then attempted (done_code complete terminal) now r else r) l) paths (arrivals q)) q).

(** [pending()]. *)
Definition is_pending (r : arrival) : bool := a_done r =? 0.
Definition pending (q : queue) : Z := Z.of_nat (length (List.filter is_pending (arrivals q))).

(** [inflight()], [inflight(operation_id, paths)], [clear_inflight()]. *)
Definition inflight (q : queue) : option string * list string :=
  match in_flight q with (operation, paths) :: _ => (Some operation, paths) | [] => (None, []) end.

Definition set_inflight (operation : string) (paths : list string) : act queue unit := modify (with_in_flight [(operation, paths)]).
Definition clear_inflight : act queue unit := modify (with_in_flight []).
End queue.

(** * The queue of arriving files: properties

    Each method keeps a path in one row and the rows of a priority within the
    bound, and accounts for the rows: pending work leaves the queue only with a
    reason, a row is completed only when the scanner vouches for the file, and
    rows are new only when they are observed now. *)
(** ** The invariant *)

Record row_wf (r : arrival) : Prop := RowWf {
  priority_ok : a_priority r = 0 \/ a_priority r = 1;
  done_ok : 0 <= a_done r <= 2;
  attempts_ok : 0 <= a_attempts r }.

Record queue_wf (q : queue) : Prop := QueueWf {
  one_row : NoDup (map a_path (arrivals q));
  within_bound : forall p, priority_count p (arrivals q) <= MAX_QUEUE;
  rows_wf : forall r, In r (arrivals q) -> row_wf r;
  started_once : is_Some (dget "@first-start" (watermarks q)) }.

(** ** Accounting *)

Definition pending_at (raw : string) (q : queue) : Prop := exists r, In r (arrivals q) /\ a_path r = raw /\ a_done r = 0.
Definition completed_at (raw : string) (q : queue) : Prop := exists r, In r (arrivals q) /\ a_path r = raw /\ a_done r = 1.
Definition same_file (r r' : arrival) : Prop := a_path r = a_path r' /\ a_signature r = a_signature r' /\ a_observed r = a_observed r'.

(** [excused] are the paths whose row may go or be set aside, [vouched] those
    that may be completed; [now] is the moment of observation. *)
Record accounted (excused vouched : string -> Prop) (now : Z) (q q' : queue) : Prop := Accounted {
  kept_pending : forall raw, pending_at raw q -> pending_at raw q' \/ excused raw;
  kept_completed : forall raw, completed_at raw q' -> completed_at raw q \/ vouched raw;
  kept_rows : forall r', In r' (arrivals q') -> a_observed r' = now \/ exists r, In r (arrivals q) /\ same_file r r' }.

Definition tracked (excused vouched : string -> Prop) (now : Z) (q q' : queue) : Prop :=
  queue_wf q -> queue_wf q' /\ accounted excused vouched now q q'.

Lemma accounted_refl e v now q : accounted e v now q q.
Proof. split; [auto|auto|]. intros r Hr. right. exists r. by repeat split. Qed.

Lemma accounted_trans e v now q q1 q2 : accounted e v now q q1 -> accounted e v now q1 q2 -> accounted e v now q q2.
Proof.
  intros [P1 C1 R1] [P2 C2 R2]. split.
  - intros raw Hp. destruct (P1 raw Hp) as [H1|H1]; [by apply P2|by right].
  - intros raw Hc. destruct (C2 raw Hc) as [H1|H1]; [by apply C1|by right].
  - intros r2 H2. destruct (R2 r2 H2) as [|(r1 & H1 & Hs & Hs' & Ho)]; [by left|].
    destruct (R1 r1 H1) as [|(r & Hr & Ht & Ht' & Hto)]; [left; congruence|].
    right. exists r. split; [done|]. repeat split; congruence.
Qed.

#[export] Instance tracked_preorder e v now : PreOrder (tracked e v now).
Proof.
  split; unfold tracked.
  - intros q Hq. split; [done|apply accounted_refl].
  - intros q q1 q2 H1 H2 Hq. destruct (H1 Hq) as [Hq1 A1]. destruct (H2 Hq1) as [Hq2 A2].
    split; [done|]. by eapply accounted_trans.
Qed.

(** Methods that change the other tables. *)
Lemma tracked_others e v now q q' :
  arrivals q' = arrivals q -> (is_Some (dget "@first-start" (watermarks q)) -> is_Some (dget "@first-start" (watermarks q'))) -> tracked e v now q q'.
Proof.
  intros Ha Hw [H1 H2 H3 H4]. split; [split; rewrite ?Ha; auto|].
  split; unfold pending_at, completed_at; rewrite Ha; [auto|auto|]. intros r Hr. right. exists r. by repeat split.
Qed.

(** ** Rows *)

Lemma is_at_spec raw r : is_at raw r = true <-> a_path r = raw.
Proof. apply String.eqb_eq. Qed.

Lemma row_at_Some raw l r : row_at raw l = Some r -> In r l /\ a_path r = raw.
Proof. intros [Hin Hr]%find_some. by rewrite is_at_spec in Hr. Qed.

Lemma remove_at_In raw l r : In r (remove_at raw l) <-> In r l /\ a_path r <> raw.
Proof. unfold remove_at. rewrite filter_In, negb_true_iff. rewrite <- (is_at_spec raw r). destruct (is_at raw r); intuition congruence. Qed.

Lemma unique_row l r r' : NoDup (map a_path l) -> In r l -> In r' l -> a_path r = a_path r' -> r = r'.
Proof.
  intros Hnd Hr Hr' Heq. induction l as [|x l IH]; [done|]. cbn [map] in Hnd. apply NoDup_cons in Hnd as [Hx Hnd].
  assert (forall y, In y l -> a_path y <> a_path x) as Hout.
  { intros y Hy Hk. apply Hx. rewrite list_elem_of_In, in_map_iff. eauto. }
  destruct Hr as [->|Hr], Hr' as [->|Hr']; eauto; exfalso; [by eapply Hout|by eapply (Hout r)].
Qed.

Lemma NoDup_filter_paths (p : arrival -> bool) l : NoDup (map a_path l) -> NoDup (map a_path (List.filter p l)).
Proof.
  induction l as [|x l IH]; [done|]. cbn [map List.filter]. intros [Hx Hnd]%NoDup_cons.
  destruct (p x); [|by apply IH]. cbn [map]. constructor; [|by apply IH].
  rewrite list_elem_of_In, in_map_iff in *. intros (y & Hy & [Hin _]%filter_In). apply Hx. eauto.
Qed.

Lemma priority_count_remove p raw l : priority_count p (remove_at raw l) <= priority_count p l.
Proof.
  unfold priority_count, remove_at. induction l as [|x l IH]; [done|]. cbn [List.filter].
  destruct (negb (is_at raw x)); cbn [List.filter]; destruct (_ =? p); cbn [length]; lia.
Qed.

Lemma priority_count_shrinks l r : In r l -> priority_count (a_priority r) (remove_at (a_path r) l) < priority_count (a_priority r) l.
Proof.
  intros Hr. unfold priority_count, remove_at. induction l as [|x l IH]; [done|].
  pose proof (priority_count_remove (a_priority r) (a_path r) l) as Hle. unfold priority_count, remove_at in Hle.
  destruct Hr as [->|Hr]; cbn [List.filter].
  - rewrite (proj2 (is_at_spec (a_path r) r) eq_refl). cbn [negb]. rewrite Z.eqb_refl. cbn [length]. lia.
  - specialize (IH Hr). destruct (negb _); cbn [List.filter]; destruct (_ =? a_priority r); cbn [length]; lia.
Qed.

(** ** Room *)

Lemma oldest_finished_In p l r : oldest_finished p l = Some r -> In r l /\ a_done r <> 0 /\ a_priority r = p.
Proof.
  unfold oldest_finished. intros Hr.
  assert (In r (sort_by observed_before (List.filter (finished_row p) l))) as Hin.
  { destruct (sort_by _ _); [done|]. injection Hr as ->. by left. }
  apply sort_by_In, filter_In in Hin as [Hin [Hd Hp]%andb_true_iff]. apply negb_true_iff in Hd. zify_bool. done.
Qed.

(** What making room leaves: rows go only when they are not pending, and there
    is room for one more. *)
Lemma make_room_Some moved p l l' :
  NoDup (map a_path l) -> (forall k, priority_count k l <= MAX_QUEUE) -> make_room moved p l = Some l' ->
  (l' = l \/ exists old, In old l /\ a_done old <> 0 /\ a_priority old = p /\ moved = true /\ l' = remove_at (a_path old) l)
  /\ NoDup (map a_path l') /\ (forall k, priority_count k l' <= MAX_QUEUE)
  /\ (moved = true -> priority_count p l' < MAX_QUEUE).
Proof.
  intros Hnd Hb. unfold make_room. destruct (moved && _) eqn:E.
  - apply andb_true_iff in E as [Hm E]. zify_bool. destruct (oldest_finished p l) as [old|] eqn:Eo; [|done].
    cbn. intros [= <-]. apply oldest_finished_In in Eo as (Hin & Hd & Hp). split; [right; by exists old|].
    split; [by apply NoDup_filter_paths|]. split.
    + intros k. pose proof (priority_count_remove k (a_path old) l). specialize (Hb k). lia.
    + intros _. pose proof (priority_count_shrinks l old Hin) as Hlt. rewrite Hp in Hlt. specialize (Hb p). lia.
  - intros [= <-]. split; [by left|]. do 2 (split; [done|]). intros ->. cbn in E. zify_bool. done.
Qed.

(** ** Insertion *)

Lemma put_arrival_In r l x :
  In x (put_arrival r l) -> x = r \/ In x l.
Proof.
  induction l as [|old l IH]; cbn [put_arrival]; [intros [<-|[]]; auto|].
  destruct (is_at _ old) eqn:E.
  - destruct (differs r old); intros [<-|Hx]; auto with code.
  - intros [<-|Hx]; [auto with code|]. destruct (IH Hx); auto with code.
Qed.

Lemma put_arrival_kept r l x : NoDup (map a_path l) -> In x l -> a_path x <> a_path r -> In x (put_arrival r l).
Proof.
  intros Hnd Hx Hne. induction l as [|old l IH]; [done|]. cbn [map put_arrival] in *. apply NoDup_cons in Hnd as [_ Hnd].
  destruct (is_at _ old) eqn:E.
  - apply is_at_spec in E. destruct Hx as [->|Hx]; [done|]. by destruct (differs r old); right.
  - destruct Hx as [->|Hx]; [by left|]. right. by apply IH.
Qed.

(** The row at the path: the new one, or the old one when nothing differs. *)
Lemma put_arrival_at r l :
  In r (put_arrival r l) \/ exists old, In old l /\ In old (put_arrival r l) /\ a_path old = a_path r.
Proof.
  induction l as [|old l IH]; cbn [put_arrival]; [by left; left|]. destruct (is_at _ old) eqn:E.
  - apply is_at_spec in E. destruct (differs r old); [by left; left|]. right. exists old. auto with code.
  - destruct IH as [IH|(x & Hx & Hp & He)]; [by left; right|]. right. exists x. auto with code.
Qed.

Lemma put_arrival_paths r l : map a_path (put_arrival r l) = map a_path l \/ (map a_path (put_arrival r l) = map a_path l ++ [a_path r] /\ row_at (a_path r) l = None).
Proof.
  induction l as [|old l IH]; cbn [put_arrival row_at List.find]; [by right|]. destruct (is_at _ old) eqn:E.
  - left. apply is_at_spec in E. destruct (differs r old); cbn [map]; by rewrite ?E.
  - cbn [map]. destruct IH as [->|[-> Hn]]; [by left|]. right. split; [done|]. exact Hn.
Qed.

Lemma put_arrival_NoDup r l : NoDup (map a_path l) -> NoDup (map a_path (put_arrival r l)).
Proof.
  intros Hnd. destruct (put_arrival_paths r l) as [->|[-> Hn]]; [done|].
  apply NoDup_app. split; [done|]. split; [|apply NoDup_singleton].
  intros p (x & <- & Hx)%list_elem_of_In%in_map_iff Hp%list_elem_of_singleton.
  apply (find_none _ _ Hn) in Hx. apply not_true_iff_false in Hx. by apply Hx, is_at_spec.
Qed.

Definition counts (p : Z) (r : arrival) : Z := if a_priority r =? p then 1 else 0.

Lemma priority_count_cons p r l : priority_count p (r :: l) = counts p r + priority_count p l.
Proof. unfold priority_count, counts. cbn [List.filter]. destruct (_ =? p); cbn [length]; lia. Qed.

Lemma put_arrival_count p r l :
  priority_count p (put_arrival r l) <= priority_count p l + counts p r
  /\ forall old, row_at (a_path r) l = Some old -> a_priority old = a_priority r -> priority_count p (put_arrival r l) = priority_count p l.
Proof.
  induction l as [|x l [IH1 IH2]]; cbn [put_arrival row_at List.find].
  - rewrite priority_count_cons. split; [lia|done].
  - destruct (is_at _ x) eqn:E.
    + split.
      * destruct (differs r x); rewrite !priority_count_cons; unfold counts; repeat case_match; lia.
      * intros old [= <-] Hp. destruct (differs r x); [|done]. rewrite !priority_count_cons. unfold counts. by rewrite Hp.
    + rewrite !priority_count_cons. split; [lia|]. intros old Ho Hp. rewrite (IH2 old Ho Hp). done.
Qed.

Section methods.
Context `{Sha256} (uid : Z) (excused vouched : string -> Prop) (now : Z).

Abbreviation tracked := (tracked excused vouched now).

Lemma observe_tracked f p generation priority q :
  priority = 0 \/ priority = 1 -> tracked q (after (observe uid f p generation now priority) q).
Proof.
  intros Hp Hq. unfold after, observe.
  destruct (identity uid f p) as [signature|]; [|split; [done|apply accounted_refl]].
  destruct signature as [|c signature]; [split; [done|apply accounted_refl]|].
  set (sig := String c signature). set (raw := path_text p).
  set (level := match row_at raw (arrivals q) with Some r => Z.max priority (a_priority r) | None => priority end).
  set (moved := match row_at raw (arrivals q) with Some r => negb (a_priority r =? level) | None => true end).
  destruct (make_room moved level (arrivals q)) as [l|] eqn:El; [|split; [done|apply accounted_refl]].
  destruct Hq as [Hnd Hb Hrows Hfirst]. cbn [snd].
  apply (make_room_Some _ _ _ _ Hnd Hb) in El as (Hl & Hnd' & Hb' & Hroom).
  assert (forall x, In x l -> In x (arrivals q)) as Hsub.
  { destruct Hl as [->|(old & _ & _ & _ & _ & ->)]; [done|]. by intros x [? _]%remove_at_In. }
  assert (level = 0 \/ level = 1) as Hlevel.
  { unfold level. destruct (row_at raw (arrivals q)) as [r|] eqn:Er; [|done].
    apply row_at_Some in Er as [Hin _]. destruct (priority_ok _ (Hrows r Hin)), Hp; lia. }
  set (new := Arrival raw sig now generation 0 0 0 level).
  split; [split|split].
  - by apply put_arrival_NoDup.
  - intros k. cbn [arrivals with_arrivals]. pose proof (put_arrival_count k new l) as [Hle Heq]. specialize (Hb' k).
    destruct moved eqn:Em.
    + specialize (Hroom eq_refl). unfold counts in Hle. cbn [a_priority new] in Hle.
      destruct (Z.eqb_spec level k) as [<-|]; lia.
    + unfold moved in Em. destruct (row_at raw (arrivals q)) as [r|] eqn:Er; [|done]. apply negb_false_iff in Em. zify_bool.
      assert (l = arrivals q) as -> by (destruct Hl as [->|(old & _ & _ & _ & ? & _)]; done).
      rewrite (Heq r Er Em). done.
  - intros x [->|Hx]%put_arrival_In; [|by apply Hrows, Hsub]. by split.
  - done.
  - intros raw' (r & Hr & Hpath & Hd). left. unfold pending_at. cbn [arrivals with_arrivals].
    assert (In r l) as Hin.
    { destruct Hl as [->|(old & Hold & Hfin & _ & _ & ->)]; [done|]. apply remove_at_In. split; [done|].
      intros He. by rewrite (unique_row _ _ _ Hnd Hr Hold He) in Hd. }
    destruct (String.eqb_spec raw' raw) as [->|Hne].
    + destruct (put_arrival_at new l) as [Hnew|(old & Hold & Hin' & He)]; [by exists new|].
      cbn [a_path new] in He. exists old. split; [done|]. split; [done|]. by rewrite (unique_row l old r Hnd' Hold Hin) by congruence.
    + exists r. split; [|done]. apply put_arrival_kept; [done|done|]. by rewrite Hpath.
  - intros raw' (r & [->|Hr]%put_arrival_In & Hpath & Hd); [done|]. left. exists r. split; [by apply Hsub|done].
  - intros r [->|Hr]%put_arrival_In; [by left|]. right. exists r. split; [by apply Hsub|]. by repeat split.
Qed.

Lemma definitions_changed_tracked generation : respects tracked (definitions_changed generation).
Proof.
  intros q [Hnd Hb Hrows Hfirst]. unfold after, definitions_changed. cbn [snd modify].
  assert (forall r, a_path (renewed generation r) = a_path r /\ a_priority (renewed generation r) = a_priority r
            /\ a_signature (renewed generation r) = a_signature r /\ a_observed (renewed generation r) = a_observed r
            /\ (renewed generation r = r \/ (a_done (renewed generation r) = 0 /\ a_attempts (renewed generation r) = 0))) as Hr.
  { intros r. unfold renewed. destruct (String.eqb _ _); [auto 6|]. repeat split; auto. }
  split; [split|split]; cbn [arrivals watermarks with_arrivals].
  - rewrite map_map. by rewrite (map_ext _ a_path) by (intros r; apply Hr).
  - intros p. unfold priority_count. specialize (Hb p). unfold priority_count in Hb.
    enough (length (List.filter (fun r => a_priority r =? p) (map (renewed generation) (arrivals q))) = length (List.filter (fun r => a_priority r =? p) (arrivals q))) as -> by done.
    clear -Hr. induction (arrivals q) as [|x l IH]; [done|]. cbn [map List.filter]. destruct (Hr x) as (_ & -> & _).
    destruct (_ =? p); cbn [length]; by rewrite IH.
  - intros r (x & <- & Hx)%in_map_iff. specialize (Hrows x Hx). destruct (Hr x) as (_ & Hp & _ & _ & [->|[Hd Ha]]); [done|].
    destruct Hrows. split; [by rewrite Hp|lia|lia].
  - done.
  - intros raw (r & Hin & Hpath & Hd). left. exists (renewed generation r). destruct (Hr r) as (Hp & _ & _ & _ & Hcase).
    split; [by apply in_map|]. split; [by rewrite Hp|]. by destruct Hcase as [->|[? _]].
  - intros raw (r & (x & <- & Hx)%in_map_iff & Hpath & Hd). left. exists x. destruct (Hr x) as (Hp & _ & _ & _ & [He|[Hd' _]]).
    + rewrite He in *. done.
    + by rewrite Hd in Hd'.
  - intros r (x & <- & Hx)%in_map_iff. right. exists x. split; [done|]. destruct (Hr x) as (Hp & _ & Hs & Ho & _). by repeat split.
Qed.

Lemma delete_tracked raw : excused raw -> respects tracked (delete_arrival raw).
Proof.
  intros He q [Hnd Hb Hrows Hfirst]. unfold after, delete_arrival. cbn [snd modify].
  split; [split|split]; cbn [arrivals watermarks with_arrivals].
  - by apply NoDup_filter_paths.
  - intros p. pose proof (priority_count_remove p raw (arrivals q)). specialize (Hb p). lia.
  - intros r [Hr _]%remove_at_In. by apply Hrows.
  - done.
  - intros raw' (r & Hr & Hp & Hd). destruct (String.eqb_spec raw' raw) as [->|Hne]; [by right|]. left. exists r.
    split; [|done]. apply remove_at_In. by rewrite Hp.
  - intros raw' (r & [Hr _]%remove_at_In & Hp). left. by exists r.
  - intros r [Hr _]%remove_at_In. right. exists r. by repeat split.
Qed.

(** What is done with a path of the row to be finished. *)
Lemma finish_row_tracked raw complete terminal q :
  (complete = true -> vouched raw /\ excused raw) -> (complete = false -> terminal = true -> excused raw) ->
  tracked q (after (finished [raw] complete now terminal) q).
Proof.
  intros Hv He [Hnd Hb Hrows Hfirst]. unfold after, finished. cbn [snd modify fold_left].
  set (f := fun r => if is_at raw r then attempted (done_code complete terminal) now r else r).
  assert (forall r, a_path (f r) = a_path r /\ a_priority (f r) = a_priority r /\ a_signature (f r) = a_signature r /\ a_observed (f r) = a_observed r) as Hf.
  { intros r. unfold f. by destruct (is_at raw r). }
  split; [split|split]; cbn [arrivals watermarks with_arrivals].
  - rewrite map_map. by rewrite (map_ext _ a_path) by (intros r; apply Hf).
  - intros p. specialize (Hb p). unfold priority_count in *.
    enough (length (List.filter (fun r => a_priority r =? p) (map f (arrivals q))) = length (List.filter (fun r => a_priority r =? p) (arrivals q))) as -> by done.
    clear -Hf. induction (arrivals q) as [|x l IH]; [done|]. cbn [map List.filter]. destruct (Hf x) as (_ & -> & _).
    destruct (_ =? p); cbn [length]; by rewrite IH.
  - intros r (x & <- & Hx)%in_map_iff. specialize (Hrows x Hx) as []. unfold f. destruct (is_at raw x); [|by split].
    split; cbn [attempted a_priority a_done a_attempts]; [done| |lia]. unfold done_code. destruct complete, terminal; lia.
  - done.
  - intros raw' (r & Hr & Hp & Hd). destruct (String.eqb_spec raw' raw) as [->|Hne].
    + destruct complete; [right; by apply Hv|]. destruct terminal; [right; by apply He|]. left.
      exists (f r). split; [by apply in_map|]. split; [by rewrite (proj1 (Hf r))|]. unfold f. by rewrite (proj2 (is_at_spec raw r) Hp).
    + left. exists (f r). split; [by apply in_map|]. split; [by rewrite (proj1 (Hf r))|]. unfold f.
      destruct (is_at raw r) eqn:E; [|done]. apply is_at_spec in E. congruence.
  - intros raw' (r & (x & <- & Hx)%in_map_iff & Hp & Hd). rewrite (proj1 (Hf x)) in Hp. unfold f in Hd.
    destruct (is_at raw x) eqn:E; [|left; by exists x]. apply is_at_spec in E. right. subst raw'. rewrite E.
    cbn [attempted a_done] in Hd. unfold done_code in Hd. destruct complete; [by apply Hv|]. by destruct terminal.
  - intros r (x & <- & Hx)%in_map_iff. right. exists x. split; [done|]. destruct (Hf x) as (Hp & _ & Hs & Ho). by repeat split.
Qed.

(** Files to be tried again. *)
Lemma finished_cons raw paths complete terminal q :
  after (finished (raw :: paths) complete now terminal) q = after (finished paths complete now terminal) (after (finished [raw] complete now terminal) q).
Proof. done. Qed.

Lemma retry_tracked paths : respects tracked (finished paths false now false).
Proof.
  induction paths as [|raw paths IH]; intros q.
  - unfold after, finished. cbn. destruct q. reflexivity.
  - rewrite finished_cons. etransitivity; [by apply (finish_row_tracked raw false false)|]. apply IH.
Qed.

(** [ready] drops a row only for one of the reasons. *)
Context (roots : list path) (f : fs)
  (Hroots : forall raw, allowed roots (parts_of raw) = false -> excused raw)
  (Hgone : forall raw, identity uid f (parts_of raw) = None -> excused raw).

Lemma ready_row_tracked row : respects tracked (ready_row uid f now roots row).
Proof.
  unfold ready_row. destruct (negb (allowed roots _)) eqn:Er.
  { apply negb_true_iff in Er. effects. apply delete_tracked. by apply Hroots. }
  destruct (identity uid f _) as [current|] eqn:Ei; [|effects; apply delete_tracked; by apply Hgone].
  destruct (String.eqb _ _); [effects|]. intros q Hq. unfold after, mbind, act_bind, gets.
  destruct (row_at _ (arrivals q)) as [r|] eqn:E; [|by split; [|apply accounted_refl]].
  apply row_at_Some in E as [Hin _]. pose proof (observe_tracked f (parts_of (a_path row)) (a_generation r) (a_priority r) q
    (priority_ok _ (rows_wf _ Hq r Hin)) Hq) as Ho.
  unfold after in Ho. by destruct (observe _ _ _ _ _ _ q) as [[b|e] q'].
Qed.

Lemma ready_tracked : respects tracked (ready uid f now roots).
Proof.
  unfold ready. effects. match goal with |- respects _ (ready_rows _ _ _ _ ?l) => generalize l end.
  intros rows. induction rows as [|row rows IH]; cbn [ready_rows]; effects; apply ready_row_tracked.
Qed.
End methods.

(** ** What [ready] returns *)

Section ready.
Context `{Sha256} (uid : Z) (f : fs) (now : Z) (roots : list path).

(** A file that has not changed since it was observed, at least the settling time
    ago. *)
Definition settled_file (rows : list arrival) (raw : string) : Prop :=
  exists row, In row rows /\ a_path row = raw /\ settled now row = true
    /\ allowed roots (parts_of raw) = true /\ identity uid f (parts_of raw) = Some (a_signature row).

Lemma settled_file_mono rows rows' raw : (forall r, In r rows -> In r rows') -> settled_file rows raw -> settled_file rows' raw.
Proof. intros Hsub (row & Hr & Hrest). exists row. auto. Qed.

Lemma ready_row_Ok row q l q' :
  settled now row = true -> ready_row uid f now roots row q = (Ok l, q') -> l = [] \/ (l = [a_path row] /\ settled_file [row] (a_path row)).
Proof.
  intros Hs. unfold ready_row. destruct (negb (allowed _ _)) eqn:Ea.
  { intros (u & q1 & _ & Hr)%act_bind_Ok. injection Hr as <- _. by left. }
  apply negb_false_iff in Ea. destruct (identity uid f _) as [current|] eqn:Ei.
  - destruct (String.eqb_spec current (a_signature row)) as [->|_].
    + intros [= <- _]. right. split; [done|]. exists row. auto with code.
    + intros (found & q1 & _ & Hr)%act_bind_Ok. destruct found; [|done].
      apply act_bind_Ok in Hr as (b & q2 & _ & Hr). injection Hr as <- _. by left.
  - intros (u & q1 & _ & Hr)%act_bind_Ok. injection Hr as <- _. by left.
Qed.

Lemma ready_rows_Ok rows q l q' :
  (forall r, In r rows -> settled now r = true) -> ready_rows uid f now roots rows q = (Ok l, q') ->
  (length l <= length rows)%nat /\ forall raw, In raw l -> settled_file rows raw.
Proof.
  revert q l q'; induction rows as [|row rows IH]; intros q l q' Hs; cbn [ready_rows].
  - intros [= <- _]. split; [done|]. by intros raw [].
  - intros (a & q1 & Ha & Hr)%act_bind_Ok. apply act_bind_Ok in Hr as (b & q2 & Hb & Hr). injection Hr as <- _.
    apply ready_row_Ok in Ha; [|apply Hs; by left]. destruct (IH _ _ _ (fun r Hr => Hs r (or_intror Hr)) Hb) as [Hlen Hall].
    rewrite length_app. destruct Ha as [->|[-> Hrow]].
    + split; [cbn; lia|]. intros raw Hin. eapply settled_file_mono; [|by apply Hall]. auto with code.
    + split; [cbn; lia|]. intros raw [<-|Hin]; (eapply settled_file_mono; [|done || by apply Hall]); [|auto with code].
      intros r [<-|[]]. by left.
Qed.

Lemma ready_Ok q l q' :
  ready uid f now roots q = (Ok l, q') -> (length l <= READY_LIMIT)%nat /\ forall raw, In raw l -> settled_file (arrivals q) raw.
Proof.
  unfold ready. intros (rows & q1 & Hrows & Hr)%act_bind_Ok. injection Hrows as <- <-.
  assert (forall r, In r (due_rows now READY_LIMIT (arrivals q)) -> In r (arrivals q) /\ settled now r = true) as Hsub.
  { unfold due_rows. intros r Hin. assert (In r (sort_by served_before (List.filter (settled now) (arrivals q)))) as Hin'
      by (rewrite <- (take_drop READY_LIMIT (sort_by served_before (List.filter (settled now) (arrivals q)))); apply in_or_app; by left).
    by apply sort_by_In, filter_In in Hin'. }
  apply ready_rows_Ok in Hr as [Hlen Hall]; [|intros r Hin; by apply Hsub]. split.
  - etransitivity; [exact Hlen|]. unfold due_rows. rewrite length_take. lia.
  - intros raw Hin. eapply settled_file_mono; [|by apply Hall]. intros r Hr'. by apply Hsub.
Qed.

(** What has an identity. *)
Lemma identity_Some p s :
  identity uid f p = Some s ->
  exists n, lstat f p = Ok n /\ n_kind n = Regular /\ n_uid n = uid /\ st_size n <= MAX_FILE_BYTES /\ s = sha256 (stat_text n)
    /\ partial_name (last_name p) = false /\ forall q, In q (steps_of p) -> path_is_link f q = false.
Proof.
  unfold identity. destruct (partial_name _); [done|]. destruct (existsb _ _) eqn:El; [done|].
  destruct (lstat f p) as [n|]; [|done]. destruct (_ || _) eqn:E; [done|]. intros [= <-]. split_bool. zify_bool.
  exists n. unfold is_reg_node in *. split; [done|]. split; [by destruct (n_kind n)|]. do 3 (split; [done|]).
  split; [done|]. by apply existsb_not_In.
Qed.
End ready.
