(* ===== verification/ArrivalScanner.v ===== *)
(** * The arrival scanner ([arrival_scanner.py], [ArrivalScanner])

    The observer of arriving files: the watched directories and the events they
    report, the walks over the roots, which are kept between the slices of work,
    and the worker that hands batches of settled files to the scanner. The
    callbacks of the main loop run beside the worker; those that run while it
    waits for the scanner are an argument of the turn. What the desktop and the
    scanner answer is an argument too. Within one turn the clock stands still and
    the disk does not change. *)
From S2P Require Import Prelude PyVal PyStr Json PyText Files ScanReceipts ArrivalQueue.

Definition MAX_MONITORS : nat := 512.
Definition MAX_EVENTS : nat := 2048.
Definition MAX_ENTRIES : nat := Z.to_nat 16384.
Definition MAX_PENDING : nat := Z.to_nat 8192.
Definition WALK_BUDGET : nat := 1024.
Definition WALK_SECONDS : Z := 600.

(** The generator of [_walk_entries]: what [itertools.chain] puts before it, the
    entries left of the directory it is in, and the directories left, the last
    of the list of the code first. *)
Record cursor := Cursor { k_back : list (path * node); k_entries : list (path * node); k_pending : list path }.

(** A walk: when it started, since when files count, and its generator. *)
Record walk_state := WalkState { k_started : Z; k_since : Z; k_cursor : cursor }.

Record status := Status { u_state : string; u_pending : Z; u_detail : string }.

(** The observer with the local variables of its worker and the database.
    [s_idle] are the directories handed to [GLib.idle_add]. *)
Record scanner := Scanner {
  s_queue : queue; s_fixed : list path; s_roots : list path; s_monitors : list path; s_idle : list path; s_events : list path;
  s_walks : list (path * walk_state); s_wake : bool; s_status : status;
  s_proxy : bool; s_active : option string; s_paths : list string; s_next_walk : Z; s_generation : option string }.

Definition with_queue q (s : scanner) : scanner := Scanner q (s_fixed s) (s_roots s) (s_monitors s) (s_idle s) (s_events s) (s_walks s) (s_wake s) (s_status s) (s_proxy s) (s_active s) (s_paths s) (s_next_walk s) (s_generation s).
Definition with_roots r m (s : scanner) : scanner := Scanner (s_queue s) (s_fixed s) r m (s_idle s) (s_events s) (s_walks s) (s_wake s) (s_status s) (s_proxy s) (s_active s) (s_paths s) (s_next_walk s) (s_generation s).
Definition with_monitors m i (s : scanner) : scanner := Scanner (s_queue s) (s_fixed s) (s_roots s) m i (s_events s) (s_walks s) (s_wake s) (s_status s) (s_proxy s) (s_active s) (s_paths s) (s_next_walk s) (s_generation s).
Definition with_arrived e (s : scanner) : scanner := Scanner (s_queue s) (s_fixed s) (s_roots s) (s_monitors s) (s_idle s) e (s_walks s) (s_wake s) (s_status s) (s_proxy s) (s_active s) (s_paths s) (s_next_walk s) (s_generation s).
Definition with_walks w i (s : scanner) : scanner := Scanner (s_queue s) (s_fixed s) (s_roots s) (s_monitors s) i (s_events s) w (s_wake s) (s_status s) (s_proxy s) (s_active s) (s_paths s) (s_next_walk s) (s_generation s).
Definition with_wake b (s : scanner) : scanner := Scanner (s_queue s) (s_fixed s) (s_roots s) (s_monitors s) (s_idle s) (s_events s) (s_walks s) b (s_status s) (s_proxy s) (s_active s) (s_paths s) (s_next_walk s) (s_generation s).
Definition with_status u (s : scanner) : scanner := Scanner (s_queue s) (s_fixed s) (s_roots s) (s_monitors s) (s_idle s) (s_events s) (s_walks s) (s_wake s) u (s_proxy s) (s_active s) (s_paths s) (s_next_walk s) (s_generation s).
Definition with_proxy b (s : scanner) : scanner := Scanner (s_queue s) (s_fixed s) (s_roots s) (s_monitors s) (s_idle s) (s_events s) (s_walks s) (s_wake s) (s_status s) b (s_active s) (s_paths s) (s_next_walk s) (s_generation s).
Definition with_active a p (s : scanner) : scanner := Scanner (s_queue s) (s_fixed s) (s_roots s) (s_monitors s) (s_idle s) (s_events s) (s_walks s) (s_wake s) (s_status s) (s_proxy s) a p (s_next_walk s) (s_generation s).
Definition with_clock n g (s : scanner) : scanner := Scanner (s_queue s) (s_fixed s) (s_roots s) (s_monitors s) (s_idle s) (s_events s) (s_walks s) (s_wake s) (s_status s) (s_proxy s) (s_active s) (s_paths s) n g.

Definition on_queue {A} (m : act queue A) : act scanner A := fun s => let '(r, q) := m (s_queue s) in (r, with_queue q s).

(** [_state(state, pending, detail)], [snapshot()]. *)
Definition set_state (state : string) (pending : Z) (detail : string) : act scanner unit := modify (with_status (Status state pending detail)).

Definition snapshot (s : scanner) : dict :=
  dlit [("state", VStr (u_state (s_status s))); ("pending", VInt (u_pending (s_status s))); ("detail", VStr (u_detail (s_status s)))].

Definition known (p : path) (l : list path) : bool := existsb (fun q => bool_decide (q = p)) l.
Definition add_path (p : path) (l : list path) : list path := if known p l then l else l ++ [p].

(** ** Callbacks of the main loop *)

(** [_watch(path)]: [watchable] says whether a monitor can be made. *)
Definition _watch (watchable : path -> bool) (p : path) : act scanner unit :=
  modify (fun s =>
    if known p (s_monitors s) || (MAX_MONITORS <=? length (s_monitors s))%nat || negb (allowed (s_roots s) p) || negb (watchable p) then s
    else with_monitors (s_monitors s ++ [p]) (s_idle s) s).

(** [_changed(monitor, file, other, event)]. *)
Definition _changed (items : list (option string)) : act scanner unit :=
  each (fun item =>
    match item with
    | None | Some "" => mret tt
    | Some raw => modify (fun s => if (length (s_events s) <? MAX_EVENTS)%nat then with_arrived (add_path (parts_of raw) (s_events s)) s else s)
    end) items.

(** The objects of UDisks, with the bus of a drive and the drive and the device
    of a block, whose name need not be text, and the mounts, with the device of
    their volume and their root. *)
Record udisks_object := UdisksObject { o_path : string; o_bus : option string; o_block : option (string * res string) }.
Record mount := Mount { m_device : option string; m_root : option string }.

Definition usb_drive (objects : list udisks_object) (drive : string) : bool :=
  match List.find (fun o => String.eqb (o_path o) drive) objects with
  | Some o => match o_bus o with Some bus => String.eqb bus "usb" | None => false end
  | None => false
  end.

Definition usb_devices (objects : list udisks_object) : res (list string) :=
  foldM (fun l o =>
    match o_block o with
    | Some (drive, device) => if usb_drive objects drive then name ← device; Ok (l ++ [name]) else Ok l
    | None => Ok l
    end) [] objects.

Definition mounted_root (devices : list string) (m : mount) : option path :=
  match m_root m, m_device m with
  | Some raw, Some device => if negb (String.eqb raw "") && member device devices then Some (parts_of raw) else None
  | _, _ => None
  end.

(** The roots of [_refresh_mounts]: a failure of the query accepts none but the
    fixed ones. *)
Definition verified_roots (fixed : list path) (objects : res (list udisks_object)) (mounts : list mount) : list path :=
  match objects ≫= usb_devices with
  | Ok devices => fold_left (fun l p => add_path p l) (omap (mounted_root devices) mounts) fixed
  | Err _ => fixed
  end.

Fixpoint path_compare (p q : path) : comparison :=
  match p, q with
  | [], [] => Eq
  | [], _ => Lt
  | _, [] => Gt
  | c :: p, d :: q => match String.compare c d with Eq => path_compare p q | r => r end
  end.

Definition path_before (p q : path) : bool := match path_compare p q with Gt => false | _ => true end.

(** [next((path for path in self._monitors if path not in roots), None)]. *)
Fixpoint drop_child (roots monitors : list path) : list path :=
  match monitors with
  | [] => []
  | p :: monitors => if known p roots then p :: drop_child roots monitors else monitors
  end.

Definition watch_root (watchable : path -> bool) (roots : list path) (root : path) : act scanner unit :=
  _ ← modify (fun s => if negb (known root (s_monitors s)) && (MAX_MONITORS <=? length (s_monitors s))%nat
                       then with_monitors (drop_child roots (s_monitors s)) (s_idle s) s else s);
  _watch watchable root.

(** [_refresh_mounts()]. *)
Definition _refresh_mounts (watchable : path -> bool) (objects : res (list udisks_object)) (mounts : list mount) : act scanner unit :=
  fixed ← gets s_fixed;
  let roots := verified_roots fixed objects mounts in
  _ ← modify (fun s => with_roots roots (List.filter (allowed roots) (s_monitors s)) s);
  _ ← each (watch_root watchable roots) (sort_by path_before roots);
  modify (with_wake true).

(** What the main loop may run. *)
Inductive callback :=
| Changed (items : list (option string))
| Mounts (watchable : path -> bool) (objects : res (list udisks_object)) (mounts : list mount)
| Idle (watchable : path -> bool).

(** The oldest idle request. *)
Definition watch_idle (watchable : path -> bool) : act scanner unit :=
  idle ← gets s_idle;
  match idle with
  | [] => mret tt
  | p :: rest => _ ← modify (fun s => with_monitors (s_monitors s) rest s); _watch watchable p
  end.

Definition run_callback (c : callback) : act scanner unit :=
  match c with
  | Changed items => _changed items
  | Mounts watchable objects mounts => _refresh_mounts watchable objects mounts
  | Idle watchable => watch_idle watchable
  end.

(** ** Walks *)

(** The entries of a directory, links and hidden names left out; a directory
    that cannot be read has none. *)
Definition shown_entry (f : fs) (d : path) (name : string) : bool := negb (path_is_link f (d ++ [name])) && negb (startswith "." name).

Definition read_directory (f : fs) (d : path) : list (path * node) :=
  match scandir f d with
  | Err _ => []
  | Ok names =>
      match mapM_res (fun name => n ← lstat f (d ++ [name]); Ok (d ++ [name], n)) (List.filter (shown_entry f d) (take MAX_ENTRIES names)) with
      | Ok entries => entries
      | Err _ => []
      end
  end.

(** What a generator yields: a directory it will enter, or a file. *)
Inductive yielded := Entered | Found (p : path) (n : node).

(** The next entry of the current directory. *)
Fixpoint next_entry (entries : list (path * node)) (pending : list path) : option (yielded * cursor) :=
  match entries with
  | [] => None
  | (p, n) :: entries =>
      if is_dir_node n then Some (Entered, Cursor [] entries (if (length pending <? MAX_PENDING)%nat then p :: pending else pending))
      else if is_reg_node n then Some (Found p n, Cursor [] entries pending)
      else next_entry entries pending
  end.

(** The directories left, with those that are opened. *)
Fixpoint next_directory (f : fs) (pending : list path) : option (yielded * cursor) * list path :=
  match pending with
  | [] => (None, [])
  | d :: pending =>
      match next_entry (read_directory f d) pending with
      | Some r => (Some r, [d])
      | None => let '(r, opened) := next_directory f pending in (r, d :: opened)
      end
  end.

(** [next(entries)]: [None] is StopIteration. *)
Definition next_of (f : fs) (c : cursor) : option (yielded * cursor) * list path :=
  match k_back c with
  | (p, n) :: back => (Some (Found p n, Cursor back (k_entries c) (k_pending c)), [])
  | [] =>
      match next_entry (k_entries c) (k_pending c) with
      | Some r => (Some r, [])
      | None => next_directory f (k_pending c)
      end
  end.

Definition walk_of (root : path) (l : list (path * walk_state)) : option walk_state :=
  snd <$> List.find (fun w => bool_decide (w.1 = root)) l.

Definition set_walk (root : path) (w : walk_state) (l : list (path * walk_state)) : list (path * walk_state) :=
  match walk_of root l with
  | Some _ => map (fun x => if bool_decide (x.1 = root) then (root, w) else x) l
  | None => l ++ [(root, w)]
  end.

Definition drop_walk (root : path) (l : list (path * walk_state)) : list (path * walk_state) :=
  List.filter (fun x => negb (bool_decide (x.1 = root))) l.

Section scanner.
Context `{FloatText} `{Sha256} (uid : Z).

(** [_walk(roots, queue, generation)]. *)
Definition _walk (now : Z) (roots : list path) : act scanner unit :=
  each (fun root =>
    walks ← gets s_walks;
    match walk_of root walks with
    | Some _ => mret tt
    | None =>
        fixed ← gets s_fixed;
        t ← on_queue (since root (known root fixed));
        modify (fun s => with_walks (set_walk root (WalkState now t (Cursor [] [] [root])) (s_walks s)) (s_idle s) s)
    end) roots.

(** The slice of one root within the budget: what is left of it. *)
Fixpoint walk_root (f : fs) (now : Z) (generation : string) (root : path) (w : walk_state) (budget : nat) : act scanner nat :=
  match budget with
  | O => mret O
  | S remaining =>
      let '(r, opened) := next_of f (k_cursor w) in
      _ ← modify (fun s => with_walks (s_walks s) (s_idle s ++ opened) s);
      match r with
      | None =>
          _ ← modify (fun s => with_walks (drop_walk root (s_walks s)) (s_idle s) s);
          _ ← on_queue (walked root (k_started w)); mret budget
      | Some (e, c) =>
          let w' := WalkState (k_started w) (k_since w) c in
          _ ← modify (fun s => with_walks (set_walk root w' (s_walks s)) (s_idle s) s);
          match e with
          | Found p n =>
              if k_since w <=? Z.max (n_mtime n) (n_ctime n) then
                home ← gets (fun s => allowed (s_fixed s) p);
                taken ← on_queue (observe uid f p generation now (if home : bool then 1 else 0));
                if taken : bool then walk_root f now generation root w' remaining
                else
                  let c' := Cursor ((p, n) :: k_back c) (k_entries c) (k_pending c) in
                  _ ← modify (fun s => with_walks (set_walk root (WalkState (k_started w) (k_since w) c') (s_walks s)) (s_idle s) s);
                  mret remaining
              else walk_root f now generation root w' remaining
          | Entered => walk_root f now generation root w' remaining
          end
      end
  end.

(** The order of the walks: those of the fixed roots first, then the newest. *)
Definition walk_before (fixed : list path) (a b : path * walk_state) : bool :=
  let home w := allowed fixed (fst w) in
  if Bool.eqb (home a) (home b) then k_started b.2 <=? k_started a.2 else home a.

Fixpoint walk_roots (f : fs) (now : Z) (generation : string) (roots : list path) (ordered : list (path * walk_state)) (budget : nat) : act scanner unit :=
  match ordered with
  | [] => mret tt
  | (root, w) :: ordered =>
      if negb (allowed roots root)
      then _ ← modify (fun s => with_walks (drop_walk root (s_walks s)) (s_idle s) s); walk_roots f now generation roots ordered budget
      else
        remaining ← walk_root f now generation root w budget;
        if (remaining =? 0)%nat then mret tt else walk_roots f now generation roots ordered remaining
  end.

(** [_walk_step(roots, queue, generation)]. *)
Definition _walk_step (f : fs) (now : Z) (generation : string) (roots : list path) : act scanner unit :=
  ordered ← gets (fun s => sort_by (walk_before (s_fixed s)) (s_walks s)); walk_roots f now generation roots ordered WALK_BUDGET.

(** ** The worker *)

(** What a turn meets: the connection to the scanner, its replies, the disk, the
    two clocks and what the main loop runs while the worker waits for a reply. *)
Record turn_host := TurnHost {
  h_connect : res unit; h_scan : string -> res string; h_clamav : res string; h_receipts : list string -> res string;
  h_start : list string -> res string; h_disk : fs; h_now : Z; h_monotonic : Z; h_meanwhile : list callback }.

Definition ACTIVE_SCAN : list string := ["QUEUED"; "SCANNING"; "FINALIZING"].

(** [json.loads(str(...))], whose result must answer [get]. *)
Definition reply (text : res string) : res dict := t ← text; v ← loads t; as_dict v.

Definition length_of (v : val) : res Z :=
  match v with
  | VList l => Ok (Z.of_nat (length l))
  | VDict d => Ok (Z.of_nat (length d))
  | VStr s => Ok (str_len s)
  | _ => Err TypeError
  end.

(** [{item['path']: item['info'] for item in items}]: keys that are no texts match
    no path. *)
Definition receipt_item (l : list (string * val)) (v : val) : res (list (string * val)) :=
  match v with
  | VDict d =>
      p ← item "path" d; info ← item "info" d;
      match p with
      | VStr raw => Ok (dset raw info l)
      | VList _ | VDict _ => Err TypeError
      | _ => Ok l
      end
  | _ => Err TypeError
  end.

Definition receipts (h : turn_host) (paths : list string) : res (list (string * val)) :=
  result ← reply (h_receipts h paths);
  _ ← require (is_str "AVAILABLE" (get "state" result)) (ValueError "Scan receipt batch unavailable");
  n ← length_of (getd "items" (VList []) result);
  _ ← require (n =? Z.of_nat (length paths)) (ValueError "Scan receipt batch unavailable");
  items ← item "items" result;
  match items with
  | VList items => foldM receipt_item [] items
  | v => if truthy v then Err TypeError else Ok []
  end.

(** [batch[raw]], which must answer [get]. *)
Definition receipt_for (raw : string) (batch : list (string * val)) : res dict :=
  match dget raw batch with Some v => as_dict v | None => Err (KeyError raw) end.

Definition is_valid (receipt : dict) : bool := is_str "VALID" (get "validity" receipt).
Definition waits_for_change (receipt : dict) : bool := is_str "ON_CHANGE" (get "retry_policy" receipt).

(** The scan in flight: its status, and when it has ended the receipts. *)
Definition settle_scan (h : turn_host) (operation : string) (paths : list string) : act scanner unit :=
  n ← gets (fun s => pending (s_queue s));
  _ ← set_state "SCANNING" n "Scanning a batch of stable arriving files.";
  result ← lift (reply (h_scan h operation));
  running ← lift (in_set ACTIVE_SCAN (get "state" result));
  if running : bool then mret tt
  else
    batch ← lift (receipts h paths);
    _ ← each (fun raw =>
          receipt ← lift (receipt_for raw batch);
          on_queue (finished [raw] (is_valid receipt) (h_now h) (waits_for_change receipt))) paths;
    _ ← on_queue clear_inflight;
    modify (with_active None []).

(** The walks that are due, and the definitions. *)
Definition refresh (h : turn_host) (roots : list path) (current : string) : act scanner unit :=
  due ← gets (fun s => s_wake s || (s_next_walk s <=? h_monotonic h) || negb (bool_decide (s_generation s = Some current)));
  if due : bool then
    _ ← modify (with_wake false);
    generation ← gets s_generation;
    _ ← when (negb (bool_decide (generation = Some current))) (on_queue (definitions_changed current));
    _ ← modify (fun s => with_clock (s_next_walk s) (Some current) s);
    _ ← _walk (h_now h) roots;
    modify (fun s => with_clock (h_monotonic h + WALK_SECONDS * SECOND) (s_generation s) s)
  else mret tt.

(** An event of a watched directory. *)
Definition path_is_dir (f : fs) (p : path) : bool := match stat f p with Ok n => is_dir_node n | Err _ => false end.

Definition take_event (h : turn_host) (roots : list path) (current : string) (p : path) : act scanner unit :=
  if allowed roots p then
    if path_is_dir (h_disk h) p && negb (path_is_link (h_disk h) p) then _walk (h_now h) [p]
    else _ ← on_queue (observe uid (h_disk h) p current (h_now h) 1); mret tt
  else mret tt.

(** The settled files without a receipt. *)
Fixpoint unscanned (h : turn_host) (batch : list (string * val)) (paths : list string) : act scanner (list string) :=
  match paths with
  | [] => mret []
  | raw :: paths =>
      receipt ← lift (receipt_for raw batch);
      if is_valid receipt then _ ← on_queue (finished [raw] true (h_now h) false); unscanned h batch paths
      else if waits_for_change receipt then _ ← on_queue (finished [raw] false (h_now h) true); unscanned h batch paths
      else rest ← unscanned h batch paths; mret (raw :: rest)
  end.

(** [result.get('operation_id')]: the service answers a text or null. *)
Definition operation_of (result : dict) : option string :=
  match get "operation_id" result with VStr s => if String.eqb s "" then None else Some s | _ => None end.

Definition start_batch (h : turn_host) (paths : list string) : act scanner unit :=
  result ← lift (reply (h_start h paths));
  match operation_of result with
  | Some operation => _ ← modify (with_active (Some operation) paths); on_queue (set_inflight operation paths)
  | None => _ ← modify (with_active None paths); on_queue (finished paths false (h_now h) false)
  end.

Definition OBSERVING : string := "Observing Downloads, Desktop and verified mounted USB storage, within scan limits.".

(** The files that are handed to the scanner in this turn. *)
Definition next_batch (h : turn_host) (roots : list path) (changed : list path) (current : string) : act scanner (list string) :=
  _ ← refresh h roots current;
  _ ← each (take_event h roots current) changed;
  _ ← _walk_step (h_disk h) (h_now h) current roots;
  _ ← modify (with_active None []);
  settled ← on_queue (ready uid (h_disk h) (h_now h) roots);
  batch ← (match settled with [] => mret [] | _ => lift (receipts h settled) end);
  unscanned h batch settled.

Definition observe_turn (h : turn_host) (roots : list path) (changed : list path) : act scanner unit :=
  info ← lift (reply (h_clamav h));
  _ ← each run_callback (h_meanwhile h);
  match generation info with
  | Some current =>
      if is_str "CURRENT" (get "status" info) then
        paths ← next_batch h roots changed current;
        _ ← when (negb (length paths =? 0)%nat) (start_batch h paths);
        n ← gets (fun s => pending (s_queue s));
        active ← gets s_active;
        set_state (match active with Some _ => "SCANNING" | None => "WATCHING" end) n OBSERVING
      else set_state "PAUSED" 0 "Arrival scanning is waiting for current definitions and the scanner."
  | None => set_state "PAUSED" 0 "Arrival scanning is waiting for current definitions and the scanner."
  end.

(** The body of the loop of [_worker]: with a connection, the scan in flight or
    the events taken under the lock. *)
Definition worker_turn (h : turn_host) : act scanner unit :=
  roots ← gets s_roots;
  active ← gets s_active;
  match active with
  | Some operation => paths ← gets s_paths; settle_scan h operation paths
  | None =>
      changed ← gets s_events;
      _ ← modify (with_arrived []);
      observe_turn h roots changed
  end.

Definition attempt (h : turn_host) : act scanner unit :=
  connected ← gets s_proxy;
  _ ← (if connected : bool then mret tt else _ ← lift (h_connect h); modify (with_proxy true));
  worker_turn h.

(** [except (dbus.DBusException, OSError, ValueError, sqlite3.Error)]. *)
Definition turn_caught (e : exn) : bool := is_os_error e || is_value_error e || match e with ProviderError _ => true | _ => false end.

Definition paused (e : exn) : act scanner unit :=
  _ ← modify (with_proxy false); set_state "PAUSED" 0 "Scanner unavailable; the persistent queue will retry.".

(** [_worker()] from its start: the queue is opened again. *)
Definition start_worker (now : Z) : act scanner unit :=
  modify (fun s =>
    let q := opened now (s_queue s) in
    let '(active, paths) := inflight q in
    with_clock 0 None (with_active active paths (with_proxy false (with_queue q s)))).

(** One turn of [_run]: an exception the worker does not catch starts it
    again. *)
Definition turn (h : turn_host) : act scanner unit :=
  ((attempt h except turn_caught => paused)
    except (fun _ => true) => (fun _ =>
      _ ← set_state "PAUSED" 0 "The arrival observer will retry automatically in one minute."; start_worker (h_now h)))%act.

(** [start()] with the directories of the desktop there are, on the database of
    an earlier session; the worker is a thread of its own. *)
Definition STARTING : status := Status "STARTING" 0 "Waiting for the arrival observer.".

Definition started_observer (now : Z) (fixed : list path) (q : queue) (watchable : path -> bool) (objects : res (list udisks_object)) (mounts : list mount) : scanner :=
  after (start_worker now) (after (_refresh_mounts watchable objects mounts) (Scanner q fixed fixed [] [] [] [] false STARTING false None [] 0 None)).
End scanner.

#[global] Arguments turn : simpl never.
