(* ===== verification/ArrivalWalks.v ===== *)
(** * The walks of the arrival scanner

    The generator of a walk, run to its end on a disk that does not change: it
    ends, and it finds the regular files below its root that are reached without
    a link and without a hidden name. *)
From S2P Require Import Prelude PyVal PyStr PyText Files ScanAccess ScanAccessProps ScanReceipts ArrivalQueue ArrivalScanner.

(** ** The generator to its end *)

Fixpoint drain (fuel : nat) (f : fs) (c : cursor) : option (list (path * node)) :=
  match fuel with
  | O => None
  | S fuel =>
      match (next_of f c).1 with
      | None => Some []
      | Some (Found p n, c) => (fun l => (p, n) :: l) <$> drain fuel f c
      | Some (Entered, c) => drain fuel f c
      end
  end.

Definition start_cursor (root : path) : cursor := Cursor [] [] [root].

(** ** The disk *)

Definition shallow (f : fs) : Prop := forall p n, f !! p = Some n -> (length p < WALK)%nat.
Definition narrow (f : fs) : Prop := forall d, (length (children f d) <= MAX_ENTRIES)%nat.
Definition directories (f : fs) : nat := length (List.filter (fun kn => is_dir_node kn.2) (map_to_list f)).

Definition unhidden (name : string) : bool := negb (startswith "." name).

(** A regular file below the root without a hidden name on the way. *)
Definition visible (f : fs) (root p : path) (n : node) : Prop :=
  exists rel, p = root ++ rel /\ rel <> [] /\ forallb unhidden rel = true /\ f !! p = Some n /\ is_reg_node n = true.

Section disk.
Context (f : fs) (Hnamed : well_named f) (Hdirs : in_directories f) (Hshallow : shallow f).

Lemma parent_dir p c n : f !! (p ++ [c]) = Some n -> p <> [] -> exists m, f !! p = Some m /\ is_dir_node m = true.
Proof. intros Hn Hp. destruct (Hdirs p c n Hn) as (m & Hm & Hd). rewrite node_at_below in Hm by done. by exists m. Qed.

Lemma prefix_dir x y n : f !! (x ++ y) = Some n -> x <> [] -> y <> [] -> exists m, f !! x = Some m /\ is_dir_node m = true.
Proof.
  revert n; induction y as [|c y IH] using rev_ind; intros n Hn Hx Hy; [done|]. rewrite app_assoc in Hn.
  destruct (decide (y = [])) as [->|Hne].
  - rewrite app_nil_r in Hn. by apply (parent_dir x c n).
  - destruct (parent_dir (x ++ y) c n Hn) as (m & Hm & _); [by destruct x|]. by apply (IH m).
Qed.

(** The walk to an entry of the disk. *)
Lemma walk_to fuel follow here todo n :
  plain todo = true -> f !! (here ++ todo) = Some n -> todo <> [] -> (length todo < fuel)%nat ->
  follow = false \/ is_link_node n = false -> walk fuel f follow here todo = Ok (here ++ todo).
Proof.
  revert here fuel; induction todo as [|c rest IH]; intros here fuel Hplain Hn Hne Hfuel Hlast; [done|].
  destruct fuel as [|fuel]; [lia|]. cbn [plain forallb length] in *. apply andb_true_iff in Hplain as [Hc Hplain]. apply negb_true_iff in Hc.
  cbn [walk]. rewrite Hc. destruct rest as [|c' rest].
  - rewrite Hn. cbn [length Nat.eqb andb]. unfold is_link_node in Hlast.
    destruct (n_kind n) eqn:Ek; [done| |destruct Hlast as [->|]; done|done]. destruct fuel as [|fuel]; [lia|]. done.
  - rewrite (cons_middle c here (c' :: rest)) in Hn |- *.
    destruct (prefix_dir _ _ _ Hn ltac:(by destruct here) ltac:(done)) as (m & Hm & Hd). rewrite Hm.
    unfold is_dir_node in Hd. destruct (n_kind m); try done. apply IH; [done|done|done|cbn in *; lia|done].
Qed.

Lemma lstat_entry p n : f !! p = Some n -> p <> [] -> lstat f p = Ok n.
Proof.
  intros Hn Hp. apply lstat_walk. exists p. rewrite node_at_below by done. split; [|done].
  apply (walk_to WALK false [] p n); [by apply (Hnamed p n)|done|done|by apply (Hshallow p n)|by left].
Qed.

Lemma scandir_entry d n : f !! d = Some n -> d <> [] -> is_dir_node n = true -> scandir f d = Ok (names_of f d).
Proof.
  intros Hn Hd Hk. unfold scandir.
  assert (walk WALK f true [] d = Ok d) as ->.
  { apply (walk_to WALK true [] d n); [by apply (Hnamed d n)|done|done|by apply (Hshallow d n)|].
    right. unfold is_dir_node, is_link_node in *. by destruct (n_kind n). }
  cbn [mbind res_bind]. rewrite node_at_below by done. by rewrite Hn, Hk.
Qed.

Lemma children_filter d : children f d = List.filter (fun k => bool_decide (removelast k = d) && negb (bool_decide (k = []))) (map fst (map_to_list f)).
Proof.
  unfold children. generalize (map_to_list f). intros l. induction l as [|[k n] l IH]; [done|]. cbn. destruct (_ && _); cbn; by rewrite IH.
Qed.

Lemma child_parts d k : In k (children f d) -> k = d ++ [List.last k ""] /\ exists n, f !! k = Some n.
Proof.
  rewrite children_filter. intros [Hin Hk]%filter_In. apply andb_true_iff in Hk as [Hr Hne].
  apply bool_decide_eq_true in Hr. apply negb_true_iff, bool_decide_eq_false in Hne. split.
  - rewrite <- Hr. by apply app_removelast_last.
  - apply in_map_iff in Hin as ([k' n] & <- & Hin). exists n. by apply elem_of_map_to_list, list_elem_of_In.
Qed.

Lemma NoDup_children d : NoDup (children f d).
Proof.
  rewrite children_filter. apply NoDup_ListNoDup, List.NoDup_filter, NoDup_ListNoDup, NoDup_fst_map_to_list.
Qed.

(** ** A directory *)

Definition entry_of (k : path) : option (path * node) :=
  match f !! k with
  | Some n => if negb (is_link_node n) && unhidden (List.last k "") then Some (k, n) else None
  | None => None
  end.

Lemma read_entries d ks :
  (forall k, In k ks -> In k (children f d)) ->
  mapM_res (fun name => n ← lstat f (d ++ [name]); Ok (d ++ [name], n)) (List.filter (shown_entry f d) (map (fun k => List.last k "") ks)) = Ok (omap entry_of ks).
Proof.
  induction ks as [|k ks IH]; intros Hks; [done|]. destruct (child_parts d k) as [Hk [n Hn]]; [by apply Hks; left|].
  assert (lstat f k = Ok n) as Hl by (apply lstat_entry; [done|rewrite Hk; by destruct d]).
  assert (omap entry_of (k :: ks) = match entry_of k with Some e => e :: omap entry_of ks | None => omap entry_of ks end) as -> by done.
  cbn [map List.filter]. unfold shown_entry at 1. rewrite <- Hk. unfold path_is_link. rewrite Hl. unfold entry_of at 1. rewrite Hn. fold (unhidden (List.last k "")).
  destruct (negb _ && _); [|apply IH; intros x Hx; apply Hks; by right]. cbn [mapM_res]. rewrite <- Hk, Hl. cbn [mbind res_bind].
  rewrite IH; [done|]. intros x Hx. apply Hks. by right.
Qed.

Lemma read_directory_entries d n :
  f !! d = Some n -> d <> [] -> is_dir_node n = true -> read_directory f d = omap entry_of (take MAX_ENTRIES (children f d)).
Proof.
  intros Hn Hd Hk. unfold read_directory. rewrite (scandir_entry d n Hn Hd Hk). unfold names_of. rewrite firstn_map.
  rewrite read_entries; [done|]. intros k Hin. rewrite <- (take_drop MAX_ENTRIES (children f d)). apply in_or_app. by left.
Qed.

Lemma read_directory_In d n p m :
  f !! d = Some n -> d <> [] -> is_dir_node n = true -> In (p, m) (read_directory f d) ->
  exists name, p = d ++ [name] /\ f !! p = Some m /\ is_link_node m = false /\ unhidden name = true.
Proof.
  intros Hn Hd Hk. rewrite (read_directory_entries d n) by done. intros Hin.
  apply list_elem_of_In, list_elem_of_omap in Hin as (k & Hin & He). apply list_elem_of_In in Hin.
  assert (In k (children f d)) as Hc by (rewrite <- (take_drop MAX_ENTRIES (children f d)); apply in_or_app; by left).
  apply child_parts in Hc as [Hp [m' Hm]]. unfold entry_of in He. rewrite Hm in He. destruct (_ && _) eqn:E; [|done]. injection He as <- <-.
  exists (List.last k ""). split_bool. auto.
Qed.

Lemma read_directory_has d n name m :
  narrow f -> f !! d = Some n -> d <> [] -> is_dir_node n = true -> f !! (d ++ [name]) = Some m -> is_link_node m = false -> unhidden name = true ->
  In (d ++ [name], m) (read_directory f d).
Proof.
  intros Hnarrow Hn Hd Hk Hm Hl Hu. rewrite (read_directory_entries d n) by done. rewrite (firstn_all2 (children f d)) by apply Hnarrow.
  apply list_elem_of_In, list_elem_of_omap. exists (d ++ [name]). split; [by apply list_elem_of_In, (children_In f d name m)|].
  unfold entry_of. by rewrite Hm, Hl, last_last, Hu.
Qed.

Lemma NoDup_entries d n : f !! d = Some n -> d <> [] -> is_dir_node n = true -> NoDup (map fst (read_directory f d)).
Proof.
  intros Hn Hd Hk. rewrite (read_directory_entries d n) by done.
  assert (NoDup (take MAX_ENTRIES (children f d))) as Hnd.
  { pose proof (NoDup_children d) as Hall. rewrite <- (take_drop MAX_ENTRIES (children f d)) in Hall. by apply NoDup_app in Hall as [? _]. }
  revert Hnd. generalize (take MAX_ENTRIES (children f d)). intros ks. induction ks as [|k ks IH]; [done|]. intros [Hk' Hnd]%NoDup_cons.
  assert (omap entry_of (k :: ks) = match entry_of k with Some e => e :: omap entry_of ks | None => omap entry_of ks end) as -> by done.
  destruct (entry_of k) as [[k1 m]|] eqn:E; [|by apply IH]. cbn [map fst]. apply NoDup_cons. split; [|by apply IH].
  assert (k1 = k) as -> by (unfold entry_of in E; destruct (f !! k); [|done]; destruct (_ && _); [by injection E|done]).
  intros ([k2 m2] & Heq & Hin%list_elem_of_In)%list_elem_of_In%in_map_iff. cbn in Heq. subst k2. apply list_elem_of_omap in Hin as (x & Hx & He). apply Hk'.
  unfold entry_of in He. destruct (f !! x); [|done]. destruct (_ && _); [|done]. by injection He as <- _.
Qed.

(** ** Measures

    How many entries of the disk that satisfy [P] are at or below a path. *)
Definition at_or_below (P : node -> bool) (p : path) : nat := length (List.filter (fun kn => under p kn.1 && P kn.2) (map_to_list f)).

Lemma In_some {A} (x : A) l : In x l -> (1 <= length l)%nat.
Proof. destruct l; [by intros []|]. cbn. lia. Qed.

Lemma filter_split {A} (p q : A -> bool) l : (length (List.filter (fun x => p x && q x) l) + length (List.filter (fun x => p x && negb (q x)) l) = length (List.filter p l))%nat.
Proof. induction l as [|x l IH]; [done|]. cbn. destruct (p x), (q x); cbn; lia. Qed.

Lemma filter_le {A} (p q : A -> bool) l : (forall x, In x l -> p x = true -> q x = true) -> (length (List.filter p l) <= length (List.filter q l))%nat.
Proof.
  induction l as [|x l IH]; intros Hpq; [done|]. cbn. specialize (IH (fun y Hy => Hpq y (or_intror Hy))).
  destruct (p x) eqn:E; [rewrite (Hpq x (in_eq _ _) E); cbn; lia|]. destruct (q x); cbn; lia.
Qed.

(** What is below different children of a directory is different. *)
Lemma below_children P d l :
  NoDup l -> (forall q, In q l -> exists name, q = d ++ [name]) ->
  (sum_list_with (at_or_below P) l <= length (List.filter (fun kn => existsb (fun q => under q kn.1) l && P kn.2) (map_to_list f)))%nat.
Proof.
  induction l as [|q l IH]; [cbn; lia|]. intros [Hq Hnd]%NoDup_cons Hl. cbn [sum_list_with].
  specialize (IH Hnd (fun x Hx => Hl x (or_intror Hx))).
  rewrite <- (filter_split (fun kn => existsb (fun q => under q kn.1) (q :: l) && P kn.2) (fun kn => under q kn.1)).
  apply Nat.add_le_mono.
  - unfold at_or_below. apply filter_le. intros [k m] _ [Hu Hp]%andb_true_iff. cbn in *. by rewrite Hu, Hp.
  - etransitivity; [exact IH|]. apply filter_le. intros [k m] _ [He Hp]%andb_true_iff. cbn [fst snd existsb] in *. rewrite He, Hp, orb_true_r. cbn.
    destruct (under q k) eqn:Hu; [|done]. exfalso. apply existsb_In in He as (q' & Hq' & Hu').
    destruct (Hl q (in_eq _ _)) as [a ->]. destruct (Hl q' (or_intror Hq')) as [b ->].
    apply under_spec in Hu as [x ->]. apply under_spec in Hu' as [y Hxy]. rewrite <- !app_assoc in Hxy. apply app_inv_head in Hxy.
    injection Hxy as -> _. apply Hq. by apply list_elem_of_In.
Qed.

Lemma children_measure P d n :
  f !! d = Some n -> d <> [] -> is_dir_node n = true -> P n = true ->
  (S (sum_list_with (fun e => at_or_below P e.1) (read_directory f d)) <= at_or_below P d)%nat.
Proof.
  intros Hn Hd Hk HP.
  assert (forall q, In q (map fst (read_directory f d)) -> exists name, q = d ++ [name]) as Hall.
  { intros q ([k m] & <- & Hin)%in_map_iff. destruct (read_directory_In d n k m Hn Hd Hk Hin) as (name & -> & _). by exists name. }
  pose proof (below_children P d _ (NoDup_entries d n Hn Hd Hk) Hall) as Hsum.
  assert (sum_list_with (fun e => at_or_below P e.1) (read_directory f d) = sum_list_with (at_or_below P) (map fst (read_directory f d))) as ->.
  { generalize (read_directory f d). intros l. induction l as [|e l IH]; [done|]. cbn. by rewrite IH. }
  eapply Nat.le_trans; [apply le_n_S, Hsum|]. unfold at_or_below.
  rewrite <- (filter_split (fun kn => under d kn.1 && P kn.2) (fun kn => bool_decide (kn.1 = d))).
  assert (1 <= length (List.filter (fun kn => under d kn.1 && P kn.2 && bool_decide (kn.1 = d)) (map_to_list f)))%nat as Hself.
  { assert (In (d, n) (List.filter (fun kn => under d kn.1 && P kn.2 && bool_decide (kn.1 = d)) (map_to_list f))) as Hin.
    { apply filter_In. split; [by apply list_elem_of_In, elem_of_map_to_list|]. cbn. rewrite under_refl, HP. by rewrite bool_decide_true. }
    exact (In_some _ _ Hin). }
  match goal with |- (S ?x <= ?a + ?b)%nat => enough (x <= b)%nat by lia end.
  apply filter_le. intros [k m] _ [He Hp]%andb_true_iff. cbn [fst snd] in *. apply existsb_In in He as (q & Hq & Hu).
  destruct (Hall q Hq) as [name ->]. apply under_spec in Hu as [x ->]. rewrite <- app_assoc, under_app, Hp. cbn.
  apply negb_true_iff, bool_decide_eq_false. intros Heq%(f_equal length). rewrite !length_app in Heq. cbn in Heq. lia.
Qed.

(** ** The generator *)

(** The directories that are waiting are directories of the disk, the entries
    are entries of the disk. *)
Definition real_dir (d : path) : Prop := d <> [] /\ exists n, f !! d = Some n /\ is_dir_node n = true.
Definition real_entry (e : path * node) : Prop := e.1 <> [] /\ f !! e.1 = Some e.2 /\ is_link_node e.2 = false.

Record cursor_ok (c : cursor) : Prop := CursorOk {
  back_empty : k_back c = [];
  entries_real : forall e, In e (k_entries c) -> real_entry e;
  pending_real : forall d, In d (k_pending c) -> real_dir d }.

(** The time the generator has left, and the directories it may still wait for. *)
Definition everything (n : node) : bool := true.
Definition entry_dirs (e : path * node) : nat := if is_dir_node e.2 then at_or_below is_dir_node e.1 else 0.

Definition time_left (c : cursor) : nat :=
  sum_list_with (fun e => 2 * at_or_below everything e.1)%nat (k_entries c) + sum_list_with (fun d => 2 * at_or_below everything d - 1)%nat (k_pending c).

Definition dirs_left (c : cursor) : nat := sum_list_with entry_dirs (k_entries c) + sum_list_with (at_or_below is_dir_node) (k_pending c).

Lemma at_least_itself P p n : f !! p = Some n -> P n = true -> (1 <= at_or_below P p)%nat.
Proof.
  intros Hn HP. unfold at_or_below.
  assert (In (p, n) (List.filter (fun kn => under p kn.1 && P kn.2) (map_to_list f))) as Hin.
  { apply filter_In. split; [by apply list_elem_of_In, elem_of_map_to_list|]. cbn. by rewrite under_refl, HP. }
  exact (In_some _ _ Hin).
Qed.

Lemma pending_dirs pending : (forall d, In d pending -> real_dir d) -> (length pending <= sum_list_with (at_or_below is_dir_node) pending)%nat.
Proof.
  induction pending as [|d pending IH]; [done|]. intros Hall. cbn [length sum_list_with].
  destruct (Hall d (in_eq _ _)) as (_ & n & Hn & Hd). pose proof (at_least_itself is_dir_node d n Hn Hd).
  specialize (IH (fun x Hx => Hall x (or_intror Hx))). lia.
Qed.

(** What is still to be found. *)
Inductive reaches : path -> path -> node -> Prop :=
| reaches_file d p n : In (p, n) (read_directory f d) -> is_dir_node n = false -> is_reg_node n = true -> reaches d p n
| reaches_below d q m p n : In (q, m) (read_directory f d) -> is_dir_node m = true -> reaches q p n -> reaches d p n.

Definition to_find (c : cursor) (p : path) (n : node) : Prop :=
  (In (p, n) (k_entries c) /\ is_dir_node n = false /\ is_reg_node n = true)
  \/ (exists q m, In (q, m) (k_entries c) /\ is_dir_node m = true /\ reaches q p n)
  \/ (exists d, In d (k_pending c) /\ reaches d p n).

(** A step within a directory. *)
Lemma next_entry_step entries pending y c :
  next_entry entries pending = Some (y, c) ->
  (forall e, In e entries -> real_entry e) -> (forall d, In d pending -> real_dir d) ->
  cursor_ok c /\ (time_left c < time_left (Cursor [] entries pending))%nat /\ (dirs_left c <= dirs_left (Cursor [] entries pending))%nat
  /\ (forall p n, to_find c p n \/ y = Found p n -> to_find (Cursor [] entries pending) p n)
  /\ (forall p n, (dirs_left (Cursor [] entries pending) <= MAX_PENDING)%nat -> to_find (Cursor [] entries pending) p n -> to_find c p n \/ y = Found p n).
Proof.
  revert y c; induction entries as [|[q m] entries IH]; intros y c; [done|]. cbn [next_entry]. intros Hnext Hreal Hpend.
  destruct (Hreal (q, m) (in_eq _ _)) as (Hq & Hm & Hlink). cbn [fst snd] in *.
  assert (forall e, In e entries -> real_entry e) as Hrest by (intros; apply Hreal; by right).
  pose proof (at_least_itself everything q m Hm eq_refl) as Hone.
  destruct (is_dir_node m) eqn:Ed; [|destruct (is_reg_node m) eqn:Er].
  - injection Hnext as <- <-. pose proof (at_least_itself is_dir_node q m Hm Ed) as Hdir.
    assert (real_dir q) as Hrq by (split; [done|by exists m]).
    split; [split; [done|done|]|].
    { intros d. cbn [k_pending]. destruct (_ <? _)%nat; [intros [<-|Hd]; auto|auto]. }
    split; [|split; [|split]].
    + unfold time_left. cbn [k_entries k_pending sum_list_with fst]. destruct (_ <? _)%nat; cbn [sum_list_with]; lia.
    + unfold dirs_left. cbn [k_entries k_pending sum_list_with]. unfold entry_dirs at 2. cbn [fst snd]. rewrite Ed. destruct (_ <? _)%nat; cbn [sum_list_with]; lia.
    + intros p n [Hf|Hf]; [|done]. unfold to_find in *. cbn [k_entries k_pending In] in *.
      destruct Hf as [(? & ?)|[(q' & m' & ? & ?)|(d & Hd & Hre)]]; [left; auto|right; left; exists q', m'; auto|].
      destruct (_ <? _)%nat; [destruct Hd as [<-|Hd]|]; [right; left; exists q, m; auto|right; right; exists d; auto..].
    + intros p n Hroom Hf. left. assert ((length pending <? MAX_PENDING)%nat = true) as ->.
      { apply Nat.ltb_lt. pose proof (pending_dirs pending Hpend). unfold dirs_left in Hroom. cbn [k_entries k_pending sum_list_with] in Hroom.
        unfold entry_dirs at 1 in Hroom. cbn [fst snd] in Hroom. rewrite Ed in Hroom. lia. } unfold to_find in *. cbn [k_entries k_pending In] in *.
      destruct Hf as [([[= -> ->]|Hin] & Hn & ?)|[(q' & m' & [[= <- <-]|Hin] & Hd' & ?)|(d & ? & ?)]].
      * congruence.
      * left. auto.
      * right. right. exists q. split; [by left|]. done.
      * right. left. exists q', m'. auto.
      * right. right. exists d. auto.
  - injection Hnext as <- <-. split; [by split|]. split; [|split; [|split]].
    + unfold time_left. cbn [k_entries k_pending sum_list_with fst]. lia.
    + unfold dirs_left. cbn [k_entries k_pending sum_list_with]. lia.
    + intros p n [Hf|[= <- <-]]; unfold to_find in *; cbn [k_entries k_pending In] in *; [|left; auto].
      destruct Hf as [(? & ?)|[(q' & m' & ? & ?)|?]]; [left; auto|right; left; exists q', m'; auto|auto].
    + intros p n _ Hf. unfold to_find in *. cbn [k_entries k_pending In] in *.
      destruct Hf as [([[= -> ->]|Hin] & Hn & ?)|[(q' & m' & [[= <- <-]|Hin] & Hd' & ?)|?]]; auto; [congruence|].
      left. right. left. exists q', m'. auto.
  - destruct (IH y c Hnext Hrest Hpend) as (Hok & Ht & Hdl & Hin & Hout). split; [done|]. split; [|split; [|split]].
    + unfold time_left in *. cbn [k_entries k_pending sum_list_with fst] in *. lia.
    + unfold dirs_left in *. cbn [k_entries k_pending sum_list_with] in *. lia.
    + intros p n Hf. apply Hin in Hf. unfold to_find in *. cbn [k_entries k_pending In] in *.
      destruct Hf as [(? & ?)|[(q' & m' & ? & ?)|?]]; [left; auto|right; left; exists q', m'; auto|auto].
    + intros p n Hroom Hf. apply Hout; [unfold dirs_left in *; cbn [k_entries k_pending sum_list_with] in *; lia|]. unfold to_find in *. cbn [k_entries k_pending In] in *.
      destruct Hf as [([[= -> ->]|Hx] & Hn & ?)|[(q' & m' & [[= <- <-]|Hx] & Hd' & ?)|?]]; auto; [congruence|congruence|].
      right. left. exists q', m'. auto.
Qed.

Lemma next_entry_none entries pending : next_entry entries pending = None -> forall e, In e entries -> is_dir_node e.2 = false /\ is_reg_node e.2 = false.
Proof.
  induction entries as [|[q m] entries IH]; [by intros _ e []|]. cbn [next_entry]. destruct (is_dir_node m) eqn:Ed; [done|].
  destruct (is_reg_node m) eqn:Er; [done|]. intros Hn e [<-|He]; [done|by apply IH].
Qed.

Lemma nothing_here entries pending p n : next_entry entries pending = None -> to_find (Cursor [] entries pending) p n -> to_find (Cursor [] [] pending) p n.
Proof.
  intros Hnone Hf. pose proof (next_entry_none _ _ Hnone) as Hall. unfold to_find in *. cbn [k_entries k_pending] in *.
  destruct Hf as [(Hin & _ & Hr)|[(q & m & Hin & Hd & _)|?]]; [| |auto]; apply Hall in Hin as [Hd' Hr']; cbn in *; congruence.
Qed.

(** Opening a directory. *)
Lemma open_directory d pending :
  real_dir d -> (forall e, In e (read_directory f d) -> real_entry e)
  /\ (time_left (Cursor [] (read_directory f d) pending) < time_left (Cursor [] [] (d :: pending)))%nat
  /\ (dirs_left (Cursor [] (read_directory f d) pending) <= dirs_left (Cursor [] [] (d :: pending)))%nat
  /\ (forall p n, to_find (Cursor [] (read_directory f d) pending) p n <-> to_find (Cursor [] [] (d :: pending)) p n).
Proof.
  intros (Hd & n & Hn & Hk). split; [|split; [|split]].
  - intros [q m] Hin. destruct (read_directory_In d n q m Hn Hd Hk Hin) as (name & -> & Hm & Hl & _). split; [by destruct d|done].
  - pose proof (children_measure everything d n Hn Hd Hk eq_refl) as Hm. unfold time_left. cbn [k_entries k_pending sum_list_with].
    assert (sum_list_with (fun e => 2 * at_or_below everything e.1)%nat (read_directory f d) = 2 * sum_list_with (fun e => at_or_below everything e.1) (read_directory f d))%nat as ->; [|lia].
    generalize (read_directory f d). intros l. induction l as [|e l IH]; [done|]. cbn [sum_list_with]. lia.
  - pose proof (children_measure is_dir_node d n Hn Hd Hk Hk) as Hm. unfold dirs_left. cbn [k_entries k_pending sum_list_with].
    assert (sum_list_with entry_dirs (read_directory f d) <= sum_list_with (fun e => at_or_below is_dir_node e.1) (read_directory f d))%nat; [|lia].
    generalize (read_directory f d). intros l. induction l as [|e l IH]; [done|]. cbn [sum_list_with]. unfold entry_dirs at 1. destruct (is_dir_node e.2); lia.
  - intros p m. unfold to_find. cbn [k_entries k_pending]. split.
    + intros [(Hin & Hr)|[(q & x & Hin & Hx & Hre)|(y & Hy & Hre)]]; right; right.
      * exists d. split; [by left|]. destruct Hr. by apply reaches_file.
      * exists d. split; [by left|]. by apply (reaches_below d q x).
      * exists y. split; [by right|done].
    + intros [([] & _)|[(q & x & [] & _)|(y & [<-|Hy] & Hre)]]; [|right; right; by exists y].
      destruct Hre as [d p m Hin Hx Hr|d q x p m Hin Hx Hre]; [by left|]. right. left. by exists q, x.
Qed.

Definition stepped (c : cursor) (r : option (yielded * cursor)) : Prop :=
  match r with
  | None => forall p n, ~ to_find c p n
  | Some (y, c') =>
      cursor_ok c' /\ (time_left c' < time_left c)%nat /\ (dirs_left c' <= dirs_left c)%nat
      /\ (forall p n, to_find c' p n \/ y = Found p n -> to_find c p n)
      /\ (forall p n, (dirs_left c <= MAX_PENDING)%nat -> to_find c p n -> to_find c' p n \/ y = Found p n)
  end.

(** What a step does from a cursor that has no more to find. *)
Lemma stepped_from c c1 r :
  (time_left c1 <= time_left c)%nat -> (dirs_left c1 <= dirs_left c)%nat -> (forall p n, to_find c1 p n <-> to_find c p n) -> stepped c1 r -> stepped c r.
Proof.
  intros Ht Hd Hf. destruct r as [[y c']|]; cbn.
  - intros (Hok & Ht' & Hd' & Hin & Hout). split; [done|]. split; [lia|]. split; [lia|]. split; intros p n.
    + intros Hc. by apply Hf, Hin.
    + intros Hroom Hc. apply Hout; [lia|by apply Hf].
  - intros Hnone p n Hc. by apply (Hnone p n), Hf.
Qed.

Lemma next_directory_step pending : (forall d, In d pending -> real_dir d) -> stepped (Cursor [] [] pending) (next_directory f pending).1.
Proof.
  induction pending as [|d pending IH]; intros Hall; cbn [next_directory].
  - intros p n [([] & _)|[(q & x & [] & _)|(y & [] & _)]].
  - destruct (open_directory d pending (Hall d (in_eq _ _))) as (Hreal & Ht & Hd & Hf).
    assert (forall x, In x pending -> real_dir x) as Hrest by (intros; apply Hall; by right).
    destruct (next_entry (read_directory f d) pending) as [[y c]|] eqn:E.
    + apply (stepped_from _ (Cursor [] (read_directory f d) pending)); [lia|done|done|]. by apply next_entry_step.
    + specialize (IH Hrest). destruct (next_directory f pending) as [r opened]. cbn [fst] in *.
      apply (stepped_from _ (Cursor [] [] pending)); [|unfold dirs_left; cbn [k_entries k_pending sum_list_with]; lia| |done].
      * unfold time_left. cbn [k_entries k_pending sum_list_with]. lia.
      * intros p n. rewrite <- Hf. split; [|by apply nothing_here]. unfold to_find. cbn [k_entries k_pending].
        intros [([] & _)|[(q & x & [] & _)|?]]. auto.
Qed.

Lemma next_of_step c : cursor_ok c -> stepped c (next_of f c).1.
Proof.
  destruct c as [back entries pending]. intros [Hback Hreal Hall]. cbn [k_back k_entries k_pending] in *. subst back.
  unfold next_of. cbn [k_back k_entries k_pending]. destruct (next_entry entries pending) as [[y c]|] eqn:E; cbn [fst].
  - by apply next_entry_step.
  - apply (stepped_from _ (Cursor [] [] pending)); [unfold time_left; cbn [k_entries k_pending sum_list_with]; lia
      |unfold dirs_left; cbn [k_entries k_pending sum_list_with]; lia| |by apply next_directory_step].
    intros p n. split; [|by apply nothing_here]. unfold to_find. cbn [k_entries k_pending].
    intros [([] & _)|[(q & x & [] & _)|?]]. auto.
Qed.

Lemma drain_finds fuel c :
  (time_left c < fuel)%nat -> cursor_ok c ->
  exists l, drain fuel f c = Some l /\ (forall p n, In (p, n) l -> to_find c p n)
  /\ ((dirs_left c <= MAX_PENDING)%nat -> forall p n, to_find c p n -> In (p, n) l).
Proof.
  revert c; induction fuel as [|fuel IH]; intros c Hfuel Hok; [lia|]. pose proof (next_of_step c Hok) as Hs. cbn [drain].
  destruct (next_of f c).1 as [[y c']|]; cbn [stepped] in Hs.
  - destruct Hs as (Hok' & Ht & Hd & Hin & Hout). destruct (IH c' ltac:(lia) Hok') as (l & Hl & Hsound & Hcomplete). destruct y as [|q m].
    + exists l. split; [done|]. split; [intros p n Hp; apply Hin; left; by apply Hsound|].
      intros Hroom p n Hf. destruct (Hout p n Hroom Hf) as [Hf'|]; [|done]. apply Hcomplete; [lia|done].
    + exists ((q, m) :: l). rewrite Hl. split; [done|]. split.
      * intros p n [[= -> ->]|Hp]; apply Hin; [by right|left; by apply Hsound].
      * intros Hroom p n Hf. destruct (Hout p n Hroom Hf) as [Hf'|[= -> ->]]; [right; apply Hcomplete; [lia|done]|by left].
  - exists []. split; [done|]. split; [by intros p n []|]. intros _ p n Hf. destruct (Hs p n Hf).
Qed.

(** ** What is found *)

Lemma reaches_visible d p n : real_dir d -> reaches d p n -> visible f d p n.
Proof.
  intros Hd Hre. induction Hre as [d p n Hin Hx Hr|d q x p n Hin Hx Hre IH]; destruct Hd as (Hne & m & Hm & Hk).
  - destruct (read_directory_In d m p n Hm Hne Hk Hin) as (name & -> & Hn & _ & Hu). exists [name]. cbn. rewrite Hu. done.
  - destruct (read_directory_In d m q x Hm Hne Hk Hin) as (name & -> & Hn & _ & Hu).
    destruct IH as (rel & -> & Hrel & Hall & Hp & Hr); [split; [by destruct d|by exists x]|].
    exists (name :: rel). rewrite <- app_assoc in *. split; [done|]. split; [done|]. cbn. by rewrite Hu.
Qed.

Lemma visible_reaches d p n : narrow f -> real_dir d -> visible f d p n -> reaches d p n.
Proof.
  intros Hnarrow Hd (rel & -> & Hrel & Hall & Hn & Hr). revert d Hd Hn. induction rel as [|name rel IH]; intros d (Hne & m & Hm & Hk) Hn; [done|].
  cbn [forallb] in Hall. apply andb_true_iff in Hall as [Hu Hall]. destruct rel as [|name' rel].
  - apply reaches_file; [|unfold is_reg_node, is_dir_node in *; by destruct (n_kind n)|done].
    apply (read_directory_has d m); [done..| |done]. unfold is_reg_node, is_link_node in *. by destruct (n_kind n).
  - rewrite (cons_middle name d (name' :: rel)) in Hn |- *.
    destruct (prefix_dir _ _ _ Hn ltac:(by destruct d) ltac:(done)) as (x & Hx & Hd). apply (reaches_below d (d ++ [name]) x); [|done|].
    + apply (read_directory_has d m); [done..| |done]. unfold is_dir_node, is_link_node in *. by destruct (n_kind x).
    + apply IH; [done|done| |done]. split; [by destruct d|by exists x].
Qed.
End disk.

(** C28. On a disk that does not change, a walk ends, within twice as many steps as
    the disk has entries, and what it finds are files below its root, with no
    link and no hidden name on the way. When the disk has no more than 8192
    directories and none of more than 16384 entries, it finds all of them. *)
Theorem walk_finds_files f root m :
  well_named f -> in_directories f -> shallow f -> root <> [] -> f !! root = Some m -> is_dir_node m = true ->
  exists l, drain (S (2 * size f)) f (start_cursor root) = Some l
  /\ (forall p n, In (p, n) l -> visible f root p n)
  /\ (narrow f -> (directories f <= MAX_PENDING)%nat -> forall p n, visible f root p n -> In (p, n) l).
Proof.
  intros Hnamed Hdirs Hshallow Hne Hm Hk.
  assert (real_dir f root) as Hroot by (split; [done|by exists m]).
  assert (forall P, at_or_below f P root <= length (List.filter (fun kn => P kn.2) (map_to_list f)))%nat as Hall.
  { intros P. apply filter_le. by intros x _ [_ ?]%andb_true_iff. }
  destruct (drain_finds f Hnamed Hdirs Hshallow (S (2 * size f)) (start_cursor root)) as (l & Hl & Hsound & Hcomplete).
  - unfold time_left. cbn [start_cursor k_entries k_pending sum_list_with]. specialize (Hall everything).
    pose proof (List.filter_length_le (fun kn : path * node => everything kn.2) (map_to_list f)) as Hsize.
    rewrite length_map_to_list in Hsize. lia.
  - split; [done|by intros e []|]. by intros d [<-|[]].
  - exists l. split; [done|]. split.
    + intros p n Hin. apply (reaches_visible f Hnamed Hdirs Hshallow root p n Hroot).
      destruct (Hsound p n Hin) as [([] & _)|[(q & x & [] & _)|(y & [<-|[]] & Hre)]]. done.
    + intros Hnarrow Hfew p n Hv. apply Hcomplete.
      * unfold dirs_left. cbn [start_cursor k_entries k_pending sum_list_with]. specialize (Hall is_dir_node). unfold directories in Hfew. lia.
      * right. right. exists root. split; [by left|]. by apply (visible_reaches f Hnamed Hdirs Hshallow).
Qed.

(** ** An example *)

(** What is decided by looking at every entry. *)
Definition entry_ok (f : fs) (e : path * node) : bool := plain e.1 && in_directory f e && (length e.1 <? WALK)%nat.

Lemma disk_check f : forallb (entry_ok f) (map_to_list f) = true -> well_named f /\ in_directories f /\ shallow f.
Proof.
  intros Hall. rewrite forallb_forall in Hall.
  assert (forall p n, f !! p = Some n -> plain p = true /\ in_directory f (p, n) = true /\ (length p < WALK)%nat) as Hentry.
  { intros p n Hn%elem_of_map_to_list%list_elem_of_In. specialize (Hall _ Hn). unfold entry_ok in Hall. cbn [fst] in Hall. split_bool.
    rewrite Nat.ltb_lt in *. done. }
  split; [|split].
  - intros p n Hn. by destruct (Hentry p n Hn).
  - apply in_directories_check. apply forallb_forall. intros [p n] Hn. apply list_elem_of_In, elem_of_map_to_list, Hentry in Hn as (_ & Hd & _). exact Hd.
  - intros p n Hn. by destruct (Hentry p n Hn) as (_ & _ & ?).
Qed.

Lemma small_narrow f : (size f <= MAX_ENTRIES)%nat -> narrow f.
Proof.
  intros Hf d. rewrite children_filter. etransitivity; [apply List.filter_length_le|]. by rewrite length_map, length_map_to_list.
Qed.

Definition START : Z := 1790000000 * SECOND.
Definition Downloads : path := ["home"; "ann"; "Downloads"].

Definition dir (ino : Z) : node := Node Directory 493 1000 1000 ino "" START START (Ok None) (Ok None).
Definition file (ino : Z) (content : string) (time : Z) : node := Node Regular 420 1000 1000 ino content time time (Ok None) (Ok None).

Definition desktop_disk : fs := list_to_map
  [(["home"], dir 3); (["home"; "ann"], dir 4); (Downloads, dir 5);
   (Downloads ++ ["a.pdf"], file 10 "report" (START + SECOND)); (Downloads ++ [".cache"], dir 6); (Downloads ++ [".cache"; "x"], file 11 "x" START);
   (Downloads ++ ["mail"], dir 7); (Downloads ++ ["mail"; "b.zip"], file 12 "zip" (START - 60 * SECOND));
   (Downloads ++ ["out"], Node (Symlink "/home") 511 1000 1000 13 "" START START (Ok None) (Ok None))].

Definition found_paths (l : option (list (path * node))) : list string := map (fun e => path_text e.1) (default [] l).

Lemma walk_finds_files_witness :
  exists l, drain (S (2 * size desktop_disk)) desktop_disk (start_cursor Downloads) = Some l
  /\ found_paths (Some l) = ["/home/ann/Downloads/a.pdf"; "/home/ann/Downloads/mail/b.zip"]%string
  /\ forall p n, visible desktop_disk Downloads p n -> In (p, n) l.
Proof.
  destruct (disk_check desktop_disk) as (Hnamed & Hdirs & Hshallow); [vm_compute; reflexivity|].
  destruct (walk_finds_files desktop_disk Downloads (dir 5) Hnamed Hdirs Hshallow) as (l & Hl & _ & Hcomplete);
    [discriminate|vm_compute; reflexivity|reflexivity|].
  exists l. split; [exact Hl|]. split.
  - rewrite <- Hl. vm_compute. reflexivity.
  - apply Hcomplete; [apply small_narrow|]; apply Nat.leb_le; vm_compute; reflexivity.
Defined.
