(* ===== verification/ArrivalClaims.v ===== *)
(** * The arrival scanner: claims

    The bounds of the observer, what becomes of the work that is pending and
    which files are handed to the scanner, over every sequence of callbacks,
    turns of the worker and restarts. *)
From S2P Require Import Prelude PyVal PyStr Json PyText Files ScanReceipts KeyedTables ArrivalQueue ArrivalScanner ArrivalWalks JsonExample.

(** ** The invariant of the observer *)

(** The scan in flight is the one of the database. *)
Definition same_scan (s : scanner) : Prop :=
  inflight (s_queue s) = (s_active s, match s_active s with Some _ => s_paths s | None => [] end).

Record scanner_ok (s : scanner) : Prop := ScannerOk {
  ok_queue : queue_wf (s_queue s);
  ok_monitors : (length (s_monitors s) <= MAX_MONITORS)%nat;
  ok_events : (length (s_events s) <= MAX_EVENTS)%nat;
  ok_scan : same_scan s }.

(** While the scan in flight is [a]. *)
Definition follows (excused vouched : string -> Prop) (now : Z) (a : option string) (s s' : scanner) : Prop :=
  scanner_ok s -> s_active s = a ->
  scanner_ok s' /\ s_active s' = a /\ accounted excused vouched now (s_queue s) (s_queue s').

#[export] Instance follows_preorder e v now a : PreOrder (follows e v now a).
Proof.
  split; unfold follows.
  - intros s Hs Ha. split; [done|]. split; [done|apply accounted_refl].
  - intros s s1 s2 H1 H2 Hs Ha. destruct (H1 Hs Ha) as (Hs1 & Ha1 & A1). destruct (H2 Hs1 Ha1) as (Hs2 & Ha2 & A2).
    split; [done|]. split; [done|]. by eapply accounted_trans.
Qed.

Definition same_flight (q q' : queue) : Prop := in_flight q' = in_flight q.

#[export] Instance same_flight_preorder : PreOrder same_flight.
Proof. split; unfold same_flight; [done|]. intros q q1 q2 H1 H2. by rewrite H2. Qed.

(** A computation whose outcome is known. *)
Lemma respects_known {S A B} (R : S -> S -> Prop) `{!PreOrder R} (m : res A) (f : A -> act S B) :
  (forall a, m = Ok a -> respects R (f a)) -> respects R (lift m ≫= f).
Proof. intros Hf s. unfold after, mbind, act_bind, lift. destruct m as [a|e]; [by apply (Hf a)|cbn; reflexivity]. Qed.

(** ** Callbacks

    They leave the queue and the scan as they are, and stay within the bounds. *)
Record watches (s s' : scanner) : Prop := Watches {
  same_queue : s_queue s' = s_queue s;
  same_active : s_active s' = s_active s;
  same_paths : s_paths s' = s_paths s;
  few_monitors : (length (s_monitors s) <= MAX_MONITORS)%nat -> (length (s_monitors s') <= MAX_MONITORS)%nat;
  few_events : (length (s_events s) <= MAX_EVENTS)%nat -> (length (s_events s') <= MAX_EVENTS)%nat }.

#[export] Instance watches_preorder : PreOrder watches.
Proof. split; [by intros s; split|]. intros s s1 s2 [? ? ? ? ?] [? ? ? ? ?]. split; auto; congruence. Qed.

Lemma watches_follows e v now a {A} (m : act scanner A) : respects watches m -> respects (follows e v now a) m.
Proof.
  intros Hm s [Hq Hmon He Hscan] Ha. destruct (Hm s) as [Eq Ea Ep Em Ee].
  rewrite Ea. split; [|split; [done|rewrite Eq; apply accounted_refl]].
  split; [by rewrite Eq|by apply Em|by apply Ee|]. unfold same_scan in *. by rewrite Eq, Ea, Ep.
Qed.

Lemma add_path_length p l : (length (add_path p l) <= S (length l))%nat.
Proof. unfold add_path. destruct (known p l); [lia|]. rewrite length_app. cbn. lia. Qed.

Lemma changed_watches items : respects watches (_changed items).
Proof.
  unfold _changed. apply respects_each; [typeclasses eauto|]. intros [[|c raw]|]; effects. apply respects_modify. intros s.
  destruct (Nat.ltb_spec (length (s_events s)) MAX_EVENTS); [|reflexivity]. split; [done..|]. intros Hs. cbn [s_events with_arrived].
  etransitivity; [apply add_path_length|done].
Qed.

Lemma watch_watches watchable p : respects watches (_watch watchable p).
Proof.
  unfold _watch. apply respects_modify. intros s. destruct (_ || _) eqn:E; [reflexivity|]. split; [done..| |done].
  intros Hs. cbn [s_monitors with_monitors]. rewrite length_app. split_bool. rewrite Nat.leb_gt in *. cbn. lia.
Qed.

Lemma drop_child_length roots l : (length (drop_child roots l) <= length l)%nat.
Proof. induction l as [|p l IH]; cbn [drop_child]; [done|]. destruct (known p roots); cbn; lia. Qed.

Lemma refresh_mounts_watches watchable objects mounts : respects watches (_refresh_mounts watchable objects mounts).
Proof.
  unfold _refresh_mounts. effects.
  - apply respects_modify. intros s. split; [done..| |done]. intros Hs. cbn [s_monitors with_roots].
    etransitivity; [apply List.filter_length_le|done].
  - apply respects_each; [typeclasses eauto|]. intros root. unfold watch_root. effects; [|apply watch_watches].
    apply respects_modify. intros s. destruct (_ && _); [|reflexivity]. split; [done..| |done]. intros Hs. cbn [s_monitors with_monitors].
    etransitivity; [apply drop_child_length|done].
  - by apply respects_modify.
Qed.

Lemma callback_watches c : respects watches (run_callback c).
Proof.
  destruct c as [items|watchable objects mounts|watchable]; cbn [run_callback];
    [apply changed_watches|apply refresh_mounts_watches|].
  unfold watch_idle. effects; [by apply respects_modify|apply watch_watches].
Qed.

Section follows.
Context `{FloatText} `{Sha256} (uid : Z) (excused vouched : string -> Prop) (now : Z) (a : option string).

Abbreviation follows := (follows excused vouched now a).
Abbreviation tracked := (tracked excused vouched now).

Lemma on_queue_follows {A} (m : act queue A) : respects tracked m -> respects same_flight m -> respects follows (on_queue m).
Proof.
  intros Hm Hf s [Hq Hmon Hev Hscan] Ha. specialize (Hm (s_queue s) Hq). specialize (Hf (s_queue s)).
  unfold after, on_queue in *. destruct (m (s_queue s)) as [r q]. cbn [snd] in *. destruct Hm as [Hq' Hacc].
  split; [|by split]. split; [done..|]. unfold same_scan, inflight in *. cbn. by rewrite Hf.
Qed.

Lemma modify_follows f : (forall s, watches s (f s)) -> respects follows (modify f).
Proof. intros Hf. apply watches_follows, respects_modify, Hf. Qed.

Lemma set_state_follows state n detail : respects follows (set_state state n detail).
Proof. by apply modify_follows. Qed.

Lemma walks_follow w (i : scanner -> list path) : respects follows (modify (fun s => with_walks (w s) (i s) s)).
Proof. by apply modify_follows. Qed.

(** ** Walks *)

Lemma since_follows root home : respects follows (on_queue (since root home)).
Proof. apply on_queue_follows; intros q; unfold after, since; repeat case_match; reflexivity. Qed.

Lemma first_start_kept root t w : is_Some (dget "@first-start" w) -> is_Some (dget (A := Z) "@first-start" (dset (path_text root) t w)).
Proof.
  intros Hw. destruct (String.eqb_spec "@first-start" (path_text root)) as [->|Hne]; [by rewrite dget_dset_eq|].
  by rewrite dget_dset_ne.
Qed.

Lemma walked_follows root started : respects follows (on_queue (walked root started)).
Proof.
  apply on_queue_follows; [|by apply respects_modify]. apply respects_modify. intros q.
  apply tracked_others; [done|]. apply first_start_kept.
Qed.

Lemma observe_follows f p generation priority :
  priority = 0 \/ priority = 1 -> respects follows (on_queue (observe uid f p generation now priority)).
Proof.
  intros Hp. apply on_queue_follows; [intros q; by apply observe_tracked|].
  intros q. unfold after, observe, same_flight. repeat case_match; done.
Qed.

Lemma walk_follows roots : respects follows (_walk now roots).
Proof.
  unfold _walk. apply respects_each; [typeclasses eauto|]. intros root. effects; [apply since_follows|apply walks_follow].
Qed.

Lemma walk_root_follows f generation root w budget : respects follows (walk_root uid f now generation root w budget).
Proof.
  revert w; induction budget as [|budget IH]; intros w; cbn [walk_root]; effects; try apply walks_follow;
    try apply walked_follows; try apply IH. apply observe_follows. match goal with |- context [if ?b then _ else _] => destruct b end; auto.
Qed.

Lemma walk_roots_follow f generation roots ordered budget : respects follows (walk_roots uid f now generation roots ordered budget).
Proof.
  revert budget; induction ordered as [|[root w] ordered IH]; intros budget; cbn [walk_roots]; effects; try apply walks_follow; try apply IH.
  apply walk_root_follows.
Qed.
End follows.

(** ** A turn of the worker *)

#[local] Opaque _walk walk_roots.

Section turns.
Context `{FloatText} `{Sha256} (uid : Z) (h : turn_host) (roots : list path).

(** What the scanner says of a file in this turn. *)
Definition answered (p : dict -> bool) (raw : string) : Prop :=
  exists paths batch receipt, receipts h paths = Ok batch /\ receipt_for raw batch = Ok receipt /\ p receipt = true.

Definition vouched_for : string -> Prop := answered is_valid.

(** Why work is no longer pending: the scanner vouches for the file, or scans it
    again only when it changes; the file is no longer below a root, or no longer
    one to be scanned. *)
Definition excused_from (raw : string) : Prop :=
  vouched_for raw \/ answered waits_for_change raw \/ allowed roots (parts_of raw) = false
  \/ identity uid (h_disk h) (parts_of raw) = None.

Abbreviation tracked := (tracked excused_from vouched_for (h_now h)).
Abbreviation follows := (follows excused_from vouched_for (h_now h)).

Lemma receipt_tracked paths batch raw receipt terminal :
  receipts h paths = Ok batch -> receipt_for raw batch = Ok receipt ->
  (is_valid receipt = false -> terminal = true -> waits_for_change receipt = true) ->
  respects tracked (finished [raw] (is_valid receipt) (h_now h) terminal).
Proof.
  intros Hb Hr Ht q. apply finish_row_tracked.
  - intros Hv. assert (vouched_for raw) as Hvouched by (by exists paths, batch, receipt). split; [done|by left].
  - intros Hv Hterm. right. left. exists paths, batch, receipt. auto.
Qed.

Lemma finished_flight paths complete terminal : respects same_flight (finished paths complete (h_now h) terminal).
Proof. by apply respects_modify. Qed.

Lemma finished_follows a paths batch raw receipt terminal :
  receipts h paths = Ok batch -> receipt_for raw batch = Ok receipt ->
  (is_valid receipt = false -> terminal = true -> waits_for_change receipt = true) ->
  respects (follows a) (on_queue (finished [raw] (is_valid receipt) (h_now h) terminal)).
Proof. intros. apply on_queue_follows; [by eapply receipt_tracked|apply finished_flight]. Qed.

Lemma refresh_follows a current : respects (follows a) (refresh h roots current).
Proof.
  unfold refresh, when. effects; try (by apply modify_follows); [|apply walk_follows].
  apply on_queue_follows; [apply definitions_changed_tracked|by apply respects_modify].
Qed.

Lemma take_event_follows a current p : respects (follows a) (take_event uid h roots current p).
Proof. unfold take_event. effects; [apply walk_follows|]. apply observe_follows. by right. Qed.

Lemma ready_flight f now rs : respects same_flight (ready uid f now rs).
Proof.
  unfold ready. effects. match goal with |- respects _ (ready_rows _ _ _ _ ?l) => generalize l end.
  intros rows. induction rows as [|row rows IH]; cbn [ready_rows]; effects. unfold ready_row. effects; try (by apply respects_modify).
  intros q. unfold after, observe, same_flight. repeat case_match; done.
Qed.

Lemma ready_follows a : respects (follows a) (on_queue (ready uid (h_disk h) (h_now h) roots)).
Proof.
  apply on_queue_follows; [|apply ready_flight]. apply ready_tracked; unfold excused_from; auto.
Qed.

Lemma unscanned_follows a paths batch l : receipts h paths = Ok batch -> respects (follows a) (unscanned h batch l).
Proof.
  intros Hb. induction l as [|raw l IH]; cbn [unscanned]; [effects|]. apply respects_known; [typeclasses eauto|].
  intros receipt Hr. destruct (is_valid receipt) eqn:Ev; [|destruct (waits_for_change receipt) eqn:Ew]; effects.
  - rewrite <- Ev. eapply finished_follows; done.
  - rewrite <- Ev. eapply finished_follows; done.
Qed.

Lemma batch_follows a paths : respects (follows a) (batch ← (match paths with [] => mret [] | _ => lift (receipts h paths) end); unscanned h batch paths).
Proof.
  destruct paths as [|raw paths]; [intros s; cbn; reflexivity|]. apply respects_known; [typeclasses eauto|].
  intros batch Hb. by eapply unscanned_follows.
Qed.

Lemma no_scan_follows : respects (follows None) (modify (with_active None [])).
Proof.
  intros s [Hq Hm He Hscan] Ha. unfold after. cbn [modify snd]. split; [|split; [done|apply accounted_refl]].
  split; [done..|]. unfold same_scan in *. rewrite Ha in Hscan. exact Hscan.
Qed.

Lemma walk_step_follows a current : respects (follows a) (_walk_step uid (h_disk h) (h_now h) current roots).
Proof. unfold _walk_step. effects. apply walk_roots_follow. Qed.

#[local] Opaque refresh take_event _walk_step ready unscanned.

Lemma before_ready_follows changed current :
  respects (follows None) (_ ← refresh h roots current; _ ← each (take_event uid h roots current) changed;
    _ ← _walk_step uid (h_disk h) (h_now h) current roots; modify (with_active None [])).
Proof.
  effects; [apply refresh_follows| |apply walk_step_follows|apply no_scan_follows].
  apply respects_each; [typeclasses eauto|]. intros p. apply take_event_follows.
Qed.

Lemma next_batch_follows changed current : respects (follows None) (next_batch uid h roots changed current).
Proof.
  unfold next_batch. repeat (apply respects_bind; [typeclasses eauto| |intros ?; try apply batch_follows]).
  - apply refresh_follows.
  - apply respects_each; [typeclasses eauto|]. intros p. apply take_event_follows.
  - apply walk_step_follows.
  - apply no_scan_follows.
  - apply ready_follows.
Qed.

(** ** What is handed to the scanner *)

(** The file was observed with its identity of now, and at least the settling
    time ago. *)
Definition settled_since (q : queue) (raw : string) : Prop :=
  exists row, In row (arrivals q) /\ a_path row = raw /\ a_observed row <= h_now h - SETTLE_SECONDS * SECOND
    /\ allowed roots (parts_of raw) = true /\ identity uid (h_disk h) (parts_of raw) = Some (a_signature row).

Lemma settled_earlier q q1 raw : accounted excused_from vouched_for (h_now h) q q1 -> settled_since q1 raw -> settled_since q raw.
Proof.
  intros Hacc (row & Hin & Hp & Ho & Ha & Hi). destruct (kept_rows _ _ _ _ _ Hacc row Hin) as [Hnow|(r & Hr & Hpath & Hsig & Hobs)].
  - unfold SETTLE_SECONDS, SECOND in Ho. lia.
  - exists r. split; [done|]. rewrite Hpath, Hobs, Hsig. done.
Qed.

Lemma unscanned_In batch l s paths s' : unscanned h batch l s = (Ok paths, s') -> (length paths <= length l)%nat /\ forall raw, In raw paths -> In raw l.
Proof.
  #[local] Transparent unscanned.
  revert s paths s'; induction l as [|raw l IH]; intros s paths s'; cbn [unscanned].
  - intros [= <- _]. done.
  - intros (receipt & s1 & _ & Hr)%act_bind_Ok. destruct (is_valid receipt); [|destruct (waits_for_change receipt)].
    + apply act_bind_Ok in Hr as (u & s2 & _ & Hr). destruct (IH _ _ _ Hr) as [Hlen Hall]. cbn. split; [lia|auto].
    + apply act_bind_Ok in Hr as (u & s2 & _ & Hr). destruct (IH _ _ _ Hr) as [Hlen Hall]. cbn. split; [lia|auto].
    + apply act_bind_Ok in Hr as (rest & s2 & Hrest & Hr). injection Hr as <- _. destruct (IH _ _ _ Hrest) as [Hlen Hall].
      cbn. split; [lia|]. intros raw' [<-|Hin]; auto.
Qed.

#[local] Opaque unscanned.

Lemma on_queue_Ok {A} (m : act queue A) s x s' : on_queue m s = (Ok x, s') -> exists q, m (s_queue s) = (Ok x, q).
Proof. unfold on_queue. destruct (m (s_queue s)) as [r q]. intros [= -> _]. by exists q. Qed.

Lemma next_batch_settled changed current s paths s' :
  scanner_ok s -> s_active s = None -> next_batch uid h roots changed current s = (Ok paths, s') ->
  (length paths <= READY_LIMIT)%nat /\ forall raw, In raw paths -> settled_since (s_queue s) raw.
Proof.
  intros Hs Ha Hrun. unfold next_batch in Hrun.
  apply act_bind_Ok in Hrun as (u1 & s1 & H1 & Hrun). apply act_bind_Ok in Hrun as (u2 & s2 & H2 & Hrun).
  apply act_bind_Ok in Hrun as (u3 & s3 & H3 & Hrun). apply act_bind_Ok in Hrun as (u4 & s4 & H4 & Hrun).
  apply act_bind_Ok in Hrun as (found & s5 & Hready & Hrun). apply act_bind_Ok in Hrun as (batch & s6 & _ & Hrun).
  apply unscanned_In in Hrun as [Hlen Hall]. apply on_queue_Ok in Hready as [q Hready].
  assert (after (_ ← refresh h roots current; _ ← each (take_event uid h roots current) changed;
    _ ← _walk_step uid (h_disk h) (h_now h) current roots; modify (with_active None [])) s = s4) as Hbefore.
  { unfold after, mbind, act_bind. by rewrite H1, H2, H3, H4. }
  destruct (before_ready_follows changed current s Hs Ha) as (_ & _ & Hacc). rewrite Hbefore in Hacc.
  apply ready_Ok in Hready as [Hmax Hsettled]. split; [lia|]. intros raw Hin.
  apply (settled_earlier _ (s_queue s4)); [done|]. destruct (Hsettled raw (Hall raw Hin)) as (row & Hrow & Hp & Hst & Hal & Hid).
  exists row. unfold settled in Hst. split_bool. zify_bool. auto.
Qed.

(** The end of a turn that began in [q]. *)
Definition concluded (q : queue) (s' : scanner) : Prop :=
  scanner_ok s' /\ accounted excused_from vouched_for (h_now h) q (s_queue s')
  /\ (s_active s' = None \/ ((length (s_paths s') <= READY_LIMIT)%nat /\ forall raw, In raw (s_paths s') -> settled_since q raw)).

Lemma concluded_idle s s' : follows None s s' -> scanner_ok s -> s_active s = None -> concluded (s_queue s) s'.
Proof. intros Hf Hs Ha. destruct (Hf Hs Ha) as (Hs' & Ha' & Hacc). split; [done|]. split; [done|by left]. Qed.

Lemma concluded_later s s1 s' :
  follows None s s1 -> scanner_ok s -> s_active s = None -> (scanner_ok s1 -> s_active s1 = None -> concluded (s_queue s1) s') -> concluded (s_queue s) s'.
Proof.
  intros Hf Hs Ha Hc. destruct (Hf Hs Ha) as (Hs1 & Ha1 & Hacc). destruct (Hc Hs1 Ha1) as (Hs' & Hacc' & Hlast).
  split; [done|]. split; [by eapply accounted_trans|]. destruct Hlast as [|[Hlen Hall]]; [by left|]. right. split; [done|].
  intros raw Hin. by eapply settled_earlier, Hall.
Qed.

(** The computation after a part that follows. *)
Lemma concluded_bind {A B} (m : act scanner A) (k : A -> act scanner B) s :
  respects (follows None) m -> scanner_ok s -> s_active s = None ->
  (forall x s1, m s = (Ok x, s1) -> scanner_ok s1 -> s_active s1 = None -> concluded (s_queue s1) (after (k x) s1)) ->
  concluded (s_queue s) (after (m ≫= k) s).
Proof.
  intros Hm Hs Ha Hk. specialize (Hm s). unfold after, mbind, act_bind in *. destruct (m s) as [[x|e] s1] eqn:E; cbn [snd] in *.
  - eapply concluded_later; [exact Hm|done|done|]. by apply Hk.
  - by apply concluded_idle.
Qed.

Lemma start_batch_concluded q paths s :
  scanner_ok s -> s_active s = None -> accounted excused_from vouched_for (h_now h) q (s_queue s) ->
  (length paths <= READY_LIMIT)%nat -> (forall raw, In raw paths -> settled_since q raw) ->
  concluded q (after (start_batch h paths) s).
Proof.
  intros Hs Ha Hq0 Hlen Hall. unfold start_batch, after, mbind, act_bind, lift.
  destruct (reply (h_start h paths)) as [result|e]; [|split; [done|split; [done|by left]]].
  destruct (operation_of result) as [operation|]; cbn.
  - destruct Hs as [Hq Hm He Hscan].
    destruct (tracked_others excused_from vouched_for (h_now h) (s_queue s) (with_in_flight [(operation, paths)] (s_queue s)) eq_refl (fun x => x) Hq) as [Hq' Hacc].
    split; [by split|]. split; [by eapply accounted_trans|by right].
  - assert (scanner_ok (with_active None paths s)) as Hs1.
    { destruct Hs as [Hq Hm He Hscan]. split; [done..|]. unfold same_scan in *. by rewrite Ha in Hscan. }
    destruct (on_queue_follows _ _ _ None _ (retry_tracked excused_from vouched_for (h_now h) paths) (finished_flight paths false false) _ Hs1 eq_refl) as (Hs' & Ha' & Hacc).
    split; [done|]. split; [by eapply accounted_trans|by left].
Qed.

(** The status that ends a turn. *)
Lemma concluded_status q s state n detail : concluded q s -> concluded q (with_status (Status state n detail) s).
Proof. intros ([] & Hacc & Hlast). split; [by split|]. by split. Qed.

Lemma concluded_end {A} q (m : act scanner A) (detail : string) (label : option string -> string) s :
  concluded q (after m s) ->
  concluded q (after (_ ← m; n ← gets (fun s => pending (s_queue s)); active ← gets s_active; set_state (label active) n detail) s).
Proof.
  unfold after, mbind, act_bind. destruct (m s) as [[u|e] s1]; cbn [fst snd]; [|done]. apply concluded_status.
Qed.

Lemma observe_turn_concluded changed s : scanner_ok s -> s_active s = None -> concluded (s_queue s) (after (observe_turn uid h roots changed) s).
Proof.
  intros Hs Ha. unfold observe_turn. apply concluded_bind; [apply respects_lift; typeclasses eauto|done..|].
  intros info s1 _ Hs1 Ha1. apply concluded_bind; [|done..|].
  { apply respects_each; [typeclasses eauto|]. intros c. apply watches_follows, callback_watches. }
  intros u s2 _ Hs2 Ha2. destruct (generation info) as [current|]; [|by apply concluded_idle; [apply set_state_follows|..]].
  destruct (is_str "CURRENT" _); [|by apply concluded_idle; [apply set_state_follows|..]].
  destruct (next_batch_follows changed current s2 Hs2 Ha2) as (Hs3 & Ha3 & Hacc).
  destruct (next_batch uid h roots changed current s2) as [[paths|e] s3] eqn:Eb; unfold after in Hs3, Ha3, Hacc; rewrite Eb in Hs3, Ha3, Hacc; cbn [snd] in *.
  - apply next_batch_settled in Eb as Hb; [|done..]. destruct Hb as [Hlen Hall].
    unfold after, mbind, act_bind. rewrite Eb.
    apply (concluded_end _ (when (negb (length paths =? 0)%nat) (start_batch h paths)) OBSERVING
      (fun active => match active with Some _ => "SCANNING" | None => "WATCHING" end)%string).
    unfold when. destruct (negb _); [by apply start_batch_concluded|]. split; [done|]. split; [done|by left].
  - unfold after, mbind, act_bind. rewrite Eb. split; [done|]. split; [done|by left].
Qed.

(** ** The scan in flight *)

Definition kept (s s' : scanner) : Prop :=
  scanner_ok s -> scanner_ok s' /\ accounted excused_from vouched_for (h_now h) (s_queue s) (s_queue s').

#[export] Instance kept_preorder : PreOrder kept.
Proof.
  split; unfold kept.
  - intros s Hs. split; [done|apply accounted_refl].
  - intros s s1 s2 H1 H2 Hs. destruct (H1 Hs) as [Hs1 A1]. destruct (H2 Hs1) as [Hs2 A2]. split; [done|]. by eapply accounted_trans.
Qed.

Lemma follows_kept {A} (m : act scanner A) : (forall a, respects (follows a) m) -> respects kept m.
Proof. intros Hm s Hs. destruct (Hm (s_active s) s Hs eq_refl) as (? & _ & ?). done. Qed.

Lemma end_scan_kept : respects kept (_ ← on_queue clear_inflight; modify (with_active None [])).
Proof.
  intros s [Hq Hm He Hscan].
  destruct (tracked_others excused_from vouched_for (h_now h) (s_queue s) (with_in_flight [] (s_queue s)) eq_refl (fun x => x) Hq) as [Hq' Hacc].
  split; [by split|done].
Qed.

Lemma settle_scan_kept operation paths : respects kept (settle_scan h operation paths).
Proof.
  unfold settle_scan. repeat (apply respects_bind; [typeclasses eauto| |intros ?]).
  - apply respects_gets; typeclasses eauto.
  - apply follows_kept. intros active. apply set_state_follows.
  - apply respects_lift; typeclasses eauto.
  - apply respects_lift; typeclasses eauto.
  - match goal with |- context [if ?b then _ else _] => destruct b end; [apply respects_ret; typeclasses eauto|].
    apply respects_known; [typeclasses eauto|]. intros batch Hb.
    apply respects_bind; [typeclasses eauto| |intros ?; apply end_scan_kept].
    apply follows_kept. intros active. apply respects_each; [typeclasses eauto|]. intros raw.
    apply respects_known; [typeclasses eauto|]. intros receipt Hr. by eapply finished_follows.
Qed.

(** ** The end of a turn *)

(** A turn that began in [s] may end in [s']. *)
Definition turned (s s' : scanner) : Prop :=
  scanner_ok s' /\ accounted excused_from vouched_for (h_now h) (s_queue s) (s_queue s')
  /\ (s_active s = None -> s_active s' = None \/ ((length (s_paths s') <= READY_LIMIT)%nat /\ forall raw, In raw (s_paths s') -> settled_since (s_queue s) raw)).

Lemma paused_turned s s' e : turned s s' -> turned s (after (paused e) s').
Proof. intros ([] & Hacc & Hlast). split; [by split|]. by split. Qed.

Lemma opened_kept now q : tracked q (opened now q).
Proof.
  unfold opened. destruct (dget _ _) as [t|] eqn:E; [reflexivity|]. apply tracked_others; [done|].
  by rewrite E; intros [].
Qed.

Lemma opened_flight now q : inflight (opened now q) = inflight q.
Proof. unfold opened. by destruct (dget _ _). Qed.

Lemma restarted_turned s s' now : turned s s' -> turned s (after (start_worker now) s').
Proof.
  intros ([Hq Hm He Hscan] & Hacc & Hlast). unfold after, start_worker. cbn [snd modify].
  destruct (opened_kept now (s_queue s') Hq) as [Hq' Hacc']. pose proof Hscan as Hsame. unfold same_scan in Hsame.
  rewrite (opened_flight now (s_queue s')), Hsame.
  split; [split|split]; cbn; [done..| | |].
  - unfold same_scan. cbn. rewrite opened_flight, Hsame. by destruct (s_active s').
  - by eapply accounted_trans.
  - intros Ha. destruct (Hlast Ha) as [->|Hin]; [by left|]. destruct (s_active s'); [by right|by left].
Qed.
End turns.

Section reachable.
Context `{FloatText} `{Sha256} (uid : Z).

Lemma turned_refl h s : scanner_ok s -> turned uid h (s_roots s) s s.
Proof. intros Hs. split; [done|]. split; [apply accounted_refl|by left]. Qed.

Lemma work_turned h s : scanner_ok s -> turned uid h (s_roots s) s (after (worker_turn uid h) s).
Proof.
  intros Hs. unfold worker_turn, after, mbind, act_bind, gets. destruct (s_active s) as [operation|] eqn:Ea.
  - destruct (settle_scan_kept uid h (s_roots s) operation (s_paths s) s Hs) as [Hs' Hacc].
    split; [done|]. split; [done|]. by rewrite Ea.
  - cbn. assert (scanner_ok (with_arrived [] s)) as Hs1 by (destruct Hs; split; [done|done|cbn; lia|done]).
    destruct (observe_turn_concluded uid h (s_roots s) (s_events s) _ Hs1 Ea) as (Hs' & Hacc & Hlast). by split.
Qed.

Lemma attempt_turned h s : scanner_ok s -> turned uid h (s_roots s) s (after (attempt uid h) s).
Proof.
  intros Hs. unfold attempt, after, mbind, act_bind, gets. destruct (s_proxy s); [by apply (work_turned h s)|].
  unfold lift, modify. destruct (h_connect h) as [u|e]; [|by apply turned_refl].
  apply (work_turned h (with_proxy true s)). by destruct Hs.
Qed.

Lemma turn_turned h s : scanner_ok s -> turned uid h (s_roots s) s (after (turn uid h) s).
Proof.
  intros Hs. pose proof (attempt_turned h s Hs) as Ht. unfold turn, after, catch in *.
  destruct (attempt uid h s) as [[u|e] s1]; [done|]. cbn [snd] in Ht. destruct (turn_caught e).
  - by apply (paused_turned _ _ _ _ s1 e).
  - apply (restarted_turned uid h (s_roots s) s (after (set_state "PAUSED" 0 "The arrival observer will retry automatically in one minute.") s1)).
    destruct Ht as ([] & Hacc & Hlast). split; [by split|by split].
Qed.

(** ** Reachable states *)

(** The main loop runs a callback, the worker takes a turn, the session starts
    again with the database there is. *)
Inductive arrival_step : scanner -> scanner -> Prop :=
| step_callback c s : arrival_step s (after (run_callback c) s)
| step_turn h s : arrival_step s (after (turn uid h) s)
| step_restart now fixed watchable objects mounts s : arrival_step s (started_observer now fixed (s_queue s) watchable objects mounts).

Definition arrival_reachable (s : scanner) : Prop :=
  exists now fixed watchable objects mounts, rtc arrival_step (started_observer now fixed new_database watchable objects mounts) s.

Lemma start_ok now fixed q watchable objects mounts : queue_wf (opened now q) -> scanner_ok (started_observer now fixed q watchable objects mounts).
Proof.
  intros Hq. unfold started_observer.
  destruct (refresh_mounts_watches watchable objects mounts (Scanner q fixed fixed [] [] [] [] false STARTING false None [] 0 None)) as [Eq _ _ Hm He].
  cbn [s_queue s_monitors s_events] in *. unfold after at 1. unfold start_worker. cbn [snd modify].
  match goal with |- context [opened now (s_queue ?x)] => set (s1 := x) in * end. rewrite Eq.
  destruct (inflight (opened now q)) as [active paths] eqn:Ei.
  split; cbn [s_queue s_monitors s_events with_queue with_proxy with_active with_clock]; [done|apply Hm; cbn; lia|apply He; cbn; lia|].
  unfold same_scan. cbn. rewrite Ei. unfold inflight in Ei. destruct (in_flight _) as [|[o p] l]; by injection Ei as <- <-.
Qed.

Lemma new_database_ok now : queue_wf (opened now new_database).
Proof.
  split; cbn.
  - constructor.
  - intros p. unfold priority_count. cbn. unfold MAX_QUEUE. lia.
  - by intros r [].
  - by eexists.
Qed.

Lemma step_ok s s' : arrival_step s s' -> scanner_ok s -> scanner_ok s'.
Proof.
  intros Hstep Hs. destruct Hstep as [c s|h s|now fixed watchable objects mounts s].
  - destruct (watches_follows (fun _ => False) (fun _ => False) 0 (s_active s) _ (callback_watches c) s Hs eq_refl) as [? _]. done.
  - by destruct (turn_turned h s Hs).
  - apply start_ok. destruct (opened_kept uid (TurnHost (Ok tt) Ok (Ok "") (fun _ => Ok "") (fun _ => Ok "") ∅ 0 0 []) [] now (s_queue s) (ok_queue _ Hs)) as [? _]. done.
Qed.

Lemma reachable_ok s : arrival_reachable s -> scanner_ok s.
Proof.
  intros (now & fixed & watchable & objects & mounts & Hr).
  pose proof (start_ok now fixed new_database watchable objects mounts (new_database_ok now)) as Hok.
  induction Hr as [|s0 s1 s2 Hstep _ IH]; [done|]. by eapply IH, step_ok.
Qed.

(** ** Claims *)

(** C27. The observer is bounded whatever is reported, mounted or restarted: a file
    has one row, at most 8192 files wait or are remembered at each of the two
    priorities, and at most 512 directories are watched and 2048 events kept. *)
Theorem arrivals_bounded s :
  arrival_reachable s ->
  NoDup (map a_path (arrivals (s_queue s)))
  /\ (forall p, priority_count p (arrivals (s_queue s)) <= MAX_QUEUE)
  /\ (forall r, In r (arrivals (s_queue s)) -> a_priority r = 0 \/ a_priority r = 1)
  /\ (length (s_monitors s) <= MAX_MONITORS)%nat /\ (length (s_events s) <= MAX_EVENTS)%nat.
Proof.
  intros Hr. destruct (reachable_ok s Hr) as [[Hnd Hb Hrows _] Hm He _]. split_and!; try done.
  intros r Hin. apply priority_ok, Hrows, Hin.
Qed.

(** C20. A turn of the worker accounts for every file. Work that was pending is
    pending afterwards, unless the scanner answered that the file has a valid
    receipt or is scanned again only when it changes, or the file is no longer
    one to be scanned below an allowed root: an exception, a failed start of a
    scan or a full queue loses nothing. A file is completed only when the
    scanner answered a valid receipt for it in this turn. *)
Theorem arrivals_accounted s h raw :
  arrival_reachable s ->
  let s' := after (turn uid h) s in
  (pending_at raw (s_queue s) ->
     pending_at raw (s_queue s')
     \/ answered h is_valid raw \/ answered h waits_for_change raw
     \/ allowed (s_roots s) (parts_of raw) = false \/ identity uid (h_disk h) (parts_of raw) = None)
  /\ (completed_at raw (s_queue s') -> completed_at raw (s_queue s) \/ answered h is_valid raw).
Proof.
  intros Hr. destruct (turn_turned h s (reachable_ok s Hr)) as (_ & Hacc & _).
  split; [apply (kept_pending _ _ _ _ _ Hacc)|apply (kept_completed _ _ _ _ _ Hacc)].
Qed.

(** C13. The files of a scan that a turn starts: at most 32, recorded with the scan so
    that a restart finds them, and each a regular file of the user within the
    size limit, below a root that was allowed when the turn began, with no link
    on its path and no hidden or partial name, and the same inode, size and times
    as when it was observed eight seconds ago or more. *)
Theorem scanned_files_are_settled s h operation :
  arrival_reachable s -> s_active s = None -> s_active (after (turn uid h) s) = Some operation ->
  let s' := after (turn uid h) s in
  inflight (s_queue s') = (Some operation, s_paths s') /\ (length (s_paths s') <= READY_LIMIT)%nat
  /\ forall raw, In raw (s_paths s') ->
       exists row n, In row (arrivals (s_queue s)) /\ a_path row = raw /\ a_observed row <= h_now h - SETTLE_SECONDS * SECOND
         /\ lstat (h_disk h) (parts_of raw) = Ok n /\ n_kind n = Regular /\ n_uid n = uid /\ st_size n <= MAX_FILE_BYTES
         /\ a_signature row = sha256 (stat_text n) /\ allowed (s_roots s) (parts_of raw) = true
         /\ partial_name (last_name (parts_of raw)) = false
         /\ forall q, In q (steps_of (parts_of raw)) -> path_is_link (h_disk h) q = false.
Proof.
  intros Hr Ha Ho. destruct (turn_turned h s (reachable_ok s Hr)) as (Hok & _ & Hlast). cbn zeta.
  destruct (Hlast Ha) as [Hn|[Hlen Hall]]; [by rewrite Ho in Hn|]. split.
  - pose proof (ok_scan _ Hok) as Hscan. unfold same_scan in Hscan. by rewrite Ho in Hscan.
  - split; [done|]. intros raw Hin. destruct (Hall raw Hin) as (row & Hrow & Hp & Hobs & Hal & Hid).
    apply identity_Some in Hid as (n & Hn & Hk & Hu & Hsz & Hsig & Hpart & Hlinks). exists row, n. auto 20.
Qed.
End reachable.

(** * The arrival scanner: examples

    A file that arrives in Downloads and is handed to the scanner, the witnesses
    of the claims, and what the model showed about mounts, events and directories
    that come back. *)

#[local] Instance text_digest : Sha256 := {| sha256 := fun s => s |}.

Definition json (items : list (string * val)) : res string := Ok (dumps (VDict (dlit items))).

Definition clamav_reply (state : string) : res string :=
  json [("status", VStr state); ("engine_version", VStr "1.4.2"); ("database_version", VStr "27700")].

Definition receipts_reply (validity : string) (paths : list string) : res string :=
  json [("state", VStr "AVAILABLE");
        ("items", VList (map (fun raw => VDict (dlit [("path", VStr raw); ("info", VDict [("validity", VStr validity)])])) paths))].

Definition start_reply (paths : list string) : res string := json [("operation_id", VStr "scan-1")].
Definition ended_reply (operation : string) : res string := json [("state", VStr "COMPLETED")].

(** A turn at a number of seconds after the start. *)
Definition turn_at (seconds : Z) (clamav validity : string) (f : fs) (meanwhile : list callback) : turn_host :=
  TurnHost (Ok tt) ended_reply (clamav_reply clamav) (receipts_reply validity) start_reply f (START + seconds * SECOND) (seconds * SECOND) meanwhile.

Definition turned_at (seconds : Z) (clamav validity : string) (f : fs) (meanwhile : list callback) (s : scanner) : scanner :=
  after (turn 1000 (turn_at seconds clamav validity f meanwhile)) s.

Definition all_watchable (p : path) : bool := true.
Definition first_state : scanner := started_observer START [Downloads] new_database all_watchable (Ok []) [].

Definition observed_state : scanner := turned_at 2 "CURRENT" "UNKNOWN" desktop_disk [] first_state.
Definition scanning_state : scanner := turned_at 20 "CURRENT" "UNKNOWN" desktop_disk [] observed_state.
Definition scanned_state : scanner := turned_at 30 "CURRENT" "VALID" desktop_disk [] scanning_state.

Definition rows_of (s : scanner) : list (string * Z * Z) := map (fun r => (a_path r, a_done r, a_attempts r)) (arrivals (s_queue s)).

Example file_is_scanned :
  map rows_of [first_state; observed_state; scanning_state; scanned_state]
    = [[]; [("/home/ann/Downloads/a.pdf", 0, 0)]; [("/home/ann/Downloads/a.pdf", 0, 0)]; [("/home/ann/Downloads/a.pdf", 1, 1)]]
  /\ map s_active [first_state; observed_state; scanning_state; scanned_state] = [None; None; Some "scan-1"; None]
  /\ inflight (s_queue scanning_state) = (Some "scan-1", ["/home/ann/Downloads/a.pdf"]).
Proof. vm_compute. done. Qed.

Lemma turned_reachable seconds clamav validity f meanwhile s :
  arrival_reachable 1000 s -> arrival_reachable 1000 (turned_at seconds clamav validity f meanwhile s).
Proof.
  intros (now & fixed & watchable & objects & mounts & Hr). exists now, fixed, watchable, objects, mounts.
  eapply rtc_r; [exact Hr|]. apply step_turn.
Qed.

Lemma observed_reachable : arrival_reachable 1000 observed_state.
Proof. apply turned_reachable. by exists START, [Downloads], all_watchable, (Ok []), []. Qed.

Lemma scanning_reachable : arrival_reachable 1000 scanning_state.
Proof. apply turned_reachable, observed_reachable. Qed.

Lemma arrivals_bounded_witness :
  rows_of scanning_state = [("/home/ann/Downloads/a.pdf", 0, 0)] /\ NoDup (map a_path (arrivals (s_queue scanning_state)))
  /\ priority_count 1 (arrivals (s_queue scanning_state)) <= MAX_QUEUE /\ (length (s_monitors scanning_state) <= MAX_MONITORS)%nat.
Proof.
  split; [vm_compute; reflexivity|]. destruct (arrivals_bounded 1000 scanning_state scanning_reachable) as (Hnd & Hb & _ & Hm & _).
  split; [exact Hnd|]. split; [apply Hb|exact Hm].
Defined.

Definition pdf_row (done retry_at attempts : Z) : arrival :=
  Arrival "/home/ann/Downloads/a.pdf" "(1, 10, 6, 1790000001000000000, 1790000001000000000)" (START + 2 * SECOND) "scope-1|1.4.2|27700" done retry_at attempts 1.

Lemma scanning_rows : arrivals (s_queue scanning_state) = [pdf_row 0 0 0].
Proof. vm_compute. reflexivity. Qed.

Lemma scanned_rows : arrivals (s_queue (after (turn 1000 (turn_at 30 "CURRENT" "VALID" desktop_disk [])) scanning_state)) = [pdf_row 1 (START + 90 * SECOND) 1].
Proof. vm_compute. reflexivity. Qed.

Lemma arrivals_accounted_witness :
  pending_at "/home/ann/Downloads/a.pdf" (s_queue scanning_state)
  /\ answered (turn_at 30 "CURRENT" "VALID" desktop_disk []) is_valid "/home/ann/Downloads/a.pdf".
Proof.
  split; [exists (pdf_row 0 0 0); rewrite scanning_rows; split; [left; reflexivity|split; reflexivity]|].
  destruct (arrivals_accounted 1000 scanning_state (turn_at 30 "CURRENT" "VALID" desktop_disk []) "/home/ann/Downloads/a.pdf" scanning_reachable) as [_ Hdone].
  destruct Hdone as [(r & Hin & _ & Hd)|Hv].
  - exists (pdf_row 1 (START + 90 * SECOND) 1). rewrite scanned_rows. split; [left; reflexivity|split; reflexivity].
  - exfalso. rewrite scanning_rows in Hin. destruct Hin as [Heq|[]]. rewrite <- Heq in Hd. discriminate Hd.
  - exact Hv.
Defined.

Lemma scanned_files_are_settled_witness :
  s_active observed_state = None /\ s_paths scanning_state = ["/home/ann/Downloads/a.pdf"]
  /\ inflight (s_queue scanning_state) = (Some "scan-1", ["/home/ann/Downloads/a.pdf"])
  /\ exists row, In row (arrivals (s_queue observed_state)) /\ a_path row = "/home/ann/Downloads/a.pdf" /\ a_observed row <= START + 12 * SECOND.
Proof.
  destruct (scanned_files_are_settled 1000 observed_state (turn_at 20 "CURRENT" "UNKNOWN" desktop_disk []) "scan-1" observed_reachable) as (Hflight & _ & Hall);
    [vm_compute; reflexivity|vm_compute; reflexivity|].
  assert (s_paths scanning_state = ["/home/ann/Downloads/a.pdf"]) as Hpaths by (vm_compute; reflexivity).
  split; [vm_compute; reflexivity|]. split; [exact Hpaths|]. split; [rewrite <- Hpaths; exact Hflight|].
  destruct (Hall "/home/ann/Downloads/a.pdf") as (row & n & Hrow & Hp & Hobs & _); [change (In "/home/ann/Downloads/a.pdf" (s_paths scanning_state)); rewrite Hpaths; left; reflexivity|].
  exists row. split; [exact Hrow|]. split; [exact Hp|]. exact Hobs.
Defined.

(** ** What the model showed *)

(** A stick with a file. *)
Definition Stick : path := ["run"; "media"; "ann"; "STICK"].
Definition stick_file : string := "/run/media/ann/STICK/setup.bin".

Definition stick_disk : fs :=
  list_to_map [(["run"], dir 20); (["run"; "media"], dir 21); (["run"; "media"; "ann"], dir 22); (Stick, dir 23); (Stick ++ ["setup.bin"], file 24 "setup" START)] ∪ desktop_disk.

Definition plugged : callback :=
  Mounts all_watchable (Ok [UdisksObject "/drive" (Some "usb") None; UdisksObject "/block" None (Some ("/drive", Ok "/dev/sdb1"))])
    [Mount (Some "/dev/sdb1") (Some "/run/media/ann/STICK")].

(** The wake-up of a mount that is verified while the worker waits for the status
    of the scanner is consumed by a turn that took the roots before: the files of
    the stick are not looked for until the next periodic walk. *)
Lemma wake_up_is_lost :
  let during := turned_at 15 "CURRENT" "UNKNOWN" stick_disk [] (turned_at 2 "CURRENT" "UNKNOWN" stick_disk [plugged] first_state) in
  let before := turned_at 2 "CURRENT" "UNKNOWN" stick_disk [] (after (run_callback plugged) first_state) in
  allowed (s_roots during) (parts_of stick_file) = true /\ is_Some (identity 1000 stick_disk (parts_of stick_file))
  /\ row_at stick_file (arrivals (s_queue during)) = None /\ s_wake during = false /\ walk_of Stick (s_walks during) = None
  /\ s_next_walk during = 602 * SECOND /\ is_Some (row_at stick_file (arrivals (s_queue before))).
Proof. split_and!; try (vm_compute; reflexivity); eexists; vm_compute; reflexivity. Qed.

(** The events of a turn that finds the scanner without current definitions are
    dropped: a directory that was moved in with older files is not looked at
    later either, as the periodic walk passes them over. *)
Lemma paused_turn_drops_events :
  let reported := after (run_callback (Changed [Some "/home/ann/Downloads/mail"; None])) observed_state in
  let paused := turned_at 20 "OUTDATED" "UNKNOWN" desktop_disk [] reported in
  s_events reported = [Downloads ++ ["mail"]] /\ s_events paused = [] /\ walk_of (Downloads ++ ["mail"]) (s_walks paused) = None
  /\ row_at "/home/ann/Downloads/mail/b.zip" (arrivals (s_queue (turned_at 700 "CURRENT" "UNKNOWN" desktop_disk [] paused))) = None
  /\ is_Some (row_at "/home/ann/Downloads/mail/b.zip" (arrivals (s_queue (turned_at 40 "CURRENT" "UNKNOWN" desktop_disk [] reported)))).
Proof. split_and!; try (vm_compute; reflexivity); eexists; vm_compute; reflexivity. Qed.

(** The watermark of a directory outlives it: another one that is moved to its
    place is walked only for files changed since, so its older files are not
    scanned. *)
Definition moved_disk : fs := <[Downloads ++ ["mail"; "old.bin"] := file 30 "old" (START - 60 * SECOND)]> desktop_disk.

Definition moved_in (s : scanner) : scanner :=
  turned_at 120 "CURRENT" "UNKNOWN" moved_disk [] (after (run_callback (Changed [Some "/home/ann/Downloads/mail"; None])) s).

Lemma returned_directory_is_skipped :
  let walked_before := turned_at 60 "CURRENT" "UNKNOWN" desktop_disk [] (after (run_callback (Changed [Some "/home/ann/Downloads/mail"; None])) observed_state) in
  is_Some (identity 1000 moved_disk (parts_of "/home/ann/Downloads/mail/old.bin"))
  /\ is_Some (row_at "/home/ann/Downloads/mail/old.bin" (arrivals (s_queue (moved_in observed_state))))
  /\ row_at "/home/ann/Downloads/mail/old.bin" (arrivals (s_queue (moved_in walked_before))) = None.
Proof. split_and!; try (vm_compute; reflexivity); eexists; vm_compute; reflexivity. Qed.
