(* ===== verification/AppProjection.v ===== *)
(** * Application security: the projection of the broker ([application_security.py])

    The session shows what the root broker says of the applications of the user
    and of his protected resources. A reply is text: it is parsed, checked field
    by field, and served with a lease, or the read is unavailable. The broker and
    the system bus are arguments. *)
From S2P Require Import Prelude PyVal PyStr Json PyText PyTime TelemetryValues.

Definition SCHEMA : string := "greyward.application-security/v1".
Definition BROKER : string := "systems.mantis.greyward.ApplicationSecurity1".
Definition MAX_REPLY : Z := 256 * 1024.
Definition DEADLINE_SECONDS : Z := 6.
Definition U64_MAX : Z := Z.shiftl 1 64 - 1.
Definition U32_MAX : Z := Z.shiftl 1 32 - 1.
Definition HEALTH : list string := ["AVAILABLE"; "UNAVAILABLE"; "DEGRADED"; "UNKNOWN"].
Definition PROFILES : list string := ["PROTECTED"; "ISOLATED"; "TRUSTED"].
Definition COVERAGE : list string :=
  ["graphical_session"; "user_manager"; "direct_exec"; "services_and_scheduled_jobs"; "enrolled_remote_sessions";
   "protected_resource_labels"; "deputies_and_portals"].
Definition ISOLATION : list string :=
  ["private_home"; "filesystem_scope"; "namespaces"; "landlock"; "seccomp"; "network_denied"; "display_required"; "private_display"].

Definition invalid_projection : exn := ApplicationReadError "INVALID_PROJECTION".
Definition invalid_protection : exn := ApplicationReadError "INVALID_PROTECTION".
Definition invalid_identity : exn := ApplicationReadError "INVALID_IDENTITY".

(** ** Strict JSON

    [json.loads(raw, object_pairs_hook=_unique_object, parse_constant=_reject_constant)]:
    the parser of [Json] with its two hooks, which raise where an object is closed
    that has a name twice, and at a constant. *)
Fixpoint distinct_names (l : list (string * val)) : bool :=
  match l with [] => true | (k, _) :: l => negb (existsb (fun kv => String.eqb kv.1 k) l) && distinct_names l end.

(** [_unique_object(pairs)], [_reject_constant(_)]. *)
Definition _unique_object (pairs : list (string * val)) : res val :=
  if distinct_names pairs then Ok (VDict (dlit pairs)) else Err invalid_projection.
Definition _reject_constant : exn := invalid_projection.

Definition expecting_value : exn := ValueError "Expecting value".

Section strict.
Context `{FloatText}.

Definition or_refused {A} (o : option A) : res A := match o with Some a => Ok a | None => Err expecting_value end.

Fixpoint strict_value (fuel : nat) (s : string) : res (val * string) :=
  match fuel with
  | O => Err expecting_value
  | S fuel =>
      match s with
      | "" => Err expecting_value
      | String c r =>
          if ord c =? 34 then t ← or_refused (parse_string (String.length s) r); Ok (VStr t.1, t.2)
          else if Ascii.eqb c "[" then
            let r := skip_space r in
            match r with
            | String "]" r => Ok (VList [], r)
            | _ => l ← strict_items fuel r; Ok (VList l.1, l.2)
            end
          else if Ascii.eqb c "{" then
            let r := skip_space r in
            match r with
            | String "}" r => Ok (VDict [], r)
            | _ => l ← strict_members fuel r; v ← _unique_object l.1; Ok (v, l.2)
            end
          else if startswith "null" s then Ok (VNone, str_drop 4 s)
          else if startswith "true" s then Ok (VBool true, str_drop 4 s)
          else if startswith "false" s then Ok (VBool false, str_drop 5 s)
          else if startswith "NaN" s || startswith "Infinity" s || startswith "-Infinity" s then Err _reject_constant
          else or_refused (parse_number s)
      end
  end
with strict_items (fuel : nat) (s : string) : res (list val * string) :=
  match fuel with
  | O => Err expecting_value
  | S fuel =>
      v ← strict_value fuel s;
      match skip_space v.2 with
      | String "]" r => Ok ([v.1], r)
      | String "," r => l ← strict_items fuel (skip_space r); Ok (v.1 :: l.1, l.2)
      | _ => Err expecting_value
      end
  end
with strict_members (fuel : nat) (s : string) : res (list (string * val) * string) :=
  match fuel with
  | O => Err expecting_value
  | S fuel =>
      match s with
      | String q r =>
          if ord q =? 34 then
            k ← or_refused (parse_string (String.length s) r);
            match skip_space k.2 with
            | String ":" r =>
                v ← strict_value fuel (skip_space r);
                match skip_space v.2 with
                | String "}" r => Ok ([(k.1, v.1)], r)
                | String "," r => l ← strict_members fuel (skip_space r); Ok ((k.1, v.1) :: l.1, l.2)
                | _ => Err expecting_value
                end
            | _ => Err expecting_value
            end
          else Err expecting_value
      | _ => Err expecting_value
      end
  end.

Definition strict_loads (s : string) : res val :=
  v ← strict_value (S (String.length s)) (skip_space s);
  if String.eqb (skip_space v.2) "" then Ok v.1 else Err (ValueError "Extra data").

(** ** Checks *)

(** [_integer(value, maximum)]. *)
Definition _integer (v : val) (maximum : Z) : bool := match v with VInt n => (0 <=? n) && (n <=? maximum) | _ => false end.

(** [re.fullmatch(r"[0-9a-f]{64}", s)], [_reference(value, namespace)]. *)
Definition hex64 (s : string) : bool := str_forall hex_char s && (String.length s =? 64)%nat.
Definition is_hex64 (v : val) : bool := match v with VStr s => hex64 s | _ => false end.

Definition _reference (v : val) (namespace : string) : bool :=
  match v with
  | VStr s => startswith (namespace +:+ "_") s && hex64 (str_drop (S (String.length namespace)) s)
  | _ => false
  end.

(** [set(value) != set(expected)]; the dictionary that passes is returned. *)
Definition same_names (d : dict) (expected : list string) : bool :=
  forallb (fun kv => member kv.1 expected) d && forallb (fun k => match dget k d with Some _ => true | None => false end) expected.

Definition _fields (v : val) (expected : list string) : res dict :=
  match v with
  | VDict d => if same_names d expected then Ok d else Err invalid_projection
  | _ => Err invalid_projection
  end.

Definition _booleans (v : val) (fields : list string) : res dict :=
  d ← _fields v fields;
  _ ← require (forallb (fun kv => is_bool kv.2) d) invalid_projection;
  Ok d.

(** [if c1 or c2 or ...: raise e]: the conditions are evaluated in order. *)
Fixpoint refuse (e : exn) (conditions : list (res bool)) : res unit :=
  match conditions with
  | [] => Ok tt
  | c :: conditions => b ← c; if b : bool then Err e else refuse e conditions
  end.

(** [value not in {...}]. *)
Definition not_in (l : list string) (v : val) : res bool := negb <$> in_set l v.

Definition int_of (v : val) : Z := match v with VInt n => n | _ => 0 end.
Definition all_true (names : list string) (d : dict) : bool := forallb (fun k => is_true (get k d)) names.

Definition PROTECTION_FIELDS : list string :=
  ["requested_profile"; "effective_profile"; "health"; "coverage"; "isolation"; "reviewed_exception"; "policy_revision"; "evidence_age_ms"].

(** [COVERAGE - {"deputies_and_portals"}], [ISOLATION - {"display_required", "private_display"}]. *)
Definition REQUIRED_COVERAGE : list string := List.filter (fun k => negb (String.eqb k "deputies_and_portals")) COVERAGE.
Definition REQUIRED_ISOLATION : list string := List.filter (fun k => negb (member k ["display_required"; "private_display"])) ISOLATION.

Definition isolated (isolation : dict) : bool :=
  all_true REQUIRED_ISOLATION isolation && (negb (is_true (get "display_required" isolation)) || is_true (get "private_display" isolation)).

(** The conditions under which an available protection is refused. *)
Definition unproven (d coverage isolation : dict) (elapsed_ms : Z) : list (res bool) :=
  [Ok (negb (py_eq (get "effective_profile" d) (get "requested_profile" d)));
   Ok (negb (all_true REQUIRED_COVERAGE coverage));
   Ok (int_of (get "policy_revision" d) =? 0);
   Ok (is_none (get "evidence_age_ms" d));
   Ok (30000 <? int_of (get "evidence_age_ms" d) + elapsed_ms);
   Ok (is_str "ISOLATED" (get "requested_profile" d) && negb (isolated isolation));
   Ok (is_str "TRUSTED" (get "requested_profile" d) && negb (is_true (get "reviewed_exception" d)))].

(** [_protection(value, elapsed_ms)]: the value as it is afterwards, with the
    time of the transport added to the age of the evidence. *)
Definition _protection (v : val) (elapsed_ms : Z) : res val :=
  d ← _fields v PROTECTION_FIELDS;
  coverage ← _booleans (get "coverage" d) COVERAGE;
  isolation ← _booleans (get "isolation" d) ISOLATION;
  _ ← refuse invalid_projection
        [not_in PROFILES (get "requested_profile" d); not_in HEALTH (get "health" d); Ok (negb (is_bool (get "reviewed_exception" d)));
         Ok (negb (_integer (get "policy_revision" d) U64_MAX));
         Ok (negb (is_none (get "evidence_age_ms" d)) && negb (_integer (get "evidence_age_ms" d) U64_MAX))];
  let available := is_str "AVAILABLE" (get "health" d) in
  _ ← require (Bool.eqb available (negb (is_none (get "effective_profile" d)))) invalid_protection;
  if available then
    _ ← refuse invalid_protection (unproven d coverage isolation elapsed_ms);
    Ok (VDict (dset "evidence_age_ms" (VInt (int_of (get "evidence_age_ms" d) + elapsed_ms)) d))
  else Ok v.

(** A name that may be shown: [not value or len(value.encode('utf-8')) > 256 or
    any(ord(c) < 32 or 127 <= ord(c) <= 159 for c in value)] is refused. *)
Definition control_code (c : ascii) : bool := (ord c <? 32) || ((127 <=? ord c) && (ord c <=? 159)).
Definition shown_name (v : val) : bool :=
  match v with VStr s => negb (String.eqb s "") && (utf8_len s <=? 256) && negb (str_exists control_code s) | _ => false end.

Definition IDENTITY_FIELDS : list string := ["application_ref"; "installation_ref"; "generation"; "provider"; "owner_uid"; "provenance"].
Definition INSTALLERS : list string := ["RPM"; "FLATPAK"; "APP_IMAGE"; "MANUAL"; "SCRIPT"; "UNKNOWN"].
Definition PROVENANCE : list string := ["VERIFIED"; "UNVERIFIED"; "UNAVAILABLE"; "UNKNOWN"].

(** ["display_name" in identity]: a text or a list fails the check of fields
    afterwards, another value raises TypeError. *)
Definition has_display_name (v : val) : res bool :=
  match v with
  | VDict d => Ok match dget "display_name" d with Some _ => true | None => false end
  | VStr _ | VList _ => Ok false
  | _ => Err TypeError
  end.

(** The checks of an identity and its record. *)
Definition check_identity (record identity : dict) (uid : Z) : res unit :=
  refuse invalid_identity
    [Ok (negb (_reference (get "application_ref" identity) "application"));
     Ok (negb (_reference (get "installation_ref" identity) "installation"));
     Ok (negb (is_hex64 (get "generation" identity)));
     not_in INSTALLERS (get "provider" identity);
     Ok (negb (_integer (get "owner_uid" identity) U32_MAX)); Ok (negb (int_of (get "owner_uid" identity) =? uid));
     Ok (negb (_integer (get "first_seen" record) U64_MAX)); Ok (negb (_integer (get "last_seen" record) U64_MAX));
     Ok (int_of (get "last_seen" record) <? int_of (get "first_seen" record))].

Definition check_provenance (provenance : dict) : res unit :=
  let receipt := get "source_receipt" provenance in
  refuse invalid_identity
    [not_in PROVENANCE (get "state" provenance);
     Ok (negb (is_none receipt) && negb (is_hex64 receipt));
     Ok (is_str "VERIFIED" (get "state" provenance) && is_none receipt)].

(** [_detail(value, uid, elapsed_ms)]. *)
Definition _detail (v : val) (uid elapsed_ms : Z) : res val :=
  d ← _fields v ["record"; "protection"];
  record ← _fields (get "record" d) ["identity"; "first_seen"; "last_seen"];
  named ← has_display_name (get "identity" record);
  identity ← _fields (get "identity" record) (if named : bool then "display_name"%string :: IDENTITY_FIELDS else IDENTITY_FIELDS);
  _ ← require (negb named || shown_name (get "display_name" identity)) invalid_identity;
  _ ← check_identity record identity uid;
  provenance ← _fields (get "provenance" identity) ["state"; "source_receipt"];
  _ ← check_provenance provenance;
  p ← _protection (get "protection" d) elapsed_ms;
  Ok (VDict (dset "protection" p d)).

Definition CATEGORIES : list string := ["CREDENTIALS"; "CLOUD"; "DEVELOPMENT"; "BROWSER_SESSION"; "CUSTOM"].

(** [_resource(value, uid, revision)]. *)
Definition _resource (v : val) (uid : Z) (revision : val) : res unit :=
  d ← _fields v ["resource_ref"; "owner_uid"; "category"; "label"; "coverage"; "policy_revision"];
  refuse invalid_projection
    [Ok (negb (_reference (get "resource_ref" d) "resource"));
     Ok (negb (_integer (get "owner_uid" d) U32_MAX)); Ok (negb (int_of (get "owner_uid" d) =? uid));
     not_in CATEGORIES (get "category" d);
     Ok (negb (shown_name (get "label" d)));
     not_in ["UNKNOWN"; "PROTECTED"; "UNAVAILABLE"] (get "coverage" d);
     Ok (negb (_integer (get "policy_revision" d) U64_MAX));
     Ok (int_of (get "policy_revision" d) <? 1);
     negb <$> py_ge revision (get "policy_revision" d)].

(** ** The projection *)

(** The parameters of a request: [reference] of the one asked for, [limit],
    [revision] and [after] of a page. *)
Record request := Request { q_method : string; q_limit : Z; q_revision : option Z; q_reference : string; q_after : string }.

Definition text_in (v : val) : string := match v with VStr s => s | _ => "" end.
Definition dict_in (v : val) : dict := match v with VDict d => d | _ => [] end.
Definition list_in (v : val) : list val := match v with VList l => l | _ => [] end.

(** [item["record"]["identity"]["installation_ref"]]. *)
Definition installation_of (item : val) : string :=
  text_in (get "installation_ref" (dict_in (get "identity" (dict_in (get "record" (dict_in item)))))).

Definition text_before (s t : string) : bool := match String.compare s t with Gt => false | _ => true end.
Definition in_order (l : list string) : bool := bool_decide (l = sort_by text_before l).
Fixpoint distinct_texts (l : list string) : bool := match l with [] => true | s :: l => negb (member s l) && distinct_texts l end.

(** [after and any(item <= after for item in references)]. *)
Definition not_after (after : string) (references : list string) : bool :=
  negb (String.eqb after "") && existsb (fun s => text_before s after) references.

(** [references[-1] if len(references) == limit else None]. *)
Definition page_cursor (references : list string) (limit : Z) : val :=
  if Z.of_nat (length references) =? limit then match last references with Some s => VStr s | None => VNone end else VNone.

Definition check_coverage (v : val) (q : request) (uid elapsed_ms : Z) : res val :=
  d ← _fields v ["schema"; "inventory_health"; "protection"];
  _ ← refuse invalid_projection [not_in HEALTH (get "inventory_health" d)];
  p ← _protection (get "protection" d) elapsed_ms;
  Ok (VDict (dset "protection" p d)).

Definition check_application (v : val) (q : request) (uid elapsed_ms : Z) : res val :=
  d ← _fields v ["schema"; "application"];
  match get "application" d with
  | VNone => Ok (VDict d)
  | item =>
      item ← _detail item uid elapsed_ms;
      _ ← require (String.eqb (installation_of item) (q_reference q)) invalid_identity;
      Ok (VDict (dset "application" item d))
  end.

Definition check_applications (v : val) (q : request) (uid elapsed_ms : Z) : res val :=
  d ← _fields v ["schema"; "inventory_revision"; "inventory_health"; "applications"; "next_cursor"];
  _ ← refuse invalid_projection
        [Ok (negb (_integer (get "inventory_revision" d) U64_MAX)); not_in HEALTH (get "inventory_health" d);
         Ok match q_revision q with Some r => negb (int_of (get "inventory_revision" d) =? r) | None => false end;
         Ok (match get "applications" d with VList l => q_limit q <? Z.of_nat (length l) | _ => true end)];
  items ← mapM_res (fun item => _detail item uid elapsed_ms) (list_in (get "applications" d));
  let references := map installation_of items in
  _ ← require (distinct_texts references) invalid_identity;
  _ ← require (in_order references && negb (not_after (q_after q) references)) invalid_projection;
  _ ← require (py_eq (get "next_cursor" d) (page_cursor references (q_limit q))) invalid_projection;
  Ok (VDict (dset "applications" (VList items) d)).

Definition resource_ref (v : val) : string := text_in (get "resource_ref" (dict_in v)).

(** The revision of the policy and the resources under it. *)
Definition check_resource_list (d : dict) (resources : list val) (q : request) (uid : Z) : res (list string) :=
  let policy_revision := get "policy_revision" d in
  _ ← refuse invalid_projection
        [Ok (negb (_integer policy_revision U64_MAX)); Ok (int_of policy_revision =? 0);
         Ok match q_revision q with Some r => negb (r =? int_of policy_revision) | None => false end];
  mapM_res (fun r => _ ← _resource r uid policy_revision; Ok (resource_ref r)) resources.

Definition check_resources (v : val) (q : request) (uid elapsed_ms : Z) : res val :=
  d ← _fields v ["schema"; "policy_revision"; "inventory_health"; "resources"; "next_cursor"];
  _ ← require (is_str "UNKNOWN" (get "inventory_health" d)
               && match get "resources" d with VList l => Z.of_nat (length l) <=? q_limit q | _ => false end) invalid_projection;
  references ← check_resource_list d (list_in (get "resources" d)) q uid;
  _ ← require (distinct_texts references && in_order references && negb (not_after (q_after q) references)
               && py_eq (get "next_cursor" d) (page_cursor references (q_limit q))) invalid_projection;
  Ok (VDict d).

Definition check_resource (v : val) (q : request) (uid elapsed_ms : Z) : res val :=
  d ← _fields v ["schema"; "policy_revision"; "resource"];
  references ← check_resource_list d (match get "resource" d with VNone => [] | r => [r] end) q uid;
  _ ← require (match references with [] => true | l => bool_decide (l = [q_reference q]) end) invalid_projection;
  Ok (VDict d).

(** The check of each method. *)
Definition check_of (method : string) : option (val -> request -> Z -> Z -> res val) :=
  if String.eqb method "GetCoverage" then Some check_coverage
  else if String.eqb method "GetApplication" then Some check_application
  else if String.eqb method "ListApplications" then Some check_applications
  else if String.eqb method "ListProtectedResources" then Some check_resources
  else if String.eqb method "GetProtectedResource" then Some check_resource
  else None.

(** [except (ValueError, TypeError, RecursionError, UnicodeError)]. *)
Definition value_or_type (e : exn) : bool := is_value_error e || match e with TypeError => true | _ => false end.

(** [validate_projection(raw, method, uid, ...)]. *)
Definition validate_projection (raw : val) (q : request) (uid elapsed_ms : Z) : res dict :=
  match raw with
  | VStr text =>
      try_with
        (_ ← require (utf8_len text <=? MAX_REPLY) (ApplicationReadError "RESPONSE_LIMIT");
         value ← strict_loads text;
         match check_of (q_method q) with
         | None => Err (ApplicationReadError "INVALID_REQUEST")
         | Some check =>
             value ← check value q uid elapsed_ms;
             _ ← require (is_str SCHEMA (get "schema" (dict_in value))) (ApplicationReadError "INVALID_SCHEMA");
             Ok (dict_in value)
         end)
        value_or_type (fun _ => Err invalid_projection)
  | _ => Err (ApplicationReadError "RESPONSE_LIMIT")
  end.

(** ** Reads *)

(** What a read meets: the transport, the time it took and the moment of the
    answer. *)
Record read_host := ReadHost { rh_read : string -> list val -> res val; rh_elapsed_ms : Z; rh_observed : Z }.

(** [unavailable_read(reason)]. *)
Definition unavailable_read (now : Z) (reason : string) : dict :=
  dlit [("schema", VStr SCHEMA); ("source_state", VDict (dlit [("state", VStr "UNAVAILABLE"); ("reason", VStr reason)]));
        ("observed_at", VStr (isoformat now)); ("fresh_until", VStr (isoformat now)); ("projection", VNone)].

(** The protections of a projection, and how long they may be shown. *)
Definition protections (method : string) (d : dict) : list dict :=
  if String.eqb method "ListApplications" then map (fun item => dict_in (get "protection" (dict_in item))) (list_in (get "applications" d))
  else if String.eqb method "GetApplication" && truthy (get "application" d) then [dict_in (get "protection" (dict_in (get "application" d)))]
  else if String.eqb method "GetCoverage" then [dict_in (get "protection" d)]
  else [].

Definition lease_ms (l : list dict) : Z :=
  fold_left Z.min
    (map (fun p => 30000 - int_of (get "evidence_age_ms" p)) (List.filter (fun p => is_str "AVAILABLE" (get "health" p)) l)) 5000.

Definition is_read_error (e : exn) : bool := match e with ApplicationReadError _ => true | _ => false end.

Definition available_read (h : read_host) (method : string) (projection : dict) : dict :=
  dlit [("schema", VStr SCHEMA); ("source_state", VDict (dlit [("state", VStr "AVAILABLE"); ("reason", VNone)]));
        ("observed_at", VStr (isoformat (rh_observed h)));
        ("fresh_until", VStr (isoformat (rh_observed h + lease_ms (protections method projection) * 1000)));
        ("projection", VDict projection)].

(** [_read(method, signature, arguments, ...)]. *)
Definition _read (h : read_host) (uid : Z) (q : request) (arguments : list val) : res dict :=
  try_with
    (raw ← rh_read h (q_method q) arguments;
     _ ← require (rh_elapsed_ms h <? DEADLINE_SECONDS * 1000) (ApplicationReadError "BROKER_DEADLINE");
     projection ← validate_projection raw q uid (rh_elapsed_ms h);
     Ok (available_read h (q_method q) projection))
    is_read_error (fun e => Ok (unavailable_read (rh_observed h) (exn_text e))).

Definition invalid_request : exn := ApplicationReadError "INVALID_REQUEST".

(** [coverage()], [application(reference)], [applications(...)], [resource(reference)],
    [resources(...)]. *)
Definition coverage (h : read_host) (uid : Z) : res dict := _read h uid (Request "GetCoverage" 100 None "" "") [].

Definition application (h : read_host) (uid : Z) (reference : val) : res dict :=
  _ ← require (_reference reference "installation") invalid_request;
  _read h uid (Request "GetApplication" 100 None (text_in reference) "") [reference].

Definition resource (h : read_host) (uid : Z) (reference : val) : res dict :=
  _ ← require (_reference reference "resource") invalid_request;
  _read h uid (Request "GetProtectedResource" 100 None (text_in reference) "") [reference].

(** The page asked for: none without a revision. *)
Definition page_ok (namespace : string) (limit has_revision revision after : val) : bool :=
  _integer limit 100 && negb (int_of limit =? 0) && is_bool has_revision && _integer revision U64_MAX
  && match after with VStr s => String.eqb s "" || _reference after namespace | _ => false end
  && (is_true has_revision || ((int_of revision =? 0) && is_str "" after)).

Definition page_of (method : string) (limit has_revision revision after : val) : request :=
  Request method (int_of limit) (if is_true has_revision then Some (int_of revision) else None) "" (text_in after).

Definition applications (h : read_host) (uid : Z) (limit has_revision revision after : val) : res dict :=
  _ ← require (page_ok "installation" limit has_revision revision after) invalid_request;
  _read h uid (page_of "ListApplications" limit has_revision revision after) [limit; has_revision; revision; after].

Definition resources (h : read_host) (uid : Z) (limit has_revision revision after : val) : res dict :=
  _ ← require (page_ok "resource" limit has_revision revision after) invalid_request;
  _read h uid (page_of "ListProtectedResources" limit has_revision revision after) [limit; has_revision; revision; after].
End strict.
