(* ===== verification/AppWorkflows.v ===== *)
(** * Application security: reviewed changes ([application_workflows.py])

    The connections to the root broker and the reviews, launches and access events
    of a session. A review belongs to the process of the session bus it was
    prepared for; a change of the broker ends all of them. Times of the monotonic
    clock are in milliseconds. What the broker and the bus answer is an argument of
    each method; the messages that reach the broker are kept in the order they are
    sent. Credentials on the bus are integers. *)
From S2P Require Import Prelude PyVal PyStr Json PyText PyTime TelemetryValues TelemetryStore TelemetryRetention Files AppProjection.

Definition DEVELOPMENT_BROKER : string := "systems.mantis.greyward.ApplicationSecurityDevelopment1".
Definition RISKS : list string :=
  ["RAW_CREDENTIAL_ACCESS"; "IN_PROCESS_EXTENSIONS_SHARE_ACCESS"; "RESTART_REQUIRED_FOR_REVOCATION"; "BROADER_ORDINARY_FILE_ACCESS";
   "BROADER_NETWORK_ACCESS"].
Definition OUTCOMES : list string := ["PENDING"; "RUNNING"; "CANCEL_REQUESTED"; "VERIFYING"; "COMPLETED"; "FAILED"; "CANCELLED"; "EXPIRED"].
Definition FAILURES : list string :=
  ["AUTHORIZATION_REQUIRED"; "STALE_REVISION"; "IDENTITY_CHANGED"; "PROVIDER_UNAVAILABLE"; "ENFORCEMENT_UNAVAILABLE"; "READBACK_FAILED";
   "DEADLINE_EXCEEDED"; "WORKER_FAILED"].

Definition invalid_workflow : exn := ApplicationReadError "INVALID_WORKFLOW".
Definition broker_unavailable : exn := ApplicationReadError "BROKER_UNAVAILABLE".
Definition broker_changed : exn := ApplicationReadError "BROKER_CHANGED".

(** ** The broker *)

(** [st_uid == 0 and not st_mode & 0o022]. *)
Definition root_owned (n : node) : bool := (n_uid n =? 0) && (Z.land (n_mode n) 18 =? 0).

(** [selected_broker()]. *)
Definition SELECTION : path := ["etc"; "greyward"; "application-security-development.json"].

Definition root_directory (f : fs) (p : path) : bool := match lstat f p with Ok n => is_dir_node n && root_owned n | Err _ => false end.

Section broker.
Context `{FloatText}.

(** The file, opened without following a link at its last component. *)
Definition selection_of (f : fs) : bool :=
  match walk WALK f true [] (removelast SELECTION) with
  | Err _ => false
  | Ok d =>
      match open_at f d (List.last SELECTION "") with
      | Err _ => false
      | Ok p =>
          match node_at f p with
          | None => false
          | Some n =>
              is_reg_node n && root_owned n && (str_len (n_data n) <=? 1024)
              && match loads (n_data n) with Ok v => py_eq v (VDict (dlit [("schema", VStr AppProjection.SCHEMA); ("development_uid", VInt 1002)])) | Err _ => false end
          end
      end
  end.

Definition selected_broker (uid : Z) (f : fs) : string :=
  if negb (uid =? 1002) then BROKER
  else if forallb (root_directory f) [removelast (removelast SELECTION); removelast SELECTION] && selection_of f then DEVELOPMENT_BROKER else BROKER.

(** The bus: the disk with its socket, the connection, the owner of the name of
    the broker before and after the call, its credentials, the reply, and the
    milliseconds since the start of the read at each step. A socket is the only
    special node that is looked at. *)
Record bus_host := BusHost {
  b_disk : fs; b_connect : res unit; b_owner : res val; b_credentials : res val; b_reply : res val; b_owner_after : res val;
  b_elapsed : nat -> Z; b_close : res unit }.

Definition SOCKET : path := ["run"; "dbus"; "system_bus_socket"].

Definition check_socket (f : fs) : res unit :=
  run ← lstat f ["run"]; _ ← require (is_dir_node run && root_owned run) broker_unavailable;
  dir ← lstat f (removelast SOCKET); _ ← require (is_dir_node dir && root_owned dir) broker_unavailable;
  socket ← lstat f SOCKET;
  require (match n_kind socket with Special => n_uid socket =? 0 | _ => false end) broker_unavailable.

(** [re.fullmatch(r":[0-9]+\.[0-9]+", owner)]. *)
Definition digits (s : string) : bool := negb (String.eqb s "") && str_forall digit_char s.
Definition unique_name (s : string) : bool :=
  match s with
  | String c rest => Ascii.eqb c ":" && match split "." rest with [a; b] => digits a && digits b | _ => false end
  | "" => false
  end.

Definition int_credential (v : val) : res Z := match v with VInt n => Ok n | _ => Err TypeError end.

(** [except (OSError, dbus.DBusException, TypeError, ValueError)]. *)
Definition bus_caught (e : exn) : bool :=
  is_os_error e || is_value_error e || match e with TypeError | ProviderError _ => true | _ => false end.

(** [RootBrokerTransport.read(method, signature, arguments)]. *)
Definition in_time (h : bus_host) (step : nat) : res unit :=
  require (b_elapsed h step <? DEADLINE_SECONDS * 1000) (ApplicationReadError "BROKER_DEADLINE").

Definition check_credentials (v : val) : res unit :=
  d ← as_dict v;
  uid ← (match dget "UnixUserID" d with Some v => int_credential v | None => Ok (-1) end);
  pid ← (match dget "ProcessID" d with Some v => int_credential v | None => Ok 0 end);
  require ((uid =? 0) && (0 <? pid)) (ApplicationReadError "BROKER_AUTHORITY_UNAVAILABLE").

Definition read_calls (h : bus_host) : res val :=
  _ ← in_time h 0; o ← b_owner h; let owner := py_str o in
  _ ← require (unique_name owner) broker_unavailable;
  _ ← in_time h 1; credentials ← b_credentials h; _ ← check_credentials credentials;
  _ ← in_time h 2; result ← b_reply h;
  _ ← in_time h 3; current ← b_owner_after h;
  _ ← require (String.eqb (py_str current) owner) broker_changed;
  _ ← in_time h 4; Ok result.

Definition unavailable_on (p : exn -> bool) {A} (r : res A) : res A := try_with r p (fun _ => Err broker_unavailable).

Definition after_close (h : bus_host) (r : res val) : res val :=
  match unavailable_on (fun e => is_os_error e || match e with ProviderError _ => true | _ => false end) (b_close h) with Ok _ => r | Err e => Err e end.

Definition root_read (h : bus_host) : res val :=
  match (_ ← check_socket (b_disk h); b_connect h) with
  | Err e => unavailable_on bus_caught (Err e)
  | Ok _ => after_close h (unavailable_on bus_caught (read_calls h))
  end.

(** ** Checks *)

(** [decode(raw)]: the hooks of the parser raise their own error. *)
Definition decode (raw : val) : res val :=
  let text := py_str raw in
  _ ← require (utf8_len text <=? MAX_REPLY) invalid_workflow;
  try_with (strict_loads text) value_or_type (fun _ => Err invalid_workflow).

(** [len(set(l)) != len(l)]: an element that is not hashable raises. *)
Fixpoint distinct_vals (l : list val) : bool := match l with [] => true | v :: l => negb (existsb (py_eq v) l) && distinct_vals l end.
Definition repeated (l : list val) : res bool := if forallb hashable l then Ok (negb (distinct_vals l)) else Err TypeError.

(** [any(r not in RISKS for r in risks)]. *)
Fixpoint any_not_in (l : list val) (known : list string) : res bool :=
  match l with
  | [] => Ok false
  | v :: l => b ← not_in known v; if b : bool then Ok true else any_not_in l known
  end.

Definition REVIEW_FIELDS : list string :=
  ["operation_ref"; "installation_ref"; "generation"; "resource_refs"; "risks"; "expected_revision"; "expires_after_ms"].
Definition GRANT_RISKS : list string := ["RAW_CREDENTIAL_ACCESS"; "IN_PROCESS_EXTENSIONS_SHARE_ACCESS"].

Definition length_in (v : val) : Z := Z.of_nat (length (list_in v)).
Definition is_list (v : val) : bool := match v with VList _ => true | _ => false end.

Definition check_registration (review : dict) (uid : Z) : res unit :=
  next ← py_add_int (get "expected_revision" review) 1;
  _ ← _resource (get "resource" review) uid next;
  let resource := dict_in (get "resource" review) in
  require (py_eq (get "policy_revision" resource) next && is_str "UNKNOWN" (get "coverage" resource)) invalid_workflow.

Definition check_change (kind : string) (review : dict) : res unit :=
  let refs := get "resource_refs" review in
  let risks := get "risks" review in
  refuse invalid_workflow
    [Ok (negb (_reference (get "installation_ref" review) "installation"));
     Ok (negb (is_hex64 (get "generation" review)));
     Ok (negb (is_list refs)); Ok (negb ((1 <=? length_in refs) && (length_in refs <=? 64)));
     repeated (list_in refs);
     Ok (existsb (fun r => negb (_reference r "resource")) (list_in refs));
     Ok (negb (is_list risks)); Ok (5 <? length_in risks);
     any_not_in (list_in risks) RISKS;
     Ok (String.eqb kind "GRANT" && negb (forallb (fun k => existsb (is_str k) (list_in risks)) GRANT_RISKS))].

(** [validate_preview(value, uid)]: the kind and the review. *)
Definition grant_review (preview : val) : res val :=
  d ← _fields preview ["grant_ref"; "tool_profile"; "review"];
  _ ← require (_reference (get "grant_ref" d) "grant" && is_str "openssh-key-inspection/v1" (get "tool_profile" d)) invalid_workflow;
  Ok (get "review" d).

Definition validate_preview (v : val) (uid : Z) : res (string * dict) :=
  d ← _fields v ["kind"; "preview"];
  let kind := get "kind" d in
  review ← (if is_str "GRANT" kind then grant_review (get "preview" d) else Ok (get "preview" d));
  review ← (if is_str "REGISTRATION" kind then
              review ← _fields review ["operation_ref"; "resource"; "expected_revision"; "expires_after_ms"];
              _ ← check_registration review uid; Ok review
            else
              changes ← in_set ["GRANT"; "REVOCATION"] kind;
              _ ← require changes invalid_workflow;
              review ← _fields review REVIEW_FIELDS;
              _ ← check_change (text_in kind) review; Ok review);
  _ ← require (_reference (get "operation_ref" review) "operation"
               && _integer (get "expected_revision" review) U64_MAX && negb (int_of (get "expected_revision" review) =? 0)
               && _integer (get "expires_after_ms" review) 120000 && negb (int_of (get "expires_after_ms" review) =? 0)) invalid_workflow;
  Ok (text_in kind, review).

(** [validate_operation(value, reference)]. *)
Definition validate_operation (v : val) (reference : string) : res dict :=
  d ← _fields v ["operation_ref"; "outcome"; "committed_revision"; "verified_readback"; "failure"];
  let outcome := get "outcome" d in
  let completed := is_str "COMPLETED" outcome in
  let revision := get "committed_revision" d in
  let verified := get "verified_readback" d in
  let failure := get "failure" d in
  _ ← refuse invalid_workflow
        [Ok (negb (is_str reference (get "operation_ref" d))); not_in OUTCOMES outcome; Ok (negb (is_bool verified));
         Ok (negb (is_none revision) && (negb (_integer revision U64_MAX) || (int_of revision =? 0)));
         (if is_none failure then Ok false else not_in FAILURES failure);
         Ok (completed && (negb (is_true verified) || is_none revision || negb (is_none failure)));
         Ok (is_true verified && negb completed);
         Ok (in_strs ["FAILED"; "EXPIRED"] outcome && is_none failure)];
  Ok d.

(** ** The connection *)

(** A message to the broker: the connection it went to. *)
Record message := Message { m_owner : string; m_member : string; m_arguments : list val }.

Record workflow_transport := Transport { t_bus : bool; t_owner : option string; t_log : list message }.

Definition reset_owner : act workflow_transport unit := modify (fun t => Transport false None (t_log t)).

Definition connect_bus (h : bus_host) : act workflow_transport unit :=
  connected ← gets t_bus;
  if connected : bool then mret tt
  else _ ← lift (check_socket (b_disk h)); _ ← lift (b_connect h); modify (fun t => Transport true (t_owner t) (t_log t)).

(** The owner that is kept, once it is known to be root. *)
Definition keep_owner (h : bus_host) (current : string) : act workflow_transport unit :=
  owner ← gets t_owner;
  match owner with
  | Some _ => mret tt
  | None =>
      credentials ← lift (b_credentials h ≫= as_dict);
      uid ← lift (int_credential (getd "UnixUserID" (VInt (-1)) credentials));
      _ ← lift (require (unique_name current && (uid =? 0)) broker_unavailable);
      modify (fun t => Transport (t_bus t) (Some current) (t_log t))
  end.

Definition send (m : message) : act workflow_transport unit := modify (fun t => Transport (t_bus t) (t_owner t) (t_log t ++ [m])).

Definition call_body (h : bus_host) (member : string) (arguments : list val) : act workflow_transport val :=
  _ ← connect_bus h;
  o ← lift (b_owner h);
  let current := py_str o in
  _ ← keep_owner h current;
  owner ← gets t_owner;
  _ ← lift (require (bool_decide (owner = Some current)) broker_changed);
  _ ← send (Message current member arguments);
  result ← lift (b_reply h);
  later ← lift (b_owner_after h);
  _ ← lift (require (String.eqb (py_str later) current) broker_changed);
  mret result.

(** [WorkflowTransport.call(member, signature, arguments)]. *)
Definition transport_call (h : bus_host) (member : string) (arguments : list val) : act workflow_transport val :=
  (call_body h member arguments except bus_caught => (fun _ => raise broker_unavailable))%act.
End broker.

(** ** The workflows *)

(** A review of an actor: until when its outcome is kept, until when it may be
    applied, its kind and the review as the broker gave it. *)
Record review_entry := ReviewEntry { e_actor : string; e_keep : Z; e_expires : Z; e_kind : string; e_review : dict }.
Record launch_entry := LaunchEntry { l_actor : string; l_until : Z; l_graphical : bool }.
Record block_entry := BlockEntry { k_count : Z; k_expires : Z }.

Record workflows := Workflows {
  w_transport : workflow_transport; w_owners : list (string * review_entry); w_published : list string; w_launches : list (string * launch_entry);
  w_cursor : Z; w_blocks : list (string * block_entry); w_source : string; w_history : db }.

Definition new_workflows (history : db) : workflows := Workflows (Transport false None []) [] [] [] 0 [] "UNKNOWN" history.

Definition with_transport t (w : workflows) : workflows := Workflows t (w_owners w) (w_published w) (w_launches w) (w_cursor w) (w_blocks w) (w_source w) (w_history w).
Definition with_owners o p (w : workflows) : workflows := Workflows (w_transport w) o p (w_launches w) (w_cursor w) (w_blocks w) (w_source w) (w_history w).
Definition with_launches l (w : workflows) : workflows := Workflows (w_transport w) (w_owners w) (w_published w) l (w_cursor w) (w_blocks w) (w_source w) (w_history w).
Definition with_events c s (w : workflows) : workflows := Workflows (w_transport w) (w_owners w) (w_published w) (w_launches w) c (w_blocks w) s (w_history w).
Definition with_blocks b (w : workflows) : workflows := Workflows (w_transport w) (w_owners w) (w_published w) (w_launches w) (w_cursor w) b (w_source w) (w_history w).
Definition with_history d (w : workflows) : workflows := Workflows (w_transport w) (w_owners w) (w_published w) (w_launches w) (w_cursor w) (w_blocks w) (w_source w) d.

Definition on_transport {A} (m : act workflow_transport A) : act workflows A := fun w => let '(r, t) := m (w_transport w) in (r, with_transport t w).
Definition on_history {A} (m : act db A) : act workflows A := fun w => let '(r, d) := m (w_history w) in (r, with_history d w).

(** What a request meets: the bus, the monotonic clock when it starts and when the
    reply is there, the moment, the user and the machine. *)
Record work_host := WorkHost { wh_bus : bus_host; wh_start : Z; wh_answer : Z; wh_now : Z; wh_uid : Z; wh_event : event_host }.

Definition is_changed (e : exn) : bool := match e with ApplicationReadError m => String.eqb m "BROKER_CHANGED" | _ => false end.

(** Without the entries whose time is over. *)
Definition live {A} (until : A -> Z) (now : Z) (l : list (string * A)) : list (string * A) := List.filter (fun e => now <? until e.2) l.

Section workflows.
Context `{FloatText} `{Sqlite} (max_bytes : Z).

(** [_call(member, signature, arguments)]: after a change of the broker no review
    and no launch is carried over. *)
Definition forget_broker : act workflows unit :=
  modify (fun w => Workflows (after reset_owner (w_transport w)) [] [] [] 0 [] "UNAVAILABLE" (w_history w)).

Definition _call (h : work_host) (member : string) (arguments : list val) : act workflows val :=
  (on_transport (transport_call (wh_bus h) member arguments) except is_changed => (fun e => _ ← forget_broker; raise e))%act.

(** [administration_state()], [open_administration()]. *)
Definition administration_state (h : work_host) : act workflows dict :=
  raw ← _call h "GetAdministrationState" [];
  v ← lift (decode (VStr (py_str raw)));
  d ← lift (_fields v ["schema"; "available"; "active"; "authentication_window_seconds"]);
  _ ← lift (require (is_str "greyward.administration/v1" (get "schema" d) && is_bool (get "available" d) && is_bool (get "active" d)
                     && py_eq (get "authentication_window_seconds" d) (VInt 120)) invalid_workflow);
  mret d.

Definition open_administration (h : work_host) : act workflows dict :=
  opened ← _call h "RequestAdministration" [VList [VStr "-i"]];
  _ ← lift (require (truthy opened) (ApplicationReadError "ADMINISTRATION_UNAVAILABLE"));
  mret [("opened", VBool true)].

(** ** Reviews *)

Definition PREVIEWS : list string := ["PreviewResourceRegistration"; "PreviewPolicyChange"; "PreviewGrantRevocation"].
Definition MAX_REVIEWS : nat := 32.

Definition prune_reviews (now : Z) : act workflows unit :=
  modify (fun w =>
    let owners := live e_keep now (w_owners w) in
    with_owners owners (List.filter (fun r => member r (map fst owners)) (w_published w)) w).

(** The value with the reduced lease in its review, which a grant nests. *)
Definition with_lease (v : val) (kind : string) (review : dict) (lease : Z) : val :=
  let review := VDict (dset "expires_after_ms" (VInt lease) review) in
  let d := dict_in v in
  if String.eqb kind "GRANT" then VDict (dset "preview" (VDict (dset "review" review (dict_in (get "preview" d)))) d)
  else VDict (dset "preview" review d).

(** [preview(actor, member, signature, arguments)]: the answer of the broker and
    the review in it, and the entry that is kept of it. *)
Definition ask_review (h : work_host) (member : string) (arguments : list val) : act workflows (val * (string * dict)) :=
  _ ← lift (require (PyText.member member PREVIEWS) invalid_request);
  _ ← prune_reviews (wh_start h);
  n ← gets (fun w => length (w_owners w));
  _ ← lift (require (n <? MAX_REVIEWS)%nat (ApplicationReadError "WORKFLOW_CAPACITY"));
  raw ← _call h member arguments;
  v ← lift (decode (VStr (py_str raw)));
  r ← lift (validate_preview v (wh_uid h));
  _ ← lift (require (wh_answer h <? wh_start h + int_of (get "expires_after_ms" r.2)) (ApplicationReadError "REVIEW_EXPIRED"));
  mret (v, r).

Definition review_of (h : work_host) (actor kind : string) (review : dict) : review_entry :=
  let expires := wh_start h + int_of (get "expires_after_ms" review) in ReviewEntry actor (expires + 300000) expires kind review.

Definition preview (h : work_host) (actor member : string) (arguments : list val) : act workflows val :=
  x ← ask_review h member arguments;
  let '(v, (kind, review)) := x in
  let entry := review_of h actor kind review in
  _ ← modify (fun w => with_owners (put (text_in (get "operation_ref" review)) entry (w_owners w)) (w_published w) w);
  mret (with_lease v kind review (Z.max 1 (e_expires entry - wh_answer h))).

(** [record_event(value, user_store())]: in the store of the user; the copy for the
    journal is left out. *)
Definition record_for_user (now : Z) (v : dict) : act db bool :=
  (record max_bytes now (VDict v)
    except (fun e => is_os_error e || match e with TelemetryError _ | ProviderError _ => true | _ => false end) => (fun _ => mret false))%act.

Definition quality (state attribution confidence : string) : val :=
  VDict (dlit [("source_state", VStr state); ("attribution", VStr attribution); ("confidence", VStr confidence)]).

Definition policy_event (reference kind : string) (result summary : dict) : event_args :=
  EventArgs (VStr ("appsec-" +:+ reference)) VNone VNone (VStr "greyward-application-security") (VStr "root-broker-operation-readback")
    "APPLICATION_SECURITY" (VStr ("POLICY_" +:+ kind)) (VStr kind) (get "outcome" result) (VStr "INFO") (VStr "NORMAL") VNone
    (get "installation_ref" summary) VNone VNone VNone VNone (VDict [("operation_ref", VStr reference)])
    (VDict (dlit [("policy_revision", get "committed_revision" result); ("verified_readback", get "verified_readback" result);
                  ("resource_refs", getd "resource_refs" (VList []) summary); ("failure", get "failure" result)]))
    (quality "AVAILABLE" "EXACT" "EXACT") VNone [] "semantic".

(** [_record(reference, kind, result, summary)]. *)
Definition _record (h : work_host) (reference kind : string) (result summary : dict) : act db unit :=
  v ← lift (event (wh_now h) (wh_event h) (policy_event reference kind result summary));
  _ ← record_for_user (wh_now h) v; mret tt.

Definition SETTLED : list string := ["COMPLETED"; "FAILED"; "CANCELLED"; "EXPIRED"].
Definition ACTIONS : list string := ["GetOperation"; "ApplyPolicyChange"; "CancelOperation"].

(** [except (OSError, ValueError, RuntimeError, ImportError)]. *)
Definition history_caught (e : exn) : bool := is_os_error e || is_value_error e || match e with RuntimeError _ | TelemetryError _ => true | _ => false end.

(** A result that is final is recorded once. *)
Definition publish (h : work_host) (reference : string) (entry : review_entry) (result : dict) : act workflows unit :=
  known ← gets (fun w => PyText.member reference (w_published w));
  when (in_strs SETTLED (get "outcome" result) && negb known)
    ((_ ← on_history (_record h reference (e_kind entry) result (e_review entry));
      modify (fun w => with_owners (w_owners w) (reference :: w_published w) w))
     except history_caught => (fun _ => mret tt))%act.

(** [operation(actor, reference, action)]. *)
Definition operation (h : work_host) (actor : string) (reference : val) (action : string) : act workflows dict :=
  _ ← lift (require (_reference reference "operation" && PyText.member action ACTIONS) invalid_request);
  let name := text_in reference in
  found ← gets (fun w => dget name (w_owners w));
  match found with
  | None => raise (ApplicationReadError "REVIEW_OWNER_CHANGED")
  | Some entry =>
      _ ← lift (require (String.eqb (e_actor entry) actor && (wh_start h <? e_keep entry)) (ApplicationReadError "REVIEW_OWNER_CHANGED"));
      _ ← lift (require (negb (String.eqb action "ApplyPolicyChange") || (wh_start h <? e_expires entry)) (ApplicationReadError "REVIEW_EXPIRED"));
      raw ← _call h action (if String.eqb action "ApplyPolicyChange" then [reference; VBool true] else [reference]);
      v ← lift (decode (VStr (py_str raw)));
      result ← lift (validate_operation v name);
      _ ← publish h name entry result;
      mret result
  end.

(** ** Grants *)

Definition with_capabilities (v : val) : res dict :=
  let default := VDict (dlit [("isolation", VBool false); ("policy_changes", VBool false)]) in
  match v with
  | VDict d => Ok match dget "capabilities" d with Some _ => d | None => dset "capabilities" default d end
  | VStr s => if str_contains "capabilities" s then Err invalid_projection else Err TypeError
  | VList l => if existsb (is_str "capabilities") l then Err invalid_projection else Err TypeError
  | _ => Err TypeError
  end.

Definition check_grant (uid revision : Z) (seen : list string) (v : val) : res (list string) :=
  d ← _fields v ["grant_ref"; "owner_uid"; "installation_ref"; "generation"; "resources"; "access"; "lifetime"; "policy_revision"];
  let listed := get "resources" d in
  _ ← refuse invalid_workflow
        [Ok (negb (_reference (get "grant_ref" d) "grant")); Ok (PyText.member (text_in (get "grant_ref" d)) seen);
         Ok (negb (py_eq (get "owner_uid" d) (VInt uid)));
         Ok (negb (_reference (get "installation_ref" d) "installation")); Ok (negb (is_hex64 (get "generation" d)));
         Ok (negb (is_list listed)); Ok (negb ((1 <=? length_in listed) && (length_in listed <=? 64)));
         Ok (existsb (fun r => negb (_reference r "resource")) (list_in listed));
         Ok (negb (py_eq (get "access" d) (VList [VStr "READ"]))); Ok (negb (py_eq (get "lifetime" d) (VDict [("kind", VStr "PERSISTENT")])));
         Ok (negb (_integer (get "policy_revision" d) U64_MAX));
         Ok (negb ((1 <=? int_of (get "policy_revision" d)) && (int_of (get "policy_revision" d) <=? revision)))];
  Ok (text_in (get "grant_ref" d) :: seen).

(** [grants()]. *)
Definition grants (h : work_host) : act workflows dict :=
  raw ← _call h "ListAccessGrants" [];
  v ← lift (decode (VStr (py_str raw)));
  d ← lift (with_capabilities v);
  d ← lift (_fields (VDict d) ["schema"; "policy_revision"; "enforcement_health"; "grants"; "capabilities"]);
  capabilities ← lift (_fields (get "capabilities" d) ["isolation"; "policy_changes"]);
  _ ← lift (require (forallb (fun kv => is_bool kv.2) capabilities) invalid_workflow);
  let revision := get "policy_revision" d in
  _ ← lift (require (is_str AppProjection.SCHEMA (get "schema" d) && is_str "UNKNOWN" (get "enforcement_health" d)
                     && _integer revision U64_MAX && negb (int_of revision =? 0)
                     && is_list (get "grants" d) && (length_in (get "grants" d) <=? 256)) invalid_workflow);
  _ ← lift (foldM (check_grant (wh_uid h) (int_of revision)) [] (list_in (get "grants" d)));
  mret d.

(** ** Launches *)

Definition MAX_LAUNCHES : nat := 32.
Definition LAUNCH_MS : Z := 90000.

Definition launch_member (handler : option val) (graphical : bool) : string :=
  match handler with
  | Some _ => "PrepareSelectedDocumentLaunch"
  | None => if graphical then "PrepareGraphicalLaunch" else "PrepareIsolatedLaunch"
  end.

Definition launch_arguments (descriptor : val) (handler : option val) (arguments : list val) (graphical : bool) : list val :=
  match handler with
  | Some handler => [descriptor; handler; VList arguments; VBool graphical]
  | None => [descriptor; VList arguments]
  end.

(** [prepare_launch(actor, descriptor, graphical, handler, arguments)]: an absent
    handler is none. *)
Definition ask_launch (h : work_host) (descriptor : val) (graphical : bool) (handler : option val) (arguments : list val) : act workflows string :=
  _ ← modify (fun w => with_launches (live l_until (wh_start h) (w_launches w)) w);
  n ← gets (fun w => length (w_launches w));
  _ ← lift (require (n <? MAX_LAUNCHES)%nat (ApplicationReadError "WORKFLOW_CAPACITY"));
  raw ← _call h (launch_member handler graphical) (launch_arguments descriptor handler arguments graphical);
  _ ← lift (require (_reference (VStr (py_str raw)) "launch") invalid_workflow);
  mret (py_str raw).

Definition launch_prepared (reference : string) (graphical : bool) : dict :=
  dlit [("schema", VStr AppProjection.SCHEMA); ("launch_ref", VStr reference); ("requested_profile", VStr "ISOLATED");
        ("enforcement_health", VStr "UNKNOWN"); ("private_display_requested", VBool graphical); ("expires_after_ms", VInt 90000)].

Definition prepare_launch (h : work_host) (actor : string) (descriptor : val) (graphical : bool) (handler : option val) (arguments : list val) : act workflows dict :=
  reference ← ask_launch h descriptor graphical handler arguments;
  _ ← modify (fun w => with_launches (put reference (LaunchEntry actor (wh_answer h + LAUNCH_MS) graphical) (w_launches w)) w);
  mret (launch_prepared reference graphical).

(** [start_launch(actor, reference)]: [taken] is the outcome of taking the
    descriptors of the three streams. *)
Definition start_launch (h : work_host) (actor reference : string) (taken : res unit) : act workflows dict :=
  found ← gets (fun w => dget reference (w_launches w));
  match found with
  | None => raise (ApplicationReadError "REVIEW_OWNER_CHANGED")
  | Some entry =>
      _ ← lift (require (String.eqb (l_actor entry) actor && (wh_start h <? l_until entry)) (ApplicationReadError "REVIEW_OWNER_CHANGED"));
      _ ← modify (fun w => with_launches (List.filter (fun l => negb (String.eqb l.1 reference)) (w_launches w)) w);
      streams ← _call h "StartPreparedLaunch" [VStr reference];
      _ ← lift (require (length_in streams =? 3) invalid_workflow);
      _ ← (lift taken except (fun e => is_os_error e || match e with AttributeError | TypeError => true | _ => false end) => (fun _ => raise invalid_workflow))%act;
      mret (dlit [("schema", VStr AppProjection.SCHEMA); ("launch_ref", VStr reference); ("state", VStr "LAUNCHED");
                  ("isolation_established", VBool true); ("enforcement_health", VStr "UNKNOWN"); ("private_display", VBool (l_graphical entry))])
  end.

(** [launch_exit(reference)]. *)
Definition launch_exit (h : work_host) (reference : string) : act workflows (option Z) :=
  result ← _call h "GetLaunch" [VStr reference];
  match result with
  | VList [ended; code] =>
      n ← lift (int_credential code);
      _ ← lift (require ((0 <=? n) && (n <=? 255)) invalid_workflow);
      mret (if truthy ended then Some n else None)
  | _ => raise invalid_workflow
  end.

(** [BrokerLaunchProcess]: the process of a launch, by its reference, with its
    code once it is known. [poll()], and [wait(timeout)] over the polls to come,
    each with the monotonic clock after it; the wait lasts at most until [limit]. *)
Record launch_process := LaunchProcess { lp_reference : string; lp_returncode : option Z; lp_deadline : Z }.

Definition new_process (now : Z) (reference : string) : launch_process := LaunchProcess reference None (now + 3660000).

Definition poll (h : work_host) (p : launch_process) : act workflows launch_process :=
  match lp_returncode p with
  | Some _ => mret p
  | None => code ← launch_exit h (lp_reference p); mret (LaunchProcess (lp_reference p) code (lp_deadline p))
  end.

Definition wait_limit (now : Z) (timeout : option Z) (p : launch_process) : Z :=
  match timeout with None => lp_deadline p | Some t => Z.min (lp_deadline p) (now + Z.max 0 t) end.

Fixpoint wait (polls : list (work_host * Z)) (limit : Z) (p : launch_process) : act workflows (option launch_process) :=
  match polls with
  | [] => mret None
  | (h, now) :: polls =>
      p ← poll h p;
      match lp_returncode p with
      | Some _ => mret (Some p)
      | None => _ ← lift (require (now <? limit) (ApplicationReadError "LAUNCH_OUTCOME_UNCONFIRMED")); wait polls limit p
      end
  end.

(** ** Access events *)

Definition EVENT_FIELDS : list string := ["sequence"; "event_id"; "resource_ref"; "action"; "decision"; "attribution"].
Definition OPTIONAL_FIELDS : list string := ["process"; "occurred_at_ms"; "policy_revision"].

(** [re.fullmatch(r"[A-Za-z0-9._+\-]{1,128}", name)]. *)
Definition executable_char (c : ascii) : bool :=
  digit_char c || ((65 <=? ord c) && (ord c <=? 90)) || ((97 <=? ord c) && (ord c <=? 122)) || existsb (Z.eqb (ord c)) [46; 95; 43; 45].
Definition executable_name (v : val) : bool :=
  match v with VStr s => str_forall executable_char s && (1 <=? String.length s)%nat && (String.length s <=? 128)%nat | _ => false end.

Definition check_process (v : val) : res unit :=
  if is_none v then Ok tt
  else
    d ← _fields v ["pid"; "executable_name"; "source"];
    require (_integer (get "pid" d) U32_MAX && negb (int_of (get "pid" d) =? 0) && is_str "KERNEL_AUDIT" (get "source" d)
             && executable_name (get "executable_name" d)) invalid_workflow.

Definition event_fields (v : val) : res dict :=
  match v with
  | VDict d =>
      if forallb (fun k => match dget k d with Some _ => true | None => false end) EVENT_FIELDS
         && forallb (fun kv => PyText.member kv.1 (EVENT_FIELDS ++ OPTIONAL_FIELDS)) d
      then Ok d else Err invalid_workflow
  | _ => Err invalid_workflow
  end.

(** The check of an event after the sequence number: the next one. *)
Definition check_event (sequence : Z) (v : val) : res Z :=
  d ← event_fields v;
  _ ← refuse invalid_workflow
        [Ok (negb (_integer (get "sequence" d) U64_MAX)); Ok (int_of (get "sequence" d) <=? sequence);
         Ok (let s := py_str (get "event_id" d) in negb (startswith "appsec-denial-" s && hex64 (str_drop 14 s)));
         Ok (negb (_reference (get "resource_ref" d) "resource"));
         not_in ["READ"; "WRITE"; "OPEN"] (get "action" d);
         Ok (negb (is_str "DENIED" (get "decision" d))); Ok (negb (is_str "UNKNOWN" (get "attribution" d)))];
  _ ← check_process (get "process" d);
  let revision := get "policy_revision" d in
  _ ← require (is_none revision || (_integer revision U64_MAX && negb (int_of revision =? 0))) invalid_workflow;
  let occurred := get "occurred_at_ms" d in
  _ ← require (is_none occurred || _integer occurred 253402300799999) invalid_workflow;
  Ok (int_of (get "sequence" d)).

Definition check_batch (d : dict) (cursor : Z) : res unit :=
  _ ← require (is_str AppProjection.SCHEMA (get "schema" d)) invalid_workflow;
  _ ← refuse invalid_workflow
        [not_in ["AVAILABLE"; "UNAVAILABLE"] (get "source_state" d); Ok (negb (_integer (get "cursor" d) U64_MAX));
         Ok (negb (is_bool (get "truncated" d))); Ok (negb (is_list (get "events" d))); Ok (100 <? length_in (get "events" d));
         Ok (negb (is_str "AVAILABLE" (get "source_state" d)) && negb (length_in (get "events" d) =? 0))];
  let from := if (int_of (get "cursor" d) <? cursor) && is_true (get "truncated" d) then 0 else cursor in
  last ← foldM check_event from (list_in (get "events" d));
  require ((length_in (get "events" d) =? 0) || (last =? int_of (get "cursor" d))) invalid_workflow.

Definition denial_details (d : dict) (truncated : val) : dict :=
  let with_value k name l := if is_none (get k d) then l else dset name (get k d) l in
  with_value "policy_revision"%string "policy_revision"%string
    (with_value "process"%string "observed_process"%string (dlit [("resource_refs", VList [get "resource_ref" d]); ("audit_truncated", truncated)])).

Definition denial_event (d : dict) (truncated : val) : event_args :=
  EventArgs (get "event_id" d)
    (match get "occurred_at_ms" d with VInt ms => VStr (stamp (ms * 1000)) | _ => VNone end) VNone
    (VStr "greyward-application-security") (VStr "root-kernel-selinux-audit")
    "APPLICATION_SECURITY" (VStr "SENSITIVE_ACCESS_BLOCKED") (get "action" d) (VStr "DENIED") (VStr "INFO") (VStr "NORMAL") VNone
    VNone VNone VNone VNone (VStr "DENIED") VNone (VDict (denial_details d truncated))
    (quality (if is_true truncated then "PARTIAL" else "AVAILABLE") "UNKNOWN" "KERNEL_DECISION") VNone [] "investigation".

Definition BLOCK_MS : Z := 300000.
Definition MAX_BLOCKS : nat := 256.

Definition count_block (clock : Z) (reference : string) (l : list (string * block_entry)) : list (string * block_entry) :=
  let previous := match dget reference l with Some b => k_count b | None => 0 end in
  put reference (BlockEntry (Z.min 1000000 (previous + 1)) (clock + BLOCK_MS)) l.

Definition record_denial (h : work_host) (truncated v : val) : act workflows unit :=
  let d := dict_in v in
  value ← lift (event (wh_now h) (wh_event h) (denial_event d truncated));
  recorded ← on_history (record_for_user (wh_now h) value);
  when recorded (modify (fun w => with_blocks (count_block (wh_answer h) (text_in (get "resource_ref" d)) (w_blocks w)) w)).

Definition reconcile_body (h : work_host) : act workflows unit :=
  cursor ← gets w_cursor;
  raw ← _call h "ReadSecurityEvents" [VInt cursor; VInt 100];
  v ← lift (decode (VStr (py_str raw)));
  d ← lift (_fields v ["schema"; "source_state"; "cursor"; "truncated"; "events"]);
  cursor ← gets w_cursor;
  _ ← lift (check_batch d cursor);
  _ ← each (record_denial h (get "truncated" d)) (list_in (get "events" d));
  modify (with_events (int_of (get "cursor" d)) (text_in (get "source_state" d))).

(** [except (ApplicationReadError, OSError, ValueError, RuntimeError)]. *)
Definition reconcile_caught (e : exn) : bool := is_read_error e || history_caught e.

Definition trim_blocks (now : Z) (l : list (string * block_entry)) : list (string * block_entry) := last_n MAX_BLOCKS (live k_expires now l).

(** [reconcile_access_events()]. *)
Definition reconcile_access_events (h : work_host) : act workflows unit :=
  _ ← (reconcile_body h except reconcile_caught => (fun _ => cursor ← gets w_cursor; modify (with_events cursor "UNAVAILABLE")))%act;
  modify (fun w => with_blocks (trim_blocks (wh_answer h) (w_blocks w)) w).

(** [recent_access_blocks()]. *)
Definition recent_access_blocks (now : Z) (w : workflows) : list dict :=
  map (fun e => dlit [("resource_ref", VStr e.1); ("count", VInt (k_count e.2))]) (live k_expires now (w_blocks w)).
End workflows.
