(* ===== verification/AppClaims.v ===== *)
(** * Application security: claims

    What is served of a reply, which connection it comes from, and what a review
    allows its actor. *)
From stdpp Require Import sorting.
From S2P Require Import Prelude PyVal PyStr Json JsonRound JsonExample PyText PyTime TelemetryValues TelemetryStore TelemetryRetention Files AppProjection AppWorkflows.

(** ** The strict parser *)

(** Decides which of the characters the code looks for [a] is. *)
Ltac ascii_cases a :=
  let x := fresh in destruct a as [x ? ? ? ? ? ? ?]; repeat match goal with b : bool |- _ => destruct b end.

Section strict.
Context `{FloatText}.

Lemma or_refused_Ok {A} (o : option A) a : or_refused o = Ok a <-> o = Some a.
Proof. destruct o; split; intros Hx; by simplify_eq/=. Qed.

Lemma unique_object_Ok l v : _unique_object l = Ok v -> v = VDict (dlit l) /\ distinct_names l = true.
Proof. unfold _unique_object. destruct (distinct_names l); [by intros [= <-]|done]. Qed.

(** What the strict parser accepts, the other parser reads in the same way. *)
Lemma strict_parse fuel :
  (forall s v r, strict_value fuel s = Ok (v, r) -> parse_value fuel s = Some (v, r))
  /\ (forall s l r, strict_items fuel s = Ok (l, r) -> parse_items fuel s = Some (l, r))
  /\ (forall s l r, strict_members fuel s = Ok (l, r) -> parse_members fuel s = Some (l, r)).
Proof.
  induction fuel as [|fuel (IHv & IHi & IHm)]; [split; [|split]; intros; done|]. split; [|split].
  - intros s v r. cbn [strict_value parse_value]. destruct s as [|c s]; [done|]. destruct (ord c =? 34).
    { intros Hx. apply bind_Ok in Hx as ([t r'] & Ht & Hx). apply or_refused_Ok in Ht. rewrite Ht. by injection Hx as <- <-. }
    destruct (Ascii.eqb c "["); [|destruct (Ascii.eqb c "{")].
    + assert (forall t, (l ← strict_items fuel t; Ok (VList l.1, l.2)) = Ok (v, r) ->
        match parse_items fuel t with Some (l, r) => Some (VList l, r) | None => None end = Some (v, r)) as Hitems.
      { intros t Hx. apply bind_Ok in Hx as ([l r'] & Hl & Hx). rewrite (IHi _ _ _ Hl). by injection Hx as <- <-. }
      destruct (skip_space s) as [|a t]; [apply Hitems|]. ascii_cases a; (apply Hitems || by intros [= <- <-]).
    + assert (forall t, (l ← strict_members fuel t; v ← _unique_object l.1; Ok (v, l.2)) = Ok (v, r) ->
        match parse_members fuel t with Some (l, r) => Some (VDict (dlit l), r) | None => None end = Some (v, r)) as Hmembers.
      { intros t Hx. apply bind_Ok in Hx as ([l r'] & Hl & Hx). apply bind_Ok in Hx as (d & Hd & Hx). apply unique_object_Ok in Hd as [-> _].
        rewrite (IHm _ _ _ Hl). by injection Hx as <- <-. }
      destruct (skip_space s) as [|a t]; [apply Hmembers|]. ascii_cases a; (apply Hmembers || by intros [= <- <-]).
    + destruct (startswith "null" _); [by intros [= <- <-]|]. destruct (startswith "true" _); [by intros [= <- <-]|].
      destruct (startswith "false" _); [by intros [= <- <-]|].
      destruct (startswith "NaN" _); [done|]. destruct (startswith "Infinity" _); [done|]. destruct (startswith "-Infinity" _); [done|].
      by intros ->%or_refused_Ok.
  - intros s l r. cbn [strict_items parse_items]. intros Hx. apply bind_Ok in Hx as ([v r'] & Hv & Hx). rewrite (IHv _ _ _ Hv). cbn [fst snd] in Hx.
    destruct (skip_space r') as [|a t]; [done|]. revert Hx. ascii_cases a; try done; [by intros [= <- <-]|].
    intros Hx. apply bind_Ok in Hx as ([l' r2] & Hl & Hx). rewrite (IHi _ _ _ Hl). by injection Hx as <- <-.
  - intros s l r. cbn [strict_members parse_members]. destruct s as [|q s]; [done|]. destruct (ord q =? 34); [|done].
    intros Hx. apply bind_Ok in Hx as ([k r1] & Hk & Hx). apply or_refused_Ok in Hk. rewrite Hk. cbn [fst snd] in Hx.
    destruct (skip_space r1) as [|a t]; [done|]. revert Hx. ascii_cases a; try done.
    intros Hx. apply bind_Ok in Hx as ([v r2] & Hv & Hx). rewrite (IHv _ _ _ Hv). cbn [fst snd] in Hx.
    destruct (skip_space r2) as [|b u]; [done|]. revert Hx. ascii_cases b; try done; [by intros [= <- <-]|].
    intros Hx. apply bind_Ok in Hx as ([l' r3] & Hl & Hx). rewrite (IHm _ _ _ Hl). by injection Hx as <- <-.
Qed.

Lemma strict_loads_loads s v : strict_loads s = Ok v -> loads s = Ok v.
Proof.
  unfold strict_loads, loads. intros Hx. apply bind_Ok in Hx as ([w r] & Hw & Hx).
  destruct (strict_parse (S (String.length s))) as [Hparse _]. rewrite (Hparse _ _ _ Hw). cbn [fst snd] in Hx.
  destruct (String.eqb _ _); [|done]. by injection Hx as ->.
Qed.
End strict.

(** ** Protections *)

(** A check that passed: each of its conditions was evaluated and false. *)
Lemma refuse_nth e l u n c : refuse e l = Ok u -> l !! n = Some c -> c = Ok false.
Proof.
  revert l. induction n as [|n IH]; intros [|b l]; try done; cbn [refuse]; intros Hx; apply bind_Ok in Hx as (x & -> & Hx);
    (destruct x; [done|]); [by intros [= <-]|by apply IH].
Qed.

Lemma refuse_false e l u n b : refuse e l = Ok u -> l !! n = Some (Ok b) -> b = false.
Proof. intros Hx Hn. by injection (refuse_nth _ _ _ _ _ Hx Hn). Qed.

(** The condition [n] of the passed check [H], as an equation between booleans. *)
Ltac condition H n name := pose proof (refuse_false _ _ _ n _ H eq_refl) as name; try apply negb_false_iff in name.

Lemma not_in_Ok l v : not_in l v = Ok false -> exists s, v = VStr s /\ In s l.
Proof.
  unfold not_in, in_set. destruct (hashable v); [|done]. cbn. intros [= Hx]. apply negb_false_iff in Hx. destruct v; try done.
  exists s. split; [done|]. apply existsb_In in Hx as (t & Ht & ->%String.eqb_eq). done.
Qed.

Lemma integer_Ok v n : _integer v n = true -> exists z, v = VInt z /\ 0 <= z <= n.
Proof. destruct v; try done. cbn. intros [? ?]%andb_true_iff. zify_bool. by exists z. Qed.

Lemma fields_Ok v names d : _fields v names = Ok d -> v = VDict d /\ same_names d names = true.
Proof. unfold _fields. destruct v as [| | | | | |d']; try done. destruct (same_names d' names) eqn:E; [|done]. by intros [= ->]. Qed.

Lemma booleans_Ok v names d : _booleans v names = Ok d -> v = VDict d.
Proof. unfold _booleans. intros Hx. apply bind_Ok in Hx as (d' & [-> _]%fields_Ok & Hx). by apply bind_Ok in Hx as (_ & _ & [= ->]). Qed.

Lemma is_true_spec v : is_true v = true -> v = VBool true.
Proof. by destruct v as [|[]| | | | |]. Qed.

(** What an available protection shows: the profile asked for is in force, every
    kind of coverage but the portals is there, under a policy that has a revision,
    on evidence of the last 30 seconds; an isolation is complete, and trust was
    reviewed. *)
Record proven (p : dict) (profile : string) (age : Z) : Prop := Proven {
  pr_requested : get "requested_profile" p = VStr profile;
  pr_known : In profile PROFILES;
  pr_effective : get "effective_profile" p = VStr profile;
  pr_coverage : forall k, In k REQUIRED_COVERAGE -> get k (dict_in (get "coverage" p)) = VBool true;
  pr_revision : exists n, get "policy_revision" p = VInt n /\ 1 <= n;
  pr_age : get "evidence_age_ms" p = VInt age /\ 0 <= age <= 30000;
  pr_isolated : profile = "ISOLATED"%string -> isolated (dict_in (get "isolation" p)) = true;
  pr_trusted : profile = "TRUSTED"%string -> get "reviewed_exception" p = VBool true }.

Definition honest (p : dict) : Prop :=
  if is_str "AVAILABLE" (get "health" p) then exists profile age, proven p profile age else get "effective_profile" p = VNone.

(** What is shown of a protection of the reply: an available one with the time of
    the transport added to the age of its evidence, another one as it is. *)
Definition aged (elapsed : Z) (p0 p : dict) : Prop :=
  if is_str "AVAILABLE" (get "health" p0)
  then exists age, get "evidence_age_ms" p0 = VInt age /\ p = dset "evidence_age_ms" (VInt (age + elapsed)) p0
  else p = p0.

Definition shown (elapsed : Z) (p0 p : dict) : Prop := honest p /\ aged elapsed p0 p.

Lemma protection_Ok v elapsed w :
  0 <= elapsed -> _protection v elapsed = Ok w -> exists p0 p, v = VDict p0 /\ w = VDict p /\ shown elapsed p0 p.
Proof.
  intros He. unfold _protection. intros Hx.
  apply bind_Ok in Hx as (d & [-> _]%fields_Ok & Hx).
  apply bind_Ok in Hx as (coverage & Hc%booleans_Ok & Hx). apply bind_Ok in Hx as (isolation & Hi%booleans_Ok & Hx).
  apply bind_Ok in Hx as ([] & Hchk & Hx).
  pose proof (refuse_nth _ _ _ 0 _ Hchk eq_refl) as (profile & Hprofile & Hknown)%not_in_Ok.
  condition Hchk 3%nat Hrev. condition Hchk 4%nat Hage. clear Hchk.
  apply bind_Ok in Hx as ([] & Hav%require_Ok%Bool.eqb_prop & Hx).
  destruct (is_str "AVAILABLE" (get "health" d)) eqn:Eh.
  - apply bind_Ok in Hx as ([] & Hchk & Hx). injection Hx as <-. eexists _, _. split; [done|]. split; [done|].
    condition Hchk 0%nat Heff. condition Hchk 1%nat Hcov. condition Hchk 2%nat Hr0. condition Hchk 3%nat Hnone.
    condition Hchk 4%nat H30. condition Hchk 5%nat Hiso. condition Hchk 6%nat Htru. clear Hchk.
    rewrite Hprofile in Heff. apply py_eq_text in Heff.
    rewrite Hnone in Hage. cbn [negb andb] in Hage. apply negb_false_iff, integer_Ok in Hage as (age & Ha & Hage).
    apply integer_Ok in Hrev as (revision & Hr & Hrev). rewrite Hr in Hr0. rewrite Ha in H30 |- *. cbn [int_of] in *. zify_bool.
    split; [|unfold aged; rewrite Eh; by exists age].
    unfold honest, get, getd. rewrite dget_dset_ne by done. unfold get, getd in Eh. rewrite Eh.
    exists profile, (age + elapsed). unfold get, getd in *. constructor; unfold get, getd; rewrite ?dget_dset_eq, ?dget_dset_ne by done; try done.
    + intros k Hk. rewrite Hc. unfold all_true in Hcov. rewrite forallb_forall in Hcov. by apply is_true_spec, Hcov.
    + exists revision. split; [done|lia].
    + split; [done|lia].
    + intros ->. rewrite Hprofile in Hiso. cbn in Hiso. rewrite Hi. cbn [dict_in]. by apply negb_false_iff in Hiso.
    + intros ->. rewrite Hprofile in Htru. cbn in Htru. apply negb_false_iff in Htru. by apply is_true_spec.
  - injection Hx as <-. eexists _, _. split; [done|]. split; [done|]. unfold shown, honest, aged. rewrite Eh. split; [|done]. symmetry in Hav. apply negb_false_iff in Hav. by destruct (get "effective_profile" d).
Qed.

(** ** Pages *)

Definition before (s t : string) : Prop := String.compare s t = Lt.

Lemma before_trans s t u : before s t -> before t u -> before s u.
Proof. apply string_compare_trans. Qed.

Lemma text_before_total s t : text_before s t = false -> text_before t s = true.
Proof. unfold text_before. rewrite (string_compare_antisym t s). by destruct (String.compare s t). Qed.

Lemma text_before_spec s t : text_before s t = true <-> s = t \/ before s t.
Proof.
  unfold text_before, before. rewrite <- string_compare_Eq. destruct (String.compare s t); naive_solver.
Qed.

Lemma increasing l : in_order l = true -> distinct_texts l = true -> StronglySorted before l.
Proof.
  intros Ho Hd. apply bool_decide_eq_true in Ho.
  assert (Sorted (fun x y => text_before x y = true) l) as Hs by (rewrite Ho; apply sort_by_Sorted, text_before_total).
  clear Ho. apply Sorted_StronglySorted; [exact before_trans|]. induction Hs as [|s l Hs IH Hh]; [constructor|].
  cbn [distinct_texts] in Hd. apply andb_true_iff in Hd as [Hm Hd]. constructor; [by apply IH|].
  destruct Hh as [|t l Ht]; constructor. apply text_before_spec in Ht as [->|Ht]; [|done].
  apply negb_true_iff in Hm. unfold PyText.member in Hm. cbn in Hm. by rewrite String.eqb_refl in Hm.
Qed.

Lemma not_after_false after l : not_after after l = false -> after <> "" -> Forall (before after) l.
Proof.
  unfold not_after. intros Hx Hne. destruct (String.eqb_spec after ""); [done|]. cbn in Hx. apply Forall_forall. intros s Hs%list_elem_of_In.
  destruct (text_before s after) eqn:E.
  - exfalso. assert (existsb (fun s => text_before s after) l = true) as He by (apply existsb_In; by exists s). by rewrite He in Hx.
  - unfold text_before in E. unfold before. rewrite string_compare_antisym. by destruct (String.compare s after).
Qed.

(** The owner an item of a list names, and its reference. *)
Definition app_owner (item : val) : val := get "owner_uid" (dict_in (get "identity" (dict_in (get "record" (dict_in item))))).
Definition resource_owner (item : val) : val := get "owner_uid" (dict_in item).
Definition listed (method : string) (d : dict) : list (val * string) :=
  if String.eqb method "ListApplications" then map (fun v => (app_owner v, installation_of v)) (list_in (get "applications" d))
  else if String.eqb method "ListProtectedResources" then map (fun v => (resource_owner v, resource_ref v)) (list_in (get "resources" d))
  else [].

(** What a page of a list is: items of the user, in increasing order, after the
    cursor that was sent, with the cursor of the next page. *)
Record page (uid : Z) (q : request) (d : dict) : Prop := Page {
  pg_own : Forall (fun x => x.1 = VInt uid /\ x.2 <> "") (listed (q_method q) d);
  pg_increasing : StronglySorted before (map snd (listed (q_method q) d));
  pg_after : q_after q <> "" -> Forall (before (q_after q)) (map snd (listed (q_method q) d));
  pg_size : Z.of_nat (length (listed (q_method q) d)) <= q_limit q;
  pg_cursor : get "next_cursor" d = page_cursor (map snd (listed (q_method q) d)) (q_limit q) }.

Lemma reference_text v namespace : _reference v namespace = true -> exists s, v = VStr s /\ s <> "".
Proof. destruct v; try done. cbn. intros Hx. eexists. split; [done|]. intros ->. by destruct namespace. Qed.

Lemma detail_Ok v uid elapsed w :
  0 <= elapsed -> _detail v uid elapsed = Ok w ->
  exists d0 p0 d p, v = VDict d0 /\ get "protection" d0 = VDict p0 /\ w = VDict d /\ get "protection" d = VDict p /\ shown elapsed p0 p
    /\ app_owner w = VInt uid /\ installation_of w <> "".
Proof.
  intros He. unfold _detail. intros Hx. apply bind_Ok in Hx as (d & [-> _]%fields_Ok & Hx).
  apply bind_Ok in Hx as (record & [Hr _]%fields_Ok & Hx). apply bind_Ok in Hx as (named & _ & Hx).
  apply bind_Ok in Hx as (identity & [Hi _]%fields_Ok & Hx). apply bind_Ok in Hx as (_ & _ & Hx).
  apply bind_Ok in Hx as ([] & Hchk & Hx). apply bind_Ok in Hx as (provenance & _ & Hx). apply bind_Ok in Hx as (_ & _ & Hx).
  apply bind_Ok in Hx as (p & (p0 & p' & Hp0 & -> & Hp)%protection_Ok & Hx); [|done]. injection Hx as <-.
  exists d, p0. eexists _, p'. split; [done|]. split; [done|]. split; [done|]. split; [by dlookup|]. split; [done|].
  unfold check_identity in Hchk. condition Hchk 1%nat Hinst. condition Hchk 4%nat Hint. condition Hchk 5%nat Huid.
  apply reference_text in Hinst as (s & Hs & Hne). apply integer_Ok in Hint as (n & Hn & _). rewrite Hn in Huid. cbn [int_of] in Huid. zify_bool.
  unfold app_owner, installation_of, get, getd in *. cbn [dict_in]. rewrite dget_dset_ne by done. rewrite Hr. cbn [dict_in]. rewrite Hi. cbn [dict_in].
  rewrite Hn, Hs. split; [by f_equal|done].
Qed.

Lemma resource_Ok v uid revision u : _resource v uid revision = Ok u -> resource_owner v = VInt uid /\ resource_ref v <> "".
Proof.
  unfold _resource. intros Hx. apply bind_Ok in Hx as (d & [-> _]%fields_Ok & Hchk).
  condition Hchk 0%nat Href. condition Hchk 1%nat Hint. condition Hchk 2%nat Huid.
  apply reference_text in Href as (s & Hs & Hne). apply integer_Ok in Hint as (n & Hn & _). rewrite Hn in Huid. cbn [int_of] in Huid. zify_bool.
  unfold resource_owner, resource_ref. cbn [dict_in]. rewrite Hn, Hs. split; [by f_equal|done].
Qed.

Lemma cursor_eq v l n : py_eq v (page_cursor l n) = true -> v = page_cursor l n.
Proof.
  unfold page_cursor. destruct (_ =? _); [destruct (last l)|]; [apply py_eq_text| |]; by destruct v.
Qed.

(** The protection of an item of the list of applications. *)
Definition protection_of (item : val) : dict := dict_in (get "protection" (dict_in item)).

Lemma applications_Ok v q uid elapsed w :
  0 <= elapsed -> q_method q = "ListApplications"%string -> check_applications v q uid elapsed = Ok w ->
  page uid q (dict_in w)
  /\ Forall2 (shown elapsed) (map protection_of (list_in (get "applications" (dict_in v)))) (map protection_of (list_in (get "applications" (dict_in w)))).
Proof.
  intros He Hm. unfold check_applications. intros Hx. apply bind_Ok in Hx as (d & [-> _]%fields_Ok & Hx). apply bind_Ok in Hx as ([] & Hchk & Hx).
  condition Hchk 3%nat Hlen. apply bind_Ok in Hx as (items & Hitems%mapM_res_Ok & Hx).
  apply bind_Ok in Hx as ([] & Hdist%require_Ok & Hx). apply bind_Ok in Hx as ([] & Hord%require_Ok & Hx).
  apply bind_Ok in Hx as ([] & Hcur%require_Ok%cursor_eq & Hx). injection Hx as <-. split_bool. cbn [dict_in].
  assert (Forall2 (fun v w => shown elapsed (protection_of v) (protection_of w) /\ app_owner w = VInt uid /\ installation_of w <> "")
    (list_in (get "applications" d)) items) as Hall.
  { eapply Forall2_impl; [exact Hitems|]. intros v0 w0 Hd. apply detail_Ok in Hd as (d0 & p0 & d1 & p & -> & Hp0 & -> & Hp & Hs & Ho & Hr); [|done].
    split; [|done]. unfold protection_of. cbn [dict_in]. by rewrite Hp0, Hp. }
  assert (Forall (fun w => app_owner w = VInt uid /\ installation_of w <> "") items) as Hown 
    by (apply Forall_lookup; intros i x Hi; by destruct (Forall2_lookup_r _ _ _ _ _ Hall Hi) as (? & _ & _ & ?)).
  assert (length items = length (list_in (get "applications" d))) as Hsize by (symmetry; by eapply Forall2_length).
  assert (listed (q_method q) (dset "applications" (VList items) d) = map (fun v => (app_owner v, installation_of v)) items) as Hl.
  { unfold listed. rewrite Hm. cbn [String.eqb]. by dlookup. }
  assert (map snd (map (fun v => (app_owner v, installation_of v)) items) = map installation_of items) as Hs by (by rewrite map_map).
  split.
  - constructor; rewrite Hl, ?Hs.
    + apply Forall_fmap. exact Hown.
    + by apply increasing.
    + by apply not_after_false.
    + rewrite length_map, Hsize. destruct (get "applications" d); try done. cbn [list_in]. zify_bool. lia.
    + dlookup. unfold get, getd in Hcur. exact Hcur.
  - cbn [dict_in]. dlookup. cbn [list_in]. apply Forall2_fmap_2. eapply Forall2_impl; [exact Hall|]. by intros ? ? [? _].
Qed.

Lemma resource_list_Ok d l q uid k :
  check_resource_list d l q uid = Ok k -> k = map resource_ref l /\ Forall (fun v => resource_owner v = VInt uid /\ resource_ref v <> "") l.
Proof.
  unfold check_resource_list. intros Hx. apply bind_Ok in Hx as (_ & _ & Hx%mapM_res_Ok).
  induction Hx as [|v r l k Hv _ [-> IH]]; [done|]. apply bind_Ok in Hv as (u & Hv%resource_Ok & [= <-]). by split; [|constructor].
Qed.

Lemma resources_Ok v q uid elapsed w :
  q_method q = "ListProtectedResources"%string -> check_resources v q uid elapsed = Ok w -> page uid q (dict_in w).
Proof.
  intros Hm. unfold check_resources. intros Hx. apply bind_Ok in Hx as (d & _ & Hx).
  apply bind_Ok in Hx as ([] & [_ Hlen]%require_Ok%andb_true_iff & Hx).
  apply bind_Ok in Hx as (k & [-> Hall]%resource_list_Ok & Hx). apply bind_Ok in Hx as ([] & Hchk%require_Ok & [= <-]).
  split_bool. cbn [dict_in].
  assert (listed (q_method q) d = map (fun v => (resource_owner v, resource_ref v)) (list_in (get "resources" d))) as Hl by (unfold listed; by rewrite Hm).
  assert (map snd (map (fun v => (resource_owner v, resource_ref v)) (list_in (get "resources" d))) = map resource_ref (list_in (get "resources" d)))
    as Hs by (by rewrite map_map).
  constructor; rewrite Hl, ?Hs.
  - apply Forall_fmap. eapply Forall_impl; [exact Hall|]. done.
  - by apply increasing.
  - by apply not_after_false.
  - rewrite length_map. destruct (get "resources" d); try done. cbn [list_in]. zify_bool. lia.
  - by apply cursor_eq.
Qed.

Lemma coverage_Ok v q uid elapsed w :
  0 <= elapsed -> check_coverage v q uid elapsed = Ok w ->
  shown elapsed (dict_in (get "protection" (dict_in v))) (dict_in (get "protection" (dict_in w))).
Proof.
  intros He. unfold check_coverage. intros Hx. apply bind_Ok in Hx as (d & [-> _]%fields_Ok & Hx). apply bind_Ok in Hx as (_ & _ & Hx).
  apply bind_Ok in Hx as (p & (p0 & p' & Hp0 & -> & Hp)%protection_Ok & [= <-]); [|done]. cbn [dict_in]. rewrite Hp0. by dlookup.
Qed.

Lemma dset_truthy {A} k (v : A) d : dset k v d <> [].
Proof. destruct d as [|[k' v'] d]; cbn; [done|]. by destruct (String.compare k k'). Qed.

Lemma application_Ok v q uid elapsed w :
  0 <= elapsed -> check_application v q uid elapsed = Ok w ->
  truthy (get "application" (dict_in w)) = truthy (get "application" (dict_in v))
  /\ (truthy (get "application" (dict_in w)) = true ->
      shown elapsed (protection_of (get "application" (dict_in v))) (protection_of (get "application" (dict_in w)))).
Proof.
  intros He. unfold check_application. intros Hx. apply bind_Ok in Hx as (d & [-> _]%fields_Ok & Hx).
  assert (get "application" d = VNone /\ w = VDict d \/ exists w', _detail (get "application" d) uid elapsed = Ok w' /\ w = VDict (dset "application" w' d))
    as [[Hn ->]|(w' & Hd & ->)].
  { destruct (get "application" d) as [| | | | | |]; [injection Hx as <-; by left|..];
      (right; apply bind_Ok in Hx as (w' & Hd & Hx); apply bind_Ok in Hx as (_ & _ & [= <-]); by eauto). }
  - cbn [dict_in]. by rewrite Hn.
  - cbn [dict_in]. apply detail_Ok in Hd as (d0 & p0 & d1 & p & Hv & Hp0 & -> & Hp & Hs & _); [|done]. dlookup. unfold get, getd in Hv. rewrite Hv.
    unfold protection_of. cbn [dict_in]. rewrite Hp, Hp0. split; [|done]. cbn [truthy].
    assert (d0 <> [] /\ d1 <> []) as [H0' H1'] by (split; intros ->; by vm_compute in Hp, Hp0). by destruct d0, d1.
Qed.

(** ** Reads *)

Section reads.
Context `{FloatText}.

Lemma validate_Ok raw q uid elapsed d :
  0 <= elapsed -> validate_projection raw q uid elapsed = Ok d ->
  (exists text v, raw = VStr text /\ strict_loads text = Ok v
    /\ Forall2 (shown elapsed) (protections (q_method q) (dict_in v)) (protections (q_method q) d))
  /\ (In (q_method q) ["ListApplications"; "ListProtectedResources"]%string -> page uid q d).
Proof.
  intros He. unfold validate_projection. destruct raw as [| | | |text| |]; try done. intros [Hx|(e & _ & _ & [=])]%try_with_Ok.
  apply bind_Ok in Hx as (_ & _ & Hx). apply bind_Ok in Hx as (value & Hvalue & Hx). destruct (check_of (q_method q)) as [check|] eqn:Hc; [|done].
  apply bind_Ok in Hx as (w & Hw & Hx). apply bind_Ok in Hx as (_ & _ & [= <-]).
  assert (forall l l', Forall2 (shown elapsed) l l' -> protections (q_method q) (dict_in value) = l -> protections (q_method q) (dict_in w) = l' ->
    exists text0 v, VStr text = VStr text0 /\ strict_loads text0 = Ok v /\ Forall2 (shown elapsed) (protections (q_method q) (dict_in v)) (protections (q_method q) (dict_in w)))
    as Hdone by (intros l l' Hl <- <-; by exists text, value).
  unfold check_of in Hc. unfold protections in *.
  destruct (String.eqb_spec (q_method q) "GetCoverage") as [Hm|_]; [|destruct (String.eqb_spec (q_method q) "GetApplication") as [Hm|_];
    [|destruct (String.eqb_spec (q_method q) "ListApplications") as [Hm|_];
      [|destruct (String.eqb_spec (q_method q) "ListProtectedResources") as [Hm|_];
        [|destruct (String.eqb_spec (q_method q) "GetProtectedResource") as [Hm|_]; [|done]]]]];
    injection Hc as <-; rewrite Hm in *; cbn [String.eqb Ascii.eqb Bool.eqb andb] in *.
  - split; [|by intros [?|[?|[]]]]. eapply Hdone; [|done..]. constructor; [by eapply coverage_Ok|done].
  - split; [|by intros [?|[?|[]]]]. destruct (application_Ok _ _ _ _ _ He Hw) as [Ht Hs]. eapply Hdone; [|done..].
    rewrite <- Ht. clear Hdone. destruct (truthy (get "application" (dict_in w))); [|by constructor]. constructor; [by apply Hs|done].
  - destruct (applications_Ok _ _ _ _ _ He Hm Hw) as [Hp Hf]. split; [|by intros _]. by eapply Hdone.
  - split; [eapply Hdone; [by constructor|done..]|]. intros _. by eapply resources_Ok.
  - split; [eapply Hdone; [by constructor|done..]|]. by intros [?|[?|[]]].
Qed.

Lemma available_projection h method d : dget "projection" (available_read h method d) = Some (VDict d).
Proof. done. Qed.

Lemma unavailable_projection now reason : dget "projection" (unavailable_read now reason) = Some VNone.
Proof. done. Qed.

Lemma read_Ok h uid q arguments r :
  0 <= rh_elapsed_ms h -> _read h uid q arguments = Ok r ->
  (exists reason, r = unavailable_read (rh_observed h) reason)
  \/ (exists d text v, r = available_read h (q_method q) d /\ rh_read h (q_method q) arguments = Ok (VStr text) /\ strict_loads text = Ok v
        /\ Forall2 (shown (rh_elapsed_ms h)) (protections (q_method q) (dict_in v)) (protections (q_method q) d)
        /\ (In (q_method q) ["ListApplications"; "ListProtectedResources"]%string -> page uid q d)).
Proof.
  intros He. unfold _read. intros [Hx|(e & _ & _ & [= <-])]%try_with_Ok; [|left; by eexists]. right.
  apply bind_Ok in Hx as (raw & Hraw & Hx). apply bind_Ok in Hx as (_ & _ & Hx). apply bind_Ok in Hx as (d & Hd & [= <-]).
  destruct (validate_Ok _ _ _ _ _ He Hd) as [(text & v & -> & Hv & Hs) Hp]. by exists d, text, v.
Qed.

Lemma lease_le l a : fold_left Z.min l a <= a /\ forall x, In x l -> fold_left Z.min l a <= x.
Proof.
  revert a. induction l as [|y l IH]; intros a; cbn [fold_left]; [split; [lia|done]|].
  destruct (IH (Z.min a y)) as [H1 H2]. split; [lia|]. intros x [->|Hx]; [lia|by apply H2].
Qed.

Lemma lease_nonneg l a : 0 <= a -> (forall x, In x l -> 0 <= x) -> 0 <= fold_left Z.min l a.
Proof.
  revert a. induction l as [|y l IH]; intros a Ha Hl; cbn [fold_left]; [done|]. apply IH; [|intros x Hx; apply Hl; by right].
  specialize (Hl y (or_introl eq_refl)). lia.
Qed.

(** What a read shows of a protection [p0] of the reply, for a lease. *)
Definition served (elapsed lease : Z) (p0 p : dict) : Prop :=
  if is_str "AVAILABLE" (get "health" p)
  then exists profile age, get "evidence_age_ms" p0 = VInt age /\ p = dset "evidence_age_ms" (VInt (age + elapsed)) p0
         /\ proven p profile (age + elapsed) /\ age + elapsed + lease <= 30000
  else p = p0 /\ get "effective_profile" p = VNone.


(** ** Following the cursors of a list *)

(** The pages of a list: each is read after the cursor of the page before. *)
Fixpoint follow (uid : Z) (method after : string) (pages : list (read_host * dict)) : Prop :=
  match pages with
  | [] => True
  | (h, d) :: pages =>
      0 <= rh_elapsed_ms h
      /\ (exists limit revision arguments, _read h uid (Request method limit revision "" after) arguments = Ok (available_read h method d))
      /\ match get "next_cursor" d with VStr cursor => follow uid method cursor pages | _ => pages = [] end
  end.

Lemma follow_next uid method after cursor h limit revision arguments d pages :
  0 <= rh_elapsed_ms h -> _read h uid (Request method limit revision "" after) arguments = Ok (available_read h method d) ->
  get "next_cursor" d = VStr cursor -> follow uid method cursor pages -> follow uid method after ((h, d) :: pages).
Proof. intros He Hr Hc Hf. split; [done|]. split; [by exists limit, revision, arguments|]. by rewrite Hc. Qed.

Lemma follow_end uid method after h limit revision arguments d :
  0 <= rh_elapsed_ms h -> _read h uid (Request method limit revision "" after) arguments = Ok (available_read h method d) ->
  get "next_cursor" d = VNone -> follow uid method after [(h, d)].
Proof. intros He Hr Hc. split; [done|]. split; [by exists limit, revision, arguments|]. by rewrite Hc. Qed.

Lemma page_read h uid method limit revision after arguments d :
  0 <= rh_elapsed_ms h -> In method ["ListApplications"; "ListProtectedResources"]%string ->
  _read h uid (Request method limit revision "" after) arguments = Ok (available_read h method d) ->
  page uid (Request method limit revision "" after) d.
Proof.
  intros He Hm [(reason & Hr)|(d' & text & v & Hr & _ & _ & _ & Hp)]%read_Ok; [| |done].
  - pose proof (available_projection h method d) as Hx. by rewrite Hr, unavailable_projection in Hx.
  - pose proof (available_projection h method d) as Hx. rewrite Hr, available_projection in Hx. injection Hx as ->. by apply Hp.
Qed.

Definition references (method : string) (pages : list (read_host * dict)) : list (val * string) := concat (map (fun p => listed method p.2) pages).

Lemma last_above l s t : StronglySorted before l -> last l = Some s -> In t l -> t = s \/ before t s.
Proof.
  induction 1 as [|x l Hl IH Hx]; [done|]. intros Hlast [->|Ht].
  - destruct l as [|y l]; [left; by injection Hlast|]. right. rewrite Forall_forall in Hx. apply Hx.
    change (last (y :: l) = Some s) in Hlast. by apply last_Some_elem_of.
  - apply IH; [|done]. by destruct l.
Qed.

Lemma follow_sorted uid method after pages :
  In method ["ListApplications"; "ListProtectedResources"]%string -> follow uid method after pages ->
  StronglySorted before (map snd (references method pages)) /\ Forall (fun x => x.1 = VInt uid /\ x.2 <> "") (references method pages)
  /\ (after <> "" -> Forall (before after) (map snd (references method pages))).
Proof.
  intros Hm. revert after. induction pages as [|[h d] pages IH]; intros after; [split; [constructor|split; [constructor|intros; constructor]]|].
  intros (He & (limit & revision & arguments & Hr) & Hrest). apply page_read in Hr; [|done..].
  destruct Hr as [Hown Hinc Hafter _ Hcur]. cbn [q_method q_after q_limit] in *.
  unfold references. cbn [map concat snd]. fold (references method pages). rewrite map_app.
  destruct (get "next_cursor" d) as [| | | |cursor| |] eqn:Ec; try (rewrite Hrest; cbn [references map concat]; rewrite !app_nil_r; by split_and!).
  destruct (IH _ Hrest) as (Hs & Ho & Ha).
  assert (last (map snd (listed method d)) = Some cursor) as Hlast.
  { unfold page_cursor in Hcur. destruct (_ =? _); [|done]. destruct (last _); [|done]. by injection Hcur as ->. }
  assert (cursor <> "") as Hne.
  { apply last_Some_elem_of, list_elem_of_In, in_map_iff in Hlast as (x & <- & Hx). rewrite Forall_forall in Hown.
    by apply Hown, list_elem_of_In. }
  specialize (Ha Hne). split; [|split].
  - apply StronglySorted_app. split_and!; [|done|done]. intros s t Hs1 Ht1. apply list_elem_of_In in Hs1.
    rewrite Forall_forall in Ha. specialize (Ha t Ht1). destruct (last_above _ _ _ Hinc Hlast Hs1) as [->|Hb]; [done|by eapply before_trans].
  - by apply Forall_app.
  - intros Hne'. apply Forall_app. split; [by apply Hafter|].
    eapply Forall_impl; [exact Ha|]. intros t Ht. eapply before_trans; [|exact Ht].
    specialize (Hafter Hne'). rewrite Forall_forall in Hafter. by apply Hafter, last_Some_elem_of.
Qed.

(** C29. A list that is read page by page repeats nothing and shows nothing of
    another user: over all the pages, each read after the cursor of the one
    before, the references are strictly increasing, so that none comes twice, and
    every item names the user as its owner. *)
Theorem pages_never_repeat uid method pages :
  In method ["ListApplications"; "ListProtectedResources"]%string -> follow uid method "" pages ->
  StronglySorted before (map snd (references method pages)) /\ Forall (fun x => x.1 = VInt uid) (references method pages).
Proof.
  intros Hm Hf. destruct (follow_sorted uid method "" pages Hm Hf) as (Hs & Ho & _). split; [done|].
  eapply Forall_impl; [exact Ho|]. by intros x [Hx _].
Qed.
End reads.

(** ** What the calls keep *)

(** Every entry that is held afterwards was held before, on the connection that
    was held, if there was one. *)
Definition same_owner (t t' : workflow_transport) : Prop := t_owner t = None \/ t_owner t' = t_owner t.

(** No entry is new and none is doubled. *)
Definition part {A} (l k : list A) : Prop := (length l <= length k)%nat /\ forall x, In x l -> In x k.

#[export] Instance part_preorder {A} : PreOrder (part (A := A)).
Proof. split; [by split|]. intros l k j [H1 H2] [H3 H4]. split; [lia|auto]. Qed.

Lemma filter_part {A} (f : A -> bool) l : part (List.filter f l) l.
Proof. split; [apply List.filter_length_le|]. by intros x [Hx _]%filter_In. Qed.

Definition keeps {A} (held : workflows -> list A) (w w' : workflows) : Prop :=
  part (held w') (held w) /\ forall x, In x (held w') -> same_owner (w_transport w) (w_transport w').

#[export] Instance same_owner_preorder : PreOrder same_owner.
Proof.
  split; [by right|]. intros t u v [Ht|Ht] [Hu|Hu]; unfold same_owner; [by left|by left|left; congruence|right; congruence].
Qed.

#[export] Instance keeps_preorder {A} (held : workflows -> list A) : PreOrder (keeps held).
Proof.
  split; [by intros w; split|]. intros u v w [Huv Hu] [Hvw Hv]. split; [by etransitivity|].
  intros x Hx. transitivity (w_transport v); [apply (Hu x), Hvw, Hx|by apply (Hv x)].
Qed.

Lemma keeps_In {A} (held : workflows -> list A) w w' x :
  keeps held w w' -> In x (held w') -> In x (held w) /\ same_owner (w_transport w) (w_transport w').
Proof. intros [Hp Ho] Hx. split; [by apply Hp|by apply (Ho x)]. Qed.

(** The messages that are sent. *)
Definition sends (P : message -> Prop) (t t' : workflow_transport) : Prop := exists l, t_log t' = t_log t ++ l /\ Forall P l.

#[export] Instance sends_preorder P : PreOrder (sends P).
Proof.
  split; [intros t; exists []; by rewrite app_nil_r|]. intros t u v (l & Hl & Hp) (k & Hk & Hq). exists (l ++ k).
  split; [by rewrite Hk, Hl, app_assoc|by apply Forall_app].
Qed.

Lemma sends_refl P t t' : t_log t' = t_log t -> sends P t t'.
Proof. intros Hx. exists []. by rewrite Hx, app_nil_r. Qed.

(** A relation between the states of the transport, on a change of the rest. *)
Definition on (R : workflow_transport -> workflow_transport -> Prop) (w w' : workflows) : Prop := R (w_transport w) (w_transport w').

#[export] Instance on_preorder R `{!PreOrder R} : PreOrder (on R).
Proof. split; [intros w; unfold on; reflexivity|]. unfold on. intros u v w ? ?. by etransitivity. Qed.

Lemma respects_on_transport R {A} (m : act workflow_transport A) : respects R m -> respects (on R) (on_transport m).
Proof. intros Hm w. specialize (Hm (w_transport w)). unfold on, after, on_transport in *. by destruct (m (w_transport w)). Qed.

Lemma on_history_eq {A} (m : act db A) w : exists d, after (on_history m) w = with_history d w.
Proof. unfold after, on_history. destruct (m (w_history w)) as [r d]. by exists d. Qed.

Lemma on_transport_eq {A} (m : act workflow_transport A) w : after (on_transport m) w = with_transport (after m (w_transport w)) w.
Proof. unfold after, on_transport. by destruct (m (w_transport w)). Qed.

(** *** A call of the transport *)

Section calls.
Context `{FloatText} `{Sqlite} (max_bytes : Z).

Lemma connect_owner h : respects same_owner (connect_bus h).
Proof. unfold connect_bus. effects. apply respects_modify. intros t. by right. Qed.

Lemma keep_owner_same h current : respects same_owner (keep_owner h current).
Proof.
  intros t. unfold keep_owner, after, mbind, act_bind, gets. destruct (t_owner t) as [o|] eqn:E; [by right|]. by left.
Qed.

Lemma call_same_owner h member arguments : respects same_owner (transport_call h member arguments).
Proof.
  unfold transport_call, call_body. apply respects_catch; [typeclasses eauto| |effects].
  apply respects_bind; [typeclasses eauto|apply connect_owner|intros _]. apply respects_bind; [typeclasses eauto|effects|intros o].
  apply respects_bind; [typeclasses eauto|apply keep_owner_same|intros _]. effects. apply respects_modify. intros t. by right.
Qed.

(** At most the message itself is sent, to the connection that was held. *)
Definition asked (member : string) (arguments : list val) (t t' : workflow_transport) : Prop :=
  t_log t' = t_log t \/ exists owner, t_log t' = t_log t ++ [Message owner member arguments] /\ (t_owner t = None \/ t_owner t = Some owner).

Lemma keep_owner_log h current : respects (sends (fun _ => False)) (keep_owner h current).
Proof.
  unfold keep_owner. apply respects_bind; [typeclasses eauto|apply respects_gets; typeclasses eauto|].
  intros [o|]; [apply respects_ret; typeclasses eauto|]. effects. apply respects_modify. intros t. by apply sends_refl.
Qed.

Lemma connect_sends_nothing h : respects (sends (fun _ => False)) (connect_bus h).
Proof. unfold connect_bus. effects. apply respects_modify. intros t. by apply sends_refl. Qed.

Lemma sends_none t t' : sends (fun _ => False) t t' -> t_log t' = t_log t.
Proof. intros ([|m l] & Hl & Hf); [by rewrite app_nil_r in Hl|]. by inversion Hf. Qed.

Lemma after_bind_steps {S A B} (m : act S A) (f : A -> act S B) s :
  after (m ≫= f) s = match (m s).1 with Ok a => after (f a) (after m s) | Err _ => after m s end.
Proof. unfold after, mbind, act_bind. by destruct (m s) as [[a|e] s1]. Qed.

Lemma after_catch_raise {S A} (m : act S A) p e s : after (catch m p (fun _ => raise e)) s = after m s.
Proof. unfold after, catch. destruct (m s) as [[a|e'] s1]; [done|]. by destruct (p e'). Qed.

Lemma call_asks h member arguments t : asked member arguments t (after (transport_call h member arguments) t).
Proof.
  unfold transport_call. rewrite after_catch_raise. unfold call_body.
  pose proof (sends_none _ _ (connect_sends_nothing h t)) as Hl1. pose proof (connect_owner h t) as Ho1.
  rewrite after_bind_steps. destruct ((connect_bus h t).1); [|by left]. set (t1 := after (connect_bus h) t) in *.
  rewrite after_bind_steps. destruct (b_owner h) as [o|e]; cbn [lift fst after snd]; [|by left]. change (after (lift (Ok o)) t1) with t1. cbv zeta.
  pose proof (sends_none _ _ (keep_owner_log h (py_str o) t1)) as Hl2. pose proof (keep_owner_same h (py_str o) t1) as Ho2.
  rewrite after_bind_steps. destruct ((keep_owner h (py_str o) t1).1); [|left; congruence]. set (t2 := after (keep_owner h (py_str o)) t1) in *.
  rewrite after_bind_steps. cbn [gets fst]. change (after (gets t_owner) t2) with t2.
  rewrite after_bind_steps. destruct (bool_decide_reflect (t_owner t2 = Some (py_str o))) as [Ho|]; cbn [lift require fst]; [|left; cbn; congruence].
  change (after (lift (Ok tt)) t2) with t2. rewrite after_bind_steps. cbn [send modify fst].
  right. exists (py_str o). split.
  - assert (forall (r1 r2 : res val) (f : val -> res unit),
        t_log (after (result ← lift r1; later ← lift r2; _ ← lift (f later); mret result : act workflow_transport val) (after (send (Message (py_str o) member arguments)) t2))
      = t_log t2 ++ [Message (py_str o) member arguments]) as Hx.
    { intros r1 r2 f. destruct r1; [|done]. destruct r2 as [v'|]; [|done]. unfold after, mbind, act_bind, lift. by destruct (f v'). }
    rewrite (Hx (b_reply h) (b_owner_after h) (fun later => require (String.eqb (py_str later) (py_str o)) broker_changed)). by rewrite Hl2, Hl1.
  - assert (same_owner t t2) as [Hn|Hs] by (by etransitivity); [by left|]. right. congruence.
Qed.

(** *** A call of the workflows *)

Lemma call_asked h member arguments w : asked member arguments (w_transport w) (w_transport (after (_call h member arguments) w)).
Proof.
  pose proof (call_asks (wh_bus h) member arguments (w_transport w)) as Hx. unfold _call, catch, on_transport, after in *.
  destruct (transport_call _ _ _ _) as [[a|e] t]; [done|]. cbn [snd] in *. by destruct (is_changed e).
Qed.

Lemma call_sends h member arguments P :
  (forall owner, P (Message owner member arguments)) -> respects (on (sends P)) (_call h member arguments).
Proof.
  intros Hp w. unfold on. destruct (call_asked h member arguments w) as [Hl|(o & Hl & _)]; [by apply sends_refl|].
  exists [Message o member arguments]. split; [done|]. by constructor.
Qed.

(** A call that returns has a connection. *)
Lemma transport_call_owner h member arguments v t t' : transport_call h member arguments t = (Ok v, t') -> exists owner, t_owner t' = Some owner.
Proof.
  unfold transport_call, catch. destruct (call_body h member arguments t) as [[a|e] t1] eqn:E; [intros [= -> ->]|by destruct (bus_caught e)].
  unfold call_body in E. repeat (apply act_bind_Ok in E as (? & ? & ? & E)). unfold lift, gets, send, modify, mret, act_ret in *. simplify_eq/=.
  match goal with H : require (bool_decide _) _ = Ok _ |- _ => apply require_Ok, bool_decide_eq_true in H; rewrite H end. by eexists.
Qed.

Lemma call_owner h member arguments v w w' : _call h member arguments w = (Ok v, w') -> exists owner, t_owner (w_transport w') = Some owner.
Proof.
  unfold _call, catch, on_transport. destruct (transport_call _ _ _ _) as [[a|e] t] eqn:E; [intros [= -> <-]|by destruct (is_changed e)].
  by apply transport_call_owner in E.
Qed.

(** ** What each operation keeps *)

(** Entries that only a review or a launch that is prepared adds to. *)
Class Held {A} (held : workflows -> list A) : Prop := {
  held_transport t w : held (with_transport t w) = held w;
  held_history d w : held (with_history d w) = held w;
  held_forgotten w : held (after forget_broker w) = [];
  held_published p w : held (with_owners (w_owners w) p w) = held w;
  held_reviews now w : part (held (after (prune_reviews now) w)) (held w);
  held_launches f w : part (held (with_launches (List.filter f (w_launches w)) w)) (held w);
  held_events c s w : held (with_events c s w) = held w;
  held_blocks b w : held (with_blocks b w) = held w }.

#[export] Instance reviews_held : Held w_owners.
Proof. split; try done. intros now w. apply filter_part. Qed.

#[export] Instance launches_held : Held w_launches.
Proof. split; try done. intros f w. apply filter_part. Qed.

Section held.
Context {A : Type} (held : workflows -> list A) `{!Held held}.

Lemma call_keeps h member arguments : respects (keeps held) (_call h member arguments).
Proof.
  unfold _call. apply respects_catch; [typeclasses eauto| |].
  - intros w. split; [by rewrite on_transport_eq, held_transport|]. intros x _. rewrite on_transport_eq. apply call_same_owner.
  - intros e. apply respects_bind; [typeclasses eauto| |intros _; apply respects_raise; typeclasses eauto].
    intros w. unfold keeps. rewrite held_forgotten. split; [split; [cbn; lia|done]|done].
Qed.

#[local] Opaque _call on_history prune_reviews forget_broker.

Lemma keeps_modify (f : workflows -> workflows) :
  (forall w, part (held (f w)) (held w)) -> (forall w, w_transport (f w) = w_transport w) -> respects (keeps held) (modify f).
Proof. intros Hf Ht w. split; [apply Hf|]. intros x _. right. change (after (modify f) w) with (f w). by rewrite Ht. Qed.

Lemma history_keeps {B} (m : act db B) : respects (keeps held) (on_history m).
Proof. intros w. destruct (on_history_eq m w) as [d ->]. split; [by rewrite held_history|]. intros x _. by right. Qed.

Lemma prune_reviews_keeps now : respects (keeps held) (prune_reviews now).
Proof. intros w. split; [apply held_reviews|]. intros x _. by right. Qed.

Ltac kept :=
  effects; try first
    [ apply call_keeps | apply history_keeps | apply prune_reviews_keeps
    | apply keeps_modify; [|done]; intros ?; rewrite ?held_published, ?held_events, ?held_blocks; (done || apply held_launches) ].

Lemma administration_keeps h : respects (keeps held) (administration_state h).
Proof. unfold administration_state. kept. Qed.

Lemma open_keeps h : respects (keeps held) (open_administration h).
Proof. unfold open_administration. kept. Qed.

Lemma ask_review_keeps h member arguments : respects (keeps held) (ask_review h member arguments).
Proof. unfold ask_review. kept. Qed.

Lemma operation_keeps h actor reference action : respects (keeps held) (operation max_bytes h actor reference action).
Proof. unfold operation, publish, when. kept. Qed.

Lemma grants_keeps h : respects (keeps held) (grants h).
Proof. unfold grants. kept. Qed.

Lemma ask_launch_keeps h descriptor graphical handler arguments : respects (keeps held) (ask_launch h descriptor graphical handler arguments).
Proof. unfold ask_launch, live. kept. Qed.

Lemma start_keeps h actor reference taken : respects (keeps held) (start_launch h actor reference taken).
Proof. unfold start_launch. kept. Qed.

Lemma exit_keeps h reference : respects (keeps held) (launch_exit h reference).
Proof. unfold launch_exit. kept. Qed.

Lemma reconcile_keeps h : respects (keeps held) (reconcile_access_events max_bytes h).
Proof.
  unfold reconcile_access_events, reconcile_body. kept. apply respects_each; [typeclasses eauto|]. intros v.
  unfold record_denial, when. kept.
Qed.
End held.

(** ** What each operation sends *)

#[local] Opaque _call on_history prune_reviews.

Lemma asked_then member arguments t t' t'' : t_log t'' = t_log t' -> asked member arguments t t' -> asked member arguments t t''.
Proof. unfold asked. by intros ->. Qed.

Lemma history_sends P {B} (m : act db B) : respects (on (sends P)) (on_history m).
Proof. intros w. destruct (on_history_eq m w) as [d ->]. by apply sends_refl. Qed.

Lemma modify_sends P f : (forall w, w_transport (f w) = w_transport w) -> respects (on (sends P)) (modify f).
Proof. intros Hf w. apply sends_refl. change (after (modify f) w) with (f w). by rewrite Hf. Qed.

Ltac silent := effects; try first [apply history_sends | by apply modify_sends | by apply call_sends].

Lemma prune_sends P now : respects (on (sends P)) (prune_reviews now).
Proof. #[local] Transparent prune_reviews. by apply modify_sends. Qed.

Lemma publish_sends P h reference entry result : respects (on (sends P)) (publish max_bytes h reference entry result).
Proof. unfold publish, when. silent. Qed.

#[local] Opaque publish.

(** A message an actor needs a review or a launch of his for. *)
Definition guarded (m : message) : Prop := m_member m = "ApplyPolicyChange"%string \/ m_member m = "StartPreparedLaunch"%string.
Definition unguarded (m : message) : Prop := ~ guarded m.

Lemma operation_asks h actor reference action w :
  t_log (w_transport (after (operation max_bytes h actor reference action) w)) = t_log (w_transport w)
  \/ exists name entry, reference = VStr name /\ In (name, entry) (w_owners w) /\ e_actor entry = actor /\ In action ACTIONS
       /\ (action = "ApplyPolicyChange"%string -> wh_start h < e_expires entry)
       /\ asked action (if String.eqb action "ApplyPolicyChange" then [reference; VBool true] else [reference])
            (w_transport w) (w_transport (after (operation max_bytes h actor reference action) w)).
Proof.
  unfold operation. rewrite after_bind_steps. destruct (require _ _) eqn:Hreq; cbn [lift fst]; [|by left].
  change (after (lift (Ok a)) w) with w. apply require_Ok, andb_true_iff in Hreq as [Href Hact].
  rewrite after_bind_steps. cbn [gets fst]. change (after (gets (fun w => dget (text_in reference) (w_owners w))) w) with w.
  destruct (dget (text_in reference) (w_owners w)) as [entry|] eqn:Hd; [|by left].
  rewrite after_bind_steps. destruct (require (String.eqb (e_actor entry) actor && _) _) eqn:H1; cbn [lift fst]; [|by left].
  change (after (lift (Ok a0)) w) with w. apply require_Ok, andb_true_iff in H1 as [Ha _].
  rewrite after_bind_steps. destruct (require (negb (String.eqb action "ApplyPolicyChange") || _) _) eqn:H2; cbn [lift fst]; [|by left].
  change (after (lift (Ok a1)) w) with w. apply require_Ok in H2.
  right. apply reference_text in Href as (name & -> & _). exists name, entry. split; [done|]. split; [by apply dget_In|].
  split; [by apply String.eqb_eq|]. split; [by apply existsb_In in Hact as (x & Hx & ->%String.eqb_eq)|].
  split; [intros ->; cbn in H2; by apply Z.ltb_lt in H2|].
  eapply asked_then; [|apply call_asked]. rewrite after_bind_steps. destruct ((_call h action _ w).1) as [raw|]; [|done]. set (w1 := after _ w).
  assert (respects (on (sends (fun _ => False)))
    (v ← lift (decode (VStr (py_str raw))); result ← lift (validate_operation v name); _ ← publish max_bytes h name entry result; mret result : act workflows dict)) as Hq
    by (effects; apply publish_sends).
  apply (sends_none _ _ (Hq w1)).
Qed.

Lemma start_asks h actor reference taken w :
  t_log (w_transport (after (start_launch h actor reference taken) w)) = t_log (w_transport w)
  \/ exists entry, In (reference, entry) (w_launches w) /\ l_actor entry = actor /\ wh_start h < l_until entry
       /\ (forall x, In x (w_launches (after (start_launch h actor reference taken) w)) -> x.1 <> reference)
       /\ asked "StartPreparedLaunch" [VStr reference] (w_transport w) (w_transport (after (start_launch h actor reference taken) w)).
Proof.
  unfold start_launch. rewrite after_bind_steps. cbn [gets fst]. change (after (gets (fun w => dget reference (w_launches w))) w) with w.
  destruct (dget reference (w_launches w)) as [entry|] eqn:Hd; [|by left].
  rewrite after_bind_steps. destruct (require _ _) eqn:H1; cbn [lift fst]; [|by left].
  change (after (lift (Ok a)) w) with w. apply require_Ok, andb_true_iff in H1 as [Ha Hu%Z.ltb_lt].
  right. exists entry. split; [by apply dget_In|]. split; [by apply String.eqb_eq|]. split; [done|].
  rewrite after_bind_steps. cbn [modify fst]. set (f := fun w => with_launches _ w).
  change (after (modify f) w) with (f w). rewrite after_bind_steps.
  pose proof (call_asked h "StartPreparedLaunch" [VStr reference] (f w)) as Hasked.
  assert (forall x, In x (w_launches (after (_call h "StartPreparedLaunch" [VStr reference]) (f w))) -> x.1 <> reference) as Hgone.
  { intros x [Hx _]%(keeps_In _ _ _ _ (call_keeps w_launches _ _ _ _)). apply filter_In in Hx as [_ Hx]. by apply negb_true_iff, String.eqb_neq in Hx. }
  destruct ((_call h "StartPreparedLaunch" [VStr reference] (f w)).1) as [streams|]; [|done]. set (w1 := after (_call _ _ _) _) in *.
  match goal with |- context [after ?m w1] => assert (respects eq m) as Hm end; [|by rewrite <- (Hm w1)].
  cbn beta. effects.
Qed.
(** ** Sequences of calls *)

(** The calls of the session, each with what it meets. *)
Inductive call :=
  | CallAdministration (h : work_host)
  | CallOpen (h : work_host)
  | CallPreview (h : work_host) (actor member : string) (arguments : list val)
  | CallOperation (h : work_host) (actor : string) (reference : val) (action : string)
  | CallGrants (h : work_host)
  | CallPrepare (h : work_host) (actor : string) (descriptor : val) (graphical : bool) (handler : option val) (arguments : list val)
  | CallStart (h : work_host) (actor reference : string) (taken : res unit)
  | CallExit (h : work_host) (reference : string)
  | CallReconcile (h : work_host).

Definition perform (c : call) (w : workflows) : workflows :=
  match c with
  | CallAdministration h => after (administration_state h) w
  | CallOpen h => after (open_administration h) w
  | CallPreview h actor member arguments => after (preview h actor member arguments) w
  | CallOperation h actor reference action => after (operation max_bytes h actor reference action) w
  | CallGrants h => after (grants h) w
  | CallPrepare h actor descriptor graphical handler arguments => after (prepare_launch h actor descriptor graphical handler arguments) w
  | CallStart h actor reference taken => after (start_launch h actor reference taken) w
  | CallExit h reference => after (launch_exit h reference) w
  | CallReconcile h => after (reconcile_access_events max_bytes h) w
  end.

Definition performed (l : list call) (w : workflows) : workflows := fold_left (fun w c => perform c w) l w.
Definition messages (w : workflows) : list message := t_log (w_transport w).
Definition connection (w : workflows) : option string := t_owner (w_transport w).

Lemma performed_snoc l c w : performed (l ++ [c]) w = perform c (performed l w).
Proof. unfold performed. by rewrite fold_left_app. Qed.

(** The review a preview adds, and the launch that is prepared. *)
Definition reviews (h : work_host) (actor member : string) (arguments : list val) (w : workflows) (name : string) (entry : review_entry) : Prop :=
  exists v kind review lease,
    (preview h actor member arguments w).1 = Ok (with_lease v kind review lease) /\ validate_preview v (wh_uid h) = Ok (kind, review)
    /\ get "operation_ref" review = VStr name /\ entry = review_of h actor kind review.

Definition prepares (h : work_host) (actor : string) (descriptor : val) (graphical : bool) (handler : option val) (arguments : list val)
    (w : workflows) (name : string) (entry : launch_entry) : Prop :=
  (prepare_launch h actor descriptor graphical handler arguments w).1 = Ok (launch_prepared name graphical)
  /\ entry = LaunchEntry actor (wh_answer h + LAUNCH_MS) graphical.

Lemma validate_preview_reference v uid kind review : validate_preview v uid = Ok (kind, review) -> exists name, get "operation_ref" review = VStr name.
Proof.
  unfold validate_preview. intros Hx. inv_ok. split_bool. subst.
  match goal with Hr : _reference (get "operation_ref" _) _ = true |- _ => apply reference_text in Hr as (s & Hs & _) end. simplify_eq/=. by exists s.
Qed.

Lemma ask_review_Ok h member arguments w v r w' :
  ask_review h member arguments w = (Ok (v, r), w') -> validate_preview v (wh_uid h) = Ok r /\ exists owner, connection w' = Some owner.
Proof.
  unfold ask_review. intros Hx. repeat (apply act_bind_Ok in Hx as (? & ? & ? & Hx)). unfold lift, mret, act_ret in *. simplify_eq/=.
  split; [done|]. by eapply call_owner.
Qed.

Lemma preview_adds h actor member arguments w x :
  In x (w_owners (after (preview h actor member arguments) w)) ->
  (In x (w_owners w) /\ same_owner (w_transport w) (w_transport (after (preview h actor member arguments) w)))
  \/ (reviews h actor member arguments w x.1 x.2 /\ exists owner, connection (after (preview h actor member arguments) w) = Some owner).
Proof.
  pose proof (ask_review_keeps w_owners h member arguments w) as Hk. unfold reviews, preview.
  unfold after, mbind, act_bind in *. destruct (ask_review h member arguments w) as [[[v [kind review]]|e] w1] eqn:E; cbn [snd fst] in *.
  - apply ask_review_Ok in E as [Hv Ho]. cbn. intros [->|Hx]%put_In; [|left; by apply (keeps_In _ _ _ _ Hk)].
    right. split; [|exact Ho]. destruct (validate_preview_reference _ _ _ _ Hv) as [name Hn]. cbn [fst snd]. rewrite Hn. cbn [text_in]. by eauto 10.
  - intros Hx. left. by apply (keeps_In _ _ _ _ Hk).
Qed.

Lemma ask_launch_Ok h descriptor graphical handler arguments w name w' :
  ask_launch h descriptor graphical handler arguments w = (Ok name, w') -> exists owner, connection w' = Some owner.
Proof.
  unfold ask_launch. intros Hx. repeat (apply act_bind_Ok in Hx as (? & ? & ? & Hx)). unfold lift, mret, act_ret in *. simplify_eq/=.
  by eapply call_owner.
Qed.

Lemma prepare_adds h actor descriptor graphical handler arguments w x :
  In x (w_launches (after (prepare_launch h actor descriptor graphical handler arguments) w)) ->
  (In x (w_launches w) /\ same_owner (w_transport w) (w_transport (after (prepare_launch h actor descriptor graphical handler arguments) w)))
  \/ (prepares h actor descriptor graphical handler arguments w x.1 x.2
       /\ exists owner, connection (after (prepare_launch h actor descriptor graphical handler arguments) w) = Some owner).
Proof.
  pose proof (ask_launch_keeps w_launches h descriptor graphical handler arguments w) as Hk. unfold prepares, prepare_launch.
  unfold after, mbind, act_bind in *. destruct (ask_launch h descriptor graphical handler arguments w) as [[name|e] w1] eqn:E; cbn [snd fst] in *.
  - apply ask_launch_Ok in E. cbn. intros [->|Hx]%put_In; [|left; by apply (keeps_In _ _ _ _ Hk)]. right. split; [by split|exact E].
  - intros Hx. left. by apply (keeps_In _ _ _ _ Hk).
Qed.

Lemma preview_keeps_launches h actor member arguments : respects (keeps w_launches) (preview h actor member arguments).
Proof.
  unfold preview. apply respects_bind; [typeclasses eauto|apply ask_review_keeps; typeclasses eauto|]. intros [v [kind review]].
  apply respects_bind; [typeclasses eauto|by apply keeps_modify|intros _; apply respects_ret; typeclasses eauto].
Qed.

Lemma prepare_keeps_reviews h actor descriptor graphical handler arguments :
  respects (keeps w_owners) (prepare_launch h actor descriptor graphical handler arguments).
Proof.
  unfold prepare_launch. apply respects_bind; [typeclasses eauto|apply ask_launch_keeps; typeclasses eauto|]. intros name.
  apply respects_bind; [typeclasses eauto|by apply keeps_modify|intros _; apply respects_ret; typeclasses eauto].
Qed.

Lemma perform_reviews c w x :
  In x (w_owners (perform c w)) ->
  (In x (w_owners w) /\ same_owner (w_transport w) (w_transport (perform c w)))
  \/ exists h actor member arguments, c = CallPreview h actor member arguments /\ reviews h actor member arguments w x.1 x.2
       /\ exists owner, connection (perform c w) = Some owner.
Proof.
  destruct c; cbn [perform]; intros Hx;
    try (left; first
      [ exact (keeps_In _ _ _ x (administration_keeps w_owners _ w) Hx) | exact (keeps_In _ _ _ x (open_keeps w_owners _ w) Hx)
      | exact (keeps_In _ _ _ x (operation_keeps w_owners _ _ _ _ w) Hx) | exact (keeps_In _ _ _ x (grants_keeps w_owners _ w) Hx)
      | exact (keeps_In _ _ _ x (prepare_keeps_reviews _ _ _ _ _ _ w) Hx) | exact (keeps_In _ _ _ x (start_keeps w_owners _ _ _ _ w) Hx)
      | exact (keeps_In _ _ _ x (exit_keeps w_owners _ _ w) Hx) | exact (keeps_In _ _ _ x (reconcile_keeps w_owners _ w) Hx) ]).
  apply preview_adds in Hx as [Hx|[Hr Ho]]; [by left|]. right. by eauto 10.
Qed.

Lemma perform_launches c w x :
  In x (w_launches (perform c w)) ->
  (In x (w_launches w) /\ same_owner (w_transport w) (w_transport (perform c w)))
  \/ exists h actor descriptor graphical handler arguments, c = CallPrepare h actor descriptor graphical handler arguments
       /\ prepares h actor descriptor graphical handler arguments w x.1 x.2 /\ exists owner, connection (perform c w) = Some owner.
Proof.
  destruct c; cbn [perform]; intros Hx;
    try (left; first
      [ exact (keeps_In _ _ _ x (administration_keeps w_launches _ w) Hx) | exact (keeps_In _ _ _ x (open_keeps w_launches _ w) Hx)
      | exact (keeps_In _ _ _ x (operation_keeps w_launches _ _ _ _ w) Hx) | exact (keeps_In _ _ _ x (grants_keeps w_launches _ w) Hx)
      | exact (keeps_In _ _ _ x (preview_keeps_launches _ _ _ _ w) Hx) | exact (keeps_In _ _ _ x (start_keeps w_launches _ _ _ _ w) Hx)
      | exact (keeps_In _ _ _ x (exit_keeps w_launches _ _ w) Hx) | exact (keeps_In _ _ _ x (reconcile_keeps w_launches _ w) Hx) ]).
  apply prepare_adds in Hx as [Hx|[Hr Ho]]; [by left|]. right. by eauto 10.
Qed.
(** The reason of a guarded message of a call. *)
Definition by_review (c : call) (w : workflows) (m : message) : Prop :=
  exists h actor name entry, c = CallOperation h actor (VStr name) "ApplyPolicyChange" /\ m = Message (m_owner m) "ApplyPolicyChange" [VStr name; VBool true]
    /\ In (name, entry) (w_owners w) /\ e_actor entry = actor /\ wh_start h < e_expires entry /\ (connection w = None \/ connection w = Some (m_owner m)).

Definition by_launch (c : call) (w : workflows) (m : message) : Prop :=
  exists h actor name taken entry, c = CallStart h actor name taken /\ m = Message (m_owner m) "StartPreparedLaunch" [VStr name]
    /\ In (name, entry) (w_launches w) /\ l_actor entry = actor /\ wh_start h < l_until entry /\ (connection w = None \/ connection w = Some (m_owner m))
    /\ forall x, In x (w_launches (perform c w)) -> x.1 <> name.

Definition reasoned (c : call) (w : workflows) (m : message) : Prop := guarded m -> by_review c w m \/ by_launch c w m.

Lemma unguarded_on c w w' : on (sends unguarded) w w' -> on (sends (reasoned c w)) w w'.
Proof. intros (l & Hl & Hu). exists l. split; [done|]. eapply Forall_impl; [exact Hu|]. intros m Hm Hg. by destruct Hm. Qed.

Lemma not_guarded owner member arguments :
  PyText.member member ["ApplyPolicyChange"; "StartPreparedLaunch"]%string = false -> unguarded (Message owner member arguments).
Proof. intros Hx [Hm|Hm]; cbn in Hm; by subst. Qed.

Lemma ask_review_sends h member arguments : respects (on (sends unguarded)) (ask_review h member arguments).
Proof.
  destruct (PyText.member member PREVIEWS) eqn:Hm; [|intros w; unfold ask_review; rewrite Hm; by apply sends_refl].
  assert (forall owner, unguarded (Message owner member arguments)) as Hu.
  { intros owner. apply not_guarded. apply existsb_In in Hm as (k & Hk & ->%String.eqb_eq). by destruct Hk as [<-|[<-|[<-|[]]]]. }
  unfold ask_review. effects; [apply prune_sends|by apply call_sends].
Qed.

Lemma quiet_calls c w :
  match c with CallOperation _ _ _ _ | CallStart _ _ _ _ => True | _ => on (sends unguarded) w (perform c w) end.
Proof.
  assert (forall h member arguments, PyText.member member ["ApplyPolicyChange"; "StartPreparedLaunch"]%string = false ->
    respects (on (sends unguarded)) (_call h member arguments)) as Hcall.
  { intros h member arguments Hm. apply call_sends. intros owner. by apply not_guarded. }
  destruct c; try done; cbn [perform]; revert w;
    match goal with |- forall w, on ?R w (after ?m w) => change (respects (on R) m) end.
  - unfold administration_state. effects. by apply Hcall.
  - unfold open_administration. effects. by apply Hcall.
  - unfold preview. apply respects_bind; [typeclasses eauto|apply ask_review_sends|]. intros [v [kind review]]. effects. by apply modify_sends.
  - unfold grants. effects. by apply Hcall.
  - unfold prepare_launch, ask_launch. effects; try (by apply modify_sends). apply Hcall. by destruct handler, graphical.
  - unfold launch_exit. effects. by apply Hcall.
  - unfold reconcile_access_events, reconcile_body. effects; try (by apply modify_sends); try (by apply Hcall).
    apply respects_each; [typeclasses eauto|]. intros v. unfold record_denial, when. silent.
Qed.

Lemma asked_reasoned member arguments w w' P :
  asked member arguments (w_transport w) (w_transport w') ->
  (forall owner, connection w = None \/ connection w = Some owner -> P (Message owner member arguments)) -> on (sends P) w w'.
Proof.
  intros [Hl|(owner & Hl & Ho)] Hp; [by apply sends_refl|]. exists [Message owner member arguments]. split; [done|]. constructor; [by apply Hp|done].
Qed.

Lemma perform_reasoned c w : on (sends (reasoned c w)) w (perform c w).
Proof.
  pose proof (quiet_calls c w) as Hq. destruct c; try by apply unguarded_on.
  - destruct (operation_asks h actor reference action w) as [Hl|(name & entry & -> & Hin & Ha & Hact & Hexp & Hasked)]; [by apply sends_refl|].
    apply (asked_reasoned _ _ _ _ _ Hasked). intros owner Ho. destruct (String.eqb_spec action "ApplyPolicyChange") as [->|Hne].
    + intros _. left. exists h, actor, name, entry. auto 10.
    + intros Hg. exfalso. destruct Hg as [Hg|Hg]; cbn in Hg; [done|]. subst action. by destruct Hact as [?|[?|[?|[]]]].
  - destruct (start_asks h actor reference taken w) as [Hl|(entry & Hin & Ha & Hu & Hgone & Hasked)]; [by apply sends_refl|].
    apply (asked_reasoned _ _ _ _ _ Hasked). intros owner Ho _. right. exists h, actor, reference, taken, entry. auto 10.
Qed.

(** ** Where a review or a launch that is held comes from *)

Lemma reviews_history l w0 x :
  w_owners w0 = [] -> In x (w_owners (performed l w0)) ->
  exists l1 h actor member arguments l2, l = l1 ++ CallPreview h actor member arguments :: l2
    /\ reviews h actor member arguments (performed l1 w0) x.1 x.2
    /\ connection (performed (l1 ++ [CallPreview h actor member arguments]) w0) = connection (performed l w0)
    /\ exists owner, connection (performed l w0) = Some owner.
Proof.
  intros H0'. revert x. induction l as [|c l IH] using rev_ind; [intros x; cbn; by rewrite H0'|]. intros x. rewrite performed_snoc. intros Hx.
  apply perform_reviews in Hx as [[Hx Hs]|(h & actor & member & arguments & -> & Hr & Ho)].
  - destruct (IH x Hx) as (l1 & h & actor & member & arguments & l2 & -> & Hr & Hc & owner & Ho).
    destruct Hs as [Hs|Hs]; [unfold connection in Ho; congruence|].
    exists l1, h, actor, member, arguments, (l2 ++ [c]). split; [by rewrite <- app_assoc|]. split; [done|].
    rewrite Hc. unfold connection in *. rewrite Hs. by eauto.
  - exists l, h, actor, member, arguments, []. split; [done|]. split; [done|]. by rewrite performed_snoc.
Qed.

(** No message that starts the launch is among these. *)
Definition not_started (name : string) (l : list message) : Prop :=
  Forall (fun m => ~ (m_member m = "StartPreparedLaunch"%string /\ m_arguments m = [VStr name])) l.

Lemma survivor_not_started c w x : In x (w_launches (perform c w)) -> exists sent, messages (perform c w) = messages w ++ sent /\ not_started x.1 sent.
Proof.
  intros Hx. destruct (perform_reasoned c w) as (sent & Hs & Hr). exists sent. split; [done|]. eapply Forall_impl; [exact Hr|].
  intros m Hm [Hstart Hargs]. destruct Hm as [Hm|Hm]; [by right| |].
  - destruct Hm as (h & actor & name & entry & _ & Hm & _). by rewrite Hm in Hstart.
  - destruct Hm as (h & actor & name & taken & entry & _ & Hm & _ & _ & _ & _ & Hgone). rewrite Hm in Hargs. cbn in Hargs.
    injection Hargs as ->. by apply (Hgone x Hx).
Qed.

Lemma launches_history l w0 x :
  w_launches w0 = [] -> In x (w_launches (performed l w0)) ->
  exists l1 h actor descriptor graphical handler arguments l2, l = l1 ++ CallPrepare h actor descriptor graphical handler arguments :: l2
    /\ prepares h actor descriptor graphical handler arguments (performed l1 w0) x.1 x.2
    /\ connection (performed (l1 ++ [CallPrepare h actor descriptor graphical handler arguments]) w0) = connection (performed l w0)
    /\ (exists owner, connection (performed l w0) = Some owner)
    /\ exists sent, messages (performed l w0) = messages (performed (l1 ++ [CallPrepare h actor descriptor graphical handler arguments]) w0) ++ sent
         /\ not_started x.1 sent.
Proof.
  intros H0'. revert x. induction l as [|c l IH] using rev_ind; [intros x; cbn; by rewrite H0'|]. intros x. rewrite performed_snoc. intros Hx.
  destruct (survivor_not_started _ _ _ Hx) as (sent & Hsent & Hnot).
  apply perform_launches in Hx as [[Hx Hs]|(h & actor & descriptor & graphical & handler & arguments & -> & Hr & Ho)].
  - destruct (IH x Hx) as (l1 & h & actor & descriptor & graphical & handler & arguments & l2 & -> & Hr & Hc & (owner & Ho) & sent1 & Hs1 & Hn1).
    destruct Hs as [Hs|Hs]; [unfold connection in Ho; congruence|].
    exists l1, h, actor, descriptor, graphical, handler, arguments, (l2 ++ [c]). split; [by rewrite <- app_assoc|]. split; [done|].
    split; [rewrite Hc; unfold connection; by rewrite Hs|]. split; [unfold connection in *; rewrite Hs; by eauto|].
    exists (sent1 ++ sent). split; [by rewrite Hsent, Hs1, app_assoc|by apply Forall_app].
  - exists l, h, actor, descriptor, graphical, handler, arguments, []. split; [done|]. split; [done|]. rewrite performed_snoc. split; [done|].
    split; [done|]. exists []. split; [by rewrite app_nil_r|constructor].
Qed.

(** What a call sends. *)
Definition sent_by (c : call) (w : workflows) (m : message) : Prop := exists sent, messages (perform c w) = messages w ++ sent /\ In m sent.

Lemma sent_reasoned c w m : sent_by c w m -> reasoned c w m.
Proof.
  intros (sent & Hs & Hm). destruct (perform_reasoned c w) as (sent' & Hs' & Hr). unfold messages in Hs. rewrite Hs' in Hs. apply app_inv_head in Hs as ->.
  rewrite Forall_forall in Hr. by apply Hr, list_elem_of_In.
Qed.

(** C6. A change of policy is only applied for the actor it was reviewed by. Over
    every sequence of calls from the start of the session: when a call sends
    ApplyPolicyChange, the call is the operation of some actor on a reference, and
    the same actor asked before for a preview that was answered with a valid
    review of this reference, by the very connection to the broker that the change
    is sent to, and the time the review gave him is not over. *)
Theorem applied_reviews_are_own history l c m :
  let start := new_workflows history in
  sent_by c (performed l start) m -> m_member m = "ApplyPolicyChange"%string ->
  exists h actor name, c = CallOperation h actor (VStr name) "ApplyPolicyChange" /\ m_arguments m = [VStr name; VBool true]
    /\ exists l1 hp member arguments l2 v kind review lease,
         l = l1 ++ CallPreview hp actor member arguments :: l2
         /\ (preview hp actor member arguments (performed l1 start)).1 = Ok (with_lease v kind review lease)
         /\ validate_preview v (wh_uid hp) = Ok (kind, review) /\ get "operation_ref" review = VStr name
         /\ connection (performed (l1 ++ [CallPreview hp actor member arguments]) start) = Some (m_owner m)
         /\ wh_start h < wh_start hp + int_of (get "expires_after_ms" review).
Proof.
  intros start Hm%sent_reasoned Happly. destruct Hm as [Hm|Hm]; [by left| |].
  - destruct Hm as (h & actor & name & entry & -> & Hm & Hin & Ha & He & Ho). exists h, actor, name. split; [done|]. split; [by rewrite Hm|].
    destruct (reviews_history l start _ eq_refl Hin) as (l1 & hp & actor' & member & arguments & l2 & -> & Hr & Hc & owner & Hown).
    destruct Hr as (v & kind & review & lease & Hp & Hv & Hn & Hentry). cbn [fst snd] in *. subst entry. cbn in Ha, He. subst actor'.
    exists l1, hp, member, arguments, l2, v, kind, review, lease. split; [done|]. split; [done|]. split; [done|]. split; [done|].
    split; [|done]. rewrite Hc. destruct Ho as [Ho|Ho]; [congruence|done].
  - destruct Hm as (h & actor & name & taken & entry & _ & Hm & _). by rewrite Hm in Happly.
Qed.

(** C16. A prepared launch is started at most once, by the actor it was prepared
    for. Over every sequence of calls from the start of the session: when a call
    sends StartPreparedLaunch, it is the call of some actor to start a reference,
    this reference was prepared for the same actor less than 90 seconds before on
    the connection it is sent to, and no message that starts it was sent since. *)
Theorem launches_start_once history l c m :
  let start := new_workflows history in
  sent_by c (performed l start) m -> m_member m = "StartPreparedLaunch"%string ->
  exists h actor name taken, c = CallStart h actor name taken /\ m_arguments m = [VStr name]
    /\ exists l1 hp descriptor graphical handler arguments l2 sent,
         l = l1 ++ CallPrepare hp actor descriptor graphical handler arguments :: l2
         /\ (prepare_launch hp actor descriptor graphical handler arguments (performed l1 start)).1 = Ok (launch_prepared name graphical)
         /\ connection (performed (l1 ++ [CallPrepare hp actor descriptor graphical handler arguments]) start) = Some (m_owner m)
         /\ wh_start h < wh_answer hp + LAUNCH_MS
         /\ messages (performed l start) = messages (performed (l1 ++ [CallPrepare hp actor descriptor graphical handler arguments]) start) ++ sent
         /\ not_started name sent.
Proof.
  intros start Hm%sent_reasoned Hstart. destruct Hm as [Hm|Hm]; [by right| |].
  - destruct Hm as (h & actor & name & entry & _ & Hm & _). by rewrite Hm in Hstart.
  - destruct Hm as (h & actor & name & taken & entry & -> & Hm & Hin & Ha & He & Ho & _). exists h, actor, name, taken. split; [done|]. split; [by rewrite Hm|].
    destruct (launches_history l start _ eq_refl Hin) as (l1 & hp & actor' & descriptor & graphical & handler & arguments & l2 & -> & Hr & Hc & (owner & Hown) & sent & Hsent & Hnot).
    destruct Hr as (Hp & Hentry). cbn [fst snd] in *. subst entry. cbn in Ha, He. subst actor'.
    exists l1, hp, descriptor, graphical, handler, arguments, l2, sent. split; [done|]. split; [done|].
    split; [rewrite Hc; destruct Ho as [Ho|Ho]; [congruence|done]|done].
Qed.

(** ** Bounds *)

Record bounded (w : workflows) : Prop := Bounded {
  bd_reviews : (length (w_owners w) <= MAX_REVIEWS)%nat; bd_launches : (length (w_launches w) <= MAX_LAUNCHES)%nat }.

Lemma ask_review_room h member arguments w x w' : ask_review h member arguments w = (Ok x, w') -> (length (w_owners w') < MAX_REVIEWS)%nat.
Proof.
  unfold ask_review. intros Hx. repeat (apply act_bind_Ok in Hx as (? & ? & ? & Hx)). unfold lift, gets, mret, act_ret in *. simplify_eq/=.
  repeat match goal with H : require _ _ = Ok _ |- _ => apply require_Ok in H end.
  match goal with H : _call _ _ _ ?s = (_, ?s') |- (length (w_owners ?s') < _)%nat =>
    pose proof (call_keeps w_owners h member arguments s) as [[Hl _] _]; unfold after in Hl; rewrite H in Hl; cbn [snd] in Hl end.
  match goal with H : (_ <? _)%nat = true |- _ => apply Nat.ltb_lt in H end. lia.
Qed.

Lemma ask_launch_room h descriptor graphical handler arguments w x w' :
  ask_launch h descriptor graphical handler arguments w = (Ok x, w') -> (length (w_launches w') < MAX_LAUNCHES)%nat.
Proof.
  unfold ask_launch. intros Hx. repeat (apply act_bind_Ok in Hx as (? & ? & ? & Hx)). unfold lift, gets, mret, act_ret in *. simplify_eq/=.
  repeat match goal with H : require _ _ = Ok _ |- _ => apply require_Ok in H end.
  match goal with H : _call _ ?m ?a ?s = (_, ?s') |- (length (w_launches ?s') < _)%nat =>
    pose proof (call_keeps w_launches h m a s) as [[Hl _] _]; unfold after in Hl; rewrite H in Hl; cbn [snd] in Hl end.
  match goal with H : (_ <? _)%nat = true |- _ => apply Nat.ltb_lt in H end. lia.
Qed.

Lemma perform_reviews_bound c w : (length (w_owners w) <= MAX_REVIEWS)%nat -> (length (w_owners (perform c w)) <= MAX_REVIEWS)%nat.
Proof.
  intros Hw. assert (forall w', keeps w_owners w w' -> (length (w_owners w') <= MAX_REVIEWS)%nat) as Hk by (intros w' [[Hl _] _]; lia).
  destruct c; cbn [perform];
    try (apply Hk; first
      [ apply (administration_keeps w_owners) | apply (open_keeps w_owners) | apply (operation_keeps w_owners) | apply (grants_keeps w_owners)
      | apply prepare_keeps_reviews | apply (start_keeps w_owners) | apply (exit_keeps w_owners) | apply (reconcile_keeps w_owners) ]).
  pose proof (Hk _ (ask_review_keeps w_owners h member arguments w)) as Ha. unfold preview. unfold after, mbind, act_bind in *.
  destruct (ask_review h member arguments w) as [[[v [kind review]]|e] w1] eqn:E; [|done]. apply ask_review_room in E.
  change (length (put (text_in (get "operation_ref" review)) (review_of h actor kind review) (w_owners w1)) <= MAX_REVIEWS)%nat.
  pose proof (put_length (text_in (get "operation_ref" review)) (review_of h actor kind review) (w_owners w1)). unfold MAX_REVIEWS in *. cbn. lia.
Qed.

Lemma perform_launches_bound c w : (length (w_launches w) <= MAX_LAUNCHES)%nat -> (length (w_launches (perform c w)) <= MAX_LAUNCHES)%nat.
Proof.
  intros Hw. assert (forall w', keeps w_launches w w' -> (length (w_launches w') <= MAX_LAUNCHES)%nat) as Hk by (intros w' [[Hl _] _]; lia).
  destruct c; cbn [perform];
    try (apply Hk; first
      [ apply (administration_keeps w_launches) | apply (open_keeps w_launches) | apply (operation_keeps w_launches) | apply (grants_keeps w_launches)
      | apply preview_keeps_launches | apply (start_keeps w_launches) | apply (exit_keeps w_launches) | apply (reconcile_keeps w_launches) ]).
  pose proof (Hk _ (ask_launch_keeps w_launches h descriptor graphical handler arguments w)) as Ha. unfold prepare_launch. unfold after, mbind, act_bind in *.
  destruct (ask_launch h descriptor graphical handler arguments w) as [[name|e] w1] eqn:E; [|done]. apply ask_launch_room in E.
  change (length (put name (LaunchEntry actor (wh_answer h + LAUNCH_MS) graphical) (w_launches w1)) <= MAX_LAUNCHES)%nat.
  pose proof (put_length name (LaunchEntry actor (wh_answer h + LAUNCH_MS) graphical) (w_launches w1)). unfold MAX_LAUNCHES in *. cbn. lia.
Qed.

(** The session holds at most 32 reviews and 32 launches, after every sequence of
    calls, and at most 256 counts of denials after each reading of the events that
    returns. *)
Lemma workflows_bounded history l : bounded (performed l (new_workflows history)).
Proof.
  induction l as [|c l [Hr Hl]] using rev_ind; [split; cbn; lia|]. rewrite performed_snoc.
  split; [by apply perform_reviews_bound|by apply perform_launches_bound].
Qed.

Lemma blocks_bounded h w u w' : reconcile_access_events max_bytes h w = (Ok u, w') -> (length (w_blocks w') <= MAX_BLOCKS)%nat.
Proof.
  unfold reconcile_access_events. intros Hx. apply act_bind_Ok in Hx as (? & w1 & _ & Hx). cbn in Hx. injection Hx as _ <-. cbn.
  unfold trim_blocks. apply last_n_length.
Qed.

(** A result that could not be recorded is not offered again: [record_event] says
    so by returning false, and the operation counts as published. *)
Lemma unrecorded_is_published h reference entry result w e d v :
  event (wh_now h) (wh_event h) (policy_event reference (e_kind entry) result (e_review entry)) = Ok v ->
  record max_bytes (wh_now h) (VDict v) (w_history w) = (Err (ProviderError e), d) ->
  in_strs SETTLED (get "outcome" result) = true -> PyText.member reference (w_published w) = false ->
  publish max_bytes h reference entry result w = (Ok tt, with_owners (w_owners w) (reference :: w_published w) (with_history d w)).
Proof.
  #[local] Transparent publish on_history.
  intros Hv Hrec Hs Hp. unfold publish, mbind, act_bind, gets. rewrite Hs, Hp. cbn [andb negb when].
  unfold catch, on_history, _record, lift, record_for_user, mbind, act_bind. rewrite Hv. unfold catch. rewrite Hrec. reflexivity.
Qed.
End calls.

(** ** Examples *)

Definition hex_name (namespace c : string) : string := namespace +:+ "_" +:+ String.concat "" (repeat c 64).

Definition flags (names : list string) (v : bool) : val := VDict (map (fun k => (k, VBool v)) names).

Definition sample_protection (health : string) (effective : val) : val :=
  VDict (dlit [("requested_profile", VStr "ISOLATED"); ("effective_profile", effective); ("health", VStr health); ("coverage", flags COVERAGE true);
               ("isolation", flags ISOLATION true); ("reviewed_exception", VBool false); ("policy_revision", VInt 3); ("evidence_age_ms", VInt 29000)]).

Definition reply_with (fields : list (string * val)) : val := VStr (dumps (VDict (dlit (("schema"%string, VStr AppProjection.SCHEMA) :: fields)))).

Definition answered (reply : val) : read_host := ReadHost (fun _ _ => Ok reply) 200 0.
Definition ok_dict (r : res dict) : dict := match r with Ok d => d | Err _ => [] end.

(** An isolated application on evidence of 29 seconds, shown for 0.8 seconds. *)
Definition coverage_host : read_host :=
  answered (reply_with [("inventory_health"%string, VStr "AVAILABLE"); ("protection"%string, sample_protection "AVAILABLE" (VStr "ISOLATED"))]).
Definition coverage_query : request := Request "GetCoverage" 100 None "" "".
Definition coverage_shown : dict := ok_dict (_read coverage_host 1000 coverage_query []).


(** Two pages of one protected resource each, and the empty one at the end. *)
Definition sample_resource (c : string) : val :=
  VDict (dlit [("resource_ref", VStr (hex_name "resource" c)); ("owner_uid", VInt 1000); ("category", VStr "CLOUD"); ("label", VStr "keys");
               ("coverage", VStr "UNKNOWN"); ("policy_revision", VInt 2)]).

Definition resources_host (items : list val) (cursor : val) : read_host :=
  answered (reply_with [("policy_revision"%string, VInt 2); ("inventory_health"%string, VStr "UNKNOWN"); ("resources"%string, VList items);
                    ("next_cursor"%string, cursor)]).

Definition page_read_of (items : list val) (cursor : val) (after : string) : read_host * dict :=
  let h := resources_host items cursor in
  (h, dict_in (get "projection" (ok_dict (_read h 1000 (Request "ListProtectedResources" 1 (Some 2) "" after) [])))).

Definition sample_pages : list (read_host * dict) :=
  [page_read_of [sample_resource "a"] (VStr (hex_name "resource" "a")) "";
   page_read_of [sample_resource "b"] (VStr (hex_name "resource" "b")) (hex_name "resource" "a");
   page_read_of [] VNone (hex_name "resource" "b")].

Lemma pages_never_repeat_witness :
  map snd (references "ListProtectedResources" sample_pages) = [hex_name "resource" "a"; hex_name "resource" "b"]
  /\ StronglySorted before (map snd (references "ListProtectedResources" sample_pages))
  /\ Forall (fun x => x.1 = VInt 1000) (references "ListProtectedResources" sample_pages).
Proof.
  split; [vm_compute; reflexivity|].
  apply (pages_never_repeat 1000 "ListProtectedResources" sample_pages); [by right; left|].
  eapply (follow_next _ _ _ _ _ 1 (Some 2) []); [vm_compute; discriminate|vm_compute; reflexivity..|].
  eapply (follow_next _ _ _ _ _ 1 (Some 2) []); [vm_compute; discriminate|vm_compute; reflexivity..|].
  apply (follow_end _ _ _ _ 1 (Some 2) []); [vm_compute; discriminate|vm_compute; reflexivity..].
Defined.

(** *** A session *)

#[local] Instance plain_sqlite : Sqlite := {
  size_bytes n d := 0; integer_column v := Ok v; sql_datetime s := None }.

Definition root_node (k : kind) (ino : Z) : node := Node k 493 0 0 ino "" 0 0 (Ok None) (Ok None).
Definition bus_disk : fs := list_to_map [(["run"], root_node Directory 1); (["run"; "dbus"], root_node Directory 2); (SOCKET, root_node Special 3)].

(** The broker is the connection [:1.5] of root. *)
Definition broker_host (start : Z) (reply : val) : work_host :=
  WorkHost (BusHost bus_disk (Ok tt) (Ok (VStr ":1.5")) (Ok (VDict [("UnixUserID"%string, VInt 0)])) (Ok reply) (Ok (VStr ":1.5")) (fun _ => 0) (Ok tt))
    start (start + 10) 0 1000 (EventHost "u" 0 VNone).

Definition revocation : val :=
  VDict (dlit [("operation_ref", VStr (hex_name "operation" "a")); ("installation_ref", VStr (hex_name "installation" "b"));
               ("generation", VStr (String.concat "" (repeat "c" 64))); ("resource_refs", VList [VStr (hex_name "resource" "d")]); ("risks", VList []);
               ("expected_revision", VInt 1); ("expires_after_ms", VInt 60000)]).

Definition pending : val :=
  VDict (dlit [("operation_ref", VStr (hex_name "operation" "a")); ("outcome", VStr "PENDING"); ("committed_revision", VNone);
               ("verified_readback", VBool false); ("failure", VNone)]).

Definition review_call : call :=
  CallPreview (broker_host 0 (VStr (dumps (VDict (dlit [("kind", VStr "REVOCATION"); ("preview", revocation)]))))) ":1.9" "PreviewGrantRevocation" [].
Definition apply_call : call := CallOperation (broker_host 20000 (VStr (dumps pending))) ":1.9" (VStr (hex_name "operation" "a")) "ApplyPolicyChange".
Definition apply_message : message := Message ":1.5" "ApplyPolicyChange" [VStr (hex_name "operation" "a"); VBool true].

Lemma applied_reviews_are_own_witness :
  exists h actor name, apply_call = CallOperation h actor (VStr name) "ApplyPolicyChange"
  /\ exists l1 hp member arguments l2, [review_call] = l1 ++ CallPreview hp actor member arguments :: l2
       /\ connection (performed MAX_DB_BYTES (l1 ++ [CallPreview hp actor member arguments]) (new_workflows empty_db)) = Some ":1.5".
Proof.
  destruct (applied_reviews_are_own MAX_DB_BYTES empty_db [review_call] apply_call apply_message) as (h & actor & name & Hc & _ & Hl).
  - exists [apply_message]. split; [vm_compute; reflexivity|by left].
  - reflexivity.
  - exists h, actor, name. split; [exact Hc|].
    destruct Hl as (l1 & hp & member & arguments & l2 & v & kind & review & lease & Hl & _ & _ & _ & Ho & _).
    exists l1, hp, member, arguments, l2. split; [exact Hl|exact Ho].
Defined.

Definition prepare_call : call := CallPrepare (broker_host 0 (VStr (hex_name "launch" "e"))) ":1.9" (VInt 7) true None [].
Definition start_call : call := CallStart (broker_host 20000 (VList [VInt 3; VInt 4; VInt 5])) ":1.9" (hex_name "launch" "e") (Ok tt).
Definition start_message : message := Message ":1.5" "StartPreparedLaunch" [VStr (hex_name "launch" "e")].

Lemma launches_start_once_witness :
  messages (performed MAX_DB_BYTES [prepare_call; start_call; start_call] (new_workflows empty_db))
    = [Message ":1.5" "PrepareGraphicalLaunch" [VInt 7; VList []]; start_message]
  /\ exists h actor name taken, start_call = CallStart h actor name taken
       /\ exists l1 hp descriptor graphical handler arguments l2, [prepare_call] = l1 ++ CallPrepare hp actor descriptor graphical handler arguments :: l2
            /\ wh_start h < wh_answer hp + LAUNCH_MS.
Proof.
  split; [vm_compute; reflexivity|].
  destruct (launches_start_once MAX_DB_BYTES empty_db [prepare_call] start_call start_message) as (h & actor & name & taken & Hc & _ & Hl).
  - exists [start_message]. split; [vm_compute; reflexivity|by left].
  - reflexivity.
  - exists h, actor, name, taken. split; [exact Hc|].
    destruct Hl as (l1 & hp & descriptor & graphical & handler & arguments & l2 & sent & Hl & _ & _ & Ht & _).
    exists l1, hp, descriptor, graphical, handler, arguments, l2. split; [exact Hl|exact Ht].
Defined.
